(* ===== verification/_CoqProject ===== *)
-Q . S2P
Prelude.v
KernelApi.v
TeeTypes.v
Mailbox.v
MailboxInv.v
MailboxThm.v
MailboxClaims.v
Buffers.v
SessReg.v
SessLookup.v
SessOk.v
CallTypes.v
Auth.v
AuthCall.v
AuthThm.v
AuthOk.v
AuthClaims.v
AuthCallClaims.v
AuthCipher.v
SmcQueue.v
SmcLock.v
SmcSteps.v
SmcClaims.v
SmcPending.v
SmcPendingThm.v
SmcSend.v
SmcSendClaims.v
SmcChan.v
SmcReport.v
GpParams.v
GpCall.v
GpHeld.v
GpAlloc.v
GpCallThm.v
GpClaims.v
Tlogger.v
TloggerThm.v
TloggerSys.v
KoAdapt.v
TloggerClaims.v
Agent.v
AgentReg.v
AgentThm.v
AgentClaims.v
AgentSteps.v
AgentRefs.v
TeecdAuth.v
TeecdClaims.v
SessLoad.v
SessLoadThm.v
SessLoadClaims.v
SessMgr.v
SessInv.v
SessInvOps.v
SessInvFind.v
SessMgrThm.v
SessUse.v
Login.v
ShareMem.v
Driver.v
ShareMemClaims.v
DevClose.v
DriverThm.v
DriverSteps.v
DriverClaims.v
Spi.v
SpiThm.v
SpiClaims.v
CmdMonitor.v
CmdMonitorThm.v
Teek.v
TeekThm.v
TeekClaims.v
Pm.v
PmClaims.v
SmcInit.v
SmcInitThm.v
Boot.v
BootClaims.v
EndToEnd.v
