(* ===== verification/Prelude.v ===== *)
(** * tzdriver: the REE-side driver of the iTrustee TEE

    The driver lets client applications (CAs) of the normal world call trusted
    applications (TAs) in the secure world.  A CA opens the device, opens a
    session with a TA and invokes commands; the driver copies the parameters
    into a 4 MiB pool of pages shared with the TEE (the mailbox), puts a
    command block into a queue shared with the TEE, enters the secure world by
    an SMC instruction, and copies the results back.

    ** Parts of the program and how they interact

    - core/mailbox_mempool.c is a buddy allocator over the mailbox pool.  All
      other parts allocate what the TEE may see from it.
    - core/gp_ops.c implements one call ([tc_client_call]): it allocates a
      command pack and one mailbox block for each memory parameter, asks the
      authentication layer to prepare the command, sends it, waits while the
      TA is pending, updates the client and releases everything.
    - auth/security_auth_enhance.c keeps a token with a scrambled timestamp for
      each session, scrambles command blocks and encrypts login data.
    - core/session_manager.c keeps the registry of device files, services and
      sessions, all reference counted, loads TA images into the TEE and opens,
      uses and closes sessions.  core/mem.c keeps the shared buffers of a
      device file.
    - core/smc_smp.c owns the command queue (three bitmaps and two arrays of
      command blocks), the list of waiting callers (pending entries), and the
      loop that sends a command, handles exits, timeouts and kill requests.
    - core/agent.c lets the TEE use services of the normal world: a caller
      whose command comes back with an agent request hands it to the agent and
      carries the answer into the TEE.
    - core/teec_daemon_auth.c and auth/auth_base_impl.c decide whether a
      process is the TEE daemon, which alone may use privileged commands.
    - tlogger/ reads the log the TEE writes into a ring of shared memory.
    - core/tz_spi_notify.c receives notifications of the TEE (timers, wake-ups,
      shadow threads) in shared pages, announced by an interrupt.
    - core/cmdmonitor.c watches the commands that are running and reports the
      ones that take too long.
    - core/tc_client_driver.c is the device: open, close, mmap and the dispatch
      of ioctls to all of the above, and the loading of the module.
    - core/teek_client_api.c and core/teek_app_load.c offer sessions and commands
      to clients inside the kernel.
    - core/tz_pm.c saves and restores the memory of the TEE when the machine
      hibernates.
    - ko_adapt.c finds kernel functions that are not exported and calls them;
      kthread_affinity/ keeps the driver's threads on the control CPUs.

    ** Files

    Foundations.
    [Prelude] (this file): outcomes with [Fault] for undefined behaviour,
    machine integers, error numbers, powers of two.
    [KernelApi], [Buffers]: what the driver uses of the kernel and of
    libboundscheck, each a class of operations with the laws relied on and one
    instance that satisfies them: page frames, [memcpy_s] and [memset_s] on
    memory and on buffers, user-space copies; byte memory, sub-buffers,
    little-endian words.
    [TeeTypes], [CallTypes]: the structures of tc_ns_client.h, teek_ns_client.h
    and gp_ops.h, the parameter-type encoding, the two functions that reach
    client memory, and the interface classes between layers ([SmcChannel] is
    the SMC layer as its callers see it).

    The mailbox pool (core/mailbox_mempool.c).
    [Mailbox]: [mailbox] is the pair of globals [g_m_zone] and [g_max_oder];
    free lists are lists of page indices, one definition per function, the
    debugfs commands included.  [MailboxInv]: the invariant of the zone and its
    preservation by splitting and merging.  [MailboxThm]: the entry points on a
    well-formed pool.  [MailboxClaims]: refinement of an abstract allocator,
    safety of reachable states, coalescing, double frees; the class
    [BlockAllocator] states what the pool promises and is discharged here.

    The session registry (core/session_manager.c, core/tc_client_driver.c,
    core/mem.h).
    [SessReg]: one heap per structure, indexed by address, and the operations on
    them.  [SessLookup]: a lookup and its release are balanced.  [SessOk]: the
    well-formedness invariant [reg_ok], under which lookups never fault, and
    the equivalence [reg_like].

    The authentication layer (auth/security_auth_enhance.c).
    [Auth], [AuthCall]: one definition per function.  [AuthThm], [AuthClaims]:
    timestamps.  [AuthCallClaims]: tokens and scrambling.  [AuthCipher]: sizes,
    padding and encryption.  [AuthOk]: inside a call the layer never faults.

    The SMC layer (core/smc_smp.c).
    [SmcQueue]: the command queue, each section under its lock as one function.
    [SmcLock]: the lock and the same sections access by access, on any number
    of processors.  [SmcSteps]: a step relation whose actors are
    the callers and the TEE, the writes a caller makes to its slot between two
    sections (timestamp, checksum) included, with its invariant; [SmcClaims]:
    its theorems.
    [SmcPending], [SmcPendingThm]: pending entries, as a step relation of
    waiting callers and wakers.  [SmcSend], [SmcSendClaims]: the
    send loop against an arbitrary world ([SmcWorld]): the TEE's reaction to
    an SMC, waiting, sleeping, signals.  [SmcChan]: the queue and the send loop
    implement [SmcChannel], by comparison with a reference definition.
    [SmcReport]: the report of a crash, and the questions the
    driver asks about the calling task.

    GP operations (core/gp_ops.c).
    [GpParams], [GpCall]: one definition per function, written against
    [BlockAllocator] and [SmcChannel].  [GpHeld]: the blocks and references an
    operation holds.  [GpAlloc]: allocation.  [GpCallThm]: the invariant of a
    call in progress.  [GpClaims]: the theorems.

    The log reader (tlogger/tlogger.c, tlogger/log_pages_cfg.c).
    [Tlogger], [TloggerSys]: one definition per function over a ring of bytes.
    [TloggerThm]: the parser on arbitrary and on well-formed bytes.
    [TloggerClaims]: the theorems.

    Agents (core/agent.c).
    [Agent], [AgentReg]: the list of event nodes, registration and the kernel
    agents.  [AgentThm], [AgentClaims]: registration and removal.
    [AgentSteps]: the hand-shake of caller and agent, one step per access to
    the shared node, with its theorems.  [AgentRefs]: all operations on event
    nodes as sequences of accesses that any number of threads interleave, and
    the lifetime of the nodes.

    The TEE daemon (core/teec_daemon_auth.c, auth/auth_base_impl.c).
    [TeecdAuth], [TeecdClaims].

    Session management (core/session_manager.c).
    [SessLoad], [SessLoadThm], [SessLoadClaims]: loading of TA images.
    [SessMgr]: opening, using and closing sessions, the functions composed as
    in the code.  [SessInv]: the invariant [reg_inv], what every reference
    counter counts.  [SessInvOps], [SessInvFind], [SessMgrThm], [SessUse]: the operations keep it.

    The device (core/tc_client_driver.c, core/mem.c).
    [Login]: the certificate of a login.  [ShareMem]: shared buffers.  [Driver]:
    the file operations and the ioctl dispatch.  [ShareMemClaims]: mapping and
    unmapping.  [DevClose], [DriverThm],
    [DriverSteps]: closing a device file, sequences of requests.
    [DriverClaims]: the theorems.

    Notifications (core/tz_spi_notify.c).
    [Spi]: the shared page, the interrupt and its work items, the handlers, the
    callbacks, set-up and removal.  [SpiThm]: taking entries, the handlers,
    one run of a work item against a reference.  [SpiClaims]: the TEE, the
    interrupt and the work items as a step relation, and the theorems.

    The command monitor (core/cmdmonitor.c).
    [CmdMonitor], [CmdMonitorThm]: a step relation of the threads that send
    commands, which finish them access by access without the mutex, and the
    periodic work item, item by item; its invariant and theorems.

    Clients in the kernel (core/teek_client_api.c, core/teek_app_load.c).
    [Teek]: the structures of the client are read at their offsets in byte
    memory; one definition per function.  [TeekThm], [TeekClaims].

    Hibernation (core/tz_pm.c).
    [Pm], [PmClaims].

    Loading and unloading (core/smc_smp.c, core/tee_compat_check.c,
    core/tc_client_driver.c).
    [SmcInit], [SmcInitThm]: the channel to the TEE and its threads.  [Boot]:
    [tc_init] and [tc_exit] as a composition of the components' states.
    [BootClaims]: the theorems.

    Kernel functions and affinity (ko_adapt.c, kthread_affinity/).
    [KoAdapt].

    The whole stack.
    [EndToEnd]: the interfaces of calls and requests instantiated with the
    driver's own mailbox and command queue; the slots of the queue through a
    call.

    ** What the theorems show

    - Mailbox: [mailbox_alloc] and [mailbox_free] implement an allocator of
      disjoint blocks, no page is lost, an idle pool has merged completely, no
      reachable operation faults; freeing a page that heads no live block is
      ignored, but for a free block of the top order with a count.
    - The whole stack: requests and calls over the driver's own mailbox and
      queue return, every counter stays exact, and a call keeps no slot of the
      queue unless it breaks off while its command is pending; with a TEE that
      leaves no command pending no sequence of requests keeps a slot.  The TEE
      leaves a command by a normal exit and pending only boundedly often
      ([TeeCoreLaws]), one caller uses the queue at a time, and device files are
      closed in a way that closes their sessions ([closable]).
    - Queue: the sections under the lock are atomic; the TEE only sees complete
      commands, an answer reaches its caller and nobody else, slots are
      exclusive and not leaked by a submission; pending entries are never used
      after they are freed.
    - Sending: the answer of the TEE is what the caller gets; a crash of the
      TEE refuses every later command; the timeout steps are sound.  With one
      caller at a time the whole path through queue, SMC and agents is the TEE
      run on the prepared command, and the queue is ready for the next call.
      A crash report prints the fields of the message and nothing else.
    - Authentication: timestamps and tokens survive a round trip, replayed
      tokens are refused, ciphertexts decrypt to what was encrypted, all
      buffers are respected.
    - Calls: every path of [tc_client_call] returns and gives back every block
      and every reference; parameters are transferred exactly and within
      bounds.
    - Driver and sessions: whatever sequence of opens, session ioctls, logins
      and closes the clients issue and whatever the TEE answers, every counter
      equals the number of its users, as long as no close leaves sessions open
      because its kernel thread cannot be created or the daemon is exiting
      ([closable]; two lemmas show what happens then); opening a session has no effect unless it
      succeeds; closing one removes exactly it; closing a device releases all
      it used and always ends.
    - TA images: the TEE receives the frames of a reference splitting of the
      file.
    - Agents: requests and answers are not mixed up, a request is answered if
      the agent serves it, registration and removal are balanced, and whatever
      the threads that work, wait, answer, die, register and unregister do, no
      event node is used after it is freed or freed while it is in use.
    - TEE daemon: the decision refines a rule (right path, pinned code hash),
      and what the code hash covers.
    - Log: reading never leaves the ring or the client's buffer while the TEE
      keeps the length of the ring and of the item that is being copied; a log
      of well-formed items is delivered in order and without loss while the TEE
      is idle; the archive is complete.
    - Login and shared buffers: the certificate is stored as sent, once;
      mapping and unmapping leave no buffer behind, the areas of an exiting
      daemon excepted.
    - Notifications: every notification the TEE writes is taken by at most one
      work item under every interleaving, and by one unless an entry of unknown
      type is in front of it; a run of a work item does what a reference does,
      whatever the page holds.
    - Command monitor: no item is used after it is freed, the list is exact, and
      a command that runs too long is reported by the next tick.
    - Kernel clients: a checked operation is encoded within the client's
      buffers and as the client described it, ION parameters excepted; a session is opened or nothing is left of the attempt, the image
      buffer included; closing removes exactly the session.
    - Hibernation: every byte of the TEE's memory is restored, and the buffers
      are released whatever the TEE answers.
    - Loading: the module is up, with the TEE's key taken and erased from the
      queue, or its services are down; unloading takes them down.  A [cdev_add]
      that fails is not noticed, and the class is destroyed twice.
    - Affinity: the calls that bind each thread and each work queue to the
      control CPUs of the device tree are exactly those expected; the adapters
      call the functions they name.
    Some lemmas show what the code does where it departs from its intention
    (a call that breaks off while its command is pending keeps its slot, an RTC
    timer notification leaks a session, unloading leaves threads, pages
    and registrations behind, a killed caller's answer reaches the
    next one, a restarted agent loses an answer, a close whose kernel thread
    cannot start leaks sessions, a double free of the top-order block, an
    unknown exit reason that keeps a slot, a log reader that misses a lap of
    the ring, sizes that are checked and read again from memory shared with the
    TEE, an unregistration that loses a reference, and others).

    ** Modelling choices

    Error paths the code handles are values; undefined behaviour (access to
    freed or unallocated objects, corrupted lists) is [Fault].  A pointer is
    its address, 0 is NULL.  Mutexes make the operations they protect atomic;
    interleavings are modelled where the code relies on finer atomicity (the
    queue and its lock, the pending entries, event nodes of agents, the end of
    a monitored command, the notification page, the ring of the log).  The [operation] of a command pack is kept
    as a record beside the byte memory, and the TEE may change it.  Error
    branches of [memcpy_s] between whole objects of equal constant size are
    left out where no buffer class is at hand.  The
    configuration is that of the Makefile (CONFIG_AUTH_ENHANCE on).

    Fuel.  [smp_smc_send_func] and [shadow_thread_fn] take the number of SMCs
    they may send: [smc_send_returns_answer] and [queue_implements_channel] give
    numbers that are enough.
    [tc_client_call] and the operations on sessions take the number of commands
    that may be answered with TEEC_PENDING: [tc_client_call_balanced] and
    [client_close_releases] show that any bound on the TEE's patience is
    enough, [stack_call_balanced] and [stack_requests_safe] the same over the
    queue.  The loops of the log reader compute their fuel from their own
    bounds, and running out of it is a [Fault] that [tlogger_read_safe]
    excludes.  A run of [tc_notify_fn] takes the number of entries and of SMCs;
    [notify_run_serves] gives numbers that are enough.  [transfer_loop] copies
    48 buffers and has fuel for 49 rounds; [send_smc_cmd] repeats a call as
    often as the TEE asks for it, which [raw_rank] bounds.  Every other loop is
    structural (over four parameters, a list,
    the orders of the buddy allocator, the retries of a submission).

    ** Not modelled

    tc_ns_log.h holds macros for printk.  The SMC instruction itself, the
    scheduler, the file system and the kernel's allocators are parameters.
    Code for other configurations (CONFIG_ACPI, CONFIG_ARCH32,
    CONFIG_TA_AFFINITY, CONFIG_TEE_AUDIT, CONFIG_SELINUX_ADAPT) is not
    compiled, and the prototypes of the headers and the tables of file
    operations have nothing to model.  [KoAdapt] models the affinity of threads although the Makefile
    leaves it out: elsewhere [tz_kthread_bind_mask] does nothing.  Apart from
    the crash report, the text of log messages is left out.  [queue_channel]
    serves one caller at a time; the interleaving of callers in the queue is
    the subject of [SmcSteps]. *)

From stdpp Require Import base gmap list strings fin_maps.
From Stdlib Require Import ZArith Lia.

#[global] Open Scope Z_scope.

(** ** Outcomes

    [Fault] stands for a C execution with undefined behaviour (an access
    outside an array, a list node linked twice or unlinked while not on a
    list).  Error paths the code handles itself are values of the return type,
    never [Fault]. *)

Inductive outcome (A : Type) : Type :=
| Ret (a : A)
| Fault.
Arguments Ret {A} a.
Arguments Fault {A}.

#[export] Instance outcome_ret : MRet outcome := @Ret.
#[export] Instance outcome_bind : MBind outcome :=
  λ A B (f : A → outcome B) (m : outcome A),
    match m with Ret a => f a | Fault => Fault end.

Lemma bind_Ret {A B} (m : outcome A) (f : A → outcome B) b :
  m ≫= f = Ret b ↔ ∃ a, m = Ret a ∧ f a = Ret b.
Proof.
  destruct m; simpl; split.
  - eauto.
  - intros (? & [= ->] & ?). done.
  - done.
  - intros (? & ? & ?). done.
Qed.

(** An array access: [Fault] outside the array. *)
Definition at_index {A} (m : gmap Z A) (i : Z) : outcome A :=
  match m !! i with Some a => Ret a | None => Fault end.

Lemma at_index_Some {A} (h : gmap Z A) p a : at_index h p = Ret a ↔ h !! p = Some a.
Proof. unfold at_index. destruct (h !! p); split; congruence. Qed.

Lemma ret_bind {A B} (a : A) (f : A → outcome B) : (Ret a ≫= f) = f a.
Proof. done. Qed.

Lemma Ret_inj2 {A B} (a a' : A) (b b' : B) :
  Ret (a, b) = Ret (a', b') → a = a' ∧ b = b'.
Proof. by intros [= -> ->]. Qed.

Lemma Ret_inj3 {A B C} (a a' : A) (b b' : B) (c c' : C) :
  Ret (a, b, c) = Ret (a', b', c') → a = a' ∧ b = b' ∧ c = c'.
Proof. by intros [= -> -> ->]. Qed.

Lemma Ret_inj4 {A B C D} (a a' : A) (b b' : B) (c c' : C) (d d' : D) :
  Ret (a, b, c, d) = Ret (a', b', c', d') → a = a' ∧ b = b' ∧ c = c' ∧ d = d'.
Proof. by intros [= -> -> -> ->]. Qed.

(** ** Machine integers *)

Definition u8 (x : Z) : Z := x mod 2 ^ 8.
Definition u32 (x : Z) : Z := x mod 2 ^ 32.
Definition u64 (x : Z) : Z := x mod 2 ^ 64.

(** Conversion to a two's-complement [int]. *)
Definition s32 (x : Z) : Z :=
  let y := x mod 2 ^ 32 in if y <? 2 ^ 31 then y else y - 2 ^ 32.

Lemma u32_range x : 0 ≤ u32 x < 2 ^ 32.
Proof. apply Z.mod_pos_bound; lia. Qed.

Lemma u64_range x : 0 ≤ u64 x < 2 ^ 64.
Proof. apply Z.mod_pos_bound; lia. Qed.

Lemma u32_small x : 0 ≤ x < 2 ^ 32 → u32 x = x.
Proof. apply Z.mod_small. Qed.

Lemma u64_small x : 0 ≤ x < 2 ^ 64 → u64 x = x.
Proof. apply Z.mod_small. Qed.

Lemma s32_range x : - 2 ^ 31 ≤ s32 x < 2 ^ 31.
Proof.
  unfold s32. pose proof (Z.mod_pos_bound x (2 ^ 32) ltac:(lia)).
  destruct (Z.ltb_spec (x mod 2 ^ 32) (2 ^ 31)); lia.
Qed.

Lemma s32_small x : - 2 ^ 31 ≤ x < 2 ^ 31 → s32 x = x.
Proof.
  intros Hx. unfold s32. destruct (decide (0 ≤ x)) as [H|H].
  - rewrite Z.mod_small by lia. destruct (Z.ltb_spec x (2 ^ 31)); lia.
  - rewrite <- (Z.mod_add x 1), Z.mod_small by lia.
    destruct (Z.ltb_spec (x + 1 * 2 ^ 32) (2 ^ 31)); lia.
Qed.

(** C truth values. *)
Definition nonzero (x : Z) : bool := negb (x =? 0).

Lemma nonzero_true x : nonzero x = true ↔ x ≠ 0.
Proof. unfold nonzero. destruct (Z.eqb_spec x 0); simpl; split; try done; lia. Qed.

Lemma nonzero_false x : nonzero x = false ↔ x = 0.
Proof. unfold nonzero. destruct (Z.eqb_spec x 0); simpl; split; try done; lia. Qed.

Lemma nonzero_neq x : x ≠ 0 → nonzero x = true.
Proof. apply nonzero_true. Qed.

(** ** Error numbers (include/uapi/asm-generic/errno-base.h and errno.h) *)

Definition EOK : Z := 0.
Definition EPERM : Z := 1.
Definition ENOENT : Z := 2.
Definition EINTR : Z := 4.
Definition EIO : Z := 5.
Definition EAGAIN : Z := 11.
Definition ENOMEM : Z := 12.
Definition EACCES : Z := 13.
Definition EFAULT : Z := 14.
Definition ENODEV : Z := 19.
Definition EINVAL : Z := 22.
Definition ERESTARTSYS : Z := 512.

(** ** Powers of two *)

Lemma pow2_pos k : 0 ≤ k → 0 < 2 ^ k.
Proof. intros. apply Z.pow_pos_nonneg; lia. Qed.

Lemma pow2_succ k : 0 ≤ k → 2 ^ (k + 1) = 2 * 2 ^ k.
Proof. intros. rewrite Z.pow_add_r by lia. lia. Qed.

Lemma pow2_le j k : 0 ≤ j ≤ k → 2 ^ j ≤ 2 ^ k.
Proof. intros. apply Z.pow_le_mono_r; lia. Qed.

Lemma pow2_lt j k : 0 ≤ j < k → 2 ^ j < 2 ^ k.
Proof. intros. apply Z.pow_lt_mono_r; lia. Qed.

Lemma pow2_double_le j k : 0 ≤ j < k → 2 * 2 ^ j ≤ 2 ^ k.
Proof. intros. rewrite <- pow2_succ by lia. apply pow2_le; lia. Qed.

Lemma pow2_divide j k : 0 ≤ j ≤ k → (2 ^ j | 2 ^ k).
Proof.
  intros. exists (2 ^ (k - j)). rewrite <- Z.pow_add_r by lia. f_equal. lia.
Qed.

(** Two multiples of the same number closer than that number are equal. *)
Lemma aligned_eq d a b : (d | a) → (d | b) → a ≤ b < a + d → a = b.
Proof. intros [x ->] [y ->] ?. assert (x = y) by nia. congruence. Qed.

(** Aligned blocks of power-of-two sizes are nested or disjoint. *)
Lemma aligned_nested j k a b p :
  0 ≤ j ≤ k → (2 ^ j | a) → (2 ^ k | b) →
  a ≤ p < a + 2 ^ j → b ≤ p < b + 2 ^ k →
  b ≤ a ∧ a + 2 ^ j ≤ b + 2 ^ k.
Proof.
  intros Hjk [x ->] [y ->] Ha Hb.
  assert (2 ^ k = 2 ^ (k - j) * 2 ^ j) as E.
  { rewrite <- Z.pow_add_r by lia. f_equal. lia. }
  pose proof (pow2_pos (k - j) ltac:(lia)). pose proof (pow2_pos j ltac:(lia)).
  rewrite E in *. set (d := 2 ^ j) in *. set (e := 2 ^ (k - j)) in *.
  assert (y * e ≤ x < y * e + e) by nia. nia.
Qed.

(** The buddy of an aligned index. *)
Lemma lxor_pow2 a k :
  0 ≤ k → (2 ^ k | a) →
  Z.lxor a (2 ^ k) = if Z.testbit a k then a - 2 ^ k else a + 2 ^ k.
Proof.
  intros Hk [q ->].
  assert (Z.testbit (q * 2 ^ k) k = Z.odd q) as ->.
  { rewrite Z.mul_pow2_bits by lia. rewrite Z.sub_diag. apply Z.bit0_odd. }
  rewrite <- !Z.shiftl_mul_pow2 by lia.
  replace (2 ^ k) with (Z.shiftl 1 k) by (rewrite Z.shiftl_mul_pow2; lia).
  rewrite <- Z.shiftl_lxor.
  replace (Z.lxor q 1) with (if Z.odd q then q - 1 else q + 1).
  { rewrite !Z.shiftl_mul_pow2 by lia. destruct (Z.odd q); nia. }
  assert (∀ n, 0 < n → Z.testbit 1 n = false) as H1.
  { intros n Hn. apply Z.bits_above_log2; simpl; lia. }
  assert (∀ m n, 0 < n → Z.testbit (2 * m + 1) n = Z.testbit (2 * m) n) as H2.
  { intros m n Hn. replace n with (Z.succ (n - 1)) by lia.
    by rewrite Z.testbit_odd_succ, Z.testbit_even_succ by lia. }
  apply Z.bits_inj'. intros n Hn. rewrite Z.lxor_spec.
  destruct (Z.odd q) eqn:Hodd.
  - apply Z.odd_spec in Hodd as [m ->].
    replace (2 * m + 1 - 1) with (2 * m) by lia.
    destruct (decide (n = 0)) as [->|].
    + by rewrite Z.testbit_odd_0, Z.testbit_even_0.
    + by rewrite H1, H2, xorb_false_r by lia.
  - assert (Z.even q = true) as [m ->]%Z.even_spec
      by (by rewrite <- Z.negb_odd, Hodd).
    destruct (decide (n = 0)) as [->|].
    + by rewrite Z.testbit_odd_0, Z.testbit_even_0.
    + by rewrite H1, H2, xorb_false_r by lia.
Qed.
