(* ===== verification/KernelApi.v ===== *)
(** * What the driver uses of the kernel and of libboundscheck

    Byte memory, the page-frame functions of the kernel and the bounds-checked
    memory functions of libboundscheck.  None of these is part of the driver:
    each is a class of operations with the laws the driver relies on, and one
    concrete instance that shows the laws can hold together. *)

From stdpp Require Import base gmap list fin_maps.
From Stdlib Require Import ZArith Lia.
From S2P Require Import Prelude.

(** ** Byte memory *)

Abbreviation mem := (gmap Z Z).

Definition load_byte (m : mem) (a : Z) : Z := default 0 (m !! a).

Fixpoint load_bytes (m : mem) (a : Z) (n : nat) : list Z :=
  match n with
  | O => []
  | S n => load_byte m a :: load_bytes m (a + 1) n
  end.

Fixpoint store_bytes (m : mem) (a : Z) (l : list Z) : mem :=
  match l with
  | [] => m
  | b :: l => store_bytes (<[a := b]> m) (a + 1) l
  end.

Lemma load_bytes_length m a n : length (load_bytes m a n) = n.
Proof. revert a. induction n; naive_solver. Qed.

Lemma store_bytes_lookup_outside m a l x :
  x < a ∨ a + Z.of_nat (length l) ≤ x → store_bytes m a l !! x = m !! x.
Proof.
  revert m a. induction l as [|b l IH]; intros m a Hx; simpl in *; [done|].
  rewrite IH by lia. apply lookup_insert_ne. lia.
Qed.

Lemma store_bytes_lookup m a l i b :
  l !! i = Some b → store_bytes m a l !! (a + Z.of_nat i) = Some b.
Proof.
  revert m a i. induction l as [|c l IH]; intros m a i Hi; [done|].
  destruct i as [|i]; simpl in *; simplify_eq.
  - rewrite store_bytes_lookup_outside by lia.
    rewrite Z.add_0_r. apply lookup_insert_eq.
  - replace (a + Z.of_nat (S i)) with (a + 1 + Z.of_nat i) by lia. by apply IH.
Qed.

Lemma load_bytes_ext m m' a n :
  (∀ x, a ≤ x < a + Z.of_nat n → m !! x = m' !! x) →
  load_bytes m a n = load_bytes m' a n.
Proof.
  revert a. induction n as [|n IH]; intros a Hx; simpl; [done|].
  f_equal; [|apply IH; intros; apply Hx; lia].
  unfold load_byte. rewrite Hx by lia. done.
Qed.

Lemma load_store_bytes m a l :
  load_bytes (store_bytes m a l) a (length l) = l.
Proof.
  revert m a. induction l as [|b l IH]; intros m a; simpl; [done|].
  rewrite IH. f_equal. unfold load_byte.
  rewrite store_bytes_lookup_outside by lia. by rewrite lookup_insert_eq.
Qed.

Lemma load_store_bytes_outside m a l b n :
  b + Z.of_nat n ≤ a ∨ a + Z.of_nat (length l) ≤ b →
  load_bytes (store_bytes m a l) b n = load_bytes m b n.
Proof.
  intros Hd. apply load_bytes_ext. intros x Hx.
  apply store_bytes_lookup_outside. lia.
Qed.

Lemma load_bytes_take m a j n :
  (j ≤ n)%nat → take j (load_bytes m a n) = load_bytes m a j.
Proof.
  revert a j. induction n as [|n IH]; intros a j Hj; destruct j as [|j]; try done; [lia|].
  cbn. f_equal. apply IH. lia.
Qed.

(** ** Page frames

    A [struct page *] is an index into the frame table. *)

Definition PAGE_SHIFT : Z := 12.
Definition PAGE_SIZE : Z := 2 ^ PAGE_SHIFT.

Class PageMap := {
  page_address : Z → Z;
  virt_to_page : Z → Z;
  virt_to_phys : Z → Z
}.

Class PageMapLaws (P : PageMap) := {
  page_address_pos p : 0 ≤ p → 0 < page_address p;
  virt_to_page_address p d :
    0 ≤ p → 0 ≤ d < PAGE_SIZE → virt_to_page (page_address p + d) = p;
  page_address_linear p q :
    0 ≤ p → 0 ≤ q → page_address (p + q) = page_address p + q * PAGE_SIZE
}.

(** The kernel's linear map, based at a page-aligned address. *)
Definition linear_base : Z := 2 ^ 40.

Definition linear_map : PageMap := {|
  page_address p := linear_base + p * PAGE_SIZE;
  virt_to_page a := (a - linear_base) / PAGE_SIZE;
  virt_to_phys a := a - linear_base
|}.

#[export] Instance linear_map_laws : PageMapLaws linear_map.
Proof.
  split; unfold linear_map, linear_base, PAGE_SIZE, PAGE_SHIFT; simpl; intros.
  - lia.
  - symmetry. apply Z.div_unique with d; lia.
  - lia.
Qed.

(** ** libboundscheck

    [memset_s dest destMax c count] and [memcpy_s dest destMax src count]
    return [EOK] or an error number. *)

Definition SECUREC_MEM_MAX_LEN : Z := 2147483647.

Class SecureC := {
  memset_s : Z → Z → Z → Z → mem → Z * mem;
  memcpy_s : Z → Z → Z → Z → mem → Z * mem
}.

Class SecureCLaws (S : SecureC) := {
  memset_s_ok dest destMax c count m :
    dest ≠ 0 → 0 < destMax ≤ SECUREC_MEM_MAX_LEN → 0 ≤ count ≤ destMax →
    memset_s dest destMax c count m =
      (EOK, store_bytes m dest (replicate (Z.to_nat count) (u8 c)));
  memcpy_s_ok dest destMax src count m :
    dest ≠ 0 → src ≠ 0 → 0 < destMax ≤ SECUREC_MEM_MAX_LEN →
    0 ≤ count ≤ destMax →
    dest + count ≤ src ∨ src + count ≤ dest →
    memcpy_s dest destMax src count m =
      (EOK, store_bytes m dest (load_bytes m src (Z.to_nat count)));
  memcpy_s_too_long dest destMax src count m :
    0 < destMax ≤ SECUREC_MEM_MAX_LEN → destMax < count →
    (memcpy_s dest destMax src count m).1 ≠ EOK;
  memcpy_s_frame dest destMax src count m x :
    0 < destMax → ¬ dest ≤ x < dest + destMax →
    (memcpy_s dest destMax src count m).2 !! x = m !! x
}.

(** A direct implementation of the documented behaviour. *)
Definition bounds_check (destMax count : Z) : bool :=
  (0 <? destMax) && (destMax <=? SECUREC_MEM_MAX_LEN)
  && (0 <=? count) && (count <=? destMax).

Definition boundscheck : SecureC := {|
  memset_s dest destMax c count m :=
    if bounds_check destMax count && nonzero dest
    then (EOK, store_bytes m dest (replicate (Z.to_nat count) (u8 c)))
    else (EINVAL, m);
  memcpy_s dest destMax src count m :=
    if bounds_check destMax count && nonzero dest && nonzero src
    then (EOK, store_bytes m dest (load_bytes m src (Z.to_nat count)))
    else (EINVAL, m)
|}.

#[export] Instance boundscheck_laws : SecureCLaws boundscheck.
Proof.
  assert (∀ d, d ≠ 0 → nonzero d = true) as Hnz.
  { intros d Hd. unfold nonzero. destruct (Z.eqb_spec d 0); done. }
  assert (∀ d c, 0 < d ≤ SECUREC_MEM_MAX_LEN → 0 ≤ c ≤ d →
    bounds_check d c = true) as Hb.
  { intros d c ??. unfold bounds_check. lia. }
  split; simpl; intros.
  - by rewrite Hb, Hnz.
  - by rewrite Hb, !Hnz.
  - unfold bounds_check. destruct (Z.leb_spec count destMax); [lia|].
    rewrite andb_false_r. done.
  - unfold bounds_check.
    destruct (Z.leb_spec 0 count), (Z.leb_spec count destMax); rewrite ?andb_false_r; try done.
    destruct (_ && nonzero src); [|done]. apply store_bytes_lookup_outside.
    rewrite load_bytes_length. lia.
Qed.
