(* ===== verification/TeeTypes.v ===== *)
(** * Shared types and constants (tc_ns_client.h, teek_ns_client.h,
    teek_client_constants.h)

    Plain data: the command block sent to the TEE, the operation it points to,
    the parameter-type encoding, command ids, return codes. *)

From stdpp Require Import base gmap list.
From Stdlib Require Import ZArith Lia.
From S2P Require Import Prelude.

(** ** Constants *)

Definition UUID_LEN : Z := 16.
Definition PARAM_NUM : Z := 4.
Definition TEE_PARAM_NUM : Z := 4.
Definition ADDR_TRANS_NUM : Z := 32.

Definition TC_CALL_GLOBAL : Z := 1.
Definition TC_CALL_SYNC : Z := 2.
Definition TC_CALL_LOGIN : Z := 4.
Definition TEE_REQ_FROM_USER_MODE : Z := 0.
Definition TEE_REQ_FROM_KERNEL_MODE : Z := 1.

(** [enum smc_cmd_type] *)
Definition CMD_TYPE_GLOBAL : Z := 0.
Definition CMD_TYPE_TA : Z := 1.
Definition CMD_TYPE_TA_AGENT : Z := 2.
Definition CMD_TYPE_TA2TA_AGENT : Z := 3.
Definition CMD_TYPE_BUILDIN_AGENT : Z := 4.

(** [enum global_service_cmd_id] *)
Definition GLOBAL_CMD_ID_OPEN_SESSION : Z := 0x2.
Definition GLOBAL_CMD_ID_CLOSE_SESSION : Z := 0x3.
Definition GLOBAL_CMD_ID_LOAD_SECURE_APP : Z := 0x4.
Definition GLOBAL_CMD_ID_NEED_LOAD_APP : Z := 0x5.
Definition GLOBAL_CMD_ID_REGISTER_AGENT : Z := 0x6.
Definition GLOBAL_CMD_ID_UNREGISTER_AGENT : Z := 0x7.
Definition GLOBAL_CMD_ID_REGISTER_NOTIFY_MEMORY : Z := 0x8.
Definition GLOBAL_CMD_ID_UNREGISTER_NOTIFY_MEMORY : Z := 0x9.
Definition GLOBAL_CMD_ID_REGISTER_LOG_MEM : Z := 0xf.
Definition GLOBAL_CMD_ID_KILL_TASK : Z := 0x10.
Definition GLOBAL_CMD_ID_ADJUST_TIME : Z := 0x12.
Definition GLOBAL_CMD_ID_SET_CA_HASH : Z := 0x13.
Definition GLOBAL_CMD_ID_GET_SESSION_SECURE_PARAMS : Z := 0x16.
Definition GLOBAL_CMD_ID_REGISTER_MAILBOX : Z := 0x17.
Definition GLOBAL_CMD_ID_LATE_INIT : Z := 0x20.

(** [enum teec_result] *)
Definition TEEC_SUCCESS : Z := 0.
Definition TEEC_ERROR_GENERIC : Z := 0xFFFF0000.
Definition TEEC_ERROR_ACCESS_DENIED : Z := 0xFFFF0001.
Definition TEEC_ERROR_BAD_PARAMETERS : Z := 0xFFFF0006.
Definition TEEC_ERROR_OUT_OF_MEMORY : Z := 0xFFFF000C.
Definition TEEC_ERROR_SHORT_BUFFER : Z := 0xFFFF0010.
Definition TEEC_PENDING : Z := 0xFFFF2000.
Definition TEEC_PENDING2 : Z := 0xFFFF2001.
Definition TEE_ERROR_TAGET_DEAD : Z := 0xFFFF3024.
Definition TEE_ERROR_GT_DEAD : Z := 0xFFFF3124.
Definition TEEC_ERROR_MAC_INVALID : Z := 0xFFFF3071.
Definition TEEC_CLIENT_INTR : Z := 0xFFFF4000.
Definition TEE_ERROR_AUDIT_FAIL : Z := 0xFFFF9112.

(** [enum TEEC_ReturnCodeOrigin] *)
Definition TEEC_ORIGIN_API : Z := 1.
Definition TEEC_ORIGIN_COMMS : Z := 2.
Definition TEEC_ORIGIN_TEE : Z := 3.
Definition TEEC_ORIGIN_TRUSTED_APP : Z := 4.

(** [enum TEEC_ParamType] *)
Definition TEEC_NONE : Z := 0x0.
Definition TEEC_VALUE_INPUT : Z := 0x1.
Definition TEEC_VALUE_OUTPUT : Z := 0x2.
Definition TEEC_VALUE_INOUT : Z := 0x3.
Definition TEEC_MEMREF_TEMP_INPUT : Z := 0x5.
Definition TEEC_MEMREF_TEMP_OUTPUT : Z := 0x6.
Definition TEEC_MEMREF_TEMP_INOUT : Z := 0x7.
Definition TEEC_ION_INPUT : Z := 0x8.
Definition TEEC_ION_SGLIST_INPUT : Z := 0x9.
Definition TEEC_MEMREF_WHOLE : Z := 0xc.
Definition TEEC_MEMREF_PARTIAL_INPUT : Z := 0xd.
Definition TEEC_MEMREF_PARTIAL_OUTPUT : Z := 0xe.
Definition TEEC_MEMREF_PARTIAL_INOUT : Z := 0xf.

(** [enum TEE_ParamType] *)
Definition TEE_PARAM_TYPE_NONE : Z := 0x0.
Definition TEE_PARAM_TYPE_VALUE_INPUT : Z := 0x1.
Definition TEE_PARAM_TYPE_VALUE_OUTPUT : Z := 0x2.
Definition TEE_PARAM_TYPE_VALUE_INOUT : Z := 0x3.
Definition TEE_PARAM_TYPE_MEMREF_INPUT : Z := 0x5.
Definition TEE_PARAM_TYPE_MEMREF_OUTPUT : Z := 0x6.
Definition TEE_PARAM_TYPE_MEMREF_INOUT : Z := 0x7.

(** ** Parameter types: four 4-bit tags packed in a word *)

Definition teec_param_types (p0 p1 p2 p3 : Z) : Z :=
  Z.lor (Z.lor (Z.lor (Z.shiftl p3 12) (Z.shiftl p2 8)) (Z.shiftl p1 4)) p0.

Definition teec_param_type_get (param_types index : Z) : Z :=
  Z.land (Z.shiftr param_types (Z.shiftl index 2)) 0x0F.

(** ** The operation and the command block *)

(** [union tc_ns_parameter]: two words, read as [memref] (buffer, size) or as
    [value] (a, b). *)
Record tc_ns_parameter := NsParam { par_w0 : Z; par_w1 : Z }.

Definition memref_buffer := par_w0.
Definition memref_size := par_w1.
Definition value_a := par_w0.
Definition value_b := par_w1.

(** The pointers [sharemem[i]] and [mb_buffer[i]] are addresses, 0 for NULL. *)
Record tc_ns_operation := NsOperation {
  op_paramtypes : Z;
  op_params : list tc_ns_parameter;
  op_buffer_h_addr : list Z;
  op_sharemem : list Z;
  op_mb_buffer : list Z
}.

Definition zero_operation : tc_ns_operation :=
  NsOperation 0 (replicate 4 (NsParam 0 0)) (replicate 4 0) (replicate 4 0)
    (replicate 4 0).

Record tc_ns_smc_cmd := SmcCmd {
  uuid : list Z;
  cmd_type : Z;
  cmd_id : Z;
  dev_file_id : Z;
  context_id : Z;
  agent_id : Z;
  operation_phys : Z;
  operation_h_phys : Z;
  login_method : Z;
  login_data_phy : Z;
  login_data_h_addr : Z;
  login_data_len : Z;
  err_origin : Z;
  ret_val : Z;
  event_nr : Z;
  uid : Z;
  ca_pid : Z;
  token_phys : Z;
  token_h_phys : Z;
  pid : Z;
  params_phys : Z;
  params_h_phys : Z;
  eventindex : Z;
  started : bool
}.

(** [kzalloc]: a zeroed command block. *)
Definition zero_smc_cmd : tc_ns_smc_cmd :=
  SmcCmd (replicate 16 0) 0 0 0 0 0 0 0 0 0 0 0 0 0 0 0 0 0 0 0 0 0 0 false.

#[export] Instance tc_ns_smc_cmd_eq_dec : EqDecision tc_ns_smc_cmd.
Proof. solve_decision. Defined.

(** ** Lemmas on the parameter-type encoding *)

Lemma param_nibble_bits x i :
  0 ≤ x < 16 → Z.testbit x i = (0 <=? i) && (i <? 4) && Z.testbit x i.
Proof.
  intros Hx. destruct (Z.leb_spec 0 i); simpl; [|by rewrite Z.testbit_neg_r].
  destruct (Z.ltb_spec i 4); simpl; [done|].
  destruct (decide (x = 0)) as [->|]; [apply Z.bits_0|].
  apply Z.bits_above_log2; [lia|].
  apply Z.log2_lt_pow2; [lia|].
  apply Z.lt_le_trans with (2 ^ 4); [lia|]. apply pow2_le; lia.
Qed.

(** Each tag is read back from the packed word. *)
Lemma teec_param_type_get_pack p0 p1 p2 p3 i :
  0 ≤ p0 < 16 → 0 ≤ p1 < 16 → 0 ≤ p2 < 16 → 0 ≤ p3 < 16 →
  0 ≤ i < 4 →
  [p0; p1; p2; p3] !! Z.to_nat i
    = Some (teec_param_type_get (teec_param_types p0 p1 p2 p3) i).
Proof.
  intros H0 H1 H2 H3 Hi.
  assert (Hmask : ∀ n, 0 ≤ n → Z.testbit 0x0F n = (n <? 4)).
  { intros n Hn. change 0x0F with (Z.ones 4).
    destruct (Z.ltb_spec n 4).
    - apply Z.ones_spec_low. lia.
    - apply Z.ones_spec_high. lia. }
  assert (Hget : ∀ x p, 0 ≤ p < 16 →
    (∀ n, 0 ≤ n < 4 → Z.testbit x (n + 4 * i) = Z.testbit p n) →
    p = Z.land (Z.shiftr x (Z.shiftl i 2)) 0x0F).
  { intros x p Hp Hb. apply Z.bits_inj'. intros n Hn.
    rewrite Z.land_spec, Z.shiftr_spec, Hmask by lia.
    rewrite Z.shiftl_mul_pow2 by lia.
    replace (n + i * 2 ^ 2) with (n + 4 * i) by lia.
    destruct (Z.ltb_spec n 4).
    - by rewrite andb_true_r, Hb.
    - rewrite andb_false_r, param_nibble_bits by lia.
      destruct (Z.ltb_spec n 4); [lia|]. by rewrite andb_false_r. }
  assert (i = 0 ∨ i = 1 ∨ i = 2 ∨ i = 3) as Hc by lia.
  unfold teec_param_type_get, teec_param_types.
  destruct Hc as [->|[->|[->| ->]]]; simpl; f_equal; apply Hget; try done;
    intros n Hn; rewrite !Z.lor_spec, !Z.shiftl_spec by lia.
  all: rewrite (param_nibble_bits p3), (param_nibble_bits p2),
         (param_nibble_bits p1), (param_nibble_bits p0) by lia.
  all: repeat match goal with
    | |- context [?a <=? ?b] => destruct (Z.leb_spec a b); try lia
    | |- context [?a <? ?b] => destruct (Z.ltb_spec a b); try lia
    end; simpl; rewrite ?orb_false_r; try done; f_equal; lia.
Qed.
