(* ===== verification/Mailbox.v ===== *)
(** * The mailbox memory pool (core/mailbox_mempool.c): model

    A binary buddy allocator over the 4 MiB pool shared with the TEE, and the
    debugfs bookkeeping on top of it.  The pool's zone is a record, the arrays
    [pages] and [free_areas] are maps from the index, and the embedded
    [struct list_head] of a page is the page's index in the list it is linked
    on.  Linking a node that is already linked, or unlinking one that is not,
    is a [Fault]: in C both corrupt the list. *)

From stdpp Require Import base gmap list fin_maps.
From Stdlib Require Import ZArith Lia.
From S2P Require Import Prelude KernelApi TeeTypes.

Definition SZ_4K : Z := 4096.
Definition SZ_4M : Z := 4194304.
Definition MAILBOX_POOL_SIZE : Z := SZ_4M.
Definition MB_FLAG_ZERO : Z := 1.
Definition MAILBOX_PAGE_MAX : Z := Z.shiftr MAILBOX_POOL_SIZE PAGE_SHIFT.

(** [ALIGN(x, SZ_4K)] on a 64-bit [size_t]. *)
Definition align_4k (x : Z) : Z := Z.ldiff (u64 (x + (SZ_4K - 1))) (SZ_4K - 1).

(** [fls64] and [get_order] of the kernel headers. *)
Definition fls64 (x : Z) : Z := if x =? 0 then 0 else Z.log2 x + 1.
Definition get_order (size : Z) : Z := fls64 (Z.shiftr (u64 (size - 1)) PAGE_SHIFT).

(** ** Data *)

Record mb_page_t := MbPage {
  mp_page : Z;    (* struct page *page, as a frame index *)
  mp_order : Z;
  mp_count : Z    (* whether be used *)
}.

Record mb_free_area_t := MbFreeArea {
  page_list : list Z;   (* indices into pages[] *)
  area_order : Z
}.

Record mb_zone_t := MbZone {
  all_pages : Z;
  pages : gmap Z mb_page_t;
  free_areas : gmap Z mb_free_area_t
}.

(** The file's globals [g_m_zone] and [g_max_oder]. *)
Record mailbox := Mailbox {
  g_m_zone : option mb_zone_t;
  g_max_oder : Z
}.

(** ** List nodes *)

Definition on_list (a : mb_free_area_t) (n : Z) : bool :=
  bool_decide (n ∈ page_list a).

Definition linked (z : mb_zone_t) (n : Z) : bool :=
  existsb (λ a, on_list a n) (map_to_list (free_areas z)).*2.

Definition with_pages (z : mb_zone_t) (ps : gmap Z mb_page_t) : mb_zone_t :=
  MbZone (all_pages z) ps (free_areas z).

Definition with_areas (z : mb_zone_t) (fa : gmap Z mb_free_area_t) : mb_zone_t :=
  MbZone (all_pages z) (pages z) fa.

(** [list_add_tail(&pages[n].node, &free_areas[k].page_list)] *)
Definition list_add_tail (z : mb_zone_t) (n k : Z) : outcome mb_zone_t :=
  a ← at_index (free_areas z) k;
  if linked z n then Fault else
  Ret (with_areas z
    (<[k := MbFreeArea (page_list a ++ [n]) (area_order a)]> (free_areas z))).

Definition area_del (n : Z) (a : mb_free_area_t) : mb_free_area_t :=
  MbFreeArea (filter (λ x, x ≠ n) (page_list a)) (area_order a).

(** [list_del(&pages[n].node)]: the node does not say which list holds it. *)
Definition list_del (z : mb_zone_t) (n : Z) : outcome mb_zone_t :=
  if linked z n then Ret (with_areas z (area_del n <$> free_areas z)) else Fault.

(** Assignments to [pages[n].order] and [pages[n].count]. *)
Definition set_order (z : mb_zone_t) (n o : Z) : outcome mb_zone_t :=
  p ← at_index (pages z) n;
  Ret (with_pages z (<[n := MbPage (mp_page p) o (mp_count p)]> (pages z))).

Definition set_count (z : mb_zone_t) (n c : Z) : outcome mb_zone_t :=
  p ← at_index (pages z) n;
  Ret (with_pages z (<[n := MbPage (mp_page p) (mp_order p) c]> (pages z))).

(** ** mailbox_alloc *)

(** The inner loop [for (j = order; j < i; j++)] with [n] rounds left. *)
Fixpoint split_loop (n : nat) (z : mb_zone_t) (pos j : Z) : outcome mb_zone_t :=
  match n with
  | O => Ret z
  | S n =>
    let new_page := pos + Z.shiftl 1 j in
    z ← set_count z new_page 0;
    z ← set_order z new_page j;
    z ← list_add_tail z new_page j;
    split_loop n z pos (j + 1)
  end.

(** The outer loop [for (i = order; i <= g_max_oder; i++)] with [n] rounds
    left; the result is the [struct page] of the block found. *)
Fixpoint alloc_loop (n : nat) (z : mb_zone_t) (ord i : Z)
  : outcome (mb_zone_t * option Z) :=
  match n with
  | O => Ret (z, None)
  | S n =>
    a ← at_index (free_areas z) i;
    match page_list a with
    | [] => alloc_loop n z ord (i + 1)
    | pos :: _ =>
      z ← set_count z pos 1;
      z ← set_order z pos ord;
      z ← split_loop (Z.to_nat (i - ord)) z pos ord;
      z ← list_del z pos;
      p ← at_index (pages z) pos;
      Ret (z, Some (mp_page p))
    end
  end.

Definition set_zone (g : mailbox) (z : mb_zone_t) : mailbox :=
  Mailbox (Some z) (g_max_oder g).

(** ** mailbox_free *)

Definition is_ptr_valid (g : mailbox) (page : Z) : bool :=
  match g_m_zone g with
  | None => false
  | Some z =>
    negb ((page <? all_pages z) || (all_pages z + MAILBOX_PAGE_MAX <=? page))
  end.

Definition add_max_order_block (g : mailbox) (idex : Z) : outcome mailbox :=
  if negb (idex =? g_max_oder g) then Ret g else
  match g_m_zone g with
  | None => Ret g
  | Some z => z ← list_add_tail z 0 (g_max_oder g); Ret (set_zone g z)
  end.

(** The merge loop [for (i = self->order; i < g_max_oder; i++)] with [n]
    rounds left.  [page] is the variable of that name; the boolean says
    whether the loop ended through the [return] of the "release self" branch. *)
Fixpoint free_loop (n : nat) (z : mb_zone_t) (page i : Z)
  : outcome (mb_zone_t * bool) :=
  match n with
  | O => Ret (z, false)
  | S n =>
    let self_idx := page - all_pages z in
    let buddy_idx := Z.lxor self_idx (Z.shiftl 1 i) in
    z ← set_count z self_idx 0;
    buddy ← at_index (pages z) buddy_idx;
    if (u32 (mp_order buddy) =? i) && (mp_count buddy =? 0) then
      z ← list_del z buddy_idx;
      if buddy_idx <? self_idx then
        z ← set_order z buddy_idx (i + 1);
        z ← set_order z self_idx (-1);
        free_loop n z (mp_page buddy) (i + 1)
      else
        z ← set_order z self_idx (i + 1);
        z ← set_order z buddy_idx (-1);
        free_loop n z page (i + 1)
    else
      z ← list_add_tail z self_idx i;
      Ret (z, true)
  end.

Section WithPlatform.
Context {P : PageMap} {S : SecureC}.

Definition mailbox_free (g : mailbox) (ptr : Z) : outcome mailbox :=
  match g_m_zone g with
  | None => Ret g
  | Some z =>
    if ptr =? 0 then Ret g else
    let page := virt_to_page ptr in
    if negb (is_ptr_valid g page) then Ret g else
    self ← at_index (pages z) (page - all_pages z);
    if mp_count self =? 0 then Ret g else
    let i := u32 (mp_order self) in
    '(z', done) ← free_loop (Z.to_nat (g_max_oder g - i)) z page i;
    if (done : bool) then Ret (set_zone g z')
    else add_max_order_block (set_zone g z') (Z.max i (g_max_oder g))
  end.

(** Without the [MB_FLAG_ZERO] step: the part under [g_mb_lock]. *)
Definition mailbox_take (g : mailbox) (z : mb_zone_t) (ord : Z)
  : outcome (mailbox * Z) :=
  '(z', r) ← alloc_loop (Z.to_nat (g_max_oder g - ord + 1)) z ord ord;
  Ret (set_zone g z', match r with Some pg => page_address pg | None => 0 end).

(** The result is the address, 0 for NULL. *)
Definition mailbox_alloc (g : mailbox) (m : mem) (size flag : Z)
  : outcome (mailbox * mem * Z) :=
  let ord := get_order (align_4k size) in
  match g_m_zone g with
  | None => Ret (g, m, 0)
  | Some z =>
    if size =? 0 then Ret (g, m, 0) else
    if (g_max_oder g <? ord) || (ord <? 0) then Ret (g, m, 0) else
    '(g, addr) ← mailbox_take g z ord;
    if nonzero addr && nonzero (Z.land flag MB_FLAG_ZERO) then
      let '(ret, m) := memset_s addr (align_4k size) 0 (align_4k size) m in
      if nonzero ret then
        g ← mailbox_free g addr;
        Ret (g, m, 0)
      else Ret (g, m, addr)
    else Ret (g, m, addr)
  end.

Definition mailbox_alloc_cmd_pack (g : mailbox) (m : mem)
  : outcome (mailbox * mem * Z) :=
  mailbox_alloc g m SZ_4K MB_FLAG_ZERO.

Definition mailbox_copy_alloc (g : mailbox) (m : mem) (src size : Z)
  : outcome (mailbox * mem * Z) :=
  if (src =? 0) || (size =? 0) then Ret (g, m, 0) else
  '(g, m, mb_ptr) ← mailbox_alloc g m size 0;
  if mb_ptr =? 0 then Ret (g, m, 0) else
  let '(ret, m) := memcpy_s mb_ptr size src size m in
  if nonzero ret then
    g ← mailbox_free g mb_ptr;
    Ret (g, m, 0)
  else Ret (g, m, mb_ptr).

End WithPlatform.

(** ** mailbox_show_status and mailbox_show_details *)

Definition shift1_u32 (o : Z) : Z := u32 (Z.shiftl 1 o).

(** What [mailbox_show_status] prints: the pages in use, the usage total and
    the length of each free list below the top order. *)
Record mb_status := MbStatus {
  st_pages : list (Z * Z * Z);      (* page index, order, count *)
  st_used : Z;
  st_areas : list (Z * nat)         (* order, entries *)
}.

Definition page_indices : list Z := seqZ 0 MAILBOX_PAGE_MAX.

Fixpoint show_pages (idx : list Z) (z : mb_zone_t) (used : Z)
  : outcome (list (Z * Z * Z) * Z) :=
  match idx with
  | [] => Ret ([], used)
  | i :: idx =>
    p ← at_index (pages z) i;
    if nonzero (mp_count p) then
      '(l, u) ← show_pages idx z (u32 (used + shift1_u32 (mp_order p)));
      Ret ((i, mp_order p, mp_count p) :: l, u)
    else show_pages idx z used
  end.

Fixpoint show_areas (idx : list Z) (z : mb_zone_t) : outcome (list (Z * nat)) :=
  match idx with
  | [] => Ret []
  | i :: idx =>
    a ← at_index (free_areas z) i;
    l ← show_areas idx z;
    Ret ((i, length (page_list a)) :: l)
  end.

Definition mailbox_show_status (g : mailbox) : outcome (option mb_status) :=
  match g_m_zone g with
  | None => Ret None
  | Some z =>
    '(l, used) ← show_pages page_indices z 0;
    areas ← show_areas (seqZ 0 (g_max_oder g)) z;
    Ret (Some (MbStatus l used areas))
  end.

(** The map printed by [mailbox_show_details]: one cell per page, the order of
    the block in use that covers it or [None] for the printed X, and the usage
    total.  [rest] and [ord] are the loop's variables. *)
Fixpoint details_loop (idx : list Z) (z : mb_zone_t) (used rest ord : Z)
  : outcome (list (option Z) * Z) :=
  match idx with
  | [] => Ret ([], used)
  | i :: idx =>
    p ← at_index (pages z) i;
    let '(used, rest, ord) :=
      if nonzero (mp_count p)
      then (u32 (used + shift1_u32 (mp_order p)), shift1_u32 (mp_order p),
            u32 (mp_order p))
      else (used, rest, ord) in
    let '(cell, rest) :=
      if nonzero rest then (Some ord, rest - 1) else (None, rest) in
    '(l, u) ← details_loop idx z used rest ord;
    Ret (cell :: l, u)
  end.

Definition mailbox_show_details (g : mailbox)
  : outcome (option (list (option Z) * Z)) :=
  match g_m_zone g with
  | None => Ret None
  | Some z => r ← details_loop page_indices z 0 0 0; Ret (Some r)
  end.

(** ** Set-up and tear-down *)

Section Register.
Context {P : PageMap}.

(** The result of [kzalloc] is an address, 0 for NULL ([ZERO_OR_NULL_PTR] also
    refuses [ZERO_SIZE_PTR]); [tc_ns_smc] is the call into the TEE, given the
    command and the operation the command points to. *)
Definition zero_or_null_ptr (a : Z) : bool := a <=? 16.

Definition register_operation (mb_pool size : Z) : tc_ns_operation :=
  let phys := virt_to_phys mb_pool in
  NsOperation
    (Z.lor TEE_PARAM_TYPE_VALUE_INPUT
      (Z.shiftl TEE_PARAM_TYPE_VALUE_INPUT TEE_PARAM_NUM))
    [NsParam (u32 phys) (u32 (Z.shiftr (u64 phys) ADDR_TRANS_NUM));
     NsParam (u32 size) 0; NsParam 0 0; NsParam 0 0]
    (replicate 4 0) (replicate 4 0) (replicate 4 0).

Definition register_cmd (operation : Z) : tc_ns_smc_cmd :=
  let phys := virt_to_phys operation in
  SmcCmd (replicate 16 0) CMD_TYPE_GLOBAL GLOBAL_CMD_ID_REGISTER_MAILBOX
    0 0 0 (u32 phys) (u32 (Z.shiftr (u64 phys) ADDR_TRANS_NUM))
    0 0 0 0 0 0 0 0 0 0 0 0 0 0 0 false.

Definition mailbox_register (kz_cmd kz_op : Z)
    (tc_ns_smc : tc_ns_smc_cmd → tc_ns_operation → Z) (mb_pool size : Z) : Z :=
  if zero_or_null_ptr kz_cmd then - EIO else
  if zero_or_null_ptr kz_op then - EIO else
  if nonzero (tc_ns_smc (register_cmd kz_op) (register_operation mb_pool size))
  then - EIO else 0.

(** The loop that initialises [pages]. *)
Definition init_pages (all_pages : Z) : gmap Z mb_page_t :=
  list_to_map ((λ i, (i, MbPage (all_pages + i) (-1) 0)) <$> page_indices).

(** The loop that initialises [free_areas]. *)
Definition init_areas (max : Z) : gmap Z mb_free_area_t :=
  list_to_map ((λ i, (i, MbFreeArea [] i)) <$> seqZ 0 (max + 1)).

Definition init_zone (all_pages max : Z) : outcome mb_zone_t :=
  z ← set_order (MbZone all_pages (init_pages all_pages) (init_areas max)) 0 max;
  list_add_tail z 0 max.

(** [kz_zone] and [alloc_pages] are what [kzalloc] and [koadpt_alloc_pages]
    return, [reg] what [mailbox_register] returns for the pool's address. *)
Definition mailbox_mempool_init (kz_zone alloc_pages : Z) (reg : Z → Z)
  : outcome (mailbox * Z) :=
  let max := get_order MAILBOX_POOL_SIZE in
  if zero_or_null_ptr kz_zone then Ret (Mailbox None max, - ENOMEM) else
  if alloc_pages =? 0 then Ret (Mailbox None max, - ENOMEM) else
  if nonzero (reg (page_address alloc_pages))
  then Ret (Mailbox None max, - EIO) else
  z ← init_zone alloc_pages max;
  Ret (Mailbox (Some z) max, 0).

Definition mailbox_mempool_destroy (g : mailbox) : outcome mailbox :=
  match g_m_zone g with
  | None => Fault
  | Some _ => Ret (Mailbox None (g_max_oder g))
  end.

End Register.

(** ** The debugfs interface *)

Record mb_dbg_entry := MbDbgEntry { dbg_idx : Z; dbg_ptr : Z }.

Record mb_dbg := MbDbg {
  mb_dbg_list : list mb_dbg_entry;
  g_mb_dbg_entry_count : Z;
  g_mb_dbg_last_res : Z
}.

(** The values the file initialises its globals with. *)
Definition mb_dbg_init : mb_dbg := MbDbg [] 1 0.

(** [kmalloc_ok]: whether the entry could be allocated. *)
Definition mb_dbg_add_entry (kmalloc_ok : bool) (d : mb_dbg) (ptr : Z)
  : mb_dbg * Z :=
  if negb kmalloc_ok then (d, 0) else
  let idx := g_mb_dbg_entry_count d in
  let count := u32 (idx + 1) in
  let count := if idx =? 0 then u32 (count + 1) else count in
  (MbDbg (mb_dbg_list d ++ [MbDbgEntry idx ptr]) count (g_mb_dbg_last_res d), idx).

Definition MB_WRITE_SIZE : Z := 64.

Definition is_opt_write_param_valid (filp ubuf cnt ppos : Z) : bool :=
  if (filp =? 0) || (ppos =? 0) || (ubuf =? 0) then false
  else if (MB_WRITE_SIZE <=? cnt) || (cnt =? 0) then false
  else true.

(** C strings as lists of byte values. *)
Fixpoint until_nul (s : list Z) : list Z :=
  match s with
  | [] => []
  | c :: s => if c =? 0 then [] else c :: until_nul s
  end.

(** [strncmp(s, lit, strlen(lit)) == 0] *)
Fixpoint has_prefix (lit s : list Z) : bool :=
  match lit, s with
  | [], _ => true
  | c :: lit, d :: s => (c =? d) && has_prefix lit s
  | _ :: _, [] => false
  end.

(** [strsep(&value, ":")]: the token and what follows the separator. *)
Fixpoint strsep_colon (s : list Z) : list Z * option (list Z) :=
  match s with
  | [] => ([], None)
  | c :: s =>
    if c =? 58 then ([], Some s)
    else let '(t, r) := strsep_colon s in (c :: t, r)
  end.

Definition str_reset : list Z := [114; 101; 115; 101; 116].
Definition str_alloc : list Z := [97; 108; 108; 111; 99].
Definition str_free : list Z := [102; 114; 101; 101].

Section Debugfs.
Context {P : PageMap} {S : SecureC}.

(** The loop stops at the first entry with the index. *)
Fixpoint dbg_remove_loop (g : mailbox) (l : list mb_dbg_entry) (idx : Z)
  : outcome (mailbox * list mb_dbg_entry) :=
  match l with
  | [] => Ret (g, [])
  | pos :: l =>
    if dbg_idx pos =? idx then
      g ← mailbox_free g (dbg_ptr pos);
      Ret (g, l)
    else
      '(g, l) ← dbg_remove_loop g l idx;
      Ret (g, pos :: l)
  end.

Definition mb_dbg_remove_entry (g : mailbox) (d : mb_dbg) (idx : Z)
  : outcome (mailbox * mb_dbg) :=
  '(g, l) ← dbg_remove_loop g (mb_dbg_list d) idx;
  Ret (g, MbDbg l (g_mb_dbg_entry_count d) (g_mb_dbg_last_res d)).

Fixpoint dbg_reset_loop (g : mailbox) (l : list mb_dbg_entry) : outcome mailbox :=
  match l with
  | [] => Ret g
  | pos :: l => g ← mailbox_free g (dbg_ptr pos); dbg_reset_loop g l
  end.

Definition mb_dbg_reset (g : mailbox) (d : mb_dbg) : outcome (mailbox * mb_dbg) :=
  g ← dbg_reset_loop g (mb_dbg_list d);
  Ret (g, MbDbg [] 0 (g_mb_dbg_last_res d)).

Definition alloc_dbg_entry (kmalloc_ok : bool) (g : mailbox) (m : mem)
    (d : mb_dbg) (alloc_size : Z) : outcome (mailbox * mem * mb_dbg) :=
  '(g, m, ptr) ← mailbox_alloc g m alloc_size 0;
  if ptr =? 0 then Ret (g, m, d) else
  let '(d, idx) := mb_dbg_add_entry kmalloc_ok d ptr in
  g ← (if idx =? 0 then mailbox_free g ptr else Ret g);
  Ret (g, m, MbDbg (mb_dbg_list d) (g_mb_dbg_entry_count d) idx).

(** [kstrtou32(s, 10, &v)]: the value, or [None] for an error; [user] is what
    [copy_from_user] delivers, [None] when it fails. *)
Definition mb_dbg_opt_write (kstrtou32 : list Z → option Z) (kmalloc_ok : bool)
    (g : mailbox) (m : mem) (d : mb_dbg)
    (filp ubuf cnt ppos : Z) (user : option (list Z))
  : outcome (mailbox * mem * mb_dbg * Z) :=
  if negb (is_opt_write_param_valid filp ubuf cnt ppos)
  then Ret (g, m, d, - EINVAL) else
  match user with
  | None => Ret (g, m, d, - EFAULT)
  | Some bytes =>
    let value := until_nul (take (Z.to_nat cnt) bytes) in
    if has_prefix str_reset value then
      '(g, d) ← mb_dbg_reset g d;
      Ret (g, m, d, cnt)
    else
    match strsep_colon value with
    | (_, None) => Ret (g, m, d, - EFAULT)
    | (cmd, Some value) =>
      if has_prefix str_alloc cmd then
        match kstrtou32 value with
        | Some alloc_size =>
          '(g, m, d) ← alloc_dbg_entry kmalloc_ok g m d alloc_size;
          Ret (g, m, d, cnt)
        | None => Ret (g, m, d, cnt)
        end
      else if has_prefix str_free cmd then
        match kstrtou32 value with
        | Some free_idx =>
          '(g, d) ← mb_dbg_remove_entry g d free_idx;
          Ret (g, m, d, cnt)
        | None => Ret (g, m, d, cnt)
        end
      else Ret (g, m, d, cnt)
    end
  end.

End Debugfs.
