(* ===== verification/MailboxInv.v ===== *)
(** * The mailbox memory pool: invariant and refinement

    [zone_ok M z H X U] relates a zone [z] of [2 ^ M] pages to the abstract
    allocator state [U], a map from the first page of each live block to its
    order.  [H] is the set of pages that an operation in progress has taken
    out of the pool (empty between operations) and [X] the pages of [H] whose
    fields are in flux.  The primitive moves of the allocator (open a block,
    rewrite a page in flux, put a block back) each preserve it. *)

From stdpp Require Import base gmap list fin_maps.
From Stdlib Require Import ZArith Lia.
From S2P Require Import Prelude KernelApi TeeTypes Mailbox.

Definition free_list (z : mb_zone_t) (k : Z) : list Z :=
  match free_areas z !! k with Some a => page_list a | None => [] end.

(** Page [h] heads a block of order [k]. *)
Definition head (z : mb_zone_t) (h k : Z) : Prop :=
  ∃ pg, pages z !! h = Some pg ∧ mp_order pg = k ∧ 0 ≤ k.

Definition block (h k p : Z) : Prop := h ≤ p < h + 2 ^ k.

Definition no_pages (p : Z) : Prop := False.

Lemma not_no_pages p : ¬ no_pages p.
Proof. by intros []. Qed.

#[export] Hint Resolve not_no_pages : core.

Record zone_ok (M : Z) (z : mb_zone_t) (H : Z → Prop) (X : list Z)
    (U : gmap Z Z) : Prop := {
  ok_max : 0 ≤ M < 31;
  ok_hole_dec p : H p ∨ ¬ H p;
  ok_pages p : is_Some (pages z !! p) ↔ 0 ≤ p < 2 ^ M;
  ok_page p pg : pages z !! p = Some pg → mp_page pg = all_pages z + p;
  ok_order p pg : pages z !! p = Some pg → -1 ≤ mp_order pg ≤ M;
  ok_hole p pg :
    H p → p ∉ X → pages z !! p = Some pg → mp_order pg = -1 ∧ mp_count pg = 0;
  ok_hole_range p : H p → 0 ≤ p < 2 ^ M;
  ok_align h k : ¬ H h → head z h k → (2 ^ k | h);
  ok_apart h k p : ¬ H h → head z h k → block h k p → ¬ H p;
  ok_tail h k p pg :
    ¬ H h → head z h k → block h k p → p ≠ h →
    pages z !! p = Some pg → mp_order pg = -1;
  ok_plain p pg :
    ¬ H p → pages z !! p = Some pg → mp_order pg = -1 → mp_count pg = 0;
  ok_cover p :
    0 ≤ p < 2 ^ M → ¬ H p → ∃ h k, ¬ H h ∧ head z h k ∧ block h k p;
  ok_areas k : is_Some (free_areas z !! k) ↔ 0 ≤ k ≤ M;
  ok_nodup k : NoDup (free_list z k);
  ok_free h k : h ∈ free_list z k → ¬ H h ∧ head z h k;
  ok_free_count h k pg :
    h ∈ free_list z k → k < M → pages z !! h = Some pg → mp_count pg = 0;
  ok_used_count h k pg :
    ¬ H h → head z h k → pages z !! h = Some pg → mp_count pg = 0 →
    h ∈ free_list z k;
  ok_coalesced h k :
    h ∈ free_list z k → k < M → Z.lxor h (2 ^ k) ∉ free_list z k;
  ok_live h k :
    U !! h = Some k ↔ ¬ H h ∧ head z h k ∧ h ∉ free_list z k
}.

Arguments ok_max {M z H X U} _.
Arguments ok_hole_dec {M z H X U} _.
Arguments ok_pages {M z H X U} _.
Arguments ok_page {M z H X U} _.
Arguments ok_order {M z H X U} _.
Arguments ok_hole {M z H X U} _.
Arguments ok_hole_range {M z H X U} _.
Arguments ok_align {M z H X U} _.
Arguments ok_apart {M z H X U} _.
Arguments ok_tail {M z H X U} _.
Arguments ok_plain {M z H X U} _.
Arguments ok_cover {M z H X U} _.
Arguments ok_areas {M z H X U} _.
Arguments ok_nodup {M z H X U} _.
Arguments ok_free {M z H X U} _.
Arguments ok_free_count {M z H X U} _.
Arguments ok_used_count {M z H X U} _.
Arguments ok_coalesced {M z H X U} _.
Arguments ok_live {M z H X U} _.

(** Between operations. *)
Definition zone_wf (M : Z) (z : mb_zone_t) (U : gmap Z Z) : Prop :=
  zone_ok M z no_pages [] U.

Lemma zone_ok_hole_ext M z H H' X U :
  (∀ p, H p ↔ H' p) → zone_ok M z H X U → zone_ok M z H' X U.
Proof.
  intros E W. destruct W as [max dec pgs page ord hole range align apart tail
    plain cover areas nodup free fcount ucount coal live].
  split; try done; intros *; rewrite <- ?E; eauto.
  - intros Hp Hn. destruct (cover p Hp Hn) as (h & k & ? & ? & ?).
    exists h, k. by rewrite <- E.
Qed.

#[export] Instance zone_ok_proper M z :
  Proper (pointwise_relation Z iff ==> eq ==> eq ==> iff) (zone_ok M z).
Proof.
  intros H H' E X ? <- U ? <-. split; apply zone_ok_hole_ext; [|symmetry]; apply E.
Qed.

(** ** Reading the lists *)

Lemma free_list_lookup z k a : free_areas z !! k = Some a → free_list z k = page_list a.
Proof. unfold free_list. by intros ->. Qed.

Lemma linked_spec z n : linked z n = true ↔ ∃ k, n ∈ free_list z k.
Proof.
  unfold linked. rewrite existsb_exists. split.
  - intros (a & Ha & Hn). apply list_elem_of_In, list_elem_of_fmap in Ha
      as ([k a'] & -> & Hk). apply elem_of_map_to_list in Hk.
    exists k. rewrite (free_list_lookup _ _ _ Hk). by apply bool_decide_eq_true in Hn.
  - intros [k Hk]. unfold free_list in Hk.
    destruct (free_areas z !! k) as [a|] eqn:E; [|by apply not_elem_of_nil in Hk].
    exists a. split; [|by apply bool_decide_eq_true].
    apply list_elem_of_In, list_elem_of_fmap. exists (k, a).
    split; [done|]. by apply elem_of_map_to_list.
Qed.

Lemma not_linked_spec z n : linked z n = false ↔ ∀ k, n ∉ free_list z k.
Proof.
  rewrite <- not_true_iff_false, linked_spec. naive_solver.
Qed.

Lemma free_list_del z n k :
  free_list (with_areas z (area_del n <$> free_areas z)) k
    = filter (λ x, x ≠ n) (free_list z k).
Proof.
  unfold free_list. simpl. rewrite lookup_fmap.
  by destruct (free_areas z !! k).
Qed.

Lemma elem_of_free_list_del z n k x :
  x ∈ free_list (with_areas z (area_del n <$> free_areas z)) k
    ↔ x ≠ n ∧ x ∈ free_list z k.
Proof. rewrite free_list_del, list_elem_of_filter. done. Qed.

Lemma list_add_tail_spec z n k a :
  free_areas z !! k = Some a → (∀ j, n ∉ free_list z j) →
  ∃ z', list_add_tail z n k = Ret z' ∧ pages z' = pages z ∧
    all_pages z' = all_pages z ∧
    (∀ j, is_Some (free_areas z' !! j) ↔ is_Some (free_areas z !! j)) ∧
    (∀ j, free_list z' j = if decide (j = k) then free_list z k ++ [n] else free_list z j).
Proof.
  intros Ha Hn. apply not_linked_spec in Hn.
  unfold list_add_tail, at_index. rewrite Ha. simpl. rewrite Hn.
  eexists. split; [done|]. simpl. split_and!; [done|done| |].
  - intros j. rewrite lookup_insert. case_decide; subst; rewrite ?Ha; naive_solver.
  - intros j. unfold free_list at 1. simpl. rewrite lookup_insert.
    case_decide; subst.
    + rewrite decide_True by done. simpl. by rewrite (free_list_lookup _ _ _ Ha).
    + by rewrite decide_False by done.
Qed.

(** ** Geometry of blocks *)

Lemma block_head h k : 0 ≤ k → block h k h.
Proof. intros. unfold block. pose proof (pow2_pos k). lia. Qed.

Lemma block_dec h k p : block h k p ∨ ¬ block h k p.
Proof. unfold block. lia. Qed.

Lemma head_order z h k k' : head z h k → head z h k' → k = k'.
Proof. intros (?&?&?&?) (?&?&?&?). simplify_eq. done. Qed.

Section Blocks.
Context {M : Z} {z : mb_zone_t} {H : Z → Prop} {X : list Z} {U : gmap Z Z}.
Hypothesis W : zone_ok M z H X U.

Lemma head_range h k : head z h k → 0 ≤ k ≤ M ∧ 0 ≤ h < 2 ^ M.
Proof.
  intros (pg & Hp & Ho & Hk). split; [pose proof (ok_order W _ _ Hp); lia|].
  apply (ok_pages W). by rewrite Hp.
Qed.

Lemma block_range h k p :
  0 ≤ k ≤ M → 0 ≤ h < 2 ^ M → (2 ^ k | h) → block h k p → 0 ≤ p < 2 ^ M.
Proof.
  intros Hk Hh Hd Hp. unfold block in Hp.
  pose proof (pow2_pos k).
  destruct (aligned_nested k M h 0 h) as [_ ?]; try lia; try done.
  apply Z.divide_0_r.
Qed.

Lemma head_in_block h k x j :
  ¬ H h → head z h k → head z x j → block h k x → x = h.
Proof.
  intros Hh Hhd (pg & Hx & Ho & Hj) Hb.
  destruct (decide (x = h)); [done|].
  pose proof (ok_tail W h k x pg Hh Hhd Hb n Hx). lia.
Qed.

Lemma heads_apart h k h' k' p :
  ¬ H h → ¬ H h' → head z h k → head z h' k' →
  block h k p → block h' k' p → h = h'.
Proof.
  intros Hh Hh' Hd Hd' Hb Hb'. unfold block in *.
  destruct (decide (h ≤ h')).
  - symmetry. apply (head_in_block h k h' k'); try done. unfold block; lia.
  - apply (head_in_block h' k' h k); try done. unfold block; lia.
Qed.

(** Taking the block headed by [b] out of the pool. *)
Lemma zone_open z' U' b k :
  ¬ H b → head z b k →
  pages z' = pages z → all_pages z' = all_pages z →
  (∀ j, is_Some (free_areas z' !! j) ↔ is_Some (free_areas z !! j)) →
  (∀ j, NoDup (free_list z' j)) →
  (∀ j x, x ∈ free_list z' j ↔ x ∈ free_list z j ∧ x ≠ b) →
  (∀ h j, U' !! h = Some j ↔ U !! h = Some j ∧ h ≠ b) →
  zone_ok M z' (λ p, H p ∨ block b k p) (b :: X) U'.
Proof.
  intros Hb Hd Ep Ea Efa Hnd Hfl HU.
  assert (Hhd : ∀ h j, head z' h j ↔ head z h j) by (intros; unfold head; by rewrite Ep).
  destruct (head_range _ _ Hd) as [Hk Hbr].
  pose proof (ok_align W _ _ Hb Hd) as Hal.
  split; rewrite ?Ep, ?Ea.
  - apply W.
  - intros p. destruct (ok_hole_dec W p), (block_dec b k p); tauto.
  - apply W.
  - apply W.
  - apply W.
  - intros p pg Hp HX Hpg. apply not_elem_of_cons in HX as [Hne HX].
    destruct Hp as [Hp|Hp]; [by eapply (ok_hole W)|].
    pose proof (ok_tail W _ _ _ _ Hb Hd Hp Hne Hpg) as Ho.
    split; [done|]. apply (ok_plain W p); try done.
    by apply (ok_apart W b k p).
  - intros p [Hp|Hp]; [by apply (ok_hole_range W)|].
    by eapply block_range.
  - intros h j Hh Hj%Hhd. apply (ok_align W); tauto.
  - intros h j p Hh Hj%Hhd Hp [HHp|HBp].
    + apply (ok_apart W h j p); tauto.
    + assert (h = b) as -> by (apply (heads_apart h j b k p); tauto).
      apply Hh. right. apply block_head. lia.
  - intros h j p pg Hh Hj%Hhd. apply (ok_tail W h j p pg); tauto.
  - intros p pg Hp. apply (ok_plain W p pg). tauto.
  - intros p Hp HN. destruct (ok_cover W p Hp) as (h & j & Hh & Hj & Hpb);
      [tauto|].
    exists h, j. rewrite Hhd. split_and!; try done. intros [?|Hbb]; [done|].
    assert (h = b) as -> by (by apply (head_in_block b k h j)).
    rewrite (head_order _ _ _ _ Hj Hd) in Hpb. tauto.
  - intros j. rewrite Efa. apply W.
  - done.
  - intros h j [Hh Hne]%Hfl. destruct (ok_free W _ _ Hh) as [HnH Hj].
    rewrite Hhd. split; [|done]. intros [?|Hbb]; [done|].
    apply Hne. by apply (head_in_block b k h j).
  - intros h j pg [Hh Hne]%Hfl. by apply (ok_free_count W h j).
  - intros h j pg Hh Hj%Hhd Hpg Hc. apply Hfl. split.
    + apply (ok_used_count W h j pg); tauto.
    + intros ->. apply Hh. right. apply block_head. lia.
  - intros h j [Hh Hne]%Hfl Hj [Hx ?]%Hfl. by apply (ok_coalesced W h j).
  - intros h j. rewrite HU, (ok_live W), Hhd, Hfl. split.
    + intros [(HnH & Hj & Hnf) Hne]. split_and!; try tauto.
      intros [?|Hbb]; [done|]. apply Hne. by apply (head_in_block b k h j).
    + intros (HnH & Hj & Hnf).
      assert (h ≠ b) by (intros ->; apply HnH; right; apply block_head; lia).
      tauto.
Qed.

(** Rewriting the fields of a page in flux. *)
Lemma zone_rewrite x pg o c :
  x ∈ X → H x → pages z !! x = Some pg → -1 ≤ o ≤ M →
  zone_ok M (with_pages z (<[x := MbPage (mp_page pg) o c]> (pages z))) H X U.
Proof.
  intros HX Hx Hpg Ho.
  assert (Hlk : ∀ h, h ≠ x → <[x := MbPage (mp_page pg) o c]> (pages z) !! h = pages z !! h)
    by (intros; by rewrite lookup_insert_ne).
  assert (Hne : ∀ h, ¬ H h → h ≠ x) by naive_solver.
  set (z' := with_pages z _).
  assert (Hhd : ∀ h j, ¬ H h → head z' h j ↔ head z h j).
  { intros h j Hh. unfold head, z'. simpl. rewrite Hlk by eauto. done. }
  assert (Hfl : ∀ j, free_list z' j = free_list z j) by done.
  assert (Hcase : ∀ p q, pages z' !! p = Some q →
    p = x ∧ q = MbPage (mp_page pg) o c ∨ p ≠ x ∧ pages z !! p = Some q).
  { intros p q. unfold z'. simpl. rewrite lookup_insert. case_decide; naive_solver. }
  split; try apply W.
  - intros p. unfold z'. simpl. rewrite lookup_insert. case_decide; [subst|apply W].
    pose proof (ok_pages W p). rewrite Hpg in *. naive_solver.
  - intros p q [[-> ->]|[? Hq]]%Hcase; [|by apply (ok_page W)].
    simpl. by apply (ok_page W).
  - intros p q [[-> ->]|[? Hq]]%Hcase; [done|by apply (ok_order W p)].
  - intros p q Hp HnX [[-> ->]|[? Hq]]%Hcase; [done|by apply (ok_hole W p)].
  - intros h j Hh Hj%Hhd; [|done]. by apply (ok_align W).
  - intros h j p Hh Hj%Hhd; [|done]. by apply (ok_apart W).
  - intros h j p q Hh Hj%Hhd Hb Hn Hq; [|done].
    apply Hcase in Hq as [[-> ->]|[_ Hq]].
    + by destruct (ok_apart W h j x).
    + by apply (ok_tail W h j p).
  - intros p q Hp [[-> ->]|[? Hq]]%Hcase; [done|by apply (ok_plain W p)].
  - intros p Hp Hn. destruct (ok_cover W p Hp Hn) as (h & j & ? & ? & ?).
    exists h, j. by rewrite Hhd.
  - intros h j Hh. destruct (ok_free W h j Hh). by rewrite Hhd.
  - intros h j q Hh Hj [[-> ->]|[? Hq]]%Hcase; [|by eapply (ok_free_count W)].
    by destruct (ok_free W x j Hh).
  - intros h j q Hh Hj%Hhd Hq Hc; [|done].
    apply Hcase in Hq as [[-> ->]|[_ Hq]]; [done|].
    by eapply (ok_used_count W).
  - intros h j. rewrite (ok_live W), Hfl.
    split; intros (?&?&?); (split_and!; [done| |done]); by apply Hhd.
Qed.

(** A page in flux that is back to "no head, unused" is settled. *)
Lemma zone_settle x X' pg :
  X = x :: X' → pages z !! x = Some pg → mp_order pg = -1 → mp_count pg = 0 →
  zone_ok M z H X' U.
Proof.
  intros EX Hpg Ho Hc. destruct W. split; try done.
  intros p q Hp HX Hq. destruct (decide (p = x)) as [->|].
  - naive_solver.
  - apply (ok_hole0 p); try done. rewrite EX. by apply not_elem_of_cons.
Qed.

Lemma zone_weaken X' : X ⊆ X' → zone_ok M z H X' U.
Proof.
  intros HX. destruct W. split; try done.
  intros p q Hp HX' Hq. apply (ok_hole0 p); naive_solver.
Qed.

End Blocks.

(** Heads outside what is left of a hole after [block n k] leaves it are [n]
    itself or were outside the hole already. *)
Lemma fill_head M z H X U n k h j :
  zone_ok M z H (n :: X) U → head z n k →
  (∀ p, block n k p → H p) → (∀ p, block n k p → p ∈ X → p = n) →
  ¬ H h ∨ block n k h → head z h j → h = n ∧ j = k ∨ ¬ H h.
Proof.
  intros W Hnh Hin HX [Hh|Hb] Hj; [by right|]. left.
  destruct (decide (h = n)) as [->|Hne]; [split; [done|by eapply head_order]|].
  destruct Hj as (q & Hq & Hqo & ?).
  destruct (ok_hole W h q) as [? _]; [by apply Hin| |done|lia].
  apply not_elem_of_cons. split; [done|]. intros ?. by apply Hne, HX.
Qed.

(** No two buddies are on the free list of an order below [M] once [n] has
    joined the list of order [k] in the absence of its buddy. *)
Lemma fill_coalesced M z z' H X U n k (added : Prop) h j :
  zone_ok M z H X U → 0 ≤ k →
  (∀ j x, x ∈ free_list z' j ↔ x ∈ free_list z j ∨ added ∧ x = n ∧ j = k) →
  (added → k < M → Z.lxor n (2 ^ k) ∉ free_list z k) →
  h ∈ free_list z' j → j < M → Z.lxor h (2 ^ j) ∉ free_list z' j.
Proof.
  intros W Hk Hfl Hadd [Hh|(Ha & -> & ->)]%Hfl Hj [Hb|(Ha' & E & E')]%Hfl.
  - by apply (ok_coalesced W h j).
  - subst j. apply (Hadd Ha' Hj).
    rewrite <- E, Z.lxor_assoc, Z.lxor_nilpotent, Z.lxor_0_r. done.
  - by apply (Hadd Ha Hj).
  - pose proof (pow2_pos k Hk).
    assert (Z.lxor n (Z.lxor n (2 ^ k)) = 2 ^ k) as E2
      by (by rewrite <- Z.lxor_assoc, Z.lxor_nilpotent, Z.lxor_0_l).
    rewrite E, Z.lxor_nilpotent in E2. lia.
Qed.

(** Putting the pages of [block n k] back as one block headed by [n]: on the
    free list of order [k] when [added] holds, in use otherwise. *)
Lemma zone_fill M z z' H X U U' n k pg (added : Prop) :
  zone_ok M z H (n :: X) U →
  0 ≤ k ≤ M → (2 ^ k | n) → (∀ p, block n k p → H p) →
  (∀ p, block n k p → p ∈ X → p = n) →
  pages z !! n = Some pg → mp_order pg = k →
  pages z' = pages z → all_pages z' = all_pages z →
  (∀ j, is_Some (free_areas z' !! j) ↔ is_Some (free_areas z !! j)) →
  (∀ j, NoDup (free_list z' j)) →
  (∀ j x, x ∈ free_list z' j ↔ x ∈ free_list z j ∨ added ∧ x = n ∧ j = k) →
  (added → (mp_count pg = 0 ∨ k = M) ∧ (k < M → Z.lxor n (2 ^ k) ∉ free_list z k)) →
  (added ∨ ¬ added ∧ mp_count pg ≠ 0) →
  (∀ h j, U' !! h = Some j ↔ U !! h = Some j ∨ ¬ added ∧ h = n ∧ j = k) →
  zone_ok M z' (λ p, H p ∧ ¬ block n k p) X U'.
Proof.
  intros W Hk Hal Hin HX Hpg Ho Ep Ea Efa Hnd Hfl Hadd Hor HU.
  assert (Hhd : ∀ h j, head z' h j ↔ head z h j) by (intros; unfold head; by rewrite Ep).
  assert (Hn : H n) by (apply Hin, block_head; lia).
  assert (Hnh : head z n k) by (exists pg; split_and!; [done|done|lia]).
  assert (Hnf : ∀ j, n ∉ free_list z j) by (by intros j [? _]%(ok_free W)).
  assert (Hdec : ∀ h, ¬ (H h ∧ ¬ block n k h) → ¬ H h ∨ block n k h).
  { intros h. destruct (ok_hole_dec W h), (block_dec n k h); tauto. }
  assert (Hcase : ∀ h j, ¬ (H h ∧ ¬ block n k h) → head z h j → h = n ∧ j = k ∨ ¬ H h)
    by (intros h j Hh%Hdec; by eapply fill_head).
  assert (Hrest : ∀ p q, block n k p → p ≠ n → pages z !! p = Some q →
    mp_order q = -1 ∧ mp_count q = 0).
  { intros p q Hb Hne. apply (ok_hole W p); [by apply Hin|].
    apply not_elem_of_cons. split; [done|]. intros ?. by apply Hne, HX. }
  split; rewrite ?Ep, ?Ea.
  - apply W.
  - intros p. destruct (ok_hole_dec W p), (block_dec n k p); tauto.
  - apply W.
  - apply W.
  - apply W.
  - intros p q [Hp Hb] HnX. apply (ok_hole W p); [done|].
    apply not_elem_of_cons. split; [|done]. intros ->. apply Hb, block_head. lia.
  - intros p [Hp _]. by apply (ok_hole_range W).
  - intros h j Hh Hj%Hhd. destruct (Hcase h j Hh Hj) as [[-> ->]|]; [done|].
    by apply (ok_align W).
  - intros h j p Hh Hj%Hhd Hp [HHp HBp].
    destruct (Hcase h j Hh Hj) as [[-> ->]|]; [done|]. by apply (ok_apart W h j p).
  - intros h j p q Hh Hj%Hhd Hp Hne Hq.
    destruct (Hcase h j Hh Hj) as [[-> ->]|]; [|by apply (ok_tail W h j p)].
    by apply (Hrest p).
  - intros p q [Hp|Hb]%Hdec Hq Hq1; [by apply (ok_plain W p)|].
    destruct (decide (p = n)) as [->|Hne].
    + assert (q = pg) as -> by congruence. lia.
    + by apply (Hrest p).
  - intros p Hp [Hh|Hb]%Hdec.
    + destruct (ok_cover W p Hp Hh) as (h & j & ? & ? & ?).
      exists h, j. rewrite Hhd. tauto.
    + exists n, k. rewrite Hhd. split_and!; try done.
      intros [_ []]. apply block_head. lia.
  - intros j. rewrite Efa. apply W.
  - done.
  - intros h j [Hh|(_ & -> & ->)]%Hfl; rewrite Hhd.
    + destruct (ok_free W _ _ Hh). tauto.
    + split; [|done]. intros [_ []]. apply block_head. lia.
  - intros h j q [Hh|(Ha & -> & ->)]%Hfl Hj Hq; [by apply (ok_free_count W h j)|].
    assert (q = pg) as -> by congruence. destruct (Hadd Ha) as [[?|?] _]; lia.
  - intros h j q Hh Hj%Hhd Hq Hc. apply Hfl.
    destruct (Hcase h j Hh Hj) as [[-> ->]|]; [|left; by apply (ok_used_count W h j q)].
    assert (q = pg) as -> by congruence. destruct Hor as [?|[_ ?]]; [tauto|done].
  - intros h j. apply (fill_coalesced _ _ _ _ _ _ n k added _ _ W ltac:(lia) Hfl).
    intros Ha. by apply Hadd.
  - intros h j. rewrite HU, (ok_live W), Hhd, Hfl. split.
    + intros [(HnH & Hj & Hf)|(Ha & -> & ->)].
      * split_and!; [tauto|done|]. intros [?|(? & -> & ->)]; tauto.
      * split_and!; [|done|].
        -- intros [_ []]. apply block_head. lia.
        -- intros [?|?]; [by apply (Hnf k)|tauto].
    + intros (HnH & Hj & Hf). destruct (Hcase h j HnH Hj) as [[-> ->]|]; [|tauto].
      right. tauto.
Qed.

(** ** The allocator's moves *)

Lemma list_del_open M z H X U b k :
  zone_ok M z H X U → b ∈ free_list z k →
  ∃ z', list_del z b = Ret z' ∧ pages z' = pages z ∧ all_pages z' = all_pages z ∧
    (∀ j x, x ∈ free_list z' j ↔ x ∈ free_list z j ∧ x ≠ b) ∧
    zone_ok M z' (λ p, H p ∨ block b k p) (b :: X) U.
Proof.
  intros W Hb. destruct (ok_free W _ _ Hb) as [HnH Hd].
  unfold list_del. rewrite (proj2 (linked_spec z b)) by eauto.
  assert (Hfl : ∀ j x,
    x ∈ free_list (with_areas z (area_del b <$> free_areas z)) j
      ↔ x ∈ free_list z j ∧ x ≠ b).
  { intros. rewrite elem_of_free_list_del. tauto. }
  eexists. split_and!; [done..|exact Hfl|].
  apply (zone_open W); try done.
  - intros j. simpl. rewrite lookup_fmap. by rewrite fmap_is_Some.
  - intros j. rewrite free_list_del. apply NoDup_filter, (ok_nodup W).
  - intros h j. split; [|tauto]. intros Hh. split; [done|].
    apply (ok_live W) in Hh as (_ & Hj & Hf). intros ->.
    by rewrite (head_order _ _ _ _ Hj Hd) in Hf.
Qed.

Lemma live_open M z H X U b k :
  zone_ok M z H X U → U !! b = Some k →
  zone_ok M z (λ p, H p ∨ block b k p) (b :: X) (delete b U).
Proof.
  intros W Hb. apply (ok_live W) in Hb as (HnH & Hd & Hf).
  apply (zone_open W); try done.
  - apply (ok_nodup W).
  - intros j x. split; [|tauto]. intros Hx. split; [done|]. intros ->.
    destruct (ok_free W _ _ Hx) as [_ Hj].
    by rewrite (head_order _ _ _ _ Hj Hd) in Hx.
  - intros h j. rewrite lookup_delete_Some. naive_solver.
Qed.

Lemma release_in_hole M z H X U n k pg :
  zone_ok M z H (n :: X) U →
  0 ≤ k ≤ M → (2 ^ k | n) → (∀ p, block n k p → H p) →
  (∀ p, block n k p → p ∈ X → p = n) →
  pages z !! n = Some pg → mp_order pg = k →
  mp_count pg = 0 ∨ k = M → (k < M → Z.lxor n (2 ^ k) ∉ free_list z k) →
  ∃ z', list_add_tail z n k = Ret z' ∧ all_pages z' = all_pages z ∧
    pages z' = pages z ∧ zone_ok M z' (λ p, H p ∧ ¬ block n k p) X U.
Proof.
  intros W Hk Hal Hin HX Hpg Ho Hc Hb.
  assert (∀ j, n ∉ free_list z j) as Hnf.
  { intros j [Hn _]%(ok_free W). apply Hn, Hin, block_head. lia. }
  destruct (proj2 (ok_areas W k) Hk) as [a Ha].
  destruct (list_add_tail_spec z n k a Ha Hnf) as (z' & E & Ep & Ea & Efa & Hfl).
  exists z'. split_and!; [done..|].
  apply (zone_fill M z z' _ _ U U n k pg True); try done.
  - intros j. rewrite Hfl. case_decide; [|apply W]. subst.
    apply NoDup_app. split_and!; [apply W| |apply NoDup_singleton].
    intros x Hx ->%list_elem_of_singleton. by apply (Hnf (mp_order pg)).
  - intros j x. rewrite Hfl. case_decide; subst.
    + rewrite elem_of_app, list_elem_of_singleton. tauto.
    + tauto.
  - by left.
  - tauto.
Qed.

Lemma release_block M z U n k pg :
  zone_ok M z (block n k) [n] U →
  0 ≤ k ≤ M → (2 ^ k | n) → pages z !! n = Some pg → mp_order pg = k →
  mp_count pg = 0 ∨ k = M → (k < M → Z.lxor n (2 ^ k) ∉ free_list z k) →
  ∃ z', list_add_tail z n k = Ret z' ∧ all_pages z' = all_pages z ∧
    zone_wf M z' U.
Proof.
  intros W Hk Hal Hpg Ho Hc Hb.
  destruct (release_in_hole M z (block n k) [] U n k pg) as (z' & E & Ea & _ & W');
    try done.
  - intros p _ Hp. by apply not_elem_of_nil in Hp.
  - exists z'. split_and!; [done..|].
    apply (zone_ok_hole_ext _ _ (λ p, block n k p ∧ ¬ block n k p)); [|done].
    unfold no_pages. tauto.
Qed.

Lemma keep_block M z U n k pg :
  zone_ok M z (block n k) [n] U →
  0 ≤ k ≤ M → (2 ^ k | n) → pages z !! n = Some pg → mp_order pg = k →
  mp_count pg ≠ 0 →
  U !! n = None ∧ zone_wf M z (<[n := k]> U).
Proof.
  intros W Hk Hal Hpg Ho Hc.
  assert (U !! n = None) as HU.
  { apply eq_None_not_Some. intros [j (Hn & _)%(ok_live W)].
    apply Hn, block_head. lia. }
  split; [done|].
  apply (zone_ok_hole_ext _ _ (λ p, block n k p ∧ ¬ block n k p)).
  { unfold no_pages. tauto. }
  apply (zone_fill M z z _ _ U _ n k pg False); try done.
  - intros p _ Hp. by apply not_elem_of_nil in Hp.
  - apply W.
  - tauto.
  - right. tauto.
  - intros h j. rewrite lookup_insert_Some. naive_solver.
Qed.

(** ** Field updates *)

Lemma set_order_eq z n o pg :
  pages z !! n = Some pg →
  set_order z n o =
    Ret (with_pages z (<[n := MbPage (mp_page pg) o (mp_count pg)]> (pages z))).
Proof. unfold set_order, at_index. by intros ->. Qed.

Lemma set_count_eq z n c pg :
  pages z !! n = Some pg →
  set_count z n c =
    Ret (with_pages z (<[n := MbPage (mp_page pg) (mp_order pg) c]> (pages z))).
Proof. unfold set_count, at_index. by intros ->. Qed.

Lemma hole_page M z H X U p :
  zone_ok M z H X U → H p → ∃ pg, pages z !! p = Some pg.
Proof. intros W Hp%(ok_hole_range W). by apply (ok_pages W). Qed.

(** Setting [count] and then [order] of a page in flux. *)
Lemma set_fields_ok M z H X U x o c :
  zone_ok M z H X U → x ∈ X → H x → -1 ≤ o ≤ M →
  ∃ z1 z2, set_count z x c = Ret z1 ∧ set_order z1 x o = Ret z2 ∧
    all_pages z2 = all_pages z ∧
    pages z2 !! x = Some (MbPage (all_pages z + x) o c) ∧
    (∀ y, y ≠ x → pages z2 !! y = pages z !! y) ∧ zone_ok M z2 H X U.
Proof.
  intros W HX Hx Ho. destruct (hole_page _ _ _ _ _ _ W Hx) as [pg Hpg].
  pose proof (zone_rewrite W x pg (mp_order pg) c HX Hx Hpg (ok_order W x pg Hpg)) as W1.
  pose proof (zone_rewrite W1 x _ o c HX Hx (lookup_insert_eq _ _ _) Ho) as W2.
  eexists _, _. split_and!; [by apply set_count_eq| | | | |exact W2].
  - apply set_order_eq. simpl. apply lookup_insert_eq.
  - done.
  - simpl. rewrite lookup_insert_eq, (ok_page W x pg Hpg). done.
  - intros y Hy. simpl. by do 2 rewrite lookup_insert_ne by done.
Qed.

(** ** Buddies *)

Lemma buddy_spec M s i :
  0 ≤ i < M → 0 ≤ s < 2 ^ M → (2 ^ i | s) →
  let b := Z.lxor s (2 ^ i) in
  0 ≤ b < 2 ^ M ∧ (2 ^ i | b) ∧ b ≠ s ∧ (2 ^ (i + 1) | Z.min s b) ∧
  Z.max s b = Z.min s b + 2 ^ i.
Proof.
  intros Hi Hs Hd b. unfold b. rewrite lxor_pow2 by (done || lia).
  pose proof (pow2_pos i ltac:(lia)).
  assert (2 ^ M = 2 ^ (M - i) * 2 ^ i) as EM
    by (rewrite <- Z.pow_add_r by lia; f_equal; lia).
  assert (2 ^ (M - i) = 2 * 2 ^ (M - i - 1)) as EM'
    by (rewrite <- pow2_succ by lia; f_equal; lia).
  rewrite pow2_succ by lia. destruct Hd as [q ->].
  assert (Z.testbit (q * 2 ^ i) i = Z.odd q) as ->.
  { rewrite Z.mul_pow2_bits, Z.sub_diag by lia. apply Z.bit0_odd. }
  set (d := 2 ^ i) in *. set (e := 2 ^ (M - i - 1)) in *.
  destruct (Z.odd q) eqn:Hq.
  - apply Z.odd_spec in Hq as [m ->].
    replace ((2 * m + 1) * d - d) with (2 * m * d) by lia.
    assert (0 ≤ m) by nia. assert (0 ≤ m * d) by nia.
    rewrite Z.min_r, Z.max_l by nia.
    split_and!; [nia|nia|exists (2 * m); lia|nia|exists m; lia|nia].
  - assert (Z.even q = true) as [m ->]%Z.even_spec by (by rewrite <- Z.negb_odd, Hq).
    replace (2 * m * d + d) with ((2 * m + 1) * d) by lia.
    assert (0 ≤ m) by nia. assert (0 ≤ m * d) by nia.
    assert (2 * m < 2 * e) by nia.
    assert ((2 * m + 1) * d < 2 * e * d) by nia.
    rewrite Z.min_l, Z.max_r by nia.
    split_and!; [nia|nia|exists (2 * m + 1); lia|nia|exists m; lia|nia].
Qed.

Lemma buddy_union s b i p :
  0 ≤ i → Z.max s b = Z.min s b + 2 ^ i →
  block s i p ∨ block b i p ↔ block (Z.min s b) (i + 1) p.
Proof. intros Hi Hm. unfold block. rewrite pow2_succ by lia. lia. Qed.

Lemma order_test o i M : -1 ≤ o ≤ M → M < 31 → 0 ≤ i < 31 → (u32 o =? i) = (o =? i).
Proof.
  intros. destruct (decide (0 ≤ o)); [by rewrite u32_small by lia|].
  assert (o = -1) as -> by lia. change (u32 (-1)) with 4294967295. lia.
Qed.

(** [order] of the low half grows, the high half stops being a head. *)
Lemma merge_orders M z H lo hi U i pl ph :
  zone_ok M z H [hi; lo] U → H lo → H hi → lo ≠ hi → 0 ≤ i < M →
  pages z !! lo = Some pl → pages z !! hi = Some ph → mp_count ph = 0 →
  ∃ z', (set_order z lo (i + 1) ≫= λ z, set_order z hi (-1)) = Ret z' ∧
    (set_order z hi (-1) ≫= λ z, set_order z lo (i + 1)) = Ret z' ∧
    all_pages z' = all_pages z ∧
    pages z' !! lo = Some (MbPage (mp_page pl) (i + 1) (mp_count pl)) ∧
    zone_ok M z' H [lo] U.
Proof.
  intros W Hlo Hhi Hne Hi Hpl Hph Hc.
  pose proof (ok_max W) as HM.
  pose proof (zone_rewrite W lo pl (i + 1) (mp_count pl)
    ltac:(set_solver) Hlo Hpl ltac:(lia)) as W1.
  pose proof (zone_rewrite W1 hi ph (-1) (mp_count ph) ltac:(set_solver) Hhi
    ltac:(simpl; by rewrite lookup_insert_ne) ltac:(lia)) as W2.
  eexists. split_and!.
  - rewrite (set_order_eq _ _ _ _ Hpl). simpl.
    apply set_order_eq. simpl. by rewrite lookup_insert_ne.
  - rewrite (set_order_eq _ _ _ _ Hph). simpl.
    erewrite set_order_eq by (simpl; by rewrite lookup_insert_ne).
    unfold with_pages. simpl. do 2 f_equal. by apply insert_insert_ne.
  - done.
  - simpl. rewrite lookup_insert_ne by done. by rewrite lookup_insert_eq.
  - eapply (zone_settle W2); [done|simpl; apply lookup_insert_eq|done|done].
Qed.

(** ** mailbox_free *)

(** The state of the merge loop: block [s] of order [i] is out of the pool. *)
Definition freeing (M : Z) (z : mb_zone_t) (U : gmap Z Z) (s i : Z) : Prop :=
  zone_ok M z (block s i) [s] U ∧ (2 ^ i | s) ∧ 0 ≤ s < 2 ^ M ∧
  ∃ pg, pages z !! s = Some pg ∧ mp_order pg = i.

Lemma freeing_count0 M z U s i :
  0 ≤ i ≤ M → freeing M z U s i →
  ∃ z' pg, set_count z s 0 = Ret z' ∧ all_pages z' = all_pages z ∧
    pages z' !! s = Some pg ∧ mp_order pg = i ∧ mp_count pg = 0 ∧
    freeing M z' U s i.
Proof.
  intros Hi (W & Hal & Hs & pg & Hpg & Ho).
  rewrite (set_count_eq _ _ _ _ Hpg).
  eexists _, _. split_and!; [done|done|simpl; apply lookup_insert_eq|done|done|].
  split_and!; [|done|lia|lia|].
  - apply (zone_rewrite W); [set_solver|apply block_head; lia|done|lia].
  - eexists. split; [simpl; apply lookup_insert_eq|done].
Qed.

(** One merging round. *)
Lemma freeing_merge M z U s i pg bg :
  let b := Z.lxor s (2 ^ i) in
  0 ≤ i < M → freeing M z U s i →
  pages z !! s = Some pg → mp_count pg = 0 →
  pages z !! b = Some bg → mp_order bg = i → mp_count bg = 0 →
  ∃ z1 z', list_del z b = Ret z1 ∧
    (set_order z1 (Z.min s b) (i + 1) ≫= λ z, set_order z (Z.max s b) (-1)) = Ret z' ∧
    all_pages z1 = all_pages z ∧ all_pages z' = all_pages z ∧
    freeing M z' U (Z.min s b) (i + 1).
Proof.
  intros b Hi (W & Hal & Hs & _) Hpg Hc Hbg Ho Hbc.
  destruct (buddy_spec M s i Hi Hs Hal) as (Hbr & Hbal & Hbs & Hmin & Hmax).
  fold b in Hbr, Hbal, Hbs, Hmin, Hmax.
  assert (b ∈ free_list z i) as Hbf.
  { apply (ok_used_count W b i bg); try done; [|by exists bg; split_and!; try lia].
    unfold block. pose proof (pow2_pos i). lia. }
  destruct (list_del_open _ _ _ _ _ _ _ W Hbf) as (z1 & E1 & Ep & Ea & _ & W1).
  set (lo := Z.min s b). set (hi := Z.max s b).
  assert (zone_ok M z1 (block lo (i + 1)) [hi; lo] U) as W2.
  { apply (zone_ok_hole_ext _ _ (λ p, block s i p ∨ block b i p)).
    { intros p. apply buddy_union; lia. }
    apply (zone_weaken W1). intros x Hx. unfold lo, hi.
    destruct (decide (s ≤ b)); set_solver by lia. }
  assert (∃ pl ph, pages z1 !! lo = Some pl ∧ pages z1 !! hi = Some ph ∧
    mp_count ph = 0) as (pl & ph & Hpl & Hph & Hhc).
  { rewrite Ep. unfold lo, hi. destruct (decide (s ≤ b)).
    - rewrite Z.min_l, Z.max_r by lia. by exists pg, bg.
    - rewrite Z.min_r, Z.max_l by lia. by exists bg, pg. }
  pose proof (pow2_pos i ltac:(lia)).
  destruct (merge_orders M z1 _ lo hi U i pl ph W2) as (z' & E & _ & Ea' & Hlo & W');
    try done.
  - apply block_head. lia.
  - unfold block. rewrite pow2_succ by lia. lia.
  - lia.
  - exists z1, z'. split_and!; try done; [congruence|].
    split_and!; [done|done|lia|lia|eauto].
Qed.

Lemma free_loop_ok M n z U page i :
  n = Z.to_nat (M - i) → 0 ≤ i ≤ M →
  freeing M z U (page - all_pages z) i →
  ∃ z' d, free_loop n z page i = Ret (z', d) ∧ all_pages z' = all_pages z ∧
    if (d : bool) then zone_wf M z' U else freeing M z' U 0 M.
Proof.
  revert z page i. induction n as [|n IH]; intros z page i Hn Hi F.
  { assert (i = M) as -> by lia. exists z, false. split_and!; [done..|].
    assert (page - all_pages z = 0) as E.
    { destruct F as (_ & Hal & Hs & _). symmetry. apply (aligned_eq (2 ^ M)); [|done|lia].
      apply Z.divide_0_r. }
    by rewrite E in F. }
  simpl. set (s := page - all_pages z) in *. rewrite Z.shiftl_1_l.
  set (b := Z.lxor s (2 ^ i)).
  destruct (freeing_count0 M z U s i Hi F) as (z1 & pg & -> & Ea & Hpg & Hpo & Hpc & F1).
  simpl. pose proof F1 as (W & Hal & Hs & _). pose proof (ok_max W) as HM.
  destruct (buddy_spec M s i ltac:(lia) Hs Hal) as (Hbr & Hbal & Hbs & _ & _).
  fold b in Hbr, Hbal, Hbs. destruct (proj2 (ok_pages W b) Hbr) as [bg Hbg].
  unfold at_index. rewrite Hbg. simpl.
  rewrite (order_test (mp_order bg) i M) by (apply (ok_order W b bg Hbg) || lia).
  destruct (Z.eqb_spec (mp_order bg) i) as [Ho|Ho]; simpl.
  1: destruct (Z.eqb_spec (mp_count bg) 0) as [Hc|Hc]; simpl.
  - destruct (freeing_merge M z1 U s i pg bg) as (z2 & z3 & E1 & E2 & Ea1 & Ea2 & F2);
      try done; [lia|]. fold b in E1, E2, F2. rewrite E1. simpl.
    destruct (Z.ltb_spec b s).
    + rewrite Z.min_r, Z.max_l in E2 by lia. rewrite Z.min_r in F2 by lia.
      rewrite bind_Ret in E2. destruct E2 as (z2' & -> & E2). simpl. rewrite E2. simpl.
      destruct (IH z3 (mp_page bg) (i + 1)) as (z' & d & -> & Ea3 & HR); [lia..| |].
      * rewrite (ok_page W b bg Hbg). rewrite Ea2.
        by replace (all_pages z1 + b - all_pages z1) with b by lia.
      * exists z', d. split; [done|]; split; [congruence|done].
    + rewrite Z.min_l, Z.max_r in E2 by lia. rewrite Z.min_l in F2 by lia.
      rewrite bind_Ret in E2. destruct E2 as (z2' & -> & E2). simpl. rewrite E2. simpl.
      destruct (IH z3 page (i + 1)) as (z' & d & -> & Ea3 & HR); [lia..| |].
      * rewrite Ea2, Ea. done.
      * exists z', d. split; [done|]; split; [congruence|done].
  - destruct (release_block M z1 U s i pg) as (z' & -> & Ea1 & W'); try done; [by left| |].
    + intros _ Hf. apply Hc. apply (ok_free_count W b i bg); [done|lia|done].
    + exists z', true. split; [done|]; split; [congruence|done].
  - destruct (release_block M z1 U s i pg) as (z' & -> & Ea1 & W'); try done; [by left| |].
    + intros _ Hf. fold b in Hf. apply Ho. destruct (ok_free W _ _ Hf) as [_ (q & Hq & ? & _)].
      rewrite Hbg in Hq. by simplify_eq.
    + exists z', true. split; [done|]; split; [congruence|done].
Qed.

(** ** mailbox_alloc *)

(** Unlinking commutes with the updates made to other pages, so the block
    found can be taken off its list first. *)
Lemma list_del_Ret z pos z1 :
  list_del z pos = Ret z1 ↔
  linked z pos = true ∧ z1 = with_areas z (area_del pos <$> free_areas z).
Proof. unfold list_del. destruct (linked z pos); naive_solver. Qed.

Lemma set_count_del_comm z pos z1 n c z2 :
  list_del z pos = Ret z1 → set_count z1 n c = Ret z2 →
  ∃ z', set_count z n c = Ret z' ∧ list_del z' pos = Ret z2.
Proof.
  intros [Hl ->]%list_del_Ret. unfold set_count, at_index. simpl.
  destruct (pages z !! n); simpl; [|done]. intros [= <-].
  eexists. split; [done|]. by apply list_del_Ret.
Qed.

Lemma set_order_del_comm z pos z1 n o z2 :
  list_del z pos = Ret z1 → set_order z1 n o = Ret z2 →
  ∃ z', set_order z n o = Ret z' ∧ list_del z' pos = Ret z2.
Proof.
  intros [Hl ->]%list_del_Ret. unfold set_order, at_index. simpl.
  destruct (pages z !! n); simpl; [|done]. intros [= <-].
  eexists. split; [done|]. by apply list_del_Ret.
Qed.

Lemma list_add_del_comm z pos z1 n k z2 :
  n ≠ pos → list_del z pos = Ret z1 → list_add_tail z1 n k = Ret z2 →
  ∃ z', list_add_tail z n k = Ret z' ∧ list_del z' pos = Ret z2.
Proof.
  intros Hne [Hl ->]%list_del_Ret. unfold list_add_tail, at_index. simpl.
  rewrite lookup_fmap. destruct (free_areas z !! k) as [a|] eqn:Ha; simpl; [|done].
  destruct (linked (with_areas z _) n) eqn:Hn; [done|]. intros [= <-].
  assert (linked z n = false) as ->.
  { apply not_linked_spec. intros j Hj. apply not_linked_spec with (k := j) in Hn.
    apply Hn, elem_of_free_list_del. done. }
  eexists. split; [done|]. apply list_del_Ret. split.
  - apply linked_spec. apply linked_spec in Hl as [j Hj]. exists j.
    unfold free_list in *. simpl. rewrite lookup_insert. case_decide; subst; [|done].
    rewrite Ha in Hj. simpl. apply elem_of_app. by left.
  - unfold with_areas. simpl. f_equal. rewrite fmap_insert. f_equal.
    unfold area_del. simpl. f_equal. rewrite filter_app. f_equal.
    by rewrite filter_cons_True.
Qed.

Lemma split_del_comm n z pos j z1 z2 :
  0 ≤ j → list_del z pos = Ret z1 → split_loop n z1 pos j = Ret z2 →
  ∃ z', split_loop n z pos j = Ret z' ∧ list_del z' pos = Ret z2.
Proof.
  revert z z1 j. induction n as [|n IH]; intros z z1 j Hj Hd; simpl.
  { intros [= <-]. eauto. }
  assert (pos + Z.shiftl 1 j ≠ pos) as Hne.
  { rewrite Z.shiftl_1_l. pose proof (pow2_pos j Hj). lia. }
  intros (za & Ea & (zb & Eb & (zc & Ec & Es)%bind_Ret)%bind_Ret)%bind_Ret.
  destruct (set_count_del_comm _ _ _ _ _ _ Hd Ea) as (za' & -> & Da). simpl.
  destruct (set_order_del_comm _ _ _ _ _ _ Da Eb) as (zb' & -> & Db). simpl.
  destruct (list_add_del_comm _ _ _ _ _ _ Hne Db Ec) as (zc' & -> & Dc). simpl.
  eapply IH; try done. lia.
Qed.

(** The pages still out of the pool when the split loop reaches [j]. *)
Definition split_hole (pos ord j i p : Z) : Prop :=
  block pos ord p ∨ pos + 2 ^ j ≤ p < pos + 2 ^ i.

Lemma lxor_upper_half pos j i :
  0 ≤ j < i → (2 ^ i | pos) → Z.lxor (pos + 2 ^ j) (2 ^ j) = pos.
Proof.
  intros Hj [q ->].
  assert (Z.lxor (q * 2 ^ i) (2 ^ j) = q * 2 ^ i + 2 ^ j) as E.
  { rewrite lxor_pow2; [|lia|].
    - by rewrite Z.mul_pow2_bits_low by lia.
    - apply Z.divide_mul_r, pow2_divide. lia. }
  by rewrite <- E, Z.lxor_assoc, Z.lxor_nilpotent, Z.lxor_0_r.
Qed.

Lemma split_step M z U pos ord j i :
  0 ≤ ord ≤ j → j < i ≤ M → (2 ^ i | pos) →
  zone_ok M z (split_hole pos ord j i) [pos] U →
  ∃ z1 z2 z', let n := pos + 2 ^ j in
    set_count z n 0 = Ret z1 ∧ set_order z1 n j = Ret z2 ∧
    list_add_tail z2 n j = Ret z' ∧ all_pages z' = all_pages z ∧
    pages z' !! pos = pages z !! pos ∧
    zone_ok M z' (split_hole pos ord (j + 1) i) [pos] U.
Proof.
  intros Hoj Hji Hal W. set (n := pos + 2 ^ j).
  pose proof (pow2_pos j ltac:(lia)). pose proof (pow2_pos ord ltac:(lia)).
  pose proof (pow2_double_le j i ltac:(lia)). pose proof (pow2_le ord j ltac:(lia)).
  assert (n ≠ pos) as Hne by (unfold n; lia).
  assert (split_hole pos ord j i n) as Hn by (right; unfold n; lia).
  assert (split_hole pos ord j i pos) as Hpos by (left; apply block_head; lia).
  pose proof (ok_max W).
  pose proof (zone_weaken W [n; pos] ltac:(set_solver)) as W0.
  destruct (set_fields_ok M z _ _ U n j 0 W0 ltac:(set_solver) Hn ltac:(lia))
    as (z1 & z2 & E1 & E2 & Ea2 & Hpg & Hoth & W2).
  pose proof W2 as W2'.
  eapply (release_in_hole M _ _ [pos] U n j) in W2' as (z' & E & Ea & Ep & W3).
  - exists z1, z2, z'. split_and!; [done..|congruence| |].
    + rewrite Ep. by apply Hoth.
    + revert W3. apply zone_ok_hole_ext. intros p. unfold split_hole, block, n.
      rewrite pow2_succ by lia. lia.
  - lia.
  - unfold n. apply Z.divide_add_r; [|done].
    etrans; [apply (pow2_divide j i); lia|done].
  - intros p Hp. right. unfold block, n in *. lia.
  - intros p Hp ->%list_elem_of_singleton. unfold block, n in *. lia.
  - exact Hpg.
  - done.
  - by left.
  - intros _. unfold n. rewrite (lxor_upper_half pos j i) by (done || lia).
    by intros [? _]%(ok_free W2).
Qed.

Lemma split_loop_ok M n z U pos ord j i :
  n = Z.to_nat (i - j) → 0 ≤ ord ≤ j → j ≤ i ≤ M → (2 ^ i | pos) →
  zone_ok M z (split_hole pos ord j i) [pos] U →
  ∃ z', split_loop n z pos j = Ret z' ∧ all_pages z' = all_pages z ∧
    pages z' !! pos = pages z !! pos ∧ zone_ok M z' (block pos ord) [pos] U.
Proof.
  revert z j. induction n as [|n IH]; intros z j Hn Hoj Hji Hal W; simpl.
  - assert (j = i) as -> by lia. exists z. split_and!; [done..|].
    revert W. apply zone_ok_hole_ext. intros p. unfold split_hole, block. lia.
  - destruct (split_step M z U pos ord j i) as (z1 & z2 & z3 & E1 & E2 & E3 & Ea & Ep & W3);
      try done; [lia|]. rewrite Z.shiftl_1_l, E1. simpl. rewrite E2. simpl.
    rewrite E3. simpl.
    destruct (IH z3 (j + 1)) as (z' & -> & Ea' & Ep' & W'); [lia..|done|done|].
    exists z'. split_and!; [done|congruence|congruence|done].
Qed.

(** The body of the outer loop once the list of order [i] is not empty. *)
Lemma take_block_ok M z U pos ord i :
  zone_wf M z U → 0 ≤ ord ≤ i → pos ∈ free_list z i →
  ∃ z1 z2 z3 z' pg,
    set_count z pos 1 = Ret z1 ∧ set_order z1 pos ord = Ret z2 ∧
    split_loop (Z.to_nat (i - ord)) z2 pos ord = Ret z3 ∧
    list_del z3 pos = Ret z' ∧ pages z' !! pos = Some pg ∧
    mp_page pg = all_pages z + pos ∧ all_pages z' = all_pages z ∧
    U !! pos = None ∧ zone_wf M z' (<[pos := ord]> U).
Proof.
  intros W Hoi Hpos.
  destruct (ok_free W _ _ Hpos) as [_ Hd]. destruct (head_range W _ _ Hd) as [HiM Hr].
  assert ((2 ^ i | pos)) as Hal by (apply (ok_align W); [tauto|done]).
  destruct (list_del_open _ _ _ _ _ _ _ W Hpos) as (za & Ea & Ep & Eall & _ & Wa).
  apply (zone_ok_hole_ext _ _ _ (block pos i)) in Wa; [|unfold no_pages; tauto].
  assert (block pos i pos) as Hin by (apply block_head; lia).
  destruct (set_fields_ok M za _ _ U pos ord 1 Wa ltac:(set_solver) Hin ltac:(lia))
    as (zb & zc & Eb & Ec & Eac & Hpg & _ & Wc).
  destruct (set_count_del_comm _ _ _ _ _ _ Ea Eb) as (z1 & E1 & D1).
  destruct (set_order_del_comm _ _ _ _ _ _ D1 Ec) as (z2 & E2 & D2).
  apply (zone_ok_hole_ext _ _ _ (split_hole pos ord ord i)) in Wc.
  2: { intros p. unfold split_hole, block.
       pose proof (pow2_le ord i ltac:(lia)). lia. }
  destruct (split_loop_ok M (Z.to_nat (i - ord)) zc U pos ord ord i)
    as (z4 & E4 & Ea4 & Ep4 & W4); [done|lia|lia|done|done|].
  destruct (split_del_comm _ z2 pos ord _ _ ltac:(lia) D2 E4) as (z3 & E3 & D3).
  rewrite Hpg in Ep4.
  assert ((2 ^ ord | pos)) as Halo.
  { etrans; [apply (pow2_divide ord i); lia|done]. }
  destruct (keep_block M z4 U pos ord _ W4 ltac:(lia) Halo Ep4 eq_refl) as [HU W'];
    [done|].
  eexists z1, z2, z3, z4, _. split_and!; try done; simpl; congruence.
Qed.

Lemma alloc_loop_ok M n z U ord i :
  n = Z.to_nat (M - i + 1) → 0 ≤ ord ≤ i → zone_wf M z U →
  (∃ i' pos z', i ≤ i' ≤ M ∧ pos ∈ free_list z i' ∧
     (∀ k, i ≤ k < i' → free_list z k = []) ∧
     alloc_loop n z ord i = Ret (z', Some (all_pages z + pos)) ∧
     all_pages z' = all_pages z ∧ U !! pos = None ∧
     zone_wf M z' (<[pos := ord]> U)) ∨
  (alloc_loop n z ord i = Ret (z, None) ∧ ∀ k, i ≤ k → free_list z k = []).
Proof.
  revert i. induction n as [|n IH]; intros i Hn Hoi W.
  { right. split; [done|]. intros k Hk. unfold free_list.
    destruct (free_areas z !! k) eqn:E; [|done].
    destruct (proj1 (ok_areas W k)); [by rewrite E|lia]. }
  destruct (proj2 (ok_areas W i)) as [a Ha]; [lia|].
  simpl. unfold at_index. rewrite Ha. simpl. pose proof (free_list_lookup _ _ _ Ha) as Hfl.
  destruct (page_list a) as [|pos l] eqn:Hl.
  - destruct (IH (i + 1)) as [(i' & pos & z' & Hi' & Hpos & Hk & E & Hrest)|[E Hk]];
      [lia..|done| |].
    + left. exists i', pos, z'. split_and!; try done; try tauto; try lia.
      intros k Hki. destruct (decide (k = i)) as [->|]; [done|]. apply Hk. lia.
    + right. split; [done|]. intros k Hki.
      destruct (decide (k = i)) as [->|]; [done|]. apply Hk. lia.
  - left. assert (pos ∈ free_list z i) as Hpos by (rewrite Hfl; apply list_elem_of_here).
    destruct (take_block_ok M z U pos ord i W Hoi Hpos)
      as (z1 & z2 & z3 & z' & pg & -> & E2 & E3 & E4 & Hpg & Hp & Ea & HU & W').
    simpl. rewrite E2. simpl. rewrite E3. simpl. rewrite E4. simpl.
    rewrite Hpg. simpl. rewrite Hp.
    exists i, pos, z'. split_and!; try done; try lia.
Qed.
