(* ===== verification/MailboxThm.v ===== *)
(** * The mailbox memory pool: what its clients may rely on

    The pool of core/mailbox_mempool.c implements an abstract allocator whose
    state is the set of live blocks.  Every entry point is shown total (no
    list corruption, no access outside the arrays) on well-formed states and
    to act on the live blocks as its contract says. *)

From stdpp Require Import base gmap list fin_maps.
From Stdlib Require Import ZArith Lia.
From S2P Require Import Prelude KernelApi TeeTypes Mailbox MailboxInv.

(** ** Sizes and orders *)

Lemma align_4k_spec x :
  0 ≤ x ≤ 2 ^ 64 - SZ_4K → align_4k x = (x + 4095) / 4096 * 4096.
Proof.
  unfold align_4k, SZ_4K. intros Hx. change (4096 - 1) with (Z.ones 12).
  rewrite Z.ldiff_ones_r by lia. rewrite Z.shiftl_mul_pow2, Z.shiftr_div_pow2 by lia.
  rewrite u64_small by (change (Z.ones 12) with 4095; lia).
  change (Z.ones 12) with 4095. done.
Qed.

Lemma align_4k_bounds x :
  0 ≤ x ≤ 2 ^ 64 - SZ_4K → x ≤ align_4k x < x + 4096.
Proof.
  intros Hx. rewrite align_4k_spec by done.
  pose proof (Z.div_mod (x + 4095) 4096). pose proof (Z.mod_pos_bound (x + 4095) 4096). lia.
Qed.

Lemma fls64_spec x : 0 ≤ x →
  0 ≤ fls64 x ∧ x < 2 ^ fls64 x ∧ (0 < fls64 x → 2 ^ (fls64 x - 1) ≤ x).
Proof.
  intros Hx. unfold fls64. destruct (Z.eqb_spec x 0) as [->|]; [simpl; lia|].
  pose proof (Z.log2_nonneg x). pose proof (Z.log2_spec x ltac:(lia)) as [? H2].
  rewrite Z.add_1_r at 2. replace (Z.log2 x + 1 - 1) with (Z.log2 x) by lia.
  split_and!; lia.
Qed.

(** The order chosen is the least one whose blocks hold [size] bytes. *)
Lemma alloc_order_spec size :
  0 < size ≤ 2 ^ 64 - SZ_4K →
  let k := get_order (align_4k size) in
  0 ≤ k ∧ size ≤ 2 ^ k * PAGE_SIZE ∧ (0 < k → 2 ^ (k - 1) * PAGE_SIZE < size).
Proof.
  intros Hs k. unfold SZ_4K in Hs. unfold k, get_order, PAGE_SIZE, PAGE_SHIFT.
  rewrite align_4k_spec by (unfold SZ_4K; lia).
  set (q := (size + 4095) / 4096).
  assert (4096 * q ≤ size + 4095 < 4096 * q + 4096) as Hq.
  { unfold q. pose proof (Z.div_mod (size + 4095) 4096).
    pose proof (Z.mod_pos_bound (size + 4095) 4096). lia. }
  rewrite u64_small by lia. rewrite Z.shiftr_div_pow2 by lia.
  replace ((q * 4096 - 1) / 2 ^ 12) with (q - 1)
    by (apply Z.div_unique with 4095; lia).
  destruct (fls64_spec (q - 1) ltac:(lia)) as (? & ? & ?).
  change (2 ^ 12) with 4096. split_and!; lia.
Qed.

Lemma alloc_order_wrap size :
  2 ^ 64 - SZ_4K < size < 2 ^ 64 → get_order (align_4k size) = 52.
Proof.
  unfold SZ_4K. intros Hs. unfold align_4k, SZ_4K.
  change (4096 - 1) with (Z.ones 12). rewrite Z.ldiff_ones_r by lia.
  change (Z.ones 12) with 4095.
  replace (u64 (size + 4095)) with (size + 4095 - 2 ^ 64).
  - rewrite Z.shiftr_div_pow2, Z.div_small by lia. reflexivity.
  - unfold u64. rewrite <- (Z.mod_small (size + 4095 - 2 ^ 64) (2 ^ 64)) by lia.
    rewrite <- (Z.mod_add (size + 4095 - 2 ^ 64) 1) by lia. f_equal. lia.
Qed.

(** ** The abstract pool *)

(** [pool g base U]: the driver's pool is set up over the frames from [base]
    on and its live blocks are [U]. *)
Definition pool (g : mailbox) (base : Z) (U : gmap Z Z) : Prop :=
  ∃ z, g_m_zone g = Some z ∧ all_pages z = base ∧ 0 ≤ base ∧
    2 ^ g_max_oder g = MAILBOX_PAGE_MAX ∧ zone_wf (g_max_oder g) z U.

Lemma pool_max_oder g base U : pool g base U → g_max_oder g = 10.
Proof.
  intros (z & _ & _ & _ & E & W). pose proof (ok_max W).
  change MAILBOX_PAGE_MAX with (2 ^ 10) in E. apply Z.pow_inj_r in E; lia.
Qed.

(** Blocks of order at least [k] on the free lists. *)
Definition has_free_block (g : mailbox) (k : Z) : Prop :=
  ∃ z j h, g_m_zone g = Some z ∧ k ≤ j ∧ h ∈ free_list z j.

(** Live blocks are inside the pool, aligned to their size and disjoint. *)
Lemma live_block_range g base U h k :
  pool g base U → U !! h = Some k →
  0 ≤ k ≤ 10 ∧ 0 ≤ h ∧ h + 2 ^ k ≤ MAILBOX_PAGE_MAX ∧ (2 ^ k | h).
Proof.
  intros Hp Hh. pose proof (pool_max_oder _ _ _ Hp) as EM.
  destruct Hp as (z & _ & _ & _ & E & W). rewrite <- E, EM in *.
  apply (ok_live W) in Hh as (Hn & Hd & _).
  destruct (head_range W _ _ Hd) as [??]. pose proof (ok_align W _ _ Hn Hd) as Hal.
  pose proof (pow2_pos k ltac:(lia)).
  pose proof (block_range (M := 10) h k (h + 2 ^ k - 1) ltac:(lia) ltac:(lia) Hal).
  unfold block in *. split_and!; [lia..|done].
Qed.

Lemma live_blocks_apart g base U h k h' k' p :
  pool g base U → U !! h = Some k → U !! h' = Some k' →
  block h k p → block h' k' p → h = h'.
Proof.
  intros (z & _ & _ & _ & _ & W) (? & ? & _)%(ok_live W) (? & ? & _)%(ok_live W).
  by apply (heads_apart W).
Qed.

Section Clients.
Context {P : PageMap} {PL : PageMapLaws P} {SC : SecureC} {SL : SecureCLaws SC}.

Definition block_addr (base h : Z) : Z := page_address (base + h).

Lemma mailbox_take_ok g base U z ord :
  pool g base U → g_m_zone g = Some z → 0 ≤ ord ≤ g_max_oder g →
  (∃ g' h, mailbox_take g z ord = Ret (g', block_addr base h) ∧
     U !! h = None ∧ pool g' base (<[h := ord]> U)) ∨
  (mailbox_take g z ord = Ret (g, 0) ∧ ¬ has_free_block g ord).
Proof.
  intros (z0 & Ez & Eb & Hb & EM & W) Ez' Ho.
  rewrite Ez' in Ez. injection Ez as <-. subst base.
  unfold mailbox_take.
  destruct (alloc_loop_ok (g_max_oder g) (Z.to_nat (g_max_oder g - ord + 1)) z U ord ord)
    as [(i & pos & z' & Hi & Hpos & _ & -> & Ea & HU & W')|[-> Hk]]; [done|lia|done| |].
  - left. simpl. eexists _, pos. split; [done|]. split; [done|].
    exists z'. split_and!; done.
  - right. simpl. split.
    + unfold set_zone. destruct g; simpl in *; by subst.
    + intros (z1 & j & h & Ez1 & Hj & Hh).
      rewrite Ez' in Ez1. injection Ez1 as <-.
      rewrite (Hk j Hj) in Hh. by apply not_elem_of_nil in Hh.
Qed.

(** The block the memory functions see. *)
Lemma pool_addr_pos g base U h k :
  pool g base U → U !! h = Some k → 0 < block_addr base h.
Proof.
  intros Hp Hh. pose proof (live_block_range _ _ _ _ _ Hp Hh).
  destruct Hp as (? & _ & _ & ? & _). apply page_address_pos. lia.
Qed.

(** What becoming live says about a block that was not. *)
Lemma fresh_block_facts g base U h k :
  pool g base (<[h := k]> U) → U !! h = None →
  0 < block_addr base h ∧ 0 ≤ h ∧ h + 2 ^ k ≤ MAILBOX_PAGE_MAX ∧ (2 ^ k | h) ∧
  (∀ h' k' p, U !! h' = Some k' → block h k p → ¬ block h' k' p).
Proof.
  intros Hp HU. assert (<[h := k]> U !! h = Some k) as Hh by apply lookup_insert_eq.
  destruct (live_block_range _ _ _ _ _ Hp Hh) as (_ & ? & ? & ?).
  split_and!; [by eapply pool_addr_pos|done..|].
  intros h' k' p Hh' Hb1 Hb2. assert (h ≠ h') as Hne by congruence.
  apply Hne. eapply (live_blocks_apart _ _ _ _ _ _ _ p Hp Hh); try done.
  by rewrite lookup_insert_ne.
Qed.

(** The order test of [mailbox_alloc] keeps wrapped sizes out. *)
Lemma order_fits size :
  0 < size < 2 ^ 64 → get_order (align_4k size) ≤ 10 →
  0 ≤ get_order (align_4k size) ∧ size ≤ 2 ^ get_order (align_4k size) * PAGE_SIZE ∧
  0 < align_4k size ≤ SECUREC_MEM_MAX_LEN.
Proof.
  intros Hs Hfit. assert (size ≤ 2 ^ 64 - SZ_4K) as Hnw.
  { apply Z.le_ngt. intros Hw. pose proof (alloc_order_wrap size ltac:(lia)). lia. }
  destruct (alloc_order_spec size ltac:(lia)) as (Ho0 & Hcov & _).
  pose proof (align_4k_bounds size ltac:(unfold SZ_4K in *; lia)).
  pose proof (pow2_le (get_order (align_4k size)) 10 ltac:(lia)).
  unfold PAGE_SIZE, PAGE_SHIFT, SECUREC_MEM_MAX_LEN in *. split_and!; lia.
Qed.


(** ** The entry points on a well-formed pool *)

Lemma mailbox_alloc_cases g base U m size flag :
  pool g base U → 0 ≤ size < 2 ^ 64 →
  let ord := get_order (align_4k size) in
  (∃ g' m' h,
     mailbox_alloc g m size flag = Ret (g', m', block_addr base h) ∧
     block_addr base h ≠ 0 ∧ U !! h = None ∧ pool g' base (<[h := ord]> U) ∧
     size ≤ 2 ^ ord * PAGE_SIZE ∧ 0 ≤ h ∧ h + 2 ^ ord ≤ MAILBOX_PAGE_MAX ∧
     (2 ^ ord | h) ∧
     (∀ h' k p, U !! h' = Some k → block h ord p → ¬ block h' k p) ∧
     (Z.land flag MB_FLAG_ZERO ≠ 0 →
        load_bytes m' (block_addr base h) (Z.to_nat (align_4k size))
          = replicate (Z.to_nat (align_4k size)) 0) ∧
     (∀ a, ¬ block_addr base h ≤ a < block_addr base h + align_4k size →
        m' !! a = m !! a)) ∨
  (mailbox_alloc g m size flag = Ret (g, m, 0) ∧
     (size = 0 ∨ 10 < ord ∨ ¬ has_free_block g ord)).
Proof.
  intros Hp Hsz ord. pose proof (pool_max_oder _ _ _ Hp) as EM.
  pose proof Hp as (z & Ez & Eb & Hb & Emax & W).
  unfold mailbox_alloc. rewrite Ez, EM. fold ord.
  destruct (Z.eqb_spec size 0) as [->|Hs0]; [right; tauto|].
  destruct (Z.ltb_spec 10 ord) as [Hbig|Hfit]; simpl; [right; tauto|].
  destruct (order_fits size) as (Ho0 & Hcov & Hal); [lia|done|]. fold ord in Ho0, Hcov.
  destruct (Z.ltb_spec ord 0) as [?|_]; [lia|].
  destruct (mailbox_take_ok g base U z ord Hp Ez ltac:(lia))
    as [(g' & h & -> & HU & Hp')|[-> Hnone]]; simpl; [left|right; tauto].
  destruct (fresh_block_facts _ _ _ _ _ Hp' HU) as (Hnn & Hh0 & Hhr & Hdiv & Hdis).
  rewrite nonzero_neq by lia.
  simpl. destruct (nonzero (Z.land flag MB_FLAG_ZERO)) eqn:Hfl.
  - rewrite memset_s_ok by lia. simpl. change (u8 0) with 0.
    exists g', (store_bytes m (block_addr base h)
      (replicate (Z.to_nat (align_4k size)) 0)), h.
    split_and!; try done; try lia.
    + intros _.
      pose proof (load_store_bytes m (block_addr base h)
        (replicate (Z.to_nat (align_4k size)) 0)) as E.
      by rewrite length_replicate in E.
    + intros a Ha. apply store_bytes_lookup_outside. rewrite length_replicate. lia.
  - exists g', m, h. split_and!; try done; try lia.
    intros Hf. unfold nonzero in Hfl.
    by destruct (Z.eqb_spec (Z.land flag MB_FLAG_ZERO) 0).
Qed.

Lemma mailbox_free_live g base U h k d :
  pool g base U → U !! h = Some k → 0 ≤ d < PAGE_SIZE →
  ∃ g', mailbox_free g (block_addr base h + d) = Ret g' ∧
    pool g' base (delete h U).
Proof.
  intros Hp Hh Hd. pose proof (live_block_range _ _ _ _ _ Hp Hh) as (Hk & Hh0 & Hhr & Hal).
  pose proof (pool_max_oder _ _ _ Hp) as EM.
  pose proof (pool_addr_pos _ _ _ _ _ Hp Hh) as Hpos.
  pose proof (pow2_pos k ltac:(lia)).
  pose proof Hp as (z & Ez & Eb & Hb & Emax & W).
  pose proof (proj1 (ok_live W h k) Hh) as (_ & (pg & Hpg & Ho & _) & Hnf).
  unfold mailbox_free, is_ptr_valid. rewrite Ez.
  destruct (Z.eqb_spec (block_addr base h + d) 0); [lia|].
  unfold block_addr. rewrite virt_to_page_address by lia. rewrite Eb.
  destruct (Z.ltb_spec (base + h) base); [lia|].
  destruct (Z.leb_spec (base + MAILBOX_PAGE_MAX) (base + h)); [lia|]. simpl.
  replace (base + h - base) with h by lia. unfold at_index. rewrite Hpg. simpl.
  destruct (Z.eqb_spec (mp_count pg) 0) as [Hc|Hc].
  { destruct Hnf. apply (ok_used_count W h k pg); [tauto|by exists pg; split_and!; try lia|done..]. }
  rewrite Ho, (u32_small k) by lia.
  assert (freeing (g_max_oder g) z (delete h U) h k) as F.
  { split_and!; [|done|done|lia|eauto].
    apply (zone_ok_hole_ext _ _ (λ p, no_pages p ∨ block h k p)); [unfold no_pages; tauto|].
    by apply live_open. }
  destruct (free_loop_ok (g_max_oder g) (Z.to_nat (g_max_oder g - k)) z (delete h U)
    (base + h) k) as (z' & ended & -> & Ea & R); [done|lia| |].
  { by replace (base + h - all_pages z) with h by lia. }
  simpl. destruct ended.
  - eexists. split; [done|]. exists z'. split_and!; [done|simpl; congruence|done..].
  - destruct R as (W' & _ & _ & pg0 & Hpg0 & Ho0).
    destruct (release_block (g_max_oder g) z' (delete h U) 0 (g_max_oder g) pg0)
      as (z2 & E2 & Ea2 & W2); [done|lia|apply Z.divide_0_r|done|done|by right|lia|].
    unfold add_max_order_block. simpl.
    rewrite Z.max_r, Z.eqb_refl by lia. simpl. rewrite E2. simpl.
    eexists. split; [done|]. exists z2. split_and!; [done|simpl; congruence|done..].
Qed.

(** A pointer the pool does not hold as a live block is left alone, unless its
    page heads the free block of the top order. *)
Lemma mailbox_free_not_live g base U z p d :
  pool g base U → g_m_zone g = Some z → 0 ≤ p < MAILBOX_PAGE_MAX →
  0 ≤ d < PAGE_SIZE → U !! p = None → p ∉ free_list z 10 →
  mailbox_free g (block_addr base p + d) = Ret g.
Proof.
  intros Hp Ez Hr Hd HU Hnf. pose proof (pool_max_oder _ _ _ Hp) as EM.
  destruct Hp as (z0 & Ez0 & Eb & Hb & Emax & W).
  rewrite Ez in Ez0. injection Ez0 as <-. rewrite EM in *.
  unfold mailbox_free, is_ptr_valid. rewrite Ez.
  destruct (Z.eqb_spec (block_addr base p + d) 0); [done|].
  unfold block_addr. rewrite virt_to_page_address by lia. rewrite Eb.
  destruct (Z.ltb_spec (base + p) base); [lia|].
  destruct (Z.leb_spec (base + MAILBOX_PAGE_MAX) (base + p)); [lia|]. simpl.
  replace (base + p - base) with p by lia.
  destruct (proj2 (ok_pages W p)) as [pg Hpg]; [lia|].
  unfold at_index. rewrite Hpg. simpl.
  assert (mp_count pg = 0) as ->; [|done].
  pose proof (ok_order W p pg Hpg). destruct (decide (mp_order pg = -1)) as [Ho|Ho].
  { by apply (ok_plain W p pg). }
  assert (head z p (mp_order pg)) as Hhd by (exists pg; split_and!; [done|done|lia]).
  destruct (decide (p ∈ free_list z (mp_order pg))) as [Hf|Hf].
  - apply (ok_free_count W p (mp_order pg) pg Hf); [|done].
    assert (mp_order pg ≠ 10) by congruence. lia.
  - assert (U !! p = Some (mp_order pg)) by (by apply (ok_live W)). congruence.
Qed.

Lemma mailbox_free_outside g base U ptr :
  pool g base U →
  ptr = 0 ∨ ¬ base ≤ virt_to_page ptr < base + MAILBOX_PAGE_MAX →
  mailbox_free g ptr = Ret g.
Proof.
  intros (z & Ez & Eb & _) Hout. unfold mailbox_free, is_ptr_valid. rewrite Ez, Eb.
  destruct (Z.eqb_spec ptr 0); [done|]. destruct Hout as [?|Hout]; [done|].
  destruct (Z.ltb_spec (virt_to_page ptr) base); [done|].
  destruct (Z.leb_spec (base + MAILBOX_PAGE_MAX) (virt_to_page ptr)); [done|]. lia.
Qed.

(** ** Coalescing *)

(** With nothing live, no block below the top order is left. *)
Lemma idle_no_small_head M z k h :
  zone_wf M z ∅ → 0 ≤ k < M → ¬ head z h k.
Proof.
  intros W. revert h. induction (Z.lt_wf 0 k) as [k _ IH]. intros h Hk Hd.
  assert (∀ x j, head z x j → x ∈ free_list z j) as Hall.
  { intros x j Hx. destruct (decide (x ∈ free_list z j)); [done|].
    pose proof (proj2 (ok_live W x j) (conj (not_no_pages x) (conj Hx n))) as E.
    by rewrite lookup_empty in E. }
  destruct (head_range W _ _ Hd) as [_ Hhr].
  pose proof (ok_align W h k ltac:(tauto) Hd) as Hal.
  destruct (buddy_spec M h k ltac:(lia) Hhr Hal) as (Hbr & Hbal & Hne & Hmin & Hmax).
  set (b := Z.lxor h (2 ^ k)) in *.
  destruct (ok_cover W b Hbr ltac:(tauto)) as (h' & k' & _ & Hd' & Hb').
  destruct (head_range W _ _ Hd') as [Hk' _].
  pose proof (ok_align W h' k' ltac:(tauto) Hd') as Hal'.
  pose proof (pow2_pos k ltac:(lia)).
  destruct (decide (k' < k)); [apply (IH k' ltac:(lia) h'); [lia|done]|].
  destruct (decide (k' = k)) as [->|].
  - assert (b = h') as <-.
    { symmetry. apply (aligned_eq (2 ^ k)); try done. }
    apply (ok_coalesced W h k (Hall _ _ Hd)); [lia|]. by apply Hall.
  - destruct (aligned_nested (k + 1) k' (Z.min h b) h' b) as [? ?]; try done; [lia| |].
    { rewrite pow2_succ by lia. lia. }
    rewrite pow2_succ in * by lia.
    assert (h = h') as <- by (apply (heads_apart W h k h' k' h); try tauto; unfold block; lia).
    pose proof (head_order _ _ _ _ Hd Hd'). lia.
Qed.

Lemma idle_free_lists M z :
  zone_wf M z ∅ → free_list z M = [0] ∧ ∀ k, k ≠ M → free_list z k = [].
Proof.
  intros W. pose proof (ok_max W).
  assert (∀ h k, head z h k → k = M ∧ h = 0) as Hhd.
  { intros h k Hd. destruct (head_range W _ _ Hd) as [Hk Hr].
    assert (k = M) as ->.
    { destruct (decide (k = M)); [done|]. by destruct (idle_no_small_head M z k h W ltac:(lia)). }
    split; [done|]. symmetry. apply (aligned_eq (2 ^ M)); [apply Z.divide_0_r| |lia].
    apply (ok_align W); tauto. }
  split.
  - pose proof (pow2_pos M ltac:(lia)).
    destruct (ok_cover W 0 ltac:(lia) ltac:(tauto)) as (h & k & _ & Hd & _).
    destruct (Hhd _ _ Hd) as [-> ->].
    assert (0 ∈ free_list z M) as Hz.
    { destruct (decide (0 ∈ free_list z M)); [done|].
      pose proof (proj2 (ok_live W 0 M) (conj (not_no_pages 0) (conj Hd n))) as E.
      by rewrite lookup_empty in E. }
    pose proof (ok_nodup W M) as Hnd.
    assert (∀ x, x ∈ free_list z M → x = 0) as Hx.
    { intros x [_ Hx]%(ok_free W). by apply Hhd in Hx as [_ ?]. }
    destruct (free_list z M) as [|x [|y l]]; [by apply not_elem_of_nil in Hz| |].
    + by rewrite (Hx x) by set_solver.
    + apply NoDup_cons in Hnd as [Hnd _].
      rewrite (Hx x), <- (Hx y) in Hnd by set_solver. set_solver.
  - intros k Hk. destruct (free_list z k) as [|x l] eqn:E; [done|].
    assert (x ∈ free_list z k) as [_ Hx]%(ok_free W) by (rewrite E; set_solver).
    by apply Hhd in Hx as [? _].
Qed.

(** ** Initialisation *)

Lemma lookup_table {A} (f : Z → A) (l : list Z) p :
  (list_to_map ((λ i, (i, f i)) <$> l) : gmap Z A) !! p
    = if decide (p ∈ l) then Some (f p) else None.
Proof.
  induction l as [|i l IH].
  - rewrite decide_False by apply not_elem_of_nil. apply lookup_empty.
  - rewrite fmap_cons, list_to_map_cons, lookup_insert, IH. repeat case_decide; subst; try done; set_solver.
Qed.

Lemma init_pages_lookup base p :
  init_pages base !! p
    = if decide (0 ≤ p < MAILBOX_PAGE_MAX) then Some (MbPage (base + p) (-1) 0) else None.
Proof.
  unfold init_pages, page_indices.
  rewrite (lookup_table (λ i, MbPage (base + i) (-1) 0)).
  repeat case_decide; try done; rewrite elem_of_seqZ in *; lia.
Qed.

Lemma init_areas_lookup M k :
  init_areas M !! k = if decide (0 ≤ k ≤ M) then Some (MbFreeArea [] k) else None.
Proof.
  unfold init_areas. rewrite (lookup_table (λ i, MbFreeArea [] i)).
  repeat case_decide; try done; rewrite elem_of_seqZ in *; lia.
Qed.

#[local] Opaque init_pages init_areas.

(** Before the first block is linked, every page is out of the pool. *)
Lemma init_zone_hole base :
  zone_ok 10 (MbZone base (init_pages base) (init_areas 10)) (block 0 10) [0] ∅.
Proof.
  pose proof (init_pages_lookup base) as Hps. change MAILBOX_PAGE_MAX with (2 ^ 10) in Hps.
  pose proof (init_areas_lookup 10) as Hfa.
  generalize dependent (init_pages base). generalize dependent (init_areas 10).
  intros fa Hfa ps Hps. set (z := MbZone base ps fa).
  assert (∀ p pg, pages z !! p = Some pg →
    0 ≤ p < 2 ^ 10 ∧ pg = MbPage (base + p) (-1) 0) as Hpg.
  { intros p pg. unfold z. simpl. rewrite Hps. case_decide; naive_solver. }
  assert (∀ h k, ¬ head z h k) as Hnh.
  { intros h k (pg & [_ ->]%Hpg & Ho & ?). simpl in Ho. lia. }
  assert (∀ k, free_list z k = []) as Hfl.
  { intros k. unfold free_list, z. simpl. rewrite Hfa. by case_decide. }
  assert (∀ h k, h ∉ free_list z k) as Hnf.
  { intros h k. rewrite Hfl. apply not_elem_of_nil. }
  split.
  - lia.
  - apply block_dec.
  - intros p. unfold z. simpl. rewrite Hps.
    case_decide; split; intros Hx; try done; by destruct Hx.
  - by intros p pg [_ ->]%Hpg.
  - intros p pg [_ ->]%Hpg. simpl. lia.
  - by intros p pg _ _ [_ ->]%Hpg.
  - unfold block. lia.
  - by intros h k _ ?%Hnh.
  - by intros h k p _ ?%Hnh.
  - by intros h k p pg _ ?%Hnh.
  - by intros p pg _ [_ ->]%Hpg.
  - intros p Hp []. unfold block. lia.
  - intros k. unfold z. simpl. rewrite Hfa.
    case_decide; split; intros Hx; try done; by destruct Hx.
  - intros k. rewrite Hfl. apply NoDup_nil_2.
  - by intros h k ?%Hnf.
  - by intros h k pg ?%Hnf.
  - by intros h k pg _ ?%Hnh.
  - by intros h k ?%Hnf.
  - intros h k. rewrite lookup_empty. split; [done|]. by intros (_ & ?%Hnh & _).
Qed.

Lemma link_first_block z0 :
  zone_ok 10 z0 (block 0 10) [0] ∅ →
  ∃ z, (z1 ← set_order z0 0 10; list_add_tail z1 0 10) = Ret z ∧
    all_pages z = all_pages z0 ∧ zone_wf 10 z ∅.
Proof.
  intros W. assert (block 0 10 0) as Hin by (unfold block; lia).
  destruct (hole_page _ _ _ _ _ _ W Hin) as [pg Hpg].
  pose proof (zone_rewrite W 0 pg 10 (mp_count pg) (list_elem_of_here _ _) Hin Hpg
    ltac:(lia)) as W1.
  destruct (release_block 10 _ ∅ 0 10 _ W1 ltac:(lia) (Z.divide_0_r _)
    (lookup_insert_eq _ _ _) eq_refl) as (z & E & Ea & Wz); [by right|lia|].
  exists z. rewrite (set_order_eq _ _ _ _ Hpg). split_and!; [exact E|exact Ea|exact Wz].
Qed.

Lemma init_zone_ok base :
  ∃ z, init_zone base 10 = Ret z ∧ all_pages z = base ∧ zone_wf 10 z ∅.
Proof. apply (link_first_block _ (init_zone_hole base)). Qed.

Lemma mailbox_init_ok kz base reg g :
  0 ≤ base → mailbox_mempool_init kz base reg = Ret (g, 0) → pool g base ∅.
Proof.
  intros Hb. unfold mailbox_mempool_init.
  change (get_order MAILBOX_POOL_SIZE) with 10.
  destruct (zero_or_null_ptr kz); [done|]. destruct (base =? 0); [done|].
  destruct (nonzero (reg _)); [done|].
  destruct (init_zone_ok base) as (z & -> & Ea & W). simpl. intros [= <-].
  exists z. split_and!; done.
Qed.

End Clients.
