(* ===== verification/MailboxClaims.v ===== *)
(** * The mailbox memory pool: main theorems

    Refinement of the abstract allocator by [mailbox_alloc] and
    [mailbox_free], safety of every reachable use of the pool, full
    coalescing, double frees, and the debugfs bookkeeping.  The section
    [Interface] states what the pool promises to the other components as a
    class and discharges it. *)

From stdpp Require Import base gmap list fin_maps fin_sets.
From Stdlib Require Import ZArith Lia.
From S2P Require Import Prelude KernelApi TeeTypes Mailbox MailboxInv MailboxThm.

(** ** The interface to other components *)

(** An allocator of blocks named by their address: [ba_owns s L] says that
    exactly the addresses in [L] are handed out and not yet given back. *)
Class BlockAllocator (St : Type) := {
  ba_alloc : St → mem → Z → Z → outcome (St * mem * Z);
  ba_free : St → Z → outcome St;
  ba_owns : St → gset Z → Prop
}.

Class BlockAllocatorLaws (St : Type) (A : BlockAllocator St) := {
  ba_alloc_ok s L m size flag :
    ba_owns s L → 0 ≤ size < 2 ^ 64 →
    ∃ s' m' a, ba_alloc s m size flag = Ret (s', m', a) ∧
      ((a = 0 ∧ ba_owns s' L ∧ m' = m) ∨
       (0 < a ∧ (a ∉ L) ∧ 0 < size ∧ ba_owns s' ({[ a ]} ∪ L) ∧
       (∀ x, ¬ a ≤ x < a + align_4k size → m' !! x = m !! x) ∧
       (Z.land flag MB_FLAG_ZERO ≠ 0 →
          load_bytes m' a (Z.to_nat (align_4k size))
            = replicate (Z.to_nat (align_4k size)) 0)));
  ba_alloc_zero s L m flag :
    ba_owns s L → ba_alloc s m 0 flag = Ret (s, m, 0);
  ba_free_ok s L a :
    ba_owns s L → a ∈ L → ∃ s', ba_free s a = Ret s' ∧ ba_owns s' (L ∖ {[ a ]});
  ba_free_null s L : ba_owns s L → ba_free s 0 = Ret s
}.

Section Interface.
Context {P : PageMap} {PL : PageMapLaws P} {SC : SecureC} {SL : SecureCLaws SC}.

(** The addresses of the live blocks. *)
Definition pool_owns (g : mailbox) (L : gset Z) : Prop :=
  ∃ base U, pool g base U ∧ ∀ a, a ∈ L ↔ ∃ h, a = block_addr base h ∧ is_Some (U !! h).

#[export] Instance mailbox_allocator : BlockAllocator mailbox := {|
  ba_alloc := mailbox_alloc;
  ba_free := mailbox_free;
  ba_owns := pool_owns
|}.

Lemma block_addr_inj base h h' :
  0 ≤ base + h → 0 ≤ base + h' → block_addr base h = block_addr base h' → h = h'.
Proof.
  intros Hh Hh' E. unfold block_addr in E.
  pose proof (virt_to_page_address (base + h) 0 Hh ltac:(done)) as E1.
  pose proof (virt_to_page_address (base + h') 0 Hh' ltac:(done)) as E2.
  rewrite E, E2 in E1. lia.
Qed.

Lemma live_addr_inj g base U h h' k k' :
  pool g base U → U !! h = Some k → U !! h' = Some k' →
  block_addr base h = block_addr base h' → h = h'.
Proof.
  intros Hp Hh Hh'. pose proof (live_block_range _ _ _ _ _ Hp Hh).
  pose proof (live_block_range _ _ _ _ _ Hp Hh').
  destruct Hp as (? & _ & _ & ? & _). apply block_addr_inj; lia.
Qed.

#[export] Instance mailbox_allocator_laws : BlockAllocatorLaws mailbox mailbox_allocator.
Proof.
  split.
  - intros g L m size flag (base & U & Hp & HL) Hs.
    destruct (mailbox_alloc_cases g base U m size flag Hp Hs)
      as [(g' & m' & h & E & Ha & HU & Hp' & _ & _ & _ & _ & _ & Hz & Hf)|[E _]].
    + exists g', m', (block_addr base h). split; [done|]. right.
      assert (<[h := get_order (align_4k size)]> U !! h
        = Some (get_order (align_4k size))) as Hh by apply lookup_insert_eq.
      split_and!; [by eapply pool_addr_pos| | | |done|done].
      * intros (h' & E' & [k' Hh'])%HL.
        assert (h ≠ h') as Hne by congruence. apply Hne.
        eapply (live_addr_inj _ _ _ _ _ _ _ Hp' Hh); [|done].
        by rewrite lookup_insert_ne.
      * destruct (decide (size = 0)) as [->|]; [|lia].
        unfold mailbox_alloc in E. destruct (g_m_zone g); injection E; congruence.
      * eexists base, _. split; [exact Hp'|]. intros a. rewrite elem_of_union,
          elem_of_singleton, HL. split.
        -- intros [->|(h' & -> & Hh')]; [exists h; split; [done|by rewrite Hh]|].
           exists h'. split; [done|]. rewrite lookup_insert. by case_decide; subst; rewrite ?Hh.
        -- intros (h' & -> & Hh'). rewrite lookup_insert in Hh'.
           case_decide; [subst; by left|right; eauto].
    + eexists _, _, _. split; [done|]. left. split_and!; [done|by exists base, U|done].
  - intros g L m flag (base & U & Hp & _). unfold ba_alloc. simpl.
    unfold mailbox_alloc. by destruct (g_m_zone g).
  - intros g L a (base & U & Hp & HL) (h & -> & [k Hh])%HL.
    destruct (mailbox_free_live g base U h k 0 Hp Hh ltac:(done)) as (g' & E & Hp').
    exists g'. rewrite Z.add_0_r in E. split; [done|].
    exists base, (delete h U). split; [done|]. intros a.
    rewrite elem_of_difference, elem_of_singleton, HL. split.
    + intros [(h' & -> & Hh') Hne]. exists h'. split; [done|].
      rewrite lookup_delete_ne; [done|]. by intros ->.
    + intros (h' & -> & [k' Hh']). apply lookup_delete_Some in Hh' as [Hne Hh'].
      split; [eauto|]. intros E'. apply Hne. symmetry.
      by eapply (live_addr_inj _ _ _ _ _ _ _ Hp Hh').
  - intros g L (base & U & Hp & _). eapply mailbox_free_outside; [done|by left].
Qed.

End Interface.

(** ** Double frees *)

(** The merge loop never raises a count. *)
Definition unused (z : mb_zone_t) (p : Z) : Prop :=
  ∃ pg, pages z !! p = Some pg ∧ mp_count pg = 0.

Lemma set_order_unused z n o z' p :
  set_order z n o = Ret z' → unused z p → unused z' p.
Proof.
  unfold set_order, at_index. destruct (pages z !! n) as [q|] eqn:Hq; [|done].
  intros [= <-] (pg & Hpg & Hc). destruct (decide (n = p)) as [->|Hne].
  - eexists. split; [simpl; apply lookup_insert_eq|]. simpl. congruence.
  - exists pg. split; [|done]. simpl. by rewrite lookup_insert_ne.
Qed.

Lemma set_count0_unused z n z' p :
  set_count z n 0 = Ret z' → p = n ∨ unused z p → unused z' p.
Proof.
  unfold set_count, at_index. destruct (pages z !! n) as [q|] eqn:Hq; [|done].
  intros [= <-] Hp. destruct (decide (n = p)) as [->|Hne].
  - eexists. split; [simpl; apply lookup_insert_eq|done].
  - destruct Hp as [?|(pg & Hpg & Hc)]; [congruence|].
    exists pg. split; [|done]. simpl. by rewrite lookup_insert_ne.
Qed.

Lemma list_del_unused z n z' p : list_del z n = Ret z' → unused z p → unused z' p.
Proof. unfold list_del. destruct (linked z n); [|done]. by intros [= <-]. Qed.

Lemma list_add_unused z n k z' p : list_add_tail z n k = Ret z' → unused z p → unused z' p.
Proof.
  unfold list_add_tail, at_index. destruct (free_areas z !! k); [|done]. simpl.
  destruct (linked z n); [done|]. by intros [= <-].
Qed.

Create HintDb mbunused.
#[local] Hint Resolve set_order_unused set_count0_unused list_del_unused
  list_add_unused : mbunused.

Lemma free_loop_unused n z page i z' d p :
  free_loop n z page i = Ret (z', d) →
  unused z p ∨ (n ≠ O ∧ p = page - all_pages z) → unused z' p.
Proof.
  revert z page i. induction n as [|n IH]; intros z page i; simpl.
  { intros [= <- <-] [?|[? _]]; done. }
  intros (z1 & E1 & (b & Hb & E)%bind_Ret)%bind_Ret Hp.
  assert (unused z1 p) as Hp1 by (eapply set_count0_unused; [done|tauto]).
  destruct (_ && _).
  - apply bind_Ret in E as (z2 & E2 & E). destruct (_ <? _).
    all: apply bind_Ret in E as (z3 & E3 & (z4 & E4 & E)%bind_Ret).
    all: eapply IH; [exact E|]; left; eauto with mbunused.
  - apply bind_Ret in E as (z2 & E2 & [= <- <-]). eauto with mbunused.
Qed.

(** [mailbox_free] on a page in the pool, with the pointer arithmetic done. *)
Lemma mailbox_free_in_page `{P : PageMap, PL : !PageMapLaws P} g base U z h pg d :
  pool g base U → g_m_zone g = Some z → 0 ≤ h < MAILBOX_PAGE_MAX →
  pages z !! h = Some pg → 0 ≤ d < PAGE_SIZE →
  mailbox_free g (block_addr base h + d) =
    (if mp_count pg =? 0 then Ret g else
     let i := u32 (mp_order pg) in
     '(z', ended) ← free_loop (Z.to_nat (10 - i)) z (base + h) i;
     if (ended : bool) then Ret (set_zone g z')
     else add_max_order_block (set_zone g z') (Z.max i 10)).
Proof.
  intros Hp Ez Hr Hpg Hd. pose proof (pool_max_oder _ _ _ Hp) as EM.
  destruct Hp as (z0 & Ez0 & Eb & Hb & _).
  rewrite Ez in Ez0. injection Ez0 as <-.
  unfold mailbox_free, is_ptr_valid. rewrite Ez, Eb, EM. unfold block_addr.
  pose proof (page_address_pos (base + h) ltac:(lia)).
  destruct (Z.eqb_spec (page_address (base + h) + d) 0); [lia|].
  rewrite virt_to_page_address by done || lia.
  destruct (Z.ltb_spec (base + h) base); [lia|].
  destruct (Z.leb_spec (base + MAILBOX_PAGE_MAX) (base + h)); [lia|]. simpl.
  replace (base + h - base) with h by lia. unfold at_index. by rewrite Hpg.
Qed.

Lemma mailbox_free_unfold `{P : PageMap, PL : !PageMapLaws P} g base U z h pg :
  pool g base U → g_m_zone g = Some z → 0 ≤ h < MAILBOX_PAGE_MAX →
  pages z !! h = Some pg →
  mailbox_free g (block_addr base h) =
    (if mp_count pg =? 0 then Ret g else
     let i := u32 (mp_order pg) in
     '(z', ended) ← free_loop (Z.to_nat (10 - i)) z (base + h) i;
     if (ended : bool) then Ret (set_zone g z')
     else add_max_order_block (set_zone g z') (Z.max i 10)).
Proof.
  intros. rewrite <- (Z.add_0_r (block_addr base h)). by eapply mailbox_free_in_page.
Qed.

(** The block of the top order while it is free: freeing it again is ignored
    only as long as it has never been handed out. *)
Lemma mailbox_free_top_free `{P : PageMap, PL : !PageMapLaws P} g base U z h pg d :
  pool g base U → g_m_zone g = Some z → h ∈ free_list z 10 → pages z !! h = Some pg →
  0 ≤ d < PAGE_SIZE →
  mailbox_free g (block_addr base h + d) = if mp_count pg =? 0 then Ret g else Fault.
Proof.
  intros Hp Ez Hf Hpg Hd. pose proof Hp as (z0 & Ez0 & _ & _ & _ & W).
  rewrite Ez in Ez0. injection Ez0 as <-. rewrite (pool_max_oder _ _ _ Hp) in W.
  assert (0 ≤ h < MAILBOX_PAGE_MAX) as Hr by (apply (ok_pages W); by eexists).
  pose proof (ok_free W _ _ Hf) as [HnH Hh]. pose proof Hh as (q & Hq & Ho & _).
  rewrite Hpg in Hq. injection Hq as <-.
  assert (h = 0) as ->.
  { destruct (ok_align W _ _ HnH Hh) as [c Hc]. change MAILBOX_PAGE_MAX with 1024 in Hr.
    change (2 ^ 10) with 1024 in Hc. lia. }
  rewrite (mailbox_free_in_page g base U z 0 pg d) by done. rewrite Ho.
  destruct (_ =? 0); [done|]. unfold add_max_order_block. simpl.
  rewrite (pool_max_oder _ _ _ Hp). simpl.
  unfold list_add_tail, at_index.
  replace (linked z 0) with true by (symmetry; apply linked_spec; by exists 10).
  by destruct (free_areas z !! 10).
Qed.

Section Claims.
Context {P : PageMap} {PL : PageMapLaws P} {SC : SecureC} {SL : SecureCLaws SC}.

Lemma pool_live_page g base U z h k :
  pool g base U → g_m_zone g = Some z → U !! h = Some k →
  ∃ pg, pages z !! h = Some pg ∧ mp_order pg = k ∧ mp_count pg ≠ 0 ∧
    h ∉ free_list z k.
Proof.
  intros (z0 & Ez0 & _ & _ & _ & W) Ez Hh. rewrite Ez in Ez0. injection Ez0 as <-.
  pose proof (proj1 (ok_live W h k) Hh) as (Hn & Hd & Hnf).
  pose proof Hd as (pg & Hpg & Ho & _). exists pg. split_and!; try done.
  intros Hc. apply Hnf. by apply (ok_used_count W h k pg).
Qed.

(** A block below the top order that is freed twice is freed once: the
    second [mailbox_free] finds a zero count and changes nothing, whatever the
    first one merged the block into. *)
Theorem mailbox_double_free_ignored g base U h k :
  pool g base U → U !! h = Some k → k < 10 →
  ∃ g', mailbox_free g (block_addr base h) = Ret g' ∧
    mailbox_free g' (block_addr base h) = Ret g'.
Proof.
  intros Hp Hh Hk. pose proof (live_block_range _ _ _ _ _ Hp Hh) as (Hk0 & Hh0 & Hr & _).
  pose proof (pow2_pos k ltac:(lia)).
  destruct (mailbox_free_live g base U h k 0 Hp Hh ltac:(done)) as (g' & E & Hp').
  rewrite Z.add_0_r in E. exists g'. split; [done|].
  pose proof Hp as (z & Ez & Eb & _). pose proof Hp' as (z' & Ez' & _ & _ & _ & W').
  destruct (pool_live_page g base U z h k Hp Ez Hh) as (pg & Hpg & Ho & Hc & _).
  rewrite (mailbox_free_unfold g base U z h pg) in E by (done || lia).
  destruct (Z.eqb_spec (mp_count pg) 0); [done|].
  rewrite Ho, u32_small in E by lia.
  assert (unused z' h) as (pg' & Hpg' & Hc').
  { apply bind_Ret in E as ([z1 ended] & E1 & E).
    assert (unused z1 h) as Hu.
    { eapply free_loop_unused; [done|]. right. split; [lia|]. lia. }
    destruct ended; [injection E as <-; simpl in Ez'; by injection Ez' as <-|].
    unfold add_max_order_block in E. simpl in E. destruct (_ =? _); simpl in E.
    - apply bind_Ret in E as (z2 & E2 & [= <-]). simpl in Ez'. injection Ez' as <-.
      by eapply list_add_unused.
    - injection E as <-. simpl in Ez'. by injection Ez' as <-. }
  rewrite (mailbox_free_unfold g' base (delete h U) z' h pg') by (done || lia).
  by rewrite Hc'.
Qed.

(** The top-order block escapes that check: freeing it does not clear its
    count, so a second [mailbox_free] links a node that is already linked. *)
Theorem mailbox_double_free_top_order g base U h :
  pool g base U → U !! h = Some 10 →
  ∃ g', mailbox_free g (block_addr base h) = Ret g' ∧ pool g' base (delete h U) ∧
    mailbox_free g' (block_addr base h) = Fault.
Proof.
  intros Hp Hh. pose proof (live_block_range _ _ _ _ _ Hp Hh) as (_ & Hh0 & Hr & _).
  change MAILBOX_PAGE_MAX with 1024 in Hr. assert (h = 0) as -> by lia.
  destruct (mailbox_free_live g base U 0 10 0 Hp Hh ltac:(done)) as (g' & E & Hp').
  rewrite Z.add_0_r in E. exists g'. split_and!; [done..|].
  pose proof Hp as (z & Ez & Eb & _). pose proof (pool_max_oder _ _ _ Hp) as EM.
  destruct (pool_live_page g base U z 0 10 Hp Ez Hh) as (pg & Hpg & Ho & Hc & _).
  assert (∀ g1 z1 U1, pool g1 base U1 → g_m_zone g1 = Some z1 → pages z1 !! 0 = Some pg →
    mailbox_free g1 (block_addr base 0)
      = (z2 ← list_add_tail z1 0 10; Ret (set_zone g1 z2))) as Hstep.
  { intros g1 z1 U1 Hp1 Ez1 Hpg1.
    rewrite (mailbox_free_unfold g1 base U1 z1 0 pg) by done.
    destruct (Z.eqb_spec (mp_count pg) 0); [done|]. rewrite Ho.
    unfold add_max_order_block. simpl. by rewrite (pool_max_oder _ _ _ Hp1). }
  rewrite (Hstep g z U) in E by done. apply bind_Ret in E as (z2 & E2 & [= <-]).
  assert (pages z2 !! 0 = Some pg ∧ linked z2 0 = true) as [Hpg2 Hl].
  { unfold list_add_tail, at_index in E2.
    destruct (free_areas z !! 10) as [a|]; [|done]. simpl in E2.
    destruct (linked z 0); [done|]. injection E2 as <-. split; [done|].
    apply linked_spec. exists 10. unfold free_list. simpl.
    rewrite lookup_insert_eq. simpl. set_solver. }
  rewrite (Hstep (set_zone g z2) z2 (delete 0 U)) by done.
  unfold list_add_tail, at_index. rewrite Hl.
  by destruct (free_areas z2 !! 10).
Qed.

(** ** Every reachable use of the pool *)

(** A client's view: blocks handed out and not yet freed, with the size that
    was asked for.  The pool is set up once; then requests of any size, writes
    to memory by anybody, and frees of blocks held may follow in any order. *)
Inductive mb_reach (base : Z) : mailbox → mem → list (Z * Z) → Prop :=
| reach_init kz reg g m :
    mailbox_mempool_init kz base reg = Ret (g, 0) → mb_reach base g m []
| reach_alloc g m L size flag g' m' a :
    mb_reach base g m L → 0 ≤ size < 2 ^ 64 →
    mailbox_alloc g m size flag = Ret (g', m', a) →
    mb_reach base g' m' (if a =? 0 then L else (a, size) :: L)
| reach_write g m L m' :
    mb_reach base g m L → mb_reach base g m' L
| reach_free g m L1 L2 a size g' :
    mb_reach base g m (L1 ++ (a, size) :: L2) →
    mailbox_free g a = Ret g' →
    mb_reach base g' m (L1 ++ L2).

Definition held_in (base : Z) (U : gmap Z Z) (e : Z * Z) : Prop :=
  ∃ h k, e.1 = block_addr base h ∧ U !! h = Some k ∧ 0 < e.2 ≤ 2 ^ k * PAGE_SIZE.

Lemma mb_reach_inv base g m L :
  0 ≤ base → mb_reach base g m L →
  ∃ U, pool g base U ∧ Forall (held_in base U) L ∧ NoDup L.*1.
Proof.
  intros Hb R.
  induction R as [kz reg g m E|g m L size flag g' m' a _ (U & Hp & HF & Hnd) Hs E
    |g m L m' _ IH|g m L1 L2 a size g' _ (U & Hp & HF & Hnd) E]; [| |done|].
  - exists ∅. split_and!; [by eapply mailbox_init_ok|by apply Forall_nil|apply NoDup_nil_2].
  - destruct (mailbox_alloc_cases g base U m size flag Hp Hs)
      as [(g1 & m1 & h & E1 & Ha & HU & Hp' & Hsz & _)|[E1 _]].
    + rewrite E1 in E. injection E as <- <- <-.
      destruct (Z.eqb_spec (block_addr base h) 0); [done|].
      assert (size ≠ 0).
      { intros ->. unfold mailbox_alloc in E1. destruct (g_m_zone g); injection E1; congruence. }
      eexists. split; [done|].
      assert (Forall (held_in base (<[h := get_order (align_4k size)]> U)) L) as HF'.
      { eapply Forall_impl; [exact HF|]. intros e (h' & k' & ? & Hh' & ?).
        exists h', k'. split_and!; try done; try lia. rewrite lookup_insert_ne; [done|congruence]. }
      split.
      * apply Forall_cons. split; [|done].
        exists h, (get_order (align_4k size)). rewrite lookup_insert_eq. simpl. split_and!; try done; lia.
      * simpl. apply NoDup_cons. split; [|done]. intros (e & Ee & He)%list_elem_of_fmap.
        rewrite Forall_forall in HF. destruct (HF e He) as (h' & k' & Eh & Hh' & _).
        assert (h ≠ h') as Hne by congruence. apply Hne.
        eapply (live_addr_inj _ _ _ _ _ _ _ Hp'); [apply lookup_insert_eq| |congruence].
        by rewrite lookup_insert_ne.
    + rewrite E1 in E. injection E as <- <- <-. simpl. eauto.
  - apply Forall_app in HF as [HF1 HF2]. apply Forall_cons in HF2 as [(h & k & Ea & Hh & _) HF2].
    simpl in Ea. subst a.
    destruct (mailbox_free_live g base U h k 0 Hp Hh ltac:(done)) as (g1 & E1 & Hp').
    rewrite Z.add_0_r in E1. rewrite E1 in E. injection E as <-.
    rewrite fmap_app, fmap_cons in Hnd.
    apply NoDup_app in Hnd as (Hnd1 & Hx & [Hn Hnd2]%NoDup_cons).
    assert (∀ e, e ∈ L1 ∨ e ∈ L2 → e.1 ≠ block_addr base h) as Hne.
    { intros e [He|He] Ee.
      - apply (Hx (e.1)); [by apply list_elem_of_fmap; eauto|]. rewrite Ee. apply list_elem_of_here.
      - apply Hn. simpl. rewrite <- Ee. apply list_elem_of_fmap; eauto. }
    exists (delete h U). split; [done|]. split.
    + apply Forall_forall. intros e He%elem_of_app.
      assert (held_in base U e) as (h' & k' & Eh & Hh' & Hsz).
      { rewrite Forall_forall in HF1, HF2. destruct He; eauto. }
      exists h', k'. split_and!; try done; try lia. rewrite lookup_delete_ne; [done|].
      intros <-. by apply (Hne e He).
    + rewrite fmap_app. apply NoDup_app. split_and!; try done.
      intros x Hx1 Hx2. apply (Hx x Hx1). by apply list_elem_of_further.
Qed.

(** C6. In every state the driver can reach by setting the pool up, serving
    requests and freeing blocks it holds, no operation faults: any further
    request and any free of a block held return.  The byte ranges of distinct
    blocks held do not overlap. *)
Theorem mailbox_reachable_safe base g m L :
  0 ≤ base → mb_reach base g m L →
  (∀ m' size flag, 0 ≤ size < 2 ^ 64 → mailbox_alloc g m' size flag ≠ Fault) ∧
  (∀ a size, (a, size) ∈ L → mailbox_free g a ≠ Fault) ∧
  (∀ i j a s b t x, i ≠ j → L !! i = Some (a, s) → L !! j = Some (b, t) →
     a ≤ x < a + s → ¬ b ≤ x < b + t).
Proof.
  intros Hb R. destruct (mb_reach_inv base g m L Hb R) as (U & Hp & HF & Hnd).
  rewrite Forall_forall in HF. split_and!.
  - intros m' size flag Hs.
    destruct (mailbox_alloc_cases g base U m' size flag Hp Hs)
      as [(g' & m1 & h & -> & _)|[-> _]]; done.
  - intros a size (h & k & Ea & Hh & _)%HF. simpl in Ea. subst a.
    destruct (mailbox_free_live g base U h k 0 Hp Hh ltac:(done)) as (g' & E & _).
    rewrite Z.add_0_r in E. by rewrite E.
  - intros i j a s b t x Hij Hi Hj Hx Hy.
    pose proof (HF _ (list_elem_of_lookup_2 _ _ _ Hi)) as (h & k & Ea & Hh & Hsz).
    pose proof (HF _ (list_elem_of_lookup_2 _ _ _ Hj)) as (h' & k' & Eb & Hh' & Hsz').
    simpl in *. subst a b.
    pose proof (live_block_range _ _ _ _ _ Hp Hh) as (_ & ? & _).
    pose proof (live_block_range _ _ _ _ _ Hp Hh') as (_ & ? & _).
    unfold block_addr in Hx, Hy. rewrite page_address_linear in Hx, Hy by lia.
    set (A := page_address base) in *. set (p := (x - A) / PAGE_SIZE).
    assert (PAGE_SIZE * p ≤ x - A < PAGE_SIZE * p + PAGE_SIZE) as Hpx.
    { unfold p. pose proof (Z.div_mod (x - A) PAGE_SIZE ltac:(done)).
      pose proof (Z.mod_pos_bound (x - A) PAGE_SIZE ltac:(done)). lia. }
    assert (h = h') as <-.
    { apply (live_blocks_apart _ _ _ h k h' k' p Hp Hh Hh'); unfold block;
        unfold PAGE_SIZE, PAGE_SHIFT in *; split; nia. }
    apply Hij. eapply (NoDup_lookup L.*1 i j (block_addr base h)); [done|..];
      rewrite list_lookup_fmap, ?Hi, ?Hj; done.
Qed.

(** ** Refinement of the abstract allocator *)

(** C4. Allocation refines the abstract allocator.  For every request of a
    64-bit size, [mailbox_alloc] returns without fault.  Either it returns the
    address of a fresh block of the least order that holds the request: the
    block was not live, becomes live, lies in the pool, is aligned to its size
    and overlaps no other live block; with [MB_FLAG_ZERO] its bytes up to the
    4K-aligned size are zero, and no byte outside them changes.  Or it returns
    NULL and changes nothing, and then the request was empty, larger than the
    pool, or no free block of its order or above exists. *)
Theorem mailbox_alloc_refines g base U m size flag :
  pool g base U → 0 ≤ size < 2 ^ 64 →
  let ord := get_order (align_4k size) in
  (∃ g' m' h,
     mailbox_alloc g m size flag = Ret (g', m', block_addr base h) ∧
     block_addr base h ≠ 0 ∧ U !! h = None ∧ pool g' base (<[h := ord]> U) ∧
     size ≤ 2 ^ ord * PAGE_SIZE ∧ (0 < ord → 2 ^ (ord - 1) * PAGE_SIZE < size) ∧
     0 ≤ h ∧ h + 2 ^ ord ≤ MAILBOX_PAGE_MAX ∧ (2 ^ ord | h) ∧
     (∀ h' k p, U !! h' = Some k → block h ord p → ¬ block h' k p) ∧
     (Z.land flag MB_FLAG_ZERO ≠ 0 →
        load_bytes m' (block_addr base h) (Z.to_nat (align_4k size))
          = replicate (Z.to_nat (align_4k size)) 0) ∧
     (∀ a, ¬ block_addr base h ≤ a < block_addr base h + align_4k size →
        m' !! a = m !! a)) ∨
  (mailbox_alloc g m size flag = Ret (g, m, 0) ∧
     (size = 0 ∨ 10 < ord ∨ ¬ has_free_block g ord)).
Proof.
  intros Hp Hs ord. destruct (mailbox_alloc_cases g base U m size flag Hp Hs)
    as [(g' & m' & h & E & Ha & HU & Hp' & Hsz & H0 & Hr & Hd & Hdis & Hz & Hf)|HN];
    [left|by right].
  exists g', m', h. split_and!; try done.
  intros Hord. destruct (decide (size ≤ 2 ^ 64 - SZ_4K)) as [Hle|Hgt].
  - destruct (decide (size = 0)) as [->|].
    { change (get_order (align_4k 0)) with 52 in Hr. change MAILBOX_PAGE_MAX with 1024 in Hr. lia. }
    by destruct (alloc_order_spec size ltac:(lia)) as (_ & _ & HL); apply HL.
  - pose proof (alloc_order_wrap size ltac:(lia)) as Hw. unfold ord in *.
    rewrite Hw in Hr. change MAILBOX_PAGE_MAX with 1024 in Hr. lia.
Qed.


(** No page is ever lost: each page of the pool lies in exactly one block,
    which is either live or linked on the free list of its order, and never
    both. *)
Theorem mailbox_pages_partition g base U z p :
  pool g base U → g_m_zone g = Some z → 0 ≤ p < MAILBOX_PAGE_MAX →
  ∃ h k, block h k p ∧
    (U !! h = Some k ∧ h ∉ free_list z k ∨ h ∈ free_list z k ∧ U !! h = None) ∧
    (∀ h' k', block h' k' p → U !! h' = Some k' ∨ h' ∈ free_list z k' → h' = h ∧ k' = k).
Proof.
  intros (z0 & Ez0 & _ & _ & EM & W) Ez Hpr. rewrite Ez in Ez0. injection Ez0 as <-.
  destruct (ok_cover W p ltac:(lia) (not_no_pages p)) as (h & k & _ & Hd & Hb).
  exists h, k. split_and!; [done| |].
  - destruct (decide (h ∈ free_list z k)) as [Hf|Hf].
    + right. split; [done|]. apply eq_None_not_Some. intros [j (_ & Hj & Hnf)%(ok_live W)].
      by rewrite (head_order _ _ _ _ Hj Hd) in Hnf.
    + left. split; [|done]. by apply (ok_live W).
  - intros h' k' Hb' Hlf.
    assert (head z h' k') as Hd'.
    { destruct Hlf as [(_ & ? & _)%(ok_live W)|[_ ?]%(ok_free W)]; done. }
    assert (h' = h) as -> by (by apply (heads_apart W h' k' h k p)).
    split; [done|]. by eapply head_order.
Qed.

(** An idle pool is whole: once every block has been freed, the free
    blocks have merged back into the single block of the top order, and a
    request of up to 4 MiB succeeds. *)
Theorem mailbox_idle_whole g base m size flag :
  pool g base ∅ → 0 < size ≤ MAILBOX_POOL_SIZE →
  (∃ z, g_m_zone g = Some z ∧ free_list z 10 = [0] ∧ ∀ k, k ≠ 10 → free_list z k = []) ∧
  (∃ g' m' a, mailbox_alloc g m size flag = Ret (g', m', a) ∧ a ≠ 0).
Proof.
  intros Hp Hs. pose proof Hp as (z & Ez & _ & _ & _ & W).
  rewrite (pool_max_oder _ _ _ Hp) in W. destruct (idle_free_lists 10 z W) as [Htop Hrest].
  split; [by exists z|]. unfold MAILBOX_POOL_SIZE, SZ_4M in Hs.
  destruct (alloc_order_spec size ltac:(unfold SZ_4K; lia)) as (Ho & _ & Hl).
  assert (get_order (align_4k size) ≤ 10) as Hfit.
  { apply Z.le_ngt. intros Hgt. specialize (Hl ltac:(lia)).
    pose proof (pow2_le 10 (get_order (align_4k size) - 1) ltac:(lia)).
    unfold PAGE_SIZE, PAGE_SHIFT in Hl. lia. }
  destruct (mailbox_alloc_cases g base ∅ m size flag Hp ltac:(lia))
    as [(g' & m' & h & E & Ha & _)|[_ [?|[?|Hnone]]]]; [by eauto|lia|lia|].
  destruct Hnone. exists z, 10, 0. split_and!; [done|lia|]. rewrite Htop. set_solver.
Qed.

#[local] Opaque init_zone init_pages init_areas.

(** Set-up: [mailbox_mempool_init] returns [-ENOMEM] or [-EIO] with no pool
    when an allocation or the registration with the TEE fails, and otherwise
    0 with a well-formed pool in which nothing is live.  It never faults. *)
Theorem mailbox_init_correct kz base reg :
  0 ≤ base →
  ∃ g ret, mailbox_mempool_init kz base reg = Ret (g, ret) ∧
    (kz ≤ 16 ∨ base = 0 → ret = - ENOMEM ∧ g_m_zone g = None) ∧
    (16 < kz → base ≠ 0 → reg (page_address base) ≠ 0 → ret = - EIO ∧ g_m_zone g = None) ∧
    (16 < kz → base ≠ 0 → reg (page_address base) = 0 → ret = 0 ∧ pool g base ∅).
Proof.
  intros Hb. destruct (mailbox_mempool_init kz base reg) as [[g ret]|] eqn:E.
  - exists g, ret. split; [done|].
    assert (ret = 0 → pool g base ∅) as Hok
      by (intros ->; by eapply mailbox_init_ok).
    revert E. unfold mailbox_mempool_init, zero_or_null_ptr, nonzero.
    change (get_order MAILBOX_POOL_SIZE) with 10.
    destruct (Z.leb_spec kz 16); [intros [= <- <-]; split_and!; intros; first [done|exfalso; lia]|].
    destruct (Z.eqb_spec base 0); [intros [= <- <-]; split_and!; intros; first [done|exfalso; lia]|].
    destruct (Z.eqb_spec (reg (page_address base)) 0) as [Hr|Hr]; simpl.
    + intros (z & _ & [= <- <-])%bind_Ret. split_and!; intros; [exfalso; lia|done|by auto].
    + intros [= <- <-]. split_and!; intros; first [done|exfalso; lia].
  - exfalso. revert E. unfold mailbox_mempool_init.
    change (get_order MAILBOX_POOL_SIZE) with 10.
    destruct (zero_or_null_ptr kz); [done|]. destruct (base =? 0); [done|].
    destruct (nonzero (reg _)); [done|].
    destruct (init_zone_ok base) as (z & -> & _). done.
Qed.

(** A copy into the mailbox holds the source's bytes.  When
    [mailbox_copy_alloc] returns a pointer, the first [size] bytes there equal
    the [size] bytes at [src], provided the source does not overlap the block;
    when it returns NULL the pool is unchanged. *)
Theorem mailbox_copy_alloc_correct g base U m src size :
  pool g base U → 0 < src → 0 < size < 2 ^ 64 →
  src + size ≤ page_address base ∨ page_address base + MAILBOX_POOL_SIZE ≤ src →
  (∃ g' m' h, mailbox_copy_alloc g m src size = Ret (g', m', block_addr base h) ∧
     U !! h = None ∧ pool g' base (<[h := get_order (align_4k size)]> U) ∧
     load_bytes m' (block_addr base h) (Z.to_nat size) = load_bytes m src (Z.to_nat size)) ∨
  mailbox_copy_alloc g m src size = Ret (g, m, 0).
Proof.
  intros Hp Hsrc Hs Hd. unfold mailbox_copy_alloc.
  destruct (Z.eqb_spec src 0); [lia|]. destruct (Z.eqb_spec size 0); [lia|]. simpl.
  destruct (mailbox_alloc_cases g base U m size 0 Hp ltac:(lia))
    as [(g' & m' & h & E & Ha & HU & Hp' & Hsz & H0 & Hr & _ & _ & _ & Hf)|[E _]];
    rewrite E; simpl; [left|by right].
  destruct (Z.eqb_spec (block_addr base h) 0); [done|].
  assert (m' = m) as ->.
  { unfold mailbox_alloc in E. destruct (g_m_zone g); [|by injection E].
    destruct (size =? 0); [by injection E|]. destruct (_ || _); [by injection E|].
    apply bind_Ret in E as ([g1 a1] & _ & E).
    change (Z.land 0 MB_FLAG_ZERO) with 0 in E. rewrite andb_false_r in E. by injection E. }
  assert (<[h := get_order (align_4k size)]> U !! h
    = Some (get_order (align_4k size))) as Hh by apply lookup_insert_eq.
  pose proof (live_block_range _ _ _ _ _ Hp' Hh) as (Hk & _ & _ & _).
  pose proof (pool_addr_pos _ _ _ _ _ Hp' Hh).
  destruct (order_fits size ltac:(lia) ltac:(lia)) as (_ & _ & Hmax).
  pose proof Hp as (_ & _ & _ & Hb & _).
  assert (block_addr base h = page_address base + h * PAGE_SIZE) as Eaddr
    by (apply page_address_linear; lia).
  assert (2 ^ get_order (align_4k size) ≤ 1024 - h) by (change MAILBOX_PAGE_MAX with 1024 in Hr; lia).
  unfold MAILBOX_POOL_SIZE, SZ_4M, PAGE_SIZE, PAGE_SHIFT, SECUREC_MEM_MAX_LEN in *.
  rewrite memcpy_s_ok; [| | |unfold SECUREC_MEM_MAX_LEN| |]; [|lia..].
  simpl. eexists g', _, h. split; [done|]. split_and!; [done..|].
  pose proof (load_store_bytes m (block_addr base h) (load_bytes m src (Z.to_nat size))) as Els.
  by rewrite load_bytes_length in Els.
Qed.

(** After a debugfs "reset" the next "alloc" leaves a dangling entry: the
    entry counter restarts at 0, the new entry gets index 0, the caller takes
    that for a failure and frees the block, and the entry stays listed with
    the freed pointer. *)
Theorem mb_dbg_reset_dangling g base U m d size :
  pool g base U → 0 < size < 2 ^ 64 → has_free_block g (get_order (align_4k size)) →
  get_order (align_4k size) ≤ 10 →
  ∃ g' h, alloc_dbg_entry true g m (MbDbg [] 0 (g_mb_dbg_last_res d)) size
      = Ret (g', m, MbDbg [MbDbgEntry 0 (block_addr base h)] 2 0) ∧
    pool g' base U ∧ U !! h = None ∧ block_addr base h ≠ 0.
Proof.
  intros Hp Hs Hfree Hfit. unfold alloc_dbg_entry.
  destruct (mailbox_alloc_cases g base U m size 0 Hp ltac:(lia))
    as [(g' & m' & h & E & Ha & HU & Hp' & _)|[_ [?|[?|?]]]]; [|lia|lia|done].
  rewrite E. simpl. destruct (Z.eqb_spec (block_addr base h) 0); [done|].
  assert (<[h := get_order (align_4k size)]> U !! h
    = Some (get_order (align_4k size))) as Hh by apply lookup_insert_eq.
  destruct (mailbox_free_live g' base _ h _ 0 Hp' Hh ltac:(done)) as (g2 & E2 & Hp2).
  rewrite Z.add_0_r in E2. rewrite delete_insert_id in Hp2 by done.
  assert (m' = m) as ->.
  { unfold mailbox_alloc in E. destruct (g_m_zone g); [|by injection E].
    destruct (size =? 0); [by injection E|]. destruct (_ || _); [by injection E|].
    apply bind_Ret in E as ([g1 a1] & _ & E).
    change (Z.land 0 MB_FLAG_ZERO) with 0 in E. rewrite andb_false_r in E. by injection E. }
  simpl. rewrite E2. simpl. exists g2, h. split_and!; done.
Qed.

End Claims.

(** ** Witnesses

    A concrete pool over the frames from 5 on, and the pool after one request
    of 5000 bytes or of the whole 4 MiB. *)

Definition demo_state {A} (d : A) (o : outcome A) : A :=
  match o with Ret a => a | Fault => d end.

Definition demo_pool : mailbox :=
  (demo_state (Mailbox None 0, 1)
    (mailbox_mempool_init (P := linear_map) 4096 5 (λ _, 0))).1.

Lemma demo_init : mailbox_mempool_init (P := linear_map) 4096 5 (λ _, 0) = Ret (demo_pool, 0).
Proof. vm_compute. reflexivity. Qed.

Lemma demo_pool_ok : pool demo_pool 5 ∅.
Proof. exact (mailbox_init_ok (P := linear_map) (SC := boundscheck) 4096 5 _ demo_pool ltac:(lia) demo_init). Qed.

(** The pool after a request, and the address returned. *)
Definition demo_alloc (size flag : Z) : mailbox * mem * Z :=
  demo_state (demo_pool, ∅, 0)
    (mailbox_alloc (P := linear_map) (S := boundscheck) demo_pool ∅ size flag).

Definition demo_addr : Z := block_addr (P := linear_map) 5 0.

Lemma demo_alloc_ok size flag :
  0 ≤ size < 2 ^ 64 → (demo_alloc size flag).2 = demo_addr →
  pool (demo_alloc size flag).1.1 5 {[ 0 := get_order (align_4k size) ]}.
Proof.
  intros Hs Ha. unfold demo_alloc in *.
  destruct (mailbox_alloc_cases (P := linear_map) (SC := boundscheck)
    demo_pool 5 ∅ ∅ size flag demo_pool_ok Hs)
    as [(g' & m' & h & E & _ & _ & Hp' & _ & Hh & _)|[E _]]; rewrite E in *.
  - cbn [demo_state fst snd] in *.
    apply (block_addr_inj (P := linear_map)) in Ha as ->; [by rewrite <- insert_empty|lia..].
  - exfalso. clear - Ha. vm_compute in Ha. discriminate Ha.
Qed.

Definition demo_small : mailbox := (demo_alloc 5000 0).1.1.
Definition demo_top : mailbox := (demo_alloc 4194304 0).1.1.

Lemma demo_small_ok : pool demo_small 5 {[ 0 := 1 ]}.
Proof. apply (demo_alloc_ok 5000 0); [lia|by vm_compute]. Qed.

Lemma demo_top_ok : pool demo_top 5 {[ 0 := 10 ]}.
Proof. apply (demo_alloc_ok 4194304 0); [lia|by vm_compute]. Qed.

Definition result_addr (o : outcome (mailbox * mem * Z)) : Z :=
  match o with Ret r => r.2 | Fault => 0 end.

Lemma mailbox_alloc_refines_witness :
  ∃ g' m' h,
    mailbox_alloc (P := linear_map) (S := boundscheck) demo_pool ∅ 5000 1
      = Ret (g', m', block_addr (P := linear_map) 5 h) ∧
    pool g' 5 (<[ h := 1 ]> ∅) ∧
    load_bytes m' (block_addr (P := linear_map) 5 h) (Z.to_nat 8192)
      = replicate (Z.to_nat 8192) 0.
Proof.
  destruct (mailbox_alloc_refines (P := linear_map) (SC := boundscheck)
    demo_pool 5 ∅ ∅ 5000 1 demo_pool_ok ltac:(lia))
    as [(g' & m' & h & E & _ & _ & Hp & _ & _ & _ & _ & _ & _ & Hz & _)|[E _]].
  - exists g', m', h. split; [exact E|]. split; [exact Hp|]. apply Hz. done.
  - apply (f_equal result_addr) in E. vm_compute in E. discriminate.
Defined.


Lemma mailbox_double_free_ignored_witness :
  ∃ g', mailbox_free (P := linear_map) demo_small demo_addr = Ret g' ∧
    mailbox_free (P := linear_map) g' demo_addr = Ret g'.
Proof.
  apply (mailbox_double_free_ignored (P := linear_map)
    demo_small 5 _ 0 1 demo_small_ok); [reflexivity|lia].
Defined.

Lemma mailbox_double_free_top_order_witness :
  ∃ g', mailbox_free (P := linear_map) demo_top demo_addr = Ret g' ∧
    pool g' 5 (delete 0 {[ 0 := 10 ]}) ∧
    mailbox_free (P := linear_map) g' demo_addr = Fault.
Proof.
  apply (mailbox_double_free_top_order (P := linear_map) (SC := boundscheck)
    demo_top 5 _ 0 demo_top_ok). reflexivity.
Defined.

Lemma mailbox_reachable_safe_witness :
  mailbox_free (P := linear_map) demo_small demo_addr ≠ Fault.
Proof.
  assert (mb_reach (P := linear_map) (SC := boundscheck) 5 demo_small ∅ [(demo_addr, 5000)])
    as R.
  { change [(demo_addr, 5000)] with
      (if demo_addr =? 0 then [] else [(demo_addr, 5000)]).
    eapply (reach_alloc 5 demo_pool ∅ [] 5000 0); [|lia|by vm_compute].
    by eapply reach_init, demo_init. }
  apply (proj1 (proj2 (mailbox_reachable_safe (P := linear_map) (SC := boundscheck)
    5 demo_small ∅ _ ltac:(lia) R)) demo_addr 5000). by left.
Defined.

Lemma mailbox_pages_partition_witness :
  ∃ z h k, g_m_zone demo_small = Some z ∧ block h k 1 ∧
    (({[ 0 := 1 ]} : gmap Z Z) !! h = Some k ∧ h ∉ free_list z k ∨
     h ∈ free_list z k ∧ ({[ 0 := 1 ]} : gmap Z Z) !! h = None).
Proof.
  destruct (g_m_zone demo_small) as [z|] eqn:Ez; [|vm_compute in Ez; discriminate Ez].
  destruct (mailbox_pages_partition demo_small 5 _ z 1 demo_small_ok Ez)
    as (h & k & Hb & Hlf & _); [by split|].
  exists z, h, k. split; [reflexivity|]. split; [exact Hb|exact Hlf].
Defined.

Lemma mailbox_idle_whole_witness :
  ∃ g' m' a, mailbox_alloc (P := linear_map) (S := boundscheck) demo_pool ∅ 4194304 0
    = Ret (g', m', a) ∧ a ≠ 0.
Proof.
  apply (mailbox_idle_whole (P := linear_map) (SC := boundscheck)
    demo_pool 5 ∅ 4194304 0 demo_pool_ok). by split.
Defined.

Lemma mailbox_init_correct_witness :
  ∃ g ret, mailbox_mempool_init (P := linear_map) 4096 5 (λ _, 0) = Ret (g, ret) ∧
    ret = 0 ∧ pool g 5 ∅.
Proof.
  destruct (mailbox_init_correct (P := linear_map) (SC := boundscheck) 4096 5 (λ _, 0))
    as (g & ret & E & _ & _ & H); [lia|].
  exists g, ret. split; [exact E|]. by apply H.
Defined.

Lemma mailbox_copy_alloc_correct_witness :
  ∃ g' m' h,
    mailbox_copy_alloc (P := linear_map) (S := boundscheck) demo_pool
      (<[ 100 := 42 ]> ∅) 100 3 = Ret (g', m', block_addr (P := linear_map) 5 h) ∧
    load_bytes m' (block_addr (P := linear_map) 5 h) 3 = [42; 0; 0].
Proof.
  destruct (mailbox_copy_alloc_correct (P := linear_map) (SC := boundscheck)
    demo_pool 5 ∅ (<[ 100 := 42 ]> ∅) 100 3 demo_pool_ok)
    as [(g' & m' & h & E & _ & _ & Hl)|E]; [lia|lia|by left|..].
  - exists g', m', h. split; [exact E|]. change 3%nat with (Z.to_nat 3). rewrite Hl. vm_compute. reflexivity.
  - apply (f_equal result_addr) in E. vm_compute in E. discriminate.
Defined.

Lemma mb_dbg_reset_dangling_witness :
  ∃ g' h, alloc_dbg_entry (P := linear_map) (S := boundscheck) true demo_pool ∅
      (MbDbg [] 0 0) 5000
      = Ret (g', ∅, MbDbg [MbDbgEntry 0 (block_addr (P := linear_map) 5 h)] 2 0) ∧
    pool g' 5 ∅.
Proof.
  destruct (mb_dbg_reset_dangling (P := linear_map) (SC := boundscheck)
    demo_pool 5 ∅ ∅ (MbDbg [] 0 0) 5000 demo_pool_ok) as (g' & h & E & Hp & _);
    [lia| |done|].
  - destruct (g_m_zone demo_pool) as [z|] eqn:Ez; [|vm_compute in Ez; discriminate Ez].
    exists z, 10, 0. split; [exact Ez|]. split; [by vm_compute|].
    assert (bool_decide (0 ∈ match g_m_zone demo_pool with
      | Some z => free_list z 10 | None => [] end) = true) as Hb by (by vm_compute).
    rewrite Ez in Hb. by apply bool_decide_eq_true in Hb.
  - exists g', h. split; [exact E|exact Hp].
Defined.
