(* ===== verification/Buffers.v ===== *)
(** * Byte buffers and client memory

    Fixed-size byte buffers as lists (stack and struct arrays of the C code),
    the bounds-checked functions of libboundscheck on them, and the functions
    the driver uses to reach its client's memory.  As in [KernelApi], what is
    not the driver's own code is a class of operations with laws and one
    concrete instance. *)

From stdpp Require Import base gmap list.
From Stdlib Require Import ZArith Lia.
From S2P Require Import Prelude KernelApi.

(** ** Sub-buffers *)

Definition sub_buf (l : list Z) (off n : Z) : list Z :=
  take (Z.to_nat n) (drop (Z.to_nat off) l).

Definition splice (l : list Z) (off : Z) (s : list Z) : list Z :=
  take (Z.to_nat off) l ++ s ++ drop (Z.to_nat off + length s) l.

Definition zlen (l : list Z) : Z := Z.of_nat (length l).

Lemma splice_length l off s :
  0 ≤ off → off + zlen s ≤ zlen l → length (splice l off s) = length l.
Proof.
  unfold splice, zlen. intros. rewrite !length_app, length_take, length_drop. lia.
Qed.

Lemma sub_buf_length l off n :
  0 ≤ off → 0 ≤ n → off + n ≤ zlen l → length (sub_buf l off n) = Z.to_nat n.
Proof. unfold sub_buf, zlen. intros. rewrite length_take, length_drop. lia. Qed.

Lemma sub_buf_splice_same l off s :
  0 ≤ off → off + zlen s ≤ zlen l → sub_buf (splice l off s) off (zlen s) = s.
Proof.
  unfold sub_buf, splice, zlen. intros.
  rewrite drop_app_length' by (rewrite length_take; lia).
  rewrite take_app_length' by lia. done.
Qed.

Lemma splice_lookup l off s i :
  0 ≤ off → off + zlen s ≤ zlen l →
  splice l off s !! i =
    if decide (off ≤ Z.of_nat i < off + zlen s)
    then s !! (i - Z.to_nat off)%nat else l !! i.
Proof.
  unfold splice, zlen. intros Ho Hs. case_decide as Hi.
  - rewrite lookup_app_r by (rewrite length_take; lia).
    rewrite lookup_app_l by (rewrite length_take; lia).
    f_equal. rewrite length_take. lia.
  - destruct (decide (Z.of_nat i < off)).
    + rewrite lookup_app_l by (rewrite length_take; lia).
      rewrite lookup_take. rewrite decide_True by lia. done.
    + rewrite lookup_app_r by (rewrite length_take; lia).
      rewrite lookup_app_r by (rewrite length_take; lia).
      rewrite lookup_drop. f_equal. rewrite length_take. lia.
Qed.

Lemma sub_buf_lookup l off n i :
  0 ≤ off → (i < Z.to_nat n)%nat → sub_buf l off n !! i = l !! (Z.to_nat off + i)%nat.
Proof.
  unfold sub_buf. intros. rewrite lookup_take, decide_True by done.
  by rewrite lookup_drop.
Qed.

(** Reading a range a splice does not touch. *)
Lemma sub_buf_splice_other l off s o n :
  0 ≤ off → off + zlen s ≤ zlen l → 0 ≤ o →
  o + n ≤ off ∨ off + zlen s ≤ o →
  sub_buf (splice l off s) o n = sub_buf l o n.
Proof.
  intros Ho Hs Ho' Hd. apply list_eq. intros i.
  destruct (decide (i < Z.to_nat n)%nat) as [Hi|Hi].
  - rewrite !sub_buf_lookup, splice_lookup by (done || lia).
    rewrite decide_False by lia. done.
  - rewrite !lookup_ge_None_2; [done|unfold sub_buf..]; rewrite length_take; lia.
Qed.

Lemma splice_sub_buf l off n :
  0 ≤ off → 0 ≤ n → off + n ≤ zlen l → splice l off (sub_buf l off n) = l.
Proof.
  intros Ho Hn Hl. apply list_eq. intros i.
  assert (zlen (sub_buf l off n) = n) as E by (unfold zlen; rewrite sub_buf_length; lia).
  rewrite splice_lookup by lia. rewrite E. case_decide; [|done].
  rewrite sub_buf_lookup by lia. f_equal. lia.
Qed.

Lemma splice_splice l off s t :
  0 ≤ off → off + zlen s ≤ zlen l → zlen s = zlen t →
  splice (splice l off s) off t = splice l off t.
Proof.
  intros Ho Hs E. apply list_eq. intros i.
  assert (zlen (splice l off s) = zlen l) by (unfold zlen; rewrite splice_length; lia).
  rewrite (splice_lookup (splice l off s)), !splice_lookup by lia.
  rewrite E. by repeat case_decide.
Qed.

(** Writes to disjoint ranges commute. *)
Lemma splice_comm l o s o' s' :
  0 ≤ o → o + zlen s ≤ o' → o' + zlen s' ≤ zlen l →
  splice (splice l o' s') o s = splice (splice l o s) o' s'.
Proof.
  intros Ho Hd Hl. apply list_eq. intros i.
  assert (0 ≤ zlen s ∧ 0 ≤ zlen s') as [? ?] by (unfold zlen; lia).
  assert (zlen (splice l o s) = zlen l) by (unfold zlen; rewrite splice_length; lia).
  assert (zlen (splice l o' s') = zlen l) by (unfold zlen; rewrite splice_length; lia).
  rewrite !splice_lookup by lia. repeat case_decide; try done; lia.
Qed.

(** ** libboundscheck on buffers

    [buf_copy dst off destMax src soff count] models [memcpy_s] and
    [memmove_s] into [dst + off]; [buf_set dst off destMax c count] models
    [memset_s]. *)

Class SecureBuf := {
  buf_copy : list Z → Z → Z → list Z → Z → Z → Z * list Z;
  buf_set : list Z → Z → Z → Z → Z → Z * list Z
}.

Class SecureBufLaws (B : SecureBuf) := {
  buf_copy_ok dst off destMax src soff count :
    0 < destMax ≤ SECUREC_MEM_MAX_LEN → 0 ≤ count ≤ destMax →
    buf_copy dst off destMax src soff count
      = (EOK, splice dst off (sub_buf src soff count));
  buf_set_ok dst off destMax c count :
    0 < destMax ≤ SECUREC_MEM_MAX_LEN → 0 ≤ count ≤ destMax →
    buf_set dst off destMax c count
      = (EOK, splice dst off (replicate (Z.to_nat count) (u8 c)))
}.

Definition bounds_buf : SecureBuf := {|
  buf_copy dst off destMax src soff count :=
    if bounds_check destMax count
    then (EOK, splice dst off (sub_buf src soff count)) else (EINVAL, dst);
  buf_set dst off destMax c count :=
    if bounds_check destMax count
    then (EOK, splice dst off (replicate (Z.to_nat count) (u8 c))) else (EINVAL, dst)
|}.

#[export] Instance bounds_buf_laws : SecureBufLaws bounds_buf.
Proof.
  assert (∀ d c, 0 < d ≤ SECUREC_MEM_MAX_LEN → 0 ≤ c ≤ d →
    bounds_check d c = true) as Hb by (intros; unfold bounds_check; lia).
  split; simpl; intros; by rewrite Hb.
Qed.

(** ** Client memory

    [copy_from_user m src n] and [copy_to_user m dst bytes] return the number
    of bytes not copied; [memcpy_in] and [memcpy_out] model [memcpy_s] between
    a local object of the driver and a kernel client's memory. *)

Class ClientMem := {
  copy_from_user : mem → Z → Z → Z * list Z;
  copy_to_user : mem → Z → list Z → Z * mem;
  memcpy_in : mem → Z → Z → Z → Z * list Z;
  memcpy_out : mem → Z → Z → list Z → Z * mem
}.

Class ClientMemLaws (C : ClientMem) := {
  copy_from_user_ok m src n l :
    0 ≤ n → copy_from_user m src n = (0, l) → l = load_bytes m src (Z.to_nat n);
  copy_to_user_ok m dst bytes m' :
    copy_to_user m dst bytes = (0, m') → m' = store_bytes m dst bytes;
  memcpy_in_ok m destMax src n :
    src ≠ 0 → 0 < destMax ≤ SECUREC_MEM_MAX_LEN → 0 ≤ n ≤ destMax →
    memcpy_in m destMax src n = (EOK, load_bytes m src (Z.to_nat n));
  memcpy_in_eok m destMax src n l :
    0 ≤ n → memcpy_in m destMax src n = (EOK, l) → l = load_bytes m src (Z.to_nat n);
  memcpy_out_ok m dst destMax bytes :
    dst ≠ 0 → 0 < destMax ≤ SECUREC_MEM_MAX_LEN → zlen bytes ≤ destMax →
    memcpy_out m dst destMax bytes = (EOK, store_bytes m dst bytes);
  memcpy_out_eok m dst destMax bytes m' :
    memcpy_out m dst destMax bytes = (EOK, m') → m' = store_bytes m dst bytes;
  copy_to_user_frame m dst bytes x :
    ¬ dst ≤ x < dst + zlen bytes → (copy_to_user m dst bytes).2 !! x = m !! x;
  memcpy_out_frame m dst destMax bytes x :
    ¬ dst ≤ x < dst + destMax → (memcpy_out m dst destMax bytes).2 !! x = m !! x
}.

(** A client address space that is mapped from address 1 on. *)
Definition flat_client : ClientMem := {|
  copy_from_user m src n := (0, load_bytes m src (Z.to_nat n));
  copy_to_user m dst bytes := (0, store_bytes m dst bytes);
  memcpy_in m destMax src n :=
    if bounds_check destMax n && nonzero src
    then (EOK, load_bytes m src (Z.to_nat n)) else (EINVAL, []);
  memcpy_out m dst destMax bytes :=
    if bounds_check destMax (zlen bytes) && nonzero dst
    then (EOK, store_bytes m dst bytes) else (EINVAL, m)
|}.

#[export] Instance flat_client_laws : ClientMemLaws flat_client.
Proof.
  assert (∀ d c, 0 < d ≤ SECUREC_MEM_MAX_LEN → 0 ≤ c ≤ d →
    bounds_check d c = true) as Hb by (intros; unfold bounds_check; lia).
  assert (∀ d, d ≠ 0 → nonzero d = true) as Hnz.
  { intros d Hd. unfold nonzero. by destruct (Z.eqb_spec d 0). }
  split; simpl; intros; try congruence.
  - by rewrite Hb, Hnz.
  - destruct (_ && _); [congruence|done].
  - rewrite Hb, Hnz; try done. unfold zlen in *. lia.
  - destruct (_ && _); [congruence|done].
  - apply store_bytes_lookup_outside. unfold zlen in *. lia.
  - unfold bounds_check, zlen in *.
    destruct (Z.leb_spec (Z.of_nat (length bytes)) destMax); rewrite ?andb_false_r; [|done].
    destruct (_ && nonzero dst); [|done]. apply store_bytes_lookup_outside. lia.
Qed.

(** ** Little-endian integers *)

Fixpoint le_bytes (n : nat) (x : Z) : list Z :=
  match n with O => [] | S n => x mod 256 :: le_bytes n (x / 256) end.

Fixpoint le_value (l : list Z) : Z :=
  match l with [] => 0 | b :: l => b + 256 * le_value l end.

Definition is_byte (b : Z) : Prop := 0 ≤ b < 256.

Lemma le_bytes_length n x : length (le_bytes n x) = n.
Proof. revert x. induction n; intros; simpl; [done|]. by rewrite IHn. Qed.

Lemma le_bytes_are_bytes n x : Forall is_byte (le_bytes n x).
Proof.
  revert x. induction n; intros x; simpl; constructor; [|done].
  unfold is_byte. apply Z.mod_pos_bound. lia.
Qed.

Lemma le_value_range l : Forall is_byte l → 0 ≤ le_value l < 256 ^ Z.of_nat (length l).
Proof.
  induction 1 as [|b l Hb _ IH]; [done|]. unfold is_byte in Hb.
  cbn [length le_value]. rewrite Nat2Z.inj_succ, Z.pow_succ_r by lia. lia.
Qed.

Lemma le_value_bytes n x : 0 ≤ x < 256 ^ Z.of_nat n → le_value (le_bytes n x) = x.
Proof.
  revert x. induction n as [|n IH]; intros x Hx.
  - simpl in *. lia.
  - rewrite Nat2Z.inj_succ, Z.pow_succ_r in Hx by lia. simpl.
    rewrite IH.
    + pose proof (Z.div_mod x 256 ltac:(lia)). lia.
    + split; [apply Z.div_pos; lia|]. apply Z.div_lt_upper_bound; lia.
Qed.

Lemma le_bytes_value l : Forall is_byte l → le_bytes (length l) (le_value l) = l.
Proof.
  induction 1 as [|b l Hb _ IH]; simpl; [done|]. unfold is_byte in Hb.
  rewrite (Z.mul_comm 256), Z.mod_add, Z.mod_small by lia.
  rewrite Z.div_add, Z.div_small by lia. by rewrite Z.add_0_l, IH.
Qed.
