(* ===== verification/SessReg.v ===== *)
(** * The session registry (core/session_manager.c, core/tc_client_driver.c)

    Device files, services and sessions are kernel allocations that point to
    each other and are reference counted.  The registry keeps one heap per
    struct type, indexed by address (0 is NULL), with the two global lists
    [g_service_list] and [g_tc_ns_dev_list.dev_file_list].  Dereferencing an
    address that is not allocated, and [list_del] of a node that is not on its
    list, are [Fault].  The mutexes make each operation below atomic. *)

From stdpp Require Import base gmap list.
From Stdlib Require Import ZArith Lia.
From S2P Require Import Prelude KernelApi TeeTypes Mailbox.

(** ** Data (teek_ns_client.h) *)

Definition SERVICES_MAX_COUNT : Z := 32.
Definition MAX_REF_COUNT : Z := 255.
Definition SCRAMBLING_NUMBER : Z := 3.
Definition CIPHER_KEY_BYTESIZE : Z := 32.
Definition IV_BYTESIZE : Z := 16.

Record session_crypto_info := CryptoInfo { key : list Z; iv : list Z }.

Record session_secure_info := SecureInfo {
  challenge_word : Z;
  scrambling : list Z;
  crypto_info : session_crypto_info
}.

Definition zero_secure_info : session_secure_info :=
  SecureInfo 0 (replicate 3 0) (CryptoInfo (replicate 32 0) (replicate 16 0)).

(** [token_buffer] is [None] for NULL. *)
Record tc_ns_token := Token { token_buffer : option (list Z); token_len : Z }.

Record tc_ns_session := Session {
  session_id : Z;
  owner : Z;
  secure_info : session_secure_info;
  teec_token : tc_ns_token;
  auth_hash_buf : list Z;
  send_wait_flag : Z;
  s_usage : Z
}.

Record tc_ns_service := Service {
  sv_uuid : list Z;
  session_list : list Z;
  sv_usage : Z
}.

Record tc_ns_dev_file := DevFile {
  df_id : Z;
  service_ref : list Z;
  services : list Z;
  kernel_api : Z;
  login_setup : bool;
  pkg_name_len : Z;
  pkg_name : list Z;
  pub_key_len : Z;
  pub_key : list Z;
  load_app_flag : Z;
  shared_mem_list : list Z
}.

Record tc_ns_shared_mem := SharedMem {
  sm_kernel_addr : Z;
  sm_user_addr : Z;
  sm_user_addr_ca : Z;
  sm_len : Z;
  sm_usage : Z;
  sm_offset : Z
}.

Record registry := Registry {
  g_sessions : gmap Z tc_ns_session;
  g_services : gmap Z tc_ns_service;
  g_devs : gmap Z tc_ns_dev_file;
  g_shared : gmap Z tc_ns_shared_mem;
  g_service_list : list Z;
  dev_file_list : list Z;
  g_device_file_cnt : Z
}.

(** [kzalloc] of a session, a device file. *)
Definition zero_session : tc_ns_session :=
  Session 0 0 zero_secure_info (Token None 0) (replicate 112 0) 0 0.

Definition zero_dev_file : tc_ns_dev_file :=
  DevFile 0 (replicate 32 0) (replicate 32 0) 0 false 0 (replicate 255 0) 0
    (replicate 1024 0) 0 [].

(** ** Field updates *)

Definition with_usage (s : tc_ns_session) (u : Z) : tc_ns_session :=
  Session (session_id s) (owner s) (secure_info s) (teec_token s)
    (auth_hash_buf s) (send_wait_flag s) u.

Definition with_secure_info (s : tc_ns_session) (i : session_secure_info) : tc_ns_session :=
  Session (session_id s) (owner s) i (teec_token s) (auth_hash_buf s)
    (send_wait_flag s) (s_usage s).

Definition with_token (s : tc_ns_session) (t : tc_ns_token) : tc_ns_session :=
  Session (session_id s) (owner s) (secure_info s) t (auth_hash_buf s)
    (send_wait_flag s) (s_usage s).

Definition with_sv_usage (v : tc_ns_service) (u : Z) : tc_ns_service :=
  Service (sv_uuid v) (session_list v) u.

Definition with_session_list (v : tc_ns_service) (l : list Z) : tc_ns_service :=
  Service (sv_uuid v) l (sv_usage v).

Definition with_slot (d : tc_ns_dev_file) (i : nat) (ref srv : Z) : tc_ns_dev_file :=
  DevFile (df_id d) (<[i := ref]> (service_ref d)) (<[i := srv]> (services d))
    (kernel_api d) (login_setup d) (pkg_name_len d) (pkg_name d) (pub_key_len d)
    (pub_key d) (load_app_flag d) (shared_mem_list d).

Definition set_sessions (R : registry) (h : gmap Z tc_ns_session) : registry :=
  Registry h (g_services R) (g_devs R) (g_shared R) (g_service_list R) (dev_file_list R)
    (g_device_file_cnt R).

Definition set_services (R : registry) (h : gmap Z tc_ns_service) (l : list Z) : registry :=
  Registry (g_sessions R) h (g_devs R) (g_shared R) l (dev_file_list R) (g_device_file_cnt R).

Definition set_devs (R : registry) (h : gmap Z tc_ns_dev_file) (l : list Z) : registry :=
  Registry (g_sessions R) (g_services R) h (g_shared R) (g_service_list R) l
    (g_device_file_cnt R).

Definition set_shared (R : registry) (h : gmap Z tc_ns_shared_mem) : registry :=
  Registry (g_sessions R) (g_services R) (g_devs R) h (g_service_list R)
    (dev_file_list R) (g_device_file_cnt R).

Definition upd_session (R : registry) (p : Z) (s : tc_ns_session) : registry :=
  set_sessions R (<[p := s]> (g_sessions R)).

Definition upd_service (R : registry) (p : Z) (v : tc_ns_service) : registry :=
  set_services R (<[p := v]> (g_services R)) (g_service_list R).

Definition upd_dev (R : registry) (p : Z) (d : tc_ns_dev_file) : registry :=
  set_devs R (<[p := d]> (g_devs R)) (dev_file_list R).

(** [list_del] on one of the registry's lists. *)
Definition unlink (p : Z) (l : list Z) : outcome (list Z) :=
  if decide (p ∈ l) then Ret (filter (λ q, q ≠ p) l) else Fault.

(** [atomic_inc] and [atomic_dec] on an [int]. *)
Definition atomic_inc (x : Z) : Z := s32 (x + 1).
Definition atomic_dec (x : Z) : Z := s32 (x - 1).

(** ** Reference counts *)

Definition get_session_struct (R : registry) (session : Z) : outcome registry :=
  if session =? 0 then Ret R
  else
    s ← at_index (g_sessions R) session;
    Ret (upd_session R session (with_usage s (atomic_inc (s_usage s)))).

(** The last reference clears and frees the token buffer and the session. *)
Definition put_session_struct (R : registry) (session : Z) : outcome registry :=
  if session =? 0 then Ret R
  else
    s ← at_index (g_sessions R) session;
    if atomic_dec (s_usage s) =? 0
    then Ret (set_sessions R (delete session (g_sessions R)))
    else Ret (upd_session R session (with_usage s (atomic_dec (s_usage s)))).

Definition get_service_struct (R : registry) (service : Z) : outcome registry :=
  if service =? 0 then Ret R
  else
    v ← at_index (g_services R) service;
    Ret (upd_service R service (with_sv_usage v (atomic_inc (sv_usage v)))).

Definition put_service_struct (R : registry) (service : Z) : outcome registry :=
  if service =? 0 then Ret R
  else
    v ← at_index (g_services R) service;
    if atomic_dec (sv_usage v) =? 0
    then
      l ← unlink service (g_service_list R);
      Ret (set_services R (delete service (g_services R)) l)
    else Ret (upd_service R service (with_sv_usage v (atomic_dec (sv_usage v)))).

(** Shared memory (core/mem.h).  [tc_mem_free] releases the buffer and the
    struct. *)
Definition get_sharemem_struct (R : registry) (sharemem : Z) : outcome registry :=
  if sharemem =? 0 then Ret R
  else
    h ← at_index (g_shared R) sharemem;
    Ret (set_shared R (<[sharemem :=
      SharedMem (sm_kernel_addr h) (sm_user_addr h) (sm_user_addr_ca h) (sm_len h)
        (atomic_inc (sm_usage h)) (sm_offset h)]> (g_shared R))).

Definition put_sharemem_struct (R : registry) (sharemem : Z) : outcome registry :=
  if sharemem =? 0 then Ret R
  else
    h ← at_index (g_shared R) sharemem;
    if atomic_dec (sm_usage h) =? 0
    then Ret (set_shared R (delete sharemem (g_shared R)))
    else Ret (set_shared R (<[sharemem :=
      SharedMem (sm_kernel_addr h) (sm_user_addr h) (sm_user_addr_ca h) (sm_len h)
        (atomic_dec (sm_usage h)) (sm_offset h)]> (g_shared R))).

(** ** The service slots of a device file *)

Fixpoint add_slot_loop (i : nat) (sl : list Z) : option nat :=
  match sl with
  | [] => None
  | p :: sl => if p =? 0 then Some i else add_slot_loop (S i) sl
  end.

Definition add_service_to_dev (R : registry) (dev service : Z)
    : outcome (registry * Z) :=
  if (dev =? 0) || (service =? 0) then Ret (R, - EINVAL)
  else
    d ← at_index (g_devs R) dev;
    match add_slot_loop 0 (services d) with
    | Some i => Ret (upd_dev R dev (with_slot d i 1 service), 0)
    | None => Ret (R, - EFAULT)
    end.

Fixpoint slot_of_loop (i : nat) (service : Z) (sl : list Z) : option nat :=
  match sl with
  | [] => None
  | p :: sl => if p =? service then Some i else slot_of_loop (S i) service sl
  end.

Definition del_service_from_dev (R : registry) (dev service : Z) : outcome registry :=
  d ← at_index (g_devs R) dev;
  match slot_of_loop 0 service (services d) with
  | None => Ret R
  | Some i =>
      let ref := nth i (service_ref d) 0 in
      if ref =? 0 then Ret R
      else
        let ref := u8 (ref - 1) in
        if ref =? 0
        then put_service_struct (upd_dev R dev (with_slot d i 0 0)) service
        else Ret (upd_dev R dev (with_slot d i ref service))
  end.

(** The slot whose service has the given uuid. *)
Fixpoint uuid_slot_loop (R : registry) (i : nat) (uuid : list Z) (sl : list Z)
    : outcome (option (nat * Z)) :=
  match sl with
  | [] => Ret None
  | p :: sl =>
      if p =? 0 then uuid_slot_loop R (S i) uuid sl
      else
        v ← at_index (g_services R) p;
        if decide (sv_uuid v = uuid) then Ret (Some (i, p))
        else uuid_slot_loop R (S i) uuid sl
  end.

Definition tc_find_service_in_dev (R : registry) (dev : Z) (uuid : list Z)
    (uuid_size : Z) : outcome Z :=
  if (dev =? 0) || negb (uuid_size =? UUID_LEN) then Ret 0
  else
    d ← at_index (g_devs R) dev;
    r ← uuid_slot_loop R 0 uuid (services d);
    Ret (match r with Some (_, p) => p | None => 0 end).

Definition tc_ref_service_in_dev (R : registry) (dev : Z) (uuid : list Z)
    (uuid_size : Z) : outcome (registry * Z * bool) :=
  if negb (uuid_size =? UUID_LEN) then Ret (R, 0, false)
  else
    d ← at_index (g_devs R) dev;
    r ← uuid_slot_loop R 0 uuid (services d);
    match r with
    | None => Ret (R, 0, false)
    | Some (i, p) =>
        let ref := nth i (service_ref d) 0 in
        if ref =? MAX_REF_COUNT then Ret (R, 0, true)
        else Ret (upd_dev R dev (with_slot d i (u8 (ref + 1)) p), p, false)
    end.

(** ** Services *)

(** [kz] is the address [kzalloc] returns. *)
Definition tc_ns_service_init (kz : Z) (R : registry) (uuid : list Z) (uuid_len : Z)
    : registry * Z * Z :=
  if negb (uuid_len =? UUID_LEN) then (R, - EINVAL, 0)
  else if zero_or_null_ptr kz then (R, - ENOMEM, 0)
  else
    (set_services R (<[kz := Service uuid [] 1]> (g_services R))
       (g_service_list R ++ [kz]), 0, kz).

Fixpoint find_service_loop (R : registry) (uuid : list Z) (l : list Z) : outcome Z :=
  match l with
  | [] => Ret 0
  | p :: l =>
      v ← at_index (g_services R) p;
      if decide (sv_uuid v = uuid) then Ret p else find_service_loop R uuid l
  end.

Definition tc_find_service_from_all (R : registry) (uuid : list Z) (uuid_len : Z)
    : outcome Z :=
  if negb (uuid_len =? UUID_LEN) then Ret 0
  else find_service_loop R uuid (g_service_list R).

Definition add_found_service (R : registry) (dev service : Z) : outcome (registry * Z) :=
  '(R, ret) ← add_service_to_dev R dev service;
  if negb (ret =? 0)
  then R ← put_service_struct R service; Ret (R, 0)
  else Ret (R, service).

(** Returns the service, or 0. *)
Definition find_service (kz : Z) (R : registry) (dev_file : Z) (uuid : list Z)
    : outcome (registry * Z) :=
  '(R, service, is_full) ← tc_ref_service_in_dev R dev_file uuid UUID_LEN;
  if negb (service =? 0) || is_full then Ret (R, service)
  else
    service ← tc_find_service_from_all R uuid UUID_LEN;
    if negb (service =? 0)
    then R ← get_service_struct R service; add_found_service R dev_file service
    else
      let '(R, ret, service) := tc_ns_service_init kz R uuid UUID_LEN in
      if negb (ret =? 0) then Ret (R, 0)
      else add_found_service R dev_file service.

(** ** Sessions *)

Fixpoint find_session_loop (R : registry) (sid dev : Z) (l : list Z) : outcome Z :=
  match l with
  | [] => Ret 0
  | p :: l =>
      s ← at_index (g_sessions R) p;
      if (session_id s =? sid) && (owner s =? dev) then Ret p
      else find_session_loop R sid dev l
  end.

Definition tc_find_session_withowner (R : registry) (l : list Z) (sid dev_file : Z)
    : outcome Z :=
  if dev_file =? 0 then Ret 0 else find_session_loop R sid dev_file l.

Fixpoint find_owned_loop (R : registry) (dev : Z) (l : list Z) : outcome Z :=
  match l with
  | [] => Ret 0
  | p :: l =>
      s ← at_index (g_sessions R) p;
      if owner s =? dev then Ret p else find_owned_loop R dev l
  end.

(** Unlink the first session of [service] that [dev] owns. *)
Definition tc_find_and_del_session (R : registry) (service dev : Z)
    : outcome (registry * Z) :=
  v ← at_index (g_services R) service;
  p ← find_owned_loop R dev (session_list v);
  if p =? 0 then Ret (R, 0)
  else
    R ← get_session_struct R p;
    l ← unlink p (session_list v);
    Ret (upd_service R service (with_session_list v l), p).

(** [list_del(&session->head)] under [service->session_lock]. *)
Definition del_session_node (R : registry) (service session : Z) : outcome registry :=
  v ← at_index (g_services R) service;
  l ← unlink session (session_list v);
  Ret (upd_service R service (with_session_list v l)).

Definition init_new_sess_node (R : registry) (dev_file sid service session : Z)
    : outcome registry :=
  s ← at_index (g_sessions R) session;
  v ← at_index (g_services R) service;
  let s := Session sid dev_file (secure_info s) (teec_token s) (auth_hash_buf s) 0 1 in
  Ret (upd_service (upd_session R session s) service
         (with_session_list v (session_list v ++ [session]))).

Definition get_session (R : registry) (service dev_file sid : Z)
    : outcome (registry * Z) :=
  v ← at_index (g_services R) service;
  session ← tc_find_session_withowner R (session_list v) sid dev_file;
  R ← get_session_struct R session;
  Ret (R, session).

Definition get_service (R : registry) (dev_file : Z) (uuid : list Z)
    : outcome (registry * Z) :=
  service ← tc_find_service_in_dev R dev_file uuid UUID_LEN;
  R ← get_service_struct R service;
  Ret (R, service).

Fixpoint find_dev_loop (R : registry) (dev_file_id : Z) (l : list Z) : outcome Z :=
  match l with
  | [] => Ret 0
  | p :: l =>
      d ← at_index (g_devs R) p;
      if df_id d =? dev_file_id then Ret p else find_dev_loop R dev_file_id l
  end.

Definition tc_find_dev_file (R : registry) (dev_file_id : Z) : outcome Z :=
  find_dev_loop R dev_file_id (dev_file_list R).

(** The session a command belongs to, with a reference taken; 0 if none. *)
Definition tc_find_session_by_uuid (R : registry) (dev_file_id : Z)
    (cmd : tc_ns_smc_cmd) : outcome (registry * Z) :=
  dev_file ← tc_find_dev_file R dev_file_id;
  if dev_file =? 0 then Ret (R, 0)
  else
    service ← tc_find_service_in_dev R dev_file (uuid cmd) UUID_LEN;
    R ← get_service_struct R service;
    if service =? 0 then Ret (R, 0)
    else
      v ← at_index (g_services R) service;
      session ← tc_find_session_withowner R (session_list v) (context_id cmd) dev_file;
      R ← get_session_struct R session;
      R ← put_service_struct R service;
      Ret (R, session).

(** ** Device files *)

Definition tc_ns_client_open (kz : Z) (R : registry) (api : Z) : registry * Z * Z :=
  if zero_or_null_ptr kz then (R, - ENOMEM, 0)
  else
    let d := DevFile (g_device_file_cnt R) (replicate 32 0) (replicate 32 0) api false
               0 (replicate 255 0) 0 (replicate 1024 0) 0 [] in
    (Registry (g_sessions R) (g_services R) (<[kz := d]> (g_devs R)) (g_shared R)
       (g_service_list R) (dev_file_list R ++ [kz])
       (u32 (g_device_file_cnt R + 1)), 0, kz).

Definition del_dev_node (R : registry) (dev : Z) : outcome registry :=
  if dev =? 0 then Ret R
  else l ← unlink dev (dev_file_list R); Ret (set_devs R (g_devs R) l).

(** [kfree(dev)] after [del_dev_node]. *)
Definition teec_daemon_close (R : registry) (dev : Z) : outcome (registry * Z) :=
  if dev =? 0 then Ret (R, - EINVAL)
  else
    R ← del_dev_node R dev;
    Ret (set_devs R (delete dev (g_devs R)) (dev_file_list R), 0).
