(* ===== verification/SessLookup.v ===== *)
(** * Looking a session up and giving it back

    [tc_find_session_by_uuid] takes a reference; every caller in the
    authentication layer gives it back with [put_session_struct].  Under
    positive counters the pair leaves the registry as it was. *)

From stdpp Require Import base gmap list.
From Stdlib Require Import ZArith Lia.
From S2P Require Import Prelude KernelApi TeeTypes Mailbox SessReg.

(** Every session on a list and every service is referenced, and no counter is
    about to wrap.  (A session that is being opened is on no list yet.) *)
Record counted (R : registry) : Prop := {
  counted_sessions p v q s :
    g_services R !! p = Some v → q ∈ session_list v → g_sessions R !! q = Some s →
    1 ≤ s_usage s < 2 ^ 31 - 1;
  counted_services p v : g_services R !! p = Some v → 1 ≤ sv_usage v < 2 ^ 31 - 1
}.

Lemma counted_no_services R : g_services R = ∅ → counted R.
Proof. intros E. split; rewrite E; intros p v *; by rewrite lookup_empty. Qed.

Lemma atomic_inc_small x : 0 ≤ x < 2 ^ 31 - 1 → atomic_inc x = x + 1.
Proof. intros. apply s32_small. lia. Qed.

Lemma atomic_dec_small x : 1 ≤ x ≤ 2 ^ 31 - 1 → atomic_dec x = x - 1.
Proof. intros. apply s32_small. lia. Qed.

Lemma set_sessions_id R : set_sessions R (g_sessions R) = R.
Proof. by destruct R. Qed.

Lemma set_services_id R : set_services R (g_services R) (g_service_list R) = R.
Proof. by destruct R. Qed.

Lemma with_usage_id s : with_usage s (s_usage s) = s.
Proof. by destruct s. Qed.

Lemma with_sv_usage_id v : with_sv_usage v (sv_usage v) = v.
Proof. by destruct v. Qed.

(** A reference taken and given back. *)
Lemma get_put_session R p s :
  g_sessions R !! p = Some s → 1 ≤ s_usage s < 2 ^ 31 - 1 → p ≠ 0 →
  get_session_struct R p = Ret (upd_session R p (with_usage s (s_usage s + 1))) ∧
  put_session_struct (upd_session R p (with_usage s (s_usage s + 1))) p = Ret R.
Proof.
  intros Hs Hu Hp. unfold get_session_struct, put_session_struct.
  rewrite (proj2 (Z.eqb_neq p 0)) by done.
  rewrite (proj2 (at_index_Some _ _ _) Hs). simpl.
  rewrite atomic_inc_small by lia. split; [done|].
  unfold at_index, upd_session at 1; simpl. rewrite lookup_insert_eq. simpl.
  rewrite atomic_dec_small by lia.
  destruct (Z.eqb_spec (s_usage s + 1 - 1) 0); [lia|].
  unfold upd_session, set_sessions. simpl. rewrite insert_insert_eq.
  f_equal. rewrite insert_id; [by destruct R|].
  rewrite Hs. f_equal. rewrite Z.add_simpl_r. by destruct s.
Qed.

Lemma get_put_service R p v :
  g_services R !! p = Some v → 1 ≤ sv_usage v < 2 ^ 31 - 1 → p ≠ 0 →
  get_service_struct R p = Ret (upd_service R p (with_sv_usage v (sv_usage v + 1))) ∧
  ∀ h, put_service_struct (set_sessions
         (upd_service R p (with_sv_usage v (sv_usage v + 1))) h) p
       = Ret (set_sessions R h).
Proof.
  intros Hs Hu Hp. unfold get_service_struct, put_service_struct.
  rewrite (proj2 (Z.eqb_neq p 0)) by done.
  rewrite (proj2 (at_index_Some _ _ _) Hs). simpl.
  rewrite atomic_inc_small by lia. split; [done|]. intros h.
  unfold at_index; simpl. rewrite lookup_insert_eq. simpl.
  rewrite atomic_dec_small by lia.
  destruct (Z.eqb_spec (sv_usage v + 1 - 1) 0); [lia|].
  unfold upd_service, set_services, set_sessions. simpl. rewrite insert_insert_eq.
  f_equal. rewrite insert_id; [done|].
  rewrite Hs. f_equal. rewrite Z.add_simpl_r. by destruct v.
Qed.

(** The services of the slots and lists do not depend on reference counts. *)
Lemma find_session_loop_ext R R' sid dev l :
  g_sessions R = g_sessions R' →
  find_session_loop R sid dev l = find_session_loop R' sid dev l.
Proof.
  intros E. induction l as [|p l IH]; simpl; [done|]. rewrite E, IH. done.
Qed.

Lemma find_session_loop_found R sid dev l p :
  find_session_loop R sid dev l = Ret p → p ≠ 0 →
  p ∈ l ∧ ∃ s, g_sessions R !! p = Some s ∧ session_id s = sid ∧ owner s = dev.
Proof.
  induction l as [|q l IH]; simpl; [congruence|].
  rewrite bind_Ret. intros (s & Hs & H) Hp. apply at_index_Some in Hs.
  destruct (Z.eqb_spec (session_id s) sid), (Z.eqb_spec (owner s) dev); simpl in H.
  { injection H as <-. split; [left|]. eauto. }
  all: destruct (IH H Hp) as (? & ?); split; [by right|done].
Qed.

Lemma uuid_slot_loop_found R i u sl j p :
  uuid_slot_loop R i u sl = Ret (Some (j, p)) →
  (i ≤ j)%nat ∧ sl !! (j - i)%nat = Some p ∧ p ≠ 0 ∧
  ∃ v, g_services R !! p = Some v ∧ sv_uuid v = u.
Proof.
  revert i. induction sl as [|q sl IH]; intros i; simpl; [done|].
  destruct (Z.eqb_spec q 0) as [->|Hq].
  - intros H. destruct (IH _ H) as (? & Hl & ?). split; [lia|].
    replace (j - i)%nat with (S (j - S i)) by lia. done.
  - rewrite bind_Ret. intros (v & Hv & H). apply at_index_Some in Hv.
    destruct (decide (sv_uuid v = u)).
    + injection H as <- <-. rewrite Nat.sub_diag. split; [lia|]. eauto.
    + destruct (IH _ H) as (? & Hl & ?). split; [lia|].
      replace (j - i)%nat with (S (j - S i)) by lia. done.
Qed.

Lemma tc_find_service_in_dev_found R dev u p :
  tc_find_service_in_dev R dev u UUID_LEN = Ret p → p ≠ 0 →
  ∃ d i v, g_devs R !! dev = Some d ∧ services d !! i = Some p ∧
    g_services R !! p = Some v ∧ sv_uuid v = u.
Proof.
  unfold tc_find_service_in_dev. destruct (_ || _); [congruence|].
  rewrite bind_Ret. intros (d & Hd & H) Hp. apply at_index_Some in Hd.
  apply bind_Ret in H as ([[i q]|] & Hl & H); [|congruence].
  injection H as ->. apply uuid_slot_loop_found in Hl as (_ & Hi & _ & v & Hv).
  rewrite Nat.sub_0_r in Hi. eauto 10.
Qed.

(** The session a command names. *)
Definition session_of (R : registry) (cmd : tc_ns_smc_cmd) (p : Z)
    (s : tc_ns_session) : Prop :=
  ∃ R', tc_find_session_by_uuid R (dev_file_id cmd) cmd = Ret (R', p) ∧ p ≠ 0 ∧
    g_sessions R !! p = Some s.

(** Finding it takes exactly one reference on the session, which giving it
    back undoes. *)
Lemma tc_find_session_balanced R id cmd R' p :
  counted R → tc_find_session_by_uuid R id cmd = Ret (R', p) →
  (p = 0 ∧ R' = R) ∨
  (p ≠ 0 ∧ ∃ s, g_sessions R !! p = Some s ∧
     session_id s = context_id cmd ∧
     R' = upd_session R p (with_usage s (s_usage s + 1)) ∧
     put_session_struct R' p = Ret R).
Proof.
  intros HC. unfold tc_find_session_by_uuid.
  rewrite bind_Ret. intros (dev & _ & H).
  destruct (Z.eqb_spec dev 0) as [_|Hdev]; [left; by simplify_eq|].
  apply bind_Ret in H as (srv & Hsrv & H).
  destruct (decide (srv = 0)) as [->|Hs0].
  { simpl in H. injection H as <- <-. by left. }
  apply bind_Ret in H as (R1 & Hget & H).
  rewrite (proj2 (Z.eqb_neq srv 0)) in H by done.
  destruct (tc_find_service_in_dev_found _ _ _ _ Hsrv Hs0) as (d & i & v & _ & _ & Hv & _).
  destruct (get_put_service R srv v Hv (counted_services _ HC _ _ Hv) Hs0) as [E1 E2].
  rewrite E1 in Hget. injection Hget as <-.
  unfold at_index in H at 1. simpl in H. rewrite lookup_insert_eq in H. simpl in H.
  unfold tc_find_session_withowner in H.
  rewrite (proj2 (Z.eqb_neq dev 0)) in H by done.
  apply bind_Ret in H as (p' & Hf & H).
  rewrite (find_session_loop_ext _ R) in Hf by done.
  apply bind_Ret in H as (R2 & Hg & H). apply bind_Ret in H as (R3 & Hput & H).
  injection H as <- <-.
  destruct (decide (p' = 0)) as [->|Hp].
  { left. split; [done|]. unfold get_session_struct in Hg. simpl in Hg.
    injection Hg as <-. specialize (E2 (g_sessions R)).
    rewrite set_sessions_id in E2.
    change (set_sessions _ _) with
      (upd_service R srv (with_sv_usage v (sv_usage v + 1))) in E2.
    rewrite E2 in Hput. by injection Hput as <-. }
  right. split; [done|].
  destruct (find_session_loop_found _ _ _ _ _ Hf Hp) as (Hin & s & Hs & Hid & _).
  pose proof (counted_sessions _ HC _ _ _ _ Hv Hin Hs) as Hu.
  exists s. split; [done|]. split; [done|].
  destruct (get_put_session R p' s Hs Hu Hp) as [G1 G2].
  assert (R2 = set_sessions (upd_service R srv (with_sv_usage v (sv_usage v + 1)))
    (<[p' := with_usage s (s_usage s + 1)]> (g_sessions R))) as ->.
  { unfold get_session_struct in Hg. rewrite (proj2 (Z.eqb_neq p' 0)) in Hg by done.
    unfold at_index in Hg. simpl in Hg. rewrite Hs in Hg. simpl in Hg.
    rewrite atomic_inc_small in Hg by lia.
    by injection Hg as <-. }
  rewrite E2 in Hput. injection Hput as <-. done.
Qed.
