(* ===== verification/SessOk.v ===== *)
(** * A well-formed session registry

    Every pointer the lookups follow leads to an allocated object, and every
    reference count is positive and away from its limit.  Under this invariant
    the lookups of the authentication layer never fault, and what that layer
    does to the registry is confined to the data of sessions. *)

From stdpp Require Import base gmap list.
From Stdlib Require Import ZArith Lia Setoid.
From S2P Require Import Prelude KernelApi TeeTypes Mailbox SessReg SessLookup.

Record reg_ok (R : registry) : Prop := {
  reg_counted : counted R;
  reg_dev_list p : p ∈ dev_file_list R → is_Some (g_devs R !! p);
  reg_slots d v p :
    g_devs R !! d = Some v → p ∈ services v → p ≠ 0 → is_Some (g_services R !! p);
  reg_session_list p v q :
    g_services R !! p = Some v → q ∈ session_list v → is_Some (g_sessions R !! q)
}.

(** What identifies a session: id, owner, count. *)
Definition sess_key (s : tc_ns_session) : Z * Z * Z := (session_id s, owner s, s_usage s).

(** Equal up to the contents of sessions and the shared buffers' counts. *)
Record reg_like (R R' : registry) : Prop := {
  like_services : g_services R' = g_services R;
  like_devs : g_devs R' = g_devs R;
  like_service_list : g_service_list R' = g_service_list R;
  like_dev_list : dev_file_list R' = dev_file_list R;
  like_cnt : g_device_file_cnt R' = g_device_file_cnt R;
  like_keys p : sess_key <$> g_sessions R' !! p = sess_key <$> g_sessions R !! p
}.

#[export] Instance reg_like_equiv : Equivalence reg_like.
Proof.
  split.
  - intros R. by split.
  - intros R R' [? ? ? ? ? Hu]. split; congruence.
  - intros R R' R'' [? ? ? ? ? Hu] [? ? ? ? ? Hu']. split; congruence.
Qed.

Lemma like_session R R' p s :
  reg_like R R' → g_sessions R !! p = Some s →
  ∃ s', g_sessions R' !! p = Some s' ∧ sess_key s' = sess_key s.
Proof.
  intros HL Hs. pose proof (like_keys _ _ HL p) as E. rewrite Hs in E.
  destruct (g_sessions R' !! p) as [s'|]; simpl in E; [|done]. exists s'. by apply (inj Some) in E.
Qed.

Lemma like_is_Some R R' p :
  reg_like R R' → is_Some (g_sessions R !! p) → is_Some (g_sessions R' !! p).
Proof. intros HL [s Hs]. destruct (like_session _ _ _ _ HL Hs) as (s' & -> & _). done. Qed.

#[export] Instance reg_ok_proper : Proper (reg_like ==> iff) reg_ok.
Proof.
  assert (∀ R R', reg_like R R' → reg_ok R → reg_ok R') as H.
  { intros R R' HL [[Hs Hv] Hd Hsl Hl]. pose proof HL as [Es Ed Esl El Ec Hu].
    split.
    - split; [|by rewrite Es]. rewrite Es. intros p v q s Hp Hq Hqs.
      assert (reg_like R' R) as HL' by by symmetry.
      destruct (like_session _ _ _ _ HL' Hqs) as (s' & Hs' & E). injection E as _ _ <-. eauto.
    - by rewrite El, Ed.
    - by rewrite Ed, Es.
    - rewrite Es. intros. eapply like_is_Some; eauto. }
  intros R R' HL. split; apply H; [done|by symmetry].
Qed.

(** Updates that keep the count of a session. *)
Lemma upd_session_like R p s s' :
  g_sessions R !! p = Some s → sess_key s' = sess_key s → reg_like R (upd_session R p s').
Proof.
  intros Hs Hu. split; try done. intros q. simpl.
  destruct (decide (p = q)) as [->|].
  - by rewrite lookup_insert_eq, Hs; simpl; rewrite Hu.
  - by rewrite lookup_insert_ne.
Qed.

Lemma set_shared_like R h : reg_like R (set_shared R h).
Proof. by split. Qed.

(** ** The lookups are total *)

Lemma at_index_is_Some {A} (h : gmap Z A) p :
  is_Some (h !! p) → ∃ a, at_index h p = Ret a ∧ h !! p = Some a.
Proof. intros [a Ha]. exists a. split; [by apply at_index_Some|done]. Qed.

Lemma find_dev_loop_total R id l :
  (∀ p, p ∈ l → is_Some (g_devs R !! p)) →
  ∃ p, find_dev_loop R id l = Ret p ∧ (p = 0 ∨ p ∈ l).
Proof.
  induction l as [|q l IH]; intros Hl; simpl; [eauto|].
  destruct (at_index_is_Some (g_devs R) q) as (d & -> & _); [apply Hl; left|]. simpl.
  destruct (df_id d =? id); [eexists; split; [done|right; left]|].
  destruct IH as (p & -> & Hp); [intros; apply Hl; by right|].
  exists p. split; [done|]. destruct Hp; [by left|right; by right].
Qed.

Lemma uuid_slot_loop_total R i u sl :
  (∀ p, p ∈ sl → p ≠ 0 → is_Some (g_services R !! p)) →
  ∃ r, uuid_slot_loop R i u sl = Ret r.
Proof.
  revert i. induction sl as [|q sl IH]; intros i Hl; simpl; [eauto|].
  destruct (Z.eqb_spec q 0); [apply IH; intros; apply Hl; [by right|done]|].
  destruct (at_index_is_Some (g_services R) q) as (v & -> & _); [apply Hl; [left|done]|].
  simpl. case_decide; [eauto|]. apply IH; intros; apply Hl; [by right|done].
Qed.

Lemma find_session_loop_total R sid dev l :
  (∀ p, p ∈ l → is_Some (g_sessions R !! p)) → ∃ p, find_session_loop R sid dev l = Ret p.
Proof.
  induction l as [|q l IH]; intros Hl; simpl; [eauto|].
  destruct (at_index_is_Some (g_sessions R) q) as (s & -> & _); [apply Hl; left|]. simpl.
  destruct (_ && _); [eauto|]. apply IH. intros. apply Hl. by right.
Qed.

Lemma tc_find_service_in_dev_total R dev u :
  reg_ok R → (dev ≠ 0 → is_Some (g_devs R !! dev)) →
  ∃ p, tc_find_service_in_dev R dev u UUID_LEN = Ret p.
Proof.
  intros HR Hd. unfold tc_find_service_in_dev. rewrite Z.eqb_refl. simpl. rewrite orb_false_r.
  destruct (Z.eqb_spec dev 0); [eauto|].
  destruct (at_index_is_Some (g_devs R) dev) as (d & -> & Ed); [by apply Hd|]. simpl.
  destruct (uuid_slot_loop_total R 0 u (services d)) as (r & ->).
  { intros p Hp H0. eapply reg_slots; eauto. }
  simpl. eauto.
Qed.

Lemma tc_find_session_total R id cmd :
  reg_ok R → ∃ R' p, tc_find_session_by_uuid R id cmd = Ret (R', p).
Proof.
  intros HR. unfold tc_find_session_by_uuid, tc_find_dev_file.
  destruct (find_dev_loop_total R id (dev_file_list R)) as (dev & -> & Hdev);
    [apply HR|]. rewrite ret_bind.
  destruct (Z.eqb_spec dev 0) as [|Hd0]; [eauto|].
  destruct Hdev as [|Hdev]; [done|].
  destruct (tc_find_service_in_dev_total R dev (uuid cmd) HR) as (srv & Esrv).
  { intros _. by apply HR. }
  rewrite Esrv, ret_bind.
  destruct (Z.eqb_spec srv 0) as [->|Hs0]; [simpl; eauto|].
  destruct (tc_find_service_in_dev_found _ _ _ _ Esrv Hs0) as (d & i & v & _ & _ & Hv & _).
  destruct (get_put_service R srv v Hv (counted_services _ (reg_counted _ HR) _ _ Hv) Hs0)
    as [E1 E2].
  rewrite E1, ret_bind. unfold at_index at 1. simpl. rewrite lookup_insert_eq, ret_bind. simpl.
  unfold tc_find_session_withowner. rewrite (proj2 (Z.eqb_neq dev 0)) by done.
  rewrite (find_session_loop_ext _ R) by done.
  destruct (find_session_loop_total R (context_id cmd) dev (session_list v)) as (p & Ep).
  { intros q Hq. by eapply reg_session_list. }
  rewrite Ep, ret_bind.
  destruct (Z.eqb_spec p 0) as [->|Hp0].
  { specialize (E2 (g_sessions R)). rewrite set_sessions_id in E2.
    unfold get_session_struct. simpl.
    change (set_sessions _ _) with (upd_service R srv (with_sv_usage v (sv_usage v + 1))) in E2.
    rewrite E2. simpl. eauto. }
  destruct (find_session_loop_found _ _ _ _ _ Ep Hp0) as (_ & s & Hs & _).
  unfold get_session_struct. rewrite (proj2 (Z.eqb_neq p 0)) by done.
  unfold at_index at 1. simpl. rewrite Hs. simpl. unfold upd_session at 1. simpl.
  rewrite E2. simpl. eauto.
Qed.

(** A lookup, a look at the session, and the reference given back. *)
Lemma tc_find_session_cases R id cmd :
  reg_ok R →
  tc_find_session_by_uuid R id cmd = Ret (R, 0) ∨
  ∃ p s R', p ≠ 0 ∧ tc_find_session_by_uuid R id cmd = Ret (R', p) ∧
    g_sessions R !! p = Some s ∧
    at_index (g_sessions R') p = Ret (with_usage s (s_usage s + 1)) ∧
    put_session_struct R' p = Ret R.
Proof.
  intros HR. destruct (tc_find_session_total R id cmd HR) as (R' & p & E).
  destruct (tc_find_session_balanced _ _ _ _ _ (reg_counted _ HR) E)
    as [[-> ->]|(Hp & s & Hs & _ & -> & Hput)]; [by left|right].
  exists p, s, (upd_session R p (with_usage s (s_usage s + 1))).
  split_and!; try done. unfold at_index. simpl. by rewrite lookup_insert_eq.
Qed.

(** ** Well-formedness is decidable *)

Definition reg_checks (R : registry) : Prop :=
  map_Forall (λ _ v, 1 ≤ sv_usage v < 2 ^ 31 - 1) (g_services R) ∧
  map_Forall (λ _ v, Forall (λ q, is_Some (g_sessions R !! q) ∧
    1 ≤ default 1 (s_usage <$> g_sessions R !! q) < 2 ^ 31 - 1) (session_list v)) (g_services R) ∧
  Forall (λ p, is_Some (g_devs R !! p)) (dev_file_list R) ∧
  map_Forall (λ _ v, Forall (λ p, p = 0 ∨ is_Some (g_services R !! p)) (services v)) (g_devs R).

Lemma reg_ok_checks R : reg_ok R ↔ reg_checks R.
Proof.
  split.
  - intros [[H1 H2] H3 H4 H5]. split_and!.
    + intros p v Hv. by eapply H2.
    + intros p v Hv. apply Forall_forall. intros q Hq.
      destruct (H5 _ _ _ Hv Hq) as [s Hs]. split; [by eexists|]. rewrite Hs. by eapply H1.
    + apply Forall_forall. auto.
    + intros p v Hv. apply Forall_forall. intros q Hq.
      destruct (decide (q = 0)); [by left|right]. by eapply H4.
  - intros (H1 & H2 & H3 & H4). rewrite Forall_forall in H3. split; [split|..].
    + intros p v q s Hv Hq Hs. destruct (proj1 (Forall_forall _ _) (H2 _ _ Hv) q Hq) as [_ H].
      by rewrite Hs in H.
    + apply H1.
    + apply H3.
    + intros d v p Hd Hp Hp0.
      by destruct (proj1 (Forall_forall _ _) (H4 _ _ Hd) p Hp) as [?|?].
    + intros p v q Hv Hq. by destruct (proj1 (Forall_forall _ _) (H2 _ _ Hv) q Hq).
Qed.

#[export] Instance reg_ok_dec R : Decision (reg_ok R).
Proof. refine (cast_if (decide (reg_checks R))); by rewrite reg_ok_checks. Defined.
