(* ===== verification/CallTypes.v ===== *)
(** * The parameters of a client call (tc_ns_client.h, gp_ops.h)

    The client context, the call and operation parameters the GP layer and the
    authentication layer share, the state a call runs in, the two functions
    that reach the client's memory, and the interface to the SMC layer. *)

From stdpp Require Import base gmap list.
From Stdlib Require Import ZArith Lia.
From S2P Require Import Prelude KernelApi TeeTypes Buffers Mailbox SessReg.

(** ** Data *)

(** [union tc_ns_client_param]: three words, read as [memref] (buffer, offset,
    size_addr) or as [value] (a_addr, b_addr). *)
Record tc_ns_client_param := ClientParam { cp_w0 : Z; cp_w1 : Z; cp_w2 : Z }.

Definition cp_buffer := cp_w0.
Definition cp_offset := cp_w1.
Definition cp_size_addr := cp_w2.
Definition cp_a_addr := cp_w0.
Definition cp_b_addr := cp_w1.

Record tc_ns_client_context := ClientContext {
  ctx_uuid : list Z;
  ctx_session_id : Z;
  ctx_cmd_id : Z;
  returns_code : Z;
  returns_origin : Z;
  ctx_login_method : Z;
  ctx_login_mdata : Z;
  ctx_params : list tc_ns_client_param;
  ctx_param_types : Z;
  ctx_started : Z;
  ctx_teec_token : Z;
  ctx_token_len : Z;
  calling_pid : Z;
  file_size : Z;
  file_buffer : Z
}.

Definition zero_context : tc_ns_client_context :=
  ClientContext (replicate 16 0) 0 0 0 0 0 0 (replicate 4 (ClientParam 0 0 0)) 0 0
    0 0 0 0 0.

Definition ctx_with_session (c : tc_ns_client_context) (sid : Z) :=
  ClientContext (ctx_uuid c) sid (ctx_cmd_id c) (returns_code c) (returns_origin c)
    (ctx_login_method c) (ctx_login_mdata c) (ctx_params c) (ctx_param_types c)
    (ctx_started c) (ctx_teec_token c) (ctx_token_len c) (calling_pid c)
    (file_size c) (file_buffer c).

Definition ctx_with_returns (c : tc_ns_client_context) (code origin : Z) :=
  ClientContext (ctx_uuid c) (ctx_session_id c) (ctx_cmd_id c) code origin
    (ctx_login_method c) (ctx_login_mdata c) (ctx_params c) (ctx_param_types c)
    (ctx_started c) (ctx_teec_token c) (ctx_token_len c) (calling_pid c)
    (file_size c) (file_buffer c).

(** [struct tc_call_params]: device file and session are addresses. *)
Record tc_call_params := CallParams {
  call_dev : Z;
  call_context : tc_ns_client_context;
  call_sess : Z;
  call_flags : Z
}.

Definition is_global_call (c : tc_call_params) : bool :=
  nonzero (Z.land (call_flags c) TC_CALL_GLOBAL).

(** [struct tc_op_params].  [mb_pack] is the address of the mailbox block; its
    [operation] member is kept as a record, its byte arrays are in memory. *)
Record tc_op_params := OpParams {
  mb_pack : Z;
  mb_operation : tc_ns_operation;
  op_smc_cmd : tc_ns_smc_cmd;
  local_tmpbuf : list (Z * Z);
  trans_paramtype : list Z;
  op_inited : bool
}.

(** Layout of [struct mb_cmd_pack] on a 64-bit kernel. *)
Definition TOKEN_BUFFER_LEN : Z := 42.
Definition TOKEN_SAVE_LEN : Z := 24.
Definition LOGIN_DATA_LEN : Z := 112.
Definition SECURE_PARAMS_LEN : Z := 96.
Definition pack_login_data (pack : Z) : Z := pack + 120.
Definition pack_token (pack : Z) : Z := pack + 232.
Definition pack_secure_params (pack : Z) : Z := pack + 274.

(** ** Client memory (read_from_client, write_to_client) *)

Section Client.
Context {CM : ClientMem}.

(** Returns the status and the bytes that were stored at [dest]. *)
Definition read_from_client (m : mem) (dest dest_size src size api : Z) : Z * list Z :=
  if (dest =? 0) || (src =? 0) then (- EINVAL, [])
  else if dest_size <? size then (- EINVAL, [])
  else if size =? 0 then (0, [])
  else if nonzero api then memcpy_in m dest_size src size
  else
    let '(left_over, l) := copy_from_user m src size in
    if nonzero left_over then (- EFAULT, l) else (0, l).

(** [src] is [None] for NULL. *)
Definition write_to_client (m : mem) (dest dest_size : Z) (src : option (list Z))
    (size api : Z) : Z * mem :=
  match src with
  | None => (- EINVAL, m)
  | Some bytes =>
      if dest =? 0 then (- EINVAL, m)
      else if dest_size <? size then (- EINVAL, m)
      else if size =? 0 then (0, m)
      else if nonzero api then memcpy_out m dest dest_size (sub_buf bytes 0 size)
      else
        let '(left_over, m') := copy_to_user m dest (sub_buf bytes 0 size) in
        if nonzero left_over then (- EFAULT, m') else (0, m')
  end.

Lemma read_from_client_ok {CL : ClientMemLaws CM} m dest dest_size src size api l :
  0 ≤ size → read_from_client m dest dest_size src size api = (0, l) →
  l = load_bytes m src (Z.to_nat size) ∧ size ≤ dest_size.
Proof.
  unfold read_from_client. intros Hs.
  destruct (_ || _); [done|]. destruct (Z.ltb_spec dest_size size); [done|].
  destruct (Z.eqb_spec size 0) as [->|].
  { intros [= <-]. done. }
  destruct (nonzero api).
  - intros E. split; [|lia]. by eapply memcpy_in_eok in E.
  - destruct (copy_from_user m src size) as [k l0] eqn:E.
    destruct (nonzero k) eqn:Hn; [done|]. intros [= <-].
    unfold nonzero in Hn. destruct (Z.eqb_spec k 0) as [->|]; [|done].
    apply copy_from_user_ok in E; [|lia]. done.
Qed.

Lemma write_to_client_ok {CL : ClientMemLaws CM} m dest dest_size src size api m' :
  0 ≤ size → write_to_client m dest dest_size src size api = (0, m') →
  ∃ bytes, src = Some bytes ∧ m' = store_bytes m dest (sub_buf bytes 0 size) ∧
    size ≤ dest_size.
Proof.
  unfold write_to_client. intros Hs. destruct src as [bytes|]; [|done].
  destruct (dest =? 0); [done|]. destruct (Z.ltb_spec dest_size size); [done|].
  destruct (Z.eqb_spec size 0) as [->|].
  { intros [= <-]. by exists bytes. }
  destruct (nonzero api).
  - intros E. apply memcpy_out_eok in E. by exists bytes.
  - destruct (copy_to_user _ _ _) as [k m0] eqn:E.
    destruct (nonzero k) eqn:Hn; [done|]. intros [= <-].
    unfold nonzero in Hn. destruct (Z.eqb_spec k 0) as [->|]; [|done].
    apply copy_to_user_ok in E. by exists bytes.
Qed.

(** Nothing is written outside the destination. *)
Lemma write_to_client_frame {CL : ClientMemLaws CM} m dest dest_size src size api x :
  ¬ dest ≤ x < dest + dest_size →
  (write_to_client m dest dest_size src size api).2 !! x = m !! x.
Proof.
  intros Hx. unfold write_to_client. destruct src as [bytes|]; [|done].
  destruct (dest =? 0); [done|]. destruct (Z.ltb_spec dest_size size); [done|].
  destruct (size =? 0); [done|]. destruct (nonzero api); [by apply memcpy_out_frame|].
  pose proof (copy_to_user_frame m dest (sub_buf bytes 0 size) x) as Hf.
  destruct (copy_to_user _ _ _) as [k m0]. destruct (nonzero k); apply Hf;
    unfold zlen, sub_buf; rewrite length_take; lia.
Qed.

End Client.

(** ** Physical addresses *)

Class PhysMap := { phys_to_virt : Z → Z }.

Class PhysMapLaws (P : PageMap) (F : PhysMap) := {
  phys_to_virt_to_phys a : 0 < a → phys_to_virt (virt_to_phys a) = a
}.

Definition linear_phys : PhysMap := {| phys_to_virt p := p + linear_base |}.

#[export] Instance linear_phys_laws : PhysMapLaws linear_map linear_phys.
Proof. split. intros a _. unfold linear_map; simpl. lia. Qed.

Definition phys_lo {P : PageMap} (a : Z) : Z := u32 (virt_to_phys a).
Definition phys_hi {P : PageMap} (a : Z) : Z :=
  u32 (Z.shiftr (u64 (virt_to_phys a)) ADDR_TRANS_NUM).

(** [(uint64_t)h << ADDR_TRANS_NUM | l] *)
Definition phys_join (h l : Z) : Z := Z.lor (u64 (Z.shiftl h ADDR_TRANS_NUM)) l.

Lemma phys_join_split x : 0 ≤ x < 2 ^ 64 →
  phys_join (u32 (Z.shiftr (u64 x) ADDR_TRANS_NUM)) (u32 x) = x.
Proof.
  intros Hx. unfold phys_join, ADDR_TRANS_NUM. rewrite (u64_small x) by lia.
  assert (0 ≤ Z.shiftr x 32 < 2 ^ 32) as Hh.
  { rewrite Z.shiftr_div_pow2 by lia. split; [apply Z.div_pos; lia|].
    apply Z.div_lt_upper_bound; lia. }
  rewrite (u32_small (Z.shiftr x 32)) by lia.
  rewrite u64_small.
  2:{ rewrite Z.shiftl_mul_pow2 by lia. revert Hh. generalize (Z.shiftr x 32). intros; lia. }
  unfold u32. rewrite <- Z.land_ones by lia.
  apply Z.bits_inj'. intros n Hn.
  rewrite Z.lor_spec, Z.land_spec, Z.shiftl_spec by lia.
  destruct (Z.ltb_spec n 32).
  - rewrite (Z.testbit_neg_r _ (n - 32)) by lia.
    rewrite Z.ones_spec_low by lia. by rewrite andb_true_r.
  - rewrite Z.shiftr_spec by lia. rewrite Z.ones_spec_high by lia.
    rewrite andb_false_r, orb_false_r. f_equal. lia.
Qed.

(** ** The SMC layer as its callers see it

    A synchronous command: the TEE may change the memory it shares with the
    driver, the operation and the command block.  The SMC layer looks the
    session of a TA's command up in the registry of its callers: [smc_sees]
    hands it the registry of the moment, which it does not change. *)

Class SmcChannel (Env : Type) := {
  smc_sees : Env → registry → Env;
  tc_ns_smc : Env → mem → tc_ns_operation → tc_ns_smc_cmd →
    Env * mem * tc_ns_operation * tc_ns_smc_cmd * Z;
  tc_ns_smc_with_no_nr : Env → mem → tc_ns_operation → tc_ns_smc_cmd →
    Env * mem * tc_ns_operation * tc_ns_smc_cmd * Z
}.

(** ** The kernel's random numbers and block cipher *)

Class KernelRandom := {
  get_random_bytes_arch : Z → list Z;
  get_random_bytes : Z → list Z
}.

Class KernelRandomLaws (K : KernelRandom) := {
  random_arch_length n : 0 ≤ n → (length (get_random_bytes_arch n) ≤ Z.to_nat n)%nat;
  random_soft_length n : 0 ≤ n → length (get_random_bytes n) = Z.to_nat n
}.

(** [skcipher_crypt encrypt key iv input]: status and output of "cbc(aes)". *)
Class KernelCipher := {
  crypto_alloc_skcipher : bool;
  skcipher_request_alloc : bool;
  crypto_skcipher_setkey : list Z → Z;
  skcipher_crypt : bool → list Z → list Z → list Z → Z * list Z
}.

Class KernelCipherLaws (K : KernelCipher) := {
  skcipher_length enc k v l out :
    skcipher_crypt enc k v l = (0, out) → length out = length l;
  skcipher_inverse k v l out :
    skcipher_crypt true k v l = (0, out) → skcipher_crypt false k v out = (0, l)
}.

(** ** Allocation outcomes and the calling task

    [kzalloc_ok] tells whether the allocation at a call site succeeds; the
    sites inside a per-parameter routine carry the parameter's index.
    [uninit_head] is the content of an uninitialised [struct encryption_head]
    on the stack. *)

Inductive alloc_site :=
| site_plaintext (index : Z)
| site_cryptotext (index : Z)
| site_ree_secure_params
| site_tee_secure_params
| site_root_key
| site_smc_cmd
| site_token_buffer.

Class KernelAlloc := {
  kzalloc_ok : alloc_site → bool;
  uninit_head : list Z
}.

Class Current := {
  current_tgid : Z;
  current_pid : Z;
  current_uid : Z;
  current_mm : bool
}.

(** ** Field updates of the call's records *)

Definition op_with_cmd (o : tc_op_params) (c : tc_ns_smc_cmd) : tc_op_params :=
  OpParams (mb_pack o) (mb_operation o) c (local_tmpbuf o) (trans_paramtype o)
    (op_inited o).

Definition op_with_operation (o : tc_op_params) (x : tc_ns_operation) : tc_op_params :=
  OpParams (mb_pack o) x (op_smc_cmd o) (local_tmpbuf o) (trans_paramtype o)
    (op_inited o).

Definition op_with_tmpbuf (o : tc_op_params) (i : nat) (buf size : Z) : tc_op_params :=
  OpParams (mb_pack o) (mb_operation o) (op_smc_cmd o)
    (<[i := (buf, size)]> (local_tmpbuf o)) (trans_paramtype o) (op_inited o).

Definition op_with_trans (o : tc_op_params) (i : nat) (ty : Z) : tc_op_params :=
  OpParams (mb_pack o) (mb_operation o) (op_smc_cmd o) (local_tmpbuf o)
    (<[i := ty]> (trans_paramtype o)) (op_inited o).

Definition op_set_inited (o : tc_op_params) : tc_op_params :=
  OpParams (mb_pack o) (mb_operation o) (op_smc_cmd o) (local_tmpbuf o)
    (trans_paramtype o) true.

Definition call_with_context (c : tc_call_params) (x : tc_ns_client_context)
    : tc_call_params :=
  CallParams (call_dev c) x (call_sess c) (call_flags c).
