(* ===== verification/Auth.v ===== *)
(** * Tokens, timestamps and encryption (auth/security_auth_enhance.c)

    The CONFIG_AUTH_ENHANCE layer: the 42-byte session token with its
    scrambled timestamp, the scrambling of the command block, the encryption
    of login data and of the session's secure parameters.  Byte buffers are
    lists; a pointer that the code tests for NULL is an [option]. *)

From stdpp Require Import base gmap list.
From Stdlib Require Import ZArith Lia.
From S2P Require Import Prelude KernelApi TeeTypes Buffers Mailbox SessReg CallTypes.

Definition INC : Z := 1.
Definition DEC : Z := 0.
Definition UN_SYNCED : Z := 0x55.
Definition IS_SYNCED : Z := 0xaa.
Definition ENCRYPT : Z := 1.
Definition DECRYPT : Z := 0.
Definition SCRAMBLING_KEY_LEN : Z := 4.
Definition TIMESTAMP_BUFFER_INDEX : Z := 32.
Definition KERNAL_API_INDEX : Z := 40.
Definition SYNC_INDEX : Z := 41.
Definition TIMESTAMP_LEN_DEFAULT : Z := KERNAL_API_INDEX - TIMESTAMP_BUFFER_INDEX.
Definition KERNAL_API_LEN : Z := TOKEN_BUFFER_LEN - KERNAL_API_INDEX.
Definition TIMESTAMP_SAVE_INDEX : Z := 16.
Definition SCRAMBLING_OPERATION : nat := 1.
Definition INVALID_TZMP_UID : Z := 0xffffffff.
Definition UINT64_MAX : Z := 0xFFFFFFFFFFFFFFFF.
Definition AES_LOGIN_MAXLEN : Z := 1024.
Definition CIPHER_BLOCK_BYTESIZE : Z := 16.
Definition ENCRYPTION_HEAD_LEN : Z := 20.
Definition SECURE_PARAMS_STRUCT_LEN : Z := 80.
Definition ROOT_KEY_BUF_LEN : Z := 100.

(** ** The timestamp in a token *)

Definition is_token_empty (token : option (list Z)) (token_len : Z) : bool :=
  match token with
  | None => true
  | Some t => forallb (λ b, b =? 0) (sub_buf t 0 token_len)
  end.

(** The bytes of [secure_info->scrambling]. *)
Definition scrambling_bytes (i : session_secure_info) : list Z :=
  mjoin (le_bytes 4 <$> scrambling i).

Fixpoint xor_loop (i : nat) (inp : list Z) (key : list Z) (key_len : Z) : list Z :=
  match inp with
  | [] => []
  | b :: inp =>
      Z.lxor b (nth (Z.to_nat (Z.of_nat i mod key_len)) key 0)
        :: xor_loop (S i) inp key key_len
  end.

(** Status and the bytes written to [out]. *)
Definition scrambling_timestamp (inp : option (list Z)) (data_len : Z)
    (key : option (list Z)) (key_len : Z) : Z * list Z :=
  match inp, key with
  | Some inp, Some key =>
      if (data_len =? 0) || (SECUREC_MEM_MAX_LEN <? data_len)
         || (SECUREC_MEM_MAX_LEN <? key_len) || (key_len =? 0)
      then (- EFAULT, [])
      else (EOK, xor_loop 0 (sub_buf inp 0 data_len) key key_len)
  | _, _ => (- EFAULT, [])
  end.

Definition change_time_stamp (flag time_stamp : Z) : Z * Z :=
  if flag =? INC then
    if time_stamp <? UINT64_MAX then (EOK, time_stamp + 1) else (- EFAULT, time_stamp)
  else if flag =? DEC then
    if 0 <? time_stamp then (EOK, time_stamp - 1) else (- EFAULT, time_stamp)
  else (- EFAULT, time_stamp).

Definition descrambling_timestamp (in_token_buf : option (list Z))
    (info : option session_secure_info) (flag : Z) : Z * option (list Z) :=
  match in_token_buf, info with
  | Some t, Some i =>
      let '(r, ts) := scrambling_timestamp (Some (drop 32 t)) TIMESTAMP_LEN_DEFAULT
                        (Some (scrambling_bytes i)) SCRAMBLING_KEY_LEN in
      if nonzero r then (- EFAULT, in_token_buf)
      else
        let '(ret, time_stamp) := change_time_stamp flag (le_value ts) in
        if nonzero ret then (ret, in_token_buf)
        else
          let '(r, ts) := scrambling_timestamp (Some (le_bytes 8 time_stamp))
                            TIMESTAMP_LEN_DEFAULT (Some (scrambling_bytes i))
                            SCRAMBLING_KEY_LEN in
          if nonzero r then (- EFAULT, in_token_buf)
          else (EOK, Some (splice t TIMESTAMP_BUFFER_INDEX ts))
  | _, _ => (- EINVAL, in_token_buf)
  end.

(** [&session->secure_info] of a session address. *)
Definition session_info (R : registry) (session : Z) : outcome session_secure_info :=
  s ← at_index (g_sessions R) session; Ret (secure_info s).

Section Token.
Context {P : PageMap} {F : PhysMap}.

(** Increment the timestamp of the token an invoke command carries.  The token
    is in memory at the command's [token_phys]. *)
Definition update_timestamp (R : registry) (m : mem) (cmd : tc_ns_smc_cmd)
    : outcome (registry * mem * Z) :=
  if cmd_type cmd =? CMD_TYPE_TA then
    let a := phys_to_virt (phys_join (token_h_phys cmd) (token_phys cmd)) in
    let token := if a =? 0 then None
                 else Some (load_bytes m a (Z.to_nat TOKEN_BUFFER_LEN)) in
    if is_token_empty token TOKEN_BUFFER_LEN then Ret (R, m, - EFAULT)
    else
      '(R, session) ← tc_find_session_by_uuid R (dev_file_id cmd) cmd;
      if session =? 0 then Ret (R, m, - EFAULT)
      else
        info ← session_info R session;
        let '(r, token) := descrambling_timestamp token (Some info) INC in
        R ← put_session_struct R session;
        if nonzero r then Ret (R, m, - EFAULT)
        else
          let t := default [] token in
          Ret (R, store_bytes m a (splice t SYNC_INDEX [UN_SYNCED]), EOK)
  else Ret (R, m, EOK).

Definition sync_timestamp (R : registry) (cmd : tc_ns_smc_cmd)
    (token : option (list Z)) (tlen : Z) (is_global : bool)
    : outcome (registry * option (list Z) * Z) :=
  match token with
  | None => Ret (R, token, - EFAULT)
  | Some t =>
      if tlen <=? SYNC_INDEX then Ret (R, token, - EFAULT)
      else if (cmd_id cmd =? GLOBAL_CMD_ID_OPEN_SESSION) && is_global
      then Ret (R, token, EOK)
      else
        let sync := nth (Z.to_nat SYNC_INDEX) t 0 in
        if sync =? UN_SYNCED then
          '(R, session) ← tc_find_session_by_uuid R (dev_file_id cmd) cmd;
          if session =? 0 then Ret (R, token, - EFAULT)
          else
            info ← session_info R session;
            let '(r, token) := descrambling_timestamp token (Some info) DEC in
            R ← put_session_struct R session;
            if nonzero r then Ret (R, token, - EFAULT) else Ret (R, token, EOK)
        else if sync =? IS_SYNCED then Ret (R, token, EOK)
        else Ret (R, token, - EFAULT)
  end.

(** ** Scrambling of the command block *)

Definition with_operation (c : tc_ns_smc_cmd) (lo hi : Z) : tc_ns_smc_cmd :=
  SmcCmd (uuid c) (cmd_type c) (cmd_id c) (dev_file_id c) (context_id c) (agent_id c)
    lo hi (login_method c) (login_data_phy c) (login_data_h_addr c)
    (login_data_len c) (err_origin c) (ret_val c) (event_nr c) (uid c) (ca_pid c)
    (token_phys c) (token_h_phys c) (pid c) (params_phys c) (params_h_phys c)
    (eventindex c) (started c).

Definition with_pid (c : tc_ns_smc_cmd) (x : Z) : tc_ns_smc_cmd :=
  SmcCmd (uuid c) (cmd_type c) (cmd_id c) (dev_file_id c) (context_id c) (agent_id c)
    (operation_phys c) (operation_h_phys c) (login_method c) (login_data_phy c)
    (login_data_h_addr c) (login_data_len c) (err_origin c) (ret_val c) (event_nr c)
    (uid c) (ca_pid c) (token_phys c) (token_h_phys c) x (params_phys c)
    (params_h_phys c) (eventindex c) (started c).

Definition scrambling_operation (cmd : tc_ns_smc_cmd) (scrambler : Z) : tc_ns_smc_cmd :=
  let cmd :=
    if nonzero (operation_phys cmd) || nonzero (operation_h_phys cmd)
    then with_operation cmd (Z.lxor (operation_phys cmd) scrambler)
           (Z.lxor (operation_h_phys cmd) scrambler)
    else cmd in
  with_pid cmd (Z.lxor (pid cmd) scrambler).

Definition update_chksum (R : registry) (cmd : tc_ns_smc_cmd)
    : outcome (registry * tc_ns_smc_cmd * Z) :=
  if cmd_type cmd =? CMD_TYPE_TA then
    '(R, session) ← tc_find_session_by_uuid R (dev_file_id cmd) cmd;
    if session =? 0 then Ret (R, cmd, EOK)
    else
      info ← session_info R session;
      let cmd := scrambling_operation cmd (nth SCRAMBLING_OPERATION (scrambling info) 0) in
      R ← put_session_struct R session;
      Ret (R, cmd, EOK)
  else Ret (R, cmd, EOK).

Definition verify_chksum (R : registry) (cmd : tc_ns_smc_cmd) : outcome (registry * Z) :=
  if cmd_type cmd =? CMD_TYPE_TA then
    '(R, session) ← tc_find_session_by_uuid R (dev_file_id cmd) cmd;
    R ← put_session_struct R session;
    Ret (R, EOK)
  else Ret (R, EOK).

End Token.

(** ** Random data *)

Section Cipher.
Context {SB : SecureBuf} {KR : KernelRandom} {KC : KernelCipher}.

Definition check_random_data (data : list Z) (size : Z) : Z :=
  if forallb (λ b, b =? 0) (sub_buf data 0 size) then - 1 else 0.

(** Fill [size] bytes at [off] of [data]. *)
Definition generate_random_data (data : option (list Z)) (off size : Z)
    : Z * option (list Z) :=
  match data with
  | None => (- EFAULT, data)
  | Some d =>
      if size =? 0 then (- EFAULT, data)
      else
        let '(r, d) := buf_set d off size 0 size in
        if nonzero r then (- EFAULT, Some d)
        else
          let d := splice d off (get_random_bytes_arch size) in
          if check_random_data (sub_buf d off size) size =? 0 then (0, Some d)
          else
            let d := splice d off (get_random_bytes size) in
            if nonzero (check_random_data (sub_buf d off size) size)
            then (- EFAULT, Some d) else (0, Some d)
  end.

Definition generate_challenge_word (word : option (list Z)) (size : Z)
    : Z * option (list Z) :=
  match word with None => (- EINVAL, word) | Some _ => generate_random_data word 0 size end.

(** ** Encryption sizes *)

Definition is_opensession_by_index (flags cmd index : Z) : bool :=
  nonzero (Z.land flags TC_CALL_GLOBAL) && (2 <=? index)
  && (cmd =? GLOBAL_CMD_ID_OPEN_SESSION).

(** [round_up(x, y)] of linux/kernel.h on [uint32_t], [y] a power of two. *)
Definition round_up (x y : Z) : Z := u32 (Z.lor (u32 (x - 1)) (y - 1) + 1).

Definition is_valid_size (buffer_size temp_size : Z) : bool :=
  if AES_LOGIN_MAXLEN <? buffer_size then false
  else if round_up buffer_size SZ_4K <? temp_size then false
  else true.

(** Status, [plaintext_size], [plaintext_aligned_size], [total_size]. *)
Definition calc_plaintext_size (payload_size buffer_size : Z) : Z * (Z * Z * Z) :=
  let plaintext_size := u32 (payload_size + ENCRYPTION_HEAD_LEN) in
  let aligned := round_up plaintext_size CIPHER_BLOCK_BYTESIZE in
  let total := u32 (aligned + IV_BYTESIZE) in
  (if buffer_size <? total then - ENOMEM else 0, (plaintext_size, aligned, total)).

(** ** Head and padding *)

(** "Trusted-magic" and its terminating null byte. *)
Definition MAGIC_STRING : list Z :=
  [84; 114; 117; 115; 116; 101; 100; 45; 109; 97; 103; 105; 99; 0].

(** [struct encryption_head] as its 20 bytes; [strncpy_s] with a count of the
    string's length plus one copies the string and its null byte. *)
Definition set_encryption_head (head : option (list Z)) (len : Z) : Z * option (list Z) :=
  match head with
  | None => (- EINVAL, head)
  | Some h =>
      if len =? 0 then (- EINVAL, head)
      else
        let '(r, h) := buf_copy h 0 16 MAGIC_STRING 0 14 in
        if nonzero r then (- EFAULT, Some h)
        else (0, Some (splice h 16 (le_bytes 4 len)))
  end.

Definition crypto_aescbc_cms_padding (plaintext : option (list Z))
    (plaintext_len payload_len : Z) : Z * option (list Z) :=
  match plaintext with
  | None => (- EINVAL, plaintext)
  | Some p =>
      if (plaintext_len =? 0) || nonzero (plaintext_len mod CIPHER_BLOCK_BYTESIZE)
         || (plaintext_len <? payload_len)
      then (- EINVAL, plaintext)
      else
        let padding_len := plaintext_len - payload_len in
        if CIPHER_BLOCK_BYTESIZE <=? padding_len then (- EINVAL, plaintext)
        else if padding_len =? 0 then (0, plaintext)
        else
          let '(r, p) := buf_set p payload_len padding_len (u8 padding_len) padding_len in
          if nonzero r then (- EFAULT, Some p) else (0, Some p)
  end.

(** ** AES-CBC *)

(** Status and the bytes written to the output. *)
Definition crypto_aescbc_key256 (input v k : list Z) (size encrypto_type : Z)
    : Z * option (list Z) :=
  if negb crypto_alloc_skcipher then (- EFAULT, None)
  else if negb skcipher_request_alloc then (- ENOMEM, None)
  else if nonzero (crypto_skcipher_setkey k) then (- EFAULT, None)
  else
    let '(r, temp_iv) := buf_copy (replicate 16 0) 0 IV_BYTESIZE v 0 IV_BYTESIZE in
    if nonzero r then (- EFAULT, None)
    else
      let '(ret, out) := skcipher_crypt (nonzero encrypto_type) k temp_iv
                           (sub_buf input 0 size) in
      (ret, Some out).

Definition check_params_for_crypto_session (inp out : option (list Z))
    (k : option (list Z)) (in_len out_len : Z) : Z :=
  match inp, out, k with
  | Some _, Some _, Some _ =>
      if (in_len <? IV_BYTESIZE) || (out_len <? IV_BYTESIZE) then - EINVAL else 0
  | _, _, _ => - EINVAL
  end.

(** Returns the status and the new [out].  Without an [iv] argument the vector
    is at the end of the cryptotext buffer. *)
Definition crypto_session_aescbc_key256 (inp : option (list Z)) (in_len : Z)
    (out : option (list Z)) (out_len : Z) (k iv_arg : option (list Z)) (mode : Z)
    : Z * option (list Z) :=
  let ret := check_params_for_crypto_session inp out k in_len out_len in
  if nonzero ret then (ret, out)
  else if negb ((mode =? ENCRYPT) || (mode =? DECRYPT)) then (- EINVAL, out)
  else
    let i := default [] inp in
    let o := default [] out in
    let '(src_len, dest_len) :=
      match iv_arg with
      | Some _ => (in_len, out_len)
      | None => if mode =? ENCRYPT then (in_len, out_len - IV_BYTESIZE)
                else (in_len - IV_BYTESIZE, out_len)
      end in
    if negb (src_len =? dest_len) || (src_len =? 0)
       || nonzero (src_len mod CIPHER_BLOCK_BYTESIZE)
    then (- EINVAL, out)
    else
      let '(r, o) :=
        match iv_arg with
        | Some _ => (0, o)
        | None => if mode =? ENCRYPT
                  then let '(r, o') := generate_random_data (Some o) dest_len IV_BYTESIZE in
                       (r, default o o')
                  else (0, o)
        end in
      if nonzero r then (r, Some o)
      else
        let v := match iv_arg with
                 | Some v => v
                 | None => if mode =? ENCRYPT then sub_buf o dest_len IV_BYTESIZE
                           else sub_buf i src_len IV_BYTESIZE
                 end in
        let '(ret, text) := crypto_aescbc_key256 i v (default [] k) src_len mode in
        (ret, Some (match text with Some t => splice o 0 t | None => o end)).

End Cipher.
