(* ===== verification/AuthCall.v ===== *)
(** * Tokens and encryption inside a client call (auth/security_auth_enhance.c)

    The routines that work on the call's session, context and mailbox pack:
    encryption of login data, loading and saving the session token, fetching
    the session's secure parameters from the TEE, the root key. *)

From stdpp Require Import base gmap list.
From Stdlib Require Import ZArith Lia.
From S2P Require Import Prelude KernelApi TeeTypes Buffers Mailbox MailboxClaims SessReg.
From S2P Require Import CallTypes Auth.

Section AuthCall.
Context {P : PageMap} {SB : SecureBuf} {CM : ClientMem}.
Context {KR : KernelRandom} {KC : KernelCipher} {KA : KernelAlloc} {CU : Current}.

(** ** Encryption of a buffer in place *)

(** The plaintext copy; [None] when the call fails. *)
Definition check_param_for_encryption (site : alloc_site) (buffer : option (list Z))
    (buffer_size : Z) (k : option (list Z)) : Z * option (list Z) :=
  match buffer, k with
  | Some b, Some _ =>
      if buffer_size =? 0 then (- EINVAL, None)
      else if negb (kzalloc_ok site) then (- ENOMEM, None)
      else
        let '(r, p) := buf_copy (replicate (Z.to_nat buffer_size) 0) 0 buffer_size
                         b 0 buffer_size in
        if nonzero r then (- EINVAL, None) else (0, Some p)
  | _, _ => (- EINVAL, None)
  end.

(** Status and the new contents of [buffer]. *)
Definition do_encryption (index : Z) (buffer : option (list Z))
    (buffer_size payload_size : Z) (k : option (list Z)) : Z * option (list Z) :=
  let '(r, plaintext) := check_param_for_encryption (site_plaintext index) buffer
                           buffer_size k in
  if nonzero r then (- EINVAL, buffer)
  else
    let plaintext := default [] plaintext in
    let '(ret, (pt_size, pta_size, total_size)) :=
      calc_plaintext_size payload_size buffer_size in
    if nonzero ret then (ret, buffer)
    else if negb (kzalloc_ok (site_cryptotext index)) then (- ENOMEM, buffer)
    else
      let '(ret, head) := set_encryption_head (Some uninit_head) payload_size in
      if nonzero ret then (ret, buffer)
      else
        let '(ret, plaintext) :=
          buf_copy plaintext payload_size (u32 (buffer_size - payload_size))
            (default [] head) 0 ENCRYPTION_HEAD_LEN in
        if nonzero ret then (ret, buffer)
        else
          let '(ret, plaintext) :=
            crypto_aescbc_cms_padding (Some plaintext) pta_size pt_size in
          if nonzero ret then (ret, buffer)
          else
            let '(ret, cryptotext) :=
              crypto_session_aescbc_key256 plaintext pta_size
                (Some (replicate (Z.to_nat total_size) 0)) total_size k None ENCRYPT in
            if nonzero ret then (ret, buffer)
            else
              let '(ret, b) := buf_copy (default [] buffer) 0 buffer_size
                                 (default [] cryptotext) 0 total_size in
              (ret, Some b).

(** The size of the encrypted login data for a payload. *)
Definition login_total_size (login_info_size : Z) : Z :=
  let payload_size := u32 (login_info_size + 1) in
  let plaintext_size := u32 (payload_size + ENCRYPTION_HEAD_LEN) in
  u32 (round_up plaintext_size CIPHER_BLOCK_BYTESIZE + IV_BYTESIZE).

(** [buffer] is the address of a mailbox block. *)
Definition encrypt_login_info (index : Z) (m : mem) (login_info_size buffer : Z)
    (k : option (list Z)) : Z * mem :=
  match k with
  | None => (- EINVAL, m)
  | Some _ =>
      if buffer =? 0 then (- EINVAL, m)
      else
        let total_size := login_total_size login_info_size in
        if negb (is_valid_size login_info_size total_size) then (- EFAULT, m)
        else
          let old := load_bytes m buffer (Z.to_nat total_size) in
          let '(ret, b) := do_encryption index (Some old) total_size
                             (u32 (login_info_size + 1)) k in
          (ret, store_bytes m buffer (default [] b))
  end.

(** Status and the bytes written at [enc_secure_params]. *)
Definition generate_encrypted_session_secure_params (info : session_secure_info)
    (enc_secure_params : list Z) (enc_params_size : Z) : Z * list Z :=
  let secure_aligned_size := SECURE_PARAMS_STRUCT_LEN in
  let params_size := secure_aligned_size + IV_BYTESIZE in
  if enc_params_size <? params_size then (- EINVAL, enc_secure_params)
  else if negb (kzalloc_ok site_ree_secure_params) then (- ENOMEM, enc_secure_params)
  else
    let ree := splice (replicate (Z.to_nat secure_aligned_size) 0) ENCRYPTION_HEAD_LEN
                 (le_bytes 4 (challenge_word info)) in
    let '(ret, head) := set_encryption_head (Some (sub_buf ree 0 ENCRYPTION_HEAD_LEN)) 60 in
    let ree := splice ree 0 (default [] head) in
    if nonzero ret then (- EINVAL, enc_secure_params)
    else
      let '(ret, ree) := crypto_aescbc_cms_padding (Some ree) secure_aligned_size
                           SECURE_PARAMS_STRUCT_LEN in
      if nonzero ret then (- EINVAL, enc_secure_params)
      else
        let '(ret, out) :=
          crypto_session_aescbc_key256 ree secure_aligned_size (Some enc_secure_params)
            params_size (Some (key (crypto_info info))) None ENCRYPT in
        (if nonzero ret then - EINVAL else 0, default [] out).

(** ** The session token *)

(** Returns the new memory and the new session token. *)
Definition save_token_info (m : mem) (dst_teec dst_size : Z) (src_buf : option (list Z))
    (src_size api : Z) : mem * option (list Z) * Z :=
  match src_buf with
  | None => (m, src_buf, - EINVAL)
  | Some src =>
      if (dst_teec =? 0) || negb (dst_size =? TOKEN_SAVE_LEN) || (src_size =? 0)
      then (m, src_buf, - EINVAL)
      else
        let '(r, temp) := buf_copy (replicate 24 0) 0 TOKEN_SAVE_LEN src 0
                            TIMESTAMP_SAVE_INDEX in
        if nonzero r then (m, src_buf, - EFAULT)
        else
          let '(r, temp) := buf_copy temp TIMESTAMP_SAVE_INDEX TIMESTAMP_LEN_DEFAULT
                              src TIMESTAMP_BUFFER_INDEX TIMESTAMP_LEN_DEFAULT in
          if nonzero r then (m, src_buf, - EFAULT)
          else
            let '(r, m) := write_to_client m dst_teec dst_size (Some temp)
                             TOKEN_SAVE_LEN api in
            if nonzero r then (m, src_buf, - EFAULT)
            else
              let '(r, src) := buf_set src 0 TIMESTAMP_SAVE_INDEX 0 TIMESTAMP_SAVE_INDEX in
              (m, Some src, if nonzero r then - EFAULT else 0)
  end.

(** The two bytes at [&dev->kernel_api]: [kernel_api] and the member after it. *)
Definition kernel_api_bytes (d : tc_ns_dev_file) : list Z :=
  [u8 (kernel_api d); if login_setup d then 1 else 0].

Definition combine_temp_token (m : mem) (d : tc_ns_dev_file)
    (context : tc_ns_client_context) (token : list Z) (tlen : Z) : list Z * Z :=
  let '(r, temp) := read_from_client m 1 TOKEN_SAVE_LEN (ctx_teec_token context)
                      TOKEN_SAVE_LEN (kernel_api d) in
  if nonzero r then (token, - EFAULT)
  else if negb (bool_decide (sub_buf temp TIMESTAMP_SAVE_INDEX TIMESTAMP_LEN_DEFAULT
                  = sub_buf token TIMESTAMP_BUFFER_INDEX TIMESTAMP_LEN_DEFAULT))
  then (token, - EFAULT)
  else
    let '(r, token) := buf_copy token 0 TIMESTAMP_SAVE_INDEX temp 0 TIMESTAMP_SAVE_INDEX in
    if nonzero r
    then ((buf_set token 0 tlen 0 TOKEN_BUFFER_LEN).2, - EFAULT)
    else
      let '(r, token) := buf_copy token KERNAL_API_INDEX KERNAL_API_LEN
                           (kernel_api_bytes d) 0 KERNAL_API_LEN in
      if nonzero r
      then ((buf_set token 0 tlen 0 TOKEN_BUFFER_LEN).2, - EFAULT)
      else (token, 0).

(** The session's token; [None] for a missing session or token buffer. *)
Definition call_token (R : registry) (call : tc_call_params)
    : outcome (option (tc_ns_session * list Z)) :=
  if call_sess call =? 0 then Ret None
  else
    s ← at_index (g_sessions R) (call_sess call);
    Ret (match token_buffer (teec_token s) with
         | Some t => Some (s, t)
         | None => None
         end).

Definition set_token (R : registry) (call : tc_call_params) (s : tc_ns_session)
    (t : list Z) : registry :=
  upd_session R (call_sess call)
    (with_token s (Token (Some t) (token_len (teec_token s)))).

Definition cmd_with_token (c : tc_ns_smc_cmd) (lo hi tgid : Z) : tc_ns_smc_cmd :=
  SmcCmd (uuid c) (cmd_type c) (cmd_id c) (dev_file_id c) (context_id c) (agent_id c)
    (operation_phys c) (operation_h_phys c) (login_method c) (login_data_phy c)
    (login_data_h_addr c) (login_data_len c) (err_origin c) (ret_val c) (event_nr c)
    (uid c) (ca_pid c) lo hi tgid (params_phys c) (params_h_phys c)
    (eventindex c) (started c).

Definition cmd_with_params (c : tc_ns_smc_cmd) (lo hi : Z) : tc_ns_smc_cmd :=
  SmcCmd (uuid c) (cmd_type c) (cmd_id c) (dev_file_id c) (context_id c) (agent_id c)
    (operation_phys c) (operation_h_phys c) (login_method c) (login_data_phy c)
    (login_data_h_addr c) (login_data_len c) (err_origin c) (ret_val c) (event_nr c)
    (uid c) (ca_pid c) (token_phys c) (token_h_phys c) (pid c) lo hi
    (eventindex c) (started c).

(** [memcpy_s(mb_pack->token, TOKEN_BUFFER_LEN, token_buffer, token_len)]: the
    new contents of [mb_pack->token]. *)
Definition copy_to_pack (m : mem) (pack : Z) (t : list Z) (tlen : Z) : Z * mem :=
  let old := load_bytes m (pack_token pack) (Z.to_nat TOKEN_BUFFER_LEN) in
  let '(r, b) := buf_copy old 0 TOKEN_BUFFER_LEN t 0 tlen in
  (r, store_bytes m (pack_token pack) b).

Definition fill_token_info (m : mem) (R : registry) (call : tc_call_params)
    (op : tc_op_params) (is_global : bool)
    : outcome (mem * registry * tc_op_params * Z) :=
  tok ← call_token R call;
  let context := call_context call in
  match tok with
  | None => Ret (m, R, op, - EINVAL)
  | Some (s, t) =>
      if ctx_teec_token context =? 0 then Ret (m, R, op, - EINVAL)
      else
        d ← at_index (g_devs R) (call_dev call);
        let tlen := token_len (teec_token s) in
        let '(t, r) :=
          if (ctx_cmd_id context =? GLOBAL_CMD_ID_CLOSE_SESSION) || negb is_global
          then combine_temp_token m d context t tlen
          else let '(r, t) := buf_set t 0 tlen 0 TOKEN_BUFFER_LEN in (t, r) in
        let R := set_token R call s t in
        if nonzero r then Ret (m, R, op, - EFAULT)
        else
          let '(r, m) := copy_to_pack m (mb_pack op) t tlen in
          if nonzero r then Ret (m, R, op, - EFAULT)
          else
            let a := pack_token (mb_pack op) in
            Ret (m, R, op_with_cmd op (cmd_with_token (op_smc_cmd op) (phys_lo a)
                                         (phys_hi a) current_tgid), 0)
  end.

Definition is_token_work (is_global : bool) (cmd : tc_ns_smc_cmd) : bool :=
  negb is_global || (cmd_id cmd =? GLOBAL_CMD_ID_OPEN_SESSION).

Definition is_load_info_params_valid (call : tc_call_params) (op : tc_op_params) : bool :=
  nonzero (call_dev call) && nonzero (mb_pack op).

Definition load_security_enhance_info (m : mem) (R : registry) (call : tc_call_params)
    (op : tc_op_params) : outcome (mem * registry * tc_op_params * Z) :=
  let is_global := is_global_call call in
  if negb (is_token_work is_global (op_smc_cmd op)) then Ret (m, R, op, 0)
  else if negb (is_load_info_params_valid call op) then Ret (m, R, op, - EFAULT)
  else
    '(m, R, op, ret) ← fill_token_info m R call op is_global;
    if nonzero ret then Ret (m, R, op, - EFAULT)
    else if negb (is_global && (cmd_id (op_smc_cmd op) =? GLOBAL_CMD_ID_OPEN_SESSION))
    then Ret (m, R, op, 0)
    else if call_sess call =? 0 then Ret (m, R, op, - EFAULT)
    else
      s ← at_index (g_sessions R) (call_sess call);
      let a := pack_secure_params (mb_pack op) in
      let old := load_bytes m a (Z.to_nat SECURE_PARAMS_LEN) in
      let '(ret, b) := generate_encrypted_session_secure_params (secure_info s) old
                         SECURE_PARAMS_LEN in
      let m := store_bytes m a b in
      if nonzero ret then Ret (m, R, op, - EFAULT)
      else Ret (m, R, op_with_cmd op (cmd_with_params (op_smc_cmd op) (phys_lo a)
                                        (phys_hi a)), 0).

Definition is_token_params_valid (call : tc_call_params) (op : tc_op_params) : bool :=
  nonzero (call_dev call) && nonzero (ctx_teec_token (call_context call))
  && nonzero (mb_pack op).

Definition append_teec_token (m : mem) (R : registry) (call : tc_call_params)
    (op : tc_op_params) : outcome (mem * registry * Z) :=
  if is_global_call call then Ret (m, R, 0)
  else if negb (is_token_params_valid call op) then Ret (m, R, - EINVAL)
  else
    tok ← call_token R call;
    match tok with
    | None => Ret (m, R, - EINVAL)
    | Some (s, t) =>
        d ← at_index (g_devs R) (call_dev call);
        let tlen := token_len (teec_token s) in
        let '(r, temp) :=
          read_from_client m 1 TOKEN_SAVE_LEN (ctx_teec_token (call_context call))
            TOKEN_SAVE_LEN (kernel_api d) in
        if nonzero r then Ret (m, R, - EFAULT)
        else
          let '(r, t) := buf_copy t 0 tlen temp 0 TIMESTAMP_SAVE_INDEX in
          if nonzero r
          then Ret (m, set_token R call s (buf_set t 0 tlen 0 TOKEN_BUFFER_LEN).2, - EFAULT)
          else
            let R := set_token R call s t in
            let '(r, m) := copy_to_pack m (mb_pack op) t tlen in
            Ret (m, R, if nonzero r then - EFAULT else 0)
    end.

Definition post_process_token (m : mem) (R : registry) (call : tc_call_params)
    (op : tc_op_params) : outcome (mem * registry * Z) :=
  let is_global := is_global_call call in
  if negb (is_token_work is_global (op_smc_cmd op)) then Ret (m, R, 0)
  else if negb (is_token_params_valid call op) then Ret (m, R, - EINVAL)
  else
    tok ← call_token R call;
    match tok with
    | None => Ret (m, R, - EINVAL)
    | Some (s, t) =>
        let tlen := token_len (teec_token s) in
        let a := pack_token (mb_pack op) in
        let packed := load_bytes m a (Z.to_nat TOKEN_BUFFER_LEN) in
        let '(r, t) := buf_copy t 0 tlen packed 0 TOKEN_BUFFER_LEN in
        let R := set_token R call s t in
        if nonzero r then Ret (m, R, - EFAULT)
        else
          let '(r, b) := buf_set packed 0 TOKEN_BUFFER_LEN 0 TOKEN_BUFFER_LEN in
          let m := store_bytes m a b in
          if nonzero r then Ret (m, R, - EFAULT)
          else
            '(R, t, r) ← sync_timestamp R (op_smc_cmd op) (Some t) tlen is_global;
            s ← at_index (g_sessions R) (call_sess call);
            let R := set_token R call s (default [] t) in
            if nonzero r then Ret (m, R, - EFAULT)
            else
              d ← at_index (g_devs R) (call_dev call);
              let '(m, t, r) :=
                save_token_info m (ctx_teec_token (call_context call))
                  (ctx_token_len (call_context call)) t tlen (kernel_api d) in
              let R := set_token R call s (default [] t) in
              Ret (m, R, if nonzero r then - EFAULT else 0)
    end.

(** ** The TZMP user id *)

(** The bytes of [TEE_TZMP] on a little-endian machine. *)
Definition uuid_tzmp : list Z :=
  le_bytes 4 0xf8028dca ++ le_bytes 2 0xaba0 ++ le_bytes 2 0x11e6
  ++ [0x80; 0xf5; 0x76; 0x30; 0x4d; 0xec; 0x7e; 0xb7].

Definition cmd_with_uid (c : tc_ns_smc_cmd) (x : Z) : tc_ns_smc_cmd :=
  SmcCmd (uuid c) (cmd_type c) (cmd_id c) (dev_file_id c) (context_id c) (agent_id c)
    (operation_phys c) (operation_h_phys c) (login_method c) (login_data_phy c)
    (login_data_h_addr c) (login_data_len c) (err_origin c) (ret_val c) (event_nr c)
    x (ca_pid c) (token_phys c) (token_h_phys c) (pid c) (params_phys c)
    (params_h_phys c) (eventindex c) (started c).

(** [g_tzmp_uid] before and after. *)
Definition tzmp2_uid (g_tzmp_uid : Z) (context : tc_ns_client_context)
    (cmd : tc_ns_smc_cmd) (is_global : bool) : Z * tc_ns_smc_cmd * Z :=
  if negb (bool_decide (ctx_uuid context = uuid_tzmp)) then (g_tzmp_uid, cmd, 0)
  else if (cmd_id cmd =? GLOBAL_CMD_ID_OPEN_SESSION) && is_global
  then (0, cmd_with_uid cmd 0, EOK)
  else if g_tzmp_uid =? INVALID_TZMP_UID then (g_tzmp_uid, cmd, - EFAULT)
  else (g_tzmp_uid, cmd_with_uid cmd g_tzmp_uid, 0).

(** ** Secure parameters of a session *)

Definition clean_session_secure_information (R : registry) (session : Z)
    : outcome registry :=
  if session =? 0 then Ret R
  else
    s ← at_index (g_sessions R) session;
    Ret (upd_session R session (with_secure_info s zero_secure_info)).

Definition is_valid_encryption_head (head : list Z) (len : Z) : bool :=
  if len =? 0 then false
  else bool_decide (sub_buf head 0 14 = MAGIC_STRING)
       && (le_value (sub_buf head 16 4) =? len).

(** [root_key] is [g_session_root_key->key]; the result is the session's new
    secure information. *)
Definition update_secure_params_from_tee (root_key : list Z) (info : session_secure_info)
    (ree_secure_params : list Z) (secure_aligned_size params_size : Z)
    : Z * session_secure_info :=
  let '(ret, tee) :=
    crypto_session_aescbc_key256 (Some ree_secure_params) params_size
      (Some (replicate (Z.to_nat secure_aligned_size) 0)) secure_aligned_size
      (Some root_key) None DECRYPT in
  if nonzero ret then (ret, info)
  else
    let tee := default [] tee in
    if negb (is_valid_encryption_head (sub_buf tee 0 ENCRYPTION_HEAD_LEN) 60)
    then (- EFAULT, info)
    else
      let payload := drop 20 tee in
      let word i := le_value (sub_buf payload (4 * i) 4) in
      (0, SecureInfo (challenge_word info) [word 0; word 1; word 2]
            (CryptoInfo (sub_buf payload 12 32) (sub_buf payload 44 16))).

(** ** The session root key *)

(** [buffer] is 4-byte aligned memory of [size] bytes; the key record is the 48
    bytes after the first word. *)
Definition get_session_root_key (g_root : option session_crypto_info) (buffer : Z)
    (content : list Z) (size : Z) : option session_crypto_info * Z :=
  if (buffer =? 0) || nonzero (Z.land buffer 3) then (g_root, - EFAULT)
  else if negb (size =? ROOT_KEY_BUF_LEN) then (g_root, - EFAULT)
  else if negb (kzalloc_ok site_root_key) then (None, - ENOMEM)
  else
    let '(r, b) := buf_copy (replicate 48 0) 0 48 content 4 48 in
    if nonzero r then (None, - EFAULT)
    else (Some (CryptoInfo (sub_buf b 0 32) (sub_buf b 32 16)), 0).

Definition free_root_key (g_root : option session_crypto_info)
    : option session_crypto_info := None.

End AuthCall.

(** ** Fetching the secure parameters from the TEE *)

Section SecureParams.
Context {St Env : Type} {BA : BlockAllocator St} {SMC : SmcChannel Env}.
Context {P : PageMap} {SB : SecureBuf} {KR : KernelRandom} {KC : KernelCipher}
        {KA : KernelAlloc} {CU : Current}.

Definition init_for_alloc_secure_params (info : session_secure_info)
    : Z * session_secure_info * (Z * Z) :=
  let '(r, w) := generate_challenge_word (Some (le_bytes 4 (challenge_word info))) 4 in
  let info := SecureInfo (le_value (default [] w)) (scrambling info) (crypto_info info) in
  if nonzero r then (r, info, (0, 0))
  else (0, info, (SECURE_PARAMS_STRUCT_LEN, SECURE_PARAMS_STRUCT_LEN + IV_BYTESIZE)).

(** Returns the status and the address of [ree_secure_params]. *)
Definition alloc_secure_params (s : St) (m : mem) (secure_aligned_size params_size : Z)
    : outcome (St * mem * Z * Z) :=
  if secure_aligned_size =? 0 then Ret (s, m, 0, - ENOMEM)
  else
    '(s, m, ree) ← ba_alloc s m params_size 0;
    if ree =? 0 then Ret (s, m, 0, - ENOMEM)
    else if negb (kzalloc_ok site_tee_secure_params)
    then s ← ba_free s ree; Ret (s, m, 0, - ENOMEM)
    else Ret (s, m, ree, 0).

Definition secure_params_cmd (u : list Z) (context : tc_ns_client_context) (dev_id ree : Z)
    : tc_ns_smc_cmd :=
  SmcCmd u CMD_TYPE_GLOBAL GLOBAL_CMD_ID_GET_SESSION_SECURE_PARAMS
    dev_id (ctx_session_id context) 0 0 0 0 0 0 0 TEEC_ORIGIN_COMMS 0 0 current_uid 0
    0 0 0 (phys_lo ree) (phys_hi ree) 0 (nonzero (ctx_started context)).

(** Returns the new [context->returns.origin] as well. *)
Definition send_smc_cmd_for_secure_params (e : Env) (m : mem)
    (context : tc_ns_client_context) (dev_id : Z) (info : session_secure_info) (ree : Z)
    : Env * mem * Z * Z :=
  let challenge := ree + ENCRYPTION_HEAD_LEN in
  let m := store_bytes m challenge (le_bytes 4 (challenge_word info)) in
  let '(r, u) := buf_copy (replicate 16 0) 0 UUID_LEN (ctx_uuid context) 0 UUID_LEN in
  if nonzero r then (e, m, returns_origin context, - EFAULT)
  else
    let '(e, m, _, cmd, r) :=
      tc_ns_smc e m zero_operation (secure_params_cmd u context dev_id ree) in
    if nonzero r then
      let m := store_bytes m challenge (le_bytes 4 0) in
      if negb (err_origin cmd =? TEEC_ORIGIN_COMMS)
      then (e, m, err_origin cmd, EPERM) else (e, m, returns_origin context, - EPERM)
    else (e, m, returns_origin context, 0).

(** The whole exchange; [g_root] is the key registered at start-up. *)
Definition get_session_secure_params (e : Env) (s : St) (m : mem) (R : registry)
    (g_root : session_crypto_info) (dev_file : Z) (context : tc_ns_client_context)
    (session : Z) : outcome (Env * St * mem * registry * tc_ns_client_context * Z) :=
  if (dev_file =? 0) || (session =? 0) then Ret (e, s, m, R, context, - EINVAL)
  else
    d ← at_index (g_devs R) dev_file;
    ses ← at_index (g_sessions R) session;
    let '(ret, info, (secure_aligned_size, params_size)) :=
      init_for_alloc_secure_params (secure_info ses) in
    let R := upd_session R session (with_secure_info ses info) in
    if nonzero ret then Ret (e, s, m, R, context, ret)
    else
      '(s, m, ree, ret) ← alloc_secure_params s m secure_aligned_size params_size;
      if nonzero ret then Ret (e, s, m, R, context, ret)
      else
        let '(e, m, origin, ret) :=
          send_smc_cmd_for_secure_params e m context (df_id d) info ree in
        let context := ctx_with_returns context (returns_code context) origin in
        let '(ret, info) :=
          if nonzero ret then (ret, info)
          else update_secure_params_from_tee (key g_root) info
                 (load_bytes m ree (Z.to_nat params_size)) secure_aligned_size
                 params_size in
        let R := upd_session R session (with_secure_info ses info) in
        s ← ba_free s ree;
        R ← (if nonzero ret then clean_session_secure_information R session else Ret R);
        Ret (e, s, m, R, context, ret).

End SecureParams.
