(* ===== verification/AuthThm.v ===== *)
(** * Properties of tokens and of the command scrambling

    The timestamp a token carries is read through [token_time]; incrementing,
    synchronising, saving and restoring a token are characterised on it. *)

From stdpp Require Import base gmap list.
From Stdlib Require Import ZArith Lia.
From S2P Require Import Prelude KernelApi TeeTypes Buffers Mailbox SessReg SessLookup.
From S2P Require Import CallTypes Auth.

(** ** Bytes and xor *)

Lemma lxor_byte a b : is_byte a → is_byte b → is_byte (Z.lxor a b).
Proof.
  unfold is_byte. intros Ha Hb. split; [apply Z.lxor_nonneg; lia|].
  destruct (decide (Z.lxor a b = 0)) as [->|Hn]; [lia|].
  change 256 with (2 ^ 8). apply Z.log2_lt_pow2.
  { assert (0 ≤ Z.lxor a b) by (apply Z.lxor_nonneg; lia). lia. }
  eapply Z.le_lt_trans; [apply Z.log2_lxor; lia|].
  assert (∀ x, 0 ≤ x < 256 → Z.log2 x < 8) as Hl.
  { intros x Hx. destruct (decide (x = 0)) as [->|]; [simpl; lia|].
    apply Z.log2_lt_pow2; lia. }
  apply Z.max_lub_lt; apply Hl; lia.
Qed.

Lemma xor_loop_length i l k n : length (xor_loop i l k n) = length l.
Proof. revert i. induction l; intros i; simpl; [done|]. by rewrite IHl. Qed.

Lemma xor_loop_involutive i l k n : xor_loop i (xor_loop i l k n) k n = l.
Proof.
  revert i. induction l as [|b l IH]; intros i; simpl; [done|].
  by rewrite IH, Z.lxor_assoc, Z.lxor_nilpotent, Z.lxor_0_r.
Qed.

Lemma xor_loop_bytes i l k n :
  Forall is_byte l → Forall is_byte k → Forall is_byte (xor_loop i l k n).
Proof.
  intros Hl Hk. revert i. induction Hl as [|b l Hb _ IH]; intros i; simpl; constructor.
  - apply lxor_byte; [done|].
    destruct (nth_in_or_default (Z.to_nat (Z.of_nat i mod n)) k 0) as [Hi| ->].
    + rewrite Forall_forall in Hk. apply Hk. by apply list_elem_of_In.
    + unfold is_byte; lia.
  - apply IH.
Qed.

(** ** Well-formed tokens *)

Definition token_ok (t : list Z) : Prop :=
  length t = Z.to_nat TOKEN_BUFFER_LEN ∧ Forall is_byte t.

(** The timestamp of a token, as the TEE reads it. *)
Definition token_time (i : session_secure_info) (t : list Z) : Z :=
  le_value (xor_loop 0 (sub_buf t 32 8) (scrambling_bytes i) 4).

(** The token with another timestamp. *)
Definition token_set_time (i : session_secure_info) (t : list Z) (x : Z) : list Z :=
  splice t 32 (xor_loop 0 (le_bytes 8 x) (scrambling_bytes i) 4).

Lemma scrambling_bytes_bytes i : Forall is_byte (scrambling_bytes i).
Proof.
  unfold scrambling_bytes. induction (scrambling i) as [|w l IH]; [constructor|].
  rewrite fmap_cons. change (Forall is_byte (le_bytes 4 w ++ mjoin (le_bytes 4 <$> l))). apply Forall_app.
  split; [apply le_bytes_are_bytes|apply IH].
Qed.

Lemma sub_buf_bytes t off n : Forall is_byte t → Forall is_byte (sub_buf t off n).
Proof. intros. unfold sub_buf. by apply Forall_take, Forall_drop. Qed.

Lemma token_time_bytes t i :
  token_ok t → length (xor_loop 0 (sub_buf t 32 8) (scrambling_bytes i) 4) = 8%nat ∧
  Forall is_byte (xor_loop 0 (sub_buf t 32 8) (scrambling_bytes i) 4).
Proof.
  intros [Hl Hb]. split.
  - rewrite xor_loop_length, sub_buf_length; try lia. unfold zlen. rewrite Hl.
    unfold TOKEN_BUFFER_LEN. lia.
  - apply xor_loop_bytes; [by apply sub_buf_bytes|apply scrambling_bytes_bytes].
Qed.

Lemma token_time_range i t : token_ok t → 0 ≤ token_time i t < 2 ^ 64.
Proof.
  intros Ht. destruct (token_time_bytes t i Ht) as [Hl Hb].
  pose proof (le_value_range _ Hb) as H. rewrite Hl in H. exact H.
Qed.

Lemma stamp_length i x :
  zlen (xor_loop 0 (le_bytes 8 x) (scrambling_bytes i) 4) = 8.
Proof. unfold zlen. by rewrite xor_loop_length, le_bytes_length. Qed.

Lemma splice_bytes t off s :
  Forall is_byte t → Forall is_byte s → Forall is_byte (splice t off s).
Proof.
  intros. unfold splice. rewrite !Forall_app.
  split; [by apply Forall_take|]. split; [done|by apply Forall_drop].
Qed.

Lemma token_zlen t : token_ok t → zlen t = 42.
Proof. intros [Hl _]. unfold zlen. rewrite Hl. done. Qed.

Lemma token_set_time_ok i t x : token_ok t → token_ok (token_set_time i t x).
Proof.
  intros Ht. pose proof (token_zlen _ Ht). destruct Ht as [Hl Hb]. split.
  - unfold token_set_time. rewrite splice_length; [done|lia|].
    rewrite stamp_length. lia.
  - apply splice_bytes; [done|]. apply xor_loop_bytes; [apply le_bytes_are_bytes|].
    apply scrambling_bytes_bytes.
Qed.

Lemma token_time_set i t x :
  token_ok t → 0 ≤ x < 2 ^ 64 → token_time i (token_set_time i t x) = x.
Proof.
  intros Ht Hx. unfold token_time, token_set_time.
  pose proof (token_zlen _ Ht).
  set (s := xor_loop 0 (le_bytes 8 x) (scrambling_bytes i) 4).
  assert (zlen s = 8) as E by apply stamp_length.
  rewrite <- E at 1. rewrite sub_buf_splice_same by lia.
  unfold s. rewrite xor_loop_involutive. apply le_value_bytes. exact Hx.
Qed.

Lemma token_set_time_same i t : token_ok t → token_set_time i t (token_time i t) = t.
Proof.
  intros Ht. unfold token_set_time, token_time. pose proof (token_zlen _ Ht).
  destruct (token_time_bytes t i Ht) as [Hl Hb].
  rewrite <- Hl at 1. rewrite le_bytes_value by done.
  rewrite xor_loop_involutive. apply splice_sub_buf; lia.
Qed.

Lemma token_set_time_twice i t x y :
  token_ok t → token_set_time i (token_set_time i t x) y = token_set_time i t y.
Proof.
  intros Ht. unfold token_set_time. pose proof (token_zlen _ Ht).
  apply splice_splice; rewrite ?stamp_length; lia.
Qed.

(** ** The timestamp operation *)

(** What one operation does to the timestamp; [None] when it is refused. *)
Definition time_step (flag x : Z) : option Z :=
  if flag =? INC then if x =? UINT64_MAX then None else Some (x + 1)
  else if flag =? DEC then if x =? 0 then None else Some (x - 1)
  else None.

Lemma change_time_stamp_step flag x :
  0 ≤ x < 2 ^ 64 →
  change_time_stamp flag x =
    match time_step flag x with Some y => (EOK, y) | None => (- EFAULT, x) end.
Proof.
  intros Hx. unfold change_time_stamp, time_step, UINT64_MAX.
  destruct (flag =? INC).
  - destruct (Z.ltb_spec x 0xFFFFFFFFFFFFFFFF), (Z.eqb_spec x 0xFFFFFFFFFFFFFFFF);
      done || lia.
  - destruct (flag =? DEC); [|done].
    destruct (Z.ltb_spec 0 x), (Z.eqb_spec x 0); done || lia.
Qed.

Lemma scrambling_timestamp_8 l k :
  scrambling_timestamp (Some l) TIMESTAMP_LEN_DEFAULT (Some k) SCRAMBLING_KEY_LEN
    = (EOK, xor_loop 0 (sub_buf l 0 8) k 4).
Proof. done. Qed.

Lemma descrambling_step i t flag :
  token_ok t →
  descrambling_timestamp (Some t) (Some i) flag =
    match time_step flag (token_time i t) with
    | Some y => (EOK, Some (token_set_time i t y))
    | None => (- EFAULT, Some t)
    end.
Proof.
  intros Ht. unfold descrambling_timestamp. rewrite scrambling_timestamp_8.
  change (nonzero EOK) with false. cbv iota.
  change (sub_buf (drop 32 t) 0 8) with (sub_buf t 32 8).
  fold (token_time i t).
  rewrite change_time_stamp_step by (by apply token_time_range).
  destruct (time_step flag (token_time i t)) as [y|]; [|done].
  change (nonzero EOK) with false. cbv iota. rewrite scrambling_timestamp_8.
  change (nonzero EOK) with false. cbv iota.
  rewrite (eq_refl : sub_buf (le_bytes 8 y) 0 8 = le_bytes 8 y). done.
Qed.
