(* ===== verification/AuthOk.v ===== *)
(** * The authentication layer inside a call never faults

    Under a well-formed registry every step the authentication layer takes in
    a client call returns, changes nothing of the registry but the data of
    sessions, and nothing of the operation but the command block. *)

From stdpp Require Import base gmap list.
From Stdlib Require Import ZArith Lia Setoid.
From S2P Require Import Prelude KernelApi TeeTypes Buffers Mailbox MailboxClaims SessReg.
From S2P Require Import SessLookup SessOk CallTypes Auth AuthCall.

(** A change of session data only. *)
Definition sess_step (R R' : registry) : Prop := reg_like R R' ∧ g_shared R' = g_shared R.

#[export] Instance sess_step_equiv : Equivalence sess_step.
Proof.
  split.
  - intros R. by split.
  - intros R R' [? ?]. split; [by symmetry|done].
  - intros R R' R'' [? ?] [? ?]. split; [by etrans|congruence].
Qed.

Lemma upd_session_step R p s s' :
  g_sessions R !! p = Some s → sess_key s' = sess_key s → sess_step R (upd_session R p s').
Proof. intros. split; [by eapply upd_session_like|done]. Qed.

(** The device file and the session of a call are allocated. *)
Definition valid_call (R : registry) (call : tc_call_params) : Prop :=
  is_Some (g_devs R !! call_dev call) ∧
  (call_sess call = 0 ∨ is_Some (g_sessions R !! call_sess call)).

Lemma valid_call_like R R' call : reg_like R R' → valid_call R call → valid_call R' call.
Proof.
  intros HL [Hd Hs]. split; [by rewrite (like_devs _ _ HL)|].
  destruct Hs as [|Hs]; [by left|right]. by eapply like_is_Some.
Qed.

Lemma reg_ok_step R R' : sess_step R R' → reg_ok R → reg_ok R'.
Proof. intros [H _]. by rewrite H. Qed.

Section Ok.
Context {P : PageMap} {SB : SecureBuf} {CM : ClientMem}.
Context {KR : KernelRandom} {KC : KernelCipher} {KA : KernelAlloc} {CU : Current}.

Lemma sync_timestamp_total R cmd tok tlen g :
  reg_ok R → ∃ tok' r, sync_timestamp R cmd tok tlen g = Ret (R, tok', r).
Proof.
  intros HR. unfold sync_timestamp. destruct tok as [t|]; [|eauto].
  destruct (tlen <=? SYNC_INDEX); [eauto|]. destruct (_ && g); [eauto|].
  destruct (_ =? UN_SYNCED); [|destruct (_ =? IS_SYNCED); eauto].
  destruct (tc_find_session_cases R (dev_file_id cmd) cmd HR)
    as [E|(p & s & R' & Hp & E & _ & Ea & Hput)]; rewrite E, ret_bind; [eauto|].
  rewrite (proj2 (Z.eqb_neq p 0)) by done. unfold session_info. rewrite Ea, !ret_bind.
  destruct (descrambling_timestamp _ _ _) as [r t']. rewrite Hput, ret_bind.
  destruct (nonzero r); eauto.
Qed.

Lemma update_timestamp_total {F : PhysMap} R m cmd :
  reg_ok R → ∃ m' r, update_timestamp R m cmd = Ret (R, m', r).
Proof.
  intros HR. unfold update_timestamp. destruct (_ =? CMD_TYPE_TA); [|eauto].
  destruct (is_token_empty _ _); [eauto|].
  destruct (tc_find_session_cases R (dev_file_id cmd) cmd HR)
    as [E|(p & s & R' & Hp & E & _ & Ea & Hput)]; rewrite E, ret_bind; [eauto|].
  rewrite (proj2 (Z.eqb_neq p 0)) by done. unfold session_info. rewrite Ea, !ret_bind.
  destruct (descrambling_timestamp _ _ _) as [r t']. rewrite Hput, ret_bind.
  destruct (nonzero r); eauto.
Qed.

Lemma update_chksum_total R cmd :
  reg_ok R → ∃ cmd' r, update_chksum R cmd = Ret (R, cmd', r).
Proof.
  intros HR. unfold update_chksum. destruct (_ =? CMD_TYPE_TA); [|eauto].
  destruct (tc_find_session_cases R (dev_file_id cmd) cmd HR)
    as [E|(p & s & R' & Hp & E & _ & Ea & Hput)]; rewrite E, ret_bind; [eauto|].
  rewrite (proj2 (Z.eqb_neq p 0)) by done. unfold session_info. rewrite Ea, !ret_bind.
  rewrite Hput, ret_bind. eauto.
Qed.

Lemma call_token_total R call :
  valid_call R call →
  call_token R call = Ret None ∨
  ∃ s t, call_token R call = Ret (Some (s, t)) ∧ g_sessions R !! call_sess call = Some s.
Proof.
  intros [_ Hs]. unfold call_token. destruct (Z.eqb_spec (call_sess call) 0); [by left|].
  destruct Hs as [|Hs]; [done|].
  destruct (at_index_is_Some _ _ Hs) as (s & -> & E). rewrite ret_bind.
  destruct (token_buffer _); [right; eauto|by left].
Qed.

Lemma set_token_step R call s t :
  g_sessions R !! call_sess call = Some s → sess_step R (set_token R call s t).
Proof. intros Hs. by eapply upd_session_step. Qed.

Lemma set_token_lookup R call s t :
  g_sessions (set_token R call s t) !! call_sess call
  = Some (with_token s (Token (Some t) (token_len (teec_token s)))).
Proof. apply lookup_insert_eq. Qed.

Lemma fill_token_info_total m R call op g :
  valid_call R call →
  ∃ m' R' c r, fill_token_info m R call op g = Ret (m', R', op_with_cmd op c, r) ∧
    sess_step R R'.
Proof.
  intros HV. unfold fill_token_info.
  assert (op = op_with_cmd op (op_smc_cmd op)) as Eop by by destruct op.
  assert (∀ (m' : mem) R' (r : Z), sess_step R R' → ∃ m'' R'' c r', Ret (m', R', op, r)
    = Ret (m'', R'', op_with_cmd op c, r') ∧ sess_step R R'') as Hret.
  { intros m' R' r HS. exists m', R', (op_smc_cmd op), r. by rewrite <- Eop. }
  destruct (call_token_total R call HV) as [->|(s & t & -> & Hs)]; rewrite ret_bind.
  { by apply Hret. }
  destruct (_ =? 0); [by apply Hret|]. destruct HV as [Hd _].
  destruct (at_index_is_Some _ _ Hd) as (d & -> & _). rewrite ret_bind.
  match goal with |- context [let '(t0, r0) := ?X in _] => destruct X as [t' r] end.
  pose proof (set_token_step R call s t' Hs) as HS.
  destruct (nonzero r); [by apply Hret|].
  destruct (copy_to_pack _ _ _ _) as [r' m']. destruct (nonzero r'); [by apply Hret|].
  eexists _, _, _, _. by split.
Qed.

Lemma load_security_enhance_info_total m R call op :
  valid_call R call →
  ∃ m' R' c r, load_security_enhance_info m R call op = Ret (m', R', op_with_cmd op c, r) ∧
    sess_step R R'.
Proof.
  intros HV. unfold load_security_enhance_info.
  assert (op = op_with_cmd op (op_smc_cmd op)) as Eop by by destruct op.
  assert (∀ r : Z, ∃ m' R' c r', Ret (m, R, op, r) = Ret (m', R', op_with_cmd op c, r') ∧
    sess_step R R') as Hret.
  { intros r. exists m, R, (op_smc_cmd op), r. by rewrite <- Eop. }
  destruct (negb (is_token_work _ _)); [apply Hret|].
  destruct (negb (is_load_info_params_valid _ _)); [apply Hret|].
  destruct (fill_token_info_total m R call op (is_global_call call) HV)
    as (m' & R' & c & r & -> & HS). rewrite ret_bind.
  destruct (nonzero r); [eexists _, _, _, _; by split|].
  destruct (negb _); [eexists _, _, _, _; by split|].
  destruct (Z.eqb_spec (call_sess call) 0); [eexists _, _, _, _; by split|].
  destruct (valid_call_like _ _ _ (proj1 HS) HV) as [_ [|Hs]]; [done|].
  destruct (at_index_is_Some _ _ Hs) as (s & -> & _). rewrite ret_bind.
  destruct (generate_encrypted_session_secure_params _ _ _) as [r' b].
  destruct (nonzero r'); [eexists _, _, _, _; by split|].
  unfold op_with_cmd at 2. simpl. eexists _, _, _, _. by split.
Qed.

Lemma append_teec_token_total m R call op :
  valid_call R call →
  ∃ m' R' r, append_teec_token m R call op = Ret (m', R', r) ∧ sess_step R R'.
Proof.
  intros HV. unfold append_teec_token.
  destruct (is_global_call call); [eexists _, _, _; by split|].
  destruct (negb _); [eexists _, _, _; by split|].
  destruct (call_token_total R call HV) as [->|(s & t & -> & Hs)]; rewrite ret_bind;
    [eexists _, _, _; by split|].
  destruct HV as [Hd _]. destruct (at_index_is_Some _ _ Hd) as (d & -> & _). rewrite ret_bind.
  destruct (read_from_client _ _ _ _ _ _) as [r temp].
  destruct (nonzero r); [eexists _, _, _; by split|].
  destruct (buf_copy t 0 _ temp 0 _) as [r' t'].
  destruct (nonzero r'); [eexists _, _, _; split; [done|by apply set_token_step]|].
  destruct (copy_to_pack _ _ _ _) as [r'' m''].
  eexists _, _, _; split; [done|by apply set_token_step].
Qed.

(** A global command looks no session up: the registry need not be well-formed. *)
Lemma post_process_token_total m R call op :
  (is_global_call call = false → reg_ok R) → valid_call R call →
  ∃ m' R' r, post_process_token m R call op = Ret (m', R', r) ∧ sess_step R R'.
Proof.
  intros HR HV. unfold post_process_token.
  destruct (is_token_work _ _) eqn:Hw; cbn [negb]; [|eexists _, _, _; by split].
  destruct (negb _); [eexists _, _, _; by split|].
  destruct (call_token_total R call HV) as [->|(s & t & -> & Hs)]; rewrite ret_bind;
    [eexists _, _, _; by split|].
  destruct (buf_copy t 0 _ _ 0 _) as [r t'].
  pose proof (set_token_step R call s t' Hs) as HS.
  destruct (nonzero r); [eexists _, _, _; by split|].
  destruct (buf_set _ 0 _ 0 _) as [r' b].
  destruct (nonzero r'); [eexists _, _, _; by split|].
  assert (∃ tok' r'', sync_timestamp (set_token R call s t') (op_smc_cmd op) (Some t')
    (token_len (teec_token s)) (is_global_call call) = Ret (set_token R call s t', tok', r''))
    as (tok' & r'' & ->).
  { destruct (is_global_call call) eqn:Hg.
    - cbn [is_token_work negb orb] in Hw. unfold sync_timestamp. rewrite Hw.
      destruct (_ <=? SYNC_INDEX); cbn [andb]; eauto.
    - apply sync_timestamp_total. by eapply reg_ok_step; [|apply HR]. }
  rewrite ret_bind.
  rewrite (proj2 (at_index_Some _ _ _) (set_token_lookup R call s t')), ret_bind.
  match goal with |- context [set_token ?R0 call ?s0 ?t0] =>
    assert (sess_step R (set_token R0 call s0 t0)) as HS2 by
      (etrans; [exact HS|]; apply set_token_step, set_token_lookup) end.
  destruct (nonzero r''); [eexists _, _, _; by split|].
  destruct (valid_call_like _ _ _ (proj1 HS2) HV) as [Hd _].
  destruct (at_index_is_Some _ _ Hd) as (d & -> & _). rewrite ret_bind.
  destruct (save_token_info _ _ _ _ _ _) as [[m' t''] r3].
  eexists _, _, _. split; [done|]. etrans; [exact HS2|]. by eapply upd_session_step; [apply set_token_lookup|].
Qed.

End Ok.
