(* ===== verification/AuthClaims.v ===== *)
(** * What the token layer guarantees

    Claims on timestamps, on the scrambling of the command block and on the
    token a client keeps between two calls, each with a concrete instance. *)

From stdpp Require Import base gmap list.
From Stdlib Require Import ZArith Lia.
From S2P Require Import Prelude KernelApi TeeTypes Buffers Mailbox MailboxClaims SessReg.
From S2P Require Import SessLookup CallTypes Auth AuthCall AuthThm.

(** ** Timestamps *)

(** An increment (decrement) of a token's timestamp succeeds exactly when
    the timestamp is not [UINT64_MAX] (not 0); it then changes the decoded
    timestamp by one and no byte outside the timestamp field, and otherwise it
    reports [-EFAULT] and leaves the token alone. *)
Theorem descrambling_timestamp_correct i t flag :
  token_ok t → flag = INC ∨ flag = DEC →
  let T := token_time i t in
  match descrambling_timestamp (Some t) (Some i) flag with
  | (r, Some t') =>
      (r = EOK ↔ T ≠ (if flag =? INC then UINT64_MAX else 0)) ∧
      (r = EOK → token_ok t' ∧
         token_time i t' = (if flag =? INC then T + 1 else T - 1) ∧
         ∀ o n, 0 ≤ o → o + n ≤ 32 ∨ 40 ≤ o → sub_buf t' o n = sub_buf t o n) ∧
      (r ≠ EOK → r = - EFAULT ∧ t' = t)
  | (_, None) => False
  end.
Proof.
  intros Ht Hf T. rewrite descrambling_step by done.
  pose proof (token_time_range i t Ht) as HT. fold T in HT. fold T.
  assert (∀ y, 0 ≤ y < 2 ^ 64 → token_ok (token_set_time i t y) ∧
    token_time i (token_set_time i t y) = y ∧
    ∀ o n, 0 ≤ o → o + n ≤ 32 ∨ 40 ≤ o →
      sub_buf (token_set_time i t y) o n = sub_buf t o n) as Hset.
  { intros y Hy. split; [by apply token_set_time_ok|].
    split; [by apply token_time_set|]. intros o n Ho Hd. pose proof (token_zlen _ Ht).
    apply sub_buf_splice_other; rewrite ?stamp_length; lia. }
  unfold time_step, UINT64_MAX in *.
  destruct Hf as [-> | ->].
  - change (INC =? INC) with true. cbv iota.
    destruct (Z.eqb_spec T 0xFFFFFFFFFFFFFFFF) as [E|E]; [by repeat split|].
    split; [done|]. split; [|done]. intros _. apply Hset. lia.
  - change (DEC =? INC) with false. change (DEC =? DEC) with true. cbv iota.
    destruct (Z.eqb_spec T 0) as [E|E]; [by repeat split|].
    split; [done|]. split; [|done]. intros _. apply Hset. lia.
Qed.

(** A token with every byte of its timestamp scrambled. *)
Definition demo_info : session_secure_info :=
  SecureInfo 7 [0xdeadbeef; 0x12345678; 3]
    (CryptoInfo (replicate 32 9) (replicate 16 4)).

Definition demo_token : list Z :=
  token_set_time demo_info (replicate 40 1 ++ [0; UN_SYNCED]) 41.

Lemma demo_token_ok : token_ok demo_token.
Proof.
  apply token_set_time_ok. split; [done|]. apply Forall_app. split.
  - apply Forall_replicate. unfold is_byte. lia.
  - repeat constructor; unfold is_byte, UN_SYNCED; lia.
Qed.

Lemma descrambling_timestamp_correct_witness :
  token_time demo_info (default [] (descrambling_timestamp (Some demo_token)
    (Some demo_info) INC).2) = 42.
Proof.
  pose proof (descrambling_timestamp_correct demo_info demo_token INC demo_token_ok
    (or_introl eq_refl)) as H.
  assert (token_time demo_info demo_token = 41) as E by (vm_compute; reflexivity).
  cbv zeta in H. rewrite E in H.
  destruct (descrambling_timestamp (Some demo_token) (Some demo_info) INC)
    as [r [t'|]]; [|destruct H].
  destruct H as (Hr & Ht & _).
  exact (proj1 (proj2 (Ht (proj2 Hr ltac:(discriminate))))).
Defined.

(** ** One command's token, from increment to synchronisation *)

Section Claims.
Context {F : PhysMap}.

(** The address of the token a command carries. *)
Definition token_addr (cmd : tc_ns_smc_cmd) : Z :=
  phys_to_virt (phys_join (token_h_phys cmd) (token_phys cmd)).

Definition token_at (m : mem) (cmd : tc_ns_smc_cmd) : list Z :=
  load_bytes m (token_addr cmd) (Z.to_nat TOKEN_BUFFER_LEN).

Lemma token_at_length m cmd : length (token_at m cmd) = Z.to_nat TOKEN_BUFFER_LEN.
Proof. apply load_bytes_length. Qed.

(** Every way [update_timestamp] can go on an invoke command. *)
Lemma update_timestamp_inv R m cmd R' m' r :
  counted R → cmd_type cmd = CMD_TYPE_TA → token_ok (token_at m cmd) →
  update_timestamp R m cmd = Ret (R', m', r) →
  R' = R ∧
  ((r = - EFAULT ∧ m' = m ∧
      (token_addr cmd = 0 ∨ is_token_empty (Some (token_at m cmd)) TOKEN_BUFFER_LEN = true ∨
       (∃ R1, tc_find_session_by_uuid R (dev_file_id cmd) cmd = Ret (R1, 0)) ∨
       (∃ p s, session_of R cmd p s ∧
          token_time (secure_info s) (token_at m cmd) = UINT64_MAX))) ∨
   (r = EOK ∧ ∃ p s, session_of R cmd p s ∧
      let T := token_time (secure_info s) (token_at m cmd) in
      T ≠ UINT64_MAX ∧
      m' = store_bytes m (token_addr cmd)
             (splice (token_set_time (secure_info s) (token_at m cmd) (T + 1))
                SYNC_INDEX [UN_SYNCED]))).
Proof.
  intros HC Hty Ht. unfold update_timestamp. rewrite Hty. cbv zeta.
  change (CMD_TYPE_TA =? CMD_TYPE_TA) with true. cbv iota.
  fold (token_addr cmd). fold (token_at m cmd).
  destruct (Z.eqb_spec (token_addr cmd) 0) as [Ha|Ha].
  { cbn [is_token_empty]. intros [= <- <- <-]. split; [done|]. left. tauto. }
  destruct (is_token_empty _ _) eqn:He.
  { intros [= <- <- <-]. split; [done|]. left. tauto. }
  rewrite bind_Ret. intros ([R1 p] & Hf & H).
  destruct (tc_find_session_balanced _ _ _ _ _ HC Hf) as [[-> ->]|(Hp & s & Hs & _ & HR1 & Hput)].
  { simpl in H. injection H as <- <- <-. split; [done|]. left. eauto 10. }
  rewrite (proj2 (Z.eqb_neq p 0)) in H by done.
  assert (session_of R cmd p s) as Hso by (by exists R1).
  assert (session_info R1 p = Ret (secure_info s)) as Hi.
  { unfold session_info, at_index. rewrite HR1. simpl. by rewrite lookup_insert_eq. }
  rewrite Hi, ret_bind, descrambling_step in H by done.
  unfold time_step in H. change (INC =? INC) with true in H. cbv iota in H.
  destruct (Z.eqb_spec (token_time (secure_info s) (token_at m cmd)) UINT64_MAX) as [E|E];
    rewrite Hput, ret_bind in H.
  - assert (Ret (R, m, - EFAULT) = Ret (R', m', r)) as [= <- <- <-] by exact H.
    split; [reflexivity|]. left. eauto 10.
  - change (nonzero EOK) with false in H. cbv iota in H. cbn [default] in H.
    apply Ret_inj3 in H as (<- & <- & <-). split; [reflexivity|]. right. split; [reflexivity|].
    exists p, s. split; [exact Hso|]. split; [exact E|reflexivity].
Qed.

(** Marking a token unsynchronised keeps its timestamp. *)
Lemma mark_unsynced i t :
  token_ok t →
  token_ok (splice t SYNC_INDEX [UN_SYNCED]) ∧
  token_time i (splice t SYNC_INDEX [UN_SYNCED]) = token_time i t ∧
  nth (Z.to_nat SYNC_INDEX) (splice t SYNC_INDEX [UN_SYNCED]) 0 = UN_SYNCED.
Proof.
  intros Ht. pose proof (token_zlen _ Ht) as Hl. split_and!.
  - split; [rewrite splice_length; [apply Ht|done|rewrite Hl; done]|].
    apply splice_bytes; [apply Ht|]. repeat constructor; unfold is_byte, UN_SYNCED; lia.
  - unfold token_time. rewrite sub_buf_splice_other; [done|done|rewrite Hl; done|lia|].
    left. unfold SYNC_INDEX. lia.
  - apply nth_lookup_Some. rewrite splice_lookup; [done|done|rewrite Hl; done].
Qed.

Lemma sync_timestamp_unsynced R cmd p s t g :
  counted R → session_of R cmd p s → token_ok t →
  nth (Z.to_nat SYNC_INDEX) t 0 = UN_SYNCED → token_time (secure_info s) t ≠ 0 →
  cmd_id cmd ≠ GLOBAL_CMD_ID_OPEN_SESSION ∨ g = false →
  sync_timestamp R cmd (Some t) TOKEN_BUFFER_LEN g
  = Ret (R, Some (token_set_time (secure_info s) t (token_time (secure_info s) t - 1)), EOK).
Proof.
  intros HC (R1 & Hf & Hp & Hs) Ht Hy HT Hg. unfold sync_timestamp.
  change (TOKEN_BUFFER_LEN <=? SYNC_INDEX) with false. cbv iota.
  assert ((cmd_id cmd =? GLOBAL_CMD_ID_OPEN_SESSION) && g = false) as ->.
  { destruct Hg as [Hg| ->]; [|apply andb_false_r].
    by rewrite (proj2 (Z.eqb_neq _ _) Hg). }
  cbv zeta. rewrite Hy. change (UN_SYNCED =? UN_SYNCED) with true. cbv iota.
  destruct (tc_find_session_balanced _ _ _ _ _ HC Hf) as [[-> _]|(_ & s' & Hs' & _ & HR1 & Hput)];
    [done|].
  simplify_eq. rewrite Hf, ret_bind, (proj2 (Z.eqb_neq p 0)) by done.
  unfold session_info, at_index. simpl g_sessions. rewrite lookup_insert_eq, !ret_bind.
  cbn [secure_info with_usage].
  rewrite descrambling_step by done.
  unfold time_step. change (DEC =? INC) with false. change (DEC =? DEC) with true. cbv iota.
  rewrite (proj2 (Z.eqb_neq _ _) HT), Hput, ret_bind. done.
Qed.

(** C35. Sending an invoke command increments the timestamp of its token and
    marks it unsynchronised; when the TEE returns it unchanged,
    [sync_timestamp] restores the timestamp.  Both leave the session registry,
    reference counts included, as it was. *)
Theorem timestamp_update_sync_roundtrip R m cmd R' m' g :
  counted R → cmd_type cmd = CMD_TYPE_TA → token_ok (token_at m cmd) →
  update_timestamp R m cmd = Ret (R', m', EOK) →
  (cmd_id cmd ≠ GLOBAL_CMD_ID_OPEN_SESSION ∨ g = false) →
  R' = R ∧
  (∃ p s, session_of R cmd p s ∧
     token_time (secure_info s) (token_at m' cmd)
       = token_time (secure_info s) (token_at m cmd) + 1) ∧
  (∀ x, x < token_addr cmd ∨ token_addr cmd + TOKEN_BUFFER_LEN ≤ x → m' !! x = m !! x) ∧
  sync_timestamp R cmd (Some (token_at m' cmd)) TOKEN_BUFFER_LEN g
    = Ret (R, Some (splice (token_at m cmd) SYNC_INDEX [UN_SYNCED]), EOK).
Proof.
  intros HC Hty Ht Hu Hg.
  destruct (update_timestamp_inv _ _ _ _ _ _ HC Hty Ht Hu)
    as [-> [[? _]|(_ & p & s & Hso & HT & Hm)]]; [done|].
  split; [done|]. set (t := token_at m cmd) in *. set (i := secure_info s) in *.
  pose proof (token_time_range i t Ht) as Hrange.
  set (T := token_time i t) in *. set (t1 := token_set_time i t (T + 1)) in *.
  assert (0 ≤ T + 1 < 2 ^ 64) as HT1 by (unfold UINT64_MAX in HT; lia).
  assert (token_ok t1) as Ht1 by (by apply token_set_time_ok).
  pose proof (token_zlen _ Ht1) as Hl1. pose proof (token_zlen _ Ht) as Hl.
  destruct (mark_unsynced i t1 Ht1) as (Ht' & ETt' & Hy).
  assert (token_time i t1 = T + 1) as ET1 by (by apply token_time_set). rewrite ET1 in ETt'.
  assert (token_at m' cmd = splice t1 SYNC_INDEX [UN_SYNCED]) as Et'.
  { unfold token_at. rewrite Hm. rewrite <- (token_at_length m cmd).
    replace (length (token_at m cmd)) with (length (splice t1 SYNC_INDEX [UN_SYNCED])).
    { apply load_store_bytes. }
    rewrite splice_length; [|done|rewrite Hl1; done].
    unfold zlen in *. fold t. lia. }
  split; [exists p, s; by rewrite Et'|]. split.
  { intros x Hx. rewrite Hm. apply store_bytes_lookup_outside.
    rewrite splice_length; [|done|rewrite Hl1; done]. fold (zlen t1). rewrite Hl1. done. }
  rewrite Et', (sync_timestamp_unsynced R cmd p s) by (done || fold i; rewrite ETt'; lia).
  fold i. rewrite ETt', Z.add_simpl_r. do 3 f_equal.
  rewrite <- (token_set_time_same i t) by done. fold T.
  rewrite <- (token_set_time_twice i t (T + 1) T) by done. fold t1.
  unfold token_set_time. f_equal.
Qed.

End Claims.

(** A registry with one device file, one service and one session, and a command
    of that session whose token is at [demo_token_addr]. *)
Definition demo_uuid : list Z := replicate 16 0xab.

Definition demo_dev : tc_ns_dev_file :=
  DevFile 1 (1 :: replicate 31 0) (2000 :: replicate 31 0) 0 false 0 (replicate 255 0)
    0 (replicate 1024 0) 0 [].

Definition demo_session : tc_ns_session :=
  Session 5 1000 demo_info (Token (Some demo_token) 42) (replicate 112 0) 0 1.

Definition demo_registry : registry :=
  Registry {[ 3000 := demo_session ]} {[ 2000 := Service demo_uuid [3000] 1 ]}
    {[ 1000 := demo_dev ]} ∅ [2000] [1000] 2.

Definition demo_token_addr : Z := linear_base + 4096.

Definition demo_mem : mem := store_bytes ∅ demo_token_addr demo_token.

Definition demo_invoke : tc_ns_smc_cmd :=
  SmcCmd demo_uuid CMD_TYPE_TA 9 1 5 0 0x1000 0 0 0 0 0 0 0 0 0 0 4096 0 77 0 0 0 false.

Lemma demo_counted : counted demo_registry.
Proof.
  split; simpl.
  - intros _ _ q s _ _ H. apply lookup_singleton_Some in H as [_ <-]. simpl. lia.
  - intros p v H. apply lookup_singleton_Some in H as [_ <-]. simpl. lia.
Qed.

Lemma timestamp_update_sync_roundtrip_witness :
  ∃ m', update_timestamp (F := linear_phys) demo_registry demo_mem demo_invoke
          = Ret (demo_registry, m', EOK) ∧
    sync_timestamp demo_registry demo_invoke
      (Some (token_at (F := linear_phys) m' demo_invoke)) TOKEN_BUFFER_LEN false
    = Ret (demo_registry, Some (splice demo_token SYNC_INDEX [UN_SYNCED]), EOK).
Proof.
  assert (token_at (F := linear_phys) demo_mem demo_invoke = demo_token) as Et
    by (vm_compute; reflexivity).
  destruct (update_timestamp (F := linear_phys) demo_registry demo_mem demo_invoke)
    as [[[R' m'] r]|] eqn:E; [|vm_compute in E; discriminate].
  assert (r = EOK) as Er.
  { assert (match update_timestamp (F := linear_phys) demo_registry demo_mem demo_invoke with
            | Ret (_, _, r) => r =? EOK | Fault => false end = true) as H
      by (vm_compute; reflexivity).
    rewrite E in H. apply Z.eqb_eq in H. exact H. }
  subst r.
  assert (token_ok (token_at (F := linear_phys) demo_mem demo_invoke)) as Hok
    by (rewrite Et; exact demo_token_ok).
  destruct (timestamp_update_sync_roundtrip (F := linear_phys) demo_registry demo_mem
    demo_invoke R' m' false demo_counted eq_refl Hok E (or_intror eq_refl))
    as (HR & _ & _ & Hs).
  exists m'. rewrite HR. split; [reflexivity|]. rewrite Et in Hs. exact Hs.
Defined.
