(* ===== verification/AuthCallClaims.v ===== *)
(** * What the scrambling and the encryption of a call guarantee

    The command block's scrambling, the token kept by the client between two
    calls, the layout and the bounds of the encrypted buffers. *)

From stdpp Require Import base gmap list.
From Stdlib Require Import ZArith Lia.
From S2P Require Import Prelude KernelApi TeeTypes Buffers Mailbox MailboxClaims SessReg.
From S2P Require Import SessLookup CallTypes Auth AuthCall AuthThm AuthClaims.

(** ** Scrambling of the command block *)

(** The one pair of words a second scrambling does not restore. *)
Definition scramble_degenerate (cmd : tc_ns_smc_cmd) (k : Z) : Prop :=
  k ≠ 0 ∧ operation_phys cmd = k ∧ operation_h_phys cmd = k.

Lemma lxor_cancel a k : Z.lxor (Z.lxor a k) k = a.
Proof. by rewrite Z.lxor_assoc, Z.lxor_nilpotent, Z.lxor_0_r. Qed.

Lemma lxor_zero a k : Z.lxor a k = 0 ↔ a = k.
Proof. apply Z.lxor_eq_0_iff. Qed.

Lemma scrambling_operation_twice cmd k :
  scrambling_operation (scrambling_operation cmd k) k = cmd ↔ ¬ scramble_degenerate cmd k.
Proof.
  unfold scramble_degenerate, scrambling_operation, with_pid, with_operation.
  destruct (nonzero (operation_phys cmd) || nonzero (operation_h_phys cmd)) eqn:E; simpl.
  - destruct (nonzero (Z.lxor (operation_phys cmd) k)
              || nonzero (Z.lxor (operation_h_phys cmd) k)) eqn:E'; simpl.
    + split; [|intros _; rewrite !lxor_cancel; by destruct cmd].
      intros _ (Hk & H1 & H2). rewrite H1, H2, Z.lxor_nilpotent in E'. done.
    + apply orb_false_iff in E' as [E1%nonzero_false E2%nonzero_false].
      apply orb_true_iff in E. rewrite !nonzero_true in E.
      pose proof (proj1 (lxor_zero _ _) E1) as K1.
      pose proof (proj1 (lxor_zero _ _) E2) as K2. split.
      * intros H. apply (f_equal operation_phys) in H as H'.
        apply (f_equal operation_h_phys) in H as H''. cbn in H', H''.
        rewrite E1 in H'. rewrite E2 in H''. destruct E; congruence.
      * intros H. exfalso. apply H. split; [|done]. destruct E; congruence.
  - rewrite E. simpl. split.
    + intros _ (Hk & H1 & H2). apply orb_false_iff in E as [E1%nonzero_false _]. congruence.
    + intros _. rewrite lxor_cancel. by destruct cmd.
Qed.

Lemma find_session_ext R id c c' :
  uuid c = uuid c' → context_id c = context_id c' →
  tc_find_session_by_uuid R id c = tc_find_session_by_uuid R id c'.
Proof. intros E1 E2. unfold tc_find_session_by_uuid. by rewrite E1, E2. Qed.

Lemma scrambling_operation_fields cmd k :
  let c := scrambling_operation cmd k in
  uuid c = uuid cmd ∧ context_id c = context_id cmd ∧ dev_file_id c = dev_file_id cmd ∧
  cmd_type c = cmd_type cmd.
Proof.
  unfold scrambling_operation. destruct (_ || _); by destruct cmd.
Qed.

Lemma update_chksum_session R cmd p s :
  counted R → cmd_type cmd = CMD_TYPE_TA → session_of R cmd p s →
  update_chksum R cmd =
    Ret (R, scrambling_operation cmd (nth SCRAMBLING_OPERATION (scrambling (secure_info s)) 0),
         EOK).
Proof.
  intros HC Hty (R1 & Hf & Hp & Hs). unfold update_chksum. rewrite Hty.
  change (CMD_TYPE_TA =? CMD_TYPE_TA) with true. cbv iota.
  rewrite Hf, ret_bind, (proj2 (Z.eqb_neq p 0)) by done.
  destruct (tc_find_session_balanced _ _ _ _ _ HC Hf) as [[-> _]|(_ & s' & Hs' & _ & -> & Hput)];
    [done|].
  unfold session_info, at_index. simpl g_sessions. rewrite lookup_insert_eq, !ret_bind.
  rewrite Hput, ret_bind. by simplify_eq.
Qed.

(** The checksum step of an invoke command xors the operation address and
    the pid with the session's operation key and leaves the registry as it
    was; applying it again, as the TEE does, restores the command block unless
    both halves of the operation address equal that key. *)
Theorem update_chksum_involutive R cmd p s :
  counted R → cmd_type cmd = CMD_TYPE_TA → session_of R cmd p s →
  let k := nth SCRAMBLING_OPERATION (scrambling (secure_info s)) 0 in
  ∃ cmd', update_chksum R cmd = Ret (R, cmd', EOK) ∧
    pid cmd' = Z.lxor (pid cmd) k ∧
    (operation_phys cmd ≠ 0 → operation_phys cmd' = Z.lxor (operation_phys cmd) k) ∧
    (update_chksum R cmd' = Ret (R, cmd, EOK) ↔ ¬ scramble_degenerate cmd k).
Proof.
  intros HC Hty Hso k. eexists. split; [by eapply update_chksum_session|]. fold k.
  split; [unfold scrambling_operation; by destruct (_ || _)|]. split.
  { intros H%nonzero_true. unfold scrambling_operation. by rewrite H. }
  destruct (scrambling_operation_fields cmd k) as (E1 & E2 & E3 & E4).
  rewrite <- scrambling_operation_twice.
  assert (session_of R (scrambling_operation cmd k) p s) as Hso'.
  { destruct Hso as (R1 & Hf & ?). exists R1. split; [|done].
    rewrite E3, <- Hf. by apply find_session_ext. }
  rewrite (update_chksum_session _ _ _ _ HC (eq_trans E4 Hty) Hso'). fold k.
  split; [intros (_ & H & _)%Ret_inj3; exact H|]. by intros ->.
Qed.

Lemma update_chksum_involutive_witness :
  ∃ cmd', update_chksum demo_registry demo_invoke = Ret (demo_registry, cmd', EOK) ∧
    update_chksum demo_registry cmd' = Ret (demo_registry, demo_invoke, EOK).
Proof.
  assert (session_of demo_registry demo_invoke 3000 demo_session) as Hso.
  { eexists. split; [vm_compute; reflexivity|]. split; [discriminate|reflexivity]. }
  destruct (update_chksum_involutive demo_registry demo_invoke 3000 demo_session
    demo_counted eq_refl Hso) as (cmd' & E & _ & _ & H).
  exists cmd'. split; [exact E|]. apply H. intros (_ & Hd & _). vm_compute in Hd.
  discriminate.
Defined.

(** ** The token between two calls *)

Section Token.
Context {SB : SecureBuf} {SBL : SecureBufLaws SB} {CM : ClientMem} {CML : ClientMemLaws CM}.

Lemma buf_copy_small dst off destMax src soff count :
  0 < destMax ≤ 65536 → 0 ≤ count ≤ destMax →
  buf_copy dst off destMax src soff count = (EOK, splice dst off (sub_buf src soff count)).
Proof. intros. apply buf_copy_ok; unfold SECUREC_MEM_MAX_LEN; lia. Qed.

Lemma buf_set_small dst off destMax c count :
  0 < destMax ≤ 65536 → 0 ≤ count ≤ destMax →
  buf_set dst off destMax c count
    = (EOK, splice dst off (replicate (Z.to_nat count) (u8 c))).
Proof. intros. apply buf_set_ok; unfold SECUREC_MEM_MAX_LEN; lia. Qed.

(** What [combine_temp_token] computes once the client's copy is read. *)
Lemma combine_temp_token_value m d context token tlen l :
  length token = 42%nat →
  read_from_client m 1 TOKEN_SAVE_LEN (ctx_teec_token context) TOKEN_SAVE_LEN
    (kernel_api d) = (0, l) →
  combine_temp_token m d context token tlen =
    if decide (sub_buf l 16 8 = sub_buf token 32 8)
    then (splice (splice token 0 (take 16 l)) 40 (kernel_api_bytes d), 0)
    else (token, - EFAULT).
Proof.
  intros Hlen Hr. unfold combine_temp_token. rewrite Hr.
  change (nonzero 0) with false. cbv iota.
  change (sub_buf l TIMESTAMP_SAVE_INDEX TIMESTAMP_LEN_DEFAULT) with (sub_buf l 16 8).
  change (sub_buf token TIMESTAMP_BUFFER_INDEX TIMESTAMP_LEN_DEFAULT)
    with (sub_buf token 32 8).
  destruct (decide (sub_buf l 16 8 = sub_buf token 32 8)) as [E|E].
  - rewrite bool_decide_true by done. cbn [negb].
    rewrite buf_copy_small by done. change (nonzero EOK) with false. cbv iota.
    rewrite buf_copy_small by done. change (nonzero EOK) with false. cbv iota.
    done.
  - rewrite bool_decide_false by done. done.
Qed.

(** What [save_token_info] leaves with the client and in the session. *)
Lemma save_token_info_value m dst t tlen api m' t' :
  length t = 42%nat →
  save_token_info m dst TOKEN_SAVE_LEN (Some t) tlen api = (m', t', 0) →
  m' = store_bytes m dst (take 16 t ++ sub_buf t 32 8) ∧
  t' = Some (replicate 16 0 ++ drop 16 t).
Proof.
  intros Hlen. unfold save_token_info. destruct (_ || _); [done|].
  rewrite buf_copy_small by done. change (nonzero EOK) with false. cbv iota.
  rewrite buf_copy_small by done. change (nonzero EOK) with false. cbv iota.
  set (temp := splice (splice _ _ _) _ _).
  assert (temp = take 16 t ++ sub_buf t 32 8) as Etemp.
  { do 42 (destruct t as [|? t]; [discriminate Hlen|]).
    destruct t; [reflexivity|discriminate Hlen]. }
  destruct (write_to_client m dst TOKEN_SAVE_LEN (Some temp) TOKEN_SAVE_LEN api)
    as [r m1] eqn:Ew.
  destruct (nonzero r) eqn:Hr; [done|]. apply nonzero_false in Hr as ->.
  rewrite buf_set_small by done. change (nonzero EOK) with false. cbv iota.
  intros [= <- <-].
  apply write_to_client_ok in Ew as (bytes & [= <-] & -> & _); [|done].
  split; [|done]. f_equal. rewrite Etemp. unfold sub_buf at 1. simpl drop.
  rewrite drop_0. rewrite take_ge; [done|].
  rewrite length_app, length_take, sub_buf_length; unfold zlen, TOKEN_SAVE_LEN in *; lia.
Qed.

(** The token handed to the client after one call and the part kept in the
    session recombine at the next call to the same token, with its last two
    bytes replaced by the device's [kernel_api] and [login_setup] flags. *)
Theorem token_save_combine_roundtrip m dst t tlen m' t' m2 d context l :
  length t = 42%nat →
  save_token_info m dst TOKEN_SAVE_LEN (Some t) tlen (kernel_api d) = (m', Some t', 0) →
  ctx_teec_token context = dst →
  load_bytes m2 dst 24 = load_bytes m' dst 24 →
  read_from_client m2 1 TOKEN_SAVE_LEN dst TOKEN_SAVE_LEN (kernel_api d) = (0, l) →
  combine_temp_token m2 d context t' tlen
    = (splice t KERNAL_API_INDEX (kernel_api_bytes d), 0).
Proof.
  intros Hlen Hs Hdst Hmem Hr.
  destruct (save_token_info_value _ _ _ _ _ _ _ Hlen Hs) as [-> [= ->]].
  set (saved := take 16 t ++ sub_buf t 32 8) in *.
  assert (length saved = 24%nat) as Hsl.
  { unfold saved. rewrite length_app, length_take, sub_buf_length; unfold zlen; lia. }
  assert (l = saved) as ->.
  { apply read_from_client_ok in Hr as [-> _]; [|done]. change (Z.to_nat TOKEN_SAVE_LEN) with 24%nat.
    rewrite Hmem, <- Hsl. apply load_store_bytes. }
  rewrite combine_temp_token_value with (l := saved).
  - rewrite decide_True.
    + f_equal. unfold saved. clear -Hlen.
      do 42 (destruct t as [|? t]; [discriminate Hlen|]).
      destruct t; [reflexivity|discriminate Hlen].
    + unfold saved. clear -Hlen.
      do 42 (destruct t as [|? t]; [discriminate Hlen|]).
      destruct t; [reflexivity|discriminate Hlen].
  - simpl. rewrite length_drop. lia.
  - by rewrite Hdst.
Qed.

(** C37. A client whose saved timestamp differs from the session's is refused,
    and its attempt leaves the session token unchanged. *)
Theorem token_replay_refused m d context t tlen l :
  length t = 42%nat →
  read_from_client m 1 TOKEN_SAVE_LEN (ctx_teec_token context) TOKEN_SAVE_LEN
    (kernel_api d) = (0, l) →
  sub_buf (load_bytes m (ctx_teec_token context) 24) 16 8 ≠ sub_buf t 32 8 →
  combine_temp_token m d context t tlen = (t, - EFAULT).
Proof.
  intros Hlen Hr Hne. rewrite (combine_temp_token_value _ _ _ _ _ _ Hlen Hr).
  apply read_from_client_ok in Hr as [-> _]; [|done]. by rewrite decide_False.
Qed.

End Token.

(** A client that keeps its token at address 0x5000. *)
Definition demo_context : tc_ns_client_context :=
  ClientContext demo_uuid 5 9 0 0 0 0 (replicate 4 (ClientParam 0 0 0)) 0 0 0x5000
    TOKEN_SAVE_LEN 0 0 0.

Lemma token_save_combine_roundtrip_witness :
  let '(m', t', r) := save_token_info (SB := bounds_buf) (CM := flat_client) ∅ 0x5000
                        TOKEN_SAVE_LEN (Some demo_token) 42 0 in
  r = 0 ∧
  combine_temp_token (SB := bounds_buf) (CM := flat_client) m' demo_dev demo_context
    (default [] t') 42 = (splice demo_token KERNAL_API_INDEX [0; 0], 0).
Proof.
  destruct (save_token_info (SB := bounds_buf) (CM := flat_client) ∅ 0x5000
    TOKEN_SAVE_LEN (Some demo_token) 42 0) as [[m' t'] r] eqn:E.
  assert (r = 0 ∧ is_Some t') as [-> [t1 ->]].
  { assert (match save_token_info (SB := bounds_buf) (CM := flat_client) ∅ 0x5000
              TOKEN_SAVE_LEN (Some demo_token) 42 0 with
            | (_, Some _, r) => r =? 0 | _ => false end = true) as H
      by (vm_compute; reflexivity).
    rewrite E in H. destruct t' as [t1|]; [|discriminate].
    apply Z.eqb_eq in H. split; [exact H|]. exists t1. reflexivity. }
  split; [reflexivity|].
  exact (token_save_combine_roundtrip (SB := bounds_buf) (CM := flat_client) ∅ 0x5000
    demo_token 42 m' t1 m' demo_dev demo_context
    (load_bytes m' 0x5000 24) (proj1 demo_token_ok) E eq_refl eq_refl eq_refl).
Defined.

Lemma token_replay_refused_witness :
  combine_temp_token (SB := bounds_buf) (CM := flat_client) ∅ demo_dev demo_context
    demo_token 42 = (demo_token, - EFAULT).
Proof.
  apply (token_replay_refused (SB := bounds_buf) (CM := flat_client) ∅ demo_dev
    demo_context demo_token 42 (load_bytes ∅ 0x5000 24) (proj1 demo_token_ok) eq_refl).
  vm_compute. discriminate.
Defined.
