(* ===== verification/AuthCipher.v ===== *)
(** * The encrypted buffers (auth/security_auth_enhance.c)

    Sizes, layout and decryption of what [do_encryption] and
    [encrypt_login_info] produce. *)

From stdpp Require Import base gmap list.
From Stdlib Require Import ZArith Lia.
From S2P Require Import Prelude KernelApi TeeTypes Buffers Mailbox MailboxClaims SessReg.
From S2P Require Import SessLookup CallTypes Auth AuthCall AuthThm AuthCallClaims.

(** ** Rounding *)

Lemma lor_ones a k : 0 ≤ k → Z.lor a (Z.ones k) = a / 2 ^ k * 2 ^ k + Z.ones k.
Proof.
  intros Hk.
  assert (Z.lor a (Z.ones k) = Z.lor (Z.ldiff a (Z.ones k)) (Z.ones k)) as ->.
  { apply Z.bits_inj'. intros n _. rewrite !Z.lor_spec, Z.ldiff_spec.
    by destruct (Z.testbit a n), (Z.testbit (Z.ones k) n). }
  pose proof (Z.add_lor_land (Z.ldiff a (Z.ones k)) (Z.ones k)) as E.
  assert (Z.land (Z.ldiff a (Z.ones k)) (Z.ones k) = 0) as E0.
  { apply Z.bits_inj'. intros n _. rewrite Z.land_spec, Z.ldiff_spec, Z.bits_0.
    by destruct (Z.testbit a n), (Z.testbit (Z.ones k) n). }
  rewrite E0, Z.add_0_r in E. rewrite E.
  by rewrite Z.ldiff_ones_r, Z.shiftl_mul_pow2, Z.shiftr_div_pow2 by lia.
Qed.

Lemma round_up_spec x k :
  0 ≤ k ≤ 16 → 0 < x ≤ 2 ^ 31 →
  round_up x (2 ^ k) mod 2 ^ k = 0 ∧ x ≤ round_up x (2 ^ k) < x + 2 ^ k.
Proof.
  intros Hk Hx. unfold round_up. rewrite (u32_small (x - 1)) by lia.
  replace (2 ^ k - 1) with (Z.ones k) by (rewrite Z.ones_equiv; lia).
  rewrite lor_ones by lia. rewrite Z.ones_equiv.
  pose proof (Z.div_mod (x - 1) (2 ^ k) ltac:(pose proof (pow2_pos k); lia)) as Hd.
  pose proof (Z.mod_pos_bound (x - 1) (2 ^ k) ltac:(pose proof (pow2_pos k); lia)) as Hm.
  pose proof (pow2_le k 16 ltac:(lia)) as Hp.
  set (q := (x - 1) / 2 ^ k) in *. set (d := 2 ^ k) in *.
  replace (q * d + Z.pred d + 1) with ((q + 1) * d) by lia.
  rewrite u32_small by nia. split; [apply Z.mod_mul; nia|]. nia.
Qed.

Lemma round_up_16 x : 0 < x ≤ 2 ^ 31 →
  round_up x CIPHER_BLOCK_BYTESIZE mod 16 = 0 ∧
  x ≤ round_up x CIPHER_BLOCK_BYTESIZE < x + 16.
Proof. intros. apply (round_up_spec x 4); lia. Qed.

(** ** Stages of the encryption *)

Section Stages.
Context {SB : SecureBuf} {SBL : SecureBufLaws SB}.
Context {KR : KernelRandom} {KRL : KernelRandomLaws KR}.
Context {KC : KernelCipher} {KCL : KernelCipherLaws KC}.

Lemma splice_nil l off : splice l off [] = l.
Proof. unfold splice. simpl. rewrite Nat.add_0_r. apply take_drop. Qed.

Lemma cms_padding_value p len payload :
  0 < len ≤ 65536 → len mod 16 = 0 → payload ≤ len < payload + 16 →
  crypto_aescbc_cms_padding (Some p) len payload
    = (0, Some (splice p payload (replicate (Z.to_nat (len - payload)) (len - payload)))).
Proof.
  intros Hl Hm Hp. unfold crypto_aescbc_cms_padding, CIPHER_BLOCK_BYTESIZE.
  rewrite Hm. cbn [nonzero Z.eqb negb].
  rewrite (proj2 (Z.eqb_neq len 0)), (proj2 (Z.ltb_ge len payload)) by lia. cbn [orb].
  cbv zeta. rewrite (proj2 (Z.leb_gt 16 (len - payload))) by lia.
  destruct (Z.eqb_spec (len - payload) 0) as [->|Hn]; [by rewrite splice_nil|].
  rewrite buf_set_small by lia. cbn [nonzero Z.eqb negb EOK].
  change (nonzero EOK) with false. cbv iota. do 3 f_equal.
  unfold u8. rewrite (Z.mod_small (len - payload)) by lia. by rewrite Z.mod_small by lia.
Qed.

Lemma set_encryption_head_value h len :
  len ≠ 0 →
  set_encryption_head (Some h) len
    = (0, Some (splice (splice h 0 MAGIC_STRING) 16 (le_bytes 4 len))).
Proof.
  intros Hl. unfold set_encryption_head. rewrite (proj2 (Z.eqb_neq len 0)) by done.
  rewrite buf_copy_small by lia. change (nonzero EOK) with false. cbv iota.
  change (sub_buf MAGIC_STRING 0 14) with MAGIC_STRING. done.
Qed.

Lemma head_valid h len :
  length h = 20%nat → 0 < len < 2 ^ 32 →
  is_valid_encryption_head (splice (splice h 0 MAGIC_STRING) 16 (le_bytes 4 len)) len = true.
Proof.
  intros Hh Hl. unfold is_valid_encryption_head. rewrite (proj2 (Z.eqb_neq len 0)) by lia.
  assert (zlen h = 20) by (unfold zlen; lia).
  assert (zlen (splice h 0 MAGIC_STRING) = 20).
  { unfold zlen at 1. rewrite splice_length; [lia|done|].
    change (zlen MAGIC_STRING) with 14. lia. }
  assert (zlen (le_bytes 4 len) = 4) as E4 by (unfold zlen; by rewrite le_bytes_length).
  apply andb_true_iff. split.
  - apply bool_decide_eq_true. rewrite sub_buf_splice_other by (done || lia).
    change 14 with (zlen MAGIC_STRING). apply sub_buf_splice_same; [done|].
    change (zlen MAGIC_STRING) with 14. lia.
  - apply Z.eqb_eq. rewrite <- E4 at 1. rewrite sub_buf_splice_same by lia.
    apply le_value_bytes. change (256 ^ Z.of_nat 4) with (2 ^ 32). lia.
Qed.

(** A random vector of the requested length, when one is produced. *)
Lemma generate_random_data_value d off n d' :
  0 < n ≤ 65536 → 0 ≤ off → off + n ≤ zlen d →
  generate_random_data (Some d) off n = (0, d') →
  ∃ v, length v = Z.to_nat n ∧ d' = Some (splice d off v).
Proof.
  intros Hn Ho Hl. unfold generate_random_data.
  rewrite (proj2 (Z.eqb_neq n 0)) by lia. rewrite buf_set_small by lia.
  change (nonzero EOK) with false. cbv iota.
  set (z := replicate (Z.to_nat n) (u8 0)).
  assert (zlen z = n) as Hz by (unfold zlen, z; rewrite length_replicate; lia).
  assert (zlen (splice d off z) = zlen d) as Hz1.
  { unfold zlen. rewrite splice_length; lia. }
  set (ra := get_random_bytes_arch n).
  assert (zlen ra ≤ n) as Hra.
  { unfold zlen, ra. pose proof (random_arch_length n ltac:(lia)). lia. }
  assert (splice (splice d off z) off ra = splice d off (splice z 0 ra)) as E1.
  { apply list_eq. intros i.
    assert (zlen (splice z 0 ra) = n) as Hz2.
    { unfold zlen at 1. rewrite splice_length; [exact Hz|lia|lia]. }
    assert (0 ≤ zlen ra) by (unfold zlen; lia).
    rewrite !splice_lookup by lia. rewrite Hz, Hz2.
    repeat case_decide; try lia; try done. f_equal. lia. }
  assert (length (splice z 0 ra) = Z.to_nat n) as Hz3.
  { rewrite splice_length; [unfold zlen in Hz; lia|lia|lia]. }
  rewrite E1. destruct (_ =? 0).
  - intros [= <-]. by eexists.
  - destruct (nonzero _); [done|]. intros [= <-].
    exists (get_random_bytes n). split; [apply random_soft_length; lia|].
    f_equal. apply splice_splice; unfold zlen in *; rewrite ?Hz3; try lia.
    rewrite random_soft_length; lia.
Qed.

Lemma aescbc_value inp v k size enc out :
  length v = 16%nat → crypto_aescbc_key256 inp v k size enc = (0, out) →
  crypto_alloc_skcipher = true ∧ skcipher_request_alloc = true ∧
  crypto_skcipher_setkey k = 0 ∧
  ∃ o, out = Some o ∧ skcipher_crypt (nonzero enc) k v (sub_buf inp 0 size) = (0, o).
Proof.
  intros Hv. unfold crypto_aescbc_key256. destruct crypto_alloc_skcipher; [|done].
  destruct skcipher_request_alloc; [|done]. cbn [negb].
  destruct (nonzero (crypto_skcipher_setkey k)) eqn:E; [done|].
  apply nonzero_false in E. rewrite buf_copy_small by done.
  change (nonzero EOK) with false. cbv iota.
  assert (splice (replicate 16 0) 0 (sub_buf v 0 IV_BYTESIZE) = v) as ->.
  { unfold sub_buf. rewrite drop_0, take_ge by (rewrite Hv; done).
    unfold splice. rewrite drop_ge by (rewrite Hv, length_replicate; done).
    rewrite app_nil_r. done. }
  destruct (skcipher_crypt (nonzero enc) k v (sub_buf inp 0 size)) as [r o] eqn:Ec.
  intros [= -> <-]. eauto 10.
Qed.

(** With the vector behind the ciphertext. *)
Lemma session_encrypt_value inp n out k o :
  0 < n ≤ 65536 → length out = Z.to_nat (n + 16) →
  crypto_session_aescbc_key256 (Some inp) n (Some out) (n + 16) (Some k) None ENCRYPT
    = (0, o) →
  (Z.to_nat n ≤ length inp)%nat →
  crypto_alloc_skcipher = true ∧ skcipher_request_alloc = true ∧
  crypto_skcipher_setkey k = 0 ∧
  ∃ v c, length v = 16%nat ∧
    skcipher_crypt true k v (take (Z.to_nat n) inp) = (0, c) ∧ o = Some (c ++ v).
Proof.
  intros Hn Hout. unfold crypto_session_aescbc_key256.
  cbn [check_params_for_crypto_session].
  destruct ((n <? IV_BYTESIZE) || (n + 16 <? IV_BYTESIZE)); [done|].
  change (nonzero 0) with false. change (ENCRYPT =? ENCRYPT) with true. cbn [orb negb default from_option id].
  replace (n + 16 - IV_BYTESIZE) with n by (unfold IV_BYTESIZE; lia).
  destruct (_ || _); [done|].
  destruct (generate_random_data (Some out) n IV_BYTESIZE) as [r o'] eqn:Hg.
  destruct (nonzero r) eqn:Hr; [intros E%(f_equal fst); simpl in E; by rewrite E in Hr|].
  apply nonzero_false in Hr as ->.
  apply generate_random_data_value in Hg as (v & Hv & ->);
    [|done|lia|unfold zlen, IV_BYTESIZE; lia].
  change (Z.to_nat IV_BYTESIZE) with 16%nat in Hv. cbn [default from_option id].
  assert (sub_buf (splice out n v) n IV_BYTESIZE = v) as ->.
  { replace IV_BYTESIZE with (zlen v) by (unfold zlen; rewrite Hv; done).
    apply sub_buf_splice_same; unfold zlen; lia. }
  destruct (crypto_aescbc_key256 inp v k n ENCRYPT) as [ret text] eqn:Hc.
  intros [= -> <-] Hi.
  destruct (aescbc_value _ _ _ _ _ _ Hv Hc) as (? & ? & ? & c & -> & Hcr).
  split; [done|]. split; [done|]. split; [done|]. exists v, c. split; [done|].
  split; [done|]. f_equal. pose proof (skcipher_length _ _ _ _ _ Hcr) as Hlc.
  rewrite sub_buf_length in Hlc by (unfold zlen; lia).
  unfold splice. rewrite (drop_ge out) by lia.
  rewrite drop_app_length' by (rewrite length_take; lia).
  by rewrite app_nil_r.
Qed.

Lemma session_decrypt_value c v n out k pt :
  0 < n ≤ 65536 → n mod 16 = 0 → length c = Z.to_nat n → length v = 16%nat →
  length out = Z.to_nat n →
  crypto_alloc_skcipher = true → skcipher_request_alloc = true →
  crypto_skcipher_setkey k = 0 → skcipher_crypt false k v c = (0, pt) →
  crypto_session_aescbc_key256 (Some (c ++ v)) (n + 16) (Some out) n (Some k) None DECRYPT
    = (0, Some pt).
Proof.
  intros Hn Hm Hc Hv Hout Ha Hq Hk Hd.
  assert (16 ≤ n) as H16 by (apply Z.mod_divide in Hm as [q ->]; lia).
  unfold crypto_session_aescbc_key256. cbn [check_params_for_crypto_session].
  rewrite (proj2 (Z.ltb_ge (n + 16) IV_BYTESIZE)) by (unfold IV_BYTESIZE; lia).
  rewrite (proj2 (Z.ltb_ge n IV_BYTESIZE)) by (unfold IV_BYTESIZE; lia).
  cbn [orb]. change (nonzero 0) with false. change (DECRYPT =? ENCRYPT) with false.
  change (DECRYPT =? DECRYPT) with true. cbn [orb negb default from_option id].
  replace (n + 16 - IV_BYTESIZE) with n by (unfold IV_BYTESIZE; lia).
  rewrite Z.eqb_refl, (proj2 (Z.eqb_neq n 0)) by lia.
  change CIPHER_BLOCK_BYTESIZE with 16. rewrite Hm. change (nonzero 0) with false.
  cbn [orb negb]. change (nonzero 0) with false. cbv iota.
  assert (sub_buf (c ++ v) n IV_BYTESIZE = v) as ->.
  { unfold sub_buf. rewrite drop_app_length' by lia. by rewrite take_ge by (rewrite Hv; done). }
  unfold crypto_aescbc_key256. rewrite Ha, Hq, Hk. change (nonzero 0) with false.
  cbn [negb]. rewrite buf_copy_small by done. change (nonzero EOK) with false. cbv iota.
  assert (splice (replicate 16 0) 0 (sub_buf v 0 IV_BYTESIZE) = v) as ->.
  { unfold sub_buf. rewrite drop_0, take_ge by (rewrite Hv; done).
    unfold splice. rewrite drop_ge by (rewrite Hv, length_replicate; done).
    rewrite app_nil_r. done. }
  assert (sub_buf (c ++ v) 0 n = c) as ->.
  { unfold sub_buf. rewrite drop_0. by rewrite take_app_length' by lia. }
  change (nonzero DECRYPT) with false. rewrite Hd. do 2 f_equal.
  pose proof (skcipher_length _ _ _ _ _ Hd).
  unfold splice. rewrite drop_ge by lia. by rewrite app_nil_r.
Qed.

End Stages.

(** ** The whole encryption *)

Section Encryption.
Context {SB : SecureBuf} {SBL : SecureBufLaws SB}.
Context {KR : KernelRandom} {KRL : KernelRandomLaws KR}.
Context {KC : KernelCipher} {KCL : KernelCipherLaws KC}.
Context {KA : KernelAlloc}.

(** The plaintext [do_encryption] builds: payload, head, padding. *)
Definition framed (payload pad : Z) (head buf : list Z) : list Z :=
  splice (splice buf payload head) (payload + 20)
    (replicate (Z.to_nat pad) pad).

Lemma calc_plaintext_size_value payload size :
  0 < payload → size ≤ 65536 → payload ≤ 65536 →
  calc_plaintext_size payload size =
    let pta := round_up (payload + 20) CIPHER_BLOCK_BYTESIZE in
    (if size <? pta + 16 then - ENOMEM else 0, (payload + 20, pta, pta + 16)).
Proof.
  intros Hp Hs Hp'. unfold calc_plaintext_size, ENCRYPTION_HEAD_LEN, IV_BYTESIZE.
  rewrite (u32_small (payload + 20)) by lia.
  pose proof (round_up_16 (payload + 20) ltac:(lia)).
  rewrite (u32_small (_ + 16)) by lia. done.
Qed.

(** A successful [do_encryption], stage by stage. *)
Lemma do_encryption_inv idx buf size payload k b :
  0 < payload ≤ 65536 → 0 < size ≤ 65536 → length buf = Z.to_nat size →
  length uninit_head = 20%nat →
  do_encryption idx (Some buf) size payload (Some k) = (0, b) →
  let pta := round_up (payload + 20) CIPHER_BLOCK_BYTESIZE in
  let head := splice (splice uninit_head 0 MAGIC_STRING) 16 (le_bytes 4 payload) in
  pta + 16 ≤ size ∧
  crypto_alloc_skcipher = true ∧ skcipher_request_alloc = true ∧
  crypto_skcipher_setkey k = 0 ∧
  ∃ v c, length v = 16%nat ∧
    skcipher_crypt true k v
      (take (Z.to_nat pta) (framed payload (pta - (payload + 20)) head buf)) = (0, c) ∧
    b = Some (splice buf 0 (c ++ v)).
Proof.
  intros Hp Hs Hb Hu H pta head. unfold do_encryption in H.
  cbn [check_param_for_encryption] in H.
  rewrite (proj2 (Z.eqb_neq size 0)) in H by lia.
  destruct (kzalloc_ok (site_plaintext idx)); [|done]. cbn [negb] in H.
  rewrite buf_copy_small in H by lia. change (nonzero EOK) with false in H. cbv iota in H.
  change (nonzero 0) with false in H. cbv iota in H. cbn [default from_option id] in H.
  replace (splice (replicate (Z.to_nat size) 0) 0 (sub_buf buf 0 size)) with buf in H.
  2:{ unfold sub_buf. rewrite drop_0, take_ge by lia. unfold splice.
      rewrite drop_ge by (rewrite length_replicate; lia). by rewrite app_nil_r. }
  rewrite calc_plaintext_size_value in H by lia. cbv zeta in H. fold pta in H.
  pose proof (round_up_16 (payload + 20) ltac:(lia)) as [Hmod Hpta]. fold pta in Hmod, Hpta.
  destruct (Z.ltb_spec size (pta + 16)) as [|Hsz]; [done|].
  change (nonzero 0) with false in H. cbv iota in H.
  destruct (kzalloc_ok (site_cryptotext idx)); [|done]. cbn [negb] in H.
  rewrite set_encryption_head_value in H by lia. fold head in H.
  change (nonzero 0) with false in H. cbv iota in H. cbn [default from_option id] in H.
  rewrite (u32_small (size - payload)) in H by lia.
  rewrite buf_copy_small in H by (unfold ENCRYPTION_HEAD_LEN; lia).
  change (nonzero EOK) with false in H. cbv iota in H.
  assert (length head = 20%nat) as Hh.
  { unfold head. rewrite !splice_length; try done; unfold zlen.
    - rewrite Hu. done.
    - rewrite splice_length, le_bytes_length, Hu; try done. unfold zlen. rewrite Hu. done. }
  replace (sub_buf head 0 ENCRYPTION_HEAD_LEN) with head in H.
  2:{ unfold sub_buf. rewrite drop_0, take_ge by (rewrite Hh; done). done. }
  rewrite cms_padding_value in H by lia.
  change (nonzero 0) with false in H. cbv iota in H.
  fold (framed payload (pta - (payload + 20)) head buf) in H.
  set (pt := framed payload (pta - (payload + 20)) head buf) in *.
  assert (length pt = Z.to_nat size) as Hpt.
  { unfold pt, framed. rewrite !splice_length; unfold zlen; rewrite ?length_replicate; try lia.
    rewrite splice_length; unfold zlen; lia. }
  destruct (crypto_session_aescbc_key256 _ _ _ _ _ _ _) as [ret o] eqn:Hc.
  destruct (nonzero ret) eqn:Hr.
  { apply (f_equal fst) in H. simpl in H. by rewrite H in Hr. }
  apply nonzero_false in Hr as ->.
  apply session_encrypt_value in Hc as (? & ? & ? & v & c & Hv & Hcr & ->);
    [|lia|by rewrite length_replicate|lia].
  split; [done|]. split; [done|]. split; [done|]. split; [done|].
  exists v, c. split; [done|]. split; [done|].
  cbn [default from_option id] in H. rewrite buf_copy_small in H by lia.
  injection H as <-. do 2 f_equal. unfold sub_buf. rewrite drop_0, take_ge; [done|].
  apply skcipher_length in Hcr. rewrite length_take in Hcr. rewrite length_app. lia.
Qed.

(** A failed encryption does not touch the buffer. *)
Lemma do_encryption_fail idx buf size payload k r b :
  0 < payload ≤ 65536 → 0 < size ≤ 65536 →
  do_encryption idx (Some buf) size payload (Some k) = (r, b) → r ≠ 0 → b = Some buf.
Proof.
  intros Hp Hs. unfold do_encryption.
  destruct (check_param_for_encryption _ _ _ _) as [r0 p0].
  destruct (nonzero r0); [by intros [= _ <-]|].
  rewrite calc_plaintext_size_value by lia. cbv zeta.
  pose proof (round_up_16 (payload + 20) ltac:(lia)) as [_ Hpta].
  destruct (Z.ltb_spec size (round_up (payload + 20) CIPHER_BLOCK_BYTESIZE + 16));
    [by intros [= _ <-]|].
  change (nonzero 0) with false. cbv iota.
  destruct (negb _); [by intros [= _ <-]|].
  destruct (set_encryption_head _ _) as [r1 h1]. destruct (nonzero r1); [by intros [= _ <-]|].
  destruct (buf_copy _ _ _ _ _ _) as [r2 h2]. destruct (nonzero r2); [by intros [= _ <-]|].
  destruct (crypto_aescbc_cms_padding _ _ _) as [r3 h3].
  destruct (nonzero r3); [by intros [= _ <-]|].
  destruct (crypto_session_aescbc_key256 _ _ _ _ _ _ _) as [r4 h4].
  destruct (nonzero r4); [by intros [= _ <-]|].
  rewrite buf_copy_small by lia. intros [= <- _]. done.
Qed.

Lemma sub_buf_take l n o m :
  0 ≤ o → 0 ≤ m → o + m ≤ n → sub_buf (take (Z.to_nat n) l) o m = sub_buf l o m.
Proof.
  intros. unfold sub_buf. 
  apply list_eq. intros i. rewrite !lookup_take. case_decide; [|done].
  rewrite !lookup_drop, lookup_take, decide_True by lia. done.
Qed.

(** The three parts of the framed plaintext. *)
Lemma framed_parts payload pta head buf :
  0 < payload → length head = 20%nat → payload + 20 ≤ pta → pta ≤ zlen buf →
  let pt := take (Z.to_nat pta) (framed payload (pta - (payload + 20)) head buf) in
  sub_buf pt 0 payload = sub_buf buf 0 payload ∧
  sub_buf pt payload 20 = head ∧
  sub_buf pt (payload + 20) (pta - (payload + 20))
    = replicate (Z.to_nat (pta - (payload + 20))) (pta - (payload + 20)).
Proof.
  intros Hp Hh Hpta Hb pt. unfold pt, framed.
  set (pad := replicate _ _).
  assert (zlen head = 20) as Eh by (unfold zlen; lia).
  assert (zlen pad = pta - (payload + 20)) as Epad.
  { unfold zlen, pad. rewrite length_replicate. lia. }
  assert (zlen (splice buf payload head) = zlen buf) as E1.
  { unfold zlen. rewrite splice_length; unfold zlen in *; lia. }
  rewrite !sub_buf_take by lia. repeat split.
  - rewrite !sub_buf_splice_other by lia. done.
  - rewrite sub_buf_splice_other by lia. rewrite <- Eh at 1.
    apply sub_buf_splice_same; lia.
  - rewrite <- Epad. apply sub_buf_splice_same; lia.
Qed.

(** C36. What [do_encryption] leaves in the buffer fits in it, changes nothing
    behind the encrypted data, and decrypts with the same key to the payload,
    a valid head that carries the payload's length, and the padding.  The
    plaintext is padded to a multiple of 16 bytes ([CIPHER_BLOCK_BYTESIZE]) and
    the 16 bytes of the initialisation vector lie behind the ciphertext, where
    the decryption takes them from; the comments of the source give 32 bytes
    and the front of the buffer.  (Payload and buffer are at most 64 KiB; the
    cipher of the kernel undoes itself under the same key and vector.) *)
Theorem do_encryption_decrypts idx buf size payload k b :
  0 < payload ≤ 65536 → 0 < size ≤ 65536 → length buf = Z.to_nat size →
  length uninit_head = 20%nat →
  do_encryption idx (Some buf) size payload (Some k) = (0, Some b) →
  let pta := round_up (payload + 20) CIPHER_BLOCK_BYTESIZE in
  pta + 16 ≤ size ∧ length b = length buf ∧
  drop (Z.to_nat (pta + 16)) b = drop (Z.to_nat (pta + 16)) buf ∧
  ∃ pt, crypto_session_aescbc_key256 (Some (take (Z.to_nat (pta + 16)) b)) (pta + 16)
          (Some (replicate (Z.to_nat pta) 0)) pta (Some k) None DECRYPT = (0, Some pt) ∧
    sub_buf pt 0 payload = sub_buf buf 0 payload ∧
    is_valid_encryption_head (sub_buf pt payload 20) payload = true ∧
    sub_buf pt (payload + 20) (pta - (payload + 20))
      = replicate (Z.to_nat (pta - (payload + 20))) (pta - (payload + 20)).
Proof.
  intros Hp Hs Hb Hu He pta.
  destruct (do_encryption_inv _ _ _ _ _ _ Hp Hs Hb Hu He)
    as (Hsz & Ha & Hq & Hk & v & c & Hv & Hc & [= Eb]). fold pta in Hsz, Hc.
  pose proof (round_up_16 (payload + 20) ltac:(lia)) as [Hmod Hpta]. fold pta in Hmod, Hpta.
  set (head := splice (splice uninit_head 0 MAGIC_STRING) 16 (le_bytes 4 payload)) in *.
  assert (length head = 20%nat) as Hh.
  { unfold head. rewrite !splice_length; try done; unfold zlen.
    - rewrite Hu. done.
    - rewrite splice_length, le_bytes_length, Hu; try done. unfold zlen. rewrite Hu. done. }
  set (pt := take (Z.to_nat pta) _) in Hc.
  assert (length pt = Z.to_nat pta) as Hpt.
  { unfold pt, framed. rewrite length_take, !splice_length; unfold zlen;
      rewrite ?length_replicate, ?splice_length; unfold zlen; lia. }
  pose proof (skcipher_length _ _ _ _ _ Hc) as Hlc.
  assert (zlen (c ++ v) = pta + 16) as Hcv by (unfold zlen; rewrite length_app; lia).
  assert (splice buf 0 (c ++ v) = (c ++ v) ++ drop (Z.to_nat (pta + 16)) buf) as Esp.
  { unfold splice. unfold zlen in Hcv. simpl. do 2 f_equal. lia. }
  split; [done|]. split; [rewrite Eb, splice_length; unfold zlen in *; lia|]. split.
  { rewrite Eb, Esp. apply drop_app_length'. unfold zlen in Hcv. lia. }
  exists pt. split.
  { rewrite Eb, Esp, take_app_length' by (unfold zlen in Hcv; lia).
    apply session_decrypt_value; try done; try lia.
    - by rewrite length_replicate.
    - by eapply skcipher_inverse. }
  destruct (framed_parts payload pta head buf ltac:(lia) Hh ltac:(lia)
    ltac:(unfold zlen; lia)) as (H1 & H2 & H3).
  split; [done|]. split; [|done]. fold pt in H2. rewrite H2. apply head_valid; [done|lia].
Qed.

(** The encrypted size of a valid login payload. *)
Lemma login_total_size_value n :
  0 < n ≤ AES_LOGIN_MAXLEN →
  login_total_size n = round_up (n + 21) CIPHER_BLOCK_BYTESIZE + 16 ∧
  login_total_size n ≤ 2048 ∧ u32 (n + 1) = n + 1.
Proof.
  unfold AES_LOGIN_MAXLEN. intros Hn. unfold login_total_size, ENCRYPTION_HEAD_LEN.
  rewrite (u32_small (n + 1)) by lia. rewrite (u32_small (n + 1 + 20)) by lia.
  pose proof (round_up_16 (n + 1 + 20) ltac:(lia)).
  rewrite (u32_small (round_up _ _ + _)) by (unfold IV_BYTESIZE; lia).
  replace (n + 21) with (n + 1 + 20) by lia. unfold IV_BYTESIZE. lia.
Qed.

Lemma is_valid_login_size n :
  0 ≤ n → is_valid_size n (login_total_size n) = true → 0 < n ≤ AES_LOGIN_MAXLEN.
Proof.
  intros Hn. unfold is_valid_size, AES_LOGIN_MAXLEN. destruct (Z.ltb_spec 1024 n); [done|].
  destruct (decide (n = 0)) as [->|]; [done|lia].
Qed.

Lemma align_4k_small n : 0 < n ≤ 4096 → align_4k n = 4096.
Proof.
  intros Hn. unfold align_4k, SZ_4K. rewrite u64_small by lia.
  change (4096 - 1) with (Z.ones 12). rewrite Z.ldiff_ones_r by lia.
  rewrite Z.shiftr_div_pow2, Z.shiftl_mul_pow2 by lia.
  change (2 ^ 12) with 4096. change (Z.ones 12) with 4095.
  assert ((n + 4095) / 4096 = 1) as -> by (symmetry; apply Z.div_unique with (n - 1); lia).
  done.
Qed.

(** Encrypting login data in place never writes outside the 4 KiB-rounded
    block that was allocated for it, and it is refused for empty data and for
    data over [AES_LOGIN_MAXLEN]. *)
Theorem encrypt_login_info_in_block idx m n buffer k r m' :
  0 ≤ n < 2 ^ 32 → length uninit_head = 20%nat →
  encrypt_login_info idx m n buffer (Some k) = (r, m') →
  (∀ x, ¬ buffer ≤ x < buffer + align_4k n → m' !! x = m !! x) ∧
  (r = 0 → 0 < n ≤ AES_LOGIN_MAXLEN).
Proof.
  intros Hn Hu. unfold encrypt_login_info. destruct (buffer =? 0); [by intros [= <- <-]|].
  cbv zeta. destruct (is_valid_size n (login_total_size n)) eqn:Hv; [|by intros [= <- <-]].
  cbn [negb]. apply is_valid_login_size in Hv as Hr; [|lia].
  destruct (login_total_size_value n Hr) as (Et & Hle & Ep).
  unfold AES_LOGIN_MAXLEN in Hr. pose proof (round_up_16 (n + 21) ltac:(lia)) as Hru.
  assert (0 < login_total_size n ≤ 65536) as Htot by lia. rewrite Ep.
  assert (0 < n + 1 ≤ 65536) as Hpay by lia.
  set (old := load_bytes m buffer _).
  destruct (do_encryption idx (Some old) (login_total_size n) (n + 1) (Some k))
    as [r0 b0] eqn:He.
  intros [= <- <-]. split; [|done].
  assert (∃ b, b0 = Some b ∧ length b = Z.to_nat (login_total_size n)) as (b & -> & Hb).
  { assert (length old = Z.to_nat (login_total_size n)) as Hold by apply load_bytes_length.
    destruct (decide (r0 = 0)) as [->|Hr0].
    - destruct (do_encryption_inv _ _ _ _ _ _ Hpay Htot Hold Hu He)
        as (Hsz & _ & _ & _ & v & c & Hlv & Hc & ->). eexists. split; [done|].
      apply skcipher_length in Hc. rewrite length_take in Hc.
      rewrite splice_length; [done|done|]. unfold zlen. rewrite length_app. lia.
    - exists old. split; [|done].
      exact (do_encryption_fail _ _ _ _ _ _ _ Hpay Htot He Hr0). }
  intros x Hx. cbn [default from_option id]. apply store_bytes_lookup_outside.
  rewrite align_4k_small in Hx by lia. lia.
Qed.

End Encryption.

(** ** Concrete instances *)

(** A stand-in cipher: length-preserving and its own inverse. *)
Definition xor_cipher : KernelCipher := {|
  crypto_alloc_skcipher := true;
  skcipher_request_alloc := true;
  crypto_skcipher_setkey _ := 0;
  skcipher_crypt _ k v l := (0, (λ b, Z.lxor b 0x5a) <$> l)
|}.

#[export] Instance xor_cipher_laws : KernelCipherLaws xor_cipher.
Proof.
  split; simpl; intros.
  - simplify_eq. apply length_fmap.
  - simplify_eq. f_equal. rewrite <- list_fmap_compose. rewrite <- (list_fmap_id l) at 2.
    apply list_fmap_ext. intros. simpl. apply lxor_cancel.
Qed.

Definition demo_random : KernelRandom := {|
  get_random_bytes_arch n := replicate (Z.to_nat n) 7;
  get_random_bytes n := replicate (Z.to_nat n) 9
|}.

#[export] Instance demo_random_laws : KernelRandomLaws demo_random.
Proof. split; simpl; intros; rewrite length_replicate; lia. Qed.

Definition demo_alloc_ok_all : KernelAlloc := {|
  kzalloc_ok _ := true;
  uninit_head := replicate 20 0xcc
|}.

(** The hash buffer of a session: 64 bytes of payload in 112 bytes. *)
Lemma do_encryption_decrypts_witness :
  ∃ b pt, do_encryption (SB := bounds_buf) (KR := demo_random) (KC := xor_cipher)
            (KA := demo_alloc_ok_all) 0 (Some (replicate 112 3)) 112 64 (Some (replicate 32 1))
          = (0, Some b) ∧
    crypto_session_aescbc_key256 (SB := bounds_buf) (KR := demo_random) (KC := xor_cipher)
      (Some (take 112 b)) 112 (Some (replicate 96 0)) 96 (Some (replicate 32 1)) None DECRYPT
      = (0, Some pt) ∧ sub_buf pt 0 64 = replicate 64 3.
Proof.
  destruct (do_encryption (SB := bounds_buf) (KR := demo_random) (KC := xor_cipher)
    (KA := demo_alloc_ok_all) 0 (Some (replicate 112 3)) 112 64 (Some (replicate 32 1)))
    as [r [b|]] eqn:E; [|vm_compute in E; discriminate].
  assert (r = 0) as -> by (vm_compute in E; congruence).
  destruct (do_encryption_decrypts (SB := bounds_buf) (KR := demo_random)
    (KC := xor_cipher) (KA := demo_alloc_ok_all) 0 (replicate 112 3) 112 64 (replicate 32 1) b
    ltac:(lia) ltac:(lia) eq_refl eq_refl E) as (_ & _ & _ & pt & Hd & Hp & _).
  exists b, pt. split; [reflexivity|]. split; [exact Hd|exact Hp].
Defined.

(** One block of 16 bytes is accepted, and the initialisation vector (seven) is
    in the last 16 bytes of the output. *)
Lemma session_cipher_layout :
  ∃ o, crypto_session_aescbc_key256 (SB := bounds_buf) (KR := demo_random) (KC := xor_cipher)
         (Some (replicate 16 3)) 16 (Some (replicate 32 0)) 32 (Some (replicate 32 1)) None ENCRYPT
       = (0, Some o) ∧ sub_buf o 16 16 = replicate 16 7.
Proof. eexists. split; vm_compute; reflexivity. Qed.

Lemma encrypt_login_info_in_block_witness :
  ∃ m', encrypt_login_info (SB := bounds_buf) (KR := demo_random) (KC := xor_cipher)
          (KA := demo_alloc_ok_all) 2 ∅ 255 0x10000 (Some (replicate 32 1)) = (0, m') ∧
    m' !! 0x11000 = None.
Proof.
  destruct (encrypt_login_info (SB := bounds_buf) (KR := demo_random) (KC := xor_cipher)
    (KA := demo_alloc_ok_all) 2 ∅ 255 0x10000 (Some (replicate 32 1))) as [r m'] eqn:E.
  assert (r = 0) as ->.
  { assert (((encrypt_login_info (SB := bounds_buf) (KR := demo_random) (KC := xor_cipher)
      (KA := demo_alloc_ok_all) 2 ∅ 255 0x10000 (Some (replicate 32 1))).1 =? 0) = true) as H
      by (vm_compute; reflexivity).
    rewrite E in H. apply Z.eqb_eq in H. exact H. }
  exists m'. split; [reflexivity|].
  destruct (encrypt_login_info_in_block (SB := bounds_buf) (KR := demo_random)
    (KC := xor_cipher) (KA := demo_alloc_ok_all) 2 ∅ 255 0x10000 (replicate 32 1) 0 m'
    ltac:(lia) eq_refl E) as [H _].
  rewrite H; [reflexivity|]. vm_compute. intros [_ Hx]. discriminate.
Defined.
