(* ===== verification/SmcQueue.v ===== *)
(** * The SMC command queue (core/smc_smp.c)

    The page shared with the TEE: three bitmaps and the arrays of incoming and
    outgoing command blocks.  A slot's three bits say who works on it.  Each
    definition below runs with [smc_lock] held, or is the sequence of such
    sections of one C function. *)

From stdpp Require Import base gmap list.
From Stdlib Require Import ZArith Lia.
From S2P Require Import Prelude KernelApi TeeTypes Buffers Mailbox SessReg CallTypes Auth.

Definition MAX_SMC_CMD : Z := 1000.
Definition FIND_SMC_ENTRY_RETRY_MAX_COUNT : Z := 25000.

(** [struct tc_ns_smc_queue]; the bitmaps are integers, bit [i] for slot [i]. *)
Record tc_ns_smc_queue := SmcQueue {
  in_bitmap : Z;
  doing_bitmap : Z;
  out_bitmap : Z;
  q_in : list tc_ns_smc_cmd;
  q_out : list tc_ns_smc_cmd
}.

Definition in_cmd (q : tc_ns_smc_queue) (i : Z) : tc_ns_smc_cmd :=
  nth (Z.to_nat i) (q_in q) zero_smc_cmd.
Definition out_cmd (q : tc_ns_smc_queue) (i : Z) : tc_ns_smc_cmd :=
  nth (Z.to_nat i) (q_out q) zero_smc_cmd.

Definition set_in_cmd (q : tc_ns_smc_queue) (i : Z) (c : tc_ns_smc_cmd) : tc_ns_smc_queue :=
  SmcQueue (in_bitmap q) (doing_bitmap q) (out_bitmap q) (<[Z.to_nat i := c]> (q_in q))
    (q_out q).

(** New values of the slot's [in], [doing] and [out] bits. *)
Definition put_bit (bm i : Z) (b : bool) : Z := if b then Z.setbit bm i else Z.clearbit bm i.

Definition set_bits (q : tc_ns_smc_queue) (i : Z) (bi bd bo : option bool) : tc_ns_smc_queue :=
  let upd bm (b : option bool) := match b with Some b => put_bit bm i b | None => bm end in
  SmcQueue (upd (in_bitmap q) bi) (upd (doing_bitmap q) bd) (upd (out_bitmap q) bo)
    (q_in q) (q_out q).

Definition in_set (q : tc_ns_smc_queue) (i : Z) : bool := Z.testbit (in_bitmap q) i.
Definition doing_set (q : tc_ns_smc_queue) (i : Z) : bool := Z.testbit (doing_bitmap q) i.
Definition out_set (q : tc_ns_smc_queue) (i : Z) : bool := Z.testbit (out_bitmap q) i.

Definition with_event_nr (c : tc_ns_smc_cmd) (x : Z) : tc_ns_smc_cmd :=
  SmcCmd (uuid c) (cmd_type c) (cmd_id c) (dev_file_id c) (context_id c) (agent_id c)
    (operation_phys c) (operation_h_phys c) (login_method c) (login_data_phy c)
    (login_data_h_addr c) (login_data_len c) (err_origin c) (ret_val c) x
    (uid c) (ca_pid c) (token_phys c) (token_h_phys c) (pid c) (params_phys c)
    (params_h_phys c) (eventindex c) (started c).

(** ** Occupying a slot *)

Definition occupy_setbit_smc_in_doing_entry (q : tc_ns_smc_queue) (i : Z) : tc_ns_smc_queue :=
  set_bits (set_in_cmd q i (with_event_nr (in_cmd q i) i)) i (Some true) (Some true) None.

Definition occupy_clean_in_doing_entry (q : tc_ns_smc_queue) (i : Z) : tc_ns_smc_queue :=
  set_bits q i (Some false) (Some false) None.

(** The [for] loop: the first slot whose [in] bit is clear. *)
Fixpoint find_free_entry (n : nat) (q : tc_ns_smc_queue) (i : Z) : option Z :=
  match n with
  | O => None
  | S n => if in_set q i then find_free_entry n q (i + 1) else Some i
  end.

(** One pass of the loop under the lock. *)
Definition try_occupy (q : tc_ns_smc_queue) (cmd : tc_ns_smc_cmd)
    : option (tc_ns_smc_queue * Z) :=
  match find_free_entry (Z.to_nat MAX_SMC_CMD) q 0 with
  | Some i => Some (occupy_setbit_smc_in_doing_entry (set_in_cmd q i cmd) i, i)
  | None => None
  end.

(** The state a command is submitted in. *)
Record smc_state := SmcState {
  g_cmd_data : tc_ns_smc_queue;
  smc_reg : registry;
  smc_mem : mem
}.

Definition with_queue (s : smc_state) (q : tc_ns_smc_queue) : smc_state :=
  SmcState q (smc_reg s) (smc_mem s).

Section Submit.
Context {F : PhysMap}.

(** [update_timestamp] and [update_chksum] on [in[idx]], then publish the slot
    by clearing its [doing] bit; [None] when one of them fails. *)
Definition prepare_entry (s : smc_state) (idx : Z) : outcome (smc_state * bool) :=
  let cmd := in_cmd (g_cmd_data s) idx in
  '(R, m, r) ← update_timestamp (smc_reg s) (smc_mem s) cmd;
  let s := SmcState (g_cmd_data s) R m in
  if nonzero r then Ret (s, false)
  else
    '(R, cmd, r) ← update_chksum (smc_reg s) cmd;
    let s := SmcState (set_in_cmd (g_cmd_data s) idx cmd) R (smc_mem s) in
    if nonzero r then Ret (s, false)
    else Ret (with_queue s (set_bits (g_cmd_data s) idx None (Some false) None), true).

(** [sleep k] is what the others do to the state during the [k]-th [msleep]. *)
Fixpoint occupy_retry (n : nat) (k : Z) (sleep : Z → smc_state → smc_state)
    (s : smc_state) (cmd : tc_ns_smc_cmd) : outcome (smc_state * Z) :=
  match try_occupy (g_cmd_data s) cmd with
  | Some (q, idx) =>
      '(s, ok) ← prepare_entry (with_queue s q) idx;
      if ok : bool then Ret (s, idx)
      else Ret (with_queue s (occupy_clean_in_doing_entry (g_cmd_data s) idx), - 1)
  | None =>
      match n with
      | O => Ret (s, - 1)
      | S n => occupy_retry n (k + 1) sleep (sleep k s) cmd
      end
  end.

(** Returns the slot, or -1. *)
Definition occupy_free_smc_in_entry (sleep : Z → smc_state → smc_state)
    (s : smc_state) (cmd : tc_ns_smc_cmd) : outcome (smc_state * Z) :=
  occupy_retry (Z.to_nat (FIND_SMC_ENTRY_RETRY_MAX_COUNT + 1)) 0 sleep s cmd.

Definition reuse_smc_in_entry (s : smc_state) (idx : Z) : outcome (smc_state * Z) :=
  let q := g_cmd_data s in
  if negb (in_set q idx && doing_set q idx) then Ret (s, - 1)
  else
    '(s, ok) ← prepare_entry (with_queue s (set_in_cmd q idx (out_cmd q idx))) idx;
    Ret (s, if ok : bool then 0 else - 1).

End Submit.

(** ** Collecting the answer, releasing a slot *)

Inductive cmd_reuse := CLEAR | RESEND.

#[export] Instance cmd_reuse_eq_dec : EqDecision cmd_reuse.
Proof. solve_decision. Defined.

(** Status, the copied command and the slot's next use. *)
Definition copy_smc_out_entry (q : tc_ns_smc_queue) (idx : Z) (usage : cmd_reuse)
    (copy : tc_ns_smc_cmd) : tc_ns_smc_queue * tc_ns_smc_cmd * cmd_reuse * Z :=
  if negb (out_set q idx) then (q, copy, usage, - ENOENT)
  else
    let out := out_cmd q idx in
    if (ret_val out =? TEEC_PENDING2) || (ret_val out =? TEEC_PENDING)
    then (set_bits q idx None None (Some false), out, RESEND, 0)
    else (set_bits q idx (Some false) (Some false) (Some false), out, CLEAR, 0).

Definition clear_smc_in_entry (q : tc_ns_smc_queue) (idx : Z) : tc_ns_smc_queue :=
  set_bits q idx (Some false) None None.

Definition release_smc_entry (q : tc_ns_smc_queue) (idx : Z) : tc_ns_smc_queue :=
  set_bits q idx (Some false) (Some false) (Some false).

Definition is_cmd_working_done (q : tc_ns_smc_queue) (idx : Z) : bool := out_set q idx.

(** The kill command put in place of an unfinished one. *)
Definition abort_cmd (c : tc_ns_smc_cmd) : tc_ns_smc_cmd :=
  SmcCmd (uuid c) CMD_TYPE_GLOBAL GLOBAL_CMD_ID_KILL_TASK (dev_file_id c) (context_id c)
    (agent_id c) 0 0 (login_method c) 0 0 (login_data_len c) (err_origin c) (ret_val c)
    (event_nr c) (uid c) (ca_pid c) 0 0 (pid c) 0 0 (eventindex c) (started c).

Definition set_abort_cmd (q : tc_ns_smc_queue) (index : Z) : tc_ns_smc_queue * Z :=
  if negb (doing_set q index) then (q, - 1)
  else (set_bits (set_in_cmd q index (abort_cmd (in_cmd q index))) index
          None (Some false) None, 0).

(** ** The bitmaps as the debug output shows them *)

Fixpoint show_bitmap_loop (n : nat) (bm i : Z) : list bool * list Z :=
  match n with
  | O => ([], [])
  | S n =>
      let '(bits, cmds) := show_bitmap_loop n bm (i + 1) in
      if Z.testbit bm i then (true :: bits, i :: cmds) else (false :: bits, cmds)
  end.

Definition show_in_bitmap (q : tc_ns_smc_queue) : list bool * list Z :=
  show_bitmap_loop (Z.to_nat MAX_SMC_CMD) (in_bitmap q) 0.
Definition show_out_bitmap (q : tc_ns_smc_queue) : list bool * list Z :=
  show_bitmap_loop (Z.to_nat MAX_SMC_CMD) (out_bitmap q) 0.
Definition show_doing_bitmap (q : tc_ns_smc_queue) : list bool :=
  (show_bitmap_loop (Z.to_nat MAX_SMC_CMD) (doing_bitmap q) 0).1.

(** The command blocks printed for a list of slots: always the [in] ones. *)
Definition show_single_cmd_info (q : tc_ns_smc_queue) (cmds : list Z)
    : list (Z * (Z * Z * Z * Z * Z)) :=
  (λ i, let c := in_cmd q i in
        (i, (cmd_id c, ca_pid c, dev_file_id c, event_nr c, ret_val c))) <$> cmds.

Definition show_cmd_bitmap (q : tc_ns_smc_queue) :=
  let '(bin, cin) := show_in_bitmap q in
  let '(bout, cout) := show_out_bitmap q in
  (bin, show_doing_bitmap q, bout, show_single_cmd_info q cin, show_single_cmd_info q cout).
