(* ===== verification/SmcLock.v ===== *)
(** * The lock of the command queue (core/smc_smp.c)

    [SmcQueue] gives every section protected by [smc_lock] as one function on
    the queue, and [SmcSteps] interleaves them.  Here the sections are
    sequences of single accesses to the shared page, and any number of
    processors, of both worlds, run them with the lock taken by [cmpxchg] in a
    loop.  Every such run is a run of the functions, one after the other.  Only
    the sections are steps here: what callers write to the block of a slot they
    occupy between two sections is a step of its own in [SmcSteps]. *)

From stdpp Require Import base gmap list.
From Stdlib Require Import ZArith Lia.
From S2P Require Import Prelude KernelApi TeeTypes Buffers Mailbox SessReg CallTypes Auth.
From S2P Require Import SmcQueue.

Abbreviation queue := tc_ns_smc_queue.

(** ** The lock word *)

(** The kernel's [cmpxchg]: the new value and the one found. *)
Definition cmpxchg (lock old new : Z) : Z * Z := (if lock =? old then new else lock, lock).

(** One turn of the loop: the new value, and whether the lock was free. *)
Definition acquire_smc_buf_lock (lock : Z) : Z * bool :=
  let '(lock, ret) := cmpxchg lock 0 1 in (lock, negb (nonzero ret)).

Definition release_smc_buf_lock (lock : Z) : Z := (cmpxchg lock 1 0).1.

(** ** Sections as single accesses *)

(** The status of a section, and the command and use that [copy_smc_out_entry]
    hands out. *)
Abbreviation result := (Z * option (tc_ns_smc_cmd * cmd_reuse))%type.

(** A section that has ended, or one access and what follows what it saw. *)
Inductive section :=
| Finish (r : result)
| Access (f : queue → queue) (next : queue → section).

Fixpoint run (c : section) (q : queue) : queue * result :=
  match c with
  | Finish r => (q, r)
  | Access f next => run (next q) (f q)
  end.

(** A write, and a read that decides. *)
Definition write (f : queue → queue) (c : section) : section := Access f (λ _, c).
Definition test (b : queue → bool) (c d : section) : section :=
  Access id (λ q, if b q then c else d).

(** A write to the command block in slot [i]. *)
Definition upd_in (f : tc_ns_smc_cmd → tc_ns_smc_cmd) (i : Z) (q : queue) : queue :=
  set_in_cmd q i (f (in_cmd q i)).

Definition status (z : Z) : section := Finish (z, None).

Definition set_in (b : bool) (i : Z) (q : queue) : queue := set_bits q i (Some b) None None.
Definition set_doing (b : bool) (i : Z) (q : queue) : queue := set_bits q i None (Some b) None.
Definition set_out (b : bool) (i : Z) (q : queue) : queue := set_bits q i None None (Some b).

(** The [for] loop from slot [i] on. *)
Fixpoint occupy_section (n : nat) (i : Z) (cmd : tc_ns_smc_cmd) : section :=
  match n with
  | O => status (- 1)
  | S n =>
      test (λ q, in_set q i) (occupy_section n (i + 1) cmd)
        (write (upd_in (λ _, cmd) i)
        (write (upd_in (λ c, with_event_nr c i) i)
        (write (set_in true i)
        (write (set_doing true i)
        (status i)))))
  end.

Definition publish_section (i : Z) : section := write (set_doing false i) (status i).

Definition clean_section (i : Z) : section :=
  write (set_in false i) (write (set_doing false i) (status 0)).

(** The first section of [reuse_smc_in_entry]. *)
Definition reuse_section (i : Z) : section :=
  test (λ q, in_set q i)
    (test (λ q, doing_set q i)
      (Access id (λ q, write (upd_in (λ _, out_cmd q i) i) (status 0)))
      (status (- 1)))
    (status (- 1)).

Definition copy_out_section (i : Z) : section :=
  test (λ q, out_set q i)
    (Access id (λ q,
      let copy := out_cmd q i in
      test (λ q, (ret_val (out_cmd q i) =? TEEC_PENDING2) || (ret_val (out_cmd q i) =? TEEC_PENDING))
        (write (set_out false i) (Finish (0, Some (copy, RESEND))))
        (write (set_in false i) (write (set_doing false i) (write (set_out false i)
          (Finish (0, Some (copy, CLEAR))))))))
    (status (- ENOENT)).

Definition clear_in_section (i : Z) : section := write (set_in false i) (status 0).

Definition release_section (i : Z) : section :=
  write (set_in false i) (write (set_doing false i) (write (set_out false i) (status 0))).

Definition done_section (i : Z) : section := test (λ q, out_set q i) (status 1) (status 0).

(** The assignments of [set_abort_cmd], those of an address's halves in pairs. *)
Definition abort_id (c : tc_ns_smc_cmd) : tc_ns_smc_cmd :=
  SmcCmd (uuid c) (cmd_type c) GLOBAL_CMD_ID_KILL_TASK (dev_file_id c) (context_id c)
    (agent_id c) (operation_phys c) (operation_h_phys c) (login_method c) (login_data_phy c)
    (login_data_h_addr c) (login_data_len c) (err_origin c) (ret_val c) (event_nr c) (uid c)
    (ca_pid c) (token_phys c) (token_h_phys c) (pid c) (params_phys c) (params_h_phys c)
    (eventindex c) (started c).

Definition abort_type (c : tc_ns_smc_cmd) : tc_ns_smc_cmd :=
  SmcCmd (uuid c) CMD_TYPE_GLOBAL (cmd_id c) (dev_file_id c) (context_id c)
    (agent_id c) (operation_phys c) (operation_h_phys c) (login_method c) (login_data_phy c)
    (login_data_h_addr c) (login_data_len c) (err_origin c) (ret_val c) (event_nr c) (uid c)
    (ca_pid c) (token_phys c) (token_h_phys c) (pid c) (params_phys c) (params_h_phys c)
    (eventindex c) (started c).

Definition abort_login (c : tc_ns_smc_cmd) : tc_ns_smc_cmd :=
  SmcCmd (uuid c) (cmd_type c) (cmd_id c) (dev_file_id c) (context_id c)
    (agent_id c) (operation_phys c) (operation_h_phys c) (login_method c) 0
    0 (login_data_len c) (err_origin c) (ret_val c) (event_nr c) (uid c)
    (ca_pid c) (token_phys c) (token_h_phys c) (pid c) (params_phys c) (params_h_phys c)
    (eventindex c) (started c).

Definition abort_token (c : tc_ns_smc_cmd) : tc_ns_smc_cmd :=
  SmcCmd (uuid c) (cmd_type c) (cmd_id c) (dev_file_id c) (context_id c)
    (agent_id c) (operation_phys c) (operation_h_phys c) (login_method c) (login_data_phy c)
    (login_data_h_addr c) (login_data_len c) (err_origin c) (ret_val c) (event_nr c) (uid c)
    (ca_pid c) 0 0 (pid c) (params_phys c) (params_h_phys c) (eventindex c) (started c).

Definition abort_params (c : tc_ns_smc_cmd) : tc_ns_smc_cmd :=
  SmcCmd (uuid c) (cmd_type c) (cmd_id c) (dev_file_id c) (context_id c)
    (agent_id c) (operation_phys c) (operation_h_phys c) (login_method c) (login_data_phy c)
    (login_data_h_addr c) (login_data_len c) (err_origin c) (ret_val c) (event_nr c) (uid c)
    (ca_pid c) (token_phys c) (token_h_phys c) (pid c) 0 0 (eventindex c) (started c).

Definition abort_section (i : Z) : section :=
  test (λ q, doing_set q i)
    (write (upd_in abort_id i)
    (write (upd_in abort_type i)
    (write (upd_in (λ c, with_operation c 0 0) i)
    (write (upd_in abort_login i)
    (write (upd_in abort_token i)
    (write (upd_in abort_params i)
    (write (set_doing false i)
    (status 0))))))))
    (status (- 1)).

(** ** The sections of the driver and what they do at once *)

Inductive queue_op :=
| Occupy (cmd : tc_ns_smc_cmd)
| Publish (i : Z)
| Clean (i : Z)
| Reuse (i : Z)
| CopyOut (i : Z)
| ClearIn (i : Z)
| Release (i : Z)
| WorkingDone (i : Z)
| AbortCmd (i : Z).

Definition section_of (op : queue_op) : section :=
  match op with
  | Occupy cmd => occupy_section (Z.to_nat MAX_SMC_CMD) 0 cmd
  | Publish i => publish_section i
  | Clean i => clean_section i
  | Reuse i => reuse_section i
  | CopyOut i => copy_out_section i
  | ClearIn i => clear_in_section i
  | Release i => release_section i
  | WorkingDone i => done_section i
  | AbortCmd i => abort_section i
  end.

(** The functions of [SmcQueue]. *)
Definition atomic (op : queue_op) (q : queue) : queue * result :=
  match op with
  | Occupy cmd =>
      match try_occupy q cmd with Some (q', i) => (q', (i, None)) | None => (q, (- 1, None)) end
  | Publish i => (set_bits q i None (Some false) None, (i, None))
  | Clean i => (occupy_clean_in_doing_entry q i, (0, None))
  | Reuse i =>
      if in_set q i && doing_set q i then (set_in_cmd q i (out_cmd q i), (0, None))
      else (q, (- 1, None))
  | CopyOut i =>
      let '(q', c, u, z) := copy_smc_out_entry q i CLEAR zero_smc_cmd in
      (q', (z, if z =? 0 then Some (c, u) else None))
  | ClearIn i => (clear_smc_in_entry q i, (0, None))
  | Release i => (release_smc_entry q i, (0, None))
  | WorkingDone i => (q, (if is_cmd_working_done q i then 1 else 0, None))
  | AbortCmd i => let '(q', z) := set_abort_cmd q i in (q', (z, None))
  end.

Lemma upd_in_twice f g i q : upd_in g i (upd_in f i q) = upd_in (λ c, g (f c)) i q.
Proof.
  unfold upd_in, set_in_cmd, in_cmd. simpl. f_equal.
  destruct (decide (Z.to_nat i < length (q_in q))%nat) as [H|H].
  - rewrite list_insert_insert_eq. do 2 f_equal. apply nth_lookup_Some, list_lookup_insert_eq, H.
  - by rewrite !(list_insert_ge (q_in q)) by lia.
Qed.

Lemma run_write f c q : run (write f c) q = run c (f q).
Proof. done. Qed.

Lemma run_test b c d q : run (test b c d) q = if b q then run c q else run d q.
Proof. unfold test. simpl. by destruct (b q). Qed.

Lemma occupy_section_atomic n i cmd q :
  run (occupy_section n i cmd) q =
    match find_free_entry n q i with
    | Some j => (occupy_setbit_smc_in_doing_entry (set_in_cmd q j cmd) j, (j, None))
    | None => (q, (- 1, None))
    end.
Proof.
  revert i. induction n as [|n IH]; intros i; [done|]. cbn [occupy_section find_free_entry].
  rewrite run_test, IH. by destruct (in_set q i).
Qed.

Lemma abort_section_atomic i q :
  run (abort_section i) q = let '(q', z) := set_abort_cmd q i in (q', (z, None)).
Proof.
  unfold abort_section, set_abort_cmd. rewrite run_test. destruct (doing_set q i); [|done].
  rewrite !run_write, !upd_in_twice. done.
Qed.

(** Access by access, a section does what its function does. *)
Lemma section_atomic op q : run (section_of op) q = atomic op q.
Proof.
  destruct op; cbn [section_of atomic]; try done.
  - rewrite occupy_section_atomic. unfold try_occupy. by destruct (find_free_entry _ _ _).
  - unfold reuse_section. rewrite !run_test.
    by destruct (in_set q i), (doing_set q i).
  - unfold copy_out_section, copy_smc_out_entry. rewrite run_test.
    destruct (out_set q i); [|done]. cbn [run negb]. cbv zeta. rewrite run_test.
    unfold id. by destruct (_ || _).
  - unfold done_section, is_cmd_working_done. rewrite run_test. by destruct (out_set q i).
  - apply abort_section_atomic.
Qed.

(** ** Processors *)

(** Where a processor is: outside, in the loop of [acquire_smc_buf_lock], or
    in the section of [op] with [c] left to do. *)
Inductive place :=
| Outside
| Spinning (op : queue_op)
| Inside (op : queue_op) (c : section).

Record cpu := Cpu { preempt_count : Z; cpu_at : place }.

Record lock_sys := LockSys {
  smc_lock : Z;
  lk_queue : queue;
  lk_cpus : gmap Z cpu
}.

(** A section that has ended on a processor, with its result. *)
Abbreviation event := (Z * queue_op * result)%type.

Inductive lock_step : lock_sys → list event → lock_sys → Prop :=
| step_disable l q P i n op :
    P !! i = Some (Cpu n Outside) →
    lock_step (LockSys l q P) [] (LockSys l q (<[i := Cpu (n + 1) (Spinning op)]> P))
| step_spin l l' q P i n op :
    P !! i = Some (Cpu n (Spinning op)) → acquire_smc_buf_lock l = (l', false) →
    lock_step (LockSys l q P) [] (LockSys l' q P)
| step_enter l l' q P i n op :
    P !! i = Some (Cpu n (Spinning op)) → acquire_smc_buf_lock l = (l', true) →
    lock_step (LockSys l q P) [] (LockSys l' q (<[i := Cpu n (Inside op (section_of op))]> P))
| step_access l q P i n op f next :
    P !! i = Some (Cpu n (Inside op (Access f next))) →
    lock_step (LockSys l q P) [] (LockSys l (f q) (<[i := Cpu n (Inside op (next q))]> P))
| step_leave l q P i n op r :
    P !! i = Some (Cpu n (Inside op (Finish r))) →
    lock_step (LockSys l q P) [(i, op, r)]
      (LockSys (release_smc_buf_lock l) q (<[i := Cpu (n - 1) Outside]> P)).

Inductive lock_run : lock_sys → list event → lock_sys → Prop :=
| run_nil s : lock_run s [] s
| run_snoc s1 s2 s3 tr es : lock_run s1 tr s2 → lock_step s2 es s3 → lock_run s1 (tr ++ es) s3.

(** Nobody is inside or waiting, and preemption is enabled everywhere. *)
Definition lock_idle (s : lock_sys) : Prop :=
  smc_lock s = 0 ∧ ∀ i x, lk_cpus s !! i = Some x → x = Cpu 0 Outside.

(** The functions of [SmcQueue] one after the other, with these results. *)
Inductive serial (q : queue) : list event → queue → Prop :=
| serial_nil : serial q [] q
| serial_snoc tr q1 i op q2 r :
    serial q tr q1 → atomic op q1 = (q2, r) → serial q (tr ++ [(i, op, r)]) q2.

(** ** The invariant *)

Definition inside (s : lock_sys) (i : Z) (op : queue_op) (c : section) : Prop :=
  ∃ n, lk_cpus s !! i = Some (Cpu n (Inside op c)).

(** Preemption is disabled from the loop to the release. *)
Definition counts_ok (P : gmap Z cpu) : Prop :=
  ∀ i x, P !! i = Some x →
    preempt_count x = match cpu_at x with Outside => 0 | _ => 1 end.

(** A free lock: the queue is the result of the ended sections.  A taken one:
    what is left of the only section inside takes the queue where its function
    takes that result. *)
Definition owner_ok (q0 : queue) (tr : list event) (s : lock_sys) : Prop :=
  (smc_lock s = 0 ∧ serial q0 tr (lk_queue s) ∧ ∀ i op c, ¬ inside s i op c) ∨
  (smc_lock s = 1 ∧ ∃ i op c q1, inside s i op c ∧ serial q0 tr q1 ∧
     run c (lk_queue s) = atomic op q1 ∧
     ∀ j op' c', inside s j op' c' → j = i).

Definition lock_inv (q0 : queue) (tr : list event) (s : lock_sys) : Prop :=
  counts_ok (lk_cpus s) ∧ owner_ok q0 tr s.

Lemma inside_insert l q P i x j op c :
  inside (LockSys l q (<[i := x]> P)) j op c ↔
    (j = i ∧ cpu_at x = Inside op c) ∨ (j ≠ i ∧ inside (LockSys l q P) j op c).
Proof.
  unfold inside; simpl. destruct (decide (j = i)) as [->|Hne].
  - rewrite lookup_insert_eq. split.
    + intros [n [= ->]]. by left.
    + intros [[_ H]|[? _]]; [|done]. destruct x as [n p]. simpl in H. subst. by exists n.
  - rewrite lookup_insert_ne by done. naive_solver.
Qed.

Lemma counts_insert P i x :
  counts_ok P → preempt_count x = match cpu_at x with Outside => 0 | _ => 1 end →
  counts_ok (<[i := x]> P).
Proof. intros HP Hx j y [[_ <-]|[_ Hj]]%lookup_insert_Some; eauto. Qed.

Lemma step_counts s es s' : counts_ok (lk_cpus s) → lock_step s es s' → counts_ok (lk_cpus s').
Proof.
  intros HP Hs. destruct Hs as [l q P i n op Hi|?|l l' q P i n op Hi|l q P i n op f next Hi
    |l q P i n op r Hi]; simpl in *; try done;
    pose proof (HP _ _ Hi) as Hn; simpl in Hn; apply counts_insert; simpl; done || lia.
Qed.

(** A processor that neither enters nor leaves changes nothing of this. *)
Lemma owner_outside q0 tr l q P i n n' op :
  P !! i = Some (Cpu n Outside) → owner_ok q0 tr (LockSys l q P) →
  owner_ok q0 tr (LockSys l q (<[i := Cpu n' (Spinning op)]> P)).
Proof.
  intros Hi Ho. assert (∀ j op' c', inside (LockSys l q (<[i := Cpu n' (Spinning op)]> P)) j op' c' ↔
    inside (LockSys l q P) j op' c') as Hin.
  { intros j op' c'. rewrite inside_insert. split; [naive_solver|]. intros [m Hj]. right.
    split; [intros ->; simpl in Hj; congruence|by exists m]. }
  destruct Ho as [(H1 & H2 & H3)|(H1 & j & op1 & c & q1 & H2 & H3 & H4 & H5)].
  - left. split_and!; [done..|]. intros ???. rewrite Hin. apply H3.
  - right. split; [done|]. exists j, op1, c, q1. rewrite Hin. split_and!; [done..|].
    intros ???. rewrite Hin. apply H5.
Qed.

Lemma owner_enter q0 tr l l' q P i n op :
  P !! i = Some (Cpu n (Spinning op)) → acquire_smc_buf_lock l = (l', true) →
  owner_ok q0 tr (LockSys l q P) →
  owner_ok q0 tr (LockSys l' q (<[i := Cpu n (Inside op (section_of op))]> P)).
Proof.
  intros Hi Ha [(H1 & H2 & H3)|(H1 & _)]; simpl in H1; subst l; [|done].
  injection Ha as <-. right. split; [done|]. exists i, op, (section_of op), q.
  rewrite inside_insert. split_and!; [by left|done|apply section_atomic|].
  intros j op' c'. rewrite inside_insert. intros [[? _]|[_ Hj]]; [done|]. by apply H3 in Hj.
Qed.

Lemma owner_access q0 tr l q P i n op f next :
  P !! i = Some (Cpu n (Inside op (Access f next))) → owner_ok q0 tr (LockSys l q P) →
  owner_ok q0 tr (LockSys l (f q) (<[i := Cpu n (Inside op (next q))]> P)).
Proof.
  intros Hi. assert (inside (LockSys l q P) i op (Access f next)) as Hin by by exists n.
  intros [(_ & _ & H3)|(H1 & j & op1 & c & q1 & [m H2] & H3 & H4 & H5)]; [by apply H3 in Hin|].
  destruct (H5 _ _ _ Hin). simpl in H2. rewrite Hi in H2. injection H2 as _ <- <-.
  right. split; [done|]. exists i, op, (next q), q1. rewrite inside_insert.
  split_and!; [by left|done|done|].
  intros j op' c'. rewrite inside_insert. intros [[? _]|[_ Hj]]; [done|]. by eapply H5.
Qed.

Lemma owner_leave q0 tr l q P i n op r :
  P !! i = Some (Cpu n (Inside op (Finish r))) → owner_ok q0 tr (LockSys l q P) →
  owner_ok q0 (tr ++ [(i, op, r)])
    (LockSys (release_smc_buf_lock l) q (<[i := Cpu (n - 1) Outside]> P)).
Proof.
  intros Hi. assert (inside (LockSys l q P) i op (Finish r)) as Hin by by exists n.
  intros [(_ & _ & H3)|(H1 & j & op1 & c & q1 & [m H2] & H3 & H4 & H5)]; [by apply H3 in Hin|].
  destruct (H5 _ _ _ Hin). simpl in H1, H2. rewrite Hi in H2. injection H2 as _ <- <-. subst l.
  left. split_and!; [done|by eapply serial_snoc|].
  intros j op' c'. rewrite inside_insert. intros [[_ ?]|[Hne Hj]]; [done|]. by apply H5 in Hj.
Qed.

Lemma step_inv q0 tr s es s' :
  lock_inv q0 tr s → lock_step s es s' → lock_inv q0 (tr ++ es) s'.
Proof.
  intros [HP Ho] Hs. split; [by eapply step_counts|].
  destruct Hs as [?????? Hi|l l' q P i n op Hi Ha|??????? Hi Ha|???????? Hi|??????? Hi];
    rewrite ?app_nil_r.
  - by eapply owner_outside.
  - unfold acquire_smc_buf_lock, cmpxchg in Ha. destruct (Z.eqb_spec l 0); [by subst|].
    by injection Ha as <-.
  - by eapply owner_enter.
  - by eapply owner_access.
  - by eapply owner_leave.
Qed.

Lemma run_inv s0 tr s :
  lock_idle s0 → lock_run s0 tr s → lock_inv (lk_queue s0) tr s.
Proof.
  intros Hi Hr. induction Hr as [s|s1 s2 s3 tr es Hr IH Hs]; [|by eapply step_inv; [apply IH|]].
  destruct Hi as [Hl Hc]. split.
  - intros i x Hx. by rewrite (Hc _ _ Hx).
  - left. split_and!; [done|apply serial_nil|]. intros i op c [n Hn]. by apply Hc in Hn.
Qed.

Lemma run_cons s1 es s2 tr s3 :
  lock_step s1 es s2 → lock_run s2 tr s3 → lock_run s1 (es ++ tr) s3.
Proof.
  intros Hs Hr. induction Hr as [s|s s' s'' tr es' _ IH Hs'].
  - rewrite app_nil_r. apply (run_snoc _ s1 _ []); [apply run_nil|done].
  - rewrite app_assoc. eapply run_snoc; [by apply IH|done].
Qed.

Lemma run_trans s1 tr s2 tr' s3 :
  lock_run s1 tr s2 → lock_run s2 tr' s3 → lock_run s1 (tr ++ tr') s3.
Proof.
  intros H1 H2. induction H2 as [s|s s' s'' tr' es _ IH Hs]; [by rewrite app_nil_r|].
  rewrite app_assoc. eapply run_snoc; [by apply IH|done].
Qed.

(** The section inside ends, whoever else is waiting. *)
Lemma section_leaves c s i op :
  inside s i op c → smc_lock s = 1 →
  ∃ r s', lock_run s [(i, op, r)] s' ∧ smc_lock s' = 0.
Proof.
  revert s. induction c as [r|f next IH]; intros [l q P] [n Hi]; simpl in *; intros ->.
  - eexists r, _. split.
    + eapply (run_cons _ [(i, op, r)] _ []); [by apply step_leave|apply run_nil].
    + done.
  - destruct (IH q (LockSys 1 (f q) (<[i := Cpu n (Inside op (next q))]> P))) as (r & s' & Hr & Hl).
    { apply inside_insert. by left. }
    { done. }
    exists r, s'. split; [|done]. eapply (run_cons _ []); [by apply step_access|done].
Qed.

Lemma lock_gets_free q0 tr s :
  lock_inv q0 tr s → ∃ tr' s', lock_run s tr' s' ∧ smc_lock s' = 0 ∧ (length tr' ≤ 1)%nat.
Proof.
  intros [_ [(H & _)|(H & i & op & c & q1 & Hi & _)]].
  - exists [], s. split; [apply run_nil|]. simpl. auto with lia.
  - destruct (section_leaves c s i op Hi H) as (r & s' & Hr & Hl). by exists [(i, op, r)], s'.
Qed.

(** C11. The queue's lock makes its sections atomic.  Any number of processors
    run the sections of the queue access by access, each taking [smc_lock] by
    [cmpxchg] in a loop, in any interleaving.  At most one of them is inside a
    section; whenever the lock is free, the queue and the results of the
    sections that have ended are those of their functions run one after the
    other; preemption is disabled exactly between the start of the loop and
    the release; and the lock gets free again without any processor that waits
    for it making a step. *)
Theorem sections_serialise s0 tr s :
  lock_idle s0 → lock_run s0 tr s →
  (∀ i j op op' c c', inside s i op c → inside s j op' c' → i = j) ∧
  (smc_lock s = 0 → serial (lk_queue s0) tr (lk_queue s)) ∧
  counts_ok (lk_cpus s) ∧
  ∃ tr' s', lock_run s tr' s' ∧ smc_lock s' = 0 ∧ (length tr' ≤ 1)%nat ∧
    serial (lk_queue s0) (tr ++ tr') (lk_queue s').
Proof.
  intros Hi Hr. pose proof (run_inv _ _ _ Hi Hr) as HI.
  destruct (lock_gets_free _ _ _ HI) as (tr' & s' & Hr' & Hl & Hn).
  assert (∀ tr s, lock_run s0 tr s → smc_lock s = 0 → serial (lk_queue s0) tr (lk_queue s)) as Hf.
  { intros t x Hx Hx0. destruct (run_inv _ _ _ Hi Hx) as [_ [(_ & ? & _)|(? & _)]]; [done|congruence]. }
  split_and!; [|by apply Hf|apply HI|].
  - intros i j op op' c c' H1 H2.
    destruct HI as [_ [(_ & _ & H)|(_ & k & op1 & c1 & q1 & _ & _ & _ & H)]]; [by apply H in H1|].
    by rewrite (H _ _ _ H1), (H _ _ _ H2).
  - exists tr', s'. split_and!; [done..|]. apply Hf; [by eapply run_trans|done].
Qed.

(** ** Example *)

(** Processor 1 looks for an answer while processor 2 waits for the lock. *)
Definition lock_demo (l : Z) (p1 p2 : cpu) : lock_sys :=
  LockSys l (SmcQueue 0 0 0 [] []) {[ 1 := p1; 2 := p2 ]}.

Lemma lock_demo_run :
  lock_run (lock_demo 0 (Cpu 0 Outside) (Cpu 0 Outside)) [(1, WorkingDone 3, (0, None))]
    (lock_demo 0 (Cpu 0 Outside) (Cpu 1 (Spinning (Release 3)))).
Proof.
  eapply (run_cons _ []); [by apply (step_disable _ _ _ 1 0 (WorkingDone 3))|].
  eapply (run_cons _ []); [by apply (step_disable _ _ _ 2 0 (Release 3))|].
  eapply (run_cons _ []); [by apply (step_enter _ 1 _ _ 1 1 (WorkingDone 3))|].
  eapply (run_cons _ []); [by apply (step_spin _ 1 _ _ 2 1 (Release 3))|].
  eapply (run_cons _ []); [by eapply (step_access _ _ _ 1 1 (WorkingDone 3))|].
  eapply (run_cons _ [_] _ []); [by apply (step_leave _ _ _ 1 1 (WorkingDone 3) (0, None))|].
  apply run_nil.
Qed.

Lemma sections_serialise_witness :
  serial (SmcQueue 0 0 0 [] []) [(1, WorkingDone 3, (0, None))] (SmcQueue 0 0 0 [] []).
Proof.
  apply (sections_serialise (lock_demo 0 (Cpu 0 Outside) (Cpu 0 Outside)) _
    (lock_demo 0 (Cpu 0 Outside) (Cpu 1 (Spinning (Release 3))))); [|exact lock_demo_run|reflexivity].
  split; [reflexivity|]. intros i x Hx. simpl in Hx.
  apply lookup_insert_Some in Hx as [[_ <-]|[_ [_ <-]%lookup_singleton_Some]]; reflexivity.
Defined.
