(* ===== verification/SmcSteps.v ===== *)
(** * The command queue as a state machine

    Any number of callers and the TEE work on the queue at the same time.  The
    relation below interleaves the sections protected by [smc_lock], which
    [SmcLock] shows to be atomic, and the writes made without the lock between
    two sections: the timestamp and the checksum of a command are written to
    its block, one after the other, while the slot is occupied.  A map from
    slots to their owner and phase is kept beside the queue; the invariant ties
    it to the three bits and to the command blocks of each slot. *)

From stdpp Require Import base gmap list.
From Stdlib Require Import ZArith Lia.
From S2P Require Import Prelude KernelApi TeeTypes Buffers Mailbox SessReg CallTypes Auth.
From S2P Require Import SmcQueue.

(** ** What one slot looks like *)

Definition view (q : tc_ns_smc_queue) (i : Z)
    : bool * bool * bool * tc_ns_smc_cmd * tc_ns_smc_cmd :=
  (in_set q i, doing_set q i, out_set q i, in_cmd q i, out_cmd q i).

Definition valid_slot (i : Z) : Prop := 0 ≤ i < MAX_SMC_CMD.

Definition queue_wf (q : tc_ns_smc_queue) : Prop :=
  length (q_in q) = Z.to_nat MAX_SMC_CMD ∧ length (q_out q) = Z.to_nat MAX_SMC_CMD.

Definition choose {A} (b : option A) (old : A) : A := default old b.

Lemma view_parts q i a b c d e :
  view q i = (a, b, c, d, e) →
  in_set q i = a ∧ doing_set q i = b ∧ out_set q i = c ∧ in_cmd q i = d ∧ out_cmd q i = e.
Proof. unfold view. intros H. repeat split; congruence. Qed.

Lemma put_bit_same bm i b : 0 ≤ i → Z.testbit (put_bit bm i b) i = b.
Proof.
  intros Hi. destruct b; simpl.
  - by apply Z.setbit_eq.
  - apply Z.clearbit_eq.
Qed.

Lemma put_bit_other bm i j b : 0 ≤ i → i ≠ j → Z.testbit (put_bit bm i b) j = Z.testbit bm j.
Proof.
  intros Hi Hj. destruct b; simpl.
  - by apply Z.setbit_neq.
  - by apply Z.clearbit_neq.
Qed.

Lemma set_bits_view q i bi bd bo :
  0 ≤ i →
  view (set_bits q i bi bd bo) i =
    (choose bi (in_set q i), choose bd (doing_set q i), choose bo (out_set q i),
     in_cmd q i, out_cmd q i).
Proof.
  intros Hi. unfold view, set_bits, in_set, doing_set, out_set, choose; simpl.
  by destruct bi, bd, bo; simpl; rewrite ?put_bit_same by done.
Qed.

Lemma set_bits_view_other q i j bi bd bo :
  0 ≤ i → i ≠ j → view (set_bits q i bi bd bo) j = view q j.
Proof.
  intros Hi Hj. unfold view, set_bits, in_set, doing_set, out_set; simpl.
  by destruct bi, bd, bo; simpl; rewrite ?put_bit_other by done.
Qed.

Lemma set_in_cmd_view q i c :
  queue_wf q → valid_slot i →
  view (set_in_cmd q i c) i = (in_set q i, doing_set q i, out_set q i, c, out_cmd q i).
Proof.
  intros [Hl _] Hi. unfold view, set_in_cmd, in_cmd, valid_slot in *; simpl.
  do 2 f_equal. apply nth_lookup_Some. apply list_lookup_insert_eq. lia.
Qed.

Lemma set_in_cmd_view_other q i j c :
  valid_slot i → valid_slot j → i ≠ j → view (set_in_cmd q i c) j = view q j.
Proof.
  unfold valid_slot. intros Hi Hj Hn. unfold view, set_in_cmd, in_cmd; simpl.
  do 2 f_equal. rewrite !nth_lookup. rewrite list_lookup_insert_ne by lia. done.
Qed.

Lemma set_bits_wf q i bi bd bo : queue_wf q → queue_wf (set_bits q i bi bd bo).
Proof. done. Qed.

Lemma set_in_cmd_wf q i c : queue_wf q → queue_wf (set_in_cmd q i c).
Proof. intros [H1 H2]. split; simpl; [by rewrite length_insert|done]. Qed.

(** The TEE writes its answer and sets the [out] bit. *)
Definition tee_answer (q : tc_ns_smc_queue) (i : Z) (a : tc_ns_smc_cmd) : tc_ns_smc_queue :=
  set_bits (SmcQueue (in_bitmap q) (doing_bitmap q) (out_bitmap q) (q_in q)
              (<[Z.to_nat i := a]> (q_out q))) i None None (Some true).

Lemma tee_answer_view q i a :
  queue_wf q → valid_slot i →
  view (tee_answer q i a) i = (in_set q i, doing_set q i, true, in_cmd q i, a).
Proof.
  intros [_ Hl] Hi. unfold tee_answer, valid_slot in *. rewrite set_bits_view by lia.
  unfold choose; simpl. f_equal. unfold out_cmd; simpl.
  apply nth_lookup_Some. apply list_lookup_insert_eq. lia.
Qed.

Lemma tee_answer_view_other q i j a :
  valid_slot i → valid_slot j → i ≠ j → view (tee_answer q i a) j = view q j.
Proof.
  unfold valid_slot. intros Hi Hj Hn. unfold tee_answer.
  rewrite set_bits_view_other by lia.
  unfold view, out_cmd; simpl. f_equal. rewrite !nth_lookup.
  rewrite list_lookup_insert_ne by lia. done.
Qed.

(** ** Phases *)

(** How far the command in an occupied slot has been prepared: copied, its
    timestamp updated, its checksum too. *)
Inductive stage := Copied | Stamped | Summed.

(** - [Prep st]: occupied, its command prepared as far as [st] says;
    - [Ready c]: [c] waits for the TEE;
    - [Taken]: the TEE works on it;
    - [Aborted]: the owner asked the TEE to kill the task it is working on;
    - [Done d a]: the TEE has answered [a] ([d] is the [doing] bit);
    - [Resend a]: the owner has seen the pending answer [a] and will resend. *)
Inductive phase :=
| Prep (st : stage)
| Ready (c : tc_ns_smc_cmd)
| Taken
| Aborted
| Done (d : bool) (a : tc_ns_smc_cmd)
| Resend (a : tc_ns_smc_cmd).

(** The bits of a slot in each phase. *)
Definition phase_bits (ph : option phase) (b : bool * bool * bool) : Prop :=
  match ph with
  | None => b = (false, false, false)
  | Some (Prep _) | Some Taken | Some (Resend _) => b = (true, true, false)
  | Some (Ready _) | Some Aborted => b = (true, false, false)
  | Some (Done d _) => b = (true, d, true)
  end.

Section Machine.
Context {F : PhysMap}.

(** [update_timestamp] has succeeded on the command, whatever registry and
    token it found. *)
Definition stamped (c : tc_ns_smc_cmd) : Prop :=
  ∃ R m R' m', update_timestamp R m c = Ret (R', m', 0).

(** [update_chksum] has then succeeded on it and left [c]. *)
Definition completed (c : tc_ns_smc_cmd) : Prop :=
  ∃ c0 R R', stamped c0 ∧ update_chksum R c0 = Ret (R', c, 0).

(** The command blocks a phase fixes. *)
Definition phase_cmds (ph : option phase) (cin cout : tc_ns_smc_cmd) : Prop :=
  match ph with
  | Some (Prep Stamped) => stamped cin
  | Some (Prep Summed) => completed cin
  | Some (Ready c) => cin = c ∧ completed c
  | Some Aborted => cmd_id cin = GLOBAL_CMD_ID_KILL_TASK
  | Some (Done d a) => cout = a ∧ (d = false → cmd_id cin = GLOBAL_CMD_ID_KILL_TASK)
  | Some (Resend a) => cout = a
  | _ => True
  end.

Definition slot_ok (q : tc_ns_smc_queue) (i : Z) (ph : option phase) : Prop :=
  phase_bits ph (in_set q i, doing_set q i, out_set q i) ∧
  phase_cmds ph (in_cmd q i) (out_cmd q i).

(** A queue and the owner (a caller's id) and phase of each occupied slot. *)
Record qsys := QSys { qs_queue : tc_ns_smc_queue; qs_slots : gmap Z (Z * phase) }.

Definition phase_at (M : gmap Z (Z * phase)) (i : Z) : option phase := snd <$> M !! i.

Definition qs_ok (s : qsys) : Prop :=
  queue_wf (qs_queue s) ∧
  (∀ i, is_Some (qs_slots s !! i) → valid_slot i) ∧
  ∀ i, valid_slot i → slot_ok (qs_queue s) i (phase_at (qs_slots s) i).

(** ** Steps *)

Definition pending (c : tc_ns_smc_cmd) : bool :=
  (ret_val c =? TEEC_PENDING2) || (ret_val c =? TEEC_PENDING).

(** Who makes a step. *)
Inductive actor := Caller (ca : Z) | Tee.

Inductive qstep : actor → qsys → qsys → Prop :=
(* a caller takes a free slot *)
| step_occupy q M ca cmd q' i :
    try_occupy q cmd = Some (q', i) →
    qstep (Caller ca) (QSys q M) (QSys q' (<[i := (ca, Prep Copied)]> M))
(* a caller whose command was left pending copies the answer back, to resend *)
| step_reuse q M ca i a :
    M !! i = Some (ca, Resend a) → in_set q i && doing_set q i = true →
    qstep (Caller ca) (QSys q M)
      (QSys (set_in_cmd q i (out_cmd q i)) (<[i := (ca, Prep Copied)]> M))
(* without the lock: the timestamp of the command in the slot *)
| step_stamp q M ca i R m R' m' :
    M !! i = Some (ca, Prep Copied) →
    update_timestamp R m (in_cmd q i) = Ret (R', m', 0) →
    qstep (Caller ca) (QSys q M) (QSys q (<[i := (ca, Prep Stamped)]> M))
(* without the lock: its checksum, written to the slot *)
| step_sum q M ca i R R' c :
    M !! i = Some (ca, Prep Stamped) →
    update_chksum R (in_cmd q i) = Ret (R', c, 0) →
    qstep (Caller ca) (QSys q M) (QSys (set_in_cmd q i c) (<[i := (ca, Prep Summed)]> M))
(* the [doing] bit is cleared: the slot is published *)
| step_publish q M ca i :
    M !! i = Some (ca, Prep Summed) →
    qstep (Caller ca) (QSys q M)
      (QSys (set_bits q i None (Some false) None) (<[i := (ca, Ready (in_cmd q i))]> M))
(* the command could not be completed *)
| step_clean q M ca i st :
    M !! i = Some (ca, Prep st) →
    qstep (Caller ca) (QSys q M) (QSys (occupy_clean_in_doing_entry q i) (delete i M))
(* the TEE picks up a command whose [in] bit is set and [doing] bit clear, unless
   its own last answer for the slot has not been collected *)
| step_take q M ca i ph :
    M !! i = Some (ca, ph) → in_set q i = true → doing_set q i = false →
    out_set q i = false →
    qstep (Tee) (QSys q M) (QSys (set_bits q i None (Some true) None) (<[i := (ca, Taken)]> M))
(* the TEE answers *)
| step_answer q M ca i ph a :
    M !! i = Some (ca, ph) → ph = Taken ∨ ph = Aborted →
    qstep (Tee) (QSys q M) (QSys (tee_answer q i a) (<[i := (ca, Done (doing_set q i) a)]> M))
(* the owner collects the answer *)
| step_collect q M ca i ph q' copy usage c0 u0 :
    M !! i = Some (ca, ph) →
    copy_smc_out_entry q i u0 c0 = (q', copy, usage, 0) →
    qstep (Caller ca) (QSys q M)
      (QSys q' (match usage with
                | CLEAR => delete i M
                | RESEND => <[i := (ca, if doing_set q i then Resend copy else Aborted)]> M
                end))
(* the owner is killed and asks the TEE to stop *)
| step_abort q M ca i ph q' :
    M !! i = Some (ca, ph) → (ph = Taken ∨ ∃ d a, ph = Done d a) →
    set_abort_cmd q i = (q', 0) →
    qstep (Caller ca) (QSys q M)
      (QSys q' (<[i := (ca, match ph with Done _ a => Done false a | _ => Aborted end)]> M))
(* the owner gives the slot up *)
| step_release q M ca i ph :
    M !! i = Some (ca, ph) →
    qstep (Caller ca) (QSys q M) (QSys (release_smc_entry q i) (delete i M)).

Definition init_queue : tc_ns_smc_queue :=
  SmcQueue 0 0 0 (replicate (Z.to_nat MAX_SMC_CMD) zero_smc_cmd)
    (replicate (Z.to_nat MAX_SMC_CMD) zero_smc_cmd).

Inductive qreach : qsys → Prop :=
| reach_init : qreach (QSys init_queue ∅)
| reach_step act s s' : qreach s → qstep act s s' → qreach s'.

(** ** The invariant *)

Lemma slot_ok_view q q' i ph : view q' i = view q i → slot_ok q i ph → slot_ok q' i ph.
Proof. unfold slot_ok. intros (-> & -> & -> & -> & ->)%view_parts. done. Qed.

Lemma qs_ok_change q M q' i x :
  qs_ok (QSys q M) → queue_wf q' → valid_slot i →
  (∀ j, valid_slot j → j ≠ i → view q' j = view q j) →
  slot_ok q' i (snd <$> x) →
  qs_ok (QSys q' (partial_alter (λ _, x) i M)).
Proof.
  intros (_ & Hv & Hs) Hwf Hi Hoth Hnew. split; [done|]. split; simpl in *.
  - intros j Hj. destruct (decide (i = j)) as [<-|Hne]; [done|].
    apply Hv. by rewrite lookup_partial_alter_ne in Hj.
  - intros j Hj. unfold phase_at. destruct (decide (i = j)) as [<-|Hne].
    + by rewrite lookup_partial_alter_eq.
    + rewrite lookup_partial_alter_ne by done.
      eapply slot_ok_view; [|by apply Hs]. apply Hoth; [done|congruence].
Qed.

Lemma qs_ok_insert q M q' i ca ph :
  qs_ok (QSys q M) → queue_wf q' → valid_slot i →
  (∀ j, valid_slot j → j ≠ i → view q' j = view q j) →
  slot_ok q' i (Some ph) → qs_ok (QSys q' (<[i := (ca, ph)]> M)).
Proof. intros. eapply (qs_ok_change q M q' i (Some (ca, ph))); done. Qed.

Lemma qs_ok_delete q M q' i :
  qs_ok (QSys q M) → queue_wf q' → valid_slot i →
  (∀ j, valid_slot j → j ≠ i → view q' j = view q j) →
  slot_ok q' i None → qs_ok (QSys q' (delete i M)).
Proof. intros. eapply (qs_ok_change q M q' i None); done. Qed.

Lemma find_free_entry_Some n q i j :
  find_free_entry n q i = Some j →
  i ≤ j < i + Z.of_nat n ∧ in_set q j = false ∧ ∀ k, i ≤ k < j → in_set q k = true.
Proof.
  revert i. induction n as [|n IH]; intros i; simpl; [done|].
  destruct (in_set q i) eqn:E.
  - intros H. destruct (IH _ H) as (Hr & Hf & Hl). split; [lia|]. split; [done|].
    intros k Hk. destruct (decide (k = i)) as [->|]; [done|]. apply Hl. lia.
  - intros [= <-]. split; [lia|]. split; [done|]. intros. lia.
Qed.

Lemma find_free_entry_None n q i :
  find_free_entry n q i = None → ∀ k, i ≤ k < i + Z.of_nat n → in_set q k = true.
Proof.
  revert i. induction n as [|n IH]; intros i; simpl; [lia|].
  destruct (in_set q i) eqn:E; [|done]. intros H k Hk.
  destruct (decide (k = i)) as [->|]; [done|]. apply (IH _ H). lia.
Qed.

(** The slot [try_occupy] takes, and what it does to it. *)
Lemma try_occupy_spec q cmd q' i :
  queue_wf q → try_occupy q cmd = Some (q', i) →
  valid_slot i ∧ queue_wf q' ∧ in_set q i = false ∧
  (∀ k, 0 ≤ k < i → in_set q k = true) ∧
  view q' i = (true, true, out_set q i, with_event_nr cmd i, out_cmd q i) ∧
  ∀ j, valid_slot j → j ≠ i → view q' j = view q j.
Proof.
  intros Hwf. unfold try_occupy.
  destruct (find_free_entry _ _ _) as [k|] eqn:E; [|done]. intros [= <- <-].
  apply find_free_entry_Some in E as (Hr & Hf & Hl).
  assert (valid_slot k) as Hk by (unfold valid_slot, MAX_SMC_CMD in *; lia).
  assert (0 ≤ k) by (unfold valid_slot in Hk; lia).
  pose proof (set_in_cmd_wf q k cmd Hwf) as Hwf1.
  pose proof (set_in_cmd_view q k cmd Hwf Hk) as Hv1.
  apply view_parts in Hv1 as (E1 & E2 & E3 & E4 & E5).
  split; [done|]. split; [by do 2 apply set_in_cmd_wf|]. split; [done|].
  split; [intros; apply Hl; lia|]. unfold occupy_setbit_smc_in_doing_entry. split.
  - rewrite set_bits_view by done.
    pose proof (set_in_cmd_view (set_in_cmd q k cmd) k
      (with_event_nr (in_cmd (set_in_cmd q k cmd) k) k) Hwf1 Hk) as Hv2.
    apply view_parts in Hv2 as (G1 & G2 & G3 & G4 & G5).
    unfold choose; simpl. rewrite G3, G4, G5, E3, E4, E5. done.
  - intros j Hj Hne. rewrite set_bits_view_other by (done || congruence).
    rewrite !set_in_cmd_view_other by (done || congruence). done.
Qed.

Lemma qs_ok_init : qs_ok (QSys init_queue ∅).
Proof.
  split; [split; apply length_replicate|]. split.
  - intros i [? H]. cbn [qs_slots] in H. by rewrite lookup_empty in H.
  - intros i _. unfold phase_at. cbn [qs_slots]. rewrite lookup_empty. split; [|exact I].
    unfold phase_bits, in_set, doing_set, out_set. cbn [qs_queue in_bitmap doing_bitmap
      out_bitmap init_queue fmap option_fmap option_map]. by rewrite Z.testbit_0_l.
Qed.

(** The bits of an occupied slot, from the invariant. *)
Lemma qs_ok_slot q M i ca ph :
  qs_ok (QSys q M) → M !! i = Some (ca, ph) → valid_slot i ∧ 0 ≤ i ∧ slot_ok q i (Some ph).
Proof.
  intros (_ & Hv & Hs) HM. simpl in *. assert (valid_slot i) as Hi by (apply Hv; eauto).
  split; [done|]. split; [unfold valid_slot in Hi; lia|].
  specialize (Hs i Hi). unfold phase_at in Hs. by rewrite HM in Hs.
Qed.

Ltac slot_frame := intros j Hj Hne; unfold occupy_clean_in_doing_entry, release_smc_entry;
  rewrite ?set_bits_view_other, ?set_in_cmd_view_other by (done || congruence); done.

(** Read the view of a slot back into its components. *)
Ltac by_view H := apply view_parts in H;
  unfold slot_ok, occupy_clean_in_doing_entry, release_smc_entry;
  let K := fresh in destruct H as (K & H); rewrite K; clear K;
  destruct H as (K & H); rewrite K; clear K;
  destruct H as (K & H); rewrite K; clear K;
  destruct H as (K & H); rewrite K, H; clear K H; simpl.

(** *** The rules that change more than one bit *)

Lemma occupy_ok q M ca cmd q' i :
  qs_ok (QSys q M) → try_occupy q cmd = Some (q', i) →
  qs_ok (QSys q' (<[i := (ca, Prep Copied)]> M)).
Proof.
  intros Hok H. pose proof Hok as (Hwf & _). simpl in Hwf.
  apply try_occupy_spec in H as (Hi & Hwf' & Hin & _ & Hv & Hoth); [|done].
  eapply qs_ok_insert; try done.
  assert (out_set q i = false) as Hout.
  { destruct Hok as (_ & _ & Hs). specialize (Hs i Hi). simpl in Hs.
    destruct Hs as [Hb _]. rewrite Hin in Hb.
    destruct (phase_at M i) as [[| | | | |]|]; simpl in Hb; congruence. }
  by_view Hv. by rewrite Hout.
Qed.

(** The view of a slot whose block is replaced and whose [doing] bit is cleared. *)
Lemma publish_view q i cmd :
  queue_wf q → valid_slot i →
  view (set_bits (set_in_cmd q i cmd) i None (Some false) None) i
  = (in_set q i, false, out_set q i, cmd, out_cmd q i).
Proof.
  intros Hwf Hi. rewrite set_bits_view by (unfold valid_slot in Hi; lia).
  pose proof (set_in_cmd_view q i cmd Hwf Hi) as Hv.
  apply view_parts in Hv as (E1 & E2 & E3 & E4 & E5). rewrite E1, E3, E4, E5. done.
Qed.

(** A write to the block of a slot that is being prepared. *)
Lemma write_ok q M ca i ph st c :
  qs_ok (QSys q M) → M !! i = Some (ca, ph) → (∃ st', ph = Prep st') ∨ (∃ a, ph = Resend a) →
  phase_cmds (Some (Prep st)) c (out_cmd q i) →
  qs_ok (QSys (set_in_cmd q i c) (<[i := (ca, Prep st)]> M)).
Proof.
  intros Hok HM Hph Hc. pose proof Hok as (Hwf & _). simpl in Hwf.
  destruct (qs_ok_slot _ _ _ _ _ Hok HM) as (Hi & Hi0 & [Hb _]).
  eapply qs_ok_insert; try done; [by apply set_in_cmd_wf|slot_frame|].
  pose proof (set_in_cmd_view q i c Hwf Hi) as Hv. by_view Hv. split; [|done].
  destruct Hph as [[? ->]|[? ->]]; exact Hb.
Qed.

Lemma stamp_ok q M ca i R m R' m' :
  qs_ok (QSys q M) → M !! i = Some (ca, Prep Copied) →
  update_timestamp R m (in_cmd q i) = Ret (R', m', 0) →
  qs_ok (QSys q (<[i := (ca, Prep Stamped)]> M)).
Proof.
  intros Hok HM Hu. destruct (qs_ok_slot _ _ _ _ _ Hok HM) as (Hi & _ & [Hb _]).
  eapply qs_ok_insert; try done; [apply Hok|]. split; [exact Hb|]. by exists R, m, R', m'.
Qed.

Lemma publish_ok q M ca i :
  qs_ok (QSys q M) → M !! i = Some (ca, Prep Summed) →
  qs_ok (QSys (set_bits q i None (Some false) None) (<[i := (ca, Ready (in_cmd q i))]> M)).
Proof.
  intros Hok HM. pose proof Hok as (Hwf & _). simpl in Hwf.
  destruct (qs_ok_slot _ _ _ _ _ Hok HM) as (Hi & Hi0 & [Hb Hc]).
  eapply qs_ok_insert; try done; [slot_frame|].
  pose proof (set_bits_view q i None (Some false) None Hi0) as Hv.
  by_view Hv. unfold choose. simpl. simpl in Hb, Hc. split; [congruence|by split].
Qed.

Lemma answer_ok q M ca i ph a :
  qs_ok (QSys q M) → M !! i = Some (ca, ph) → ph = Taken ∨ ph = Aborted →
  qs_ok (QSys (tee_answer q i a) (<[i := (ca, Done (doing_set q i) a)]> M)).
Proof.
  intros Hok HM Hph. pose proof Hok as (Hwf & _). simpl in Hwf.
  destruct (qs_ok_slot _ _ _ _ _ Hok HM) as (Hi & Hi0 & Hs).
  eapply qs_ok_insert; try done.
  { destruct Hwf. split; simpl; [done|by rewrite length_insert]. }
  { intros j Hj Hne. apply tee_answer_view_other; done || congruence. }
  pose proof (tee_answer_view q i a Hwf Hi) as Hv. by_view Hv.
  destruct Hs as [Hb Hc]. destruct Hph as [->| ->]; simpl in Hb, Hc;
    (split; [congruence|split; [done|congruence]]).
Qed.

Lemma collect_ok q M ca i ph q' copy usage c0 u0 :
  qs_ok (QSys q M) → M !! i = Some (ca, ph) →
  copy_smc_out_entry q i u0 c0 = (q', copy, usage, 0) →
  qs_ok (QSys q' (match usage with
                  | CLEAR => delete i M
                  | RESEND => <[i := (ca, if doing_set q i then Resend copy else Aborted)]> M
                  end)).
Proof.
  intros Hok HM H. pose proof Hok as (Hwf & _). simpl in Hwf.
  destruct (qs_ok_slot _ _ _ _ _ Hok HM) as (Hi & Hi0 & Hs).
  unfold copy_smc_out_entry in H. destruct (out_set q i) eqn:Ho; [|done]. simpl in H.
  destruct Hs as [Hb Hc]. rewrite Ho in Hb.
  assert (in_set q i = true) as Hin by (destruct ph; simpl in Hb; congruence).
  assert (doing_set q i = false → cmd_id (in_cmd q i) = GLOBAL_CMD_ID_KILL_TASK) as Hk.
  { intros Hd. destruct ph; simpl in Hb, Hc; try congruence. apply Hc. congruence. }
  destruct (_ || _); injection H as <- <- <-.
  - eapply qs_ok_insert; try done; [slot_frame|].
    pose proof (set_bits_view q i None None (Some false) Hi0) as Hv.
    by_view Hv. unfold choose; simpl. rewrite Hin.
    destruct (doing_set q i); (split; [done|]); [done|by apply Hk].
  - eapply qs_ok_delete; try done; [slot_frame|].
    pose proof (set_bits_view q i (Some false) (Some false) (Some false) Hi0) as Hv.
    by_view Hv. done.
Qed.

Lemma abort_ok q M ca i ph q' :
  qs_ok (QSys q M) → M !! i = Some (ca, ph) → (ph = Taken ∨ ∃ d a, ph = Done d a) →
  set_abort_cmd q i = (q', 0) →
  qs_ok (QSys q' (<[i := (ca, match ph with Done _ a => Done false a | _ => Aborted end)]> M)).
Proof.
  intros Hok HM Hph H. pose proof Hok as (Hwf & _). simpl in Hwf.
  destruct (qs_ok_slot _ _ _ _ _ Hok HM) as (Hi & Hi0 & Hs).
  unfold set_abort_cmd in H. destruct (doing_set q i) eqn:Hd; [|done]. simpl in H.
  injection H as <-.
  eapply qs_ok_insert; try done; [by apply set_in_cmd_wf|slot_frame|].
  pose proof (publish_view q i (abort_cmd (in_cmd q i)) Hwf Hi) as Hv.
  by_view Hv. destruct Hs as [Hb Hc].
  destruct Hph as [->|(d & a & ->)]; simpl in *; (split; [congruence|]);
    [done|split; [apply Hc|done]].
Qed.

Lemma qstep_ok act s s' : qs_ok s → qstep act s s' → qs_ok s'.
Proof.
  intros Hok Hst. pose proof Hok as (Hwf & _).
  destruct Hst as [q M ca cmd q' i H|q M ca i a HM Hr|q M ca i R m R' m' HM Hu
    |q M ca i R R' c HM Hu|q M ca i HM|q M ca i st HM|q M ca i ph HM Hi Hd Ho
    |q M ca i ph a HM Hph|q M ca i ph q' copy usage c0 u0 HM H|q M ca i ph q' HM Hph H
    |q M ca i ph HM]; simpl in Hwf.
  - by eapply occupy_ok.
  - eapply write_ok; [done|done|right; by eexists|done].
  - by eapply stamp_ok.
  - eapply write_ok; [done|done|left; by eexists|].
    destruct (qs_ok_slot _ _ _ _ _ Hok HM) as (_ & _ & [_ Hs]). simpl in Hs |- *.
    by exists (in_cmd q i), R, R'.
  - by eapply publish_ok.
  - destruct (qs_ok_slot _ _ _ _ _ Hok HM) as (Hi & Hi0 & Hs).
    eapply qs_ok_delete; try done; [slot_frame|].
    pose proof (set_bits_view q i (Some false) (Some false) None Hi0) as Hv.
    by_view Hv. unfold choose; simpl. split; [|done]. destruct Hs as [Hb _]. simpl in Hb.
    congruence.
  - destruct (qs_ok_slot _ _ _ _ _ Hok HM) as (Hi' & Hi0 & Hs).
    eapply qs_ok_insert; try done; [slot_frame|].
    pose proof (set_bits_view q i None (Some true) None Hi0) as Hv.
    by_view Hv. unfold choose; simpl. by rewrite Hi, Ho.
  - by eapply answer_ok.
  - by eapply collect_ok.
  - by eapply abort_ok.
  - destruct (qs_ok_slot _ _ _ _ _ Hok HM) as (Hi & Hi0 & Hs).
    eapply qs_ok_delete; try done; [slot_frame|].
    pose proof (set_bits_view q i (Some false) (Some false) (Some false) Hi0) as Hv.
    by_view Hv. done.
Qed.

Lemma qreach_ok s : qreach s → qs_ok s.
Proof. induction 1; [apply qs_ok_init|by eapply qstep_ok]. Qed.

End Machine.
