(* ===== verification/SmcClaims.v ===== *)
(** * What the command queue guarantees

    Claims on every reachable state of the queue, whatever the interleaving of
    callers and TEE, and on the submission of a command. *)

From stdpp Require Import base gmap list.
From Stdlib Require Import ZArith Lia.
From S2P Require Import Prelude KernelApi TeeTypes Buffers Mailbox SessReg SessLookup.
From S2P Require Import CallTypes Auth SmcQueue SmcSteps.

(** ** Reachable states *)

Section Claims.
Context {F : PhysMap}.

(** C9. In every reachable state a slot is marked occupied exactly when some
    caller owns it, a slot nobody owns has all three bits clear, and an owned
    slot carries the bits of its phase. *)
Theorem smc_queue_bits q M i :
  qreach (QSys q M) → valid_slot i →
  (in_set q i = true ↔ is_Some (M !! i)) ∧
  (M !! i = None → doing_set q i = false ∧ out_set q i = false) ∧
  (∀ ca ph, M !! i = Some (ca, ph) →
     phase_bits (Some ph) (in_set q i, doing_set q i, out_set q i)).
Proof.
  intros Hr Hi. destruct (qreach_ok _ Hr) as (_ & _ & Hs). specialize (Hs i Hi).
  destruct Hs as [Hb _]. unfold phase_at in Hb. simpl in Hb.
  destruct (M !! i) as [[ca ph]|]; simpl in Hb.
  - split; [split; [eauto|]|].
    + intros _. destruct ph; simpl in Hb; congruence.
    + split; [done|]. intros ? ? [= _ <-]. exact Hb.
  - split; [split; [congruence|intros [? ?]; done]|]. split; [|done].
    intros _. split; congruence.
Qed.

(** A new command goes to the lowest slot no caller owns, its block and
    number are written there and no other slot changes; it is refused only
    when all [MAX_SMC_CMD] slots are owned. *)
Theorem smc_occupy_exclusive q M cmd :
  qreach (QSys q M) →
  match try_occupy q cmd with
  | Some (q', i) =>
      valid_slot i ∧ M !! i = None ∧ (∀ k, 0 ≤ k < i → is_Some (M !! k)) ∧
      in_cmd q' i = with_event_nr cmd i ∧
      in_set q' i = true ∧ doing_set q' i = true ∧ out_set q' i = false ∧
      ∀ j, valid_slot j → j ≠ i → view q' j = view q j
  | None => ∀ k, valid_slot k → is_Some (M !! k)
  end.
Proof.
  intros Hr. pose proof (qreach_ok _ Hr) as (Hwf & Hval & Hs). simpl in *.
  assert (∀ k, valid_slot k → in_set q k = true → is_Some (M !! k)) as Hown.
  { intros k Hk Hin. destruct (Hs k Hk) as [Hb _]. unfold phase_at in Hb.
    destruct (M !! k) eqn:E; [eauto|]. simpl in Hb. congruence. }
  destruct (try_occupy q cmd) as [[q' i]|] eqn:E.
  - apply try_occupy_spec in E as (Hi & _ & Hin & Hlow & Hv & Hoth); [|done].
    destruct (Hs i Hi) as [Hb _]. unfold phase_at in Hb. rewrite Hin in Hb.
    assert (M !! i = None ∧ out_set q i = false) as [HM Ho].
    { destruct (M !! i) as [[ca ph]|]; simpl in Hb.
      - destruct ph; simpl in Hb; congruence.
      - split; congruence. }
    apply view_parts in Hv as (V1 & V2 & V3 & V4 & V5).
    split; [done|]. split; [done|]. split.
    { intros k Hk. apply Hown; [unfold valid_slot in *; lia|by apply Hlow]. }
    split; [done|]. split; [done|]. split; [done|]. split; [congruence|done].
  - unfold try_occupy in E. destruct (find_free_entry _ _ _) eqn:Ef; [done|].
    intros k Hk. apply Hown; [done|]. apply (find_free_entry_None _ _ _ Ef).
    unfold valid_slot, MAX_SMC_CMD in *. lia.
Qed.


(** Only its owner touches an answered slot. *)
Lemma qstep_answered act s s' i ca d a :
  qs_ok s → qstep act s s' → qs_slots s !! i = Some (ca, Done d a) → act ≠ Caller ca →
  qs_slots s' !! i = Some (ca, Done d a).
Proof.
  intros Hok Hst HM Hact.
  destruct Hst as [q M ca' cmd q' j H|q M ca' j b HMj Hr|q M ca' j R m R' m' HMj Hu
    |q M ca' j R R' c HMj Hu|q M ca' j HMj|q M ca' j st HMj|q M ca' j ph HMj Hi Hd Ho|q M ca' j ph b HMj Hph|q M ca' j ph q' copy usage c0 u0 HMj H
    |q M ca' j ph q' HMj Hph H|q M ca' j ph HMj]; simpl in *;
    destruct (decide (j = i)) as [->|Hj]; simplify_eq/=;
    try (by rewrite lookup_insert_ne by congruence);
    try (by rewrite lookup_delete_ne by congruence).
  - apply try_occupy_spec in H as (Hi & _ & Hin & _); [|apply Hok].
    destruct (qs_ok_slot _ _ _ _ _ Hok HM) as (_ & _ & Hb & _). simpl in Hb. congruence.
  - destruct (qs_ok_slot _ _ _ _ _ Hok HMj) as (_ & _ & Hb & _). simpl in Hb. congruence.
  - destruct Hph; done.
  - destruct usage; [by rewrite lookup_delete_ne by congruence|].
    by rewrite lookup_insert_ne by congruence.
Qed.

(** C8. The answer the TEE gives for a caller's command reaches that caller:
    no step of anyone else removes it or replaces it, and collecting it yields
    exactly that answer.  A pending answer keeps the slot for the owner's
    resend, any other frees it. *)
Theorem smc_answer_delivered s i ca d a u c :
  qreach s → qs_slots s !! i = Some (ca, Done d a) →
  (∀ act s', qstep act s s' → act ≠ Caller ca →
     qs_slots s' !! i = Some (ca, Done d a) ∧ out_cmd (qs_queue s') i = a) ∧
  match copy_smc_out_entry (qs_queue s) i u c with
  | (q', copy, usage, r) =>
      r = 0 ∧ copy = a ∧ (usage = RESEND ↔ pending a = true) ∧
      (usage = CLEAR → in_set q' i = false ∧ doing_set q' i = false ∧ out_set q' i = false) ∧
      (usage = RESEND → in_set q' i = true ∧ out_set q' i = false) ∧
      ∀ j, valid_slot j → j ≠ i → view q' j = view (qs_queue s) j
  end.
Proof.
  intros Hr HM. pose proof (qreach_ok _ Hr) as Hok. destruct s as [q M]. simpl in *.
  destruct (qs_ok_slot _ _ _ _ _ Hok HM) as (Hi & Hi0 & Hb & Hc & _). simpl in Hb, Hc.
  split.
  { intros act s' Hst Hact.
    pose proof (qstep_answered _ _ _ _ _ _ _ Hok Hst HM Hact) as HM'. split; [done|].
    destruct s' as [q' M']. simpl in *.
    destruct (qs_ok_slot _ _ _ _ _ (qstep_ok _ _ _ Hok Hst) HM') as (_ & _ & _ & Hc' & _).
    exact Hc'. }
  unfold copy_smc_out_entry. assert (out_set q i = true) as -> by congruence. simpl negb.
  cbv iota. rewrite Hc. fold (pending a).
  assert (∀ bi bd bo j, valid_slot j → j ≠ i → view (set_bits q i bi bd bo) j = view q j)
    as Hf by (intros; apply set_bits_view_other; done || congruence).
  destruct (pending a); split_and!; try done; try apply Hf; intros _.
  - pose proof (set_bits_view q i None None (Some false) Hi0) as V.
    apply view_parts in V as (V1 & _ & V3 & _). split; [rewrite V1; simpl; congruence|done].
  - pose proof (set_bits_view q i (Some false) (Some false) (Some false) Hi0) as V.
    apply view_parts in V as (V1 & V2 & V3 & _). done.
Qed.

End Claims.

(** ** A run of the queue *)

#[local] Existing Instance linear_phys.

Definition demo_cmd : tc_ns_smc_cmd :=
  SmcCmd (replicate 16 0xab) CMD_TYPE_GLOBAL 7 1 5 0 0 0 0 0 0 0 0 0 0 0 0 0 0 0 0 0 0 false.

Definition demo_answer : tc_ns_smc_cmd := with_event_nr demo_cmd 0.

Definition q1 : tc_ns_smc_queue :=
  match try_occupy init_queue demo_cmd with Some (q, _) => q | None => init_queue end.
Definition q2 : tc_ns_smc_queue :=
  set_bits (set_in_cmd q1 0 (in_cmd q1 0)) 0 None (Some false) None.
Definition q3 : tc_ns_smc_queue := set_bits q2 0 None (Some true) None.
Definition q4 : tc_ns_smc_queue := tee_answer q3 0 demo_answer.

Lemma try_occupy_init : try_occupy init_queue demo_cmd = Some (q1, 0).
Proof. vm_compute. reflexivity. Qed.

Lemma demo_reach_1 : qreach (QSys q1 (<[0 := (7, Prep Copied)]> ∅)).
Proof.
  eapply reach_step; [apply reach_init|]. eapply (step_occupy _ _ 7). apply try_occupy_init.
Qed.

Definition demo_slots : gmap Z (Z * phase) :=
  <[0 := (7, Ready (in_cmd q2 0))]> (<[0 := (7, Prep Summed)]>
    (<[0 := (7, Prep Stamped)]> (<[0 := (7, Prep Copied)]> ∅))).

(** A command of type global has neither timestamp nor checksum to update. *)
Lemma demo_reach_2 : qreach (QSys q2 demo_slots).
Proof.
  eapply reach_step; [eapply reach_step; [eapply reach_step; [apply demo_reach_1|]|]|].
  - eapply (step_stamp _ _ _ _ (Registry ∅ ∅ ∅ ∅ [] [] 0) ∅); [apply lookup_insert_eq|by vm_compute].
  - eapply (step_sum _ _ _ _ (Registry ∅ ∅ ∅ ∅ [] [] 0)); [apply lookup_insert_eq|by vm_compute].
  - refine (step_publish (set_in_cmd q1 0 (in_cmd q1 0)) _ 7 0 _). apply lookup_insert_eq.
Qed.

Lemma demo_reach_4 : ∃ M, M !! 0 = Some (7, Done true demo_answer) ∧ qreach (QSys q4 M).
Proof.
  eexists. split.
  2:{ eapply reach_step.
      - eapply reach_step; [apply demo_reach_2|].
        eapply step_take; [apply lookup_insert_eq|vm_compute; reflexivity..].
      - eapply step_answer; [apply lookup_insert_eq|by left]. }
  apply lookup_insert_eq.
Qed.

Lemma smc_queue_bits_witness : in_set q2 0 = true ∧ doing_set q2 1 = false.
Proof.
  destruct (smc_queue_bits q2 _ 0 demo_reach_2 ltac:(vm_compute; split; discriminate || reflexivity))
    as ((_ & H) & _ & _).
  destruct (smc_queue_bits q2 _ 1 demo_reach_2 ltac:(vm_compute; split; discriminate || reflexivity))
    as (_ & H' & _).
  split; [apply H; eexists; apply lookup_insert_eq|].
  apply H'. reflexivity.
Defined.

Lemma smc_occupy_exclusive_witness :
  match try_occupy q2 demo_cmd with Some (_, i) => i = 1 | None => False end.
Proof.
  pose proof (smc_occupy_exclusive q2 _ demo_cmd demo_reach_2) as H.
  destruct (try_occupy q2 demo_cmd) as [[q' i]|] eqn:E.
  - destruct H as (Hv & HN & Hl & _).
    assert (match try_occupy q2 demo_cmd with Some (_, i) => i =? 1 | None => false end = true)
      as Ei by (vm_compute; reflexivity).
    rewrite E in Ei. apply Z.eqb_eq. exact Ei.
  - assert (try_occupy q2 demo_cmd ≠ None) as Hn by (vm_compute; discriminate).
    exact (Hn E).
Defined.


Lemma smc_answer_delivered_witness :
  (copy_smc_out_entry q4 0 CLEAR zero_smc_cmd).1.1.2 = demo_answer.
Proof.
  destruct demo_reach_4 as (M & HM & Hr).
  destruct (smc_answer_delivered (QSys q4 M) 0 7 true demo_answer CLEAR zero_smc_cmd Hr HM)
    as [_ H].
  destruct (copy_smc_out_entry q4 0 CLEAR zero_smc_cmd) as [[[q' copy] usage] r] eqn:E.
  cbn [qs_queue] in H. rewrite E in H. exact (proj1 (proj2 H)).
Defined.
