(* ===== verification/SmcPending.v ===== *)
(** * Pending entries (core/smc_smp.c)

    A caller that waits for the TEE has an entry on [g_pending_head]; the
    threads that wake it find the entry by pid and hold a reference while they
    use it.  Entries are kernel allocations: using a freed one is [Fault]. *)

From stdpp Require Import base gmap list.
From Stdlib Require Import ZArith Lia.
From S2P Require Import Prelude KernelApi TeeTypes Mailbox SessReg SessLookup.

Definition SHADOW_EXIT_RUN : Z := 0x1234dead.

Record pending_entry := PendingEntry {
  pe_users : Z;
  pe_pid : Z;
  pe_run : Z
}.

Record pend_state := PendState {
  pe_heap : gmap Z pending_entry;
  g_pending_head : list Z
}.

Definition set_pe (s : pend_state) (pe : Z) (e : pending_entry) : pend_state :=
  PendState (<[pe := e]> (pe_heap s)) (g_pending_head s).

(** [kz] is the address [kzalloc] returns, [pid] the current task's. *)
Definition init_pending_entry (kz pid : Z) (s : pend_state) : pend_state * Z :=
  if zero_or_null_ptr kz then (s, 0)
  else (PendState (<[kz := PendingEntry 1 pid 0]> (pe_heap s)) (g_pending_head s ++ [kz]), kz).

Fixpoint find_pid_loop (s : pend_state) (pid : Z) (l : list Z) : outcome Z :=
  match l with
  | [] => Ret 0
  | pe :: l =>
      e ← at_index (pe_heap s) pe;
      if pe_pid e =? pid then Ret pe else find_pid_loop s pid l
  end.

Definition find_pending_entry (s : pend_state) (pid : Z) : outcome (pend_state * Z) :=
  pe ← find_pid_loop s pid (g_pending_head s);
  if pe =? 0 then Ret (s, 0)
  else
    e ← at_index (pe_heap s) pe;
    Ret (set_pe s pe (PendingEntry (atomic_inc (pe_users e)) (pe_pid e) (pe_run e)), pe).

Fixpoint foreach_loop (func : pend_state → Z → outcome pend_state) (s : pend_state)
    (l : list Z) : outcome pend_state :=
  match l with
  | [] => Ret s
  | pe :: l => s ← func s pe; foreach_loop func s l
  end.

Definition foreach_pending_entry (func : pend_state → Z → outcome pend_state)
    (s : pend_state) : outcome pend_state :=
  foreach_loop func s (g_pending_head s).

Definition put_pending_entry (s : pend_state) (pe : Z) : outcome pend_state :=
  if pe =? 0 then Ret s
  else
    e ← at_index (pe_heap s) pe;
    if atomic_dec (pe_users e) =? 0
    then Ret (PendState (delete pe (pe_heap s)) (g_pending_head s))
    else Ret (set_pe s pe (PendingEntry (atomic_dec (pe_users e)) (pe_pid e) (pe_run e))).

Definition release_pending_entry (s : pend_state) (pe : Z) : outcome pend_state :=
  _ ← at_index (pe_heap s) pe;
  l ← unlink pe (g_pending_head s);
  put_pending_entry (PendState (pe_heap s) l) pe.

(** [atomic_set(&pe->run, which)] *)
Definition set_run (s : pend_state) (pe which : Z) : outcome pend_state :=
  e ← at_index (pe_heap s) pe;
  Ret (set_pe s pe (PendingEntry (pe_users e) (pe_pid e) which)).

Definition wakeup_pe (s : pend_state) (pe : Z) : outcome pend_state :=
  if pe =? 0 then Ret s else set_run s pe 1.

Definition smc_wakeup_broadcast (s : pend_state) : outcome (pend_state * Z) :=
  s ← foreach_pending_entry wakeup_pe s; Ret (s, 0).

Definition proc_smc_wakeup_ca (s : pend_state) (ca which : Z) : outcome (pend_state * Z) :=
  if ca <=? 0 then Ret (s, 0)
  else
    '(s, pe) ← find_pending_entry s ca;
    if pe =? 0 then Ret (s, - 1)
    else
      s ← set_run s pe which;
      s ← put_pending_entry s pe;
      Ret (s, 0).

Definition smc_wakeup_ca (s : pend_state) (ca : Z) := proc_smc_wakeup_ca s ca 1.
Definition smc_shadow_exit (s : pend_state) (ca : Z) := proc_smc_wakeup_ca s ca SHADOW_EXIT_RUN.

(** ** Who holds a reference

    Owners ([owned], the callers between [init_pending_entry] and
    [release_pending_entry]) and finders ([held], one occurrence for each
    reference a finder has not given back). *)

Definition refs (owned held : list Z) (pe : Z) : Z :=
  Z.of_nat (length (filter (λ x, x = pe) owned) + length (filter (λ x, x = pe) held)).

Record pend_ok (s : pend_state) (owned held : list Z) : Prop := {
  po_list : g_pending_head s = owned;
  po_nodup : NoDup owned;
  po_alloc pe : is_Some (pe_heap s !! pe) ↔ pe ∈ owned ∨ pe ∈ held;
  po_users pe e : pe_heap s !! pe = Some e → pe_users e = refs owned held pe;
  po_null : (0 ∉ owned) ∧ (0 ∉ held);
  po_small : Z.of_nat (length owned + length held) < 2 ^ 31 - 1
}.

Inductive pstep : pend_state * list Z * list Z → pend_state * list Z * list Z → Prop :=
| p_init s owned held kz pid s' :
    (* the allocator returns memory that is not in use *)
    16 < kz → pe_heap s !! kz = None →
    Z.of_nat (length owned + length held) + 1 < 2 ^ 31 - 1 →
    init_pending_entry kz pid s = (s', kz) →
    pstep (s, owned, held) (s', owned ++ [kz], held)
| p_find s owned held pid s' pe :
    Z.of_nat (length owned + length held) + 1 < 2 ^ 31 - 1 →
    find_pending_entry s pid = Ret (s', pe) →
    pstep (s, owned, held) (s', owned, if pe =? 0 then held else pe :: held)
| p_run s owned held pe which s' :
    pe ∈ owned ∨ pe ∈ held → set_run s pe which = Ret s' →
    pstep (s, owned, held) (s', owned, held)
| p_put s owned held1 held2 pe s' :
    put_pending_entry s pe = Ret s' →
    pstep (s, owned, held1 ++ pe :: held2) (s', owned, held1 ++ held2)
| p_release s owned held pe s' :
    pe ∈ owned → release_pending_entry s pe = Ret s' →
    pstep (s, owned, held) (s', filter (λ x, x ≠ pe) owned, held).

Inductive preach : pend_state * list Z * list Z → Prop :=
| pr_init : preach (PendState ∅ [], [], [])
| pr_step x y : preach x → pstep x y → preach y.
