(* ===== verification/SmcPendingThm.v ===== *)
(** * Pending entries are never used after they are freed *)

From stdpp Require Import base gmap list.
From Stdlib Require Import ZArith Lia.
From S2P Require Import Prelude KernelApi TeeTypes Mailbox SessReg SessLookup SmcPending.

(** ** Counting references *)

Definition cnt (pe : Z) (l : list Z) : nat := length (filter (λ x, x = pe) l).

Lemma cnt_app pe l k : cnt pe (l ++ k) = (cnt pe l + cnt pe k)%nat.
Proof. unfold cnt. by rewrite filter_app, length_app. Qed.

Lemma cnt_cons pe x l : cnt pe (x :: l) = ((if decide (x = pe) then 1 else 0) + cnt pe l)%nat.
Proof. unfold cnt. rewrite filter_cons. by case_decide. Qed.

Lemma cnt_le pe l : (cnt pe l ≤ length l)%nat.
Proof. unfold cnt. apply length_filter. Qed.

Lemma cnt_pos pe l : pe ∈ l ↔ (0 < cnt pe l)%nat.
Proof.
  induction l as [|x l IH]; [split; [by intros ?%elem_of_nil|unfold cnt; simpl; lia]|].
  rewrite cnt_cons, elem_of_cons, IH. case_decide; [subst; split; [lia|by left]|].
  split; [intros [?|?]; [congruence|lia]|intros; right; lia].
Qed.

Lemma cnt_nodup pe l : NoDup l → (cnt pe l ≤ 1)%nat.
Proof.
  induction 1 as [|x l Hx _ IH]; [unfold cnt; simpl; lia|]. rewrite cnt_cons.
  case_decide; [|lia]. subst. rewrite cnt_pos in Hx. lia.
Qed.

Lemma cnt_filter_ne pe q l :
  cnt q (filter (λ x, x ≠ pe) l) = if decide (q = pe) then 0%nat else cnt q l.
Proof.
  induction l as [|x l IH]; [by case_decide|].
  rewrite filter_cons. destruct (decide (x ≠ pe)) as [Hx|Hx].
  - rewrite !cnt_cons, IH. destruct (decide (q = pe)) as [->|]; [|done].
    rewrite decide_False by done. done.
  - rewrite IH, cnt_cons. destruct (decide (q = pe)); [done|].
    rewrite decide_False; [done|]. intros ->. apply dec_stable in Hx. done.
Qed.

Lemma refs_cnt owned held pe : refs owned held pe = Z.of_nat (cnt pe owned + cnt pe held).
Proof. done. Qed.

(** ** The operations under the invariant *)

Section Ops.
Context (s : pend_state) (owned held : list Z) (Hok : pend_ok s owned held).

Lemma pend_entry pe :
  pe ∈ owned ∨ pe ∈ held →
  ∃ e, pe_heap s !! pe = Some e ∧ pe ≠ 0 ∧ pe_users e = refs owned held pe ∧
    1 ≤ pe_users e < 2 ^ 31 - 1.
Proof using Hok.
  intros Hin. destruct (proj2 (po_alloc _ _ _ Hok pe) Hin) as [e He].
  exists e. split; [done|]. split.
  { intros ->. destruct (po_null _ _ _ Hok). tauto. }
  rewrite (po_users _ _ _ Hok pe e He). split; [done|]. rewrite refs_cnt.
  pose proof (cnt_le pe owned). pose proof (cnt_le pe held).
  pose proof (po_small _ _ _ Hok). rewrite !cnt_pos in Hin. lia.
Qed.

Lemma set_run_ok pe which :
  pe ∈ owned ∨ pe ∈ held →
  ∃ s', set_run s pe which = Ret s' ∧ pend_ok s' owned held.
Proof using Hok.
  intros Hin. destruct (pend_entry pe Hin) as (e & He & Hp & Hu & _).
  unfold set_run. rewrite (proj2 (at_index_Some _ _ _) He). eexists. split; [done|].
  destruct Hok as [H1 H2 H3 H4 H5 H6]. split; simpl; try done.
  - intros q. destruct (decide (pe = q)) as [<-|]; [rewrite lookup_insert_eq; split; eauto|].
    by rewrite lookup_insert_ne.
  - intros q x. destruct (decide (pe = q)) as [<-|].
    + rewrite lookup_insert_eq. intros [= <-]. done.
    + rewrite lookup_insert_ne by done. apply H4.
Qed.

Lemma find_pid_loop_ok pid l :
  (∀ pe, pe ∈ l → pe ∈ owned) →
  ∃ pe, find_pid_loop s pid l = Ret pe ∧ (pe = 0 ∨ pe ∈ l).
Proof using Hok.
  induction l as [|x l IH]; intros Hl; simpl; [eauto|].
  destruct (pend_entry x) as (e & He & _); [left; apply Hl; left|].
  rewrite (proj2 (at_index_Some _ _ _) He). simpl. destruct (pe_pid e =? pid).
  - exists x. split; [done|]. right. left.
  - destruct IH as (pe & -> & H); [intros; apply Hl; by right|].
    exists pe. split; [done|]. destruct H; [by left|right; by right].
Qed.

Lemma find_ok pid :
  Z.of_nat (length owned + length held) + 1 < 2 ^ 31 - 1 →
  ∃ s' pe, find_pending_entry s pid = Ret (s', pe) ∧ (pe = 0 ∨ pe ∈ owned) ∧
    pend_ok s' owned (if pe =? 0 then held else pe :: held).
Proof using Hok.
  intros Hsmall. unfold find_pending_entry. rewrite (po_list _ _ _ Hok).
  destruct (find_pid_loop_ok pid owned) as (pe & -> & Hpe); [done|]. simpl.
  destruct (Z.eqb_spec pe 0) as [->|Hp0].
  { exists s, 0. split; [done|]. split; [by left|]. done. }
  destruct Hpe as [?|Hpe]; [done|].
  destruct (pend_entry pe) as (e & He & _ & Hu & Hr); [by left|].
  rewrite (proj2 (at_index_Some _ _ _) He). simpl. do 2 eexists. split; [done|].
  split; [by right|]. rewrite (proj2 (Z.eqb_neq pe 0)) by done.
  rewrite atomic_inc_small by lia.
  destruct Hok as [H1 H2 H3 H4 H5 H6]. split; simpl; try done.
  - intros q. destruct (decide (pe = q)) as [<-|Hq].
    + rewrite lookup_insert_eq. split; eauto.
    + rewrite lookup_insert_ne by done. rewrite H3, elem_of_cons.
      split; [tauto|]. intros [?|[?|?]]; [tauto|congruence|tauto].
  - intros q x. rewrite refs_cnt, cnt_cons. destruct (decide (pe = q)) as [<-|Hq].
    + rewrite lookup_insert_eq. intros [= <-]. simpl. rewrite Hu, refs_cnt. lia.
    + rewrite lookup_insert_ne by done. intros Hx. rewrite (H4 q x Hx). done.
  - split; [apply H5|]. rewrite elem_of_cons. intros [?|?]; [congruence|]. by apply H5.
  - lia.
Qed.

End Ops.

Lemma put_ok s owned held1 held2 pe :
  pend_ok s owned (held1 ++ pe :: held2) →
  ∃ s', put_pending_entry s pe = Ret s' ∧ pend_ok s' owned (held1 ++ held2).
Proof.
  intros Hok.
  destruct (pend_entry _ _ _ Hok pe) as (e & He & Hp & Hu & Hr).
  { right. apply elem_of_app. right. left. }
  unfold put_pending_entry. rewrite (proj2 (Z.eqb_neq pe 0)) by done.
  rewrite (proj2 (at_index_Some _ _ _) He). simpl. rewrite atomic_dec_small by lia.
  rewrite refs_cnt, cnt_app, cnt_cons, decide_True in Hu by done.
  destruct Hok as [H1 H2 H3 H4 H5 H6].
  assert (∀ q, q ≠ pe → (q ∈ held1 ++ pe :: held2 ↔ q ∈ held1 ++ held2)) as Hother.
  { intros q Hq. rewrite !elem_of_app, elem_of_cons. tauto. }
  assert (∀ q, q ≠ pe → refs owned (held1 ++ pe :: held2) q = refs owned (held1 ++ held2) q)
    as Hrefs.
  { intros q Hq. rewrite !refs_cnt, !cnt_app, cnt_cons, decide_False by congruence. lia. }
  assert (0 ∉ held1 ++ held2) as Hnull.
  { intros H0. destruct H5 as [_ H5]. apply H5. rewrite elem_of_app, elem_of_cons in *. tauto. }
  rewrite length_app in H6. simpl in H6.
  destruct (Z.eqb_spec (pe_users e - 1) 0) as [E|E]; eexists; (split; [done|]).
  - assert (cnt pe owned = 0 ∧ cnt pe held1 = 0 ∧ cnt pe held2 = 0)%nat as (C1 & C2 & C3) by lia.
    split; simpl; try done.
    + intros q. destruct (decide (pe = q)) as [<-|Hq].
      * rewrite lookup_delete_eq, elem_of_app, !cnt_pos. split; [by intros []|lia].
      * rewrite lookup_delete_ne by done. rewrite H3. by rewrite Hother by congruence.
    + intros q x. destruct (decide (pe = q)) as [<-|Hq]; [by rewrite lookup_delete_eq|].
      rewrite lookup_delete_ne by done. intros Hx. rewrite <- Hrefs by congruence. by apply H4.
    + split; [apply H5|done].
    + rewrite length_app. lia.
  - split; simpl; try done.
    + intros q. destruct (decide (pe = q)) as [<-|Hq].
      * rewrite lookup_insert_eq, elem_of_app, !cnt_pos. split; [|eauto]. intros _.
        destruct (decide (0 < cnt pe owned)%nat); [by left|]. right. lia.
      * rewrite lookup_insert_ne by done. rewrite H3. by rewrite Hother by congruence.
    + intros q x. destruct (decide (pe = q)) as [<-|Hq].
      * rewrite lookup_insert_eq. intros [= <-]. simpl. rewrite refs_cnt, cnt_app. lia.
      * rewrite lookup_insert_ne by done. intros Hx. rewrite <- Hrefs by congruence. by apply H4.
    + split; [apply H5|done].
    + rewrite length_app. lia.
Qed.

Lemma init_ok s owned held kz pid :
  pend_ok s owned held → 16 < kz → pe_heap s !! kz = None →
  Z.of_nat (length owned + length held) + 1 < 2 ^ 31 - 1 →
  ∃ s', init_pending_entry kz pid s = (s', kz) ∧ pend_ok s' (owned ++ [kz]) held ∧
    ∀ x, x ≠ kz → pe_heap s' !! x = pe_heap s !! x.
Proof.
  intros [H1 H2 H3 H4 H5 H6] Hkz Hn Hsmall. unfold init_pending_entry, zero_or_null_ptr.
  rewrite (proj2 (Z.leb_gt kz 16)) by lia. eexists. split; [done|].
  assert ((kz ∉ owned) ∧ (kz ∉ held)) as [Ho Hh].
  { split; intros Hin; assert (is_Some (pe_heap s !! kz)) as [? ?] by (apply H3; tauto);
      congruence. }
  split; [|intros; by apply lookup_insert_ne].
  split; simpl.
  - by rewrite H1.
  - apply NoDup_app. split; [done|]. split; [|apply NoDup_singleton].
    intros x Hx ->%list_elem_of_singleton. done.
  - intros q. rewrite elem_of_app, list_elem_of_singleton.
    destruct (decide (kz = q)) as [<-|Hq]; [rewrite lookup_insert_eq; split; eauto|].
    rewrite lookup_insert_ne by done. rewrite H3.
    split; [tauto|]. intros [[?|?]|?]; [tauto|congruence|tauto].
  - intros q x. rewrite refs_cnt, cnt_app, cnt_cons. change (cnt q []) with 0%nat.
    destruct (decide (kz = q)) as [<-|Hq].
    + rewrite lookup_insert_eq. intros [= <-]. simpl. rewrite cnt_pos in Ho, Hh. lia.
    + rewrite lookup_insert_ne by done. intros Hx. rewrite (H4 q x Hx), refs_cnt. lia.
  - rewrite elem_of_app, list_elem_of_singleton. split; [|apply H5].
    intros [?|?]; [by apply (proj1 H5)|lia].
  - rewrite length_app. simpl. lia.
Qed.

Lemma release_ok s owned held pe :
  pend_ok s owned held → pe ∈ owned →
  ∃ s', release_pending_entry s pe = Ret s' ∧
    pend_ok s' (filter (λ x, x ≠ pe) owned) held ∧
    ∀ x, x ≠ pe → pe_heap s' !! x = pe_heap s !! x.
Proof.
  intros Hok Hin.
  destruct (pend_entry _ _ _ Hok pe) as (e & He & Hp & Hu & Hr); [by left|].
  unfold release_pending_entry. rewrite (proj2 (at_index_Some _ _ _) He), ret_bind.
  unfold unlink. rewrite (po_list _ _ _ Hok), decide_True, ret_bind by done.
  unfold put_pending_entry. rewrite (proj2 (Z.eqb_neq pe 0)) by done. simpl.
  rewrite (proj2 (at_index_Some _ _ _) He). simpl. rewrite atomic_dec_small by lia.
  destruct Hok as [H1 H2 H3 H4 H5 H6].
  pose proof (cnt_nodup pe owned H2) as Hc1. pose proof (proj1 (cnt_pos _ _) Hin) as Hc2.
  rewrite refs_cnt in Hu.
  assert (∀ q, q ≠ pe → (q ∈ filter (λ x, x ≠ pe) owned ↔ q ∈ owned)) as Hother.
  { intros q Hq. rewrite list_elem_of_filter. tauto. }
  assert (pe ∉ filter (λ x, x ≠ pe) owned) as Hgone.
  { rewrite list_elem_of_filter. tauto. }
  assert (∀ q, q ≠ pe → refs (filter (λ x, x ≠ pe) owned) held q = refs owned held q) as Hrefs.
  { intros q Hq. rewrite !refs_cnt, cnt_filter_ne, decide_False by done. done. }
  pose proof (length_filter (λ x, x ≠ pe) owned) as Hlen.
  destruct (Z.eqb_spec (pe_users e - 1) 0) as [E|E]; eexists; (split; [done|]).
  - assert (cnt pe held = 0)%nat as Ch by lia. split.
    2:{ intros x Hx. simpl. by rewrite lookup_delete_ne. }
    split; simpl; try done.
    + by apply NoDup_filter.
    + intros q. destruct (decide (pe = q)) as [<-|Hq].
      * rewrite lookup_delete_eq, !cnt_pos, cnt_filter_ne, decide_True by done.
        split; [by intros []|lia].
      * rewrite lookup_delete_ne by done. rewrite H3. by rewrite Hother by congruence.
    + intros q x. destruct (decide (pe = q)) as [<-|Hq]; [by rewrite lookup_delete_eq|].
      rewrite lookup_delete_ne by done. intros Hx. rewrite Hrefs by congruence. by apply H4.
    + split; [|apply H5]. rewrite list_elem_of_filter. intros [_ ?]. by apply (proj1 H5).
    + lia.
  - split.
    2:{ intros x Hx. simpl. by rewrite lookup_insert_ne. }
    split; simpl; try done.
    + by apply NoDup_filter.
    + intros q. destruct (decide (pe = q)) as [<-|Hq].
      * rewrite lookup_insert_eq, !cnt_pos. split; [|eauto]. intros _. right. lia.
      * rewrite lookup_insert_ne by done. rewrite H3. by rewrite Hother by congruence.
    + intros q x. destruct (decide (pe = q)) as [<-|Hq].
      * rewrite lookup_insert_eq. intros [= <-]. simpl.
        rewrite refs_cnt, cnt_filter_ne, decide_True by done. lia.
      * rewrite lookup_insert_ne by done. intros Hx. rewrite Hrefs by congruence. by apply H4.
    + split; [|apply H5]. rewrite list_elem_of_filter. intros [_ ?]. by apply (proj1 H5).
    + lia.
Qed.

Lemma preach_ok s owned held : preach (s, owned, held) → pend_ok s owned held.
Proof.
  intros H. remember (s, owned, held) as x eqn:Ex. revert s owned held Ex.
  induction H as [|x y _ IH Hst]; intros s owned held Ex.
  { injection Ex as <- <- <-. split; simpl; try done.
    - apply NoDup_nil_2.
    - intros pe. rewrite lookup_empty. split; [by intros []|].
      by intros [?%elem_of_nil|?%elem_of_nil].
    - split; by intros ?%elem_of_nil. }
  destruct Hst as [s0 o0 h0 kz pid s' Hkz Hn Hs Hi|s0 o0 h0 pid s' pe Hs Hf|s0 o0 h0 pe w s' Hin Hr
    |s0 o0 h1 h2 pe s' Hp|s0 o0 h0 pe s' Hin Hr];
    specialize (IH _ _ _ eq_refl); injection Ex as <- <- <-.
  - destruct (init_ok _ _ _ kz pid IH Hkz Hn Hs) as (? & E & ? & _). congruence.
  - destruct (find_ok _ _ _ IH pid Hs) as (? & ? & E & _ & ?).
    rewrite E in Hf. by simplify_eq.
  - destruct (set_run_ok _ _ _ IH pe w Hin) as (? & E & ?). congruence.
  - destruct (put_ok _ _ _ _ _ IH) as (? & E & ?). congruence.
  - destruct (release_ok _ _ _ _ IH Hin) as (? & E & ? & _). congruence.
Qed.

(** ** Claims *)

(** C17. Whatever the interleaving of waiting callers and wakers, no one touches
    a freed pending entry: a lookup only yields entries of waiting callers,
    every reference holder can still use and give back its entry, and a caller
    that stops waiting frees its entry exactly when no waker still holds it. *)
Theorem pending_entries_safe s owned held :
  preach (s, owned, held) →
  Z.of_nat (length owned + length held) + 1 < 2 ^ 31 - 1 →
  (∀ pid, ∃ s' pe, find_pending_entry s pid = Ret (s', pe) ∧ (pe = 0 ∨ pe ∈ owned)) ∧
  (∀ pe which, pe ∈ owned ∨ pe ∈ held → ∃ s', set_run s pe which = Ret s') ∧
  (∀ pe, pe ∈ held → ∃ s', put_pending_entry s pe = Ret s') ∧
  (∀ pe, pe ∈ owned → ∃ s', release_pending_entry s pe = Ret s' ∧
     (pe ∉ g_pending_head s') ∧ (is_Some (pe_heap s' !! pe) ↔ pe ∈ held)).
Proof.
  intros Hr Hsmall. pose proof (preach_ok _ _ _ Hr) as Hok. split; [|split; [|split]].
  - intros pid. destruct (find_ok _ _ _ Hok pid Hsmall) as (s' & pe & ? & ? & _). eauto.
  - intros pe which Hin. destruct (set_run_ok _ _ _ Hok pe which Hin) as (s' & ? & _). eauto.
  - intros pe (h1 & h2 & ->)%list_elem_of_split.
    destruct (put_ok _ _ _ _ _ Hok) as (s' & ? & _). eauto.
  - intros pe Hin. destruct (release_ok _ _ _ _ Hok Hin) as (s' & ? & Hok' & _).
    exists s'. split; [done|].
    assert (pe ∉ filter (λ x, x ≠ pe) owned) as Hn by (rewrite list_elem_of_filter; tauto).
    split; [by rewrite (po_list _ _ _ Hok')|]. rewrite (po_alloc _ _ _ Hok'). tauto.
Qed.

Lemma find_pid_loop_first s pid l pe :
  find_pid_loop s pid l = Ret pe → pe ≠ 0 →
  ∃ l1 l2 e, l = l1 ++ pe :: l2 ∧ pe_heap s !! pe = Some e ∧ pe_pid e = pid ∧
    ∀ x, x ∈ l1 → ∃ e', pe_heap s !! x = Some e' ∧ pe_pid e' ≠ pid.
Proof.
  induction l as [|x l IH]; simpl; [congruence|].
  rewrite bind_Ret. intros (e & He & H) Hp. apply at_index_Some in He.
  destruct (Z.eqb_spec (pe_pid e) pid) as [E|E].
  - injection H as <-. exists [], l, e. split; [done|]. split; [done|]. split; [done|].
    by intros ? ?%elem_of_nil.
  - destruct (IH H Hp) as (l1 & l2 & e' & -> & ? & ? & Hl).
    exists (x :: l1), l2, e'. split; [done|]. split; [done|]. split; [done|].
    intros y [->|Hy]%elem_of_cons; [eauto|by apply Hl].
Qed.

Lemma find_pid_loop_none s pid l :
  find_pid_loop s pid l = Ret 0 → (0 ∉ l) →
  ∀ x, x ∈ l → ∃ e, pe_heap s !! x = Some e ∧ pe_pid e ≠ pid.
Proof.
  induction l as [|y l IH]; simpl; [by intros _ _ x ?%elem_of_nil|].
  rewrite bind_Ret. intros (e & He & H) Hn. apply not_elem_of_cons in Hn as [Hy Hn].
  apply at_index_Some in He. destruct (Z.eqb_spec (pe_pid e) pid); [congruence|].
  intros x [->|Hx]%elem_of_cons; [eauto|by apply IH].
Qed.

(** [smc_wakeup_ca] always returns.  It sets the run flag of the first
    waiting entry with the given pid, reports -1 precisely when no caller with
    that pid waits, and leaves the list, the other entries and every reference
    count as they were. *)
Theorem smc_wakeup_ca_correct s owned held ca which :
  preach (s, owned, held) →
  Z.of_nat (length owned + length held) + 1 < 2 ^ 31 - 1 → 0 < ca →
  ∃ s' r, proc_smc_wakeup_ca s ca which = Ret (s', r) ∧
  ((r = - 1 ∧ s' = s ∧
    ∀ x, x ∈ g_pending_head s → ∃ e, pe_heap s !! x = Some e ∧ pe_pid e ≠ ca) ∨
   (r = 0 ∧ ∃ l1 l2 pe e, g_pending_head s = l1 ++ pe :: l2 ∧ pe_heap s !! pe = Some e ∧
      pe_pid e = ca ∧
      (∀ x, x ∈ l1 → ∃ e', pe_heap s !! x = Some e' ∧ pe_pid e' ≠ ca) ∧
      s' = PendState (<[pe := PendingEntry (pe_users e) ca which]> (pe_heap s))
             (g_pending_head s))).
Proof.
  intros Hr Hsmall Hca. pose proof (preach_ok _ _ _ Hr) as Hok.
  unfold proc_smc_wakeup_ca. rewrite (proj2 (Z.leb_gt ca 0)) by lia.
  unfold find_pending_entry. rewrite (po_list _ _ _ Hok).
  destruct (find_pid_loop_ok _ _ _ Hok ca owned) as (pe & Hf & Hpe); [done|].
  rewrite Hf, ret_bind. destruct (Z.eqb_spec pe 0) as [->|Hp].
  { rewrite ret_bind. simpl. exists s, (-1). split; [done|]. left. split_and!; [done..|].
    apply find_pid_loop_none; [done|]. intros H0.
    destruct (pend_entry _ _ _ Hok 0 (or_introl H0)) as (? & _ & ? & _). done. }
  destruct Hpe as [?|Hpe]; [done|].
  destruct (find_pid_loop_first _ _ _ _ Hf Hp) as (l1 & l2 & e & Hl & He & Hpid & Hfirst).
  destruct (pend_entry _ _ _ Hok pe (or_introl Hpe)) as (e' & He' & _ & Hu & Hb).
  simplify_eq. rewrite (proj2 (at_index_Some _ _ _) He), !ret_bind.
  rewrite (proj2 (Z.eqb_neq pe 0)) by done.
  unfold set_run, at_index, set_pe. simpl. rewrite lookup_insert_eq. simpl.
  unfold put_pending_entry, at_index. rewrite (proj2 (Z.eqb_neq pe 0)) by done. simpl.
  rewrite lookup_insert_eq. simpl. rewrite atomic_inc_small, atomic_dec_small by lia.
  destruct (Z.eqb_spec (pe_users e + 1 - 1) 0); [lia|]. simpl.
  eexists _, 0. split; [done|]. right.
  split; [done|]. exists l1, l2, pe, e.
  do 4 (split; [done|]).
  unfold set_pe. simpl. rewrite !insert_insert_eq, Z.add_simpl_r.
  by rewrite (po_list _ _ _ Hok).
Qed.

(** Two callers wait, a waker holds the first one's entry. *)
Definition pend_two : pend_state :=
  PendState (<[200 := PendingEntry 1 12 0]> (<[100 := PendingEntry 1 11 0]> ∅)) [100; 200].

Lemma preach_two : preach (pend_two, [100; 200], []).
Proof.
  eapply pr_step.
  - eapply pr_step; [apply pr_init|]. apply (p_init _ [] [] 100 11); try reflexivity; lia.
  - apply (p_init _ [100] [] 200 12); try reflexivity; simpl; lia.
Qed.

Lemma pending_entries_safe_witness :
  ∃ s', release_pending_entry pend_two 100 = Ret s' ∧ ¬ is_Some (pe_heap s' !! 100).
Proof.
  destruct (pending_entries_safe pend_two [100; 200] [] preach_two ltac:(simpl; lia))
    as (_ & _ & _ & H).
  destruct (H 100) as (s' & E & _ & Hs); [left|].
  exists s'. split; [exact E|]. rewrite Hs. apply not_elem_of_nil.
Defined.

Lemma smc_wakeup_ca_correct_witness :
  proc_smc_wakeup_ca pend_two 12 1
    = Ret (PendState (<[200 := PendingEntry 1 12 1]> (pe_heap pend_two)) [100; 200], 0).
Proof.
  destruct (smc_wakeup_ca_correct pend_two [100; 200] [] 12 1 preach_two
    ltac:(simpl; lia) ltac:(lia))
    as (s' & r & E & [(-> & -> & _)|(-> & l1 & l2 & pe & e & Hl & He & Hp & _ & Hs)]).
  - vm_compute in E. discriminate.
  - rewrite E, Hs. assert (pe = 200) as Hpe.
    { destruct (decide (pe = 200)) as [|Hn]; [assumption|]. exfalso.
      unfold pend_two in He. cbn [pe_heap] in He. rewrite lookup_insert_ne in He by congruence.
      destruct (decide (pe = 100)) as [->|Hn']; [rewrite lookup_insert_eq in He|].
      - injection He as <-. discriminate Hp.
      - rewrite lookup_insert_ne, lookup_empty in He by congruence. discriminate. }
    rewrite Hpe in *. cbn [pend_two pe_heap] in He. rewrite lookup_insert_eq in He.
    injection He as <-. reflexivity.
Defined.
