(* ===== verification/SmcSend.v ===== *)
(** * Sending a command to the TEE (core/smc_smp.c)

    [smp_smc_send_func] and what it calls: the SMC retry loop, waiting with
    its timeout steps, aborting, collecting the answer, resending after an
    agent has worked.  The TEE, the scheduler and the signals of the calling
    task are the operations of [SmcWorld]; the loops carry fuel and return
    [None] when it is used up.  [ret_val] is kept as its 32-bit pattern. *)

From stdpp Require Import base gmap list.
From Stdlib Require Import ZArith Lia.
From S2P Require Import Prelude KernelApi TeeTypes Buffers Mailbox SessReg CallTypes Auth.
From S2P Require Import SmcQueue SmcPending.

Definition TSP_REQUEST : Z := 0xB2000008.
Definition TSP_CRASH : Z := 0xB200000B.
Definition TSP_REE_SIQ : Z := 0xB200000A.
Definition SMC_OPS_NORMAL : Z := 0.
Definition SMC_OPS_SCHEDTO : Z := 1.
Definition SMC_OPS_START_SHADOW : Z := 2.
Definition SMC_OPS_START_FIQSHD : Z := 3.
Definition SMC_OPS_PROBE_ALIVE : Z := 4.
Definition SMC_OPS_ABORT_TASK : Z := 5.
Definition SMC_EXIT_NORMAL : Z := 0.
Definition SMC_EXIT_PREEMPTED : Z := 1.
Definition SMC_EXIT_SHADOW : Z := 2.
Definition SMC_EXIT_ABORT : Z := 3.
Definition SMC_EXIT_MAX : Z := 4.
Definition IDLED_COUNT : Z := 100.
Definition TO_STEP_SIZE : Z := 5.
Definition INVALID_STEP_SIZE : Z := 0xFFFFFFFF.
Definition RESLEEP_TIMEOUT : Z := 15.
Definition MSEC_PER_SEC : Z := 1000.
Definition MINUS_ONE : Z := 0xFFFFFFFF.

Record smc_in_params := SmcIn { x0 : Z; x1 : Z; x2 : Z; x3 : Z; x4 : Z }.
Record smc_out_params := SmcOut { o_ret : Z; exit_reason : Z; o_ta : Z; o_target : Z }.
Record smc_cmd_ret := CmdRet { cr_exit : Z; cr_ta : Z; cr_target : Z }.
Record cmd_reuse_info := ReuseInfo { cmd_index : Z; saved_index : Z; cmd_usage : cmd_reuse }.
Record timeout_step_t := TimeoutStep {
  steps : list Z;
  step_size : Z;
  step_cur : Z;
  timeout_reset : bool
}.

(** The driver's state a command runs in. *)
Record smc_sys := SmcSys {
  sys_smc : smc_state;
  sys_pend : pend_state;
  g_sys_crash : bool
}.

Definition sys_queue (s : smc_sys) : tc_ns_smc_queue := g_cmd_data (sys_smc s).
Definition sys_with_queue (s : smc_sys) (q : tc_ns_smc_queue) : smc_sys :=
  SmcSys (with_queue (sys_smc s) q) (sys_pend s) (g_sys_crash s).
Definition sys_with_smc (s : smc_sys) (x : smc_state) : smc_sys :=
  SmcSys x (sys_pend s) (g_sys_crash s).
Definition sys_with_pend (s : smc_sys) (p : pend_state) : smc_sys :=
  SmcSys (sys_smc s) p (g_sys_crash s).
Definition sys_crashed (s : smc_sys) : smc_sys := SmcSys (sys_smc s) (sys_pend s) true.

(** - [w_smc]: one [smc #0] instruction; the TEE, and on other CPUs the rest of
      the driver, act until it returns;
    - [w_wait t]: sleep on [pe->wq] for [t] jiffies ([None] without limit);
      true when [pe->run] was set;
    - [w_sleep]: the [msleep] between two looks for a free slot;
    - [w_killed], [w_reported]: a kill signal is pending, the thread has been
      reported;
    - [w_agent]: [agent_process_work]. *)
Class SmcWorld (W : Type) := {
  w_smc : W → smc_in_params → smc_sys → W * smc_sys * smc_out_params;
  w_wait : W → option Z → smc_sys → W * smc_sys * bool;
  w_sleep : Z → smc_state → smc_state;
  w_killed : W → bool;
  w_reported : W → bool;
  w_agent : W → tc_ns_smc_cmd → Z → W * Z;
  w_kernel_thread : bool;
  w_pid : Z
}.

Class KernelTime := { HZ : Z; msecs_to_jiffies : Z → Z }.

Class KernelTimeLaws (K : KernelTime) := {
  HZ_range : 0 < HZ ≤ 1000;
  msecs_to_jiffies_range t : 0 < t ≤ 15000 → 1 ≤ msecs_to_jiffies t ≤ 15 * HZ
}.

(** ** Timeout steps *)

Definition push_step (l : list Z * nat) (x : Z) : list Z * nat :=
  (<[l.2 := x]> l.1, S l.2).

Section Timeout.
Context {KT : KernelTime}.

Definition init_timeout_step (timeout : Z) (step : timeout_step_t) : timeout_step_t :=
  if timeout =? 0
  then TimeoutStep (<[0%nat := RESLEEP_TIMEOUT * HZ]> (steps step)) 1 0 (timeout_reset step)
  else
    let timeout := if RESLEEP_TIMEOUT * MSEC_PER_SEC <? timeout
                   then RESLEEP_TIMEOUT * MSEC_PER_SEC else timeout in
    let j := msecs_to_jiffies timeout in
    let l := if 1 <? j
             then push_step (push_step (steps step, 0%nat) (j - 1)) 1
             else push_step (steps step, 0%nat) j in
    let l := push_step (push_step l 1) 1 in
    let l := if j + 2 <? RESLEEP_TIMEOUT * HZ
             then push_step l (RESLEEP_TIMEOUT * HZ - 2 - j) else l in
    TimeoutStep l.1 (Z.of_nat l.2) 0 (timeout_reset step).

End Timeout.

Definition set_timeout_step (step : timeout_step_t) : timeout_step_t :=
  if timeout_reset step
  then TimeoutStep (steps step) (step_size step) INVALID_STEP_SIZE false
  else step.

(** ** The SMC instruction *)

Definition set_smc_send_arg (p : smc_in_params) (secret : smc_cmd_ret) (ops : Z)
    : smc_in_params :=
  let p := if cr_exit secret =? SMC_EXIT_PREEMPTED
           then SmcIn (x0 p) SMC_OPS_SCHEDTO (x2 p) (cr_ta secret) (cr_target secret)
           else p in
  if (ops =? SMC_OPS_SCHEDTO) || (ops =? SMC_OPS_START_FIQSHD)
  then SmcIn (x0 p) (x1 p) (x2 p) (x3 p) (cr_target secret) else p.

Section Send.
Context {W : Type} {SW : SmcWorld W} {KT : KernelTime} {F : PhysMap}.

Definition is_ready_to_kill (w : W) (need_kill : bool) : bool :=
  need_kill && w_killed w && w_reported w.

Fixpoint smp_smc_send_loop (fuel : nat) (w : W) (s : smc_sys) (p : smc_in_params)
    (ops : Z) (secret : smc_cmd_ret) (need_kill : bool)
    : option (W * smc_sys * smc_cmd_ret * Z) :=
  match fuel with
  | O => None
  | S fuel =>
      let p := set_smc_send_arg p secret ops in
      let '(w, s, out) := w_smc w p s in
      let secret := CmdRet (exit_reason out) (o_ta out) (o_target out) in
      if exit_reason out =? SMC_EXIT_PREEMPTED then
        if is_ready_to_kill w need_kill
        then Some (w, s, CmdRet SMC_EXIT_ABORT (o_ta out) (o_target out), u32 (o_ret out))
        else smp_smc_send_loop fuel w s p ops secret need_kill
      else Some (w, s, secret, u32 (o_ret out))
  end.

Definition smp_smc_send (fuel : nat) (w : W) (s : smc_sys) (cmd ops ca : Z)
    (secret : smc_cmd_ret) (need_kill : bool) : option (W * smc_sys * smc_cmd_ret * Z) :=
  smp_smc_send_loop fuel w s (SmcIn cmd ops ca 0 0) ops secret need_kill.

(** ** Submitting and collecting *)

(** Status, and the slot to use. *)
Definition smc_ops_normal (s : smc_sys) (info : cmd_reuse_info) (cmd : tc_ns_smc_cmd)
    (ops : Z) : outcome (smc_sys * cmd_reuse_info * Z) :=
  if negb (ops =? SMC_OPS_NORMAL) then Ret (s, info, 0)
  else
    match cmd_usage info with
    | RESEND =>
        '(x, r) ← reuse_smc_in_entry (sys_smc s) (cmd_index info);
        let s := sys_with_smc s x in
        if nonzero r
        then Ret (sys_with_queue s (release_smc_entry (sys_queue s) (cmd_index info)),
                  info, - ENOMEM)
        else Ret (s, ReuseInfo (saved_index info) (saved_index info) CLEAR, 0)
    | CLEAR =>
        '(x, i) ← occupy_free_smc_in_entry w_sleep (sys_smc s) cmd;
        let s := sys_with_smc s x in
        if i =? - 1 then Ret (s, ReuseInfo (- 1) (saved_index info) CLEAR, - ENOMEM)
        else Ret (s, ReuseInfo i i CLEAR, 0)
    end.

Definition with_ret_val (c : tc_ns_smc_cmd) (x : Z) : tc_ns_smc_cmd :=
  SmcCmd (uuid c) (cmd_type c) (cmd_id c) (dev_file_id c) (context_id c) (agent_id c)
    (operation_phys c) (operation_h_phys c) (login_method c) (login_data_phy c)
    (login_data_h_addr c) (login_data_len c) (err_origin c) x (event_nr c)
    (uid c) (ca_pid c) (token_phys c) (token_h_phys c) (pid c) (params_phys c)
    (params_h_phys c) (eventindex c) (started c).

Definition with_ca_pid (c : tc_ns_smc_cmd) (x : Z) : tc_ns_smc_cmd :=
  SmcCmd (uuid c) (cmd_type c) (cmd_id c) (dev_file_id c) (context_id c) (agent_id c)
    (operation_phys c) (operation_h_phys c) (login_method c) (login_data_phy c)
    (login_data_h_addr c) (login_data_len c) (err_origin c) (ret_val c) (event_nr c)
    (uid c) x (token_phys c) (token_h_phys c) (pid c) (params_phys c)
    (params_h_phys c) (eventindex c) (started c).

(** The crash reports and audit messages only log. *)
Definition cmd_result_check (s : smc_sys) (cmd : tc_ns_smc_cmd)
    : outcome (smc_sys * tc_ns_smc_cmd) :=
  if ret_val cmd =? TEEC_SUCCESS then
    '(R, r) ← verify_chksum (smc_reg (sys_smc s)) cmd;
    let s := sys_with_smc s (SmcState (sys_queue s) R (smc_mem (sys_smc s))) in
    Ret (s, if nonzero r then with_ret_val cmd TEEC_ERROR_GENERIC else cmd)
  else Ret (s, cmd).

(** [true]: the command will be resent ([PENDING2_RETRY]).  The third result is
    the caller's command block. *)
Definition smp_smc_send_cmd_done (w : W) (s : smc_sys) (cmd inp : tc_ns_smc_cmd)
    : outcome (W * smc_sys * tc_ns_smc_cmd * tc_ns_smc_cmd * bool) :=
  '(s, cmd) ← cmd_result_check s cmd;
  if ret_val cmd =? TEEC_PENDING2
  then let '(w, _) := w_agent w cmd (agent_id cmd) in Ret (w, s, cmd, inp, true)
  else Ret (w, s, cmd, cmd, false).

(** The command is gone when the TEE reports a crash. *)
Definition smp_smc_send_process (fuel : nat) (w : W) (s : smc_sys) (cmd : tc_ns_smc_cmd)
    (ops : Z) (cmd_ret : smc_cmd_ret)
    : option (W * smc_sys * tc_ns_smc_cmd * smc_cmd_ret * Z) :=
  match smp_smc_send fuel w s TSP_REQUEST ops (u32 w_pid) cmd_ret
          (negb (ops =? SMC_OPS_ABORT_TASK)) with
  | None => None
  | Some (w, s, cmd_ret, ret) =>
      if ret =? TSP_CRASH
      then Some (w, sys_crashed s, with_ret_val cmd MINUS_ONE, cmd_ret, - 1)
      else Some (w, s, cmd, cmd_ret, 0)
  end.

Definition init_for_smc_send (kz : Z) (s : smc_sys) (inp cmd : tc_ns_smc_cmd) (reuse : bool)
    : smc_sys * tc_ns_smc_cmd * tc_ns_smc_cmd * Z * Z :=
  let '(p, pe) := init_pending_entry kz w_pid (sys_pend s) in
  let s := sys_with_pend s p in
  if pe =? 0 then (s, inp, cmd, 0, - ENOMEM)
  else
    let inp := with_ca_pid inp w_pid in
    (s, inp, if reuse then cmd else inp, pe, 0).

Definition process_abort_cmd (s : smc_sys) (index : Z) : smc_sys * Z :=
  let '(q, r) := set_abort_cmd (sys_queue s) index in
  (sys_with_queue s q, if r =? 0 then SMC_OPS_ABORT_TASK else SMC_OPS_SCHEDTO).

Inductive pending_t := PD_WAKEUP | PD_TIMEOUT | PD_DONE.
Inductive smc_status_t := ST_DONE | ST_RETRY.

(** The user-mode wait of [proc_ta_pending] from label [resleep]: what it ended
    with ([None]: the wait is over), and whether it was woken.  [n] bounds the
    steps left, [step_size - step_cur]. *)
Fixpoint resleep (n : nat) (w : W) (s : smc_sys) (step : timeout_step_t)
    (timer_no_irq : bool) (cmd_index : Z) (ops : Z)
    : W * smc_sys * timeout_step_t * option pending_t * Z * bool :=
  let t := nth (Z.to_nat (step_cur step)) (steps step) 0 in
  let '(w, s, woke) := w_wait w (Some t) s in
  if woke : bool then (w, s, step, None, ops, true)
  else if step_cur step <? step_size step - 1 then
    let step := TimeoutStep (steps step) (step_size step) (step_cur step + 1)
                  (timeout_reset step) in
    if timer_no_irq then (w, s, step, Some PD_TIMEOUT, SMC_OPS_SCHEDTO, false)
    else
      match n with
      | O => (w, s, step, None, ops, false)
      | S n => resleep n w s step timer_no_irq cmd_index ops
      end
  else if w_killed w then
    let '(s, ops) := process_abort_cmd s cmd_index in
    (w, s, step, Some PD_WAKEUP, ops, false)
  else (w, s, step, None, ops, false).

(** [pending_args] is the [ta] register of the SMC: a timeout and a flag. *)
Definition proc_ta_pending (w : W) (s : smc_sys) (pe : Z) (step : timeout_step_t)
    (pending_args cmd_index ops : Z)
    : outcome (W * smc_sys * timeout_step_t * pending_t * Z) :=
  let '(w, s, step, r, ops, _) :=
    if w_kernel_thread then
      let '(w, s, woke) := w_wait w None s in (w, s, step, None, ops, woke)
    else
      let timeout := u32 pending_args in
      let timer_no_irq := negb (Z.shiftr pending_args 32 =? 0) in
      let step := if step_cur step =? INVALID_STEP_SIZE
                  then init_timeout_step timeout step else step in
      resleep (Z.to_nat TO_STEP_SIZE) w s step timer_no_irq cmd_index ops in
  match r with
  | Some r => Ret (w, s, step, r, ops)
  | None =>
      p ← set_run (sys_pend s) pe 0;
      let s := sys_with_pend s p in
      if negb (is_cmd_working_done (sys_queue s) cmd_index)
      then Ret (w, s, step, PD_WAKEUP, SMC_OPS_SCHEDTO)
      else Ret (w, s, step, PD_DONE, ops)
  end.

(** Without CONFIG_TA_AFFINITY [match_ta_affinity] is false. *)
Definition proc_normal_exit (w : W) (s : smc_sys) (pe ops : Z) (step : timeout_step_t)
    (cmd_ret : smc_cmd_ret) (cmd_index : Z)
    : outcome (W * smc_sys * timeout_step_t * smc_status_t * Z) :=
  '(w, s, step, pd, ops) ← proc_ta_pending w s pe step (cr_ta cmd_ret) cmd_index ops;
  match pd with
  | PD_DONE => Ret (w, s, step, ST_DONE, ops)
  | PD_WAKEUP =>
      Ret (w, s, TimeoutStep (steps step) (step_size step) (step_cur step) true, ST_RETRY, ops)
  | PD_TIMEOUT => Ret (w, s, step, ST_RETRY, ops)
  end.

Definition handle_cmd_working_done (w : W) (s : smc_sys) (cmd : tc_ns_smc_cmd) (ops : Z)
    (inp : tc_ns_smc_cmd) (info : cmd_reuse_info)
    : outcome (W * smc_sys * tc_ns_smc_cmd * tc_ns_smc_cmd * cmd_reuse_info * Z
               * smc_status_t) :=
  let '(q, cmd, usage, r) :=
    copy_smc_out_entry (sys_queue s) (cmd_index info) (cmd_usage info) cmd in
  let s := sys_with_queue s q in
  let info := ReuseInfo (cmd_index info) (saved_index info) usage in
  if nonzero r
  then Ret (w, s, with_ret_val cmd TEEC_ERROR_GENERIC, inp, info, ops, ST_DONE)
  else
    '(w, s, cmd, inp, again) ← smp_smc_send_cmd_done w s cmd inp;
    if again : bool
    then Ret (w, s, cmd, inp, info, SMC_OPS_NORMAL, ST_RETRY)
    else Ret (w, s, cmd, inp, info, ops, ST_DONE).

Definition clean_smc_resrc (s : smc_sys) (info : cmd_reuse_info) (cmd : tc_ns_smc_cmd)
    (pe : Z) : outcome smc_sys :=
  let s := match cmd_usage info with
           | RESEND => if negb (ret_val cmd =? TEEC_PENDING)
                       then sys_with_queue s (release_smc_entry (sys_queue s) (cmd_index info))
                       else s
           | CLEAR => s
           end in
  p ← release_pending_entry (sys_pend s) pe;
  Ret (sys_with_pend s p).

(** ** The main loop *)

Record send_st := SendSt {
  st_w : W;
  st_s : smc_sys;
  st_info : cmd_reuse_info;
  st_ret : smc_cmd_ret;
  st_cmd : tc_ns_smc_cmd;
  st_in : tc_ns_smc_cmd;
  st_ops : Z;
  st_step : timeout_step_t
}.

(** The world, the driver, the caller's command block and the return value. *)
Definition send_result : Type := W * smc_sys * tc_ns_smc_cmd * Z.

Inductive iteration := Again (st : send_st) | Finish (r : send_result).

Definition finish_clean (w : W) (s : smc_sys) (info : cmd_reuse_info)
    (cmd inp : tc_ns_smc_cmd) (pe : Z) : outcome (option iteration) :=
  s ← clean_smc_resrc s info cmd pe;
  Ret (Some (Finish (w, s, inp, ret_val cmd))).

(** From the answer to the next [retry] or to the end. *)
Definition collect (w : W) (s : smc_sys) (info : cmd_reuse_info) (cmd_ret : smc_cmd_ret)
    (cmd inp : tc_ns_smc_cmd) (ops : Z) (step : timeout_step_t) (pe : Z)
    : outcome (option iteration) :=
  '(w, s, cmd, inp, info, ops, st) ← handle_cmd_working_done w s cmd ops inp info;
  match st with
  | ST_RETRY => Ret (Some (Again (SendSt w s info cmd_ret cmd inp ops step)))
  | ST_DONE => finish_clean w s info cmd inp pe
  end.

(** The rest of a pass once the command is in the queue; [None] when the SMC
    loop runs out of fuel. *)
Definition after_submit (fuel : nat) (pe : Z) (w : W) (s : smc_sys) (info : cmd_reuse_info)
    (cmd_ret : smc_cmd_ret) (cmd inp : tc_ns_smc_cmd) (ops : Z) (step : timeout_step_t)
    : outcome (option iteration) :=
  match smp_smc_send_process fuel w s cmd ops cmd_ret with
  | None => Ret None
  | Some (w, s, cmd, cmd_ret, r) =>
      if r =? - 1 then finish_clean w s info cmd inp pe
      else if is_cmd_working_done (sys_queue s) (cmd_index info)
      then collect w s info cmd_ret cmd inp ops step pe
      else if cr_exit cmd_ret =? SMC_EXIT_NORMAL then
        '(w, s, step, ex, ops) ← proc_normal_exit w s pe ops step cmd_ret (cmd_index info);
        match ex with
        | ST_RETRY => Ret (Some (Again (SendSt w s info cmd_ret cmd inp ops step)))
        | ST_DONE => collect w s info cmd_ret cmd inp ops step pe
        end
      else if cr_exit cmd_ret =? SMC_EXIT_ABORT then
        let '(s, ops) := process_abort_cmd s (cmd_index info) in
        Ret (Some (Again (SendSt w s info cmd_ret cmd inp ops step)))
      else finish_clean w s info (with_ret_val cmd TEEC_ERROR_GENERIC) inp pe
  end.

(** One pass from label [retry]. *)
Definition send_iter (fuel : nat) (pe : Z) (st : send_st) : outcome (option iteration) :=
  let step := set_timeout_step (st_step st) in
  '(s, info, r) ← smc_ops_normal (st_s st) (st_info st) (st_cmd st) (st_ops st);
  if nonzero r then
    p ← release_pending_entry (sys_pend s) pe;
    Ret (Some (Finish (st_w st, sys_with_pend s p, st_in st, TEEC_ERROR_GENERIC)))
  else after_submit fuel pe (st_w st) s info (st_ret st) (st_cmd st) (st_in st) (st_ops st) step.

Fixpoint send_loop (fuel : nat) (pe : Z) (st : send_st) : outcome (option send_result) :=
  match fuel with
  | O => Ret None
  | S n =>
      r ← send_iter fuel pe st;
      match r with
      | None => Ret None
      | Some (Finish r) => Ret (Some r)
      | Some (Again st) => send_loop n pe st
      end
  end.

Definition init_step : timeout_step_t :=
  TimeoutStep (replicate 5 0) TO_STEP_SIZE INVALID_STEP_SIZE false.

(** [kz] is the address of the new pending entry. *)
Definition smp_smc_send_func (fuel : nat) (kz : Z) (w : W) (s : smc_sys)
    (inp : tc_ns_smc_cmd) (reuse : bool) : outcome (option send_result) :=
  let '(s, inp, cmd, pe, r) := init_for_smc_send kz s inp zero_smc_cmd reuse in
  if nonzero r then Ret (Some (w, s, inp, TEEC_ERROR_GENERIC))
  else
    let info := if reuse then ReuseInfo (event_nr inp) (event_nr inp) RESEND
                else ReuseInfo 0 0 CLEAR in
    send_loop fuel pe (SendSt w s info (CmdRet 0 0 0) cmd inp SMC_OPS_NORMAL init_step).

(** The command monitor records the start and the end of the call
    ([cmd_monitor_log] and [cmd_monitor_logend] of [CmdMonitor]). *)
Definition proc_tc_ns_smc (fuel : nat) (kz : Z) (w : W) (s : smc_sys) (cmd : tc_ns_smc_cmd)
    (reuse : bool) : outcome (option send_result) :=
  if g_sys_crash s then Ret (Some (w, s, cmd, TEEC_ERROR_GENERIC))
  else smp_smc_send_func fuel kz w s cmd reuse.

(** ** Shadow threads *)

(** [n_idled] and the parameters of the next SMC. *)
Definition set_shadow_smc_param (p : smc_in_params) (out : smc_out_params) (n_idled : Z)
    : smc_in_params * Z :=
  if exit_reason out =? SMC_EXIT_PREEMPTED
  then (SmcIn TSP_REQUEST SMC_OPS_SCHEDTO w_pid (o_ta out) (o_target out), n_idled)
  else if exit_reason out =? SMC_EXIT_NORMAL then
    if IDLED_COUNT <? n_idled
    then (SmcIn TSP_REQUEST SMC_OPS_PROBE_ALIVE w_pid 0 0, 0)
    else (SmcIn TSP_REQUEST SMC_OPS_SCHEDTO w_pid 0 0, n_idled)
  else (p, n_idled).

Definition shadow_wo_pm (w : W) (s : smc_sys) (arg : Z) (out : smc_out_params) (n_idled : Z)
    : W * smc_sys * smc_out_params * Z :=
  let '(p, n_idled) :=
    set_shadow_smc_param (SmcIn TSP_REQUEST SMC_OPS_START_SHADOW w_pid 0 arg) out n_idled in
  let '(w, s, out) := w_smc w p s in (w, s, out, n_idled).

(** [true]: keep going.  The wait lasts 10 to 25 seconds, by pid. *)
Definition proc_shadow_thread_normal_exit (w : W) (s : smc_sys) (pe n_idled : Z)
    : outcome (W * smc_sys * bool * Z) :=
  let timeout := HZ * (10 + Z.land (u8 w_pid) 0xF) in
  let '(w, s, woke) := w_wait w (Some timeout) s in
  let n_idled := if woke : bool then n_idled else s32 (n_idled + 1) in
  e ← at_index (pe_heap (sys_pend s)) pe;
  if pe_run e =? SHADOW_EXIT_RUN then Ret (w, s, false, n_idled)
  else p ← set_run (sys_pend s) pe 0; Ret (w, sys_with_pend s p, true, n_idled).

Definition check_shadow_crash (s : smc_sys) (crash_reason : Z) : option smc_sys :=
  if crash_reason =? TSP_CRASH then Some (sys_crashed s) else None.

(** [ret] keeps the code of the last normal exit, 1 for [RETRY_WITH_PM] and 2
    for [CLEAN_WITHOUT_PM]. *)
Fixpoint shadow_loop (fuel : nat) (w : W) (s : smc_sys) (arg pe : Z)
    (params : smc_out_params) (n_idled ret : Z) : outcome (option (W * smc_sys * Z)) :=
  match fuel with
  | O => Ret None
  | S fuel =>
      let '(w, s, params, n_idled) := shadow_wo_pm w s arg params n_idled in
      match check_shadow_crash s (o_ret params) with
      | Some s =>
          p ← release_pending_entry (sys_pend s) pe; Ret (Some (w, sys_with_pend s p, - 1))
      | None =>
          if exit_reason params =? SMC_EXIT_PREEMPTED
          then shadow_loop fuel w s arg pe params 0 ret
          else if exit_reason params =? SMC_EXIT_NORMAL then
            '(w, s, again, n_idled) ← proc_shadow_thread_normal_exit w s pe n_idled;
            if again : bool then shadow_loop fuel w s arg pe params n_idled 1
            else p ← release_pending_entry (sys_pend s) pe;
                 Ret (Some (w, sys_with_pend s p, 2))
          else p ← release_pending_entry (sys_pend s) pe;
               Ret (Some (w, sys_with_pend s p, ret))
      end
  end.

(** [kz] is the address of the thread's pending entry. *)
Definition shadow_thread_fn (fuel : nat) (kz : Z) (w : W) (s : smc_sys) (arg : Z)
    : outcome (option (W * smc_sys * Z)) :=
  let '(p, pe) := init_pending_entry kz w_pid (sys_pend s) in
  let s := sys_with_pend s p in
  if pe =? 0 then Ret (Some (w, s, - ENOMEM))
  else shadow_loop fuel w s arg pe (SmcOut 0 SMC_EXIT_MAX 0 0) 0 0.

Definition fiq_shadow_work_func (fuel : nat) (w : W) (s : smc_sys) (target : Z)
    : option (W * smc_sys) :=
  match smp_smc_send fuel w s TSP_REQUEST SMC_OPS_START_FIQSHD (u32 w_pid)
          (CmdRet SMC_EXIT_MAX 0 target) false with
  | Some (w, s, _, _) => Some (w, s)
  | None => None
  end.

End Send.
