(* ===== verification/SmcSendClaims.v ===== *)
(** * A command's way through the TEE and back

    When the TEE answers each SMC, possibly asking for an agent's work a number
    of times first, the call terminates with the TEE's last answer and gives
    its slot back. *)

From stdpp Require Import base gmap list.
From Stdlib Require Import ZArith Lia.
From S2P Require Import Prelude KernelApi TeeTypes Buffers Mailbox SessReg SessLookup.
From S2P Require Import CallTypes Auth SmcQueue SmcSteps SmcPending SmcPendingThm SmcSend.
From S2P Require Import SessOk AuthOk.

(** ** Timeout steps *)

Definition total (l : list Z) : Z := foldr Z.add 0 l.

(** The timeout steps of a waiting caller always fit in the five-element
    array, start at the first one, and add up to the 15 s limit, or to two
    ticks more than the TEE's own timeout when that is longer. *)
Theorem timeout_steps_sound {KT : KernelTime} {KTL : KernelTimeLaws KT} timeout st :
  length (steps st) = 5%nat → 0 ≤ timeout < 2 ^ 32 →
  let st' := init_timeout_step timeout st in
  let j := msecs_to_jiffies (Z.min timeout 15000) in
  length (steps st') = 5%nat ∧ step_cur st' = 0 ∧ 1 ≤ step_size st' ≤ TO_STEP_SIZE ∧
  Forall (λ x, 0 < x) (take (Z.to_nat (step_size st')) (steps st')) ∧
  total (take (Z.to_nat (step_size st')) (steps st'))
    = if timeout =? 0 then 15 * HZ else Z.max (15 * HZ) (j + 2).
Proof.
  intros Hl Ht. pose proof HZ_range as Hhz.
  destruct (steps st) as [|a [|b [|c [|d [|e [|]]]]]] eqn:Es; try discriminate Hl.
  unfold init_timeout_step. rewrite Es. destruct (Z.eqb_spec timeout 0) as [E0|E0].
  { unfold RESLEEP_TIMEOUT, TO_STEP_SIZE. simpl.
    split; [done|]. split; [done|]. split; [lia|]. split; [|lia].
    apply Forall_cons. split; [lia|]. apply Forall_nil. exact I. }
  assert ((if RESLEEP_TIMEOUT * MSEC_PER_SEC <? timeout
           then RESLEEP_TIMEOUT * MSEC_PER_SEC else timeout) = Z.min timeout 15000) as ->.
  { unfold RESLEEP_TIMEOUT, MSEC_PER_SEC. destruct (Z.ltb_spec (15 * 1000) timeout); lia. }
  pose proof (msecs_to_jiffies_range (Z.min timeout 15000) ltac:(lia)) as Hj.
  cbv zeta. generalize dependent (msecs_to_jiffies (Z.min timeout 15000)). intros j Hj.
  unfold RESLEEP_TIMEOUT, push_step, TO_STEP_SIZE.
  destruct (Z.ltb_spec 1 j), (Z.ltb_spec (j + 2) (15 * HZ)); simpl;
    (split; [done|]; split; [done|]; split; [lia|]; split;
       [repeat (apply Forall_cons; split; [lia|]); apply Forall_nil; exact I|lia]).
Qed.

(** ** A pending entry does not outlive the call *)

Section Send.
Context {W : Type} {SW : SmcWorld W} {KT : KernelTime} {F : PhysMap}.

Lemma release_unlisted s pe s' :
  release_pending_entry s pe = Ret s' → pe ∉ g_pending_head s'.
Proof.
  unfold release_pending_entry. rewrite bind_Ret. intros (e & _ & H).
  apply bind_Ret in H as (l & Hl & H).
  assert (pe ∉ l) as Hn.
  { unfold unlink in Hl. case_decide; [|done]. injection Hl as <-.
    rewrite list_elem_of_filter. tauto. }
  unfold put_pending_entry in H. destruct (pe =? 0); [by injection H as <-|].
  apply bind_Ret in H as (e' & _ & H). destruct (_ =? 0); by injection H as <-.
Qed.

Lemma finish_clean_unlisted (w : W) s info cmd inp pe st w' s' i' r :
  finish_clean w s info cmd inp pe = Ret (Some st) → st = Finish (w', s', i', r) →
  pe ∉ g_pending_head (sys_pend s').
Proof.
  unfold finish_clean, clean_smc_resrc. rewrite bind_Ret. intros (s1 & H & [= <-]) [= <- <- <- <-].
  apply bind_Ret in H as (p & Hp & [= <-]). simpl. by eapply release_unlisted.
Qed.

Lemma collect_unlisted (w : W) s info cr cmd inp ops step pe w' s' i' r :
  collect w s info cr cmd inp ops step pe = Ret (Some (Finish (w', s', i', r))) →
  pe ∉ g_pending_head (sys_pend s').
Proof.
  unfold collect. rewrite bind_Ret. intros ([[[[[[w1 s1] c1] i1] in1] o1] st] & _ & H).
  destruct st; [|done]. by eapply finish_clean_unlisted.
Qed.

Lemma send_iter_unlisted fuel pe (st : send_st) (w' : W) s' i' r :
  send_iter fuel pe st = Ret (Some (Finish (w', s', i', r))) →
  pe ∉ g_pending_head (sys_pend s').
Proof.
  unfold send_iter. rewrite bind_Ret. intros ([[s1 info] r1] & _ & H).
  destruct (nonzero r1).
  { apply bind_Ret in H as (p & Hp & [= <- <- <- <-]). simpl. by eapply release_unlisted. }
  unfold after_submit in H.
  destruct (smp_smc_send_process _ _ _ _ _ _) as [[[[[w2 s2] cmd] cr] r2]|]; [|done].
  destruct (r2 =? -1); [by eapply finish_clean_unlisted|].
  destruct (is_cmd_working_done _ _); [by eapply collect_unlisted|].
  destruct (cr_exit cr =? SMC_EXIT_NORMAL).
  { apply bind_Ret in H as ([[[[w3 s3] step] ex] ops] & _ & H).
    destruct ex; [by eapply collect_unlisted|done]. }
  destruct (cr_exit cr =? SMC_EXIT_ABORT).
  { destruct (process_abort_cmd _ _). done. }
  by eapply finish_clean_unlisted.
Qed.

Lemma send_loop_unlisted fuel pe (st : send_st) (w' : W) s' i' r :
  send_loop fuel pe st = Ret (Some (w', s', i', r)) → pe ∉ g_pending_head (sys_pend s').
Proof.
  revert st. induction fuel as [|fuel IH]; intros st; cbn [send_loop]; [done|].
  rewrite bind_Ret. intros ([[st'|[[[w1 s1] i1] r1]]|] & Hi & H); [|..]; try done.
  - by eapply IH.
  - injection H as -> -> -> ->. by eapply send_iter_unlisted.
Qed.

(** However the TEE, the other callers and the signals behave, a call that
    returns has taken its pending entry off the list of waiting callers. *)
Theorem smc_send_releases_entry fuel kz (w : W) s inp reuse w' s' inp' r :
  16 < kz →
  smp_smc_send_func fuel kz w s inp reuse = Ret (Some (w', s', inp', r)) →
  kz ∉ g_pending_head (sys_pend s').
Proof.
  intros Hkz. unfold smp_smc_send_func, init_for_smc_send, init_pending_entry, zero_or_null_ptr.
  rewrite (proj2 (Z.leb_gt kz 16)) by lia. rewrite (proj2 (Z.eqb_neq kz 0)) by lia.
  change (nonzero 0) with false. cbv iota zeta. apply send_loop_unlisted.
Qed.

End Send.

Section Answer.
Context {W : Type} {SW : SmcWorld W} {KT : KernelTime} {F : PhysMap}.

(** ** Auxiliary facts *)

Lemma verify_chksum_ok R cmd :
  counted R →
  (cmd_type cmd = CMD_TYPE_TA → ∃ x, tc_find_session_by_uuid R (dev_file_id cmd) cmd = Ret x) →
  verify_chksum R cmd = Ret (R, EOK).
Proof.
  intros HC Hf. unfold verify_chksum. destruct (Z.eqb_spec (cmd_type cmd) CMD_TYPE_TA) as [E|E];
    [|done].
  destruct (Hf E) as [[R' p] Hx]. rewrite Hx, ret_bind.
  destruct (tc_find_session_balanced _ _ _ _ _ HC Hx) as [[-> ->]|(_ & s & _ & _ & _ & Hp)];
    [done|]. by rewrite Hp, ret_bind.
Qed.

(** A resent command of an agent carries no token. *)
Lemma prepare_entry_plain (s : smc_state) i :
  cmd_type (in_cmd (g_cmd_data s) i) ≠ CMD_TYPE_TA →
  prepare_entry s i =
    Ret (with_queue s (set_bits (set_in_cmd (g_cmd_data s) i (in_cmd (g_cmd_data s) i)) i
                         None (Some false) None), true).
Proof.
  intros Hty. unfold prepare_entry, update_timestamp, update_chksum.
  rewrite (proj2 (Z.eqb_neq _ _) Hty), !ret_bind. change (nonzero EOK) with false. cbv iota.
  done.
Qed.

(** What [collect] does with an answer that is there. *)
Lemma collect_answer (w : W) s info cr cmd inp step pe i a :
  cmd_index info = i → out_set (sys_queue s) i = true → out_cmd (sys_queue s) i = a →
  counted (smc_reg (sys_smc s)) →
  (cmd_type a = CMD_TYPE_TA → ∃ x,
     tc_find_session_by_uuid (smc_reg (sys_smc s)) (dev_file_id a) a = Ret x) →
  let q := sys_queue s in
  let q' := if pending a then set_bits q i None None (Some false)
            else set_bits q i (Some false) (Some false) (Some false) in
  let usage := if pending a then RESEND else CLEAR in
  collect w s info cr cmd inp SMC_OPS_NORMAL step pe =
    if ret_val a =? TEEC_PENDING2
    then Ret (Some (Again (SendSt (w_agent w a (agent_id a)).1 (sys_with_queue s q')
                (ReuseInfo i (saved_index info) usage) cr a inp SMC_OPS_NORMAL step)))
    else finish_clean w (sys_with_queue s q') (ReuseInfo i (saved_index info) usage) a a pe.
Proof.
  intros Hi Ho Ha HC Hf q q' usage.
  unfold collect, handle_cmd_working_done, copy_smc_out_entry. rewrite Hi. fold q.
  unfold q in Ho, Ha. fold q in Ho, Ha. rewrite Ho, Ha. cbn [negb]. fold (pending a).
  assert ((if pending a then (set_bits q i None None (Some false), a, RESEND, 0)
           else (set_bits q i (Some false) (Some false) (Some false), a, CLEAR, 0))
          = (q', a, usage, 0)) as -> by (unfold q', usage; by destruct (pending a)).
  change (nonzero 0) with false. cbv iota.
  unfold smp_smc_send_cmd_done, cmd_result_check.
  destruct (Z.eqb_spec (ret_val a) TEEC_SUCCESS) as [Es|Es].
  - change (smc_reg (sys_smc (sys_with_queue s q'))) with (smc_reg (sys_smc s)).
    rewrite verify_chksum_ok, !ret_bind by done. change (nonzero EOK) with false.
    cbv iota. rewrite Es. change (TEEC_SUCCESS =? TEEC_PENDING2) with false. cbv iota.
    rewrite !ret_bind. done.
  - rewrite !ret_bind. destruct (ret_val a =? TEEC_PENDING2); [|done].
    destruct (w_agent w a (agent_id a)). done.
Qed.

(** ** A TEE that answers *)

(** The TEE has answered [a] in slot [i] and left the memory as [m]. *)
Definition answered (s : smc_sys) (i : Z) (a : tc_ns_smc_cmd) (m : mem) : smc_sys :=
  sys_with_smc s (SmcState (tee_answer (set_bits (sys_queue s) i None (Some true) None) i a)
                    (smc_reg (sys_smc s)) m).

(** In a state with [Q], the next SMC picks up slot [i] and answers [a]. *)
Definition answers_in (Q : smc_sys → Prop) (w : W) (i : Z) (a : tc_ns_smc_cmd) (m : mem)
    (w' : W) : Prop :=
  ∀ p s, Q s → in_set (sys_queue s) i = true → doing_set (sys_queue s) i = false →
  ∃ out, w_smc w p s = (w', answered s i a m, out) ∧
    exit_reason out ≠ SMC_EXIT_PREEMPTED ∧ u32 (o_ret out) ≠ TSP_CRASH.

(** Whatever the queue and the memory hold, which stays as it is. *)
Definition answers_now (w : W) (i : Z) (a : tc_ns_smc_cmd) (w' : W) : Prop :=
  ∀ m, answers_in (λ s, smc_mem (sys_smc s) = m) w i a m w'.

(** Command [c] is in slot [i] and the memory is [m]; the TEE makes the agent
    requests [l], each of which is resent as the next command, and then gives
    the final answer [a] and leaves the memory [mf]. *)
Inductive script_in (Q : tc_ns_smc_cmd → mem → smc_sys → Prop) (i : Z)
    : W → tc_ns_smc_cmd → mem → list tc_ns_smc_cmd → tc_ns_smc_cmd → W → mem → Prop :=
| script_last w c m a w' mf :
    answers_in (Q c m) w i a mf w' → ret_val a ≠ TEEC_PENDING2 → script_in Q i w c m [] a w' mf
| script_more w c m b w' m' l a wf mf :
    answers_in (Q c m) w i b m' w' → ret_val b = TEEC_PENDING2 → cmd_type b ≠ CMD_TYPE_TA →
    script_in Q i (w_agent w' b (agent_id b)).1 b m' l a wf mf →
    script_in Q i w c m (b :: l) a wf mf.

(** A script that does not depend on the commands. *)
Definition mem_is (_ : tc_ns_smc_cmd) (m : mem) (s : smc_sys) : Prop := smc_mem (sys_smc s) = m.

Definition script (w : W) (i : Z) (l : list tc_ns_smc_cmd) (a : tc_ns_smc_cmd) : Prop :=
  ∀ m, ∃ wf, script_in mem_is i w zero_smc_cmd m l a wf m.

Lemma send_process_answered Q n w s cmd cr i a m w' :
  answers_in Q w i a m w' → Q s → in_set (sys_queue s) i = true →
  doing_set (sys_queue s) i = false →
  ∃ cr', smp_smc_send_process (S n) w s cmd SMC_OPS_NORMAL cr =
    Some (w', answered s i a m, cmd, cr', 0).
Proof.
  intros Hans HQ Hin Hd. unfold smp_smc_send_process, smp_smc_send. cbn [smp_smc_send_loop].
  match goal with |- context [w_smc w ?p s] => destruct (Hans p s HQ Hin Hd) as (out & E & He & Hc) end.
  rewrite E. rewrite (proj2 (Z.eqb_neq _ _) He), (proj2 (Z.eqb_neq _ _) Hc). eauto.
Qed.

(** The slot's bits and the rest of the driver when the call is over. *)
Definition settled (s s' : smc_sys) (i : Z) (a : tc_ns_smc_cmd) (m : mem) (p' : pend_state)
    : Prop :=
  queue_wf (sys_queue s') ∧
  in_set (sys_queue s') i = pending a ∧ doing_set (sys_queue s') i = pending a ∧
  out_set (sys_queue s') i = false ∧ out_cmd (sys_queue s') i = a ∧
  (∀ j, valid_slot j → j ≠ i → view (sys_queue s') j = view (sys_queue s) j) ∧
  smc_reg (sys_smc s') = smc_reg (sys_smc s) ∧ smc_mem (sys_smc s') = m ∧
  sys_pend s' = p' ∧ g_sys_crash s' = g_sys_crash s.

(** The part of an iteration after the slot has been published. *)
Lemma published_last Q w s info cr cmd inp pe i a m w' step p' n :
  queue_wf (sys_queue s) → valid_slot i → cmd_index info = i →
  view (sys_queue s) i = (true, false, false, in_cmd (sys_queue s) i, out_cmd (sys_queue s) i) →
  answers_in Q w i a m w' → Q s → ret_val a ≠ TEEC_PENDING2 →
  counted (smc_reg (sys_smc s)) →
  (cmd_type a = CMD_TYPE_TA → ∃ x,
     tc_find_session_by_uuid (smc_reg (sys_smc s)) (dev_file_id a) a = Ret x) →
  release_pending_entry (sys_pend s) pe = Ret p' →
  ∃ s1 cr1 s', smp_smc_send_process (S n) w s cmd SMC_OPS_NORMAL cr
      = Some (w', s1, cmd, cr1, 0) ∧ is_cmd_working_done (sys_queue s1) i = true ∧
    collect w' s1 info cr1 cmd inp SMC_OPS_NORMAL step pe
      = Ret (Some (Finish (w', s', a, ret_val a))) ∧
    settled s s' i a m p'.
Proof.
  intros Hwf Hi Hidx Hv Hans HQ Hr HC Hf Hrel.
  apply view_parts in Hv as (V1 & V2 & V3 & _ & _).
  destruct (send_process_answered Q n w s cmd cr i a m w' Hans HQ V1 V2) as (cr1 & Hp).
  set (q1 := tee_answer (set_bits (sys_queue s) i None (Some true) None) i a) in *.
  set (s1 := answered s i a m) in *.
  assert (0 ≤ i) as Hi0 by (unfold valid_slot in Hi; lia).
  assert (view q1 i = (true, true, true, in_cmd (sys_queue s) i, a)) as Hv1.
  { unfold q1. rewrite tee_answer_view by done.
    pose proof (set_bits_view (sys_queue s) i None (Some true) None Hi0) as Hb.
    apply view_parts in Hb as (B1 & B2 & B3 & B4 & B5). rewrite B1, B2, B4.
    unfold choose; simpl. by rewrite V1. }
  assert (∀ j, valid_slot j → j ≠ i → view q1 j = view (sys_queue s) j) as Hoth.
  { intros j Hj Hne. unfold q1. rewrite tee_answer_view_other by (done || congruence).
    apply set_bits_view_other; done || congruence. }
  apply view_parts in Hv1 as (Q1 & Q2 & Q3 & Q4 & Q5).
  set (q' := if pending a then set_bits q1 i None None (Some false)
             else set_bits q1 i (Some false) (Some false) (Some false)).
  assert (queue_wf q1) as Hwf1.
  { destruct Hwf as [H1 H2]. split; [exact H1|]. simpl. by rewrite length_insert. }
  exists s1, cr1, (sys_with_pend (sys_with_queue s1 q') p').
  split; [done|]. split; [exact Q3|]. split.
  - rewrite (collect_answer w' s1 info cr1 cmd inp step pe i a) by done.
    rewrite (proj2 (Z.eqb_neq _ _) Hr).
    change (sys_queue s1) with q1. fold q'.
    unfold finish_clean, clean_smc_resrc. cbn [cmd_usage cmd_index].
    assert (pending a = true → ret_val a = TEEC_PENDING) as Hpd.
    { unfold pending. rewrite orb_true_iff, !Z.eqb_eq. tauto. }
    destruct (pending a) eqn:Epd.
    + rewrite (Hpd eq_refl), Z.eqb_refl. cbn [negb].
      change (sys_pend (sys_with_queue s1 q')) with (sys_pend s). rewrite Hrel, !ret_bind. done.
    + change (sys_pend (sys_with_queue s1 q')) with (sys_pend s). rewrite Hrel, !ret_bind. done.
  - assert (view q' i = (pending a, pending a, false, in_cmd q1 i, out_cmd q1 i)) as Hv'.
    { unfold q'. destruct (pending a); rewrite set_bits_view by done; unfold choose; simpl;
        by rewrite ?Q1, ?Q2. }
    apply view_parts in Hv' as (P1 & P2 & P3 & _ & P5). rewrite Q5 in P5. unfold settled. split_and!; try done.
    { unfold q'. by destruct (pending a). }
    intros j Hj Hne. change (view q' j = view (sys_queue s) j). rewrite <- Hoth by done.
    unfold q'. destruct (pending a); apply set_bits_view_other; done || congruence.
Qed.

(** A pass and the passes that follow it. *)
Definition continue (fuel : nat) (pe : Z) (r : option iteration) : outcome (option send_result) :=
  match r with
  | None => Ret None
  | Some (Finish r) => Ret (Some r)
  | Some (Again st) => send_loop fuel pe st
  end.

Lemma settled_trans s s1 s' i a m p' :
  (∀ j, valid_slot j → j ≠ i → view (sys_queue s1) j = view (sys_queue s) j) →
  smc_reg (sys_smc s1) = smc_reg (sys_smc s) →
  g_sys_crash s1 = g_sys_crash s → settled s1 s' i a m p' → settled s s' i a m p'.
Proof.
  intros Hv Hr Hc (H0 & H1 & H2 & H3 & Ha & H4 & H5 & H6 & H7 & H8). unfold settled.
  split_and!; try done; try congruence. intros j Hj Hne. by rewrite H4, Hv.
Qed.

(** The queue after the TEE has answered [b] in a published slot and the
    caller has taken the answer back to send the command again. *)
Lemma taken_back q i b :
  queue_wf q → valid_slot i → in_set q i = true →
  let q1 := tee_answer (set_bits q i None (Some true) None) i b in
  let q2 := set_bits q1 i None None (Some false) in
  view q1 i = (true, true, true, in_cmd q i, b) ∧
  view q2 i = (true, true, false, in_cmd q i, b) ∧ queue_wf q2 ∧
  ∀ j, valid_slot j → j ≠ i → view q2 j = view q j.
Proof.
  intros Hwf Hi V1 q1 q2.
  assert (0 ≤ i) as Hi0 by (unfold valid_slot in Hi; lia).
  assert (view q1 i = (true, true, true, in_cmd q i, b)) as Hv1.
  { unfold q1. rewrite tee_answer_view by done.
    pose proof (set_bits_view q i None (Some true) None Hi0) as Hb.
    apply view_parts in Hb as (B1 & B2 & B3 & B4 & B5). rewrite B1, B2, B4.
    unfold choose; simpl. by rewrite V1. }
  split_and!; [done|..].
  - unfold q2. rewrite set_bits_view by done.
    apply view_parts in Hv1 as (-> & -> & _ & -> & ->). done.
  - destruct Hwf as [H1 H2]. split; [exact H1|]. simpl. rewrite length_insert. exact H2.
  - intros j Hj Hne. unfold q2, q1. rewrite set_bits_view_other by (done || congruence).
    rewrite tee_answer_view_other by (done || congruence).
    apply set_bits_view_other; done || congruence.
Qed.

(** The slot between an agent's request and the resend. *)
Lemma resend_published s i b :
  queue_wf (sys_queue s) → valid_slot i → cmd_type b ≠ CMD_TYPE_TA →
  in_set (sys_queue s) i = true → doing_set (sys_queue s) i = true →
  out_set (sys_queue s) i = false → out_cmd (sys_queue s) i = b →
  ∃ s', (∀ cmd saved, smc_ops_normal s (ReuseInfo i saved RESEND) cmd SMC_OPS_NORMAL
           = Ret (s', ReuseInfo saved saved CLEAR, 0)) ∧
    in_cmd (sys_queue s') i = b ∧ queue_wf (sys_queue s') ∧
    view (sys_queue s') i
      = (true, false, false, in_cmd (sys_queue s') i, out_cmd (sys_queue s') i) ∧
    (∀ j, valid_slot j → j ≠ i → view (sys_queue s') j = view (sys_queue s) j) ∧
    smc_reg (sys_smc s') = smc_reg (sys_smc s) ∧ smc_mem (sys_smc s') = smc_mem (sys_smc s) ∧
    sys_pend s' = sys_pend s ∧ g_sys_crash s' = g_sys_crash s.
Proof.
  intros Hwf Hi Hty Hin Hd Ho Hb. set (q := sys_queue s) in *.
  assert (0 ≤ i) as Hi0 by (unfold valid_slot in Hi; lia).
  pose proof (set_in_cmd_view q i b Hwf Hi) as V. apply view_parts in V as (A1 & A2 & A3 & A4 & A5).
  set (q1 := set_in_cmd q i b) in *.
  assert (queue_wf q1) as Hwf1 by (by apply set_in_cmd_wf).
  pose proof (set_in_cmd_view q1 i b Hwf1 Hi) as V. apply view_parts in V as (B1 & B2 & B3 & B4 & B5).
  set (q2 := set_in_cmd q1 i b) in *.
  set (q3 := set_bits q2 i None (Some false) None).
  exists (sys_with_queue s q3). split_and!; try done.
  - intros cmd saved. unfold smc_ops_normal. rewrite Z.eqb_refl. cbn [negb cmd_usage cmd_index].
    unfold reuse_smc_in_entry. change (g_cmd_data (sys_smc s)) with q. rewrite Hin, Hd.
    cbn [andb negb]. rewrite Hb. fold q1.
    rewrite prepare_entry_plain; [|by change (cmd_type (in_cmd q1 i) ≠ CMD_TYPE_TA); rewrite A4].
    rewrite !ret_bind. change (nonzero 0) with false. cbv iota.
    change (g_cmd_data (with_queue (sys_smc s) q1)) with q1. rewrite A4. fold q2 q3. done.
  - by do 2 apply set_in_cmd_wf.
  - pose proof (set_bits_view q2 i None (Some false) None Hi0) as V. fold q3 in V.
    change (sys_queue (sys_with_queue s q3)) with q3.
    pose proof V as V'. apply view_parts in V' as (C1 & C2 & C3 & C4 & C5).
    rewrite V, C4, C5. unfold choose; simpl. rewrite B1, B3, A1, A3, Hin, Ho. done.
  - intros j Hj Hne. change (view q3 j = view q j). unfold q3, q2, q1.
    rewrite set_bits_view_other, !set_in_cmd_view_other by (done || congruence). done.
Qed.

(** What [Q] may say of a state: which command is in slot [i], the memory, and
    something that the rest of the queue decides. *)
Definition slot_stable (Q : tc_ns_smc_cmd → mem → smc_sys → Prop) (i : Z) : Prop :=
  ∀ c m b s s', Q c m s → in_cmd (sys_queue s') i = b →
    (∀ j, valid_slot j → j ≠ i → view (sys_queue s') j = view (sys_queue s) j) →
    Q b (smc_mem (sys_smc s')) s'.

Lemma script_runs Q w i c m l a wf mf :
  script_in Q i w c m l a wf mf → slot_stable Q i → ∀ n s info cr cmd inp pe step p',
  Q c m s → (length l ≤ n)%nat → queue_wf (sys_queue s) → valid_slot i →
  cmd_index info = i → saved_index info = i →
  view (sys_queue s) i = (true, false, false, in_cmd (sys_queue s) i, out_cmd (sys_queue s) i) →
  counted (smc_reg (sys_smc s)) →
  (cmd_type a = CMD_TYPE_TA → ∃ x,
     tc_find_session_by_uuid (smc_reg (sys_smc s)) (dev_file_id a) a = Ret x) →
  release_pending_entry (sys_pend s) pe = Ret p' →
  ∃ s', after_submit (S n) pe w s info cr cmd inp SMC_OPS_NORMAL step ≫= continue n pe
      = Ret (Some (wf, s', a, ret_val a)) ∧ settled s s' i a mf p'.
Proof.
  intros Hs HQs.
  induction Hs as [w c m a w' mf Hans Hr|w c m b w' m' l a wf mf Hans Hr Hty Hs IH];
    intros n s info cr cmd inp pe step p' HQ Hn Hwf Hi Hidx Hsav Hv HC Hf Hrel.
  - destruct (published_last (Q c m) w s info cr cmd inp pe i a mf w' step p' n Hwf Hi Hidx Hv Hans
      HQ Hr HC Hf Hrel) as (s1 & cr1 & s' & Hp & Hdone & Hc & Hset).
    exists s'. split; [|done]. unfold after_submit. rewrite Hp, Hidx.
    change (0 =? -1) with false. cbv iota. rewrite Hdone, Hc, ret_bind. done.
  - destruct n as [|n]; [simpl in Hn; lia|].
    apply view_parts in Hv as (V1 & V2 & V3 & _ & _).
    destruct (send_process_answered (Q c m) (S n) w s cmd cr i b m' w' Hans HQ V1 V2) as (cr1 & Hp).
    set (q1 := tee_answer (set_bits (sys_queue s) i None (Some true) None) i b) in *.
    set (s1 := answered s i b m') in *.
    set (q2 := set_bits q1 i None None (Some false)).
    destruct (taken_back (sys_queue s) i b Hwf Hi V1) as (Hv1 & Hv2 & Hwf2 & Hoth2).
    fold q1 in Hv1, Hv2, Hwf2, Hoth2. fold q2 in Hv2, Hwf2, Hoth2.
    apply view_parts in Hv1 as (_ & _ & Q3 & _ & Q5).
    apply view_parts in Hv2 as (P1 & P2 & P3 & P4 & P5).
    assert (pending b = true) as Hpend by (unfold pending; rewrite Hr; done).
    destruct (resend_published (sys_with_queue s1 q2) i b Hwf2 Hi Hty P1 P2 P3 P5)
      as (s3 & Hnorm & Hb3 & Hwf3 & Hv3 & Hoth3 & Hreg3 & Hmem3 & Hpd3 & Hcr3).
    assert (∀ j, valid_slot j → j ≠ i → view (sys_queue s3) j = view (sys_queue s) j) as Hoth.
    { intros j Hj Hne. rewrite Hoth3 by done. apply Hoth2; done. }
    destruct (IH n s3 (ReuseInfo i i CLEAR) cr1 b inp pe (set_timeout_step step) p'
      ltac:(rewrite <- (eq_trans Hmem3 eq_refl : smc_mem (sys_smc s3) = m');
        exact (HQs _ _ _ _ _ HQ Hb3 Hoth)) ltac:(simpl in Hn; lia) Hwf3 Hi
      eq_refl eq_refl Hv3 ltac:(rewrite Hreg3; exact HC) ltac:(rewrite Hreg3; exact Hf)
      ltac:(rewrite Hpd3; exact Hrel)) as (s' & Hrun & Hset).
    exists s'. split; [|by eapply settled_trans].
    unfold after_submit at 1. rewrite Hp, Hidx. change (0 =? -1) with false. cbv iota.
    change (is_cmd_working_done (sys_queue s1) i) with (out_set q1 i). rewrite Q3.
    rewrite (collect_answer w' s1 info cr1 cmd inp step pe i b)
      by (done || (intros E; by destruct (Hty E))).
    rewrite Hr, Z.eqb_refl, Hpend, ret_bind. cbn [continue]. cbn [send_loop].
    unfold send_iter. cbn [st_step st_s st_info st_cmd st_ops st_w st_ret st_in].
    change (sys_queue s1) with q1. fold q2. rewrite Hsav, Hnorm, ret_bind.
    change (nonzero 0) with false. cbv iota. exact Hrun.
Qed.

(** ** Submission *)

(** A free slot has no stale [doing] or [out] bit. *)
Definition queue_clean (q : tc_ns_smc_queue) : Prop :=
  queue_wf q ∧ ∀ i, valid_slot i → in_set q i = false →
    doing_set q i = false ∧ out_set q i = false.

Lemma prepare_entry_queue s i s' ok :
  queue_wf (g_cmd_data s) → valid_slot i → prepare_entry s i = Ret (s', ok) →
  queue_wf (g_cmd_data s') ∧
  (∀ j, valid_slot j → j ≠ i → view (g_cmd_data s') j = view (g_cmd_data s) j) ∧
  in_set (g_cmd_data s') i = in_set (g_cmd_data s) i ∧
  doing_set (g_cmd_data s') i = (if ok then false else doing_set (g_cmd_data s) i) ∧
  out_set (g_cmd_data s') i = out_set (g_cmd_data s) i.
Proof.
  intros Hwf Hi. assert (0 ≤ i) as Hi0 by (unfold valid_slot in Hi; lia).
  unfold prepare_entry. rewrite bind_Ret. intros ([[R m] r] & _ & H).
  destruct (nonzero r); [by injection H as <- <-|].
  apply bind_Ret in H as ([[R' c] r'] & _ & H).
  pose proof (set_in_cmd_view (g_cmd_data s) i c Hwf Hi) as V.
  apply view_parts in V as (A1 & A2 & A3 & _ & _).
  destruct (nonzero r'); injection H as <- <-; cbn [g_cmd_data with_queue].
  - split; [by apply set_in_cmd_wf|]. split; [|done].
    intros j Hj Hne. apply set_in_cmd_view_other; done || congruence.
  - split; [by apply set_in_cmd_wf|]. split.
    + intros j Hj Hne. rewrite set_bits_view_other by (done || congruence).
      apply set_in_cmd_view_other; done || congruence.
    + pose proof (set_bits_view (set_in_cmd (g_cmd_data s) i c) i None (Some false) None Hi0) as V.
      apply view_parts in V as (B1 & B2 & B3 & _ & _). rewrite B1, B2, B3, A1, A3. done.
Qed.

(** The three bits of every slot. *)
Definition same_bits (q q' : tc_ns_smc_queue) : Prop :=
  ∀ j, valid_slot j →
    in_set q' j = in_set q j ∧ doing_set q' j = doing_set q j ∧ out_set q' j = out_set q j.

Lemma view_same_bits q q' j : view q' j = view q j →
  in_set q' j = in_set q j ∧ doing_set q' j = doing_set q j ∧ out_set q' j = out_set q j.
Proof. intros (-> & -> & -> & _)%view_parts. done. Qed.

Lemma occupy_retry_spec sleep n k s cmd s' idx :
  (∀ k x, queue_clean (g_cmd_data x) → queue_clean (g_cmd_data (sleep k x))) →
  queue_clean (g_cmd_data s) →
  occupy_retry n k sleep s cmd = Ret (s', idx) →
  (idx = - 1 ∧ ∃ s0, queue_clean (g_cmd_data s0) ∧ same_bits (g_cmd_data s0) (g_cmd_data s')) ∨
  (valid_slot idx ∧ queue_wf (g_cmd_data s') ∧
   view (g_cmd_data s') idx
     = (true, false, false, in_cmd (g_cmd_data s') idx, out_cmd (g_cmd_data s') idx) ∧
   ∃ s0, queue_clean (g_cmd_data s0) ∧ in_set (g_cmd_data s0) idx = false ∧
     (∀ j, 0 ≤ j < idx → in_set (g_cmd_data s0) j = true) ∧
     ∀ j, valid_slot j → j ≠ idx → view (g_cmd_data s') j = view (g_cmd_data s0) j).
Proof.
  intros Hsl. revert k s. induction n as [|n IH]; intros k s Hcl; cbn [occupy_retry];
    destruct (try_occupy (g_cmd_data s) cmd) as [[q i]|] eqn:Et.
  2:{ intros [= <- <-]. left. split; [done|]. exists s. split; [done|]. by intros j _. }
  3:{ intros H. apply (IH _ _ (Hsl _ _ Hcl) H). }
  all: rewrite bind_Ret; intros ([s2 ok] & Hp & H); destruct Hcl as [Hwf Hbits];
    destruct (try_occupy_spec _ _ _ _ Hwf Et) as (Hi & Hwf1 & Hin & Hlow & Hv & Hoth);
    apply view_parts in Hv as (V1 & V2 & V3 & _ & _);
    destruct (Hbits i Hi Hin) as [Hd Ho];
    destruct (prepare_entry_queue (with_queue s q) i s2 ok Hwf1 Hi Hp)
      as (Hwf2 & Hoth2 & P1 & P2 & P3); cbn [g_cmd_data with_queue] in *;
    assert (0 ≤ i) as Hi0 by (unfold valid_slot in Hi; lia);
    (destruct ok; injection H as <- <-; [right|left]).
  1,3: split; [done|]; split; [done|]; split;
    [unfold view; by rewrite P1, P2, P3, V1, V3, Ho|];
    exists s; split; [done|]; split; [done|]; split; [done|];
    intros j Hj Hne; rewrite Hoth2 by done; by apply Hoth.
  all: split; [done|]; exists s; split; [done|]; cbn [g_cmd_data with_queue];
    intros j Hj; destruct (decide (j = i)) as [->|Hne];
    [|apply view_same_bits; unfold occupy_clean_in_doing_entry;
      rewrite set_bits_view_other by (done || congruence); rewrite Hoth2 by done; by apply Hoth].
  all: pose proof (set_bits_view (g_cmd_data s2) i (Some false) (Some false) None Hi0) as V;
    apply view_parts in V as (B1 & B2 & B3 & _ & _); unfold occupy_clean_in_doing_entry;
    rewrite B1, B2, B3; unfold choose; simpl; rewrite P3, V3, Hin, Hd, Ho; done.
Qed.

Lemma occupy_retry_total sleep n k s cmd :
  (∀ k x, reg_ok (smc_reg x) → reg_ok (smc_reg (sleep k x))) → reg_ok (smc_reg s) →
  ∃ s' idx, occupy_retry n k sleep s cmd = Ret (s', idx).
Proof.
  intros Hsl. revert k s. induction n as [|n IH]; intros k s HR; cbn [occupy_retry];
    destruct (try_occupy (g_cmd_data s) cmd) as [[q i]|]; [|by eauto| |by apply IH, Hsl].
  all: unfold prepare_entry; cbn [smc_reg smc_mem with_queue];
    match goal with |- context [update_timestamp ?R ?m ?c] =>
      destruct (update_timestamp_total R m c HR) as (m' & r & ->) end;
    rewrite ret_bind; (destruct (nonzero r); [rewrite ret_bind; by eauto|]);
    cbn [smc_reg smc_mem with_queue];
    match goal with |- context [update_chksum ?R ?c] =>
      destruct (update_chksum_total R c HR) as (c' & r' & ->) end;
    rewrite ret_bind; destruct (nonzero r'); rewrite ret_bind; by eauto.
Qed.

(** Submitting a command always comes to an end: it either publishes the
    command in the lowest free slot, leaving every other slot alone, or fails
    without occupying a slot: the bits are those of a queue that was seen full,
    or of the queue before a refused timestamp, token or checksum update. *)
Theorem smc_occupy_no_leak sleep s cmd :
  (∀ k x, queue_clean (g_cmd_data x) → queue_clean (g_cmd_data (sleep k x))) →
  (∀ k x, reg_ok (smc_reg x) → reg_ok (smc_reg (sleep k x))) →
  queue_clean (g_cmd_data s) → reg_ok (smc_reg s) →
  ∃ s' idx, occupy_free_smc_in_entry sleep s cmd = Ret (s', idx) ∧
  ((idx = - 1 ∧
    ∃ s0, queue_clean (g_cmd_data s0) ∧ same_bits (g_cmd_data s0) (g_cmd_data s')) ∨
   (valid_slot idx ∧ in_set (g_cmd_data s') idx = true ∧
    doing_set (g_cmd_data s') idx = false ∧ out_set (g_cmd_data s') idx = false ∧
    ∃ s0, queue_clean (g_cmd_data s0) ∧ in_set (g_cmd_data s0) idx = false ∧
      (∀ j, 0 ≤ j < idx → in_set (g_cmd_data s0) j = true) ∧
      ∀ j, valid_slot j → j ≠ idx → view (g_cmd_data s') j = view (g_cmd_data s0) j)).
Proof.
  intros Hsl Hsr Hcl HR.
  destruct (occupy_retry_total sleep (Z.to_nat (FIND_SMC_ENTRY_RETRY_MAX_COUNT + 1)) 0 s cmd
    Hsr HR) as (s' & idx & H).
  exists s', idx. split; [exact H|].
  destruct (occupy_retry_spec _ _ _ _ _ _ _ Hsl Hcl H) as [Hl|(Hi & _ & Hv & Hr)]; [by left|].
  right. apply view_parts in Hv as (V1 & V2 & V3 & _). done.
Qed.

(** The first pass of a call that has found a slot. *)
Lemma send_func_first kz w s inp s1 i n :
  16 < kz →
  occupy_free_smc_in_entry w_sleep (sys_smc s) (with_ca_pid inp w_pid) = Ret (s1, i) →
  i ≠ - 1 →
  let p := (init_pending_entry kz w_pid (sys_pend s)).1 in
  smp_smc_send_func (S n) kz w s inp false =
    after_submit (S n) kz w (SmcSys s1 p (g_sys_crash s)) (ReuseInfo i i CLEAR) (CmdRet 0 0 0)
      (with_ca_pid inp w_pid) (with_ca_pid inp w_pid) SMC_OPS_NORMAL init_step
      ≫= continue n kz.
Proof.
  intros Hkz Hocc Hne. destruct (init_pending_entry kz w_pid (sys_pend s)) as [p pe] eqn:Ep.
  cbn [fst].
  assert (pe = kz) as ->.
  { unfold init_pending_entry, zero_or_null_ptr in Ep.
    rewrite (proj2 (Z.leb_gt kz 16)) in Ep by lia. by injection Ep. }
  unfold smp_smc_send_func, init_for_smc_send. rewrite Ep.
  rewrite (proj2 (Z.eqb_neq kz 0)) by lia. change (nonzero 0) with false. cbv iota.
  cbn [send_loop]. unfold send_iter. cbn [st_step st_s st_info st_cmd st_ops st_w st_ret st_in].
  unfold smc_ops_normal. rewrite Z.eqb_refl. cbn [negb cmd_usage].
  change (sys_smc (sys_with_pend s p)) with (sys_smc s). rewrite Hocc, !ret_bind.
  rewrite (proj2 (Z.eqb_neq i (-1))) by done.
  rewrite ret_bind. change (nonzero 0) with false. cbv iota. done.
Qed.


(** ** Crashes and unknown exits *)

(** When the TEE reports its crash, the call in progress fails with -1 and
    every later command is refused at once, without touching the queue, the
    pending list or the TEE. *)
Theorem smc_crash_latched kz w s inp s1 i n p' w1 :
  16 < kz →
  occupy_free_smc_in_entry w_sleep (sys_smc s) (with_ca_pid inp w_pid) = Ret (s1, i) →
  i ≠ - 1 →
  let p := (init_pending_entry kz w_pid (sys_pend s)).1 in
  release_pending_entry p kz = Ret p' →
  (∀ x y, ∃ out, w_smc w x y = (w1, y, out) ∧ exit_reason out ≠ SMC_EXIT_PREEMPTED ∧
     u32 (o_ret out) = TSP_CRASH) →
  ∃ s', smp_smc_send_func (S n) kz w s inp false
      = Ret (Some (w1, s', with_ca_pid inp w_pid, MINUS_ONE)) ∧
    ∀ fuel kz' w' cmd reuse,
      proc_tc_ns_smc fuel kz' w' s' cmd reuse = Ret (Some (w', s', cmd, TEEC_ERROR_GENERIC)).
Proof.
  intros Hkz Hocc Hne p Hrel Hcrash.
  exists (sys_with_pend (sys_crashed (SmcSys s1 p (g_sys_crash s))) p'). split; [|done].
  rewrite (send_func_first _ _ _ _ _ _ _ Hkz Hocc Hne). fold p. unfold after_submit.
  unfold smp_smc_send_process, smp_smc_send. cbn [smp_smc_send_loop].
  match goal with |- context [w_smc w ?x ?y] => destruct (Hcrash x y) as (out & E & He & Hc) end.
  rewrite E, (proj2 (Z.eqb_neq _ _) He), Hc, Z.eqb_refl. change (-1 =? -1) with true. cbv iota.
  unfold finish_clean, clean_smc_resrc. cbn [cmd_usage sys_pend sys_crashed].
  rewrite Hrel, !ret_bind. done.
Qed.

(** When an SMC ends with an exit reason the driver does not know and the
    command is not finished, the call reports [TEEC_ERROR_GENERIC] and its
    slot stays occupied: nothing releases it any more. *)
Theorem smc_unknown_exit_keeps_slot kz w s inp s1 i n p' w1 r0 :
  16 < kz →
  (∀ k x, queue_clean (g_cmd_data x) → queue_clean (g_cmd_data (w_sleep k x))) →
  queue_clean (sys_queue s) →
  occupy_free_smc_in_entry w_sleep (sys_smc s) (with_ca_pid inp w_pid) = Ret (s1, i) →
  i ≠ - 1 →
  let p := (init_pending_entry kz w_pid (sys_pend s)).1 in
  release_pending_entry p kz = Ret p' →
  SMC_EXIT_MAX ≤ r0 →
  (∀ x y, w_smc w x y = (w1, y, SmcOut 0 r0 0 0)) →
  ∃ s', smp_smc_send_func (S n) kz w s inp false
      = Ret (Some (w1, s', with_ca_pid inp w_pid, TEEC_ERROR_GENERIC)) ∧
    in_set (sys_queue s') i = true ∧ (kz ∉ g_pending_head (sys_pend s')).
Proof.
  intros Hkz Hsl Hcl Hocc Hne p Hrel Hr0 Hexit.
  destruct (occupy_retry_spec _ _ _ _ _ _ _ Hsl Hcl Hocc) as [[? _]|(Hi & _ & Hv & _)]; [done|].
  apply view_parts in Hv as (V1 & _ & V3 & _).
  exists (sys_with_pend (SmcSys s1 p (g_sys_crash s)) p').
  split; [|split; [exact V1|by eapply release_unlisted]].
  rewrite (send_func_first _ _ _ _ _ _ _ Hkz Hocc Hne). fold p. unfold after_submit.
  unfold smp_smc_send_process, smp_smc_send. cbn [smp_smc_send_loop]. rewrite Hexit.
  cbn [exit_reason o_ret o_ta o_target]. unfold SMC_EXIT_MAX in Hr0.
  rewrite (proj2 (Z.eqb_neq r0 SMC_EXIT_PREEMPTED)) by (unfold SMC_EXIT_PREEMPTED; lia).
  change (u32 0 =? TSP_CRASH) with false. change (0 =? -1) with false. cbv iota.
  cbn [cmd_index]. unfold is_cmd_working_done.
  change (sys_queue (SmcSys s1 p (g_sys_crash s))) with (g_cmd_data s1). rewrite V3.
  cbn [cr_exit].
  rewrite (proj2 (Z.eqb_neq r0 SMC_EXIT_NORMAL)) by (unfold SMC_EXIT_NORMAL; lia).
  rewrite (proj2 (Z.eqb_neq r0 SMC_EXIT_ABORT)) by (unfold SMC_EXIT_ABORT; lia).
  unfold finish_clean, clean_smc_resrc. cbn [cmd_usage sys_pend].
  rewrite Hrel, !ret_bind. done.
Qed.

End Answer.

(** ** Concrete worlds *)

(** A TEE that works through a list of answers for slot 0. *)
Definition list_world : SmcWorld (list tc_ns_smc_cmd) := {|
  w_smc w _ s :=
    match w with
    | [] => ([], s, SmcOut 0 SMC_EXIT_MAX 0 0)
    | a :: w => (w, sys_with_queue s
                      (tee_answer (set_bits (sys_queue s) 0 None (Some true) None) 0 a),
                 SmcOut 0 SMC_EXIT_NORMAL 0 0)
    end;
  w_wait w _ s := (w, s, true);
  w_sleep _ s := s;
  w_killed _ := false;
  w_reported _ := false;
  w_agent w _ _ := (w, 0);
  w_kernel_thread := false;
  w_pid := 42
|}.

(** A TEE that has crashed. *)
Definition crash_world : SmcWorld unit := {|
  w_smc w _ s := (w, s, SmcOut TSP_CRASH SMC_EXIT_NORMAL 0 0);
  w_wait w _ s := (w, s, true);
  w_sleep _ s := s;
  w_killed _ := false;
  w_reported _ := false;
  w_agent w _ _ := (w, 0);
  w_kernel_thread := false;
  w_pid := 42
|}.

Definition hz100 : KernelTime := {| HZ := 100; msecs_to_jiffies t := (t + 9) / 10 |}.

#[export] Instance hz100_laws : KernelTimeLaws hz100.
Proof.
  split; simpl; [lia|]. intros t Ht. split.
  - apply Z.div_le_lower_bound; lia.
  - apply Z.lt_succ_r, Z.div_lt_upper_bound; lia.
Qed.

Definition demo_sys : smc_sys :=
  SmcSys (SmcState init_queue (Registry ∅ ∅ ∅ ∅ [] [] 1) ∅) (PendState ∅ []) false.

Definition demo_req : tc_ns_smc_cmd :=
  SmcCmd (replicate 16 0xab) CMD_TYPE_GLOBAL 7 1 5 0 0 0 0 0 0 0 0 0 0 0 0 0 0 0 0 0 0 false.

Lemma init_queue_clean : queue_clean init_queue.
Proof.
  split; [split; apply length_replicate|]. intros i _ _. unfold doing_set, out_set.
  cbn [init_queue doing_bitmap out_bitmap]. split; apply Z.testbit_0_l.
Qed.

Definition demo_s1 : smc_state :=
  match occupy_free_smc_in_entry (F := linear_phys) (λ _ x, x) (sys_smc demo_sys)
          (with_ca_pid demo_req 42) with
  | Ret (s, _) => s
  | Fault => sys_smc demo_sys
  end.

Lemma demo_occupy :
  occupy_free_smc_in_entry (F := linear_phys) (λ _ x, x) (sys_smc demo_sys)
    (with_ca_pid demo_req 42) = Ret (demo_s1, 0).
Proof. vm_compute. reflexivity. Qed.

Lemma demo_counted_empty : counted (smc_reg demo_s1).
Proof.
  assert (smc_reg demo_s1 = Registry ∅ ∅ ∅ ∅ [] [] 1) as -> by (vm_compute; reflexivity).
  by apply counted_no_services.
Qed.

Definition demo_reply (r : Z) : tc_ns_smc_cmd := with_ret_val demo_req r.

Lemma list_world_answers a l : answers_now (SW := list_world) (a :: l) 0 a l.
Proof. intros m p s <- _ _. eexists. split; [reflexivity|]. split; discriminate. Qed.


Lemma smc_crash_latched_witness :
  ∃ s', smp_smc_send_func (SW := crash_world) (KT := hz100) (F := linear_phys) 1 100
      tt demo_sys demo_req false
    = Ret (Some (tt, s', with_ca_pid demo_req 42, MINUS_ONE)) ∧
    proc_tc_ns_smc (SW := crash_world) (KT := hz100) (F := linear_phys) 9 100 tt s' demo_req false
    = Ret (Some (tt, s', demo_req, TEEC_ERROR_GENERIC)).
Proof.
  destruct (smc_crash_latched (SW := crash_world) (KT := hz100) (F := linear_phys) 100 tt demo_sys
    demo_req demo_s1 0 0 (PendState ∅ []) tt ltac:(lia) demo_occupy ltac:(discriminate)
    ltac:(vm_compute; reflexivity)) as (s' & E & H).
  { intros x y. eexists. split; [reflexivity|]. split; [discriminate|reflexivity]. }
  exists s'. split; [exact E|]. exact (H _ _ _ _ _).
Defined.

Lemma smc_unknown_exit_keeps_slot_witness :
  ∃ s', smp_smc_send_func (SW := list_world) (KT := hz100) (F := linear_phys) 1 100
      [] demo_sys demo_req false
    = Ret (Some ([], s', with_ca_pid demo_req 42, TEEC_ERROR_GENERIC)) ∧
    in_set (sys_queue s') 0 = true.
Proof.
  destruct (smc_unknown_exit_keeps_slot (SW := list_world) (KT := hz100) (F := linear_phys) 100 []
    demo_sys demo_req demo_s1 0 0 (PendState ∅ []) [] SMC_EXIT_MAX ltac:(lia) (λ _ x H, H)
    init_queue_clean demo_occupy ltac:(discriminate) ltac:(vm_compute; reflexivity)
    ltac:(apply Z.le_refl) ltac:(reflexivity)) as (s' & E & Hin & _).
  exists s'. split; [exact E|exact Hin].
Defined.

Lemma smc_send_releases_entry_witness :
  ∃ s', smp_smc_send_func (SW := crash_world) (KT := hz100) (F := linear_phys) 1 100
      tt demo_sys demo_req false
    = Ret (Some (tt, s', with_ca_pid demo_req 42, MINUS_ONE)) ∧
    (100 ∉ g_pending_head (sys_pend s')).
Proof.
  destruct (smp_smc_send_func (SW := crash_world) (KT := hz100) (F := linear_phys) 1 100
    tt demo_sys demo_req false) as [[[[[w' s'] i'] r]|]|] eqn:E;
    [|vm_compute in E; discriminate..].
  pose proof (smc_send_releases_entry (SW := crash_world) (KT := hz100) (F := linear_phys) 1 100
    tt demo_sys demo_req false w' s' i' r ltac:(lia) E) as H.
  assert (match smp_smc_send_func (SW := crash_world) (KT := hz100) (F := linear_phys) 1 100
            tt demo_sys demo_req false with
          | Ret (Some (_, _, i', r)) =>
              bool_decide (i' = with_ca_pid demo_req 42) && (r =? MINUS_ONE)
          | _ => false end = true) as Hr by (vm_compute; reflexivity).
  rewrite E in Hr. apply andb_true_iff in Hr as [Hi%bool_decide_eq_true Hr%Z.eqb_eq].
  exists s'. destruct w'. rewrite Hi, Hr. split; [reflexivity|exact H].
Defined.

Lemma demo_sys_reg_ok : reg_ok (smc_reg (sys_smc demo_sys)).
Proof.
  split; simpl.
  - by apply counted_no_services.
  - by intros p ?%elem_of_nil.
  - intros d v p H. by rewrite lookup_empty in H.
  - intros p v q H. by rewrite lookup_empty in H.
Qed.

Lemma smc_occupy_no_leak_witness :
  ∃ s', occupy_free_smc_in_entry (F := linear_phys) (λ _ x, x) (sys_smc demo_sys)
    (with_ca_pid demo_req 42) = Ret (s', 0) ∧ in_set (g_cmd_data s') 0 = true.
Proof.
  destruct (smc_occupy_no_leak (F := linear_phys) (λ _ x, x) (sys_smc demo_sys)
    (with_ca_pid demo_req 42) (λ _ x H, H) (λ _ x H, H) init_queue_clean demo_sys_reg_ok)
    as (s' & idx & E & [[H _]|(_ & H & _)]).
  - rewrite demo_occupy in E. injection E as _ E. rewrite H in E. discriminate.
  - rewrite demo_occupy in E. pose proof (Ret_inj2 _ _ _ _ E) as [E1 E2].
    exists s'. rewrite demo_occupy, <- E1. split; [reflexivity|]. rewrite E1, E2. exact H.
Defined.

Lemma timeout_steps_sound_witness :
  total (take 5 (steps (init_timeout_step (KT := hz100) 50 init_step))) = 1500.
Proof.
  destruct (timeout_steps_sound (KT := hz100) 50 init_step eq_refl ltac:(lia))
    as (_ & _ & _ & _ & H).
  exact H.
Defined.
