(* ===== verification/SmcChan.v ===== *)
(** * The command queue as a channel to the TEE (core/smc_smp.c)

    The callers of [tc_ns_smc] are proved against the interface [SmcChannel].
    Here the interface is implemented by the queue: [queue_send] runs
    [proc_tc_ns_smc], slot, SMC, agent requests, answer and all, with a TEE
    that takes its commands out of the queue.  [channel_spec] is the reference
    definition: what the TEE does with the command it is given.  [Chan]
    shows that the two agree and that the queue is ready for the next call. *)

From stdpp Require Import base gmap list.
From Stdlib Require Import ZArith Lia.
From S2P Require Import Prelude KernelApi TeeTypes Buffers Mailbox SessReg SessLookup.
From S2P Require Import SessOk CallTypes Auth AuthOk SmcQueue SmcSteps SmcPending.
From S2P Require Import SmcPendingThm SmcSend SmcSendClaims.

(** What the TEE does with one command and the memory and operation it shares,
    and what an agent does for it in between. *)
Class TeeCore (T : Type) := {
  tee_run : T → mem → tc_ns_operation → tc_ns_smc_cmd → T * mem * tc_ns_operation * tc_ns_smc_cmd;
  agent_work : T → tc_ns_smc_cmd → Z → T
}.

(** ** What is sent *)

Section Prepare.
Context {F : PhysMap}.

(** The command the TEE will see, and the memory with the new timestamp. *)
Definition prepared (R : registry) (m : mem) (c : tc_ns_smc_cmd)
    : option (tc_ns_smc_cmd * mem) :=
  match update_timestamp R m c, update_chksum R c with
  | Ret (_, m, r), Ret (_, c, _) => if nonzero r then None else Some (c, m)
  | _, _ => None
  end.

Lemma update_timestamp_refused R R' m c m' r :
  update_timestamp R m c = Ret (R', m', r) → nonzero r = true → m' = m.
Proof.
  unfold update_timestamp. destruct (_ =? CMD_TYPE_TA); [|by intros [= <- <- <-]].
  destruct (is_token_empty _ _); [by intros [= <- <- <-]|].
  rewrite bind_Ret. intros ([R1 p] & _ & H). destruct (p =? 0); [by injection H as <- <- <-|].
  apply bind_Ret in H as (x & _ & H). destruct (descrambling_timestamp _ _ _) as [r' t'].
  apply bind_Ret in H as (R2 & _ & H).
  destruct (nonzero r'); injection H as <- <- <-; [done|by intros [=]].
Qed.

Lemma update_chksum_accepts R R' c c' r : update_chksum R c = Ret (R', c', r) → r = EOK.
Proof.
  unfold update_chksum. destruct (_ =? CMD_TYPE_TA); [|by intros [= <- <- <-]].
  rewrite bind_Ret. intros ([R1 p] & _ & H). destruct (p =? 0); [by injection H as <- <- <-|].
  apply bind_Ret in H as (x & _ & H). apply bind_Ret in H as (R2 & _ & H). by injection H.
Qed.

(** [prepare_entry] publishes what [prepared] says or changes nothing. *)
Lemma prepare_entry_prepared s i :
  reg_ok (smc_reg s) →
  prepare_entry s i =
    match prepared (smc_reg s) (smc_mem s) (in_cmd (g_cmd_data s) i) with
    | Some (c, m) =>
        Ret (SmcState (set_bits (set_in_cmd (g_cmd_data s) i c) i None (Some false) None)
               (smc_reg s) m, true)
    | None => Ret (s, false)
    end.
Proof.
  intros HR. unfold prepare_entry, prepared.
  destruct (update_timestamp_total (smc_reg s) (smc_mem s) (in_cmd (g_cmd_data s) i) HR)
    as (m & r & Et).
  destruct (update_chksum_total (smc_reg s) (in_cmd (g_cmd_data s) i) HR) as (c & r' & Ec).
  rewrite Et, Ec, ret_bind. destruct (nonzero r) eqn:Er.
  - rewrite (update_timestamp_refused _ _ _ _ _ _ Et Er). by destruct s.
  - cbn [smc_reg smc_mem g_cmd_data]. rewrite Ec, ret_bind.
    by rewrite (update_chksum_accepts _ _ _ _ _ Ec).
Qed.

End Prepare.

(** ** The TEE at the queue *)

Section Channel.
Context {T : Type} {TC : TeeCore T} {KT : KernelTime} {F : PhysMap}.
Context (pid : Z).

(** The slot the TEE takes next: published and not yet taken. *)
Definition next_cmd (q : tc_ns_smc_queue) : option Z :=
  head (filter (λ i, in_set q i = true ∧ doing_set q i = false) (seqZ 0 MAX_SMC_CMD)).

(** One SMC; nobody else uses the queue. *)
Definition core_smc (w : T * tc_ns_operation) (s : smc_sys)
    : T * tc_ns_operation * smc_sys * smc_out_params :=
  match next_cmd (sys_queue s) with
  | None => (w, s, SmcOut 0 SMC_EXIT_NORMAL 0 0)
  | Some i =>
      let '(t, m, o, a) := tee_run w.1 (smc_mem (sys_smc s)) w.2 (in_cmd (sys_queue s) i) in
      (t, o, answered s i a m, SmcOut 0 SMC_EXIT_NORMAL 0 0)
  end.

#[local] Instance core_world : SmcWorld (T * tc_ns_operation) := {|
  w_smc w _ s := core_smc w s;
  w_wait w _ s := (w, s, true);
  w_sleep _ s := s;
  w_killed _ := false;
  w_reported _ := false;
  w_agent w a id := ((agent_work w.1 a id, w.2), 0);
  w_kernel_thread := false;
  w_pid := pid
|}.

(** A call on the registry [R] and the memory [m] of the caller; [n] bounds the
    agent requests. *)
Definition queue_send (n : nat) (kz : Z) (reuse : bool) (t : T) (s : smc_sys) (R : registry)
    (m : mem) (o : tc_ns_operation) (c : tc_ns_smc_cmd)
    : outcome (option (T * tc_ns_operation * smc_sys * tc_ns_smc_cmd * Z)) :=
  proc_tc_ns_smc (S n) kz (t, o) (sys_with_smc s (SmcState (sys_queue s) R m)) c reuse.

(** ** The reference definition *)

(** The command through its agent requests to its answer; [None] when there
    are more than [n], or when one of them is not a request of an agent. *)
Fixpoint tee_serve (n : nat) (t : T) (m : mem) (o : tc_ns_operation) (c : tc_ns_smc_cmd)
    : option (T * mem * tc_ns_operation * tc_ns_smc_cmd) :=
  let '(t, m, o, a) := tee_run t m o c in
  if ret_val a =? TEEC_PENDING2 then
    if cmd_type a =? CMD_TYPE_TA then None
    else match n with
         | O => None
         | S n => tee_serve n (agent_work t a (agent_id a)) m o a
         end
  else Some (t, m, o, a).

(** Slot and command: the first free slot for a new command, the kept slot and
    the TEE's last answer for a command that is sent again. *)
Definition chosen (q : tc_ns_smc_queue) (c : tc_ns_smc_cmd) (reuse : bool)
    : option (Z * tc_ns_smc_cmd) :=
  if reuse
  then if in_set q (event_nr c) && doing_set q (event_nr c)
       then Some (event_nr c, out_cmd q (event_nr c)) else None
  else i ← find_free_entry (Z.to_nat MAX_SMC_CMD) q 0;
       Some (i, with_event_nr (with_ca_pid c pid) i).

(** The slot used, the TEE, the memory, the operation, the caller's command
    block and the result. *)
Definition channel_spec (n : nat) (reuse : bool) (t : T) (q : tc_ns_smc_queue) (R : registry)
    (m : mem) (o : tc_ns_operation) (c : tc_ns_smc_cmd)
    : option (Z * T * mem * tc_ns_operation * tc_ns_smc_cmd) :=
  '(i, c) ← chosen q c reuse;
  '(c, m) ← prepared R m c;
  '(t, m, o, a) ← tee_serve n t m o c;
  Some (i, t, m, o, a).

(** ** The queue between two calls *)

(** Nothing is published; a slot in use is kept for a command that the TEE has
    left pending. *)
Definition quiet (q : tc_ns_smc_queue) : Prop :=
  queue_clean q ∧ ∀ i, valid_slot i → in_set q i = true →
    doing_set q i = true ∧ out_set q i = false.

(** Slot [i] holds [c] for the TEE, the memory is [m] and nothing else is
    published. *)
Definition alone (i : Z) (c : tc_ns_smc_cmd) (m : mem) (s : smc_sys) : Prop :=
  in_cmd (sys_queue s) i = c ∧ smc_mem (sys_smc s) = m ∧
  ∀ j, valid_slot j → j ≠ i → in_set (sys_queue s) j = true → doing_set (sys_queue s) j = true.

Lemma alone_stable i : slot_stable (alone i) i.
Proof.
  intros c m b s s' (_ & _ & Ho) Hb Hv. split_and!; [done..|]. intros j Hj Hne.
  destruct (view_same_bits _ _ _ (Hv j Hj Hne)) as (-> & -> & _). by apply Ho.
Qed.

Lemma next_cmd_alone i c m s :
  alone i c m s → valid_slot i → in_set (sys_queue s) i = true →
  doing_set (sys_queue s) i = false → next_cmd (sys_queue s) = Some i.
Proof.
  intros (_ & _ & Ho) Hi Hin Hd. unfold next_cmd.
  set (l := filter _ (seqZ 0 MAX_SMC_CMD)).
  assert (i ∈ l) as Hil.
  { apply list_elem_of_filter. split; [done|]. apply elem_of_seqZ. unfold valid_slot in Hi. lia. }
  assert (∀ j, j ∈ l → j = i) as Hl.
  { intros j [[H1 H2] Hj%elem_of_seqZ]%list_elem_of_filter.
    destruct (decide (j = i)); [done|]. rewrite Ho in H2; [done| |done|done].
    unfold valid_slot. lia. }
  destruct l as [|j l]; [by apply elem_of_nil in Hil|]. simpl. f_equal. apply Hl. left.
Qed.

Lemma serve_script i n t m o c t' m' o' a :
  valid_slot i → tee_serve n t m o c = Some (t', m', o', a) →
  ∃ l, (length l ≤ n)%nat ∧ script_in (alone i) i (t, o) c m l a (t', o') m'.
Proof.
  intros Hi. revert t m o c. induction n as [|n IH]; intros t m o c; simpl;
    destruct (tee_run t m o c) as [[[t1 m1] o1] b] eqn:Er;
    assert (answers_in (alone i c m) (t, o) i b m1 (t1, o1)) as Hans
      by (intros p s Ha Hin Hd; exists (SmcOut 0 SMC_EXIT_NORMAL 0 0); split; [|done];
          cbn [w_smc core_world]; unfold core_smc;
          rewrite (next_cmd_alone _ _ _ _ Ha Hi Hin Hd); destruct Ha as (-> & -> & _);
          cbn [fst snd]; by rewrite Er);
    (destruct (Z.eqb_spec (ret_val b) TEEC_PENDING2) as [Hp|Hp];
      [destruct (Z.eqb_spec (cmd_type b) CMD_TYPE_TA) as [|Hty]; [done|]|]).
  1: done.
  1,3: intros [= -> -> -> ->]; exists []; split; [simpl; lia|by apply script_last].
  intros H. destruct (IH _ _ _ _ H) as (l & Hl & Hs). exists (b :: l).
  split; [simpl; lia|]. by eapply script_more.
Qed.

(** ** The first pass *)

Lemma pending_round_trip kz s :
  16 < kz → pe_heap s !! kz = None → kz ∉ g_pending_head s →
  ∃ p, init_pending_entry kz pid s = (p, kz) ∧ release_pending_entry p kz = Ret s.
Proof.
  intros Hkz Hh Hl. unfold init_pending_entry, zero_or_null_ptr.
  rewrite (proj2 (Z.leb_gt kz 16)) by lia. eexists. split; [done|].
  unfold release_pending_entry, at_index, unlink, put_pending_entry. simpl.
  rewrite lookup_insert_eq. simpl. rewrite decide_True by set_solver. simpl.
  rewrite (proj2 (Z.eqb_neq kz 0)) by lia. unfold at_index. simpl.
  rewrite lookup_insert_eq. simpl. rewrite delete_insert_id by done.
  rewrite filter_app, filter_cons_False by (by intros []). rewrite filter_nil, app_nil_r.
  destruct s as [h l]. simpl in *. repeat f_equal. clear -Hl. induction l as [|x l IH]; [done|].
  rewrite filter_cons_True by set_solver. f_equal. apply IH. set_solver.
Qed.

(** With nobody else about, waiting for a free slot does not help. *)
Lemma occupy_alone n k x c :
  queue_wf (g_cmd_data x) → reg_ok (smc_reg x) →
  occupy_retry n k (λ _ y, y) x c =
    match try_occupy (g_cmd_data x) c with
    | None => Ret (x, - 1)
    | Some (q, i) =>
        match prepared (smc_reg x) (smc_mem x) (with_event_nr c i) with
        | Some (c', m) =>
            Ret (SmcState (set_bits (set_in_cmd q i c') i None (Some false) None)
                   (smc_reg x) m, i)
        | None => Ret (with_queue x (occupy_clean_in_doing_entry q i), - 1)
        end
    end.
Proof.
  intros Hwf HR. revert k. induction n as [|n IH]; intros k; cbn [occupy_retry];
    destruct (try_occupy (g_cmd_data x) c) as [[q i]|] eqn:Et; try done.
  all: destruct (try_occupy_spec _ _ _ _ Hwf Et) as (_ & _ & _ & _ & Hv & _);
    apply view_parts in Hv as (_ & _ & _ & Hc & _);
    rewrite prepare_entry_prepared by done; cbn [g_cmd_data smc_reg smc_mem with_queue];
    rewrite Hc; by destruct (prepared _ _ _) as [[c' m]|].
Qed.

(** The state after a submission, in which the TEE finds [c] in slot [i]. *)
Record submitted (x x1 : smc_sys) (i : Z) (c : tc_ns_smc_cmd) (m : mem) : Prop := {
  sub_slot : valid_slot i;
  sub_wf : queue_wf (sys_queue x1);
  sub_view : view (sys_queue x1) i
    = (true, false, false, in_cmd (sys_queue x1) i, out_cmd (sys_queue x1) i);
  sub_alone : alone i c m x1;
  sub_other j : valid_slot j → j ≠ i → view (sys_queue x1) j = view (sys_queue x) j;
  sub_reg : smc_reg (sys_smc x1) = smc_reg (sys_smc x);
  sub_pend : sys_pend x1 = sys_pend x;
  sub_crash : g_sys_crash x1 = g_sys_crash x
}.

(** The state after a refusal: a slot asked for again is free. *)
Record refused (x x1 : smc_sys) (c : tc_ns_smc_cmd) (reuse : bool) : Prop := {
  ref_quiet : quiet (sys_queue x1);
  ref_bits j : valid_slot j → reuse = false ∨ j ≠ event_nr c →
    in_set (sys_queue x1) j = in_set (sys_queue x) j;
  ref_freed : reuse = true → in_set (sys_queue x1) (event_nr c) = false;
  ref_mem : smc_mem (sys_smc x1) = smc_mem (sys_smc x);
  ref_reg : smc_reg (sys_smc x1) = smc_reg (sys_smc x);
  ref_pend : sys_pend x1 = sys_pend x;
  ref_crash : g_sys_crash x1 = g_sys_crash x
}.

Definition first_info (c : tc_ns_smc_cmd) (reuse : bool) : cmd_reuse_info :=
  if reuse then ReuseInfo (event_nr c) (event_nr c) RESEND else ReuseInfo 0 0 CLEAR.

Definition first_cmd (c : tc_ns_smc_cmd) (reuse : bool) : tc_ns_smc_cmd :=
  if reuse then zero_smc_cmd else with_ca_pid c pid.

(** Slot, command and memory of what is sent. *)
Definition sent (x : smc_sys) (c : tc_ns_smc_cmd) (reuse : bool)
    : option (Z * tc_ns_smc_cmd * mem) :=
  '(i, c) ← chosen (sys_queue x) c reuse;
  '(c, m) ← prepared (smc_reg (sys_smc x)) (smc_mem (sys_smc x)) c;
  Some (i, c, m).

(** A slot just filled is the only one published. *)
Lemma published_submitted x q i c c0 m :
  quiet (sys_queue x) → valid_slot i → queue_wf q →
  view q i = (true, true, false, c0, out_cmd q i) →
  (∀ j, valid_slot j → j ≠ i → view q j = view (sys_queue x) j) →
  submitted x (sys_with_smc x (SmcState (set_bits (set_in_cmd q i c) i None (Some false) None)
                                 (smc_reg (sys_smc x)) m)) i c m.
Proof.
  intros [_ Hq] Hi Hwf (V1 & V2 & V3 & _)%view_parts Hoth.
  assert (0 ≤ i) as Hi0 by (unfold valid_slot in Hi; lia).
  pose proof (set_in_cmd_view q i c Hwf Hi) as (A1 & A2 & A3 & A4 & A5)%view_parts.
  pose proof (set_bits_view (set_in_cmd q i c) i None (Some false) None Hi0) as HV.
  pose proof HV as (B1 & B2 & B3 & B4 & B5)%view_parts.
  assert (∀ j, valid_slot j → j ≠ i →
    view (set_bits (set_in_cmd q i c) i None (Some false) None) j = view (sys_queue x) j) as Ho.
  { intros j Hj Hne. rewrite set_bits_view_other, set_in_cmd_view_other by (done || congruence).
    by apply Hoth. }
  split; try done.
  - by apply set_in_cmd_wf.
  - change (sys_queue _) with (set_bits (set_in_cmd q i c) i None (Some false) None).
    rewrite HV, B4, B5. unfold choose; simpl. by rewrite A1, A3, V1, V3.
  - split_and!; [exact A4|done|]. intros j Hj Hne.
    destruct (view_same_bits _ _ _ (Ho j Hj Hne)) as (E1 & E2 & _). intros Hin.
    refine (eq_trans E2 _). apply Hq; [done|]. by rewrite <- E1.
Qed.

(** Clearing all bits of one slot keeps the queue quiet. *)
Lemma clear_slot_quiet q q' i :
  quiet q → valid_slot i → queue_wf q' →
  in_set q' i = false → doing_set q' i = false → out_set q' i = false →
  (∀ j, valid_slot j → j ≠ i → view q' j = view q j) → quiet q'.
Proof.
  intros [[_ Hf] Hu] Hi Hwf H1 H2 H3 Hv. split; [split; [done|]|]; intros j Hj;
    (destruct (decide (j = i)) as [->|Hne]; [intros; split; congruence|]);
    destruct (view_same_bits _ _ _ (Hv j Hj Hne)) as (-> & -> & ->); auto.
Qed.

Lemma cleaned_refused x q i c :
  quiet (sys_queue x) → valid_slot i → queue_wf q → in_set (sys_queue x) i = false →
  out_set q i = out_set (sys_queue x) i →
  (∀ j, valid_slot j → j ≠ i → view q j = view (sys_queue x) j) →
  refused x (sys_with_smc x (with_queue (sys_smc x) (occupy_clean_in_doing_entry q i))) c false.
Proof.
  intros Hq Hi Hwf Hin Hout Hoth. assert (0 ≤ i) as Hi0 by (unfold valid_slot in Hi; lia).
  pose proof (set_bits_view q i (Some false) (Some false) None Hi0) as (B1 & B2 & B3 & _)%view_parts.
  assert (∀ j, valid_slot j → j ≠ i →
    view (occupy_clean_in_doing_entry q i) j = view (sys_queue x) j) as Hv.
  { intros j Hj Hne. unfold occupy_clean_in_doing_entry.
    rewrite set_bits_view_other by (done || congruence). by apply Hoth. }
  split; try done.
  - apply (clear_slot_quiet (sys_queue x) _ i); try done.
    refine (eq_trans B3 _). unfold choose; simpl. rewrite Hout.
    by apply (proj2 (proj1 Hq)).
  - intros j Hj _. destruct (decide (j = i)) as [->|Hne]; [by rewrite Hin|].
    by apply (view_same_bits _ _ _ (Hv j Hj Hne)).
Qed.

(** A submission that finds its slot and passes its checks publishes the
    command; any other leaves the queue quiet. *)
Lemma submit_new x c :
  quiet (sys_queue x) → reg_ok (smc_reg (sys_smc x)) →
  match sent x c false with
  | Some (i, c', m) => ∃ x1, submitted x x1 i c' m ∧
      smc_ops_normal x (first_info c false) (first_cmd c false) SMC_OPS_NORMAL
        = Ret (x1, ReuseInfo i i CLEAR, 0)
  | None => ∃ x1 info, refused x x1 c false ∧
      smc_ops_normal x (first_info c false) (first_cmd c false) SMC_OPS_NORMAL
        = Ret (x1, info, - ENOMEM)
  end.
Proof.
  intros Hq HR. pose proof Hq as [[Hwf Hfree] Hused].
  unfold smc_ops_normal, first_info, first_cmd, sent, chosen. rewrite Z.eqb_refl.
  cbn [negb cmd_usage saved_index w_sleep core_world].
  unfold occupy_free_smc_in_entry. rewrite occupy_alone by done.
  change (g_cmd_data (sys_smc x)) with (sys_queue x).
  destruct (try_occupy (sys_queue x) (with_ca_pid c pid)) as [[q i]|] eqn:Et.
  - destruct (try_occupy_spec _ _ _ _ Hwf Et) as (Hi & Hwf1 & Hin & _ & Hv & Hoth).
    destruct (Hfree i Hi Hin) as [Hd Ho].
    unfold try_occupy in Et. destruct (find_free_entry _ _ _) as [k|]; [|done].
    injection Et as Eq ->. cbn [mbind option_bind].
    destruct (prepared _ _ _) as [[c' m]|]; cbn [mbind option_bind].
    + eexists. split; [|by rewrite ret_bind, (proj2 (Z.eqb_neq i (-1)))
                         by (unfold valid_slot in Hi; lia)].
      apply (published_submitted x q i c' (with_event_nr (with_ca_pid c pid) i) m); try done.
      rewrite Hv, Ho. by apply view_parts in Hv as (_ & _ & _ & _ & ->).
    + eexists _, _. split; [|by rewrite ret_bind]. apply cleaned_refused; try done.
      by apply view_parts in Hv as (_ & _ & -> & _).
  - unfold try_occupy in Et. destruct (find_free_entry _ _ _); [done|].
    cbn [mbind option_bind]. eexists _, _. split; [|by rewrite ret_bind]. by split.
Qed.

Lemma released_refused x q m c :
  quiet (sys_queue x) → valid_slot (event_nr c) → queue_wf q →
  (∀ j, valid_slot j → j ≠ event_nr c → view q j = view (sys_queue x) j) →
  m = smc_mem (sys_smc x) →
  refused x (sys_with_smc x (SmcState (release_smc_entry q (event_nr c))
                               (smc_reg (sys_smc x)) m)) c true.
Proof.
  intros Hq Hi Hwf Hoth ->. assert (0 ≤ event_nr c) as Hi0 by (unfold valid_slot in Hi; lia).
  pose proof (set_bits_view q (event_nr c) (Some false) (Some false) (Some false) Hi0)
    as (B1 & B2 & B3 & _)%view_parts.
  assert (∀ j, valid_slot j → j ≠ event_nr c →
    view (release_smc_entry q (event_nr c)) j = view (sys_queue x) j) as Hv.
  { intros j Hj Hne. unfold release_smc_entry.
    rewrite set_bits_view_other by (done || congruence). by apply Hoth. }
  split; try done.
  - by apply (clear_slot_quiet (sys_queue x) _ (event_nr c)).
  - intros j Hj [?|Hne]; [done|]. by apply (view_same_bits _ _ _ (Hv j Hj Hne)).
Qed.

Lemma submit_again x c :
  quiet (sys_queue x) → reg_ok (smc_reg (sys_smc x)) → valid_slot (event_nr c) →
  match sent x c true with
  | Some (i, c', m) => ∃ x1, submitted x x1 i c' m ∧
      smc_ops_normal x (first_info c true) (first_cmd c true) SMC_OPS_NORMAL
        = Ret (x1, ReuseInfo i i CLEAR, 0)
  | None => ∃ x1 info, refused x x1 c true ∧
      smc_ops_normal x (first_info c true) (first_cmd c true) SMC_OPS_NORMAL
        = Ret (x1, info, - ENOMEM)
  end.
Proof.
  intros Hq HR Hi. pose proof Hq as [[Hwf Hfree] Hused].
  unfold smc_ops_normal, first_info, first_cmd, sent, chosen, reuse_smc_in_entry.
  rewrite Z.eqb_refl. cbn [negb cmd_usage cmd_index saved_index].
  change (g_cmd_data (sys_smc x)) with (sys_queue x). set (i := event_nr c) in *.
  destruct (in_set (sys_queue x) i && doing_set (sys_queue x) i) eqn:Eb; cbn [negb].
  - apply andb_prop in Eb as [Hin Hd]. destruct (Hused i Hi Hin) as [_ Ho].
    set (q := set_in_cmd (sys_queue x) i (out_cmd (sys_queue x) i)).
    pose proof (set_in_cmd_view (sys_queue x) i (out_cmd (sys_queue x) i) Hwf Hi) as Hv.
    fold q in Hv. pose proof Hv as (_ & _ & _ & Hc & Hout)%view_parts.
    assert (queue_wf q) as Hwf1 by (by apply set_in_cmd_wf).
    assert (∀ j, valid_slot j → j ≠ i → view q j = view (sys_queue x) j) as Hoth
      by (intros; apply set_in_cmd_view_other; done || congruence).
    rewrite prepare_entry_prepared by done. cbn [g_cmd_data smc_reg smc_mem with_queue].
    rewrite Hc. cbn [mbind option_bind].
    destruct (prepared _ _ _) as [[c' m]|]; cbn [mbind option_bind].
    + eexists. split; [|by rewrite !ret_bind].
      apply (published_submitted x q i c' (out_cmd (sys_queue x) i) m); try done.
      by rewrite Hv, Hin, Hd, Ho, Hout.
    + eexists _, _. split; [|by rewrite !ret_bind]. by apply (released_refused x q).
  - cbn [mbind option_bind]. eexists _, _. split; [|by rewrite ret_bind].
    by apply (released_refused x (sys_queue x)).
Qed.

(** ** The whole call *)

Lemma settled_quiet x x1 x' i c a m m' p :
  quiet (sys_queue x) → submitted x x1 i c m → settled x1 x' i a m' p → quiet (sys_queue x').
Proof.
  intros Hq Hs (Hwf & H1 & H2 & H3 & _ & Hv & _).
  assert (∀ j, valid_slot j → j ≠ i → view (sys_queue x') j = view (sys_queue x) j) as Ho.
  { intros j Hj Hne. rewrite Hv by done. by apply Hs. }
  destruct Hq as [[_ Hf] Hu]. split; [split; [done|]|]; intros j Hj;
    (destruct (decide (j = i)) as [->|Hne]; [intros; split; congruence|]);
    destruct (view_same_bits _ _ _ (Ho j Hj Hne)) as (-> & -> & ->); auto.
Qed.

(** What a call makes of the slots: the slot it used holds the answer and is
    kept if that is pending, and free otherwise; a slot asked for again in vain
    is free. *)
Definition slots_after (q q' : tc_ns_smc_queue) (c : tc_ns_smc_cmd) (reuse : bool)
    (r : option (Z * T * mem * tc_ns_operation * tc_ns_smc_cmd)) : Prop :=
  quiet q' ∧
  match r with
  | Some (i, _, _, _, a) => in_set q' i = pending a ∧ out_cmd q' i = a ∧
      ∀ j, valid_slot j → j ≠ i → view q' j = view q j
  | None => (reuse = true → in_set q' (event_nr c) = false) ∧
      ∀ j, valid_slot j → reuse = false ∨ j ≠ event_nr c → in_set q' j = in_set q j
  end.

(** The caller's view of the outcome. *)
Definition outcome_of (r : option (Z * T * mem * tc_ns_operation * tc_ns_smc_cmd)) (t : T)
    (m : mem) (o : tc_ns_operation) (c : tc_ns_smc_cmd)
    : T * mem * tc_ns_operation * tc_ns_smc_cmd * Z :=
  match r with
  | Some (_, t, m, o, a) => (t, m, o, a, ret_val a)
  | None => (t, m, o, with_ca_pid c pid, TEEC_ERROR_GENERIC)
  end.

Lemma send_func_start kz (w : T * tc_ns_operation) s c reuse n p :
  16 < kz → init_pending_entry kz pid (sys_pend s) = (p, kz) →
  smp_smc_send_func (S n) kz w s c reuse =
    send_iter (S n) kz (SendSt w (sys_with_pend s p) (first_info c reuse) (CmdRet 0 0 0)
      (first_cmd c reuse) (with_ca_pid c pid) SMC_OPS_NORMAL init_step) ≫= continue n kz.
Proof.
  intros Hkz Ep. unfold smp_smc_send_func, init_for_smc_send. cbn [w_pid core_world].
  rewrite Ep, (proj2 (Z.eqb_neq kz 0)) by lia. change (nonzero 0) with false. cbv iota.
  by destruct reuse.
Qed.

Lemma submit_spec reuse x c :
  quiet (sys_queue x) → reg_ok (smc_reg (sys_smc x)) → (reuse = true → valid_slot (event_nr c)) →
  match sent x c reuse with
  | Some (i, c', m) => ∃ x1, submitted x x1 i c' m ∧
      smc_ops_normal x (first_info c reuse) (first_cmd c reuse) SMC_OPS_NORMAL
        = Ret (x1, ReuseInfo i i CLEAR, 0)
  | None => ∃ x1 info, refused x x1 c reuse ∧
      smc_ops_normal x (first_info c reuse) (first_cmd c reuse) SMC_OPS_NORMAL
        = Ret (x1, info, - ENOMEM)
  end.
Proof. destruct reuse; intros ? ? Hev; [apply submit_again|apply submit_new]; auto. Qed.

Lemma served_call n kz t o x x1 i c m cmd inp t' m' o' a p :
  submitted x x1 i c m → reg_ok (smc_reg (sys_smc x)) →
  release_pending_entry (sys_pend x) kz = Ret p → tee_serve n t m o c = Some (t', m', o', a) →
  ∃ x', after_submit (S n) kz (t, o) x1 (ReuseInfo i i CLEAR) (CmdRet 0 0 0) cmd inp
      SMC_OPS_NORMAL (set_timeout_step init_step) ≫= continue n kz
      = Ret (Some (t', o', x', a, ret_val a)) ∧ settled x1 x' i a m' p.
Proof.
  intros Hs HR Hrel Ea. pose proof Hs as [Hi Hwf Hv Ha _ Hrg Hp _].
  destruct (serve_script i _ _ _ _ _ _ _ _ _ Hi Ea) as (l & Hl & Hscr).
  apply (script_runs _ _ _ _ _ _ _ _ _ Hscr (alone_stable i)); rewrite ?Hrg, ?Hp; try done.
  - by apply reg_counted.
  - intros _. destruct (tc_find_session_total _ (dev_file_id a) a HR) as (R' & q & E). by eexists.
Qed.

(** The reference definition in the terms of the submission. *)
Lemma channel_spec_sent n reuse t x o c :
  channel_spec n reuse t (sys_queue x) (smc_reg (sys_smc x)) (smc_mem (sys_smc x)) o c =
    '(i, c, m) ← sent x c reuse; '(t, m, o, a) ← tee_serve n t m o c; Some (i, t, m, o, a).
Proof.
  unfold channel_spec, sent. destruct (chosen _ _ _) as [[? ?]|]; [|done]. simpl.
  by destruct (prepared _ _ _) as [[? ?]|].
Qed.

Lemma queue_send_spec n kz reuse t s R m o c :
  quiet (sys_queue s) → g_sys_crash s = false → reg_ok R → 16 < kz →
  pe_heap (sys_pend s) !! kz = None → kz ∉ g_pending_head (sys_pend s) →
  (reuse = true → valid_slot (event_nr c)) → (∀ m c, is_Some (tee_serve n t m o c)) →
  let r := channel_spec n reuse t (sys_queue s) R m o c in
  ∃ t' o' s' c' z,
    queue_send n kz reuse t s R m o c = Ret (Some (t', o', s', c', z)) ∧
    outcome_of r t m o c = (t', smc_mem (sys_smc s'), o', c', z) ∧
    slots_after (sys_queue s) (sys_queue s') c reuse r ∧
    smc_reg (sys_smc s') = R ∧ sys_pend s' = sys_pend s ∧ g_sys_crash s' = false.
Proof.
  intros Hq Hcr HR Hkz Hh Hl Hev Hserve r.
  set (x0 := sys_with_smc s (SmcState (sys_queue s) R m)).
  destruct (pending_round_trip kz (sys_pend s) Hkz Hh Hl) as (p & Ep & Hrel).
  set (x := sys_with_pend x0 p). pose proof (submit_spec reuse x c Hq HR Hev) as Hsub.
  assert (r = _) as -> by apply (channel_spec_sent n reuse t x o c).
  unfold queue_send, proc_tc_ns_smc. fold x0. change (g_sys_crash x0) with (g_sys_crash s).
  rewrite Hcr, (send_func_start kz (t, o) x0 c reuse n p Hkz Ep). fold x.
  unfold send_iter. cbn [st_s st_info st_cmd st_ops st_step st_w st_ret st_in].
  destruct (sent x c reuse) as [[[i c1] m1]|]; cbn [mbind option_bind].
  - destruct Hsub as (x1 & Hs & ->). rewrite ret_bind. change (nonzero 0) with false. cbv iota.
    destruct (Hserve m1 c1) as [[[[t' m'] o'] a] Ea]. rewrite Ea. cbn [mbind option_bind].
    destruct (served_call n kz t o x x1 i c1 m1 (first_cmd c reuse) (with_ca_pid c pid)
      t' m' o' a (sys_pend s) Hs HR Hrel Ea) as (x' & Hrun & Hset).
    rewrite Hrun. pose proof Hset as (_ & Hin & _ & _ & Ha & Hv & Hrg & Hm & Hp & Hc).
    exists t', o', x', a, (ret_val a). unfold slots_after; cbn [outcome_of]. rewrite Hm.
    split_and!; try done.
    + by apply (settled_quiet x x1 x' i c1 a m1 m' (sys_pend s)).
    + intros j Hj Hne. rewrite Hv by done. by apply Hs.
    + rewrite Hrg. by apply Hs.
    + rewrite Hc. rewrite (sub_crash _ _ _ _ _ Hs). done.
  - destruct Hsub as (x1 & info & Hf & ->). rewrite ret_bind.
    change (nonzero (- ENOMEM)) with true. cbv iota.
    rewrite (ref_pend _ _ _ _ Hf). change (sys_pend x) with p. rewrite Hrel, !ret_bind.
    eexists t, o, (sys_with_pend x1 (sys_pend s)), _, _. split; [done|].
    unfold slots_after; cbn [outcome_of].
    change (sys_smc (sys_with_pend x1 (sys_pend s))) with (sys_smc x1).
    rewrite (ref_mem _ _ _ _ Hf), (ref_reg _ _ _ _ Hf). split_and!; try done.
    + apply Hf.
    + apply Hf.
    + apply Hf.
    + change (g_sys_crash x1 = false). by rewrite (ref_crash _ _ _ _ Hf).
Qed.

(** ** The interface *)

(** The state of the channel between two calls; [pe_addr] is where the pending
    entry of a call is allocated. *)
Context (pe_addr : Z).

Record ready_ok (s : smc_sys) : Prop := {
  rdy_quiet : quiet (sys_queue s);
  rdy_up : g_sys_crash s = false;
  rdy_reg : reg_ok (smc_reg (sys_smc s));
  rdy_entry : pe_heap (sys_pend s) !! pe_addr = None ∧ pe_addr ∉ g_pending_head (sys_pend s)
}.

(** The bits of a slot between two calls. *)
Definition slot_quiet (q : tc_ns_smc_queue) (i : Z) : Prop :=
  doing_set q i = in_set q i ∧ out_set q i = false.

Lemma quiet_slots q :
  quiet q ↔ queue_wf q ∧ Forall (slot_quiet q) (seqZ 0 MAX_SMC_CMD).
Proof.
  rewrite Forall_forall. split.
  - intros [[Hwf Hf] Hu]. split; [done|]. intros i Hi%elem_of_seqZ.
    assert (valid_slot i) as Hv by (unfold valid_slot; lia). unfold slot_quiet.
    destruct (in_set q i) eqn:E; [by apply Hu|by apply Hf].
  - intros [Hwf H]. split; [split; [done|]|]; intros i Hi Hin;
      (destruct (H i) as [H1 H2]; [apply elem_of_seqZ; unfold valid_slot in Hi; lia|]);
      by rewrite H1, Hin.
Qed.

#[local] Instance quiet_dec q : Decision (quiet q).
Proof.
  refine (cast_if (decide (queue_wf q ∧ Forall (slot_quiet q) (seqZ 0 MAX_SMC_CMD))));
    by rewrite quiet_slots.
Defined.

#[local] Instance ready_ok_dec s : Decision (ready_ok s).
Proof.
  refine (cast_if (decide (quiet (sys_queue s) ∧ g_sys_crash s = false ∧
    reg_ok (smc_reg (sys_smc s)) ∧
    pe_heap (sys_pend s) !! pe_addr = None ∧ pe_addr ∉ g_pending_head (sys_pend s))));
    [by destruct_and!|by intros []; auto].
Defined.

End Channel.

(** What the driver relies on of the TEE: it leaves the driver's pointers in
    the shared operation and the slot number of a command alone, it asks for
    agents at most [core_fuel] times for a command, and it does not leave a
    command pending for ever. *)
Class TeeCoreLaws (T : Type) (TC : TeeCore T) := {
  core_keeps t m o c t' m' o' a :
    tee_run t m o c = (t', m', o', a) →
    op_sharemem o' = op_sharemem o ∧ op_mb_buffer o' = op_mb_buffer o;
  core_answer t m o c t' m' o' a :
    tee_run t m o c = (t', m', o', a) → event_nr a = event_nr c ∧ 0 ≤ ret_val a < 2 ^ 32;
  core_fuel : nat;
  core_serves t m o c : is_Some (tee_serve core_fuel t m o c);
  core_rank : T → nat;
  core_rank_dec t m o c t' m' o' a :
    tee_serve core_fuel t m o c = Some (t', m', o', a) → u32 (ret_val a) = TEEC_PENDING →
    (core_rank t' < core_rank t)%nat
}.

Section Interface.
Context {T : Type} {TC : TeeCore T} {TL : TeeCoreLaws T TC} {KT : KernelTime} {F : PhysMap}.
Context (pid pe_addr : Z).

(** The TEE and the SMC layer between two calls. *)
Record ready := Ready {
  rd_tee : T;
  rd_sys : smc_sys;
  rd_ok : ready_ok pe_addr rd_sys
}.

Definition rd_queue (e : ready) : tc_ns_smc_queue := sys_queue (rd_sys e).
Definition rd_reg (e : ready) : registry := smc_reg (sys_smc (rd_sys e)).

#[local] Existing Instance ready_ok_dec.

Lemma ready_sees s R :
  ready_ok pe_addr s → reg_ok R →
  ready_ok pe_addr (sys_with_smc s (SmcState (sys_queue s) R (smc_mem (sys_smc s)))).
Proof. by intros [] HR; split. Qed.

(** A call; a command that is sent again has to name a slot of the queue. *)
Definition ready_call (reuse : bool) (e : ready) (m : mem) (o : tc_ns_operation)
    (c : tc_ns_smc_cmd) : ready * mem * tc_ns_operation * tc_ns_smc_cmd * Z :=
  if reuse && negb (bool_decide (0 ≤ event_nr c < MAX_SMC_CMD))
  then (e, m, o, c, TEEC_ERROR_GENERIC)
  else
    match queue_send pid core_fuel pe_addr reuse (rd_tee e) (rd_sys e) (rd_reg e) m o c with
    | Ret (Some (t, o', s, c', z)) =>
        match decide (ready_ok pe_addr s) with
        | left H => (Ready t s H, smc_mem (sys_smc s), o', c', z)
        | right _ => (e, m, o, c, TEEC_ERROR_GENERIC)
        end
    | _ => (e, m, o, c, TEEC_ERROR_GENERIC)
    end.

Lemma ready_call_spec (reuse : bool) (e : ready) m o c :
  16 < pe_addr → (reuse = true → valid_slot (event_nr c)) →
  let r := channel_spec pid core_fuel reuse (rd_tee e) (rd_queue e) (rd_reg e) m o c in
  ∃ e' m' o' c' z,
    queue_send pid core_fuel pe_addr reuse (rd_tee e) (rd_sys e) (rd_reg e) m o c
      = Ret (Some (rd_tee e', o', rd_sys e', c', z)) ∧
    ready_call reuse e m o c = (e', m', o', c', z) ∧
    outcome_of pid r (rd_tee e) m o c = (rd_tee e', m', o', c', z) ∧
    slots_after (rd_queue e) (rd_queue e') c reuse r ∧
    rd_reg e' = rd_reg e ∧ sys_pend (rd_sys e') = sys_pend (rd_sys e).
Proof.
  intros Hpe Hev r. destruct (rd_ok e) as [Hq Hup HR [Hh Hl]].
  destruct (queue_send_spec pid core_fuel pe_addr reuse (rd_tee e) (rd_sys e) (rd_reg e) m o c)
    as (t' & o' & s' & c' & z & E & Ho & Hs & Hr & Hp & Hc); try done.
  { intros m1 c1. apply core_serves. }
  assert (ready_ok pe_addr s') as Hok.
  { split; [apply Hs|done|by rewrite Hr|by rewrite Hp]. }
  assert (reuse && negb (bool_decide (0 ≤ event_nr c < MAX_SMC_CMD)) = false) as Hg.
  { destruct reuse; [|done]. by rewrite bool_decide_true by (by apply Hev). }
  unfold ready_call. rewrite Hg, E.
  destruct (decide (ready_ok pe_addr s')) as [H|H]; [|by destruct H].
  by exists (Ready t' s' H), (smc_mem (sys_smc s')), o', c', z.
Qed.

(** The interface of the SMC layer, implemented by the queue. *)
Definition queue_channel : SmcChannel ready := {|
  smc_sees e R :=
    match decide (reg_ok R) with
    | left HR => Ready (rd_tee e) _ (ready_sees (rd_sys e) R (rd_ok e) HR)
    | right _ => e
    end;
  tc_ns_smc := ready_call false;
  tc_ns_smc_with_no_nr := ready_call true
|}.

(** C12. The queue implements the channel its callers are proved against.  With
    nobody else using the queue, a call, new or sent again, ends; the TEE, the
    memory and the operation it shares, the caller's command block and the
    result are those of the reference definition, that is, of running the TEE
    on the command with its slot number, timestamp and checksum until its
    agents are served; a call without a slot or with a refused timestamp
    changes nothing and returns [TEEC_ERROR_GENERIC].  The slot is free again
    unless the answer is pending, no other slot has changed, the pending list
    and the registry are as before, and the queue is ready for the next call. *)
Theorem queue_implements_channel (reuse : bool) (e : ready) m o c :
  16 < pe_addr → (reuse = true → valid_slot (event_nr c)) →
  let r := channel_spec pid core_fuel reuse (rd_tee e) (rd_queue e) (rd_reg e) m o c in
  ∃ e' m' o' c' z,
    queue_send pid core_fuel pe_addr reuse (rd_tee e) (rd_sys e) (rd_reg e) m o c
      = Ret (Some (rd_tee e', o', rd_sys e', c', z)) ∧
    (if reuse then tc_ns_smc_with_no_nr (SmcChannel := queue_channel)
     else tc_ns_smc (SmcChannel := queue_channel)) e m o c = (e', m', o', c', z) ∧
    outcome_of pid r (rd_tee e) m o c = (rd_tee e', m', o', c', z) ∧
    slots_after (rd_queue e) (rd_queue e') c reuse r ∧
    rd_reg e' = rd_reg e ∧ sys_pend (rd_sys e') = sys_pend (rd_sys e).
Proof.
  intros Hpe Hev r. destruct (ready_call_spec reuse e m o c Hpe Hev) as (e' & m' & o' & c' & z & H).
  exists e', m', o', c', z. by destruct reuse.
Qed.

End Interface.

(** ** Example *)

(** A TEE that first asks for an agent, then writes to the memory and leaves
    the command pending, and answers when it is sent again. *)
Definition step_core : TeeCore nat := {|
  tee_run t m o c :=
    let a r := with_event_nr (demo_reply r) (event_nr c) in
    match t with
    | 2%nat => (1%nat, m, o, a TEEC_PENDING2)
    | 1%nat => (0%nat, <[100 := 7]> m, o, a TEEC_PENDING)
    | _ => (0%nat, m, o, a TEEC_SUCCESS)
    end;
  agent_work t _ _ := t
|}.

#[export] Instance step_core_laws : TeeCoreLaws nat step_core.
Proof.
  refine {| core_fuel := 1%nat; core_rank := λ t, if (t <=? 2)%nat then t else 0%nat |}.
  - intros [|[|[|t]]] m o c t' m' o' a; by intros [= <- <- <- <-].
  - intros [|[|[|t]]] m o c t' m' o' a; by intros [= <- <- <- <-].
  - intros [|[|[|t]]] m o c; by eexists.
  - intros [|[|[|t]]] m o c t' m' o' a; intros [= <- <- <- <-]; simpl; done || lia.
Defined.

Lemma init_queue_quiet : quiet init_queue.
Proof.
  split; [apply init_queue_clean|]. intros i _. unfold in_set. cbn [init_queue in_bitmap].
  by rewrite Z.testbit_0_l.
Qed.

Lemma demo_ready_ok : ready_ok 100 demo_sys.
Proof.
  split; [apply init_queue_quiet|done|apply demo_sys_reg_ok|]. split; [done|apply not_elem_of_nil].
Qed.

Definition demo_ready : ready (T := nat) 100 := Ready 100 2%nat demo_sys demo_ready_ok.

Abbreviation demo_channel := (queue_channel (TC := step_core) (KT := hz100) (F := linear_phys) 42 100).

(** A new command that is left pending in slot 0, and then is sent again. *)
Lemma queue_implements_channel_witness :
  ∃ e1 c1 e2 c2,
    tc_ns_smc (SmcChannel := demo_channel) demo_ready ∅ zero_operation demo_req
      = (e1, {[ 100 := 7 ]}, zero_operation, c1, TEEC_PENDING) ∧
    in_set (rd_queue 100 e1) 0 = true ∧
    tc_ns_smc_with_no_nr (SmcChannel := demo_channel) e1 {[ 100 := 7 ]} zero_operation c1
      = (e2, {[ 100 := 7 ]}, zero_operation, c2, TEEC_SUCCESS) ∧
    in_set (rd_queue 100 e2) 0 = false.
Proof.
  assert (channel_spec (TC := step_core) (F := linear_phys) 42 (core_fuel (TeeCoreLaws := step_core_laws)) false (rd_tee 100 demo_ready)
    (rd_queue 100 demo_ready) (rd_reg 100 demo_ready) ∅ zero_operation demo_req
    = Some (0, 0%nat, {[ 100 := 7 ]}, zero_operation, with_event_nr (demo_reply TEEC_PENDING) 0)) as Er1
    by (vm_compute; reflexivity).
  destruct (queue_implements_channel (TC := step_core) (KT := hz100) (F := linear_phys) 42 100
    false demo_ready ∅ zero_operation demo_req ltac:(lia) ltac:(discriminate))
    as (e1 & m1 & o1 & c1 & z1 & _ & E1 & H1 & Hs1 & Hr1 & _).
  rewrite Er1 in H1, Hs1. unfold outcome_of in H1. injection H1 as Ht1 <- <- <- <-.
  destruct Hs1 as (Hq1 & Hin1 & Ho1 & _).
  destruct (queue_implements_channel (TC := step_core) (KT := hz100) (F := linear_phys) 42 100
    true e1 {[ 100 := 7 ]} zero_operation (with_event_nr (demo_reply TEEC_PENDING) 0) ltac:(lia)
    (λ _, conj (Z.le_refl 0) eq_refl))
    as (e2 & m2 & o2 & c2 & z2 & _ & E2 & H2 & (_ & Hs2) & _).
  assert (chosen 42 (rd_queue 100 e1) (with_event_nr (demo_reply TEEC_PENDING) 0) true
    = Some (0, with_event_nr (demo_reply TEEC_PENDING) 0)) as Ech.
  { unfold chosen. change (event_nr (with_event_nr (demo_reply TEEC_PENDING) 0)) with 0.
    destruct (proj2 Hq1 0 (conj (Z.le_refl 0) eq_refl) Hin1) as [-> _].
    rewrite Hin1, Ho1. reflexivity. }
  assert (channel_spec (TC := step_core) (F := linear_phys) 42 (core_fuel (TeeCoreLaws := step_core_laws)) true (rd_tee 100 e1) (rd_queue 100 e1)
    (rd_reg 100 e1) {[ 100 := 7 ]} zero_operation (with_event_nr (demo_reply TEEC_PENDING) 0)
    = Some (0, 0%nat, {[ 100 := 7 ]}, zero_operation, with_event_nr (demo_reply TEEC_SUCCESS) 0)) as Er2
    by (unfold channel_spec; rewrite Ech, Hr1, <- Ht1; vm_compute; reflexivity).
  rewrite Er2 in H2, Hs2. unfold outcome_of in H2. injection H2 as _ <- <- <- <-.
  destruct Hs2 as [Hin2 _]. exists e1. eexists _, e2, _. split; [exact E1|].
  split; [exact Hin1|]. split; [exact E2|exact Hin2].
Defined.
