(* ===== verification/SmcReport.v ===== *)
(** * Crash reports, and what the driver asks of the calling task
      (core/smc_smp.c)

    When the TEE crashes, the three result registers of the SMC carry a packed
    message that [print_crash_msg] unpacks and logs.  A [%s] of the log reads
    up to a NUL; [c_string] is [None] when there is none in the object, so that
    a report that reads past the registers is no report. *)

From stdpp Require Import base gmap list strings.
From Stdlib Require Import ZArith Lia.
From S2P Require Import Prelude KernelApi Buffers SmcSend.

Definition LOW_BYTE : Z := 0xF.
Definition KERNEL_INDEX : Z := 5.
Definition SYM_NAME_LEN_MAX : Z := 16.
Definition SYM_NAME_LEN_1 : Z := 7.
Definition SYM_NAME_LEN_2 : Z := 4.
Definition PREEMPT_COUNT : Z := 10000.

(** ** The crash message *)

(** The 24 bytes of [union crash_inf], by its registers (little-endian). *)
Definition crash_regs (r0 r1 r2 : Z) : list Z := le_bytes 8 r0 ++ le_bytes 8 r1 ++ le_bytes 8 r2.

(** The fields of [crash_msg] in these bytes; [halt_reason] and [app] are
    bit fields of the first one. *)
Definition msg_halt_reason (b : list Z) : Z := nth 0 b 0 mod 16.
Definition msg_app (b : list Z) : Z := nth 0 b 0 / 16.
Definition msg_off (b : list Z) : Z := le_value (sub_buf b 8 2).
Definition msg_size (b : list Z) : Z := le_value (sub_buf b 10 2).
Definition msg_far (b : list Z) : Z := le_value (sub_buf b 12 4).
Definition msg_fault (b : list Z) : Z := le_value (sub_buf b 16 4).
Definition msg_elr (b : list Z) : Z := le_value (sub_buf b 20 4).
Definition crash_reg2 (b : list Z) : Z := le_value (sub_buf b 16 8).

Fixpoint c_string (l : list Z) : option (list Z) :=
  match l with
  | [] => None
  | b :: l => if b =? 0 then Some [] else cons b <$> c_string l
  end.

(** The lines of the log. *)
Inductive log_line :=
| IndexError (app : Z)
| KernelCrash (name : string) (sym : list Z) (off size : Z)
| KernelHalt (halt_reason far fault elr ret_ip : Z)
| AppCrash (name : string) (sym : list Z) (off size : Z)
| AppFault (far fault : Z)
| MemcpyFailed.

Definition tee_critical_app : list string :=
  ["gtask"; "teesmcmgr"; "hmsysmgr"; "hmfilemgr"; "platdrv"; "kernel"; "vltmm_service";
   "tee_drv_server"]%string.

Section Crash.
Context {SB : SecureBuf}.

(** The log and the message, whose [off] is cleared: it ends [sym_name]. *)
Definition print_crash_msg (b : list Z) : option (list log_line * list Z) :=
  let off := msg_off b in
  let app_index := Z.land (msg_app b) LOW_BYTE in
  let halt_reason := msg_halt_reason b in
  let b := splice b 8 [0; 0] in
  let known := (0 <=? app_index) && (app_index <? Z.of_nat (length tee_critical_app)) in
  let crash_app_name :=
    if known then nth (Z.to_nat app_index) tee_critical_app "NULL"%string else "NULL"%string in
  let log := if known then [] else [IndexError (msg_app b)] in
  if app_index =? KERNEL_INDEX then
    sym ← c_string (drop 1 b);
    Some (log ++ [KernelCrash crash_app_name sym off (msg_size b);
                  KernelHalt halt_reason (msg_far b) (msg_fault b) (msg_elr b) (crash_reg2 b)], b)
  else
    let syms := replicate (Z.to_nat SYM_NAME_LEN_MAX) 0 in
    let '(r1, syms) := buf_copy syms 0 SYM_NAME_LEN_MAX b 1 SYM_NAME_LEN_1 in
    let '(r2, syms) :=
      buf_copy syms SYM_NAME_LEN_1 (SYM_NAME_LEN_MAX - SYM_NAME_LEN_1) b 20 SYM_NAME_LEN_2 in
    sym ← c_string syms;
    Some (log ++ (if nonzero r1 then [MemcpyFailed] else [])
            ++ (if nonzero r2 then [MemcpyFailed] else [])
            ++ [AppCrash crash_app_name sym off (msg_size b); AppFault (msg_far b) (msg_fault b)], b).

(** The report of [smp_smc_send_process]. *)
Definition crash_report (r : smc_cmd_ret) : option (list log_line) :=
  fst <$> print_crash_msg (crash_regs (cr_exit r) (cr_ta r) (cr_target r)).

End Crash.

(** ** The calling task *)

Definition SIGKILL : Z := 9.
Definition SIGUSR1 : Z := 10.

(** The signals pending for the thread, those pending for its process (if it
    still has a [signal]), and its name. *)
Record task_struct := Task {
  task_pending : gset Z;
  shared_pending : option (gset Z);
  task_comm : string
}.

Definition sigkill_pending (tsk : option task_struct) : bool :=
  match tsk with
  | None => false
  | Some t =>
      let flag := bool_decide (SIGKILL ∈ task_pending t) || bool_decide (SIGUSR1 ∈ task_pending t) in
      match shared_pending t with
      | Some s => flag || bool_decide (SIGKILL ∈ s)
      | None => flag
      end
  end.

Definition is_ca_killed (current : task_struct) : bool := sigkill_pending (Some current).

Definition g_hungtask_monitor_list : list string := [].

Fixpoint hungtask_loop (l : list string) (comm : string) : bool :=
  match l with
  | [] => false
  | x :: l => if bool_decide (comm = x) then true else hungtask_loop l comm
  end.

Definition is_tee_hungtask (task : option task_struct) : bool :=
  match task with
  | None => false
  | Some t => hungtask_loop g_hungtask_monitor_list (task_comm t)
  end.

(** ** A preempted shadow thread *)

(** [n_preempted] and [n_idled]. *)
Definition set_preempted_counter (n_preempted n_idled : Z) : Z * Z :=
  let n_preempted := s32 (n_preempted + 1) in
  (if PREEMPT_COUNT <? n_preempted then 0 else n_preempted, 0).

(** * Crash reports are complete and in bounds

    Whatever the registers hold, they are the packing of one message, and the
    report prints its fields and its symbol name, never reading past them. *)

(** ** Messages *)

Record crash_msg := CrashMsg {
  cm_halt : Z;
  cm_app : Z;
  cm_sym : list Z;
  cm_off : Z;
  cm_size : Z;
  cm_far : Z;
  cm_fault : Z;
  cm_append : list Z
}.

(** Each field has its width. *)
Record msg_typed (m : crash_msg) : Prop := {
  ty_halt : 0 ≤ cm_halt m < 2 ^ 4;
  ty_app : 0 ≤ cm_app m < 2 ^ 4;
  ty_sym : length (cm_sym m) = 7%nat ∧ Forall is_byte (cm_sym m);
  ty_off : 0 ≤ cm_off m < 2 ^ 16;
  ty_size : 0 ≤ cm_size m < 2 ^ 16;
  ty_far : 0 ≤ cm_far m < 2 ^ 32;
  ty_fault : 0 ≤ cm_fault m < 2 ^ 32;
  ty_append : length (cm_append m) = 4%nat ∧ Forall is_byte (cm_append m)
}.

(** How the TEE packs it. *)
Definition pack (m : crash_msg) : list Z :=
  [cm_halt m + 16 * cm_app m] ++ cm_sym m ++ le_bytes 2 (cm_off m) ++ le_bytes 2 (cm_size m)
    ++ le_bytes 4 (cm_far m) ++ le_bytes 4 (cm_fault m) ++ cm_append m.

Fixpoint until_nul (l : list Z) : list Z :=
  match l with [] => [] | b :: l => if b =? 0 then [] else b :: until_nul l end.

(** What the log should say. *)
Definition report (m : crash_msg) : list log_line :=
  let name := nth (Z.to_nat (cm_app m)) tee_critical_app "NULL"%string in
  (if cm_app m <? 8 then [] else [IndexError (cm_app m)]) ++
  if cm_app m =? KERNEL_INDEX
  then [KernelCrash name (until_nul (cm_sym m)) (cm_off m) (cm_size m);
        KernelHalt (cm_halt m) (cm_far m) (cm_fault m) (le_value (cm_append m))
          (cm_fault m + 2 ^ 32 * le_value (cm_append m))]
  else [AppCrash name (until_nul (cm_sym m ++ cm_append m)) (cm_off m) (cm_size m);
        AppFault (cm_far m) (cm_fault m)].

Lemma c_string_nul l k : c_string (l ++ 0 :: k) = Some (until_nul l).
Proof.
  induction l as [|b l IH]; simpl; [done|]. destruct (b =? 0); [done|]. by rewrite IH.
Qed.

(** The message that [l] packs. *)
Definition unpack (l : list Z) : crash_msg :=
  CrashMsg (msg_halt_reason l) (msg_app l) (sub_buf l 1 7) (msg_off l) (msg_size l) (msg_far l)
    (msg_fault l) (sub_buf l 20 4).

Lemma sub_bytes l o n : Forall is_byte l → Forall is_byte (sub_buf l o n).
Proof. intros H. by apply Forall_take, Forall_drop. Qed.

Lemma field_range l o n : Forall is_byte l → 0 ≤ n → (Z.to_nat o + Z.to_nat n ≤ length l)%nat →
  0 ≤ le_value (sub_buf l o n) < 256 ^ n.
Proof.
  intros H Hn Hl. pose proof (le_value_range _ (sub_bytes l o n H)) as Hr.
  unfold sub_buf in *. rewrite length_take, length_drop in Hr.
  replace (Z.of_nat _) with n in Hr by lia. done.
Qed.

(** Every content of the registers packs a well-typed message. *)
Lemma unpack_ok l :
  length l = 24%nat → Forall is_byte l → msg_typed (unpack l) ∧ pack (unpack l) = l.
Proof.
  intros Hl Hb. split.
  - assert (is_byte (nth 0 l 0)) as H0.
    { destruct l; [done|]. by inversion Hb. }
    unfold is_byte in H0.
    split; cbn [unpack cm_halt cm_app cm_sym cm_off cm_size cm_far cm_fault cm_append];
      unfold msg_halt_reason, msg_app, msg_off, msg_size, msg_far, msg_fault.
    + apply Z.mod_pos_bound. lia.
    + split; [apply Z.div_pos; lia|apply Z.div_lt_upper_bound; lia].
    + split; [|by apply sub_bytes]. unfold sub_buf. rewrite length_take, length_drop. lia.
    + apply (field_range l 8 2); [done|lia|lia].
    + apply (field_range l 10 2); [done|lia|lia].
    + apply (field_range l 12 4); [done|lia|lia].
    + apply (field_range l 16 4); [done|lia|lia].
    + split; [|by apply sub_bytes]. unfold sub_buf. rewrite length_take, length_drop. lia.
  - do 24 (destruct l as [|? l]; [done|]). destruct l; [|done]. clear Hl.
    unfold pack, unpack. cbn [cm_halt cm_app cm_sym cm_off cm_size cm_far cm_fault cm_append].
    unfold msg_halt_reason, msg_app, msg_off, msg_size, msg_far, msg_fault.
    pose proof (sub_bytes _ 8 2 Hb) as H1. pose proof (sub_bytes _ 10 2 Hb) as H2.
    pose proof (sub_bytes _ 12 4 Hb) as H3. pose proof (sub_bytes _ 16 4 Hb) as H4.
    rewrite (le_bytes_value _ H1 : le_bytes 2 _ = _), (le_bytes_value _ H2 : le_bytes 2 _ = _).
    rewrite (le_bytes_value _ H3 : le_bytes 4 _ = _), (le_bytes_value _ H4 : le_bytes 4 _ = _).
    cbn. f_equal. rewrite Z.add_comm. symmetry. apply Z.div_mod. lia.
Qed.

Lemma le_value_app l k :
  le_value (l ++ k) = le_value l + 256 ^ Z.of_nat (length l) * le_value k.
Proof.
  induction l as [|b l IH]; cbn [app le_value length]; [lia|].
  rewrite IH, Nat2Z.inj_succ, Z.pow_succ_r by lia. lia.
Qed.

Section Report.
Context {SB : SecureBuf} {SBL : SecureBufLaws SB}.

(** The bytes of a message in terms of its fields. *)
Lemma pack_fields m :
  msg_typed m →
  msg_halt_reason (pack m) = cm_halt m ∧ msg_app (pack m) = cm_app m ∧
  msg_off (pack m) = cm_off m ∧
  let b := splice (pack m) 8 [0; 0] in
  msg_app b = cm_app m ∧ msg_size b = cm_size m ∧ msg_far b = cm_far m ∧
  msg_fault b = cm_fault m ∧ msg_elr b = le_value (cm_append m) ∧
  crash_reg2 b = cm_fault m + 2 ^ 32 * le_value (cm_append m) ∧
  drop 1 b = cm_sym m ++ 0 :: drop 9 b ∧
  sub_buf b 1 7 = cm_sym m ∧ sub_buf b 20 4 = cm_append m.
Proof.
  intros [Hh Ha [Hls _] Ho Hs Hf Hft [Hla _]]. destruct m as [h a sym o sz far ft app].
  cbn [cm_halt cm_app cm_sym cm_off cm_size cm_far cm_fault cm_append] in *.
  do 7 (destruct sym as [|? sym]; [done|]). destruct sym; [|done].
  do 4 (destruct app as [|? app]; [done|]). destruct app; [|done].
  unfold pack, msg_halt_reason, msg_app, msg_off, msg_size, msg_far, msg_fault, msg_elr, crash_reg2.
  cbn [cm_halt cm_app cm_sym cm_off cm_size cm_far cm_fault cm_append app nth].
  rewrite (Z.add_comm h), (Z.mul_comm 16), Z.add_comm.
  rewrite Z.mod_add, Z.mod_small, Z.div_add, Z.div_small by lia.
  pose proof (le_value_bytes 2 o Ho) as Eo. pose proof (le_value_bytes 2 sz Hs) as Es.
  pose proof (le_value_bytes 4 far Hf) as Ef. pose proof (le_value_bytes 4 ft Hft) as Et.
  cbn in Eo, Es, Ef, Et. cbn.
  split_and!; try done; try lia.
  - change ((h + a * 16) / 16 = a). rewrite Z.div_add, Z.div_small by lia. done.
  - etrans; [exact (le_value_app (le_bytes 4 ft) [_; _; _; _])|].
    rewrite (le_value_bytes 4 ft Hft). done.
Qed.

(** The report of a message. *)
Lemma print_pack m : msg_typed m → fst <$> print_crash_msg (pack m) = Some (report m).
Proof.
  intros Hm. destruct (pack_fields m Hm) as (E1 & E2 & E3 & F1 & F2 & F3 & F4 & F5 & F6 & F7 & F8 & F9).
  destruct Hm as [_ Ha [Hls _] _ _ _ _ [Hla _]].
  unfold print_crash_msg, report. cbv zeta. rewrite E1, E2, E3, F1, F2, F3, F4, F5, F6, F7.
  assert (Z.land (cm_app m) LOW_BYTE = cm_app m) as ->.
  { change LOW_BYTE with (Z.ones 4). rewrite Z.land_ones by lia. by apply Z.mod_small. }
  change (Z.of_nat (length tee_critical_app)) with 8.
  rewrite (proj2 (Z.leb_le 0 (cm_app m))) by lia. cbn [andb].
  assert ((if cm_app m <? 8 then nth (Z.to_nat (cm_app m)) tee_critical_app "NULL"%string
           else "NULL"%string) = nth (Z.to_nat (cm_app m)) tee_critical_app "NULL"%string) as ->.
  { destruct (Z.ltb_spec (cm_app m) 8); [done|]. rewrite nth_overflow; [done|].
    change (length tee_critical_app) with 8%nat. lia. }
  destruct (cm_app m =? KERNEL_INDEX); [by rewrite c_string_nul|].
  rewrite buf_copy_ok by (unfold SYM_NAME_LEN_MAX, SYM_NAME_LEN_1, SECUREC_MEM_MAX_LEN; lia).
  change (sub_buf _ 1 SYM_NAME_LEN_1) with (sub_buf (splice (pack m) 8 [0; 0]) 1 7). rewrite F8.
  rewrite buf_copy_ok
    by (unfold SYM_NAME_LEN_MAX, SYM_NAME_LEN_1, SYM_NAME_LEN_2, SECUREC_MEM_MAX_LEN; lia).
  change (sub_buf _ 20 SYM_NAME_LEN_2) with (sub_buf (splice (pack m) 8 [0; 0]) 20 4). rewrite F9.
  change (nonzero EOK) with false. cbv iota.
  assert (splice (splice (replicate (Z.to_nat SYM_NAME_LEN_MAX) 0) 0 (cm_sym m)) SYM_NAME_LEN_1
            (cm_append m) = (cm_sym m ++ cm_append m) ++ 0 :: replicate 4 0) as ->.
  { destruct (cm_sym m) as [|? l]; [done|]. do 6 (destruct l as [|? l]; [done|]).
    destruct l; [|done]. destruct (cm_append m) as [|? k]; [done|].
    do 3 (destruct k as [|? k]; [done|]). by destruct k. }
  by rewrite c_string_nul.
Qed.

Lemma until_nul_length l : (length (until_nul l) ≤ length l)%nat.
Proof. induction l as [|b l IH]; simpl; [lia|]. destruct (b =? 0); simpl; lia. Qed.

Lemma crash_regs_bytes a b c :
  length (crash_regs a b c) = 24%nat ∧ Forall is_byte (crash_regs a b c).
Proof.
  unfold crash_regs. split; [by rewrite !length_app, !le_bytes_length|].
  rewrite !Forall_app. auto using le_bytes_are_bytes.
Qed.

(** C40. Whatever the crashed TEE leaves in the three result registers is the
    packing of a message whose fields have their widths, and the driver's
    report names exactly its application, symbol, offset, size and fault
    addresses: no table is read out of bounds and no string past its buffer,
    because the offset behind the symbol name is cleared before it is printed. *)
Theorem crash_report_typed r :
  ∃ m, msg_typed m ∧ crash_regs (cr_exit r) (cr_ta r) (cr_target r) = pack m ∧
    crash_report r = Some (report m) ∧
    Forall (λ x, match x with
                 | KernelCrash _ sym _ _ => (length sym ≤ 7)%nat
                 | AppCrash _ sym _ _ => (length sym ≤ 11)%nat
                 | _ => True
                 end) (report m).
Proof.
  destruct (crash_regs_bytes (cr_exit r) (cr_ta r) (cr_target r)) as [Hl Hb].
  destruct (unpack_ok _ Hl Hb) as [Ht Hp].
  exists (unpack (crash_regs (cr_exit r) (cr_ta r) (cr_target r))).
  split; [done|]. split; [done|]. split.
  { unfold crash_report. rewrite <- Hp at 1. by apply print_pack. }
  destruct (ty_sym _ Ht) as [H7 _], (ty_append _ Ht) as [H4 _]. set (m := unpack _) in *.
  pose proof (until_nul_length (cm_sym m)).
  pose proof (until_nul_length (cm_sym m ++ cm_append m)) as H11. rewrite length_app in H11.
  unfold report. apply Forall_app. split.
  - destruct (cm_app m <? 8); [by apply Forall_nil_2|by apply Forall_singleton].
  - destruct (cm_app m =? KERNEL_INDEX); (apply Forall_cons_2; [lia|by apply Forall_singleton]).
Qed.

End Report.

(** A crash of the kernel with a symbol name of full length. *)
Example kernel_crash_reported :
  crash_report (SB := bounds_buf) (CmdRet 0x6d6c6b6a69686755 0x0000100000200010 0x12345678000000ff)
    = Some [KernelCrash "kernel"%string [0x67; 0x68; 0x69; 0x6a; 0x6b; 0x6c; 0x6d] 0x10 0x20;
            KernelHalt 5 0x1000 0xff 0x12345678 0x12345678000000ff].
Proof. reflexivity. Qed.

Lemma crash_report_typed_witness :
  ∃ m, msg_typed m ∧ cm_app m = KERNEL_INDEX ∧
    crash_report (SB := bounds_buf)
      (CmdRet 0x6d6c6b6a69686755 0x0000100000200010 0x12345678000000ff) = Some (report m).
Proof.
  destruct (crash_report_typed (SB := bounds_buf)
    (CmdRet 0x6d6c6b6a69686755 0x0000100000200010 0x12345678000000ff)) as (m & Ht & Hp & Hr & _).
  exists m. split; [exact Ht|]. split; [|exact Hr].
  destruct Ht as [Hh Ha _ _ _ _ _ _]. injection Hp as Hb _. unfold KERNEL_INDEX.
  change (85 = cm_halt m + 16 * cm_app m) in Hb. lia.
Defined.

(** ** Counters and signals *)

(** The counter of a shadow thread never overflows. *)
Lemma preempted_counter_bounded a b :
  0 ≤ a ≤ PREEMPT_COUNT → 0 ≤ (set_preempted_counter a b).1 ≤ PREEMPT_COUNT.
Proof.
  intros H. unfold set_preempted_counter, PREEMPT_COUNT in *. rewrite s32_small by lia.
  destruct (Z.ltb_spec 10000 (a + 1)); simpl; lia.
Qed.

(** A SIGUSR1 sent to the process and not to the thread is not noticed. *)
Lemma shared_sigusr1_ignored t s :
  shared_pending t = Some s → SIGKILL ∉ s → task_pending t = ∅ → is_ca_killed t = false.
Proof.
  intros Hs Hk Hp. unfold is_ca_killed, sigkill_pending. rewrite Hs, Hp.
  rewrite !bool_decide_false by set_solver. done.
Qed.
