(* ===== verification/GpParams.v ===== *)
(** * Parameters of a GP operation (core/gp_ops.c)

    The parameter-type predicates, the check of a user's parameters, and the
    routines that move one parameter between the client and the mailbox: the
    allocation before a call and the update of the client after it.  They are
    written against the interfaces of the mailbox pool ([BlockAllocator]) and
    of the client's memory. *)

From stdpp Require Import base gmap list.
From Stdlib Require Import ZArith Lia.
From S2P Require Import Prelude KernelApi TeeTypes Buffers Mailbox MailboxClaims SessReg.
From S2P Require Import SessLookup CallTypes Auth AuthCall.

Definition MAX_SHARED_SIZE : Z := 0x100000.
Definition INPUT : Z := 0.
Definition OUTPUT : Z := 1.
Definition INOUT : Z := 2.

(** ** Parameter types *)

Definition is_input_type (dir : Z) : bool := (dir =? INPUT) || (dir =? INOUT).
Definition is_output_type (dir : Z) : bool := (dir =? OUTPUT) || (dir =? INOUT).

Definition teec_value_type (ty dir : Z) : bool :=
  (is_input_type dir && (ty =? TEEC_VALUE_INPUT))
  || (is_output_type dir && (ty =? TEEC_VALUE_OUTPUT))
  || (ty =? TEEC_VALUE_INOUT).

Definition teec_tmpmem_type (ty dir : Z) : bool :=
  (is_input_type dir && (ty =? TEEC_MEMREF_TEMP_INPUT))
  || (is_output_type dir && (ty =? TEEC_MEMREF_TEMP_OUTPUT))
  || (ty =? TEEC_MEMREF_TEMP_INOUT).

Definition teec_memref_type (ty dir : Z) : bool :=
  (is_input_type dir && (ty =? TEEC_MEMREF_PARTIAL_INPUT))
  || (is_output_type dir && (ty =? TEEC_MEMREF_PARTIAL_OUTPUT))
  || (ty =? TEEC_MEMREF_PARTIAL_INOUT).

Definition is_tmp_mem (ty : Z) : bool :=
  (ty =? TEEC_MEMREF_TEMP_INPUT) || (ty =? TEEC_MEMREF_TEMP_OUTPUT)
  || (ty =? TEEC_MEMREF_TEMP_INOUT).

Definition is_ref_mem (ty : Z) : bool :=
  (ty =? TEEC_MEMREF_PARTIAL_INPUT) || (ty =? TEEC_MEMREF_PARTIAL_OUTPUT)
  || (ty =? TEEC_MEMREF_PARTIAL_INOUT).

Definition is_val_param (ty : Z) : bool :=
  (ty =? TEEC_VALUE_INPUT) || (ty =? TEEC_VALUE_OUTPUT) || (ty =? TEEC_VALUE_INOUT)
  || (ty =? TEEC_ION_INPUT) || (ty =? TEEC_ION_SGLIST_INPUT).

Definition is_ion_param (ty : Z) : bool :=
  (ty =? TEEC_ION_INPUT) || (ty =? TEEC_ION_SGLIST_INPUT).

Definition is_mem_param (ty : Z) : bool := is_tmp_mem ty || is_ref_mem ty.

(** ** The parameters of a user client *)

(** [access_ok] and [get_user] of a 32-bit word; the code ignores the status of
    [get_user], which then yields 0. *)
Class UserAccess := {
  access_ok : Z → Z → bool;
  get_user_u32 : mem → Z → Z
}.

Definition client_param_at (c : tc_ns_client_context) (index : Z) : tc_ns_client_param :=
  nth (Z.to_nat index) (ctx_params c) (ClientParam 0 0 0).

Section UserParams.
Context {UA : UserAccess}.

Definition check_user_param (client_context : option tc_ns_client_context) (index : Z) : Z :=
  match client_context with
  | None => - EINVAL
  | Some _ => if PARAM_NUM <=? index then - EINVAL else 0
  end.

Definition is_usr_refmem_valid (m : mem) (p : tc_ns_client_param) : bool :=
  access_ok (cp_size_addr p) 4
  && access_ok (cp_buffer p) (get_user_u32 m (cp_size_addr p)).

Definition is_usr_valmem_valid (p : tc_ns_client_param) : bool :=
  access_ok (cp_a_addr p) 4 && access_ok (cp_b_addr p) 4.

Definition tc_user_param_valid (m : mem) (client_context : option tc_ns_client_context)
    (index : Z) : bool :=
  if nonzero (check_user_param client_context index) then false
  else
    match client_context with
    | None => false
    | Some c =>
        let p := client_param_at c index in
        let ty := teec_param_type_get (ctx_param_types c) index in
        if ty =? TEEC_NONE then true
        else if is_mem_param ty then is_usr_refmem_valid m p
        else if is_val_param ty then is_usr_valmem_valid p
        else false
    end.

End UserParams.

(** ** The state of a call *)

Record call_state (Env St : Type) := CallState {
  cs_env : Env;
  cs_pool : St;
  cs_mem : mem;
  cs_reg : registry;
  cs_op : tc_op_params;
  cs_tzmp_uid : Z
}.
Arguments CallState {Env St}.
Arguments cs_env {Env St}.
Arguments cs_pool {Env St}.
Arguments cs_mem {Env St}.
Arguments cs_reg {Env St}.
Arguments cs_op {Env St}.
Arguments cs_tzmp_uid {Env St}.

(** ** Updates of the shared operation *)

Definition set_param (o : tc_ns_operation) (i : nat) (p : tc_ns_parameter) : tc_ns_operation :=
  NsOperation (op_paramtypes o) (<[i := p]> (op_params o)) (op_buffer_h_addr o)
    (op_sharemem o) (op_mb_buffer o).

Definition set_h_addr (o : tc_ns_operation) (i : nat) (h : Z) : tc_ns_operation :=
  NsOperation (op_paramtypes o) (op_params o) (<[i := h]> (op_buffer_h_addr o))
    (op_sharemem o) (op_mb_buffer o).

Definition set_sharemem (o : tc_ns_operation) (i : nat) (x : Z) : tc_ns_operation :=
  NsOperation (op_paramtypes o) (op_params o) (op_buffer_h_addr o)
    (<[i := x]> (op_sharemem o)) (op_mb_buffer o).

Definition set_mb_buffer (o : tc_ns_operation) (i : nat) (x : Z) : tc_ns_operation :=
  NsOperation (op_paramtypes o) (op_params o) (op_buffer_h_addr o)
    (op_sharemem o) (<[i := x]> (op_mb_buffer o)).

Definition set_paramtypes (o : tc_ns_operation) (x : Z) : tc_ns_operation :=
  NsOperation x (op_params o) (op_buffer_h_addr o) (op_sharemem o) (op_mb_buffer o).

Definition param_at (o : tc_ns_operation) (i : nat) : tc_ns_parameter :=
  nth i (op_params o) (NsParam 0 0).

(** A 32-bit word read from the client; [dest] is the address of a local. *)
Definition read_u32 {CM : ClientMem} (m : mem) (src api : Z) : Z * Z :=
  let '(r, l) := read_from_client m 1 4 src 4 api in (r, u32 (le_value l)).

Definition write_u32 {CM : ClientMem} (m : mem) (dst x api : Z) : Z * mem :=
  write_to_client m dst 4 (Some (le_bytes 4 x)) 4 api.

Section Params.
Context {Env St : Type} {BA : BlockAllocator St}.
Context {P : PageMap} {SC : SecureC} {SB : SecureBuf} {CM : ClientMem}.
Context {KR : KernelRandom} {KC : KernelCipher} {KA : KernelAlloc}.

Abbreviation state := (call_state Env St).

Definition with_mem (k : state) (m : mem) : state :=
  CallState (cs_env k) (cs_pool k) m (cs_reg k) (cs_op k) (cs_tzmp_uid k).

Definition with_op (k : state) (o : tc_op_params) : state :=
  CallState (cs_env k) (cs_pool k) (cs_mem k) (cs_reg k) o (cs_tzmp_uid k).

Definition with_reg (k : state) (R : registry) : state :=
  CallState (cs_env k) (cs_pool k) (cs_mem k) R (cs_op k) (cs_tzmp_uid k).

Definition with_pool (k : state) (s : St) (m : mem) : state :=
  CallState (cs_env k) s m (cs_reg k) (cs_op k) (cs_tzmp_uid k).

Definition with_operation_of (k : state) (f : tc_ns_operation → tc_ns_operation) : state :=
  with_op k (op_with_operation (cs_op k) (f (mb_operation (cs_op k)))).

(** [mailbox_copy_alloc] over the allocator interface. *)
Definition ba_copy_alloc (s : St) (m : mem) (src size : Z) : outcome (St * mem * Z) :=
  if (src =? 0) || (size =? 0) then Ret (s, m, 0) else
  '(s, m, mb_ptr) ← ba_alloc s m size 0;
  if mb_ptr =? 0 then Ret (s, m, 0) else
  let '(ret, m) := memcpy_s mb_ptr size src size m in
  if nonzero ret then
    s ← ba_free s mb_ptr;
    Ret (s, m, 0)
  else Ret (s, m, mb_ptr).

(** ** Before the call *)

Definition is_input_tempmem (ty : Z) : bool :=
  (ty =? TEEC_MEMREF_TEMP_INPUT) || (ty =? TEEC_MEMREF_TEMP_INOUT).

(** On a failed copy the bytes copied so far stay in the buffer. *)
Definition update_input_data (m : mem) (p : tc_ns_client_param) (buffer_size temp_buf ty
    kernel_params : Z) : mem * Z :=
  if negb (is_input_tempmem ty) then (m, 0)
  else
    let '(r, l) := read_from_client m temp_buf buffer_size (cp_buffer p) buffer_size
                     kernel_params in
    (store_bytes m temp_buf l, if nonzero r then - EFAULT else 0).

Definition do_opensess_auth_enhance (m : mem) (R : registry) (call : tc_call_params)
    (temp_buf buffer_size index : Z) : outcome (mem * Z) :=
  if negb (is_opensession_by_index (call_flags call) (ctx_cmd_id (call_context call)) index)
  then Ret (m, 0)
  else
    s ← at_index (g_sessions R) (call_sess call);
    let '(r, m) := encrypt_login_info index m buffer_size temp_buf
                     (Some (key (crypto_info (secure_info s)))) in
    Ret (m, if nonzero r then - EFAULT else 0).

Definition alloc_for_tmp_mem (call : tc_call_params) (k : state)
    (kernel_params ty index : Z) : outcome (state * Z) :=
  if TEE_PARAM_NUM <=? index then Ret (k, - EINVAL)
  else
    let p := client_param_at (call_context call) index in
    let i := Z.to_nat index in
    let '(r, buffer_size) := read_u32 (cs_mem k) (cp_size_addr p) kernel_params in
    if nonzero r then Ret (k, - EFAULT)
    else if MAX_SHARED_SIZE <? buffer_size then Ret (k, - EFAULT)
    else
      '(s, m, temp_buf) ← ba_alloc (cs_pool k) (cs_mem k) buffer_size MB_FLAG_ZERO;
      let k := with_pool k s m in
      if temp_buf =? 0 then Ret (k, - ENOMEM)
      else
        let k := with_op k (op_with_tmpbuf (cs_op k) i temp_buf buffer_size) in
        let '(m, r) := update_input_data m p buffer_size temp_buf ty kernel_params in
        let k := with_mem k m in
        if nonzero r then Ret (k, - EFAULT)
        else
          '(m, r) ← do_opensess_auth_enhance m (cs_reg k) call temp_buf buffer_size index;
          let k := with_mem k m in
          if nonzero r then Ret (k, - EFAULT)
          else
            let k := with_operation_of k (λ o,
              set_h_addr (set_param o i (NsParam (phys_lo temp_buf) buffer_size))
                i (phys_hi temp_buf)) in
            Ret (with_op k (op_with_trans (cs_op k) i ty), 0).

Definition check_buffer_for_ref (m : mem) (p : tc_ns_client_param) (kernel_params : Z)
    : Z * Z :=
  let '(r, buffer_size) := read_u32 m (cp_size_addr p) kernel_params in
  if nonzero r then (- EFAULT, buffer_size)
  else if buffer_size =? 0 then (- ENOMEM, buffer_size)
  else (0, buffer_size).

(** [len] is 32 bits wide, [offset] 64: the subtraction is done on 64 bits. *)
Definition is_refmem_offset_valid (h : tc_ns_shared_mem) (p : tc_ns_client_param)
    (buffer_size : Z) : bool :=
  (buffer_size <=? u64 (sm_len h - cp_offset p)) && (cp_offset p <? sm_len h).

Definition is_phyaddr_valid (o : tc_ns_operation) (i : nat) : bool :=
  negb ((memref_buffer (param_at o i) =? 0) && (nth i (op_buffer_h_addr o) 0 =? 0)).

(** The search of [dev->shared_mem_list] with its loop body. *)
Fixpoint ref_mem_loop (k : state) (p : tc_ns_client_param) (i : nat) (buffer_size : Z)
    (l : list Z) : outcome (state * Z) :=
  match l with
  | [] => Ret (k, 0)
  | shared_mem :: l =>
      h ← at_index (g_shared (cs_reg k)) shared_mem;
      if negb (sm_user_addr h =? cp_buffer p) then ref_mem_loop k p i buffer_size l
      else if negb (is_refmem_offset_valid h p buffer_size) then Ret (k, 0)
      else
        '(s, m, buffer_addr) ← ba_copy_alloc (cs_pool k) (cs_mem k)
                                 (u64 (sm_kernel_addr h + cp_offset p)) buffer_size;
        let k := with_pool k s m in
        if buffer_addr =? 0 then Ret (k, - ENOMEM)
        else
          let k := with_operation_of k (λ o,
            let o := set_mb_buffer o i buffer_addr in
            let o := set_param o i (NsParam (phys_lo buffer_addr) (memref_size (param_at o i))) in
            let o := set_h_addr o i (phys_hi buffer_addr) in
            set_sharemem o i shared_mem) in
          R ← get_sharemem_struct (cs_reg k) shared_mem;
          Ret (with_reg k R, 0)
  end.

Definition alloc_for_ref_mem (call : tc_call_params) (k : state)
    (kernel_params ty index : Z) : outcome (state * Z) :=
  if TEE_PARAM_NUM <=? index then Ret (k, - EINVAL)
  else
    let p := client_param_at (call_context call) index in
    let i := Z.to_nat index in
    let '(r, buffer_size) := check_buffer_for_ref (cs_mem k) p kernel_params in
    if nonzero r then Ret (k, - EINVAL)
    else
      let k := with_operation_of k (λ o,
        set_param o i (NsParam 0 (memref_size (param_at o i)))) in
      d ← at_index (g_devs (cs_reg k)) (call_dev call);
      '(k, ret) ← ref_mem_loop k p i buffer_size (shared_mem_list d);
      if nonzero ret then Ret (k, ret)
      else if negb (is_phyaddr_valid (mb_operation (cs_op k)) i) then Ret (k, - EINVAL)
      else
        let k := with_operation_of k (λ o,
          set_param o i (NsParam (memref_buffer (param_at o i)) buffer_size)) in
        Ret (with_op k (op_with_trans (cs_op k) i
               (u32 (ty - (TEEC_MEMREF_PARTIAL_INPUT - TEE_PARAM_TYPE_MEMREF_INPUT)))), 0).

Definition transfer_client_value (call : tc_call_params) (k : state)
    (kernel_params ty index : Z) : outcome (state * Z) :=
  if TEE_PARAM_NUM <=? index then Ret (k, - EINVAL)
  else
    let p := client_param_at (call_context call) index in
    let i := Z.to_nat index in
    let '(r, a) := read_u32 (cs_mem k) (cp_a_addr p) kernel_params in
    if nonzero r then Ret (k, - EFAULT)
    else
      let k := with_operation_of k (λ o, set_param o i (NsParam a (value_b (param_at o i)))) in
      let '(r, b) := read_u32 (cs_mem k) (cp_b_addr p) kernel_params in
      if nonzero r then Ret (k, - EFAULT)
      else
        let k := with_operation_of k (λ o, set_param o i (NsParam (value_a (param_at o i)) b)) in
        Ret (with_op k (op_with_trans (cs_op k) i ty), 0).

Definition alloc_for_ion_sglist (call : tc_call_params) (k : state)
    (kernel_params ty index : Z) : outcome (state * Z) := Ret (k, - 1).

Definition alloc_for_ion (call : tc_call_params) (k : state)
    (kernel_params ty index : Z) : outcome (state * Z) := Ret (k, - 1).

(** ** After the call *)

(** The size is fetched from the operation shared with the TEE once for the
    check and twice more for the copy; [later] is the operation as the copy
    finds it. *)
Definition update_tmp_mem_seen (later : tc_ns_operation) (call : tc_call_params) (k : state)
    (api index : Z) (is_complete : bool) : state * Z :=
  if TEE_PARAM_NUM <=? index then (k, - EFAULT)
  else
    let i := Z.to_nat index in
    let p := client_param_at (call_context call) index in
    let buffer_size := memref_size (param_at (mb_operation (cs_op k)) i) in
    let '(temp_buffer, size) := nth i (local_tmpbuf (cs_op k)) (0, 0) in
    let '(r, m) := write_u32 (cs_mem k) (cp_size_addr p) buffer_size api in
    let k := with_mem k m in
    if nonzero r then (k, - EFAULT)
    else if size <? buffer_size then (k, if is_complete then - EFAULT else 0)
    else
      let copied := memref_size (param_at later i) in
      let src := if temp_buffer =? 0 then None
                 else Some (load_bytes m temp_buffer (Z.to_nat copied)) in
      let '(r, m) := write_to_client m (cp_buffer p) copied src copied api in
      (with_mem k m, if nonzero r then - ENOMEM else 0).

(** The TEE, done with the command, leaves the operation alone. *)
Definition update_tmp_mem (call : tc_call_params) (k : state) (api index : Z)
    (is_complete : bool) : state * Z :=
  update_tmp_mem_seen (mb_operation (cs_op k)) call k api index is_complete.

Definition update_for_ref_mem (call : tc_call_params) (k : state) (api index : Z)
    : outcome (state * Z) :=
  if TEE_PARAM_NUM <=? index then Ret (k, - EFAULT)
  else
    let i := Z.to_nat index in
    let p := client_param_at (call_context call) index in
    let o := mb_operation (cs_op k) in
    let buffer_size := memref_size (param_at o i) in
    let '(r, orig_size) := read_u32 (cs_mem k) (cp_size_addr p) api in
    if nonzero r then Ret (k, - EFAULT)
    else
      let '(r, m) := write_u32 (cs_mem k) (cp_size_addr p) buffer_size api in
      let k := with_mem k m in
      if nonzero r then Ret (k, - EFAULT)
      else
        let mb_buffer := nth i (op_mb_buffer o) 0 in
        if nonzero mb_buffer && (buffer_size <=? orig_size) then
          h ← at_index (g_shared (cs_reg k)) (nth i (op_sharemem o) 0);
          let '(r, m) := memcpy_s (u64 (sm_kernel_addr h + cp_offset p))
                           (u64 (sm_len h - cp_offset p)) mb_buffer buffer_size m in
          Ret (with_mem k m, if nonzero r then - EFAULT else 0)
        else Ret (k, 0).

Definition update_for_value (call : tc_call_params) (k : state) (api index : Z)
    : state * Z :=
  if TEE_PARAM_NUM <=? index then (k, - EFAULT)
  else
    let i := Z.to_nat index in
    let p := client_param_at (call_context call) index in
    let q := param_at (mb_operation (cs_op k)) i in
    let '(r, m) := write_u32 (cs_mem k) (cp_a_addr p) (value_a q) api in
    let k := with_mem k m in
    if nonzero r then (k, - EFAULT)
    else
      let '(r, m) := write_u32 m (cp_b_addr p) (value_b q) api in
      (with_mem k m, if nonzero r then - EFAULT else 0).

End Params.

(** The pool's [mailbox_copy_alloc] and [mailbox_alloc_cmd_pack] are the
    interface's at the mailbox. *)
Lemma ba_copy_alloc_mailbox `{P : PageMap, SC : SecureC} g m src size :
  ba_copy_alloc (BA := mailbox_allocator) g m src size = mailbox_copy_alloc g m src size.
Proof. reflexivity. Qed.

Lemma ba_cmd_pack_mailbox `{P : PageMap, SC : SecureC} g m :
  ba_alloc (BlockAllocator := mailbox_allocator) g m SZ_4K MB_FLAG_ZERO
  = mailbox_alloc_cmd_pack g m.
Proof. reflexivity. Qed.
