(* ===== verification/GpCall.v ===== *)
(** * A client call (core/gp_ops.c)

    The operation of a call as a whole - allocation of its four parameters,
    update of the client, release - and [tc_client_call], which sends the
    command, waits while the TA is pending and releases everything on every
    path. *)

From stdpp Require Import base gmap list.
From Stdlib Require Import ZArith Lia.
From S2P Require Import Prelude KernelApi TeeTypes Buffers Mailbox MailboxClaims SessReg.
From S2P Require Import SessLookup CallTypes Auth AuthCall GpParams.

Definition MAX_SHA_256_SZ : Z := 32.
Definition NUM_OF_SO : Z := 1.

(** [virt_addr_valid] of the kernel. *)
Class VirtValid := { virt_addr_valid : Z → bool }.

(** ** Updates of the command block *)

Definition cmd_with_origin (c : tc_ns_smc_cmd) (x : Z) : tc_ns_smc_cmd :=
  SmcCmd (uuid c) (cmd_type c) (cmd_id c) (dev_file_id c) (context_id c) (agent_id c)
    (operation_phys c) (operation_h_phys c) (login_method c) (login_data_phy c)
    (login_data_h_addr c) (login_data_len c) x (ret_val c) (event_nr c)
    (uid c) (ca_pid c) (token_phys c) (token_h_phys c) (pid c) (params_phys c)
    (params_h_phys c) (eventindex c) (started c).

Definition cmd_with_login (c : tc_ns_smc_cmd) (lo hi len : Z) : tc_ns_smc_cmd :=
  SmcCmd (uuid c) (cmd_type c) (cmd_id c) (dev_file_id c) (context_id c) (agent_id c)
    (operation_phys c) (operation_h_phys c) (login_method c) lo hi len (err_origin c)
    (ret_val c) (event_nr c) (uid c) (ca_pid c) (token_phys c) (token_h_phys c) (pid c)
    (params_phys c) (params_h_phys c) (eventindex c) (started c).

(** The fields [init_smc_cmd] copies from the context before [tzmp2_uid]. *)
Definition cmd_from_context (c : tc_ns_smc_cmd) (ty : Z) (u : list Z) (dev_id cur_pid : Z)
    (x : tc_ns_client_context) : tc_ns_smc_cmd :=
  SmcCmd u ty (ctx_cmd_id x) dev_id (ctx_session_id x) (agent_id c)
    (operation_phys c) (operation_h_phys c) (login_method c) (login_data_phy c)
    (login_data_h_addr c) (login_data_len c) (returns_origin x) (ret_val c) (event_nr c)
    (uid c) cur_pid (token_phys c) (token_h_phys c) (pid c) (params_phys c)
    (params_h_phys c) (eventindex c) (nonzero (ctx_started x)).

(** ... and those it sets after it. *)
Definition cmd_with_op_addr (c : tc_ns_smc_cmd) (lo hi method : Z) : tc_ns_smc_cmd :=
  SmcCmd (uuid c) (cmd_type c) (cmd_id c) (dev_file_id c) (context_id c) (agent_id c)
    lo hi method (login_data_phy c) (login_data_h_addr c) (login_data_len c)
    (err_origin c) (ret_val c) (event_nr c) (uid c) (ca_pid c) (token_phys c)
    (token_h_phys c) (pid c) (params_phys c) (params_h_phys c) (eventindex c) (started c).

Definition with_auth_hash (s : tc_ns_session) (b : list Z) : tc_ns_session :=
  Session (session_id s) (owner s) (secure_info s) (teec_token s) b
    (send_wait_flag s) (s_usage s).

Definition with_wait_flag (s : tc_ns_session) (x : Z) : tc_ns_session :=
  Session (session_id s) (owner s) (secure_info s) (teec_token s) (auth_hash_buf s)
    x (s_usage s).

Section Call.
Context {Env St : Type} {BA : BlockAllocator St} {SMC : SmcChannel Env}.
Context {P : PageMap} {SC : SecureC} {SB : SecureBuf} {CM : ClientMem}.
Context {KR : KernelRandom} {KC : KernelCipher} {KA : KernelAlloc} {CU : Current}.
Context {VV : VirtValid}.

Abbreviation state := (call_state Env St).

Definition param_type_of (call : tc_call_params) (index : Z) : Z :=
  teec_param_type_get (ctx_param_types (call_context call)) index.

(** ** Releasing the operation *)

Definition free_temp (k : state) (temp_buf : Z) : outcome state :=
  if virt_addr_valid temp_buf && negb (zero_or_null_ptr temp_buf)
  then s ← ba_free (cs_pool k) temp_buf; Ret (with_pool k s (cs_mem k))
  else Ret k.

Definition free_param (call : tc_call_params) (k : state) (index : Z) : outcome state :=
  let i := Z.to_nat index in
  let o := mb_operation (cs_op k) in
  let ty := param_type_of call index in
  if is_tmp_mem ty then free_temp k (nth i (local_tmpbuf (cs_op k)) (0, 0)).1
  else if is_ref_mem ty then
    R ← put_sharemem_struct (cs_reg k) (nth i (op_sharemem o) 0);
    let k := with_reg k R in
    let mb_buffer := nth i (op_mb_buffer o) 0 in
    if nonzero mb_buffer
    then s ← ba_free (cs_pool k) mb_buffer; Ret (with_pool k s (cs_mem k))
    else Ret k
  else if ty =? TEEC_ION_SGLIST_INPUT
  then free_temp k (nth i (local_tmpbuf (cs_op k)) (0, 0)).1
  else Ret k.

Fixpoint free_params (call : tc_call_params) (k : state) (l : list Z) : outcome state :=
  match l with
  | [] => Ret k
  | index :: l => k ← free_param call k index; free_params call k l
  end.

Definition free_operation (call : tc_call_params) (k : state) : outcome state :=
  free_params call k (seqZ 0 TEE_PARAM_NUM).

(** ** Allocating the operation *)

Definition alloc_param (call : tc_call_params) (k : state) (kernel_params index : Z)
    : outcome (state * Z) :=
  let ty := param_type_of call index in
  if teec_tmpmem_type ty INOUT then alloc_for_tmp_mem call k kernel_params ty index
  else if teec_memref_type ty INOUT then alloc_for_ref_mem call k kernel_params ty index
  else if teec_value_type ty INOUT then transfer_client_value call k kernel_params ty index
  else if ty =? TEEC_ION_INPUT then alloc_for_ion call k kernel_params ty index
  else if ty =? TEEC_ION_SGLIST_INPUT
  then alloc_for_ion_sglist call k kernel_params ty index
  else Ret (k, 0).

(** [kernel_params] is carried from one iteration to the next. *)
Fixpoint alloc_params (call : tc_call_params) (k : state) (kernel_params : Z) (l : list Z)
    : outcome (state * Z) :=
  match l with
  | [] => Ret (k, 0)
  | index :: l =>
      let kernel_params :=
        if nonzero (Z.land (call_flags call) TC_CALL_LOGIN) && (2 <=? index)
        then TEE_REQ_FROM_KERNEL_MODE else kernel_params in
      '(k, ret) ← alloc_param call k kernel_params index;
      if nonzero ret then Ret (k, ret) else alloc_params call k kernel_params l
  end.

Definition alloc_operation (call : tc_call_params) (k : state) : outcome (state * Z) :=
  d ← at_index (g_devs (cs_reg k)) (call_dev call);
  '(k, ret) ← alloc_params call k (kernel_api d) (seqZ 0 TEE_PARAM_NUM);
  if nonzero ret then k ← free_operation call k; Ret (k, ret)
  else
    let t i := nth i (trans_paramtype (cs_op k)) 0 in
    let k := with_operation_of k (λ o,
      set_paramtypes o (u32 (teec_param_types (t 0%nat) (t 1%nat) (t 2%nat) (t 3%nat)))) in
    Ret (with_op k (op_set_inited (cs_op k)), ret).

(** ** Updating the client *)

Definition update_param (call : tc_call_params) (k : state) (api : Z) (is_complete : bool)
    (index : Z) : outcome (state * Z) :=
  let ty := param_type_of call index in
  if teec_tmpmem_type ty OUTPUT then Ret (update_tmp_mem call k api index is_complete)
  else if teec_memref_type ty OUTPUT then update_for_ref_mem call k api index
  else if is_complete && teec_value_type ty OUTPUT
  then Ret (update_for_value call k api index)
  else Ret (k, 0).

Fixpoint update_params (call : tc_call_params) (k : state) (api : Z) (is_complete : bool)
    (l : list Z) : outcome (state * Z) :=
  match l with
  | [] => Ret (k, 0)
  | index :: l =>
      '(k, ret) ← update_param call k api is_complete index;
      if nonzero ret then Ret (k, ret) else update_params call k api is_complete l
  end.

Definition update_client_operation (call : tc_call_params) (k : state)
    (is_complete : bool) : outcome (state * Z) :=
  if negb (op_inited (cs_op k)) then Ret (k, 0)
  else if ctx_param_types (call_context call) =? 0 then Ret (k, 0)
  else
    d ← at_index (g_devs (cs_reg k)) (call_dev call);
    update_params call k (kernel_api d) is_complete (seqZ 0 TEE_PARAM_NUM).

(** ** Preparing the command *)

Definition is_clicall_params_vaild (call : option tc_call_params) : bool :=
  match call with None => false | Some c => nonzero (call_dev c) end.

(** A zeroed [mb_cmd_pack] has a zeroed operation. *)
Definition alloc_for_client_call (k : state) : outcome (state * Z) :=
  if negb (kzalloc_ok site_smc_cmd) then Ret (k, - ENOMEM)
  else
    '(s, m, pack) ← ba_alloc (cs_pool k) (cs_mem k) SZ_4K MB_FLAG_ZERO;
    let k := with_pool k s m in
    if pack =? 0 then Ret (k, - ENOMEM)
    else Ret (with_op k (OpParams pack zero_operation zero_smc_cmd (replicate 4 (0, 0))
                           (replicate 4 0) false), 0).

Definition init_smc_cmd (call : tc_call_params) (k : state) : outcome (state * Z) :=
  let c := op_smc_cmd (cs_op k) in
  let x := call_context call in
  let global := is_global_call call in
  let ty := if global then CMD_TYPE_GLOBAL else CMD_TYPE_TA in
  let '(r, u) := buf_copy (uuid c) 0 UUID_LEN (ctx_uuid x) 0 UUID_LEN in
  if nonzero r then Ret (k, - EFAULT)
  else
    d ← at_index (g_devs (cs_reg k)) (call_dev call);
    let c := cmd_from_context c ty u (df_id d) current_pid x in
    let '(g_tzmp_uid, c, _) := tzmp2_uid (cs_tzmp_uid k) x c global in
    let operation := mb_pack (cs_op k) in
    let c := if nonzero (ctx_param_types x)
             then cmd_with_op_addr c (phys_lo operation) (phys_hi operation)
                    (ctx_login_method x)
             else cmd_with_op_addr c 0 0 (ctx_login_method x) in
    Ret (CallState (cs_env k) (cs_pool k) (cs_mem k) (cs_reg k)
           (op_with_cmd (cs_op k) c) g_tzmp_uid, 0).

Definition need_check_login (d : tc_ns_dev_file) (call : tc_call_params)
    (op : tc_op_params) : bool :=
  (pub_key_len d =? 4) && (cmd_id (op_smc_cmd op) =? GLOBAL_CMD_ID_OPEN_SESSION)
  && current_mm && is_global_call call.

(** The login hash is encrypted in place in the session, then copied into the
    pack.  It is not one of the four parameters: its allocation site is 4. *)
Definition check_login_for_encrypt (call : tc_call_params) (k : state)
    : outcome (state * Z) :=
  d ← at_index (g_devs (cs_reg k)) (call_dev call);
  let op := cs_op k in
  if need_check_login d call op && nonzero (call_sess call) then
    s ← at_index (g_sessions (cs_reg k)) (call_sess call);
    let '(ret, b) := do_encryption 4 (Some (auth_hash_buf s)) LOGIN_DATA_LEN
                       (MAX_SHA_256_SZ * (NUM_OF_SO + 1))
                       (Some (key (crypto_info (secure_info s)))) in
    let hash := default [] b in
    let k := with_reg k (upd_session (cs_reg k) (call_sess call) (with_auth_hash s hash)) in
    if nonzero ret then Ret (k, ret)
    else
      let a := pack_login_data (mb_pack op) in
      let '(r, l) := buf_copy (load_bytes (cs_mem k) a (Z.to_nat LOGIN_DATA_LEN)) 0
                       LOGIN_DATA_LEN hash 0 LOGIN_DATA_LEN in
      let k := with_mem k (store_bytes (cs_mem k) a l) in
      if nonzero r then Ret (k, - EFAULT)
      else Ret (with_op k (op_with_cmd op (cmd_with_login (op_smc_cmd op) (phys_lo a)
                  (phys_hi a) (MAX_SHA_256_SZ * (NUM_OF_SO + 1)))), 0)
  else Ret (with_op k (op_with_cmd op (cmd_with_login (op_smc_cmd op) 0 0 0)), 0).

Definition config_smc_cmd_context (call : tc_call_params) (k : state)
    : outcome (state * Z) :=
  '(k, ret) ← init_smc_cmd call k;
  if nonzero ret then Ret (k, ret)
  else
    '(k, ret) ← check_login_for_encrypt call k;
    if nonzero ret then Ret (k, ret)
    else
      '(m, R, op, ret) ← load_security_enhance_info (cs_mem k) (cs_reg k) call (cs_op k);
      Ret (with_op (with_reg (with_mem k m) R) op, ret).

(** ** Sending it *)

Definition send (f : Env → mem → tc_ns_operation → tc_ns_smc_cmd →
      Env * mem * tc_ns_operation * tc_ns_smc_cmd * Z) (k : state) : state * Z :=
  let '(e, m, o, c, r) :=
    f (smc_sees (cs_env k) (cs_reg k)) (cs_mem k) (mb_operation (cs_op k))
      (op_smc_cmd (cs_op k)) in
  (CallState e (cs_pool k) m (cs_reg k) (op_with_cmd (op_with_operation (cs_op k) o) c)
     (cs_tzmp_uid k), r).

(** The context's new session id. *)
Definition reset_session_id (call : tc_call_params) (op : tc_op_params) (tee_ret : Z)
    : tc_call_params :=
  let x := call_context call in
  let need_reset :=
    is_global_call call && (ctx_cmd_id x =? GLOBAL_CMD_ID_OPEN_SESSION)
    && nonzero tee_ret && negb (u32 tee_ret =? TEEC_PENDING) in
  call_with_context call
    (ctx_with_session x (if need_reset then 0 else context_id (op_smc_cmd op))).

(** The session when [wait_event] on [send_cmd_wq] returns: the flag is set, by
    [tc_notify_timer_fn].  A command that is never woken up is one the TEE
    never finishes, which the bound on the pending answers excludes. *)
Definition wait_event (s : tc_ns_session) : tc_ns_session := with_wait_flag s 1.

Definition pend_ca_thread (R : registry) (session : Z) : outcome registry :=
  if session =? 0 then Ret R
  else
    s ← at_index (g_sessions R) session;
    Ret (upd_session R session (with_wait_flag (wait_event s) 0)).

Definition run_post_process_token (call : tc_call_params) (k : state)
    : outcome (state * Z) :=
  '(m, R, ret) ← post_process_token (cs_mem k) (cs_reg k) call (cs_op k);
  Ret (with_reg (with_mem k m) R, ret).

(** [None] when [fuel] commands were all answered with [TEEC_PENDING]. *)
Fixpoint pending_loop (fuel : nat) (call : tc_call_params) (k : state) (tee_ret : Z)
    : outcome (option (state * Z * Z)) :=
  match fuel with
  | O => Ret None
  | S fuel =>
      R ← pend_ca_thread (cs_reg k) (call_sess call);
      '(m, R, ret) ← append_teec_token (cs_mem k) R call (cs_op k);
      let k := with_reg (with_mem k m) R in
      if nonzero ret then Ret (Some (k, tee_ret, ret))
      else
        let '(k, tee_ret) := send tc_ns_smc_with_no_nr k in
        '(k, ret) ← run_post_process_token call k;
        if nonzero ret then Ret (Some (k, tee_ret, ret))
        else if u32 tee_ret =? TEEC_PENDING then pending_loop fuel call k tee_ret
        else Ret (Some (k, tee_ret, ret))
  end.

Definition handle_ta_pending (fuel : nat) (call : tc_call_params) (k : state) (tee_ret : Z)
    : outcome (option (state * Z * Z)) :=
  if negb (u32 tee_ret =? TEEC_PENDING) then Ret (Some (k, tee_ret, 0))
  else pending_loop fuel call k tee_ret.

Definition post_proc_smc_return (call : tc_call_params) (k : state) (tee_ret : Z)
    : outcome (state * Z) :=
  if nonzero tee_ret then
    let ret := if u32 tee_ret =? TEEC_CLIENT_INTR then - ERESTARTSYS else EFAULT in
    if u32 tee_ret =? TEEC_ERROR_SHORT_BUFFER
    then '(k, _) ← update_client_operation call k false; Ret (k, ret)
    else Ret (k, ret)
  else update_client_operation call k true.

(** ** Releasing everything *)

Definition release_tc_call_resource (call : tc_call_params) (k : state) (tee_ret : Z)
    : outcome (state * tc_ns_client_context) :=
  let x := ctx_with_returns (call_context call) tee_ret (err_origin (op_smc_cmd (cs_op k))) in
  k ← (if op_inited (cs_op k) then free_operation call k else Ret k);
  s ← ba_free (cs_pool k) (mb_pack (cs_op k));
  Ret (with_pool k s (cs_mem k), x).

Definition set_cmd (k : state) (c : tc_ns_smc_cmd) : state :=
  with_op k (op_with_cmd (cs_op k) c).

(** From the label [free_src] on. *)
Definition free_src (call : tc_call_params) (k : state) (tee_ret ret : Z)
    : outcome (option (state * tc_ns_client_context * Z)) :=
  let k := if ret <? 0
           then set_cmd k (cmd_with_origin (op_smc_cmd (cs_op k)) TEEC_ORIGIN_COMMS) else k in
  '(k, x) ← release_tc_call_resource call k tee_ret;
  Ret (Some (k, x, ret)).

(** After the first command has been answered. *)
Definition finish_call (fuel : nat) (call : tc_call_params) (k : state) (tee_ret : Z)
    : outcome (option (state * tc_ns_client_context * Z)) :=
  let call := reset_session_id call (cs_op k) tee_ret in
  '(k, ret) ← run_post_process_token call k;
  if nonzero ret then free_src call k tee_ret ret
  else
    res ← handle_ta_pending fuel call k tee_ret;
    match res with
    | None => Ret None
    | Some (k, tee_ret, ret) =>
        if nonzero ret then free_src call k tee_ret ret
        else
          '(k, ret) ← post_proc_smc_return call k tee_ret;
          free_src call k tee_ret ret
    end.

(** The final state, context and return code; [None] if [fuel] runs out. *)
Definition tc_client_call (fuel : nat) (call : tc_call_params) (k : state)
    : outcome (option (state * tc_ns_client_context * Z)) :=
  if negb (is_clicall_params_vaild (Some call))
  then Ret (Some (k, call_context call, - EINVAL))
  else
    '(k, ret) ← alloc_for_client_call k;
    if nonzero ret then Ret (Some (k, call_context call, - ENOMEM))
    else
      let k := set_cmd k (cmd_with_uid (cmd_with_origin (op_smc_cmd (cs_op k))
                            TEEC_ORIGIN_COMMS) current_uid) in
      '(k, ret) ← (if nonzero (ctx_param_types (call_context call))
                   then alloc_operation call k else Ret (k, 0));
      if nonzero ret then free_src call k 0 ret
      else
        '(k, ret) ← config_smc_cmd_context call k;
        if nonzero ret then free_src call k 0 ret
        else
          let '(k, tee_ret) := send tc_ns_smc k in
          finish_call fuel call k tee_ret.

End Call.
