(* ===== verification/GpHeld.v ===== *)
(** * What a call holds while it is in progress

    The mailbox blocks and the references to shared buffers that an operation
    holds can be read off its parameter types and its pointers.  This file
    gives that accounting and its laws: taking and giving back one block or
    one reference, and [free_operation], which gives back exactly what is
    held. *)

From stdpp Require Import base gmap list fin_maps fin_sets.
From Stdlib Require Import ZArith Lia Setoid.
From S2P Require Import Prelude KernelApi TeeTypes Buffers Mailbox MailboxClaims SessReg.
From S2P Require Import SessLookup SessOk CallTypes Auth AuthCall AuthOk GpParams GpCall.

Definition nz (x : Z) : list Z := if x =? 0 then [] else [x].

(** The block and the reference parameter [index] holds. *)
Definition blk_at (call : tc_call_params) (op : tc_op_params) (index : Z) : list Z :=
  let i := Z.to_nat index in
  let ty := param_type_of call index in
  if is_tmp_mem ty then nz (nth i (local_tmpbuf op) (0, 0)).1
  else if is_ref_mem ty then nz (nth i (op_mb_buffer (mb_operation op)) 0)
  else if ty =? TEEC_ION_SGLIST_INPUT then nz (nth i (local_tmpbuf op) (0, 0)).1
  else [].

Definition shm_at (call : tc_call_params) (op : tc_op_params) (index : Z) : list Z :=
  if is_tmp_mem (param_type_of call index) then []
  else if is_ref_mem (param_type_of call index)
  then nz (nth (Z.to_nat index) (op_sharemem (mb_operation op)) 0)
  else [].

Definition held (f : Z → list Z) (l : list Z) : list Z := concat (f <$> l).

Lemma held_update (f g : Z → list Z) l i :
  NoDup l → i ∈ l → f i = [] → (∀ j, j ∈ l → j ≠ i → g j = f j) →
  held g l ≡ₚ g i ++ held f l.
Proof.
  unfold held. induction l as [|x l IH]; intros Hnd Hi Hf Hg; [by apply elem_of_nil in Hi|].
  apply NoDup_cons in Hnd as [Hx Hnd]. cbn [fmap list_fmap concat].
  destruct (decide (i = x)) as [->|Hne].
  - rewrite Hf. simpl. f_equiv.
    assert (g <$> l = f <$> l) as ->; [|done].
    apply list_fmap_ext. intros k y Hk%list_elem_of_lookup_2.
    apply Hg; [by right|]. by intros ->.
  - rewrite Hg by (by left || done).
    assert (i ∈ l) as Hil by (apply list_elem_of_In in Hi; apply list_elem_of_In;
      destruct Hi; [by subst|done]).
    rewrite IH; [|done|done|done|intros; apply Hg; [by right|done]].
    by rewrite !app_assoc, (Permutation_app_comm (f x)).
Qed.

Lemma held_ext (f g : Z → list Z) l :
  (∀ j, j ∈ l → g j = f j) → held g l = held f l.
Proof.
  intros H. unfold held. f_equal. apply list_fmap_ext.
  intros k y Hk%list_elem_of_lookup_2. by apply H.
Qed.

Lemma held_length (f : Z → list Z) l :
  (∀ j, (length (f j) ≤ 1)%nat) → (length (held f l) ≤ length l)%nat.
Proof.
  intros H. unfold held. induction l as [|x l IH]; [done|].
  cbn [fmap list_fmap concat length]. rewrite length_app. specialize (H x).
  apply (Nat.add_le_mono _ 1 _ _ H IH).
Qed.

Lemma nz_length x : (length (nz x) ≤ 1)%nat.
Proof. unfold nz. destruct (x =? 0); simpl; lia. Qed.

Lemma shm_at_length call op j : (length (shm_at call op j) ≤ 1)%nat.
Proof.
  unfold shm_at. destruct (is_tmp_mem _); [simpl; lia|].
  destruct (is_ref_mem _); [apply nz_length|simpl; lia].
Qed.

(** ** Blocks *)

Section Blocks.
Context {St : Type} {BA : BlockAllocator St} {BAL : BlockAllocatorLaws St BA}.

(** The pool has handed out [L] and, on top, the blocks [B]. *)
Definition owns_plus (s : St) (B : list Z) (L : gset Z) : Prop :=
  NoDup B ∧ (∀ b, b ∈ B → b ∉ L) ∧ ba_owns s (list_to_set B ∪ L).

#[export] Instance owns_plus_proper s :
  Proper ((≡ₚ) ==> (=) ==> iff) (owns_plus s).
Proof.
  intros B B' HB L ? <-. unfold owns_plus.
  assert (list_to_set B = (list_to_set B' : gset Z)) as -> by (by rewrite HB).
  rewrite HB. split; intros (? & Hd & ?); split_and!; try done; intros b Hb;
    apply Hd; [by rewrite HB|by rewrite <- HB].
Qed.

Lemma owns_plus_nil s L : owns_plus s [] L ↔ ba_owns s L.
Proof.
  unfold owns_plus. assert (list_to_set [] ∪ L = L) as -> by set_solver.
  split; [by intros (_ & _ & ?)|]. intros. split_and!; [constructor|set_solver|done].
Qed.

Lemma owns_plus_free s a B L :
  owns_plus s (a :: B) L → ∃ s', ba_free s a = Ret s' ∧ owns_plus s' B L.
Proof.
  intros (Hnd & Hd & Ho). apply NoDup_cons in Hnd as [Ha Hnd].
  destruct (ba_free_ok _ _ a Ho) as (s' & E & Ho'); [set_solver|].
  exists s'. split; [done|]. split_and!; [done|intros; apply Hd; by right|].
  assert ((list_to_set (a :: B) ∪ L) ∖ {[a]} = list_to_set B ∪ L) as <-; [|done].
  assert (a ∉ L) by (apply Hd; by left).
  simpl. set_solver.
Qed.

Lemma owns_plus_alloc s B L m size flag :
  owns_plus s B L → 0 ≤ size < 2 ^ 64 →
  ∃ s' m' a, ba_alloc s m size flag = Ret (s', m', a) ∧
    ((a = 0 ∧ m' = m ∧ owns_plus s' B L) ∨ (a ≠ 0 ∧ owns_plus s' (a :: B) L)).
Proof.
  intros (Hnd & Hd & Ho) Hs.
  destruct (ba_alloc_ok _ _ m size flag Ho Hs)
    as (s' & m' & a & E & [(-> & Ho' & ->)|(Ha & Hn & _ & Ho' & _)]);
    [exists s', m, 0|exists s', m', a]; (split; [done|]); [left|right].
  - by split_and!.
  - assert (a ∉ B) as HaB.
    { intros Hb. apply Hn. rewrite elem_of_union, elem_of_list_to_set. by left. }
    assert (a ∉ L) as HaL by (intros Hb; apply Hn, elem_of_union; by right).
    split; [lia|]. split_and!.
    + by constructor.
    + intros b Hb. apply elem_of_cons in Hb as [->|Hb]; [done|by apply Hd].
    + assert (list_to_set (a :: B) ∪ L = {[a]} ∪ (list_to_set B ∪ L)) as ->; [|done].
      simpl. set_solver.
Qed.

Lemma owns_plus_copy_alloc {SC : SecureC} s B L m src size :
  owns_plus s B L → 0 ≤ size < 2 ^ 64 →
  ∃ s' m' a, ba_copy_alloc s m src size = Ret (s', m', a) ∧
    ((a = 0 ∧ owns_plus s' B L) ∨ (a ≠ 0 ∧ owns_plus s' (a :: B) L)).
Proof.
  intros Ho Hs. unfold ba_copy_alloc. destruct (_ || _); [eauto 10|].
  destruct (owns_plus_alloc s B L m size 0 Ho Hs) as (s' & m' & a & -> & [(-> & -> & H)|[Ha H]]);
    rewrite ret_bind; [simpl; eauto 10|].
  rewrite (proj2 (Z.eqb_neq a 0)) by done.
  destruct (memcpy_s _ _ _ _ _) as [r m'']. destruct (nonzero r); [|eauto 10].
  destruct (owns_plus_free _ _ _ _ H) as (s'' & -> & H'). rewrite ret_bind. eauto 10.
Qed.

End Blocks.

(** ** References to shared buffers *)

Definition sm_add (x : tc_ns_shared_mem) (n : Z) : tc_ns_shared_mem :=
  SharedMem (sm_kernel_addr x) (sm_user_addr x) (sm_user_addr_ca x) (sm_len x)
    (sm_usage x + n) (sm_offset x).

Definition shm_refs (p : Z) (S : list Z) : Z := Z.of_nat (length (filter (λ q, q = p) S)).

(** The heap [h] with one more reference for each element of [S]. *)
Definition bump (S : list Z) (h : gmap Z tc_ns_shared_mem) : gmap Z tc_ns_shared_mem :=
  map_imap (λ p x, Some (sm_add x (shm_refs p S))) h.

Definition shared_ok (h : gmap Z tc_ns_shared_mem) : Prop :=
  ∀ p x, h !! p = Some x → 1 ≤ sm_usage x < 2 ^ 31 - 8.

Lemma bump_lookup S h p : bump S h !! p = (λ x, sm_add x (shm_refs p S)) <$> h !! p.
Proof. unfold bump. rewrite map_lookup_imap. by destruct (h !! p). Qed.

Lemma sm_add_0 x : sm_add x 0 = x.
Proof. destruct x. unfold sm_add. simpl. by rewrite Z.add_0_r. Qed.

Lemma bump_nil h : bump [] h = h.
Proof.
  apply map_eq. intros p. rewrite bump_lookup. unfold shm_refs. simpl.
  destruct (h !! p); simpl; [by rewrite sm_add_0|done].
Qed.

#[export] Instance bump_proper : Proper ((≡ₚ) ==> (=) ==> (=)) bump.
Proof.
  intros S S' HS h ? <-. apply map_eq. intros p. rewrite !bump_lookup.
  assert (shm_refs p S = shm_refs p S') as ->; [|done]. unfold shm_refs. by rewrite HS.
Qed.

Lemma shm_refs_cons p q S : shm_refs p (q :: S) = (if decide (q = p) then 1 else 0) + shm_refs p S.
Proof. unfold shm_refs. rewrite filter_cons. case_decide; simpl; lia. Qed.

Lemma shm_refs_bound p S : 0 ≤ shm_refs p S ≤ Z.of_nat (length S).
Proof. unfold shm_refs. pose proof (length_filter (λ q, q = p) S). lia. Qed.

Lemma bump_cons p S h x :
  h !! p = Some x → bump (p :: S) h = <[p := sm_add x (shm_refs p S + 1)]> (bump S h).
Proof.
  intros Hp. apply map_eq. intros q. rewrite bump_lookup, shm_refs_cons.
  case_decide as E.
  - subst q. rewrite lookup_insert_eq, Hp. simpl. f_equal. f_equal. lia.
  - rewrite lookup_insert_ne, bump_lookup by done. by rewrite Z.add_0_l.
Qed.

Lemma get_sharemem_bump R S h p :
  g_shared R = bump S h → shared_ok h → is_Some (h !! p) → p ≠ 0 →
  (length S ≤ 4)%nat →
  get_sharemem_struct R p = Ret (set_shared R (bump (p :: S) h)).
Proof.
  intros HR Hok [x Hp] H0 HS. unfold get_sharemem_struct.
  rewrite (proj2 (Z.eqb_neq p 0)) by done. unfold at_index. rewrite HR, bump_lookup, Hp. simpl.
  rewrite (bump_cons _ _ _ _ Hp).
  rewrite atomic_inc_small; [by rewrite <- Z.add_assoc|].
  pose proof (shm_refs_bound p S). specialize (Hok _ _ Hp). lia.
Qed.

Lemma put_sharemem_bump R S h p :
  g_shared R = bump (p :: S) h → shared_ok h → is_Some (h !! p) → p ≠ 0 →
  (length S ≤ 4)%nat →
  put_sharemem_struct R p = Ret (set_shared R (bump S h)).
Proof.
  intros HR Hok [x Hp] H0 HS. unfold put_sharemem_struct.
  rewrite (proj2 (Z.eqb_neq p 0)) by done. unfold at_index.
  rewrite HR, (bump_cons _ _ _ _ Hp), lookup_insert_eq. simpl.
  pose proof (shm_refs_bound p S). specialize (Hok _ _ Hp).
  rewrite atomic_dec_small by lia.
  destruct (Z.eqb_spec (sm_usage x + (shm_refs p S + 1) - 1) 0); [lia|].
  do 2 f_equal. rewrite insert_insert_eq. apply insert_id. rewrite bump_lookup, Hp. simpl.
  f_equal. unfold sm_add. f_equal. lia.
Qed.

(** ** Releasing an operation *)

(** Blocks of the pool are valid kernel addresses. *)
Class VirtValidLaws (St : Type) (BA : BlockAllocator St) (VV : VirtValid) := {
  owned_valid s L a :
    ba_owns s L → a ∈ L → virt_addr_valid a = true ∧ 16 < a
}.

Lemma seqZ_params : seqZ 0 TEE_PARAM_NUM = [0; 1; 2; 3].
Proof. reflexivity. Qed.

Section Release.
Context {Env St : Type} {BA : BlockAllocator St} {BAL : BlockAllocatorLaws St BA}.
Context {VV : VirtValid} {VL : VirtValidLaws St BA VV}.

Abbreviation state := (call_state Env St).

(** The parameters [l] of the operation hold what the pool and the shared
    buffers say is held on top of [L] and [R0]. *)
Record holding (call : tc_call_params) (L : gset Z) (R0 : registry) (k : state)
    (l : list Z) : Prop := {
  hold_pool : owns_plus (cs_pool k) (held (blk_at call (cs_op k)) l) L;
  hold_reg : reg_like R0 (cs_reg k);
  hold_shared :
    g_shared (cs_reg k) = bump (held (shm_at call (cs_op k)) l) (g_shared R0);
  hold_alive p : p ∈ held (shm_at call (cs_op k)) l → is_Some (g_shared R0 !! p)
}.

Lemma free_temp_ok (k : state) B L a :
  owns_plus (cs_pool k) (nz a ++ B) L →
  ∃ s, free_temp k a = Ret (with_pool k s (cs_mem k)) ∧ owns_plus s B L.
Proof.
  unfold nz, free_temp. destruct (Z.eqb_spec a 0) as [->|Ha]; simpl; intros Ho.
  - exists (cs_pool k). rewrite andb_false_r. by destruct k.
  - destruct (owned_valid (cs_pool k) (list_to_set (a :: B) ∪ L) a) as [-> Hb];
      [apply Ho|set_solver|].
    unfold zero_or_null_ptr. rewrite (proj2 (Z.leb_gt a 16)) by done. simpl.
    destruct (owns_plus_free _ _ _ _ Ho) as (s & -> & Ho'). rewrite ret_bind. eauto.
Qed.

Lemma free_block_ok (k : state) B L a :
  owns_plus (cs_pool k) (nz a ++ B) L →
  ∃ s, (if nonzero a
        then s ← ba_free (cs_pool k) a; Ret (with_pool k s (cs_mem k)) else Ret k)
       = Ret (with_pool k s (cs_mem k)) ∧ owns_plus s B L.
Proof.
  unfold nz, nonzero. destruct (Z.eqb_spec a 0) as [->|Ha]; simpl; intros Ho.
  - exists (cs_pool k). by destruct k.
  - destruct (owns_plus_free _ _ _ _ Ho) as (s & -> & Ho'). rewrite ret_bind. eauto.
Qed.

Lemma put_shm_ok R S h p :
  g_shared R = bump (nz p ++ S) h → shared_ok h → (∀ q, q ∈ nz p → is_Some (h !! q)) →
  (length S ≤ 4)%nat →
  put_sharemem_struct R p = Ret (set_shared R (bump S h)).
Proof.
  unfold nz. destruct (Z.eqb_spec p 0) as [->|Hp]; simpl; intros HR Hok Hal HS.
  - unfold put_sharemem_struct. simpl. rewrite <- HR. by destruct R.
  - apply put_sharemem_bump; try done. apply Hal. by left.
Qed.

Lemma free_param_ok call L R0 (k : state) i l :
  shared_ok (g_shared R0) → (length l ≤ 4)%nat → holding call L R0 k (i :: l) →
  ∃ k', free_param call k i = Ret k' ∧ holding call L R0 k' l ∧
    cs_op k' = cs_op k ∧ cs_mem k' = cs_mem k.
Proof.
  intros Hok Hl [Hp Hr Hs Ha]. unfold free_param.
  pose proof (held_length (shm_at call (cs_op k)) l (shm_at_length call (cs_op k))) as Hlen.
  unfold held in Hp, Hs, Ha. cbn [fmap list_fmap concat] in Hp, Hs, Ha.
  unfold blk_at at 1 in Hp. unfold shm_at at 1 in Hs. unfold shm_at at 1 in Ha.
  fold (held (blk_at call (cs_op k)) l) in Hp.
  fold (held (shm_at call (cs_op k)) l) in Hs, Ha.
  assert (∀ s R, owns_plus s (held (blk_at call (cs_op k)) l) L →
    reg_like R0 R → g_shared R = bump (held (shm_at call (cs_op k)) l) (g_shared R0) →
    (∀ p, p ∈ held (shm_at call (cs_op k)) l → is_Some (g_shared R0 !! p)) →
    holding call L R0 (with_pool (with_reg k R) s (cs_mem k)) l) as Hh by by split.
  destruct (is_tmp_mem (param_type_of call i)).
  { destruct (free_temp_ok _ _ _ _ Hp) as (s & -> & Ho). eexists. split; [done|].
    split; [by apply (Hh s (cs_reg k))|done]. }
  destruct (is_ref_mem (param_type_of call i)).
  { rewrite (put_shm_ok _ _ _ _ Hs Hok) by (done || lia || (intros; apply Ha, elem_of_app; by left)).
    rewrite ret_bind.
    destruct (free_block_ok (with_reg k (set_shared (cs_reg k)
      (bump (held (shm_at call (cs_op k)) l) (g_shared R0)))) _ _ _ Hp) as (s & -> & Ho).
    eexists. split; [done|]. split; [|done]. apply Hh; [done| |done|].
    - etrans; [exact Hr|apply set_shared_like].
    - intros p Hp'. apply Ha, elem_of_app. by right. }
  destruct (_ =? TEEC_ION_SGLIST_INPUT).
  { destruct (free_temp_ok _ _ _ _ Hp) as (s & -> & Ho). eexists. split; [done|].
    split; [by apply (Hh s (cs_reg k))|done]. }
  exists k. split_and!; try done.
Qed.

Lemma free_params_ok call L R0 l (k : state) :
  shared_ok (g_shared R0) → (length l ≤ 4)%nat → holding call L R0 k l →
  ∃ k', free_params call k l = Ret k' ∧ ba_owns (cs_pool k') L ∧
    reg_like R0 (cs_reg k') ∧ g_shared (cs_reg k') = g_shared R0 ∧
    cs_op k' = cs_op k ∧ cs_mem k' = cs_mem k.
Proof.
  intros Hok. revert k. induction l as [|i l IH]; intros k Hl Hh.
  - destruct Hh as [Hp Hr Hs _]. exists k. split; [done|].
    split; [by apply owns_plus_nil|]. split; [done|]. split; [|done]. by rewrite Hs, bump_nil.
  - destruct (free_param_ok call L R0 k i l Hok) as (k1 & E & Hh1 & Eo & Em);
      [simpl in Hl; lia|done|].
    destruct (IH k1) as (k' & E' & ? & ? & ? & Eo' & Em'); [simpl in Hl; lia|done|].
    exists k'. simpl. rewrite E, ret_bind. split_and!; try done; congruence.
Qed.

End Release.
