(* ===== verification/GpAlloc.v ===== *)
(** * Allocating an operation

    [alloc_operation] never faults; when it succeeds the operation holds
    exactly what was taken, and when it fails it has given everything back. *)

From stdpp Require Import base gmap list fin_maps fin_sets.
From Stdlib Require Import ZArith Lia Setoid.
From S2P Require Import Prelude KernelApi TeeTypes Buffers Mailbox MailboxClaims SessReg.
From S2P Require Import SessLookup SessOk CallTypes Auth AuthCall AuthOk GpParams GpCall.
From S2P Require Import GpHeld.

(** ** The pointers of an operation *)

Definition op_shape (op : tc_op_params) : Prop :=
  length (local_tmpbuf op) = 4%nat ∧ length (op_mb_buffer (mb_operation op)) = 4%nat ∧
  length (op_sharemem (mb_operation op)) = 4%nat.

(** The operations agree on every pointer except those of parameter [i]. *)
Record agree (i : nat) (op op' : tc_op_params) : Prop := {
  agree_tmp j : j ≠ i → nth j (local_tmpbuf op') (0, 0) = nth j (local_tmpbuf op) (0, 0);
  agree_mb j : j ≠ i → nth j (op_mb_buffer (mb_operation op')) 0
                       = nth j (op_mb_buffer (mb_operation op)) 0;
  agree_sh j : j ≠ i → nth j (op_sharemem (mb_operation op')) 0
                       = nth j (op_sharemem (mb_operation op)) 0;
  agree_shape : op_shape op → op_shape op';
  agree_pack : mb_pack op' = mb_pack op;
  agree_inited : op_inited op' = op_inited op;
  agree_cmd : op_smc_cmd op' = op_smc_cmd op
}.

(** The same pointers throughout. *)
Definition same_ptrs (op op' : tc_op_params) : Prop :=
  local_tmpbuf op' = local_tmpbuf op ∧
  op_mb_buffer (mb_operation op') = op_mb_buffer (mb_operation op) ∧
  op_sharemem (mb_operation op') = op_sharemem (mb_operation op) ∧
  mb_pack op' = mb_pack op ∧ op_inited op' = op_inited op.

Lemma same_ptrs_agree i op op' :
  same_ptrs op op' → op_smc_cmd op' = op_smc_cmd op → agree i op op'.
Proof.
  intros (T & M & H & Hp & Hi) Hc. split; try done; intros; unfold op_shape in *;
    by rewrite ?T, ?M, ?H.
Qed.

Lemma same_ptrs_blk call op op' j : same_ptrs op op' → blk_at call op' j = blk_at call op j.
Proof. intros (T & M & _). unfold blk_at. by rewrite T, M. Qed.

Lemma same_ptrs_shm call op op' j : same_ptrs op op' → shm_at call op' j = shm_at call op j.
Proof. intros (_ & _ & H & _). unfold shm_at. by rewrite H. Qed.

Lemma agree_refl i op : agree i op op.
Proof. by split. Qed.

Lemma agree_trans i a b c : agree i a b → agree i b c → agree i a c.
Proof.
  intros [T1 M1 S1 H1 P1 I1 C1] [T2 M2 S2 H2 P2 I2 C2]. split.
  - intros j Hj. by rewrite T2, T1.
  - intros j Hj. by rewrite M2, M1.
  - intros j Hj. by rewrite S2, S1.
  - intros H. by apply H2, H1.
  - by rewrite P2.
  - by rewrite I2.
  - by rewrite C2.
Qed.

Lemma nth_insert_ne {A} (l : list A) i j x d : j ≠ i → nth j (<[i := x]> l) d = nth j l d.
Proof. intros. by rewrite !nth_lookup, list_lookup_insert_ne by done. Qed.

Lemma nth_insert_eq {A} (l : list A) i x d : (i < length l)%nat → nth i (<[i := x]> l) d = x.
Proof. intros. by rewrite nth_lookup, list_lookup_insert_eq. Qed.

Lemma agree_tmpbuf i op a n : agree i op (op_with_tmpbuf op i a n).
Proof.
  split; try done; simpl.
  - intros. by apply nth_insert_ne.
  - unfold op_shape; simpl. by rewrite length_insert.
Qed.

Lemma agree_mb_sh i op a q h b :
  agree i op (op_with_operation op (set_sharemem (set_h_addr
    (set_param (set_mb_buffer (mb_operation op) i a) i q) i h) i b)).
Proof.
  split; try done; simpl.
  - intros. by apply nth_insert_ne.
  - intros. by apply nth_insert_ne.
  - unfold op_shape; simpl. by rewrite !length_insert.
Qed.

(** Parameter [i] holds nothing yet. *)
Definition empty_at (op : tc_op_params) (i : nat) : Prop :=
  (nth i (local_tmpbuf op) (0, 0)).1 = 0 ∧ nth i (op_mb_buffer (mb_operation op)) 0 = 0 ∧
  nth i (op_sharemem (mb_operation op)) 0 = 0.

Lemma empty_blk call op i : empty_at op (Z.to_nat i) → blk_at call op i = [].
Proof.
  intros (H1 & H2 & _). unfold blk_at. rewrite H1, H2. unfold nz. simpl.
  by repeat case_match.
Qed.

Lemma empty_shm call op i : empty_at op (Z.to_nat i) → shm_at call op i = [].
Proof. intros (_ & _ & H). unfold shm_at. rewrite H. by repeat case_match. Qed.

Lemma agree_empty i j op op' : agree i op op' → j ≠ i → empty_at op j → empty_at op' j.
Proof. intros HA Hj (H1 & H2 & H3). unfold empty_at.
  by rewrite (agree_tmp _ _ _ HA), (agree_mb _ _ _ HA), (agree_sh _ _ _ HA). Qed.

Lemma agree_blk call i j op op' :
  agree (Z.to_nat i) op op' → 0 ≤ i → 0 ≤ j → j ≠ i → blk_at call op' j = blk_at call op j.
Proof.
  intros HA Hi Hj Hne. unfold blk_at.
  rewrite (agree_tmp _ _ _ HA), (agree_mb _ _ _ HA) by lia. done.
Qed.

Lemma agree_shm call i j op op' :
  agree (Z.to_nat i) op op' → 0 ≤ i → 0 ≤ j → j ≠ i → shm_at call op' j = shm_at call op j.
Proof.
  intros HA Hi Hj Hne. unfold shm_at. rewrite (agree_sh _ _ _ HA) by lia. done.
Qed.

(** A reference parameter with a mailbox copy points to a live shared buffer. *)
Definition refs_live (call : tc_call_params) (R0 : registry) (op : tc_op_params) : Prop :=
  ∀ j, 0 ≤ j → is_ref_mem (param_type_of call j) = true →
    nth (Z.to_nat j) (op_mb_buffer (mb_operation op)) 0 ≠ 0 →
    is_Some (g_shared R0 !! nth (Z.to_nat j) (op_sharemem (mb_operation op)) 0).

(** What a call needs of the registry it starts in. *)
Record call_pre (R : registry) (call : tc_call_params) : Prop := {
  pre_reg : is_global_call call = false → reg_ok R;
  pre_valid : valid_call R call;
  pre_shared : shared_ok (g_shared R);
  pre_shared_list d q :
    g_devs R !! call_dev call = Some d → q ∈ shared_mem_list d →
    q ≠ 0 ∧ is_Some (g_shared R !! q);
  pre_open i :
    is_opensession_by_index (call_flags call) (ctx_cmd_id (call_context call)) i = true →
    is_Some (g_sessions R !! call_sess call)
}.

Abbreviation idx := (seqZ 0 TEE_PARAM_NUM).

Lemma idx_range i : i ∈ idx ↔ 0 ≤ i < 4.
Proof. rewrite elem_of_seqZ. unfold TEE_PARAM_NUM. lia. Qed.

Lemma idx_nodup : NoDup idx.
Proof. apply NoDup_seqZ. Qed.

Section Alloc.
Context {Env St : Type} {BA : BlockAllocator St} {BAL : BlockAllocatorLaws St BA}.
Context {P : PageMap} {SC : SecureC} {SB : SecureBuf} {CM : ClientMem}.
Context {KR : KernelRandom} {KC : KernelCipher} {KA : KernelAlloc}.
Context (call : tc_call_params) (L : gset Z) (R0 : registry).
Context (Hpre : call_pre R0 call).

Abbreviation state := (call_state Env St).

(** One parameter more. *)
Lemma holding_step (k k' : state) i :
  i ∈ idx → holding call L R0 k idx → empty_at (cs_op k) (Z.to_nat i) →
  agree (Z.to_nat i) (cs_op k) (cs_op k') →
  owns_plus (cs_pool k') (blk_at call (cs_op k') i ++ held (blk_at call (cs_op k)) idx) L →
  reg_like R0 (cs_reg k') →
  g_shared (cs_reg k') = bump (shm_at call (cs_op k') i ++ held (shm_at call (cs_op k)) idx)
                           (g_shared R0) →
  (∀ p, p ∈ shm_at call (cs_op k') i → is_Some (g_shared R0 !! p)) →
  holding call L R0 k' idx.
Proof.
  intros Hi [Hp Hr Hs Ha] He HA Hp' Hr' Hs' Ha'. pose proof (proj1 (idx_range i) Hi) as Hi'.
  assert (held (blk_at call (cs_op k')) idx
    ≡ₚ blk_at call (cs_op k') i ++ held (blk_at call (cs_op k)) idx) as EB.
  { apply held_update; [apply idx_nodup|done|by apply empty_blk|].
    intros j Hj%idx_range Hne. by eapply agree_blk; [| |lia|]; [done|lia|]. }
  assert (held (shm_at call (cs_op k')) idx
    ≡ₚ shm_at call (cs_op k') i ++ held (shm_at call (cs_op k)) idx) as ES.
  { apply held_update; [apply idx_nodup|done|by apply empty_shm|].
    intros j Hj%idx_range Hne. by eapply agree_shm; [| |lia|]; [done|lia|]. }
  split; [by rewrite EB|done|by rewrite ES|].
  intros p Hp1. rewrite ES in Hp1. apply elem_of_app in Hp1 as [|]; [by apply Ha'|by apply Ha].
Qed.

(** What a step on parameter [i] guarantees. *)
Definition step_ok (k : state) (i : Z) (o : outcome (state * Z)) : Prop :=
  ∃ k' r, o = Ret (k', r) ∧ holding call L R0 k' idx ∧
    agree (Z.to_nat i) (cs_op k) (cs_op k') ∧ refs_live call R0 (cs_op k').

Record ready (k : state) (i : Z) : Prop := {
  ready_idx : i ∈ idx;
  ready_hold : holding call L R0 k idx;
  ready_shape : op_shape (cs_op k);
  ready_empty : empty_at (cs_op k) (Z.to_nat i);
  ready_live : refs_live call R0 (cs_op k)
}.

Lemma refs_live_agree i op op' :
  0 ≤ i → refs_live call R0 op → agree (Z.to_nat i) op op' →
  (is_ref_mem (param_type_of call i) = true →
     nth (Z.to_nat i) (op_mb_buffer (mb_operation op')) 0 ≠ 0 →
     is_Some (g_shared R0 !! nth (Z.to_nat i) (op_sharemem (mb_operation op')) 0)) →
  refs_live call R0 op'.
Proof.
  intros Hi HL HA Hnew j Hj Hty Hm.
  destruct (decide (j = i)) as [->|Hne]; [by apply Hnew|].
  rewrite (agree_mb _ _ _ HA) in Hm by lia. rewrite (agree_sh _ _ _ HA) by lia. by apply HL.
Qed.

Lemma step_ok_same (k k' : state) i r :
  ready k i → same_ptrs (cs_op k) (cs_op k') → op_smc_cmd (cs_op k') = op_smc_cmd (cs_op k) →
  owns_plus (cs_pool k') (held (blk_at call (cs_op k)) idx) L →
  cs_reg k' = cs_reg k → step_ok k i (Ret (k', r)).
Proof.
  intros [Hi Hh _ He Hl] HS Hc Hp Hr. exists k', r. split; [done|].
  pose proof (same_ptrs_agree (Z.to_nat i) _ _ HS Hc) as HA.
  split_and!; [|done|].
  - destruct Hh as [_ Hr0 Hs Ha].
    assert (held (blk_at call (cs_op k')) idx = held (blk_at call (cs_op k)) idx) as EB
      by (apply held_ext; intros; by apply same_ptrs_blk).
    assert (held (shm_at call (cs_op k')) idx = held (shm_at call (cs_op k)) idx) as ES
      by (apply held_ext; intros; by apply same_ptrs_shm).
    split; rewrite ?EB, ?ES, ?Hr; done.
  - destruct HS as (_ & M & H & _). intros j. rewrite M, H. apply Hl.
Qed.

Lemma step_ok_tmp (k k' : state) i r a n :
  ready k i → is_tmp_mem (param_type_of call i) = true → a ≠ 0 →
  same_ptrs (op_with_tmpbuf (cs_op k) (Z.to_nat i) a n) (cs_op k') →
  op_smc_cmd (cs_op k') = op_smc_cmd (cs_op k) →
  owns_plus (cs_pool k') (a :: held (blk_at call (cs_op k)) idx) L →
  cs_reg k' = cs_reg k → step_ok k i (Ret (k', r)).
Proof.
  intros [Hi Hh (HT & _) He Hl] Hty Ha HS Hc Hp Hr. exists k', r. split; [done|].
  pose proof (proj1 (idx_range i) Hi) as Hi'.
  assert (agree (Z.to_nat i) (cs_op k) (cs_op k')) as HA.
  { eapply agree_trans; [apply agree_tmpbuf|]. by apply same_ptrs_agree. }
  assert (blk_at call (cs_op k') i = [a]) as EB.
  { rewrite (same_ptrs_blk _ _ _ _ HS). unfold blk_at. rewrite Hty. simpl.
    rewrite nth_insert_eq by lia. unfold nz. simpl. by destruct (Z.eqb_spec a 0). }
  assert (shm_at call (cs_op k') i = []) as ES by (unfold shm_at; by rewrite Hty).
  split_and!; [|done|].
  - eapply holding_step; rewrite ?EB, ?ES, ?Hr; try done; [apply Hh..|].
    intros p Hn. by apply elem_of_nil in Hn.
  - apply (refs_live_agree i (cs_op k)); [lia|done|done|]. intros _ Hm.
    destruct HS as (_ & M & _). rewrite M in Hm. cbn [mb_operation op_with_tmpbuf] in Hm.
    destruct He as (_ & E & _). congruence.
Qed.

Lemma tmp_not_ref ty : is_ref_mem ty = true → is_tmp_mem ty = false.
Proof.
  unfold is_ref_mem, is_tmp_mem, TEEC_MEMREF_PARTIAL_INPUT, TEEC_MEMREF_PARTIAL_OUTPUT,
    TEEC_MEMREF_PARTIAL_INOUT, TEEC_MEMREF_TEMP_INPUT, TEEC_MEMREF_TEMP_OUTPUT,
    TEEC_MEMREF_TEMP_INOUT. lia.
Qed.

Lemma step_ok_ref (k k' : state) i r a q h b p :
  ready k i → is_ref_mem (param_type_of call i) = true → a ≠ 0 → b ≠ 0 →
  is_Some (g_shared R0 !! b) →
  same_ptrs (op_with_operation (cs_op k) (set_sharemem (set_h_addr
    (set_param (set_mb_buffer (mb_operation (cs_op k)) (Z.to_nat i) a) (Z.to_nat i) q)
    (Z.to_nat i) h) (Z.to_nat i) b)) (cs_op k') →
  op_smc_cmd (cs_op k') = op_smc_cmd (cs_op k) →
  owns_plus p (a :: held (blk_at call (cs_op k)) idx) L → cs_pool k' = p →
  cs_reg k' = set_shared (cs_reg k) (bump (b :: held (shm_at call (cs_op k)) idx) (g_shared R0)) →
  step_ok k i (Ret (k', r)).
Proof.
  intros [Hi Hh (_ & HM & HS4) He Hl] Hty Ha Hb Hsb HS Hc Hp Ep Hr. exists k', r.
  split; [done|]. pose proof (proj1 (idx_range i) Hi) as Hi'.
  pose proof (tmp_not_ref _ Hty) as Hnt.
  assert (agree (Z.to_nat i) (cs_op k) (cs_op k')) as HA.
  { eapply agree_trans; [apply agree_mb_sh|]. by apply same_ptrs_agree. }
  assert (nth (Z.to_nat i) (op_mb_buffer (mb_operation (cs_op k'))) 0 = a) as EM.
  { destruct HS as (_ & -> & _). simpl. apply nth_insert_eq. rewrite HM. lia. }
  assert (nth (Z.to_nat i) (op_sharemem (mb_operation (cs_op k'))) 0 = b) as EH.
  { destruct HS as (_ & _ & -> & _). simpl. apply nth_insert_eq. rewrite HS4. lia. }
  assert (blk_at call (cs_op k') i = [a]) as EB.
  { unfold blk_at. rewrite Hnt, Hty, EM. unfold nz. by destruct (Z.eqb_spec a 0). }
  assert (shm_at call (cs_op k') i = [b]) as ES.
  { unfold shm_at. rewrite Hnt, Hty, EH. unfold nz. by destruct (Z.eqb_spec b 0). }
  split_and!; [|done|].
  - eapply holding_step; rewrite ?EB, ?ES, ?Hr, ?Ep; try done.
    + etrans; [apply Hh|apply set_shared_like].
    + intros x Hx. by apply list_elem_of_singleton in Hx as ->.
  - apply (refs_live_agree i (cs_op k)); [lia|done|done|]. intros _ _. by rewrite EH.
Qed.

Lemma opensess_total m R temp_buf n i :
  reg_like R0 R → ∃ m' r, do_opensess_auth_enhance m R call temp_buf n i = Ret (m', r).
Proof.
  intros HR. unfold do_opensess_auth_enhance.
  destruct (is_opensession_by_index _ _ i) eqn:E; cbn [negb]; [|eauto].
  pose proof (like_is_Some _ _ _ HR (pre_open _ _ Hpre _ E)) as Hs.
  destruct (at_index_is_Some _ _ Hs) as (s & -> & _). rewrite ret_bind.
  match goal with |- context [encrypt_login_info ?a ?b ?c ?d ?e] =>
    destruct (encrypt_login_info a b c d e) end. eauto.
Qed.

Lemma read_u32_range m src api r n : read_u32 m src api = (r, n) → 0 ≤ n < 2 ^ 32.
Proof.
  unfold read_u32. destruct (read_from_client _ _ _ _ _ _). intros [= _ <-]. apply u32_range.
Qed.

Lemma alloc_for_tmp_mem_ok (k : state) kp ty i :
  ready k i → is_tmp_mem (param_type_of call i) = true →
  step_ok k i (alloc_for_tmp_mem call k kp ty i).
Proof.
  intros Hk Hty. pose proof (ready_hold _ _ Hk) as Hh. unfold alloc_for_tmp_mem.
  assert (∀ r, step_ok k i (Ret (k, r))) as Hsame by
    (intros; apply step_ok_same; [done|done|done|apply Hh|done]).
  destruct (TEE_PARAM_NUM <=? i); [done|].
  destruct (read_u32 _ _ _) as [r n] eqn:Er. apply read_u32_range in Er.
  destruct (nonzero r); [done|]. destruct (MAX_SHARED_SIZE <? n); [done|].
  destruct (owns_plus_alloc (cs_pool k) _ L (cs_mem k) n MB_FLAG_ZERO (hold_pool _ _ _ _ _ Hh))
    as (s' & m' & a & -> & [(-> & _ & Ho)|[Ha Ho]]); [lia|..]; rewrite ret_bind.
  { by apply step_ok_same. }
  rewrite (proj2 (Z.eqb_neq a 0)) by done.
  destruct (update_input_data _ _ _ _ _ _) as [m1 r1].
  assert (∀ m r, step_ok k i (Ret (with_mem (with_op (with_pool k s' m')
    (op_with_tmpbuf (cs_op (with_pool k s' m')) (Z.to_nat i) a n)) m, r))) as Hstep
    by (intros; eapply step_ok_tmp; eauto; done).
  destruct (nonzero r1); [apply Hstep|].
  destruct (opensess_total m1 (cs_reg k) a n i (hold_reg _ _ _ _ _ Hh)) as (m2 & r2 & E2).
  cbn [cs_reg with_mem with_op with_pool]. rewrite E2, ret_bind.
  destruct (nonzero r2); [apply Hstep|]. eapply step_ok_tmp; eauto; done.
Qed.

(** Later changes that keep the pointers. *)
Lemma step_ok_then (k k2 k3 : state) i r r' :
  step_ok k i (Ret (k2, r)) → same_ptrs (cs_op k2) (cs_op k3) →
  op_smc_cmd (cs_op k3) = op_smc_cmd (cs_op k2) → cs_pool k3 = cs_pool k2 →
  cs_reg k3 = cs_reg k2 → step_ok k i (Ret (k3, r')).
Proof.
  intros (k0 & r0 & [= <- <-] & [Hp Hr Hs Ha] & HA & Hl) HS Hc Ep Er.
  exists k3, r'. split; [done|]. split_and!.
  - assert (held (blk_at call (cs_op k3)) idx = held (blk_at call (cs_op k2)) idx) as EB
      by (apply held_ext; intros; by apply same_ptrs_blk).
    assert (held (shm_at call (cs_op k3)) idx = held (shm_at call (cs_op k2)) idx) as ES
      by (apply held_ext; intros; by apply same_ptrs_shm).
    split; rewrite ?EB, ?ES, ?Ep, ?Er; done.
  - eapply agree_trans; [exact HA|by apply same_ptrs_agree].
  - destruct HS as (_ & M & H & _). intros j. rewrite M, H. apply Hl.
Qed.

Lemma step_ok_before (k k1 : state) i o :
  same_ptrs (cs_op k) (cs_op k1) → op_smc_cmd (cs_op k1) = op_smc_cmd (cs_op k) →
  step_ok k1 i o → step_ok k i o.
Proof.
  intros HS Hc (k' & r & -> & Hh & HA & Hl). exists k', r. split_and!; try done.
  eapply agree_trans; [by apply same_ptrs_agree|done].
Qed.

Lemma ready_same (k k1 : state) i :
  ready k i → same_ptrs (cs_op k) (cs_op k1) → op_smc_cmd (cs_op k1) = op_smc_cmd (cs_op k) →
  cs_pool k1 = cs_pool k → cs_reg k1 = cs_reg k → ready k1 i.
Proof.
  intros Hk HS Hc Ep Er.
  destruct (step_ok_same k k1 i 0 Hk HS Hc) as (k' & r & [= <- <-] & Hh & HA & Hl);
    [rewrite Ep; apply Hk|done|].
  destruct Hk as [Hi _ Hsh He _]. split; try done; [by apply HA|].
  destruct HS as (T & M & H & _). unfold empty_at. by rewrite T, M, H.
Qed.

Lemma ref_mem_loop_ok (k : state) p i n l :
  ready k i → is_ref_mem (param_type_of call i) = true → 0 ≤ n < 2 ^ 32 →
  (∀ q, q ∈ l → q ≠ 0 ∧ is_Some (g_shared R0 !! q)) →
  step_ok k i (ref_mem_loop k p (Z.to_nat i) n l).
Proof.
  intros Hk Hty Hn. pose proof (ready_hold _ _ Hk) as Hh.
  assert (∀ r, step_ok k i (Ret (k, r))) as Hsame by
    (intros; apply step_ok_same; [done|done|done|apply Hh|done]).
  induction l as [|q l IH]; intros Hl; cbn [ref_mem_loop]; [done|].
  destruct (Hl q) as [Hq0 Hq]; [by left|].
  assert (is_Some (g_shared (cs_reg k) !! q)) as Hq'.
  { rewrite (hold_shared _ _ _ _ _ Hh), bump_lookup. by destruct Hq as [x ->]. }
  destruct (at_index_is_Some _ _ Hq') as (h & -> & _). rewrite ret_bind.
  destruct (negb (sm_user_addr h =? _)); [apply IH; intros; apply Hl; by right|].
  destruct (negb _); [done|].
  destruct (owns_plus_copy_alloc (cs_pool k) _ L (cs_mem k) (u64 (sm_kernel_addr h + cp_offset p))
    n (hold_pool _ _ _ _ _ Hh)) as (s' & m' & a & -> & [[-> Ho]|[Ha Ho]]); [lia|..];
    rewrite ret_bind; [by apply step_ok_same|].
  rewrite (proj2 (Z.eqb_neq a 0)) by done. cbn [cs_reg with_operation_of with_op with_pool].
  pose proof (held_length _ idx (shm_at_length call (cs_op k))) as Hlen.
  rewrite (get_sharemem_bump _ _ _ _ (hold_shared _ _ _ _ _ Hh) (pre_shared _ _ Hpre) Hq Hq0 Hlen).
  rewrite ret_bind.
  by apply (step_ok_ref _ _ i 0 a (NsParam 0 0) 0 q s' Hk Hty Ha Hq0 Hq).
Qed.

Lemma alloc_for_ref_mem_ok (k : state) kp ty i :
  ready k i → is_ref_mem (param_type_of call i) = true →
  step_ok k i (alloc_for_ref_mem call k kp ty i).
Proof.
  intros Hk Hty. pose proof (ready_hold _ _ Hk) as Hh. unfold alloc_for_ref_mem.
  assert (∀ r, step_ok k i (Ret (k, r))) as Hsame by
    (intros; apply step_ok_same; [done|done|done|apply Hh|done]).
  destruct (TEE_PARAM_NUM <=? i); [done|].
  destruct (check_buffer_for_ref _ _ _) as [r n] eqn:Er.
  assert (0 ≤ n < 2 ^ 32) as Hn.
  { unfold check_buffer_for_ref in Er. destruct (read_u32 _ _ _) as [r0 n0] eqn:E0.
    apply read_u32_range in E0. destruct (nonzero r0), (n0 =? 0); by simplify_eq. }
  destruct (nonzero r); [done|].
  set (k1 := with_operation_of k _).
  assert (ready k1 i) as Hk1 by by apply (ready_same k).
  assert (is_Some (g_devs (cs_reg k1) !! call_dev call)) as Hd.
  { change (cs_reg k1) with (cs_reg k). rewrite (like_devs _ _ (hold_reg _ _ _ _ _ Hh)).
    apply (pre_valid _ _ Hpre). }
  destruct (at_index_is_Some _ _ Hd) as (d & -> & Ed). rewrite ret_bind.
  change (cs_reg k1) with (cs_reg k) in Ed. rewrite (like_devs _ _ (hold_reg _ _ _ _ _ Hh)) in Ed.
  pose proof (ref_mem_loop_ok k1 (client_param_at (call_context call) i) i n (shared_mem_list d)
    Hk1 Hty Hn (λ q, pre_shared_list _ _ Hpre d q Ed)) as Hloop.
  apply (step_ok_before k) in Hloop; [|done|done].
  destruct (ref_mem_loop _ _ _ _ _) as [[k2 r2]|]; [|by destruct Hloop as (? & ? & [=] & _)].
  rewrite ret_bind. destruct (nonzero r2); [done|].
  destruct (negb _); by eapply step_ok_then.
Qed.

Lemma transfer_client_value_ok (k : state) kp ty i :
  ready k i → step_ok k i (transfer_client_value call k kp ty i).
Proof.
  intros Hk. pose proof (ready_hold _ _ Hk) as Hh. unfold transfer_client_value.
  assert (∀ k' r, same_ptrs (cs_op k) (cs_op k') →
    op_smc_cmd (cs_op k') = op_smc_cmd (cs_op k) → cs_pool k' = cs_pool k →
    cs_reg k' = cs_reg k → step_ok k i (Ret (k', r))) as Hsame.
  { intros k' r HS Hc Hp Hr. apply step_ok_same; try done. rewrite Hp. apply Hh. }
  destruct (TEE_PARAM_NUM <=? i); [by apply Hsame|].
  destruct (read_u32 _ _ _) as [r a]. destruct (nonzero r); [by apply Hsame|].
  destruct (read_u32 _ _ _) as [r' b]. destruct (nonzero r'); by apply Hsame.
Qed.

Lemma alloc_param_ok (k : state) kp i :
  ready k i → step_ok k i (alloc_param call k kp i).
Proof.
  intros Hk. pose proof (ready_hold _ _ Hk) as Hh. unfold alloc_param.
  assert (∀ r, step_ok k i (Ret (k, r))) as Hsame by
    (intros; apply step_ok_same; [done|done|done|apply Hh|done]).
  change (teec_tmpmem_type (param_type_of call i) INOUT)
    with (is_tmp_mem (param_type_of call i)).
  change (teec_memref_type (param_type_of call i) INOUT)
    with (is_ref_mem (param_type_of call i)).
  destruct (is_tmp_mem _) eqn:E1; [by apply alloc_for_tmp_mem_ok|].
  destruct (is_ref_mem _) eqn:E2; [by apply alloc_for_ref_mem_ok|].
  destruct (teec_value_type _ _); [by apply transfer_client_value_ok|].
  destruct (_ =? TEEC_ION_INPUT); [apply Hsame|].
  destruct (_ =? TEEC_ION_SGLIST_INPUT); apply Hsame.
Qed.

Lemma alloc_params_ok l (k : state) kp :
  NoDup l → (∀ i, i ∈ l → i ∈ idx) → holding call L R0 k idx → op_shape (cs_op k) →
  (∀ i, i ∈ l → empty_at (cs_op k) (Z.to_nat i)) → refs_live call R0 (cs_op k) →
  ∃ k' r, alloc_params call k kp l = Ret (k', r) ∧ holding call L R0 k' idx ∧
    refs_live call R0 (cs_op k') ∧ mb_pack (cs_op k') = mb_pack (cs_op k) ∧
    op_inited (cs_op k') = op_inited (cs_op k) ∧ op_shape (cs_op k').
Proof.
  revert k kp. induction l as [|i l IH]; intros k kp Hnd Hsub Hh Hsh He Hl; [by eexists _, _|].
  apply NoDup_cons in Hnd as [Hi Hnd]. cbn [alloc_params].
  set (kp' := if _ && _ then _ else _).
  destruct (alloc_param_ok k kp' i) as (k1 & r & -> & Hh1 & HA & Hl1).
  { split; try done; [apply Hsub; by left|apply He; by left]. }
  rewrite ret_bind. pose proof (agree_shape _ _ _ HA Hsh) as Hsh1.
  destruct (nonzero r).
  { eexists _, _. split; [done|]. split_and!; try done; apply HA. }
  destruct (IH k1 kp') as (k' & r' & E & ? & ? & Ep & Ei & ?); try done.
  - intros j Hj. apply Hsub. by right.
  - intros j Hj. eapply agree_empty; [exact HA| |apply He; by right].
    assert (j ≠ i) by (by intros ->).
    pose proof (proj1 (idx_range i) (Hsub i ltac:(by left))).
    pose proof (proj1 (idx_range j) (Hsub j ltac:(by right))). lia.
  - exists k', r'. split; [done|]. rewrite Ep, Ei. split_and!; try done; apply HA.
Qed.

End Alloc.
