(* ===== verification/GpCallThm.v ===== *)
(** * A client call gives back everything it takes

    The invariant of a call from the moment its mailbox pack is allocated to
    its release, and the totality of each of its steps. *)

From stdpp Require Import base gmap list fin_maps fin_sets.
From Stdlib Require Import ZArith Lia Setoid.
From S2P Require Import Prelude KernelApi TeeTypes Buffers Mailbox MailboxClaims SessReg.
From S2P Require Import SessLookup SessOk CallTypes Auth AuthCall AuthOk GpParams GpCall.
From S2P Require Import GpHeld GpAlloc.

(** What the driver relies on of the TEE: it leaves the driver's own pointers
    in the shared operation alone, and it does not answer [TEEC_PENDING] for
    ever. *)
Class TeeBehaviour (Env : Type) (SMC : SmcChannel Env) := {
  tee_keeps e m o c e' m' o' c' r :
    tc_ns_smc e m o c = (e', m', o', c', r) →
    op_sharemem o' = op_sharemem o ∧ op_mb_buffer o' = op_mb_buffer o;
  tee_keeps_no_nr e m o c e' m' o' c' r :
    tc_ns_smc_with_no_nr e m o c = (e', m', o', c', r) →
    op_sharemem o' = op_sharemem o ∧ op_mb_buffer o' = op_mb_buffer o;
  tee_rank : Env → nat;
  tee_rank_sees e R : tee_rank (smc_sees e R) = tee_rank e;
  tee_rank_dec e m o c e' m' o' c' r :
    tc_ns_smc_with_no_nr e m o c = (e', m', o', c', r) → u32 r = TEEC_PENDING →
    (tee_rank e' < tee_rank e)%nat
}.

Lemma same_ptrs_trans a b c : same_ptrs a b → same_ptrs b c → same_ptrs a c.
Proof.
  intros (A1 & A2 & A3 & A4 & A5) (B1 & B2 & B3 & B4 & B5).
  split_and!; [by rewrite B1|by rewrite B2|by rewrite B3|by rewrite B4|by rewrite B5].
Qed.

Section Balance.
Context {Env St : Type} {BA : BlockAllocator St} {BAL : BlockAllocatorLaws St BA}.
Context {SMC : SmcChannel Env} {TB : TeeBehaviour Env SMC}.
Context {P : PageMap} {SC : SecureC} {SB : SecureBuf} {CM : ClientMem}.
Context {KR : KernelRandom} {KC : KernelCipher} {KA : KernelAlloc} {CU : Current}.
Context {VV : VirtValid} {VL : VirtValidLaws St BA VV}.

Abbreviation state := (call_state Env St).

(** A step of a call that neither takes nor gives back anything. *)
Definition cstep (k k' : state) : Prop :=
  same_ptrs (cs_op k) (cs_op k') ∧ cs_pool k' = cs_pool k ∧ sess_step (cs_reg k) (cs_reg k').

(** Solves [cstep] goals whose states differ in plain fields. *)
Ltac cstep_tac :=
  intros; unfold cstep, same_ptrs; split_and!; try done; try reflexivity; try assumption.

Lemma cstep_refl k : cstep k k.
Proof. by cstep_tac. Qed.

Lemma cstep_trans k1 k2 k3 : cstep k1 k2 → cstep k2 k3 → cstep k1 k3.
Proof.
  intros (H1 & H2 & H3) (H1' & H2' & H3'). split_and!.
  - by eapply same_ptrs_trans.
  - congruence.
  - by etrans.
Qed.

Lemma cstep_mem k m : cstep k (with_mem k m).
Proof. by cstep_tac. Qed.

Lemma cstep_cmd k c : cstep k (with_op k (op_with_cmd (cs_op k) c)).
Proof. by cstep_tac. Qed.

Lemma cstep_reg k m R : sess_step (cs_reg k) R → cstep k (with_reg (with_mem k m) R).
Proof. by cstep_tac. Qed.

Section Fixed.
Context (R0 : registry) (L : gset Z).

(** Between the allocation and the release of the pack. *)
Definition in_call (call : tc_call_params) (k : state) : Prop :=
  (mb_pack (cs_op k) ∉ L) ∧
  if op_inited (cs_op k)
  then holding call ({[ mb_pack (cs_op k) ]} ∪ L) R0 k idx ∧ refs_live call R0 (cs_op k)
  else ba_owns (cs_pool k) ({[ mb_pack (cs_op k) ]} ∪ L) ∧
       reg_like R0 (cs_reg k) ∧ g_shared (cs_reg k) = g_shared R0.

Lemma in_call_reg call k : in_call call k → reg_like R0 (cs_reg k).
Proof. intros [_ H]. destruct (op_inited _); [apply H|apply H]. Qed.

Lemma in_call_step call k k' : in_call call k → cstep k k' → in_call call k'.
Proof.
  intros [Hn H] (HS & Ep & [HL Esh]). pose proof HS as (_ & M & Sh & Epk & Ei).
  unfold in_call. rewrite Epk, Ei, Ep. split; [done|].
  destruct (op_inited (cs_op k)).
  - destruct H as [[Hp Hr Hs Ha] Hl].
    assert (held (blk_at call (cs_op k')) idx = held (blk_at call (cs_op k)) idx) as EB
      by (apply held_ext; intros; by apply same_ptrs_blk).
    assert (held (shm_at call (cs_op k')) idx = held (shm_at call (cs_op k)) idx) as ES
      by (apply held_ext; intros; by apply same_ptrs_shm).
    split; [split; rewrite ?EB, ?ES, ?Ep, ?Esh; try done; by etrans|].
    intros j. rewrite M, Sh. apply Hl.
  - destruct H as (Ho & Hr & Hs). split_and!; [done|by etrans|congruence].
Qed.

Section Call.
Context (call : tc_call_params) (Hpre : call_pre R0 call).

Lemma in_call_reg_ok k : in_call call k → is_global_call call = false → reg_ok (cs_reg k).
Proof. intros H%in_call_reg Hg. rewrite <- H. by apply Hpre. Qed.

Lemma in_call_valid k : in_call call k → valid_call (cs_reg k) call.
Proof. intros H%in_call_reg. eapply valid_call_like; [exact H|apply Hpre]. Qed.

Lemma in_call_dev k : in_call call k → ∃ d, at_index (g_devs (cs_reg k)) (call_dev call) = Ret d.
Proof. intros [Hd _]%in_call_valid. destruct (at_index_is_Some _ _ Hd) as (d & ? & _). eauto. Qed.

(** ** Preparing and sending *)

(** A total step. *)
Definition total_step (k : state) (o : outcome (state * Z)) : Prop :=
  ∃ k' r, o = Ret (k', r) ∧ cstep k k'.

Lemma total_ret k k' r : cstep k k' → total_step k (Ret (k', r)).
Proof. intros. by exists k', r. Qed.

Lemma init_smc_cmd_total k : in_call call k → total_step k (init_smc_cmd call k).
Proof.
  intros Hk. unfold init_smc_cmd. destruct (buf_copy _ _ _ _ _ _) as [r u].
  destruct (nonzero r); [apply total_ret, cstep_refl|].
  destruct (in_call_dev k Hk) as (d & ->). rewrite ret_bind.
  destruct (tzmp2_uid _ _ _ _) as [[g c] r']. apply total_ret. by cstep_tac.
Qed.

Lemma check_login_total k : in_call call k → total_step k (check_login_for_encrypt call k).
Proof.
  intros Hk. unfold check_login_for_encrypt.
  destruct (in_call_dev k Hk) as (d & ->). rewrite ret_bind.
  destruct (need_check_login d call (cs_op k) && nonzero (call_sess call)) eqn:E;
    [|apply total_ret, cstep_cmd].
  apply andb_true_iff in E as [_ E]. unfold nonzero in E.
  destruct (in_call_valid k Hk) as [_ [Hs|Hs]]; [by rewrite Hs in E|].
  destruct (at_index_is_Some _ _ Hs) as (s & -> & Es). rewrite ret_bind.
  destruct (do_encryption _ _ _ _ _) as [ret b].
  assert (sess_step (cs_reg k) (upd_session (cs_reg k) (call_sess call)
    (with_auth_hash s (default [] b)))) as HS by (by eapply upd_session_step).
  destruct (nonzero ret); [apply total_ret; by cstep_tac|].
  destruct (buf_copy _ _ _ _ _ _) as [r l].
  destruct (nonzero r); apply total_ret; by cstep_tac.
Qed.

Lemma config_total k : in_call call k → total_step k (config_smc_cmd_context call k).
Proof.
  intros Hk. unfold config_smc_cmd_context.
  destruct (init_smc_cmd_total k Hk) as (k1 & r1 & -> & H1). rewrite ret_bind.
  destruct (nonzero r1); [by apply total_ret|].
  pose proof (in_call_step _ _ _ Hk H1) as Hk1.
  destruct (check_login_total k1 Hk1) as (k2 & r2 & -> & H2). rewrite ret_bind.
  pose proof (cstep_trans _ _ _ H1 H2) as H12.
  destruct (nonzero r2); [by apply total_ret|].
  pose proof (in_call_step _ _ _ Hk1 H2) as Hk2.
  destruct (load_security_enhance_info_total (cs_mem k2) (cs_reg k2) call (cs_op k2)
    (in_call_valid _ Hk2)) as (m & R & c & r & -> & HS).
  rewrite ret_bind. apply total_ret. eapply cstep_trans; [exact H12|].
  by cstep_tac.
Qed.

Lemma send_cstep f k k' r :
  (∀ e m o c e' m' o' c' r', f e m o c = (e', m', o', c', r') →
     op_sharemem o' = op_sharemem o ∧ op_mb_buffer o' = op_mb_buffer o) →
  send f k = (k', r) → cstep k k'.
Proof.
  intros Hf. unfold send. destruct (f _ _ _ _) as [[[[e m] o] c] r0] eqn:E.
  destruct (Hf _ _ _ _ _ _ _ _ _ E) as [E1 E2]. intros [= <- <-]. by cstep_tac.
Qed.

Lemma post_process_total k : in_call call k → total_step k (run_post_process_token call k).
Proof.
  intros Hk. unfold run_post_process_token.
  destruct (post_process_token_total (cs_mem k) (cs_reg k) call (cs_op k)
    (in_call_reg_ok _ Hk) (in_call_valid _ Hk)) as (m & R & r & -> & HS).
  rewrite ret_bind. apply total_ret. by apply cstep_reg.
Qed.

(** ** Waiting for a pending TA *)

Lemma pend_ca_thread_total R :
  valid_call R call → ∃ R', pend_ca_thread R (call_sess call) = Ret R' ∧ sess_step R R'.
Proof.
  intros [_ Hs]. unfold pend_ca_thread. destruct (Z.eqb_spec (call_sess call) 0); [by eexists|].
  destruct Hs as [|Hs]; [done|].
  destruct (at_index_is_Some _ _ Hs) as (s & -> & Es). rewrite ret_bind.
  eexists. split; [done|]. by eapply upd_session_step.
Qed.

Lemma pending_loop_total fuel k tr :
  in_call call k → (tee_rank (cs_env k) < fuel)%nat →
  ∃ k' tr' r, pending_loop fuel call k tr = Ret (Some (k', tr', r)) ∧ cstep k k'.
Proof.
  revert k tr. induction fuel as [|fuel IH]; intros k tr Hk Hf; [lia|]. cbn [pending_loop].
  destruct (pend_ca_thread_total _ (in_call_valid _ Hk)) as (R1 & -> & HS1). rewrite ret_bind.
  destruct (append_teec_token_total (cs_mem k) R1 call (cs_op k)) as (m & R2 & r & -> & HS2).
  { eapply valid_call_like; [apply HS1|by apply in_call_valid]. }
  rewrite ret_bind.
  assert (cstep k (with_reg (with_mem k m) R2)) as H1 by (apply cstep_reg; by etrans).
  destruct (nonzero r); [by eexists _, _, _|].
  destruct (send tc_ns_smc_with_no_nr _) as [k2 tr2] eqn:Es.
  pose proof (send_cstep _ _ _ _ tee_keeps_no_nr Es) as H2.
  pose proof (cstep_trans _ _ _ H1 H2) as H12.
  pose proof (in_call_step _ _ _ Hk H12) as Hk2.
  destruct (post_process_total k2 Hk2) as (k3 & r3 & E3 & H3). rewrite E3, ret_bind.
  pose proof (cstep_trans _ _ _ H12 H3) as H123.
  destruct (nonzero r3); [by eexists _, _, _|].
  destruct (Z.eqb_spec (u32 tr2) TEEC_PENDING) as [Et|]; [|by eexists _, _, _].
  destruct (IH k3 tr2) as (k' & tr' & r' & -> & H4); [by eapply in_call_step| |].
  - assert (cs_env k3 = cs_env k2) as ->.
    { unfold run_post_process_token in E3. apply bind_Ret in E3 as ([[m' R'] r'] & _ & E3).
      by apply Ret_inj2 in E3 as [<- _]. }
    unfold send in Es. destruct (tc_ns_smc_with_no_nr _ _ _ _) as [[[[e m'] o] c] r0] eqn:E.
    injection Es as <- <-. pose proof (tee_rank_dec _ _ _ _ _ _ _ _ _ E Et) as Hd.
    rewrite tee_rank_sees in Hd. simpl in Hd |- *. lia.
  - eexists _, _, _. split; [done|]. by eapply cstep_trans.
Qed.

(** ** Updating the client *)

Lemma update_param_total k api c i :
  in_call call k → op_inited (cs_op k) = true → 0 ≤ i →
  total_step k (update_param call k api c i).
Proof.
  intros Hk Hin Hi. unfold update_param.
  destruct (teec_tmpmem_type _ _).
  { unfold update_tmp_mem, update_tmp_mem_seen. destruct (TEE_PARAM_NUM <=? i); [apply total_ret, cstep_refl|].
    destruct (nth _ _ _) as [tb sz]. destruct (write_u32 _ _ _ _) as [r m].
    destruct (nonzero r); [apply total_ret, cstep_mem|].
    destruct (sz <? _); [apply total_ret, cstep_mem|].
    destruct (write_to_client _ _ _ _ _ _) as [r' m']. apply total_ret. by cstep_tac. }
  destruct (teec_memref_type _ _) eqn:Ety.
  { unfold update_for_ref_mem. destruct (TEE_PARAM_NUM <=? i); [apply total_ret, cstep_refl|].
    destruct (read_u32 _ _ _) as [r os]. destruct (nonzero r); [apply total_ret, cstep_refl|].
    destruct (write_u32 _ _ _ _) as [r' m]. destruct (nonzero r'); [apply total_ret, cstep_mem|].
    destruct (nonzero (nth _ _ _)) eqn:Em; cbn [andb]; [|apply total_ret, cstep_mem].
    destruct (_ <=? os); [|apply total_ret, cstep_mem].
    destruct Hk as [_ Hk]. rewrite Hin in Hk. destruct Hk as [Hh Hl].
    assert (is_Some (g_shared (cs_reg k)
      !! nth (Z.to_nat i) (op_sharemem (mb_operation (cs_op k))) 0)) as Hs.
    { rewrite (hold_shared _ _ _ _ _ Hh), bump_lookup. apply fmap_is_Some. apply Hl; [done| |].
      - unfold teec_memref_type, is_ref_mem in *. simpl in Ety.
        apply orb_true_iff in Ety as [->| ->]; [by rewrite orb_true_r|by rewrite !orb_true_r].
      - unfold nonzero in Em. intros E. by rewrite E in Em. }
    change (cs_reg (with_mem k m)) with (cs_reg k).
    destruct (at_index_is_Some _ _ Hs) as (h & -> & _). rewrite ret_bind.
    destruct (memcpy_s _ _ _ _ _) as [r2 m2]. apply total_ret. by cstep_tac. }
  destruct (c && _); [|apply total_ret, cstep_refl].
  unfold update_for_value. destruct (TEE_PARAM_NUM <=? i); [apply total_ret, cstep_refl|].
  destruct (write_u32 (cs_mem k) _ _ _) as [r m]. destruct (nonzero r); [apply total_ret, cstep_mem|].
  destruct (write_u32 m _ _ _) as [r' m']. apply total_ret. by cstep_tac.
Qed.

Lemma update_params_total l k api c :
  in_call call k → op_inited (cs_op k) = true → (∀ i, i ∈ l → 0 ≤ i) →
  total_step k (update_params call k api c l).
Proof.
  revert k. induction l as [|i l IH]; intros k Hk Hin Hl; cbn [update_params];
    [apply total_ret, cstep_refl|].
  destruct (update_param_total k api c i Hk Hin (Hl i ltac:(by left))) as (k1 & r & -> & H1).
  rewrite ret_bind. destruct (nonzero r); [by apply total_ret|].
  destruct (IH k1) as (k2 & r2 & -> & H2); [by eapply in_call_step| | |].
  - destruct H1 as ((_ & _ & _ & _ & ->) & _). done.
  - intros; apply Hl; by right.
  - apply total_ret. by eapply cstep_trans.
Qed.

Lemma update_client_total k c : in_call call k → total_step k (update_client_operation call k c).
Proof.
  intros Hk. unfold update_client_operation.
  destruct (op_inited (cs_op k)) eqn:Hin; cbn [negb]; [|apply total_ret, cstep_refl].
  destruct (_ =? 0); [apply total_ret, cstep_refl|].
  destruct (in_call_dev k Hk) as (d & ->). rewrite ret_bind.
  apply update_params_total; [done..|]. intros i Hi%idx_range. lia.
Qed.

Lemma post_proc_total k tr : in_call call k → total_step k (post_proc_smc_return call k tr).
Proof.
  intros Hk. unfold post_proc_smc_return.
  destruct (nonzero tr); [|by apply update_client_total].
  destruct (_ =? TEEC_ERROR_SHORT_BUFFER); [|apply total_ret, cstep_refl].
  destruct (update_client_total k false Hk) as (k1 & r & -> & H). rewrite ret_bind.
  by apply total_ret.
Qed.

(** ** Releasing *)

(** The end of a call: everything is given back. *)
Definition balanced (o : outcome (option (state * tc_ns_client_context * Z))) : Prop :=
  ∃ k x r, o = Ret (Some (k, x, r)) ∧ ba_owns (cs_pool k) L ∧
    reg_like R0 (cs_reg k) ∧ g_shared (cs_reg k) = g_shared R0.

Lemma release_total k tr :
  in_call call k →
  ∃ k' x, release_tc_call_resource call k tr = Ret (k', x) ∧ ba_owns (cs_pool k') L ∧
    reg_like R0 (cs_reg k') ∧ g_shared (cs_reg k') = g_shared R0.
Proof.
  intros [Hn Hk]. unfold release_tc_call_resource.
  assert (∃ k1, (if op_inited (cs_op k) then free_operation call k else Ret k) = Ret k1 ∧
    ba_owns (cs_pool k1) ({[ mb_pack (cs_op k) ]} ∪ L) ∧ reg_like R0 (cs_reg k1) ∧
    g_shared (cs_reg k1) = g_shared R0 ∧ cs_op k1 = cs_op k) as (k1 & -> & Ho & Hr & Hs & Eo).
  { destruct (op_inited (cs_op k)).
    - destruct Hk as [Hh _].
      destruct (free_params_ok call _ R0 idx k (pre_shared _ _ Hpre) ltac:(done) Hh)
        as (k1 & E & Ho & Hr & Hs & Eo & _). eauto 10.
    - destruct Hk as (Ho & Hr & Hs). eauto 10. }
  rewrite ret_bind, Eo.
  destruct (ba_free_ok _ _ (mb_pack (cs_op k)) Ho) as (s & -> & Ho'); [set_solver|].
  rewrite ret_bind. eexists _, _. split; [done|]. split_and!; try done. simpl.
  assert (({[mb_pack (cs_op k)]} ∪ L) ∖ {[mb_pack (cs_op k)]} = L) as E by set_solver.
  by rewrite E in Ho'.
Qed.

Lemma free_src_balanced k tr r : in_call call k → balanced (free_src call k tr r).
Proof.
  intros Hk. unfold free_src.
  set (k1 := if r <? 0 then _ else k).
  assert (in_call call k1) as Hk1.
  { unfold k1. destruct (r <? 0); [|done]. eapply in_call_step; [exact Hk|apply cstep_cmd]. }
  destruct (release_total k1 tr Hk1) as (k' & x & -> & H). rewrite ret_bind.
  by exists k', x, r.
Qed.

End Call.

Lemma reset_in_call call k op tr :
  in_call call k → in_call (reset_session_id call op tr) k.
Proof.
  intros [Hn H]. split; [done|]. destruct (op_inited (cs_op k)); [|done].
  destruct H as [[H1 H2 H3 H4] Hl]. split; [by split|exact Hl].
Qed.

Lemma reset_pre call op tr : call_pre R0 call → call_pre R0 (reset_session_id call op tr).
Proof. intros [H1 H2 H3 H4 H5]. split; [done..|exact H5]. Qed.

Lemma finish_call_balanced fuel call k tr :
  call_pre R0 call → in_call call k → (tee_rank (cs_env k) < fuel)%nat →
  balanced (finish_call fuel call k tr).
Proof.
  intros Hpre Hk Hf. unfold finish_call.
  apply (reset_in_call _ _ (cs_op k) tr) in Hk. apply (reset_pre _ (cs_op k) tr) in Hpre.
  set (call' := reset_session_id call (cs_op k) tr) in *.
  destruct (post_process_total call' Hpre k Hk) as (k1 & r1 & E1 & H1). rewrite E1, ret_bind.
  pose proof (in_call_step _ _ _ Hk H1) as Hk1.
  assert (cs_env k1 = cs_env k) as Ee.
  { unfold run_post_process_token in E1. apply bind_Ret in E1 as ([[m' R'] r'] & _ & E1).
    by apply Ret_inj2 in E1 as [<- _]. }
  destruct (nonzero r1); [by apply free_src_balanced|].
  assert (∃ k2 tr2 r2, handle_ta_pending fuel call' k1 tr = Ret (Some (k2, tr2, r2)) ∧
    cstep k1 k2) as (k2 & tr2 & r2 & -> & H2).
  { unfold handle_ta_pending. destruct (u32 tr =? TEEC_PENDING); cbn [negb].
    - apply pending_loop_total; [done..|]. by rewrite Ee.
    - eexists _, _, _. split; [done|apply cstep_refl]. }
  rewrite ret_bind. pose proof (in_call_step _ _ _ Hk1 H2) as Hk2.
  destruct (nonzero r2); [by apply free_src_balanced|].
  destruct (post_proc_total call' Hpre k2 tr2 Hk2) as (k3 & r3 & -> & H3). rewrite ret_bind.
  apply free_src_balanced; [done|]. by eapply in_call_step.
Qed.

(** ** Allocating *)

Lemma alloc_operation_ok call k :
  call_pre R0 call → in_call call k → op_inited (cs_op k) = false → op_shape (cs_op k) →
  (∀ i, empty_at (cs_op k) i) →
  ∃ k' r, alloc_operation call k = Ret (k', r) ∧ in_call call k'.
Proof.
  intros Hpre Hk Hin Hsh He. pose proof Hk as [Hn Hk']. rewrite Hin in Hk'.
  destruct Hk' as (Ho & Hr & Hs). unfold alloc_operation.
  destruct (in_call_dev call Hpre k Hk) as (d & ->). rewrite ret_bind.
  assert (held (blk_at call (cs_op k)) idx = []) as EB.
  { rewrite (held_ext (λ _, [])); [done|]. intros. by apply empty_blk. }
  assert (held (shm_at call (cs_op k)) idx = []) as ES.
  { rewrite (held_ext (λ _, [])); [done|]. intros. by apply empty_shm. }
  destruct (alloc_params_ok call ({[ mb_pack (cs_op k) ]} ∪ L) R0 Hpre idx k (kernel_api d))
    as (k1 & r & -> & Hh & Hl & Ep & Ei & _); [apply idx_nodup|done| |done|done| |].
  { split; rewrite ?EB, ?ES; [by apply owns_plus_nil|done|by rewrite bump_nil|].
    intros p Hp. by apply elem_of_nil in Hp. }
  { intros j _ _ Hm. destruct (He (Z.to_nat j)) as (_ & E & _). congruence. }
  rewrite ret_bind. destruct (nonzero r).
  - destruct (free_params_ok call _ R0 idx k1 (pre_shared _ _ Hpre) ltac:(done) Hh)
      as (k2 & E & Ho2 & Hr2 & Hs2 & Eo & _).
    unfold free_operation. rewrite E, ret_bind. eexists _, _. split; [done|].
    unfold in_call. rewrite Eo, Ep, Ei, Hin. by split_and!.
  - eexists _, _. split; [done|]. unfold in_call. simpl. rewrite Ep. split; [done|].
    destruct Hh as [H1 H2 H3 H4]. split; [split|]; [exact H1|exact H2|exact H3|exact H4|exact Hl].
Qed.

Lemma client_call_balanced fuel call k :
  call_pre R0 call → reg_like R0 (cs_reg k) → g_shared (cs_reg k) = g_shared R0 →
  ba_owns (cs_pool k) L →
  (∀ e m o c, (tee_rank (tc_ns_smc e m o c).1.1.1.1 < fuel)%nat) →
  balanced (tc_client_call fuel call k).
Proof.
  intros Hpre Hr Hs Ho Hf. unfold tc_client_call.
  assert (∀ x r, balanced (Ret (Some (k, x, r)))) as Hret by (intros; by eexists _, _, _).
  destruct (negb _); [apply Hret|]. unfold alloc_for_client_call.
  destruct (negb (kzalloc_ok _)); [apply Hret|].
  destruct (ba_alloc_ok (cs_pool k) L (cs_mem k) SZ_4K MB_FLAG_ZERO Ho ltac:(unfold SZ_4K; lia))
    as (s & m & a & -> & [(-> & Ho' & _)|(Ha & Hn & _ & Ho' & _)]); rewrite !ret_bind.
  { cbn [Z.eqb]. rewrite ret_bind. by eexists _, _, _. }
  rewrite (proj2 (Z.eqb_neq a 0)), ret_bind by lia. change (nonzero 0) with false. cbv iota.
  set (k1 := set_cmd _ _).
  assert (in_call call k1) as Hk1 by (split; [exact Hn|]; simpl; by split_and!).
  assert (∃ k2 r2, (if nonzero (ctx_param_types (call_context call))
    then alloc_operation call k1 else Ret (k1, 0)) = Ret (k2, r2) ∧ in_call call k2)
    as (k2 & r2 & -> & Hk2).
  { destruct (nonzero _); [|by eexists _, _].
    destruct (alloc_operation_ok call k1 Hpre Hk1) as (k2 & r2 & E & Hk2); try done.
    { intros i. unfold k1, empty_at. simpl. by do 5 (destruct i as [|i]; [done|]). }
    by exists k2, r2. }
  rewrite ret_bind. destruct (nonzero r2); [by apply free_src_balanced|].
  destruct (config_total call Hpre k2 Hk2) as (k3 & r3 & E3 & H3). rewrite E3, ret_bind.
  pose proof (in_call_step _ _ _ Hk2 H3) as Hk3.
  destruct (nonzero r3); [by apply free_src_balanced|].
  destruct (send tc_ns_smc k3) as [k4 tr] eqn:E4.
  pose proof (in_call_step _ _ _ Hk3 (send_cstep _ _ _ _ tee_keeps E4)) as Hk4.
  apply finish_call_balanced; [done..|].
  unfold send in E4.
  pose proof (Hf (smc_sees (cs_env k3) (cs_reg k3)) (cs_mem k3) (mb_operation (cs_op k3))
    (op_smc_cmd (cs_op k3))) as Hr'.
  destruct (tc_ns_smc _ _ _ _) as [[[[e' m'] o'] c'] r']. by injection E4 as <- _.
Qed.

End Fixed.
End Balance.
