(* ===== verification/GpClaims.v ===== *)
(** * GP operations: main theorems

    A client call gives back everything it takes on every path; the transfer
    of temporary buffers in both directions; the bounds of references into
    shared buffers. *)

From stdpp Require Import base gmap list fin_maps fin_sets.
From Stdlib Require Import ZArith Lia Setoid.
From S2P Require Import Prelude KernelApi TeeTypes Buffers Mailbox MailboxThm.
From S2P Require Import MailboxClaims SessReg SessLookup SessOk CallTypes Auth AuthCall.
From S2P Require Import AuthOk AuthCipher GpParams GpCall GpHeld GpAlloc GpCallThm.

(** ** Balance *)

Section Balance.
Context {Env St : Type} {BA : BlockAllocator St} {BAL : BlockAllocatorLaws St BA}.
Context {SMC : SmcChannel Env} {TB : TeeBehaviour Env SMC}.
Context {P : PageMap} {SC : SecureC} {SB : SecureBuf} {CM : ClientMem}.
Context {KR : KernelRandom} {KC : KernelCipher} {KA : KernelAlloc} {CU : Current}.
Context {VV : VirtValid} {VL : VirtValidLaws St BA VV}.

(** C3. A client call returns and gives back everything it takes.  From any
    well-formed registry, whatever the client's parameters, the allocations
    that fail, the copies that fail and the TEE's answers (as long as it does
    not answer [TEEC_PENDING] for ever), [tc_client_call] ends without a fault;
    afterwards the mailbox has handed out exactly the blocks it had before,
    every shared buffer has its old reference count, and the registry is
    unchanged but for the data inside sessions, and as well-formed as it was. *)
Theorem tc_client_call_balanced fuel call (k : call_state Env St) L :
  call_pre (cs_reg k) call → ba_owns (cs_pool k) L →
  (∀ e m o c, (tee_rank (tc_ns_smc e m o c).1.1.1.1 < fuel)%nat) →
  ∃ k' x ret, tc_client_call fuel call k = Ret (Some (k', x, ret)) ∧
    ba_owns (cs_pool k') L ∧ g_shared (cs_reg k') = g_shared (cs_reg k) ∧
    reg_like (cs_reg k) (cs_reg k') ∧ (reg_ok (cs_reg k) → reg_ok (cs_reg k')).
Proof.
  intros Hpre Ho Hf.
  destruct (client_call_balanced (cs_reg k) L fuel call k Hpre ltac:(reflexivity) eq_refl Ho Hf)
    as (k' & x & r & E & Ho' & Hr & Hs).
  exists k', x, r. split_and!; try done. by rewrite <- Hr.
Qed.

(** Fetching a session's secure parameters leaks no mailbox block: on
    every path, including those where the random source, an allocation, the
    TEE or the decryption fails, [get_session_secure_params] returns, the pool
    owns what it owned before and the registry stays well-formed. *)
Theorem get_session_secure_params_balanced e (s : St) m R g_root dev_file context session L :
  ba_owns s L → reg_ok R →
  (dev_file ≠ 0 → is_Some (g_devs R !! dev_file)) →
  (session ≠ 0 → is_Some (g_sessions R !! session)) →
  ∃ e' s' m' R' x ret,
    get_session_secure_params e s m R g_root dev_file context session
      = Ret (e', s', m', R', x, ret) ∧
    ba_owns s' L ∧ sess_step R R' ∧ reg_ok R'.
Proof.
  intros Ho HR Hd Hs.
  assert (∀ (e' : Env) s' (m' : mem) R' (x : tc_ns_client_context) (r : Z),
    ba_owns s' L → sess_step R R' →
    ∃ e1 s1 m1 R1 x1 r1, Ret (e', s', m', R', x, r) = Ret (e1, s1, m1, R1, x1, r1) ∧
      ba_owns s1 L ∧ sess_step R R1 ∧ reg_ok R1) as Hret.
  { intros. eexists _, _, _, _, _, _. split; [done|]. split_and!; try done. by eapply reg_ok_step. }
  unfold get_session_secure_params.
  destruct (Z.eqb_spec dev_file 0) as [|Hd0], (Z.eqb_spec session 0) as [|Hs0]; cbn [orb];
    [apply Hret; [done|reflexivity]..|].
  destruct (at_index_is_Some _ _ (Hd Hd0)) as (d & -> & _).
  destruct (at_index_is_Some _ _ (Hs Hs0)) as (ses & -> & Es). rewrite !ret_bind.
  assert (∀ i, sess_step R (upd_session R session (with_secure_info ses i))) as Hst
    by (intros; by eapply upd_session_step).
  assert (∀ i j, sess_step R (upd_session (upd_session R session (with_secure_info ses i))
    session (with_secure_info ses j))) as Hst2.
  { intros i j. etrans; [apply (Hst i)|]. by eapply upd_session_step; [apply lookup_insert_eq|]. }
  destruct (init_for_alloc_secure_params (secure_info ses)) as [[ret info] [al ps]] eqn:Ei.
  destruct (nonzero ret) eqn:Hret0; [by apply Hret|].
  assert (0 ≤ ps < 2 ^ 64) as Hps.
  { unfold init_for_alloc_secure_params in Ei. destruct (generate_challenge_word _ _) as [r w].
    destruct (nonzero r); simplify_eq; [done|].
    unfold SECURE_PARAMS_STRUCT_LEN, IV_BYTESIZE. lia. }
  unfold alloc_secure_params. destruct (al =? 0); [rewrite ret_bind; by apply Hret|].
  destruct (owns_plus_alloc s [] L m ps 0) as (s1 & m1 & ree & -> & H); [by apply owns_plus_nil|done|].
  rewrite !ret_bind.
  destruct H as [(-> & _ & Ho1)|[Hree Ho1]].
  { cbn [Z.eqb]. rewrite ret_bind. by apply Hret; [apply owns_plus_nil|]. }
  rewrite (proj2 (Z.eqb_neq ree 0)) by done.
  destruct (owns_plus_free _ _ _ _ Ho1) as (s2 & Ef & Ho2%owns_plus_nil).
  destruct (negb (kzalloc_ok _)).
  { rewrite Ef, !ret_bind. by apply Hret. }
  rewrite ret_bind. change (nonzero 0) with false. cbv iota.
  destruct (send_smc_cmd_for_secure_params _ _ _ _ _ _) as [[[e1 m2] origin] ret1].
  match goal with |- context [let '(a, b) := ?X in _] => destruct X as [ret2 info2] end.
  rewrite Ef, ret_bind.
  destruct (nonzero ret2); [|rewrite ret_bind; by apply Hret].
  unfold clean_session_secure_information. rewrite (proj2 (Z.eqb_neq session 0)) by done.
  unfold at_index. cbn [g_sessions upd_session set_sessions].
  rewrite lookup_insert_eq, !ret_bind.
  apply Hret; [done|]. etrans; [apply (Hst2 info info2)|].
  eapply upd_session_step; [apply lookup_insert_eq|done].
Qed.

End Balance.

(** ** References into shared buffers *)

(** The offset check is exact.  With a 64-bit offset under the client's
    control, [is_refmem_offset_valid] accepts precisely the windows that lie
    inside the shared buffer: no wrap-around of the subtraction lets another
    one through. *)
Theorem refmem_offset_valid_iff h p n :
  0 ≤ sm_len h < 2 ^ 32 → 0 ≤ cp_offset p < 2 ^ 64 → 0 ≤ n < 2 ^ 32 →
  is_refmem_offset_valid h p n = true ↔
  cp_offset p < sm_len h ∧ cp_offset p + n ≤ sm_len h.
Proof.
  intros Hl Ho Hn. unfold is_refmem_offset_valid. rewrite andb_true_iff, Z.leb_le, Z.ltb_lt.
  split; intros [H1 H2].
  - rewrite u64_small in H1 by lia. lia.
  - rewrite u64_small by lia. lia.
Qed.

Section Transfer.
Context {Env St : Type} {BA : BlockAllocator St} {BAL : BlockAllocatorLaws St BA}.
Context {P : PageMap} {SC : SecureC} {SCL : SecureCLaws SC} {SB : SecureBuf}.
Context {CM : ClientMem} {CML : ClientMemLaws CM}.
Context {KR : KernelRandom} {KC : KernelCipher} {KA : KernelAlloc}.

Abbreviation state := (call_state Env St).

Lemma write_u32_ok m dst x api m' :
  write_u32 m dst x api = (0, m') → m' = store_bytes m dst (le_bytes 4 x).
Proof.
  unfold write_u32. intros E. apply write_to_client_ok in E as (b & [= <-] & -> & _); [|lia]. f_equal.
Qed.

(** The window of the shared buffer that a reference parameter names. *)
Definition in_window (h : tc_ns_shared_mem) (p : tc_ns_client_param) (x : Z) : Prop :=
  sm_kernel_addr h + cp_offset p ≤ x < sm_kernel_addr h + sm_len h.

Definition in_size_word (p : tc_ns_client_param) (x : Z) : Prop :=
  cp_size_addr p ≤ x < cp_size_addr p + 4.

(** After the call the driver writes a reference parameter back inside its
    window only.  Whatever size the TEE left in the operation and whatever
    size the client has stored meanwhile, [update_for_ref_mem] returns, and no
    byte changes outside the window of the shared buffer and the client's size
    word. *)
Theorem update_for_ref_mem_in_window call (k : state) api i h :
  let p := client_param_at (call_context call) i in
  g_shared (cs_reg k) !! nth (Z.to_nat i) (op_sharemem (mb_operation (cs_op k))) 0 = Some h →
  0 ≤ cp_offset p < sm_len h → sm_len h < 2 ^ 32 → 0 ≤ sm_kernel_addr h →
  sm_kernel_addr h + sm_len h < 2 ^ 64 →
  ∃ k' r, update_for_ref_mem call k api i = Ret (k', r) ∧
    cs_pool k' = cs_pool k ∧ cs_reg k' = cs_reg k ∧ cs_op k' = cs_op k ∧
    ∀ x, ¬ in_window h p x → ¬ in_size_word p x → cs_mem k' !! x = cs_mem k !! x.
Proof.
  intros p Hh Ho Hl Ha Hal. unfold update_for_ref_mem.
  destruct (TEE_PARAM_NUM <=? i); [by eexists _, _|].
  destruct (read_u32 _ _ _) as [r os]. destruct (nonzero r); [by eexists _, _|].
  destruct (write_u32 _ _ _ _) as [r' m] eqn:Ew.
  assert (∀ x, ¬ in_size_word p x → m !! x = cs_mem k !! x) as Hm.
  { intros x Hx. apply (f_equal snd) in Ew. cbn [snd] in Ew. rewrite <- Ew.
    by apply write_to_client_frame. }
  destruct (nonzero r'); [eexists _, _; split; [done|]; split_and!; try done; intros; by apply Hm|].
  destruct (_ && _); [|eexists _, _; split; [done|]; split_and!; try done; intros; by apply Hm].
  unfold at_index. cbn [cs_reg with_mem]. rewrite Hh, ret_bind. fold p.
  rewrite (u64_small (sm_kernel_addr h + _)), (u64_small (sm_len h - _)) by lia.
  destruct (memcpy_s _ _ _ _ _) as [r2 m2] eqn:Ec.
  eexists _, _. split; [done|]. split_and!; try done. intros x Hx Hs.
  rewrite <- Hm by done. apply (f_equal snd) in Ec. cbn [snd cs_mem with_mem] in Ec |- *.
  rewrite <- Ec. apply memcpy_s_frame; [lia|]. unfold in_window in Hx. lia.
Qed.

(** The number of bytes copied back is not tied to the block they come from.
    When the client's size word - read again after the call - is not smaller
    than the size [n] the TEE left in the operation, and [n] fits the window,
    the driver copies [n] bytes from the mailbox block, for every [n]: the size
    the block was allocated for is not consulted. *)
Theorem update_for_ref_mem_size_unchecked call (k : state) api i h n m :
  let p := client_param_at (call_context call) i in
  let mb := nth (Z.to_nat i) (op_mb_buffer (mb_operation (cs_op k))) 0 in
  let dst := sm_kernel_addr h + cp_offset p in
  0 ≤ i < 4 →
  g_shared (cs_reg k) !! nth (Z.to_nat i) (op_sharemem (mb_operation (cs_op k))) 0 = Some h →
  0 ≤ cp_offset p → 0 < sm_kernel_addr h → sm_kernel_addr h + sm_len h < 2 ^ 64 →
  0 ≤ n → 0 < sm_len h - cp_offset p ≤ SECUREC_MEM_MAX_LEN → n ≤ sm_len h - cp_offset p →
  mb ≠ 0 → dst + n ≤ mb ∨ mb + n ≤ dst →
  memref_size (param_at (mb_operation (cs_op k)) (Z.to_nat i)) = n →
  (∃ os, read_u32 (cs_mem k) (cp_size_addr p) api = (0, os) ∧ n ≤ os) →
  write_u32 (cs_mem k) (cp_size_addr p) n api = (0, m) →
  update_for_ref_mem call k api i
    = Ret (with_mem k (store_bytes m dst (load_bytes m mb (Z.to_nat n))), 0).
Proof.
  intros p mb dst Hi Hh Ho Ha Hal Hn Hw Hnw Hmb Hd En (os & Er & Hos) Ew.
  unfold update_for_ref_mem. fold p. rewrite (proj2 (Z.leb_gt TEE_PARAM_NUM i)) by
    (unfold TEE_PARAM_NUM; lia).
  rewrite Er, En, Ew. change (nonzero 0) with false. cbv iota. fold mb.
  rewrite (nonzero_neq mb) by done. rewrite (proj2 (Z.leb_le n os)) by done. cbn [andb].
  unfold at_index. cbn [cs_reg with_mem]. rewrite Hh, ret_bind.
  unfold SECUREC_MEM_MAX_LEN in Hw.
  rewrite (u64_small (sm_kernel_addr h + _)), (u64_small (sm_len h - _)) by lia.
  fold dst. rewrite memcpy_s_ok by (unfold SECUREC_MEM_MAX_LEN; unfold dst in *; lia). done.
Qed.

(** ** Temporary buffers *)

(** What [update_tmp_mem] does when the shared operation changes between the
    check of the size and the copy: the check sees [n], the copy [n']. *)
Lemma update_tmp_mem_seen_spec later call (k : state) api i c a size k' r :
  let p := client_param_at (call_context call) i in
  let n := memref_size (param_at (mb_operation (cs_op k)) (Z.to_nat i)) in
  let n' := memref_size (param_at later (Z.to_nat i)) in
  0 ≤ i < 4 → 0 ≤ n' →
  nth (Z.to_nat i) (local_tmpbuf (cs_op k)) (0, 0) = (a, size) →
  update_tmp_mem_seen later call k api i c = (k', r) →
  let m1 := store_bytes (cs_mem k) (cp_size_addr p) (le_bytes 4 n) in
  (size < n → (∀ x, ¬ in_size_word p x → cs_mem k' !! x = cs_mem k !! x) ∧
     (r = 0 → cs_mem k' = m1) ∧ (c = true → r = - EFAULT)) ∧
  (n ≤ size → r = 0 → a ≠ 0 ∧
     cs_mem k' = store_bytes m1 (cp_buffer p) (load_bytes m1 a (Z.to_nat n'))).
Proof.
  intros p n n' Hi Hn Ht. unfold update_tmp_mem_seen. fold p n n'.
  rewrite (proj2 (Z.leb_gt TEE_PARAM_NUM i)), Ht by (unfold TEE_PARAM_NUM; lia).
  destruct (write_u32 _ _ _ _) as [rw m] eqn:Ew.
  assert (∀ x, ¬ in_size_word p x → m !! x = cs_mem k !! x) as Hm.
  { intros x Hx. apply (f_equal snd) in Ew. cbn [snd] in Ew. rewrite <- Ew.
    by apply write_to_client_frame. }
  destruct (nonzero rw) eqn:Hrw; [by intros [= <- <-]|].
  apply nonzero_false in Hrw. subst rw. apply write_u32_ok in Ew as ->.
  destruct (Z.ltb_spec size n).
  { intros [= <- <-]. cbv zeta. split; [|lia]. intros _. split; [exact Hm|]. by destruct c. }
  set (m1 := store_bytes _ _ _) in *.
  destruct (write_to_client _ _ _ _ _ _) as [r2 m2] eqn:E2. intros [= <- <-]. cbv zeta.
  split; [lia|]. intros _. destruct (nonzero r2) eqn:Hr2; [done|]. intros _.
  apply nonzero_false in Hr2. subst r2. apply write_to_client_ok in E2 as (b & Eb & -> & _); [|done].
  destruct (Z.eqb_spec a 0); [done|]. injection Eb as <-. split; [done|].
  cbn [cs_mem with_mem]. f_equal. unfold sub_buf. change (Z.to_nat 0) with 0%nat.
  rewrite drop_0, take_ge by (rewrite load_bytes_length; lia). done.
Qed.

(** A temporary buffer goes back to the client only as far as it was
    allocated, if the TEE leaves the operation alone.  [update_tmp_mem] always
    reports the size the TEE left, [n]; if [n] exceeds the size the buffer was
    allocated for, the client's buffer is not touched and the call fails when
    it is the final update; if it does not and the update succeeds, the
    client's buffer receives exactly the first [n] bytes of the block. *)
Theorem update_tmp_mem_bounded call (k : state) api i c a size k' r :
  let p := client_param_at (call_context call) i in
  let n := memref_size (param_at (mb_operation (cs_op k)) (Z.to_nat i)) in
  0 ≤ i < 4 → 0 ≤ n →
  nth (Z.to_nat i) (local_tmpbuf (cs_op k)) (0, 0) = (a, size) →
  update_tmp_mem call k api i c = (k', r) →
  let m1 := store_bytes (cs_mem k) (cp_size_addr p) (le_bytes 4 n) in
  (size < n → (∀ x, ¬ in_size_word p x → cs_mem k' !! x = cs_mem k !! x) ∧
     (r = 0 → cs_mem k' = m1) ∧ (c = true → r = - EFAULT)) ∧
  (n ≤ size → r = 0 → a ≠ 0 ∧
     cs_mem k' = store_bytes m1 (cp_buffer p) (load_bytes m1 a (Z.to_nat n))).
Proof. intros p n Hi Hn Ht E. by apply (update_tmp_mem_seen_spec _ _ _ _ _ _ _ _ _ _ Hi Hn Ht E). Qed.

(** If the TEE enlarges the size after the check, the copy reads past the
    block: the client receives memory behind it. *)
Lemma update_tmp_mem_double_fetch later call (k : state) api i c a size k' :
  let p := client_param_at (call_context call) i in
  let n := memref_size (param_at (mb_operation (cs_op k)) (Z.to_nat i)) in
  let n' := memref_size (param_at later (Z.to_nat i)) in
  0 ≤ i < 4 → 0 ≤ n ≤ size → size < n' →
  nth (Z.to_nat i) (local_tmpbuf (cs_op k)) (0, 0) = (a, size) →
  update_tmp_mem_seen later call k api i c = (k', 0) →
  ∃ m1, cs_mem k' = store_bytes m1 (cp_buffer p) (load_bytes m1 a (Z.to_nat n')).
Proof.
  intros p n n' Hi Hn Hn' Ht E.
  destruct (update_tmp_mem_seen_spec later call k api i c a size k' 0 Hi) as [_ H]; [lia|done..|].
  eexists. apply H; [lia|done].
Qed.

(** C38. A temporary buffer reaches the TEE.  For a parameter that is not one of
    the two that carry the login data of an open (those are encrypted by
    [do_opensess_auth_enhance]), [alloc_for_tmp_mem] returns; when it reports
    success, the block it allocated is fresh and recorded with the client's
    size, which is at most 1 MiB, the TEE is told both halves of that block's
    physical address and the size, and the block holds zeros (output type) or
    the bytes of the client's buffer (input types), provided that buffer does
    not overlap the new block. *)
Theorem tmp_mem_transferred call (k : state) kp ty i L :
  let p := client_param_at (call_context call) i in
  ba_owns (cs_pool k) L → 0 ≤ i < 4 → op_shape (cs_op k) →
  length (op_params (mb_operation (cs_op k))) = 4%nat →
  length (op_buffer_h_addr (mb_operation (cs_op k))) = 4%nat →
  is_opensession_by_index (call_flags call) (ctx_cmd_id (call_context call)) i = false →
  ∃ k' r, alloc_for_tmp_mem call k kp ty i = Ret (k', r) ∧
    (r = 0 → ∃ a n,
       nth (Z.to_nat i) (local_tmpbuf (cs_op k')) (0, 0) = (a, n) ∧
       n = u32 (le_value (load_bytes (cs_mem k) (cp_size_addr p) 4)) ∧
       0 < n ≤ MAX_SHARED_SIZE ∧ (a ∉ L) ∧ ba_owns (cs_pool k') ({[ a ]} ∪ L) ∧
       param_at (mb_operation (cs_op k')) (Z.to_nat i) = NsParam (phys_lo a) n ∧
       nth (Z.to_nat i) (op_buffer_h_addr (mb_operation (cs_op k'))) 0 = phys_hi a ∧
       (is_input_tempmem ty = true →
          cp_buffer p + n ≤ a ∨ a + align_4k n ≤ cp_buffer p →
          load_bytes (cs_mem k') a (Z.to_nat n)
            = load_bytes (cs_mem k) (cp_buffer p) (Z.to_nat n)) ∧
       (is_input_tempmem ty = false →
          load_bytes (cs_mem k') a (Z.to_nat n) = replicate (Z.to_nat n) 0)).
Proof.
  intros p Ho Hi (Hsh & _) Hpl Hhl Hop. unfold alloc_for_tmp_mem.
  rewrite (proj2 (Z.leb_gt TEE_PARAM_NUM i)) by (unfold TEE_PARAM_NUM; lia). fold p.
  destruct (read_u32 _ _ _) as [r n] eqn:Er. pose proof (read_u32_range _ _ _ _ _ Er) as Hn.
  destruct (nonzero r) eqn:Hr; [by eexists _, _|]. apply nonzero_false in Hr. subst r.
  destruct (Z.ltb_spec MAX_SHARED_SIZE n) as [|Hmax]; [by eexists _, _|].
  destruct (ba_alloc_ok (cs_pool k) L (cs_mem k) n MB_FLAG_ZERO Ho ltac:(lia))
    as (s & m & a & -> & [(-> & _)|(Ha & HaL & Hn0 & Ho' & Hfr & Hz)]); rewrite ret_bind;
    [by eexists _, _|].
  rewrite (proj2 (Z.eqb_neq a 0)) by lia.
  assert (n = u32 (le_value (load_bytes (cs_mem k) (cp_size_addr p) 4))) as En.
  { unfold read_u32 in Er. destruct (read_from_client _ _ _ _ _ _) as [r l] eqn:E.
    injection Er as -> <-. apply read_from_client_ok in E as [-> _]; [done|lia]. }
  assert (n ≤ align_4k n) as Hal by (apply align_4k_bounds; unfold SZ_4K; lia).
  destruct (update_input_data m p n a ty kp) as [m1 r1] eqn:Eu.
  destruct (nonzero r1) eqn:Hr1; [by eexists _, _|]. apply nonzero_false in Hr1. subst r1.
  unfold do_opensess_auth_enhance. rewrite Hop. cbn [negb]. rewrite ret_bind.
  change (nonzero 0) with false. cbv iota.
  eexists _, _. split; [done|]. intros _. exists a, n. cbn.
  rewrite nth_insert_eq by (rewrite Hsh; lia). split_and!; try done.
  - unfold param_at. cbn. apply nth_insert_eq. rewrite Hpl. lia.
  - apply nth_insert_eq. rewrite Hhl. lia.
  - intros Hin Hd. unfold update_input_data in Eu. rewrite Hin in Eu. cbn [negb] in Eu.
    destruct (read_from_client _ _ _ _ _ _) as [r l] eqn:E. injection Eu as <- Hr.
    destruct (nonzero r) eqn:Hr0; [done|]. apply nonzero_false in Hr0. subst r.
    apply read_from_client_ok in E as [-> _]; [|lia].
    rewrite (load_bytes_ext m (cs_mem k)) by (intros x Hx; apply Hfr; lia).
    pose proof (load_store_bytes m a (load_bytes (cs_mem k) (cp_buffer p) (Z.to_nat n))) as El.
    by rewrite load_bytes_length in El.
  - intros Hin. unfold update_input_data in Eu. rewrite Hin in Eu. injection Eu as <-.
    specialize (Hz ltac:(done)).
    assert (load_bytes m a (Z.to_nat n) = take (Z.to_nat n) (load_bytes m a (Z.to_nat (align_4k n))))
      as -> by (by rewrite load_bytes_take by lia).
    rewrite Hz, take_replicate. f_equal. lia.
Qed.

End Transfer.

(** ** Concrete instances *)

(** A TEE that answers [TEEC_PENDING] twice before it succeeds. *)
Definition patient_tee : SmcChannel nat := {|
  smc_sees e _ := e;
  tc_ns_smc e m o c := (1%nat, m, o, c, TEEC_PENDING);
  tc_ns_smc_with_no_nr e m o c :=
    match e with S n => (n, m, o, c, TEEC_PENDING) | O => (O, m, o, c, TEEC_SUCCESS) end
|}.

#[export] Instance patient_tee_behaves : TeeBehaviour nat patient_tee.
Proof.
  refine {| tee_rank := λ n, n |}; [| |done|]; simpl; intros e m o c e' m' o' c' r E.
  - by injection E as <- <- <- <- <-.
  - destruct e; by injection E as <- <- <- <- <-.
  - destruct e; injection E as <- <- <- <- <-; [done|lia].
Defined.

Definition linear_valid : VirtValid := {| virt_addr_valid a := linear_base <=? a |}.

#[export] Instance linear_valid_laws :
  VirtValidLaws mailbox (mailbox_allocator (P := linear_map) (SC := boundscheck)) linear_valid.
Proof.
  split. intros g L a (base & U & Hp & HL) (h & -> & [k Hk])%HL.
  pose proof (live_block_range _ _ _ _ _ Hp Hk) as H.
  destruct Hp as (? & _ & _ & Hb & _). unfold block_addr, linear_base. simpl.
  unfold linear_base, PAGE_SIZE, PAGE_SHIFT. lia.
Qed.

Definition demo_current : Current := {|
  current_tgid := 40; current_pid := 42; current_uid := 1000; current_mm := true
|}.

Definition demo_shared : tc_ns_shared_mem := SharedMem 0x100000 0x9000 0 8192 1 0.

Definition demo_gp_dev : tc_ns_dev_file :=
  DevFile 1 (replicate 32 0) (replicate 32 0) 1 false 0 [] 0 [] 0 [500].

Definition demo_gp_registry : registry :=
  Registry ∅ ∅ {[ 1000 := demo_gp_dev ]} {[ 500 := demo_shared ]} [] [1000] 2.

(** A temporary buffer of 8 bytes, a reference of 32 bytes at offset 16, a value. *)
Definition demo_call : tc_call_params :=
  CallParams 1000
    (ClientContext (replicate 16 7) 0 GLOBAL_CMD_ID_KILL_TASK 0 0 0 0
       [ClientParam 0x100 0 0x200; ClientParam 0x9000 16 0x204; ClientParam 0x208 0x20c 0;
        ClientParam 0 0 0]
       (teec_param_types TEEC_MEMREF_TEMP_INOUT TEEC_MEMREF_PARTIAL_INOUT TEEC_VALUE_INOUT
          TEEC_NONE) 0 0 0 0 0 0) 0 TC_CALL_GLOBAL.

Definition demo_client_mem : mem :=
  store_bytes (store_bytes ∅ 0x200
    (le_bytes 4 8 ++ le_bytes 4 32 ++ le_bytes 4 7 ++ le_bytes 4 9)) 0x100 [1; 2; 3; 4; 5; 6; 7; 8].

Definition demo_op : tc_op_params :=
  OpParams 0 zero_operation zero_smc_cmd (replicate 4 (0, 0)) (replicate 4 0) false.

Definition demo_call_state : call_state nat mailbox :=
  CallState 0%nat demo_pool demo_client_mem demo_gp_registry demo_op INVALID_TZMP_UID.

Abbreviation demo_run fuel :=
  (tc_client_call (BA := mailbox_allocator (P := linear_map) (SC := boundscheck))
     (SMC := patient_tee) (P := linear_map) (SC := boundscheck) (SB := bounds_buf)
     (CM := flat_client) (KR := demo_random) (KC := xor_cipher) (KA := demo_alloc_ok_all)
     (CU := demo_current) (VV := linear_valid) fuel demo_call demo_call_state).

Lemma demo_pool_owns :
  ba_owns (BlockAllocator := mailbox_allocator (P := linear_map) (SC := boundscheck)) demo_pool ∅.
Proof.
  exists 5, ∅. split; [exact demo_pool_ok|]. intros a. split; [set_solver|].
  intros (h & _ & [k Hk]). by rewrite lookup_empty in Hk.
Qed.

Lemma demo_pre : call_pre demo_gp_registry demo_call.
Proof.
  split.
  - split; simpl.
    + by apply counted_no_services.
    + intros p ->%list_elem_of_singleton. by rewrite lookup_singleton_eq.
    + intros d v p Hd Hp H0. apply lookup_singleton_Some in Hd as [_ <-].
      apply elem_of_replicate in Hp as [-> _]. done.
    + intros p v q Hx. by rewrite lookup_empty in Hx.
  - split; [|by left]. simpl. by rewrite lookup_singleton_eq.
  - intros p x Hx. cbn [g_shared demo_gp_registry] in Hx.
    apply lookup_singleton_Some in Hx as [_ <-]. simpl. lia.
  - intros d q Hd Hq. cbn [g_devs demo_gp_registry] in Hd.
    apply lookup_singleton_Some in Hd as [_ <-]. simpl in Hq.
    apply list_elem_of_singleton in Hq as ->. split; [done|]. simpl.
    by rewrite lookup_singleton_eq.
  - intros i. unfold is_opensession_by_index. simpl. by rewrite andb_false_r.
Qed.

Lemma tc_client_call_balanced_witness :
  ∃ k' x, demo_run 2 = Ret (Some (k', x, 0)) ∧ pool_owns (P := linear_map) (cs_pool k') ∅ ∧
    g_shared (cs_reg k') = {[ 500 := demo_shared ]}.
Proof.
  destruct (tc_client_call_balanced
    (BA := mailbox_allocator (P := linear_map) (SC := boundscheck))
    (SMC := patient_tee) (TB := patient_tee_behaves) (P := linear_map) (SC := boundscheck) (SB := bounds_buf)
    (CM := flat_client) (KR := demo_random) (KC := xor_cipher) (KA := demo_alloc_ok_all)
    (CU := demo_current) (VV := linear_valid) 2 demo_call demo_call_state ∅ demo_pre
    demo_pool_owns (λ _ _ _ _, le_n 2)) as (k' & x & ret & E & Ho & Hs & _).
  assert (match demo_run 2 with Ret (Some (_, _, r)) => r =? 0 | _ => false end = true) as Hr
    by (vm_compute; reflexivity).
  rewrite E in Hr. apply Z.eqb_eq in Hr. exists k', x. rewrite <- Hr. split_and!; assumption.
Defined.

Definition demo_sess_registry : registry :=
  Registry {[ 200 := Session 1 1000 zero_secure_info (Token None 0) [] 0 1 ]} ∅
    {[ 1000 := demo_gp_dev ]} {[ 500 := demo_shared ]} [] [1000] 2.

Lemma demo_sess_ok : reg_ok demo_sess_registry.
Proof.
  split; simpl.
  - by apply counted_no_services.
  - intros p ->%list_elem_of_singleton. by rewrite lookup_singleton_eq.
  - intros d v p Hd Hp H0. apply lookup_singleton_Some in Hd as [_ <-].
    apply elem_of_replicate in Hp as [-> _]. done.
  - intros p v q Hx. by rewrite lookup_empty in Hx.
Qed.

Lemma get_session_secure_params_balanced_witness :
  ∃ e' s' m' R' x ret,
    get_session_secure_params (BA := mailbox_allocator (P := linear_map) (SC := boundscheck))
      (SMC := patient_tee) (P := linear_map) (SB := bounds_buf) (KR := demo_random)
      (KC := xor_cipher) (KA := demo_alloc_ok_all) (CU := demo_current)
      0%nat demo_pool ∅ demo_sess_registry (CryptoInfo (replicate 32 1) (replicate 16 0)) 1000
      zero_context 200 = Ret (e', s', m', R', x, ret) ∧
    pool_owns (P := linear_map) s' ∅ ∧ reg_ok R'.
Proof.
  destruct (get_session_secure_params_balanced
    (BA := mailbox_allocator (P := linear_map) (SC := boundscheck))
    (SMC := patient_tee) (P := linear_map) (SB := bounds_buf) (KR := demo_random)
    (KC := xor_cipher) (KA := demo_alloc_ok_all) (CU := demo_current)
    0%nat demo_pool ∅ demo_sess_registry (CryptoInfo (replicate 32 1) (replicate 16 0)) 1000
    zero_context 200 ∅ demo_pool_owns demo_sess_ok)
    as (e' & s' & m' & R' & x & ret & E & Ho & _ & HR).
  - intros _. exists demo_gp_dev. reflexivity.
  - intros _. eexists. reflexivity.
  - exists e', s', m', R', x, ret. split; [exact E|]. split; [exact Ho|exact HR].
Defined.

Lemma refmem_offset_valid_iff_witness :
  is_refmem_offset_valid demo_shared (ClientParam 0x9000 16 0) 8176 = true ∧
  is_refmem_offset_valid demo_shared (ClientParam 0x9000 (2 ^ 64 - 1) 0) 1 = false.
Proof.
  split.
  - apply (refmem_offset_valid_iff demo_shared (ClientParam 0x9000 16 0) 8176);
      simpl; lia.
  - destruct (is_refmem_offset_valid _ _ _) eqn:E; [|reflexivity].
    apply (refmem_offset_valid_iff demo_shared (ClientParam 0x9000 (2 ^ 64 - 1) 0) 1) in E;
      simpl in *; lia.
Defined.

(** Decides closed comparisons. *)
Ltac closed := repeat split; vm_compute; first [reflexivity | discriminate].

(** After the TEE has raised the size of the reference parameter to 5000 and
    the client has stored 9000; the block was allocated for 32 bytes. *)
Definition demo_after : call_state nat mailbox :=
  CallState 0%nat demo_pool (store_bytes ∅ 0x204 (le_bytes 4 9000)) demo_gp_registry
    (OpParams 0x300000
       (NsOperation 0 [NsParam 0 0; NsParam 0 5000; NsParam 0 0; NsParam 0 0] (replicate 4 0)
          [0; 500; 0; 0] [0; 0x200000; 0; 0]) zero_smc_cmd
       [(0x400000, 8); (0, 0); (0, 0); (0, 0)] (replicate 4 0) true) INVALID_TZMP_UID.

Lemma update_for_ref_mem_in_window_witness :
  ∃ k' r, update_for_ref_mem (SC := boundscheck) (CM := flat_client) demo_call demo_after 1 1
      = Ret (k', r) ∧ cs_mem k' !! 0x102000 = None.
Proof.
  destruct (update_for_ref_mem_in_window (SC := boundscheck) (CM := flat_client) demo_call
    demo_after 1 1 demo_shared) as (k' & r & E & _ & _ & _ & H);
    [reflexivity|closed..|].
  exists k', r. split; [exact E|].
  rewrite H; [vm_compute; reflexivity| |]; vm_compute; intros [H1 H2];
    first [by apply H1|discriminate H2].
Defined.

Lemma update_for_ref_mem_size_unchecked_witness :
  ∃ m, update_for_ref_mem (SC := boundscheck) (CM := flat_client) demo_call demo_after 1 1
    = Ret (with_mem demo_after
        (store_bytes m 0x100010 (load_bytes m 0x200000 (Z.to_nat 5000))), 0).
Proof.
  destruct (write_u32 (CM := flat_client) (cs_mem demo_after) 0x204 5000 1) as [r m] eqn:Ew.
  assert (r = 0) as Hr.
  { assert (((write_u32 (CM := flat_client) (cs_mem demo_after) 0x204 5000 1).1 =? 0) = true) as H
      by (vm_compute; reflexivity).
    rewrite Ew in H. apply Z.eqb_eq in H. exact H. }
  rewrite Hr in Ew. exists m.
  apply (update_for_ref_mem_size_unchecked (SC := boundscheck) (CM := flat_client) demo_call
    demo_after 1 1 demo_shared 5000 m);
    [closed|reflexivity|closed|closed|closed|closed|closed|closed|discriminate|left; closed
    |reflexivity| |exact Ew].
  exists 9000. split; [vm_compute; reflexivity|lia].
Defined.

(** The TEE has left the size 5000 for a buffer of 8 bytes. *)
Definition demo_enlarged : call_state nat mailbox :=
  with_op demo_after (OpParams 0x300000
    (NsOperation 0 [NsParam 0 5000; NsParam 0 0; NsParam 0 0; NsParam 0 0] (replicate 4 0)
       (replicate 4 0) (replicate 4 0)) zero_smc_cmd
    [(0x400000, 8); (0, 0); (0, 0); (0, 0)] (replicate 4 0) true).

Lemma update_tmp_mem_bounded_witness :
  (update_tmp_mem (CM := flat_client) demo_call demo_enlarged 1 0 true).2 = - EFAULT.
Proof.
  destruct (update_tmp_mem (CM := flat_client) demo_call demo_enlarged 1 0 true) as [k' r] eqn:E.
  destruct (update_tmp_mem_bounded (CM := flat_client) demo_call demo_enlarged 1 0 true 0x400000 8
    k' r) as [H _]; [closed|closed|reflexivity|exact E|].
  apply H; [closed|reflexivity].
Defined.

(** The check sees 8 bytes, the copy 16: eight bytes behind the block reach
    the client. *)
Lemma update_tmp_mem_double_fetch_witness :
  ∃ m1, cs_mem (update_tmp_mem_seen (CM := flat_client)
      (NsOperation 0 (replicate 4 (NsParam 0 16)) (replicate 4 0) (replicate 4 0) (replicate 4 0))
      demo_call (with_op demo_after (OpParams 0x300000
        (NsOperation 0 (replicate 4 (NsParam 0 8)) (replicate 4 0) (replicate 4 0) (replicate 4 0))
        zero_smc_cmd [(0x400000, 8); (0, 0); (0, 0); (0, 0)] (replicate 4 0) true)) 1 0 true).1
    = store_bytes m1 0x100 (load_bytes m1 0x400000 16).
Proof.
  destruct (update_tmp_mem_seen _ _ _ _ _ _) as [k' r] eqn:E.
  assert (r = 0) as -> by (vm_compute in E; injection E as _ <-; reflexivity).
  apply (update_tmp_mem_double_fetch (CM := flat_client)) with (a := 0x400000) (size := 8) in E;
    [exact E|closed|closed|reflexivity|reflexivity].
Defined.

Lemma tmp_mem_transferred_witness :
  ∃ k' a, alloc_for_tmp_mem (BA := mailbox_allocator (P := linear_map) (SC := boundscheck))
      (P := linear_map) (SB := bounds_buf) (CM := flat_client) (KR := demo_random)
      (KC := xor_cipher) (KA := demo_alloc_ok_all) demo_call demo_call_state 1
      TEEC_MEMREF_TEMP_INOUT 0 = Ret (k', 0) ∧
    (0x108 ≤ a ∨ a + align_4k 8 ≤ 0x100 → load_bytes (cs_mem k') a 8 = [1; 2; 3; 4; 5; 6; 7; 8]).
Proof.
  destruct (tmp_mem_transferred (BA := mailbox_allocator (P := linear_map) (SC := boundscheck))
      (P := linear_map) (SB := bounds_buf) (CM := flat_client) (KR := demo_random)
      (KC := xor_cipher) (KA := demo_alloc_ok_all) demo_call demo_call_state 1
      TEEC_MEMREF_TEMP_INOUT 0 ∅ demo_pool_owns) as (k' & r & E & H);
    [lia|repeat split|reflexivity|reflexivity|reflexivity|].
  assert (match alloc_for_tmp_mem
      (BA := mailbox_allocator (P := linear_map) (SC := boundscheck))
      (P := linear_map) (SB := bounds_buf) (CM := flat_client) (KR := demo_random)
      (KC := xor_cipher) (KA := demo_alloc_ok_all) demo_call demo_call_state 1
      TEEC_MEMREF_TEMP_INOUT 0 with Ret (_, r) => r =? 0 | _ => false end = true) as Hr
    by (vm_compute; reflexivity).
  rewrite E in Hr. apply Z.eqb_eq in Hr.
  destruct (H Hr) as (a & n & _ & En & _ & _ & _ & _ & _ & Hin & _).
  assert (n = 8) as Hn by (rewrite En; vm_compute; reflexivity).
  rewrite Hr in E. exists k', a. split; [exact E|]. intros Hd. rewrite Hn in Hin.
  change 8%nat with (Z.to_nat 8). rewrite Hin; [vm_compute; reflexivity|reflexivity|exact Hd].
Defined.
