(* ===== verification/Tlogger.v ===== *)
(** * The TEE log reader (tlogger/tlogger.c, tlogger/log_pages_cfg.c)

    The TEE writes log items into a ring of memory it shares with the driver;
    readers of the misc device copy them to user space.  The shared memory is
    the record [log_buffer]: the head the TEE keeps up to date and the bytes of
    the ring, as many as are allocated.  Reading outside them is [Fault].

    The TEE may write at any time.  After the check of the copied head, each
    read of a word of the shared head and each look at an item has a value of
    its own ([log_view], [ring_view]): the head of an item when it is checked,
    and the item when its length is read again and it is copied.  Loops carry fuel computed from their bounds;
    running out is [Fault] and is excluded by the theorems. *)

From stdpp Require Import base gmap list.
From Stdlib Require Import ZArith Lia.
From S2P Require Import Prelude KernelApi TeeTypes Buffers Mailbox MailboxClaims SessReg.
From S2P Require Import CallTypes GpParams.

(** ** Data *)

Definition LOG_ITEM_MAGIC : Z := 0x5A5A.
Definition LOG_ITEM_LEN_ALIGN : Z := 64.
Definition LOG_ITEM_MAX_LEN : Z := 1024.
Definition LOG_READ_STATUS_ERROR : Z := 0xFFFF.
Definition LOG_BUFFER_MAX_LEN : Z := 0x100000.
Definition TEMP_LOG_MEM_SIZE : Z := 10 * 1024.
Definition TEE_LOG_FILE_NAME_MAX : Z := 256.
Definition PAGES_LOG_MEM_LEN : Z := 512 * 1024.

(** [sizeof(struct log_item)] and [sizeof(struct log_buffer)]. *)
Definition LOG_ITEM_SIZE : Z := 64.
Definition LOG_BUFFER_SIZE : Z := 220.

(** Conversion to a 16-bit two's-complement integer. *)
Definition s16 (x : Z) : Z :=
  let y := x mod 2 ^ 16 in if y <? 2 ^ 15 then y else y - 2 ^ 16.

Record log_item := LogItem {
  never_used : list Z;
  magic : Z;
  reserved0 : Z;
  serial_no : Z;
  real_len : Z;
  buffer_len : Z;
  item_uuid : list Z;
  log_source_type : Z;
  item_reserved : list Z;
  new_line : Z
}.

(** The head of an item from its 64 bytes. *)
Definition decode_item (h : list Z) : log_item :=
  LogItem (sub_buf h 0 32) (le_value (sub_buf h 32 2)) (le_value (sub_buf h 34 2))
    (le_value (sub_buf h 36 4)) (s16 (le_value (sub_buf h 40 2)))
    (le_value (sub_buf h 42 2)) (sub_buf h 44 16) (le_value (sub_buf h 60 1))
    (sub_buf h 61 2) (le_value (sub_buf h 63 1)).

Record log_buffer_flag := LogFlag {
  last_pos : Z;
  write_loops : Z;
  log_level : Z;
  max_len : Z;
  version_info : list Z
}.

Record log_buffer := LogBuffer { flag : log_buffer_flag; buffer_start : list Z }.

Record tlogger_log := TloggerLog {
  buffer_info : Z;
  misc_minor : Z;
  misc_name : Z;
  log_readers : list Z
}.

Record tlogger_reader := TloggerReader {
  reader_log : Z;
  r_off : Z;
  r_loops : Z;
  r_sn : Z;
  r_failtimes : Z;
  r_from_cur : Z;
  r_is_tlogf : Z;
  r_all : bool
}.

(** The globals of tlogger.c and the objects they lead to. *)
Record tlogger := Tlogger {
  log_heap : gmap Z tlogger_log;
  reader_heap : gmap Z tlogger_reader;
  log_mem : gmap Z log_buffer;
  m_log_list : list Z;
  g_log : Z;
  g_log_buffer : Z;
  g_log_mem_len : Z;
  g_tlogcat_count : Z;
  g_tlogcat_f : Z;
  g_last_read_offset : Z
}.

(** ** Field updates *)

Definition with_pos (r : tlogger_reader) (off loops : Z) : tlogger_reader :=
  TloggerReader (reader_log r) off loops (r_sn r) (r_failtimes r) (r_from_cur r)
    (r_is_tlogf r) (r_all r).

Definition set_readers (s : tlogger) (h : gmap Z tlogger_reader) : tlogger :=
  Tlogger (log_heap s) h (log_mem s) (m_log_list s) (g_log s) (g_log_buffer s)
    (g_log_mem_len s) (g_tlogcat_count s) (g_tlogcat_f s) (g_last_read_offset s).

Definition set_logs (s : tlogger) (h : gmap Z tlogger_log) (l : list Z) (g : Z) : tlogger :=
  Tlogger h (reader_heap s) (log_mem s) l g (g_log_buffer s)
    (g_log_mem_len s) (g_tlogcat_count s) (g_tlogcat_f s) (g_last_read_offset s).

Definition set_log_mem (s : tlogger) (h : gmap Z log_buffer) : tlogger :=
  Tlogger (log_heap s) (reader_heap s) h (m_log_list s) (g_log s) (g_log_buffer s)
    (g_log_mem_len s) (g_tlogcat_count s) (g_tlogcat_f s) (g_last_read_offset s).

Definition set_log_buffer (s : tlogger) (a len : Z) : tlogger :=
  Tlogger (log_heap s) (reader_heap s) (log_mem s) (m_log_list s) (g_log s) a len
    (g_tlogcat_count s) (g_tlogcat_f s) (g_last_read_offset s).

Definition set_tlogcat (s : tlogger) (count f : Z) : tlogger :=
  Tlogger (log_heap s) (reader_heap s) (log_mem s) (m_log_list s) (g_log s)
    (g_log_buffer s) (g_log_mem_len s) count f (g_last_read_offset s).

Definition set_last_read (s : tlogger) (off : Z) : tlogger :=
  Tlogger (log_heap s) (reader_heap s) (log_mem s) (m_log_list s) (g_log s)
    (g_log_buffer s) (g_log_mem_len s) (g_tlogcat_count s) (g_tlogcat_f s) off.

(** ** Accesses to the ring *)

Definition read_range (b : list Z) (off n : Z) : outcome (list Z) :=
  if (0 <=? off) && (0 <=? n) && (off + n <=? zlen b) then Ret (sub_buf b off n) else Fault.

Definition load_item (b : list Z) (off : Z) : outcome log_item :=
  h ← read_range b off LOG_ITEM_SIZE; Ret (decode_item h).

(** [item->buffer_len] alone. *)
Definition load_buffer_len (b : list Z) (off : Z) : outcome Z :=
  h ← read_range b (off + 42) 2; Ret (le_value h).

(** The ring is shared with the TEE, which may write while a reader parses it.
    [seen p] is the ring when the item at [p] is checked, [used p] the ring when
    the length of this item is read again and the item copied; a parse looks at
    each position once. *)
Record ring_view := RingView { seen : Z → list Z; used : Z → list Z }.

Definition still_ring (b : list Z) : ring_view := RingView (λ _, b) (λ _, b).

(** ** Parsing *)

Definition check_log_item_validite (item : log_item) (item_max_size : Z) : bool :=
  (magic item =? LOG_ITEM_MAGIC) && (0 <? buffer_len item) && (0 <? real_len item)
  && (buffer_len item mod LOG_ITEM_LEN_ALIGN =? 0) && (real_len item <=? buffer_len item)
  && (buffer_len item - real_len item <? LOG_ITEM_LEN_ALIGN)
  && (buffer_len item + LOG_ITEM_SIZE <=? item_max_size).

(** The item found, with its offset from [buffer_start], and the value left in
    [*pos]. *)
Fixpoint next_item_loop (fuel : nat) (b : Z → list Z) (read_pos scope_len i pos : Z)
    : outcome (option (Z * log_item) * Z) :=
  match fuel with
  | O => Fault
  | S fuel =>
      if i + LOG_ITEM_SIZE + LOG_ITEM_LEN_ALIGN <=? scope_len then
        let pos := u32 (read_pos + i) in
        item ← load_item (b (read_pos + i)) (read_pos + i);
        let max_size := if LOG_ITEM_MAX_LEN <? scope_len - i
                        then LOG_ITEM_MAX_LEN else scope_len - i in
        if check_log_item_validite item max_size then Ret (Some (read_pos + i, item), pos)
        else next_item_loop fuel b read_pos scope_len (u32 (i + LOG_ITEM_LEN_ALIGN)) pos
      else Ret (None, pos)
  end.

Definition get_next_log_item (b : Z → list Z) (max_len read_pos scope_len pos : Z)
    : outcome (option (Z * log_item) * Z) :=
  if max_len <? u32 (read_pos + scope_len) then Ret (None, pos)
  else next_item_loop (S (Z.to_nat (scope_len / LOG_ITEM_LEN_ALIGN))) b read_pos scope_len 0 pos.

(** [buffer_start] is [None] for NULL. *)
Record reader_position := ReaderPosition {
  pos_buffer_start : option ring_view;
  pos_max_len : Z;
  start_pos : Z;
  end_pos : Z
}.

Definition set_reader_position (b : option ring_view) (max_len start_pos end_pos : Z)
    : reader_position := ReaderPosition b max_len start_pos end_pos.

Section Reading.
Context {CM : ClientMem}.

(** Memory, bytes written, the final position and [*user_buffer_left]. *)
Fixpoint parse_loop (fuel : nat) (b : ring_view) (max_len end_pos : Z) (m : mem)
    (buf buf_left buf_written start_pos : Z) : outcome (mem * Z * Z * bool) :=
  match fuel with
  | O => Fault
  | S fuel =>
      if start_pos <? end_pos then
        '(next_item, start_pos) ←
          get_next_log_item (seen b) max_len start_pos (u32 (end_pos - start_pos)) start_pos;
        match next_item with
        | None => Ret (m, buf_written, start_pos, true)
        | Some (ptr, _) =>
            len ← load_buffer_len (used b ptr) ptr;
            let item_len := u32 (len + LOG_ITEM_SIZE) in
            if buf_left <? item_len then Ret (m, buf_written, start_pos, false)
            else
              data ← read_range (used b ptr) ptr item_len;
              let '(_, m) := copy_to_user m (buf + buf_written) data in
              parse_loop fuel b max_len end_pos m buf (u32 (buf_left - item_len))
                (u32 (buf_written + item_len)) (u32 (start_pos + item_len))
        end
      else Ret (m, buf_written, start_pos, true)
  end.

(** [read_off] is [None] for a NULL pointer. *)
Definition parse_log_item (m : mem) (buf count : Z) (position : reader_position)
    (read_off : option Z) (user_buffer_left : bool) : outcome (mem * Z * option Z * bool) :=
  match read_off, pos_buffer_start position with
  | Some _, Some b =>
      '(m, buf_written, off, left_over) ←
        parse_loop (S (Z.to_nat ((end_pos position - start_pos position) / LOG_ITEM_LEN_ALIGN)))
          b (pos_max_len position) (end_pos position) m buf (u32 count) 0 (start_pos position);
      Ret (m, buf_written, Some off, left_over)
  | _, _ => Ret (m, 0, read_off, user_buffer_left)
  end.

(** The status, and the copy of the head with the address of the buffer. *)
Definition get_buffer_info (s : tlogger) (reader : tlogger_reader)
    : outcome (Z * option (log_buffer_flag * Z)) :=
  if reader_log reader =? 0 then Ret (- EINVAL, None)
  else
    log ← at_index (log_heap s) (reader_log reader);
    if buffer_info log =? 0 then Ret (- EINVAL, None)
    else
      buffer_tmp ← at_index (log_mem s) (buffer_info log);
      Ret (0, Some (flag buffer_tmp, buffer_info log)).

(** The status, [*log_last_pos] and [*is_read]. *)
Definition get_last_read_pos (s : tlogger) (log_flag : log_buffer_flag)
    (reader : tlogger_reader) : Z * Z * bool :=
  let buffer_max_len := u32 (g_log_mem_len s - LOG_BUFFER_SIZE) in
  if LOG_BUFFER_MAX_LEN <? buffer_max_len then (- EINVAL, 0, false)
  else
    let log_last_pos := last_pos log_flag in
    if (log_last_pos =? r_off reader) && (write_loops log_flag =? r_loops reader)
    then (0, log_last_pos, false)
    else if (max_len log_flag <? log_last_pos) || (buffer_max_len <? max_len log_flag)
    then (- EFAULT, log_last_pos, false)
    else if max_len log_flag <? r_off reader then (- EFAULT, log_last_pos, false)
    else (0, log_last_pos, true).

Definition proc_read_ret (s : tlogger) (buf_written : Z) (reader : tlogger_reader)
    : tlogger * Z :=
  if buf_written =? 0 then (s, LOG_READ_STATUS_ERROR)
  else (set_last_read s (r_off reader), buf_written).

(** [file] is [None] for a NULL pointer, else its [private_data]. *)
Definition check_read_params (file : option Z) (buf count : Z) : Z :=
  if count <? LOG_ITEM_MAX_LEN then - EINVAL
  else match file with
       | None => - EINVAL
       | Some _ => if buf =? 0 then - EINVAL else 0
       end.

(** What a reader sees of the shared log after it has checked its head: the
    values its successive reads of [write_loops] and [max_len] give, and the
    ring during the first and the second parse. *)
Record log_view := LogView {
  loops_at : nat → Z;
  max_at : nat → Z;
  first_ring : ring_view;
  second_ring : ring_view
}.

(** A TEE that leaves the log alone. *)
Definition still_log (lb : log_buffer) : log_view :=
  LogView (λ _, write_loops (flag lb)) (λ _, max_len (flag lb))
    (still_ring (buffer_start lb)) (still_ring (buffer_start lb)).

(** Where reading resumes when the TEE has gone round since the last read: if
    the reader's position has been overwritten, at the oldest item.  [w1], [w2]
    and [w3] are the three reads of [write_loops]. *)
Definition resume_reader_at (w1 w2 w3 log_last_pos : Z) (reader : tlogger_reader)
    : tlogger_reader :=
  if (u32 (r_loops reader + 1) <? w1)
     || ((w2 =? u32 (r_loops reader + 1)) && (r_off reader <? log_last_pos))
  then with_pos reader log_last_pos (u32 (w3 - 1))
  else reader.

Definition resume_reader (f : log_buffer_flag) (log_last_pos : Z) (reader : tlogger_reader)
    : tlogger_reader :=
  resume_reader_at (write_loops f) (write_loops f) (write_loops f) log_last_pos reader.

Definition trigger_parse_log (s : tlogger) (m : mem) (buf count log_last_pos : Z)
    (v : log_view) (reader : tlogger_reader)
    : outcome (tlogger * mem * tlogger_reader * Z) :=
  if loops_at v 0 =? r_loops reader then
    let position := set_reader_position (Some (first_ring v)) (max_at v 0) (r_off reader)
                      log_last_pos in
    '(m, buf_written, off, _) ← parse_log_item m buf count position (Some (r_off reader)) false;
    let reader := with_pos reader (default 0 off) (r_loops reader) in
    let '(s, ret) := proc_read_ret s buf_written reader in
    Ret (s, m, reader, ret)
  else
    let reader := resume_reader_at (loops_at v 1) (loops_at v 2) (loops_at v 3) log_last_pos reader in
    let position := set_reader_position (Some (first_ring v)) (max_at v 0) (r_off reader)
                      (max_at v 1) in
    '(m, buf_written, off, user_buffer_left) ←
      parse_log_item m buf count position (Some (r_off reader)) false;
    let reader := with_pos reader (default 0 off) (r_loops reader) in
    if (buf_written <? count) && user_buffer_left then
      let position := set_reader_position (Some (second_ring v)) (max_at v 2) 0 log_last_pos in
      '(m, more, off, _) ←
        parse_log_item m (buf + buf_written) (count - buf_written) position
          (Some (r_off reader)) user_buffer_left;
      let reader := with_pos reader (default 0 off) (loops_at v 4) in
      let '(s, ret) := proc_read_ret s (u32 (buf_written + more)) reader in
      Ret (s, m, reader, ret)
    else
      let '(s, ret) := proc_read_ret s buf_written reader in
      Ret (s, m, reader, ret).

(** [tee] is what the TEE does after the check of the head: what the reader sees
    of the log from there on, and the log when the read ends. *)
Definition process_tlogger_read (tee : log_buffer → log_view * log_buffer) (s : tlogger) (m : mem)
    (file : option Z) (buf count : Z) : outcome (tlogger * mem * Z) :=
  let ret := check_read_params file buf count in
  if nonzero ret then Ret (s, m, ret)
  else
    let p := default 0 file in
    if p =? 0 then Ret (s, m, - EINVAL)
    else
      reader ← at_index (reader_heap s) p;
      '(ret, info) ← get_buffer_info s reader;
      match info with
      | None => Ret (s, m, ret)
      | Some (f, a) =>
          let '(ret, last_pos, is_read) := get_last_read_pos s f reader in
          if negb is_read then Ret (s, m, ret)
          else
            lb ← at_index (log_mem s) a;
            let '(v, lb') := tee lb in
            '(s, m, reader, ret) ← trigger_parse_log s m buf count last_pos v reader;
            let s := set_log_mem s (<[a := lb']> (log_mem s)) in
            Ret (set_readers s (<[p := reader]> (reader_heap s)), m, ret)
      end.

(** The TEE is idle during the read. *)
Definition idle (lb : log_buffer) : log_view * log_buffer := (still_log lb, lb).

End Reading.

(** ** The misc device *)

(** Whether waiting readers are woken. *)
Definition tz_log_write (s : tlogger) : outcome bool :=
  if g_log s =? 0 then Ret false
  else
    log ← at_index (log_heap s) (g_log s);
    if buffer_info log =? 0 then Ret false
    else
      b ← at_index (log_mem s) (buffer_info log);
      Ret (negb (g_last_read_offset s =? last_pos (flag b))).

Fixpoint log_by_minor_loop (s : tlogger) (minor : Z) (l : list Z) : outcome Z :=
  match l with
  | [] => Ret 0
  | p :: l =>
      log ← at_index (log_heap s) p;
      if misc_minor log =? minor then Ret p else log_by_minor_loop s minor l
  end.

Definition get_tlogger_log_by_minor (s : tlogger) (minor : Z) : outcome Z :=
  log_by_minor_loop s minor (m_log_list s).

Definition new_reader (log : Z) : tlogger_reader := TloggerReader log 0 0 0 0 0 0 true.

Definition log_with_readers (l : tlogger_log) (rs : list Z) : tlogger_log :=
  TloggerLog (buffer_info l) (misc_minor l) (misc_name l) rs.

Definition upd_log (s : tlogger) (p : Z) (l : tlogger_log) : tlogger :=
  set_logs s (<[p := l]> (log_heap s)) (m_log_list s) (g_log s).

(** [nonseekable] is the status of [nonseekable_open], [km] the address
    [kmalloc] returns.  The last component is the new [private_data]. *)
Definition process_tlogger_open (s : tlogger) (nonseekable minor km private : Z)
    : outcome (tlogger * Z * Z) :=
  if nonzero nonseekable then Ret (s, nonseekable, private)
  else
    log ← get_tlogger_log_by_minor s minor;
    if log =? 0 then Ret (s, - ENODEV, private)
    else if zero_or_null_ptr km then Ret (s, - ENOMEM, private)
    else
      l ← at_index (log_heap s) log;
      let s := set_readers s (<[km := new_reader log]> (reader_heap s)) in
      let s := upd_log s log (log_with_readers l (log_readers l ++ [km])) in
      Ret (set_tlogcat s (u32 (g_tlogcat_count s + 1)) (g_tlogcat_f s), 0, km).

Definition process_tlogger_release (s : tlogger) (file : option Z) : outcome (tlogger * Z) :=
  match file with
  | None => Ret (s, -1)
  | Some p =>
      if p =? 0 then Ret (s, -1)
      else
        reader ← at_index (reader_heap s) p;
        if reader_log reader =? 0 then Ret (s, -1)
        else
          l ← at_index (log_heap s) (reader_log reader);
          rs ← unlink p (log_readers l);
          let s := upd_log s (reader_log reader) (log_with_readers l rs) in
          let count := if 1 <=? g_tlogcat_count s then g_tlogcat_count s - 1
                       else g_tlogcat_count s in
          let f := if nonzero (r_is_tlogf reader) then 0 else g_tlogcat_f s in
          let s := set_tlogcat s count f in
          Ret (set_readers s (delete p (reader_heap s)), 0)
  end.

Definition POLLIN : Z := 0x1.
Definition POLLOUT : Z := 0x4.
Definition POLLRDNORM : Z := 0x40.
Definition POLLWRNORM : Z := 0x100.

Definition process_tlogger_poll (s : tlogger) (file : option Z) : outcome Z :=
  let ret := Z.lor POLLOUT POLLWRNORM in
  match file with
  | None => Ret ret
  | Some p =>
      if p =? 0 then Ret ret
      else
        reader ← at_index (reader_heap s) p;
        if reader_log reader =? 0 then Ret ret
        else
          log ← at_index (log_heap s) (reader_log reader);
          if buffer_info log =? 0 then Ret ret
          else
            b ← at_index (log_mem s) (buffer_info log);
            Ret (if last_pos (flag b) =? r_off reader then ret
                 else Z.lor ret (Z.lor POLLIN POLLRDNORM))
  end.

Definition set_reader_cur_pos (s : tlogger) (p : Z) : outcome tlogger :=
  if p =? 0 then Ret s
  else
    reader ← at_index (reader_heap s) p;
    if reader_log reader =? 0 then Ret s
    else
      log ← at_index (log_heap s) (reader_log reader);
      if buffer_info log =? 0 then Ret s
      else
        b ← at_index (log_mem s) (buffer_info log);
        let r := TloggerReader (reader_log reader) (last_pos (flag b)) (write_loops (flag b))
                   (r_sn reader) (r_failtimes reader) 1 (r_is_tlogf reader) (r_all reader) in
        Ret (set_readers s (<[p := r]> (reader_heap s))).

Definition set_tlogcat_f_stat (s : tlogger) (p : Z) : outcome tlogger :=
  if p =? 0 then Ret s
  else
    r ← at_index (reader_heap s) p;
    let r := TloggerReader (reader_log r) (r_off r) (r_loops r) (r_sn r) (r_failtimes r)
               (r_from_cur r) 1 (r_all r) in
    Ret (set_tlogcat (set_readers s (<[p := r]> (reader_heap s))) (g_tlogcat_count s) 1).

Definition get_tlogcat_f_stat (s : tlogger) : Z := g_tlogcat_f s.

(** [_IOC(dir, type, nr, size)] of the kernel. *)
Definition ioc (dir ty nr size : Z) : Z :=
  Z.lor (Z.lor (Z.shiftl dir 30) (Z.shiftl size 16)) (Z.lor (Z.shiftl ty 8) nr).
Definition ioc_dir (cmd : Z) : Z := Z.land (Z.shiftr cmd 30) 3.
Definition IOC_READ : Z := 2.

Definition TEELOGGER_GET_VERSION : Z := ioc IOC_READ 0xBE 5 256.
Definition TEELOGGER_SET_READERPOS_CUR : Z := ioc 0 0xBE 6 0.
Definition TEELOGGER_SET_TLOGCAT_STAT : Z := ioc 0 0xBE 7 0.
Definition TEELOGGER_GET_TLOGCAT_STAT : Z := ioc 0 0xBE 8 0.

Definition get_reader_log (s : tlogger) (p : Z) : outcome Z :=
  if p =? 0 then Ret 0 else r ← at_index (reader_heap s) p; Ret (reader_log r).

Section Ioctl.
Context {CM : ClientMem} {UA : UserAccess}.

Definition get_teeos_version (s : tlogger) (m : mem) (cmd arg : Z) : outcome (mem * Z) :=
  if Z.land (ioc_dir cmd) IOC_READ =? 0 then Ret (m, -1)
  else if negb (access_ok arg 156) then Ret (m, -1)
  else
    b ← at_index (log_mem s) (g_log_buffer s);
    let '(left_over, m) := copy_to_user m arg (version_info (flag b)) in
    Ret (m, if nonzero left_over then -1 else 0).

Definition process_tlogger_ioctl (s : tlogger) (m : mem) (file : option Z) (cmd arg : Z)
    : outcome (tlogger * mem * Z) :=
  match file with
  | None => Ret (s, m, -1)
  | Some p =>
      log ← get_reader_log s p;
      if log =? 0 then Ret (s, m, -1)
      else if cmd =? TEELOGGER_GET_VERSION then
        '(m, r) ← get_teeos_version s m cmd arg;
        Ret (s, m, if nonzero r then - EINVAL else 0)
      else if cmd =? TEELOGGER_SET_READERPOS_CUR then
        s ← set_reader_cur_pos s p; Ret (s, m, 0)
      else if cmd =? TEELOGGER_SET_TLOGCAT_STAT then
        s ← set_tlogcat_f_stat s p; Ret (s, m, 0)
      else if cmd =? TEELOGGER_GET_TLOGCAT_STAT then
        Ret (s, m, get_tlogcat_f_stat s)
      else Ret (s, m, - EINVAL)
  end.

End Ioctl.
