(* ===== verification/TloggerThm.v ===== *)
(** * Reading the TEE log: lemmas

    The parser on arbitrary bytes: it stays inside the ring and the client's
    buffer and always ends.  The parser on a range of well-formed items: it
    copies the longest prefix that fits. *)

From stdpp Require Import base gmap list.
From Stdlib Require Import ZArith Lia.
From S2P Require Import Prelude KernelApi TeeTypes Buffers Mailbox SessReg.
From S2P Require Import CallTypes GpParams Tlogger.

(** ** Ranges *)

Lemma read_range_ok b off n :
  0 ≤ off → 0 ≤ n → off + n ≤ zlen b → read_range b off n = Ret (sub_buf b off n).
Proof.
  intros. unfold read_range.
  rewrite !(proj2 (Z.leb_le _ _)) by done. done.
Qed.

Lemma load_item_ok b off :
  0 ≤ off → off + LOG_ITEM_SIZE ≤ zlen b →
  load_item b off = Ret (decode_item (sub_buf b off LOG_ITEM_SIZE)).
Proof. intros. unfold load_item. by rewrite read_range_ok. Qed.

Lemma store_bytes_app m a l l' :
  store_bytes m a (l ++ l') = store_bytes (store_bytes m a l) (a + zlen l) l'.
Proof.
  revert m a. induction l as [|x l IH]; intros m a; unfold zlen in *; cbn.
  - by rewrite Z.add_0_r.
  - rewrite IH. f_equal. lia.
Qed.

(** ** Items *)

(** An item that the parser accepts at [p] when it may look up to [lim]. *)
Definition valid_at (b : list Z) (p lim : Z) (it : log_item) : Prop :=
  load_item b p = Ret it ∧
  check_log_item_validite it (Z.min LOG_ITEM_MAX_LEN (lim - p)) = true.

Definition no_item_from (b : list Z) (p lim : Z) : Prop :=
  ∀ k it, 0 ≤ k → ¬ valid_at b (p + LOG_ITEM_LEN_ALIGN * k) lim it.

Lemma check_bounds it mx :
  check_log_item_validite it mx = true →
  64 ≤ buffer_len it ∧ 0 < real_len it ≤ buffer_len it ∧ buffer_len it + 64 ≤ mx.
Proof.
  unfold check_log_item_validite, LOG_ITEM_LEN_ALIGN, LOG_ITEM_SIZE. intros H.
  rewrite !andb_true_iff, !Z.leb_le, !Z.ltb_lt, !Z.eqb_eq in H.
  destruct H as [[[[[[_ H1] H2] H3] H4] _] H5].
  split_and!; try lia. pose proof (Z.div_mod (buffer_len it) 64 ltac:(lia)).
  assert (buffer_len it / 64 ≠ 0) by nia. assert (0 ≤ buffer_len it / 64) by (apply Z.div_pos; lia).
  lia.
Qed.

Lemma check_mono it mx mx' :
  mx ≤ mx' → check_log_item_validite it mx = true → check_log_item_validite it mx' = true.
Proof.
  unfold check_log_item_validite. rewrite !andb_true_iff, !Z.leb_le. intros ? [? ?].
  split; [done|lia].
Qed.

Lemma valid_at_bounds b p lim it :
  valid_at b p lim it →
  64 ≤ buffer_len it ∧ p + buffer_len it + 64 ≤ lim ∧ buffer_len it + 64 ≤ 1024.
Proof.
  intros [_ H]. apply check_bounds in H. unfold LOG_ITEM_MAX_LEN in H. lia.
Qed.

(** No item fits in less than 128 bytes. *)
Lemma no_item_short b p lim : lim < p + 128 → no_item_from b p lim.
Proof. unfold no_item_from, LOG_ITEM_LEN_ALIGN. intros H k it Hk Hv%valid_at_bounds. lia. Qed.

Lemma no_item_later b p lim k :
  no_item_from b p lim → 0 ≤ k → no_item_from b (p + LOG_ITEM_LEN_ALIGN * k) lim.
Proof.
  intros H Hk j it Hj.
  replace (p + LOG_ITEM_LEN_ALIGN * k + LOG_ITEM_LEN_ALIGN * j)
    with (p + LOG_ITEM_LEN_ALIGN * (k + j)) by lia.
  apply H. lia.
Qed.

(** ** The search for the next item *)

(** What a search from [p] up to [lim] yields, when [b q] is the ring as it is
    looked at at [q]. *)
Definition search_result (b : Z → list Z) (p lim pos : Z) (r : option (Z * log_item)) (pos' : Z)
    : Prop :=
  match r with
  | Some (ptr, it) =>
      pos' = ptr ∧ valid_at (b ptr) ptr lim it ∧
      ∃ k, 0 ≤ k ∧ ptr = p + LOG_ITEM_LEN_ALIGN * k ∧
        ∀ j it', 0 ≤ j < k →
          ¬ valid_at (b (p + LOG_ITEM_LEN_ALIGN * j)) (p + LOG_ITEM_LEN_ALIGN * j) lim it'
  | None =>
      (∀ k it, 0 ≤ k → ¬ valid_at (b (p + LOG_ITEM_LEN_ALIGN * k)) (p + LOG_ITEM_LEN_ALIGN * k) lim it) ∧
      (pos' = pos ∨ ∃ k, 0 ≤ k ∧ pos' = p + LOG_ITEM_LEN_ALIGN * k ∧ pos' + 128 ≤ lim)
  end.

Lemma next_item_loop_ok fuel b rp sl i pos :
  0 ≤ rp → 0 ≤ i → (∀ q, rp + sl ≤ zlen (b q)) → rp + sl < 2 ^ 32 →
  (sl - i) / LOG_ITEM_LEN_ALIGN < Z.of_nat fuel → (0 < fuel)%nat →
  ∃ r pos', next_item_loop fuel b rp sl i pos = Ret (r, pos') ∧
    search_result b (rp + i) (rp + sl) pos r pos'.
Proof.
  unfold LOG_ITEM_LEN_ALIGN. revert i pos.
  induction fuel as [|fuel IH]; intros i pos Hrp Hi Hb Hsl Hf Hf0; [lia|].
  cbn [next_item_loop]. unfold LOG_ITEM_SIZE, LOG_ITEM_LEN_ALIGN.
  destruct (Z.leb_spec (i + 64 + 64) sl) as [Hle|Hle].
  2:{ exists None, pos. split; [done|]. split; [|by left]. intros k it Hk Hv%valid_at_bounds.
      unfold LOG_ITEM_LEN_ALIGN in *. lia. }
  specialize (Hb (rp + i)) as Hbi.
  rewrite load_item_ok by (unfold LOG_ITEM_SIZE; lia). rewrite ret_bind.
  set (it := decode_item _).
  assert ((if LOG_ITEM_MAX_LEN <? sl - i then LOG_ITEM_MAX_LEN else sl - i)
    = Z.min LOG_ITEM_MAX_LEN (sl - i)) as ->.
  { destruct (Z.ltb_spec LOG_ITEM_MAX_LEN (sl - i)); lia. }
  rewrite (u32_small (rp + i)) by lia.
  assert (load_item (b (rp + i)) (rp + i) = Ret it) as Hit
    by (by rewrite load_item_ok by (unfold LOG_ITEM_SIZE; lia)).
  replace (sl - i) with (rp + sl - (rp + i)) by lia.
  destruct (check_log_item_validite it _) eqn:Hc.
  { exists (Some (rp + i, it)), (rp + i). split; [done|].
    split_and!; [done|done|]. exists 0. split_and!; [lia|lia|]. intros; lia. }
  assert (∀ it', ¬ valid_at (b (rp + i)) (rp + i) (rp + sl) it') as Hno.
  { intros it' [E Hv]. rewrite Hit in E. injection E as <-. congruence. }
  rewrite u32_small by lia.
  destruct (IH (i + 64) (rp + i)) as (r & pos' & E & Hr); try (done || lia).
  { replace (sl - i) with (sl - (i + 64) + 1 * 64) in Hf by lia.
    rewrite Z.div_add in Hf by lia. lia. }
  { assert (2 ≤ (sl - i) / 64) by (apply Z.div_le_lower_bound; lia). lia. }
  exists r, pos'. split; [done|].
  destruct r as [[ptr it']|]; simpl in *.
  - destruct Hr as (-> & Hv & k & Hk & -> & Hj). split_and!; [done|done|].
    exists (k + 1). unfold LOG_ITEM_LEN_ALIGN in *. split_and!; [lia|lia|].
    intros j it2 Hjk. destruct (decide (j = 0)) as [->|].
    + rewrite Z.mul_0_r, Z.add_0_r. apply Hno.
    + replace (rp + i + 64 * j) with (rp + (i + 64) + 64 * (j - 1)) by lia.
      apply Hj. lia.
  - destruct Hr as [Hn Hp]. unfold no_item_from, LOG_ITEM_LEN_ALIGN in *. split.
    + intros k it2 Hk. destruct (decide (k = 0)) as [->|].
      * rewrite Z.mul_0_r, Z.add_0_r. apply Hno.
      * replace (rp + i + 64 * k) with (rp + (i + 64) + 64 * (k - 1)) by lia. apply Hn. lia.
    + right. destruct Hp as [->|(k & Hk & -> & Hl)].
      * exists 0. lia.
      * exists (k + 1). lia.
Qed.

Lemma get_next_log_item_ok b mx rp sl pos :
  0 ≤ rp → 0 ≤ sl → rp + sl ≤ mx → (∀ q, mx ≤ zlen (b q)) → mx < 2 ^ 32 →
  ∃ r pos', get_next_log_item b mx rp sl pos = Ret (r, pos') ∧
    search_result b rp (rp + sl) pos r pos'.
Proof.
  intros H0 H1 Hs H2 H3. unfold get_next_log_item. rewrite u32_small by lia.
  destruct (Z.ltb_spec mx (rp + sl)); [lia|].
  destruct (next_item_loop_ok (S (Z.to_nat (sl / LOG_ITEM_LEN_ALIGN))) b rp sl 0 pos)
    as (r & pos' & E & Hr); try lia.
  { intros q. specialize (H2 q). lia. }
  { rewrite Z.sub_0_r. assert (0 ≤ sl / LOG_ITEM_LEN_ALIGN) by (apply Z.div_pos; done || lia). lia. }
  exists r, pos'. rewrite Z.add_0_r in Hr. done.
Qed.

(** ** The parser on arbitrary bytes *)

Section Parse.
Context {CM : ClientMem} {CL : ClientMemLaws CM}.

(** The client's buffer can be written. *)
Definition writable (buf n : Z) : Prop :=
  ∀ m d bs, buf ≤ d → d + zlen bs ≤ buf + n → (copy_to_user m d bs).1 = 0.

Lemma writable_copy buf n m d bs :
  writable buf n → buf ≤ d → d + zlen bs ≤ buf + n →
  copy_to_user m d bs = (0, store_bytes m d bs).
Proof.
  intros Hw H1 H2. specialize (Hw m d bs H1 H2). destruct (copy_to_user m d bs) as [k m'] eqn:E.
  simpl in Hw. subst. f_equal. by apply copy_to_user_ok in E.
Qed.

(** The length of the second read. *)
Lemma load_buffer_len_item b p it : load_item b p = Ret it → load_buffer_len b p = Ret (buffer_len it).
Proof.
  unfold load_item, load_buffer_len, read_range, LOG_ITEM_SIZE.
  destruct (Z.leb_spec 0 p); [|done]. destruct (Z.leb_spec (p + 64) (zlen b)); [|done].
  rewrite !(proj2 (Z.leb_le _ _)) by lia. intros [= <-]. simpl. f_equal.
  unfold sub_buf. rewrite skipn_firstn_comm, drop_drop, take_take. do 2 f_equal. f_equal. lia.
Qed.

(** The TEE does not change the length of an item between the check of the item
    and its copy, and the ring does not shrink. *)
Record steady (b : ring_view) (mx : Z) : Prop := {
  steady_seen q : mx ≤ zlen (seen b q);
  steady_used q : mx ≤ zlen (used b q);
  steady_len q lim it :
    valid_at (seen b q) q lim it → load_buffer_len (used b q) q = Ret (buffer_len it)
}.

Lemma still_ring_steady b mx : mx ≤ zlen b → steady (still_ring b) mx.
Proof. intros H. split; simpl; try done. intros q lim it [Hl _]. by apply load_buffer_len_item. Qed.

Lemma parse_loop_ok fuel b mx ep m buf lft w sp :
  0 ≤ sp < 2 ^ 32 → ep ≤ mx → steady b mx → mx < 2 ^ 32 →
  0 ≤ lft → 0 ≤ w → lft + w < 2 ^ 32 →
  (ep - sp) / LOG_ITEM_LEN_ALIGN < Z.of_nat fuel → (0 < fuel)%nat →
  ∃ m' w' off u, parse_loop fuel b mx ep m buf lft w sp = Ret (m', w', off, u) ∧
    w ≤ w' ≤ w + lft ∧ sp ≤ off ≤ Z.max sp ep ∧
    (∀ x, ¬ buf + w ≤ x < buf + w' → m' !! x = m !! x) ∧
    ∃ data, zlen data = w' - w ∧ (writable buf (w + lft) → m' = store_bytes m (buf + w) data).
Proof.
  revert m lft w sp. induction fuel as [|fuel IH];
    intros m lft w sp Hsp Hep Hmx Hmx' Hl Hw Hlw Hf Hf0; [lia|].
  cbn [parse_loop]. destruct (Z.ltb_spec sp ep) as [Hlt|Hlt].
  2:{ exists m, w, sp, true. split_and!; try (done || lia).
      exists []. unfold zlen. simpl. split; [lia|done]. }
  rewrite (u32_small (ep - sp)) by lia.
  destruct (get_next_log_item_ok (seen b) mx sp (ep - sp) sp) as (r & pos' & -> & Hr);
    try (done || lia); [apply Hmx|].
  rewrite ret_bind. replace (sp + (ep - sp)) with ep in Hr by lia.
  destruct r as [[ptr it]|]; simpl in Hr.
  2:{ exists m, w, pos', true. unfold LOG_ITEM_LEN_ALIGN in Hr.
      split_and!; try done; try (destruct Hr as [_ [->|(k & ? & -> & ?)]]; lia).
      exists []. unfold zlen. simpl. split; [lia|done]. }
  destruct Hr as (-> & Hv & k & Hk & -> & _).
  pose proof (valid_at_bounds _ _ _ _ Hv). unfold LOG_ITEM_SIZE, LOG_ITEM_LEN_ALIGN in *.
  rewrite (steady_len _ _ Hmx _ _ _ Hv), ret_bind.
  pose proof (steady_used _ _ Hmx (sp + 64 * k)) as Hus.
  rewrite (u32_small (buffer_len it + 64)) by lia.
  destruct (Z.ltb_spec lft (buffer_len it + 64)) as [Hsm|Hsm].
  { exists m, w, (sp + 64 * k), false. split_and!; try (done || lia).
    exists []. unfold zlen. simpl. split; [lia|done]. }
  rewrite read_range_ok by lia. rewrite ret_bind. set (n := buffer_len it + 64) in *.
  destruct (copy_to_user m (buf + w) _) as [lo m1] eqn:Ec.
  rewrite !u32_small by lia.
  destruct (IH m1 (lft - n) (w + n) (sp + 64 * k + n)) as (m' & w' & off & u & E & H1 & H2 & H3 & data & Hd & Hst);
    try (done || lia).
  { assert ((ep - (sp + 64 * k + n)) / 64 ≤ (ep - sp - 64) / 64) by (apply Z.div_le_mono; lia).
    replace (ep - sp - 64) with (ep - sp + (-1) * 64) in * by lia.
    rewrite Z.div_add in * by lia. lia. }
  { assert (2 ≤ (ep - sp) / 64) by (apply Z.div_le_lower_bound; lia). lia. }
  set (bs := sub_buf (used b (sp + 64 * k)) (sp + 64 * k) n) in *.
  assert (zlen bs = n) as Hbs by (unfold bs, zlen; rewrite sub_buf_length by lia; lia).
  exists m', w', off, u. split_and!; try (done || lia).
  - intros x Hx. rewrite H3 by lia.
    pose proof (copy_to_user_frame m (buf + w) bs x) as Hfr.
    rewrite Ec in Hfr. apply Hfr. lia.
  - exists (bs ++ data). split; [unfold zlen in *; rewrite length_app; lia|]. intros Hwr.
    rewrite (writable_copy buf (w + lft)) in Ec by (done || lia). injection Ec as _ <-.
    rewrite Hst by (by replace (w + n + (lft - n)) with (w + lft) by lia).
    rewrite store_bytes_app, Hbs, Z.add_assoc. done.
Qed.

Lemma parse_log_item_ok b mx sp ep m buf count off0 u0 :
  0 ≤ sp < 2 ^ 32 → ep ≤ mx → steady b mx → mx < 2 ^ 32 → 0 ≤ count →
  ∃ m' w off u,
    parse_log_item m buf count (ReaderPosition (Some b) mx sp ep) (Some off0) u0
      = Ret (m', w, Some off, u) ∧
    0 ≤ w ≤ u32 count ∧ sp ≤ off ≤ Z.max sp ep ∧
    (∀ x, ¬ buf ≤ x < buf + w → m' !! x = m !! x) ∧
    ∃ data, zlen data = w ∧ (writable buf (u32 count) → m' = store_bytes m buf data).
Proof.
  intros Hsp Hep Hmx Hmx' Hc. unfold parse_log_item. cbn [pos_buffer_start pos_max_len start_pos end_pos].
  pose proof (u32_range count).
  destruct (parse_loop_ok (S (Z.to_nat ((ep - sp) / LOG_ITEM_LEN_ALIGN))) b mx ep m buf
    (u32 count) 0 sp) as (m' & w & off & u & -> & H1 & H2 & H3 & data & Hd & Hst); try (done || lia).
  rewrite ret_bind, Z.add_0_r in *. exists m', w, off, u. split_and!; try (done || lia).
  exists data. split; [lia|done].
Qed.

(** ** The parser on well-formed items *)

Definition item_ok (it : list Z) : Prop :=
  check_log_item_validite (decode_item (take 64 it)) LOG_ITEM_MAX_LEN = true ∧
  zlen it = buffer_len (decode_item (take 64 it)) + LOG_ITEM_SIZE.

(** The bytes from [p] to [e] are the items [l]. *)
Inductive region (b : list Z) : Z → list (list Z) → Z → Prop :=
| region_nil p : 0 ≤ p ≤ zlen b → region b p [] p
| region_cons p it l e :
    item_ok it → 0 ≤ p → p + zlen it ≤ zlen b → sub_buf b p (zlen it) = it →
    region b (p + zlen it) l e → region b p (it :: l) e.

Lemma item_ok_len it : item_ok it → 128 ≤ zlen it ≤ 1024.
Proof.
  intros [Hc E]. apply check_bounds in Hc. unfold LOG_ITEM_MAX_LEN, LOG_ITEM_SIZE in *. lia.
Qed.

Lemma region_range b p l e : region b p l e → 0 ≤ p ≤ e ∧ e ≤ zlen b.
Proof.
  induction 1 as [|p it l e Hi%item_ok_len]; lia.
Qed.

Lemma region_end b p l e : region b p l e → e = p + zlen (concat l).
Proof.
  induction 1; simpl; [unfold zlen; simpl; lia|].
  unfold zlen in *. rewrite length_app. lia.
Qed.

Lemma region_valid b p it l e lim :
  region b p (it :: l) e → e ≤ lim → valid_at b p lim (decode_item (take 64 it)).
Proof.
  intros Hr Hl. inversion Hr as [|? ? ? ? Hok Hp Hz Hs Hr']; subst.
  pose proof (item_ok_len _ Hok). pose proof (region_range _ _ _ _ Hr').
  assert (take 64 it = sub_buf b p 64) as E.
  { rewrite <- Hs at 1. unfold sub_buf. rewrite take_take. f_equal. lia. }
  split.
  - rewrite load_item_ok by (unfold LOG_ITEM_SIZE; lia). by rewrite E.
  - destruct Hok as [Hc Hz']. unfold check_log_item_validite in *.
    rewrite !andb_true_iff, !Z.leb_le in *. unfold LOG_ITEM_MAX_LEN in *. destruct Hc as [? _]. split; [done|lia].
Qed.

(** The longest prefix of at most [n] bytes. *)
Fixpoint fit (n : Z) (l : list (list Z)) : list (list Z) :=
  match l with
  | [] => []
  | it :: l => if zlen it <=? n then it :: fit (n - zlen it) l else []
  end.

Fixpoint unfit (n : Z) (l : list (list Z)) : list (list Z) :=
  match l with
  | [] => []
  | it :: l => if zlen it <=? n then unfit (n - zlen it) l else it :: l
  end.

Lemma fit_unfit n l : fit n l ++ unfit n l = l.
Proof.
  revert n. induction l as [|it l IH]; intros n; simpl; [done|].
  destruct (zlen it <=? n); simpl; [by rewrite IH|done].
Qed.

Lemma fit_len n l : 0 ≤ n → zlen (concat (fit n l)) ≤ n.
Proof.
  revert n. induction l as [|it l IH]; intros n Hn; cbn [fit]; [unfold zlen; simpl; lia|].
  destruct (Z.leb_spec (zlen it) n); [|unfold zlen; simpl; lia].
  specialize (IH (n - zlen it) ltac:(lia)). cbn [concat].
  unfold zlen in *. rewrite length_app. lia.
Qed.

Lemma region_fit b p l e n :
  region b p l e → region b (p + zlen (concat (fit n l))) (unfit n l) e.
Proof.
  intros Hr. revert n. induction Hr as [p Hp|p it l e Hok Hp Hz Hs Hr IH]; intros n; simpl.
  - unfold zlen. simpl. rewrite Z.add_0_r. by constructor.
  - destruct (zlen it <=? n); simpl.
    + specialize (IH (n - zlen it)). unfold zlen in *. rewrite length_app.
      by replace (p + Z.of_nat (length it + length (concat (fit (n - Z.of_nat (length it)) l))))
        with (p + Z.of_nat (length it)
              + Z.of_nat (length (concat (fit (n - Z.of_nat (length it)) l)))) by lia.
    + unfold zlen at 1. simpl. rewrite Z.add_0_r. by constructor.
Qed.

(** Where the reader stands after a parse of the items [l] from [p], with
    nothing readable between [e] and [lim]: at the next item, or behind the
    last one. *)
Definition parsed_to (b : list Z) (p e lim n : Z) (l : list (list Z)) (off : Z) (u : bool)
    : Prop :=
  if u
  then unfit n l = [] ∧ e ≤ off ≤ lim ∧ no_item_from b off lim ∧ (e = lim → off = e)
  else unfit n l ≠ [] ∧ off = p + zlen (concat (fit n l)).

(** The search at the first item of a region, and behind the last one. *)
Lemma next_item_region b mx p it l e ep :
  region b p (it :: l) e → e ≤ ep → ep ≤ mx → mx ≤ zlen b → mx < 2 ^ 32 →
  get_next_log_item (λ _, b) mx p (ep - p) p = Ret (Some (p, decode_item (take 64 it)), p).
Proof.
  intros Hr Hee Hep Hmx Hmx'. pose proof (region_range _ _ _ _ Hr).
  pose proof (region_valid _ _ _ _ _ ep Hr Hee) as Hv.
  destruct (get_next_log_item_ok (λ _, b) mx p (ep - p) p) as (r & pos' & -> & Hs); try (done || lia).
  replace (p + (ep - p)) with ep in Hs by lia.
  assert (p = p + LOG_ITEM_LEN_ALIGN * 0) as E0 by lia.
  destruct r as [[ptr it']|]; simpl in Hs.
  - destruct Hs as (-> & Hv' & k & Hk & -> & Hj).
    destruct (decide (k = 0)) as [->|].
    2:{ rewrite E0 in Hv. by destruct (Hj 0 _ ltac:(lia) Hv). }
    rewrite <- E0 in *. destruct Hv as [E _], Hv' as [E' _]. congruence.
  - rewrite E0 in Hv. by destruct (proj1 Hs 0 _ ltac:(lia) Hv).
Qed.

Lemma next_item_none b mx e ep pos :
  0 ≤ e ≤ ep → no_item_from b e ep → ep ≤ mx → mx ≤ zlen b → mx < 2 ^ 32 →
  ∃ pos', get_next_log_item (λ _, b) mx e (ep - e) pos = Ret (None, pos') ∧
    (pos' = pos ∨ e ≤ pos' ≤ ep ∧ no_item_from b pos' ep).
Proof.
  intros He Hno Hep Hmx Hmx'.
  destruct (get_next_log_item_ok (λ _, b) mx e (ep - e) pos) as (r & pos' & -> & Hs); try (done || lia).
  replace (e + (ep - e)) with ep in Hs by lia.
  destruct r as [[ptr it]|]; simpl in Hs.
  - destruct Hs as (_ & Hv & k & Hk & -> & _). by destruct (Hno k it Hk).
  - exists pos'. split; [done|]. destruct Hs as [_ [->|(k & Hk & -> & Hl)]]; [by left|right].
    split; [unfold LOG_ITEM_LEN_ALIGN in *; lia|by apply no_item_later].
Qed.

Lemma parse_loop_region fuel b mx ep e m buf lft w sp l :
  region b sp l e → e ≤ ep → no_item_from b e ep →
  ep ≤ mx → mx ≤ zlen b → mx < 2 ^ 32 →
  0 ≤ lft → 0 ≤ w → lft + w < 2 ^ 32 → writable buf (lft + w) →
  (ep - sp) / LOG_ITEM_LEN_ALIGN < Z.of_nat fuel → (0 < fuel)%nat →
  ∃ off u,
    parse_loop fuel (still_ring b) mx ep m buf lft w sp
      = Ret (store_bytes m (buf + w) (concat (fit lft l)), w + zlen (concat (fit lft l)), off, u) ∧
    parsed_to b sp e ep lft l off u.
Proof.
  intros Hr Hee Hno. revert m lft w sp l Hr. induction fuel as [|fuel IH];
    intros m lft w sp l Hr Hep Hmx Hmx' Hl Hw Hlw Hwr Hf Hf0; [lia|].
  pose proof (region_range _ _ _ _ Hr). cbn [parse_loop still_ring seen used]. unfold LOG_ITEM_LEN_ALIGN in *.
  destruct l as [|it l].
  { inversion Hr; subst. cbn [fit concat]. unfold zlen at 1. simpl length. rewrite Z.add_0_r.
    cbn [store_bytes]. destruct (Z.ltb_spec e ep) as [Hlt|Hlt].
    2:{ exists e, true. split; [done|]. split_and!; try done; lia. }
    rewrite (u32_small (ep - e)) by lia.
    destruct (next_item_none b mx e ep e) as (pos' & -> & Hp); try (done || lia).
    exists pos', true. split; [done|]. unfold parsed_to.
    destruct Hp as [->|[? ?]]; split_and!; done || lia. }
  inversion Hr as [|? ? ? ? Hok Hp Hz Hs Hr']; subst.
  pose proof (item_ok_len _ Hok) as Hlen. pose proof (region_range _ _ _ _ Hr').
  rewrite (proj2 (Z.ltb_lt sp ep)), (u32_small (ep - sp)) by lia.
  rewrite (next_item_region b mx sp it l e ep), ret_bind by done.
  rewrite (load_buffer_len_item _ _ _ (proj1 (region_valid _ _ _ _ _ _ Hr Hee))), ret_bind.
  replace (buffer_len (decode_item (take 64 it)) + LOG_ITEM_SIZE) with (zlen it)
    by (by destruct Hok as [_ ->]).
  rewrite (u32_small (zlen it)) by lia. unfold parsed_to. cbn [fit unfit].
  destruct (Z.leb_spec (zlen it) lft) as [Hfit|Hfit].
  2:{ rewrite (proj2 (Z.ltb_lt _ _)) by lia. exists sp, false. cbn [concat store_bytes].
      change (zlen []) with 0. by rewrite !Z.add_0_r. }
  rewrite (proj2 (Z.ltb_ge _ _)) by lia. rewrite read_range_ok, ret_bind, Hs by lia.
  rewrite (writable_copy buf (lft + w)) by (done || lia). rewrite !u32_small by lia.
  destruct (IH (store_bytes m (buf + w) it) (lft - zlen it) (w + zlen it) (sp + zlen it) l Hr')
    as (off & u & E & Hpt); try done; try lia.
  { by replace (lft - zlen it + (w + zlen it)) with (lft + w) by lia. }
  { assert ((ep - (sp + zlen it)) / 64 ≤ (ep - sp - 64) / 64) by (apply Z.div_le_mono; lia).
    replace (ep - sp - 64) with (ep - sp + (-1) * 64) in * by lia.
    rewrite Z.div_add in * by lia. lia. }
  { assert (2 ≤ (ep - sp) / 64) by (apply Z.div_le_lower_bound; lia). lia. }
  assert (∀ l', zlen (it ++ l') = zlen it + zlen l') as Happ
    by (intros; unfold zlen; rewrite length_app; lia).
  exists off, u. cbn [concat]. rewrite E, store_bytes_app, Happ, !Z.add_assoc. split; [done|].
  unfold parsed_to in Hpt. destruct u; exact Hpt.
Qed.

Lemma parse_log_item_region b mx ep e m buf count sp l o u0 :
  region b sp l e → e ≤ ep → no_item_from b e ep → ep ≤ mx → mx ≤ zlen b → mx < 2 ^ 32 →
  0 ≤ count < 2 ^ 32 → writable buf count →
  ∃ off u,
    parse_log_item m buf count (ReaderPosition (Some (still_ring b)) mx sp ep) (Some o) u0
      = Ret (store_bytes m buf (concat (fit count l)), zlen (concat (fit count l)), Some off, u) ∧
    parsed_to b sp e ep count l off u.
Proof.
  intros Hr Hee Hno Hep Hmx Hmx' Hc Hw. unfold parse_log_item.
  cbn [pos_buffer_start pos_max_len start_pos end_pos]. rewrite u32_small by done.
  destruct (parse_loop_region (S (Z.to_nat ((ep - sp) / LOG_ITEM_LEN_ALIGN))) b mx ep e m buf
    count 0 sp l) as (off & u & -> & Hp); try done; try lia.
  { by rewrite Z.add_0_r. }
  rewrite ret_bind, Z.add_0_r, Z.add_0_l. eauto.
Qed.

End Parse.

(** ** Reader positions *)

(** A reader that has been moved to the oldest item is not moved again. *)
Lemma resume_reader_stable f lp r off :
  0 ≤ write_loops f < 2 ^ 32 → r_off (resume_reader f lp r) ≤ off →
  resume_reader f lp (with_pos (resume_reader f lp r) off (r_loops (resume_reader f lp r)))
  = with_pos (resume_reader f lp r) off (r_loops (resume_reader f lp r)).
Proof.
  intros Hw Ho. unfold resume_reader at 1. cbn [r_loops r_off with_pos].
  unfold resume_reader_at at 1. cbn [r_loops r_off with_pos].
  destruct (_ || _) eqn:E; [|done]. exfalso. revert E Ho. unfold resume_reader, resume_reader_at.
  destruct ((u32 (r_loops r + 1) <? write_loops f) || _) eqn:E; cbn [r_loops r_off with_pos].
  - unfold u32. rewrite Zplus_mod_idemp_l.
    replace (write_loops f - 1 + 1) with (write_loops f) by lia. rewrite Z.mod_small by lia.
    rewrite Z.ltb_irrefl, Z.eqb_refl. simpl. intros ?%Z.ltb_lt. lia.
  - apply orb_false_iff in E as [E1 E2]. rewrite E1. simpl.
    rewrite andb_true_iff, Z.ltb_lt. intros [E3 E4] Ho. rewrite E3 in E2. simpl in E2.
    apply Z.ltb_ge in E2. lia.
Qed.

Lemma resume_reader_loops f lp r :
  0 ≤ write_loops f < 2 ^ 32 → write_loops f ≠ r_loops r →
  write_loops f ≠ r_loops (resume_reader f lp r).
Proof.
  intros Hw Hne. unfold resume_reader, resume_reader_at. destruct (_ || _); [|done]. simpl. unfold u32.
  destruct (decide (write_loops f = 0)) as [->|]; [done|]. rewrite Z.mod_small; lia.
Qed.
