(* ===== verification/TloggerSys.v ===== *)
(** * Set-up of the TEE log and its archive (tlogger/tlogger.c,
    tlogger/log_pages_cfg.c)

    Registration of the log memory with the TEE and of the misc device, their
    removal, and [tlogger_store_msg], which writes the texts of the logged
    items to a file after a crash of the TEE. *)

From stdpp Require Import base gmap list.
From Stdlib Require Import ZArith Lia.
From S2P Require Import Prelude KernelApi TeeTypes Buffers Mailbox MailboxClaims SessReg.
From S2P Require Import CallTypes GpParams Tlogger.

(** ** The archive file *)

(** The file system as [tlogger_store_msg] uses it: [vfs_write f bytes] gives
    the new contents and the number of bytes written or an error. *)
Class LogFile (F : Type) := {
  filp_open : F → option F;
  sys_chown : F → Z → Z → F * Z;
  vfs_write : F → list Z → F * Z;
  filp_close : F → F
}.

(** [int] arithmetic on [i]; [buffer] is [None] for NULL. *)
Fixpoint msg_next_loop (fuel : nat) (b : option (list Z)) (read_pos scope_len max_len i : Z)
    : outcome (option (Z * log_item)) :=
  match fuel with
  | O => Fault
  | S fuel =>
      if (i <=? scope_len) && (u32 (read_pos + i) + LOG_ITEM_SIZE <? max_len) then
        let len := u32 (scope_len - i) in
        let item_max_size := if LOG_ITEM_MAX_LEN <? len then LOG_ITEM_MAX_LEN else len in
        match b with
        | None => Fault
        | Some bytes =>
            item ← load_item bytes (read_pos + i);
            if check_log_item_validite item item_max_size then
              if max_len <? u32 (read_pos + i) + LOG_ITEM_SIZE + buffer_len item
              then Ret None else Ret (Some (read_pos + i, item))
            else msg_next_loop fuel b read_pos scope_len max_len (i + LOG_ITEM_LEN_ALIGN)
        end
      else Ret None
  end.

Definition msg_get_next (b : option (list Z)) (read_pos scope_len max_len : Z)
    : outcome (option (Z * log_item)) :=
  msg_next_loop (S (S (Z.to_nat (scope_len / LOG_ITEM_LEN_ALIGN)))) b read_pos scope_len
    max_len 0.

Section Archive.
Context {F : Type} {LF : LogFile F}.

Definition ROOT_UID : Z := 0.
Definition ROOT_GID : Z := 0.
Definition FILE_CHOWN_GID : Z := 0.

Definition get_log_chown : Z * Z := (ROOT_UID, FILE_CHOWN_GID).

Definition tlogger_chown (f : F) : F * Z :=
  let '(user, group) := get_log_chown in
  if (group =? ROOT_GID) && (user =? ROOT_UID) then (f, 0)
  else
    let '(f, ret) := sys_chown f user group in
    (f, if nonzero ret then -1 else 0).

(** The bytes before the first NUL; [Fault] if there is none. *)
Fixpoint c_string (l : list Z) : outcome (list Z) :=
  match l with
  | [] => Fault
  | b :: l => if b =? 0 then Ret [] else s ← c_string l; Ret (b :: s)
  end.

(** [strlen] runs on into the ring when the version has no NUL. *)
Definition write_version_to_msg (s : tlogger) (f : F) : outcome (F * Z) :=
  b ← at_index (log_mem s) (g_log_buffer s);
  version ← c_string (version_info (flag b) ++ buffer_start b);
  let '(f, write_len) := vfs_write f version in
  Ret (f, if write_len <? 0 then -1 else 0).

Fixpoint write_part_loop (fuel : nat) (b : option (list Z)) (max_len read_end : Z) (f : F)
    (next_item : option (Z * log_item)) (read_off total_len : Z) : outcome (F * Z) :=
  match fuel with
  | O => Fault
  | S fuel =>
      match next_item with
      | None => Ret (f, 0)
      | Some (ptr, item) =>
          if read_end <? read_off then Ret (f, 0)
          else
            let item_len := buffer_len item + LOG_ITEM_SIZE in
            text ← match b with
                   | None => Fault
                   | Some bytes => read_range bytes (ptr + LOG_ITEM_SIZE) (real_len item)
                   end;
            let '(f, write_len) := vfs_write f text in
            if write_len <? 0 then Ret (f, -1)
            else
              let total_len := total_len + item_len in
              let read_off := u32 (ptr + item_len) in
              if max_len <=? total_len then Ret (f, 0)
              else
                next_item ← msg_get_next b read_off LOG_ITEM_MAX_LEN max_len;
                write_part_loop fuel b max_len read_end f next_item read_off total_len
      end
  end.

Definition write_part_log_to_msg (f : F) (b : option (list Z))
    (buffer_max_len read_off read_off_end : Z) : outcome (F * Z) :=
  next_item ← msg_get_next b read_off LOG_ITEM_MAX_LEN buffer_max_len;
  write_part_loop (S (S (Z.to_nat (buffer_max_len / LOG_ITEM_LEN_ALIGN)))) b buffer_max_len
    read_off_end f next_item read_off 0.

Definition write_log_to_msg (f : F) (b : option (list Z))
    (buffer_max_len read_off read_off_end : Z) : outcome (F * Z) :=
  if read_off <? read_off_end
  then write_part_log_to_msg f b buffer_max_len read_off read_off_end
  else
    '(f, r) ← write_part_log_to_msg f b buffer_max_len read_off buffer_max_len;
    if nonzero r then Ret (f, -1)
    else write_part_log_to_msg f b buffer_max_len 0 read_off_end.

Context {SB : SecureBuf}.

(** The status, the copy of the ring, its size and the range to read; [km] is
    the address [kmalloc] returns. *)
Definition get_msg_buffer (s : tlogger) (km : Z)
    : outcome (Z * option (list Z) * Z * Z * Z) :=
  if g_log_buffer s =? 0 then Ret (-1, None, 0, 0, 0)
  else
    let buffer_max_len := u32 (g_log_mem_len s - LOG_BUFFER_SIZE) in
    if LOG_BUFFER_MAX_LEN <? buffer_max_len then Ret (0, None, buffer_max_len, 0, 0)
    else if zero_or_null_ptr km then Ret (- ENOMEM, None, buffer_max_len, 0, buffer_max_len)
    else
      b ← at_index (log_mem s) (g_log_buffer s);
      src ← read_range (buffer_start b) 0 buffer_max_len;
      let '(rc, addr) := buf_copy (replicate (Z.to_nat buffer_max_len) 0) 0 buffer_max_len
                           src 0 buffer_max_len in
      if nonzero rc then Ret (- EAGAIN, None, buffer_max_len, 0, buffer_max_len)
      else Ret (0, Some addr, buffer_max_len, 0, buffer_max_len).

(** The file is closed on every path that opened it. *)
Definition tlogger_store_msg (s : tlogger) (f : F) (file_path : bool) (file_path_len km : Z)
    : outcome (F * Z) :=
  if negb file_path || (TEE_LOG_FILE_NAME_MAX <? file_path_len) then Ret (f, -1)
  else if g_tlogcat_count s =? 0 then Ret (f, 0)
  else
    '(ret, buffer, buffer_max_len, read_start, read_end) ← get_msg_buffer s km;
    if nonzero ret then Ret (f, ret)
    else
      match filp_open f with
      | None => _ ← tz_log_write s; Ret (f, -1)
      | Some f =>
          let '(f, ret) := tlogger_chown f in
          '(f, ret) ←
            (if nonzero ret then Ret (f, ret)
             else
               '(f, ret) ← write_version_to_msg s f;
               if nonzero ret then Ret (f, ret)
               else write_log_to_msg f buffer buffer_max_len read_start read_end);
          _ ← tz_log_write s;
          Ret (filp_close f, ret)
      end.

End Archive.

(** ** Set-up *)

Section Setup.
Context {Env St : Type} {BA : BlockAllocator St} {SMC : SmcChannel Env} {P : PageMap}.

(** [values] of the parameters as [value.a], [value.b] pairs. *)
Definition value_operation (types : Z) (values : list (Z * Z)) : tc_ns_operation :=
  NsOperation types ((λ '(a, b), NsParam (u32 a) (u32 b)) <$> values) (replicate 4 0)
    (replicate 4 0) (replicate 4 0).

(** A zeroed global command for the operation at [op_addr]. *)
Definition global_cmd (id op_addr : Z) : tc_ns_smc_cmd :=
  SmcCmd (replicate 16 0) CMD_TYPE_GLOBAL id 0 0 0 (phys_lo op_addr) (phys_hi op_addr)
    0 0 0 0 0 0 0 0 0 0 0 0 0 0 0 false.

(** [mb_pack->operation] is the first member of the pack. *)
Definition register_mem_to_teeos (e : Env) (s : St) (m : mem) (mem_addr mem_len : Z)
    (is_cache_mem : bool) : outcome (Env * St * mem * Z) :=
  '(s, m, pack) ← ba_alloc s m SZ_4K MB_FLAG_ZERO;
  if pack =? 0 then Ret (e, s, m, - ENOMEM)
  else
    let op := value_operation
      (teec_param_types TEE_PARAM_TYPE_VALUE_INPUT TEE_PARAM_TYPE_VALUE_INPUT
         TEE_PARAM_TYPE_VALUE_INPUT TEE_PARAM_TYPE_NONE)
      [(mem_addr, Z.shiftr mem_addr ADDR_TRANS_NUM); (mem_len, 0);
       (if is_cache_mem then 1 else 0, 0); (0, 0)] in
    let '(e, m, _, _, ret) := tc_ns_smc e m op (global_cmd GLOBAL_CMD_ID_REGISTER_LOG_MEM pack) in
    s ← ba_free s pack;
    Ret (e, s, m, ret).

(** Pages fresh from [__get_free_pages(__GFP_ZERO)]. *)
Definition zero_log_buffer : log_buffer :=
  LogBuffer (LogFlag 0 0 0 0 (replicate 156 0))
    (replicate (Z.to_nat (PAGES_LOG_MEM_LEN - LOG_BUFFER_SIZE)) 0).

(** [MAX_ERRNO] of include/linux/err.h. *)
Definition is_err_or_null (a : Z) : bool := (a =? 0) || (2 ^ 64 - 4095 <=? a).

(** [pg] is the address [__get_free_pages] returns. *)
Definition tee_pages_register_core (t : tlogger) (pg : Z) : tlogger * Z :=
  if is_err_or_null pg then (t, -1)
  else (set_log_mem t (<[pg := zero_log_buffer]> (log_mem t)), 0).

(** The status with [*addr] and [*len] (0 when not set). *)
Definition register_log_mem (e : Env) (s : St) (m : mem) (t : tlogger) (pg : Z)
    : outcome (Env * St * mem * tlogger * Z * Z * Z) :=
  let '(t, ret) := tee_pages_register_core t pg in
  if nonzero ret then Ret (e, s, m, t, ret, 0, 0)
  else
    '(e, s, m, ret) ← register_mem_to_teeos e s m (virt_to_phys pg) PAGES_LOG_MEM_LEN true;
    if nonzero ret then Ret (e, s, m, t, ret, 0, 0)
    else Ret (e, s, m, t, ret, pg, PAGES_LOG_MEM_LEN).

Definition register_log_exception : Z := 0.

Definition register_mem_cfg (e : Env) (s : St) (m : mem) (t : tlogger) (pg : Z)
    : outcome (Env * St * mem * tlogger * Z * Z * Z) :=
  '(e, s, m, t, _, addr, len) ← register_log_mem e s m t pg;
  Ret (e, s, m, t, register_log_exception, addr, len).

Definition check_log_mem (mem_addr mem_len : Z) : Z :=
  if mem_len <? TEMP_LOG_MEM_SIZE then -1 else if mem_addr =? 0 then -1 else 0.

Definition map_log_mem (mem_addr mem_len : Z) : Z := mem_addr.

Definition unmap_log_mem (t : tlogger) (a : Z) : outcome tlogger :=
  _ ← at_index (log_mem t) a; Ret (set_log_mem t (delete a (log_mem t))).

Definition MISC_DYNAMIC_MINOR : Z := 255.

(** [kz] and [name] are the addresses [kzalloc] and [kstrdup] return, [misc]
    the status of [misc_register] with the minor number it assigns. *)
Definition register_device (t : tlogger) (addr kz name : Z) (misc : Z * Z) : tlogger * Z :=
  if kz =? 0 then (t, - ENOMEM)
  else if name =? 0 then (t, - ENOMEM)
  else
    let '(ret, minor) := misc in
    if nonzero ret
    then (set_logs t (delete kz (log_heap t)) (m_log_list t ++ [kz]) (g_log t), ret)
    else (set_logs t (<[kz := TloggerLog addr minor name []]> (log_heap t))
            (m_log_list t ++ [kz]) kz, 0).

Definition register_tloger (e : Env) (s : St) (m : mem) (t : tlogger) (pg kz name : Z)
    (misc : Z * Z) : outcome (Env * St * mem * tlogger * Z) :=
  '(e, s, m, t, ret, mem_addr, len) ← register_mem_cfg e s m t pg;
  let t := set_log_buffer t (g_log_buffer t) (if len =? 0 then g_log_mem_len t else len) in
  if nonzero ret then Ret (e, s, m, t, ret)
  else
    let ret := check_log_mem mem_addr (g_log_mem_len t) in
    if nonzero ret then Ret (e, s, m, t, ret)
    else
      let a := map_log_mem mem_addr (g_log_mem_len t) in
      let t := set_log_buffer t a (g_log_mem_len t) in
      if a =? 0 then Ret (e, s, m, t, - ENOMEM)
      else
        b ← at_index (log_mem t) a;
        let f := flag b in
        let f := LogFlag (last_pos f) (write_loops f) (log_level f)
                   (u32 (g_log_mem_len t - LOG_BUFFER_SIZE)) (version_info f) in
        let t := set_log_mem t (<[a := LogBuffer f (buffer_start b)]> (log_mem t)) in
        let '(t, ret) := register_device t a kz name misc in
        if nonzero ret then
          t ← unmap_log_mem t a;
          Ret (e, s, m, set_log_buffer t 0 0, ret)
        else Ret (e, s, m, t, ret).

Definition init_tlogger_service := register_tloger.

Fixpoint unregister_loop (t : tlogger) (l : list Z) : outcome tlogger :=
  match l with
  | [] => Ret t
  | p :: l =>
      _ ← at_index (log_heap t) p;
      unregister_loop (set_logs t (delete p (log_heap t)) l (g_log t)) l
  end.

Definition unregister_mem_cfg (t : tlogger) : outcome tlogger :=
  if nonzero (g_log_buffer t) then unmap_log_mem t (g_log_buffer t) else Ret t.

Definition unregister_tlogger (t : tlogger) : outcome tlogger :=
  t ← unregister_loop t (m_log_list t);
  t ← unregister_mem_cfg t;
  Ret (set_log_buffer t 0 0).

Definition exit_tlogger_service := unregister_tlogger.

End Setup.
