(* ===== verification/KoAdapt.v ===== *)
(** * Kernel functions that are not exported, and thread affinity
      (ko_adapt.c, kthread_affinity/)

    [koadpt_*] look a kernel function up by name, keep its address in a static
    pointer and call it; [tz_kthread_bind_mask] and [tz_workqueue_bind_mask]
    keep the driver's threads and work queues on the control CPUs that
    [init_kthread_cpumask] has read from the device tree. *)

From stdpp Require Import base gmap list strings fin_sets.
From Stdlib Require Import ZArith Lia.
From S2P Require Import Prelude KernelApi TloggerSys.

(** ** The adapters *)

(** The static pointers, by the name they are looked up with; NULL at first. *)
Abbreviation ko_static := (gmap string Z).

(** [kallsyms_lookup_name], which is 0 for a name it does not know. *)
Abbreviation kallsyms := (string → Z).

(** What an adapter does last: return a value or jump to an address. *)
Inductive ko_result := KoRet (v : Z) | KoCall (pt : Z) (args : list Z).

(** The static pointer of an adapter, looked up when it is NULL; [None] when
    the adapter gives up. *)
Definition symbol_pt (lk : kallsyms) (st : ko_static) (name : string)
    : ko_static * option Z :=
  let pt := default 0 (st !! name) in
  if pt =? 0 then
    let pt := lk name in
    (<[name := pt]> st, if is_err_or_null pt then None else Some pt)
  else (st, Some pt).

(** Look up, then call or return [err]. *)
Definition through (lk : kallsyms) (st : ko_static) (name : string) (args : list Z) (err : Z)
    : ko_static * ko_result :=
  let '(st, pt) := symbol_pt lk st name in
  (st, match pt with None => KoRet err | Some pt => KoCall pt args end).

Definition koadpt_get_task_cred (lk : kallsyms) (st : ko_static) (task : Z)
    : ko_static * ko_result :=
  if task =? 0 then (st, KoRet 0) else through lk st "get_task_cred"%string [task] 0.

Definition koadpt_kthread_bind_mask (lk : kallsyms) (st : ko_static) (task mask : Z)
    : ko_static * ko_result :=
  if (task =? 0) || (mask =? 0) then (st, KoRet 0)
  else through lk st "kthread_bind_mask"%string [task; mask] 0.

Definition koadpt_sys_chown (lk : kallsyms) (st : ko_static) (filename user group : Z)
    : ko_static * ko_result :=
  if filename =? 0 then (st, KoRet (- EINVAL))
  else through lk st "sys_chown"%string [filename; user; group] (- EINVAL).

(** Kernels up to 4.19.116. *)
Definition koadpt_vfs_write (lk : kallsyms) (st : ko_static) (file buf count pos : Z)
    : ko_static * ko_result :=
  if (file =? 0) || (buf =? 0) || (pos =? 0) then (st, KoRet (- EINVAL))
  else through lk st "vfs_write"%string [file; buf; count; pos] (- EINVAL).

Definition koadpt_vfs_read (lk : kallsyms) (st : ko_static) (file buf count pos : Z)
    : ko_static * ko_result :=
  if (file =? 0) || (buf =? 0) || (pos =? 0) then (st, KoRet (- EINVAL))
  else through lk st "vfs_read"%string [file; buf; count; pos] (- EINVAL).

(** With [CONFIG_NUMA]. *)
Definition koadpt_alloc_pages (lk : kallsyms) (st : ko_static) (gfp_mask order : Z)
    : ko_static * ko_result :=
  through lk st "alloc_pages_current"%string [gfp_mask; order] 0.

Definition koadpt_alloc_workqueue_attrs (lk : kallsyms) (st : ko_static) (gfp_mask : Z)
    : ko_static * ko_result :=
  through lk st "alloc_workqueue_attrs"%string [gfp_mask] 0.

Definition koadpt_free_workqueue_attrs (lk : kallsyms) (st : ko_static) (attrs : Z)
    : ko_static * ko_result :=
  if attrs =? 0 then (st, KoRet 0) else through lk st "free_workqueue_attrs"%string [attrs] 0.

(** A call of one of the adapters. *)
Inductive ko_req :=
| GetTaskCred (task : Z)
| KthreadBindMask (task mask : Z)
| SysChown (filename user group : Z)
| VfsWrite (file buf count pos : Z)
| VfsRead (file buf count pos : Z)
| AllocPages (gfp_mask order : Z)
| AllocWorkqueueAttrs (gfp_mask : Z)
| FreeWorkqueueAttrs (attrs : Z).

Definition ko_call (lk : kallsyms) (st : ko_static) (r : ko_req) : ko_static * ko_result :=
  match r with
  | GetTaskCred task => koadpt_get_task_cred lk st task
  | KthreadBindMask task mask => koadpt_kthread_bind_mask lk st task mask
  | SysChown f u g => koadpt_sys_chown lk st f u g
  | VfsWrite f b c p => koadpt_vfs_write lk st f b c p
  | VfsRead f b c p => koadpt_vfs_read lk st f b c p
  | AllocPages g o => koadpt_alloc_pages lk st g o
  | AllocWorkqueueAttrs g => koadpt_alloc_workqueue_attrs lk st g
  | FreeWorkqueueAttrs a => koadpt_free_workqueue_attrs lk st a
  end.

(** Calls in a row, each with the symbol table of its moment. *)
Fixpoint ko_calls (st : ko_static) (l : list (kallsyms * ko_req))
    : ko_static * list ko_result :=
  match l with
  | [] => (st, [])
  | (lk, r) :: l =>
      let '(st, x) := ko_call lk st r in
      let '(st, xs) := ko_calls st l in (st, x :: xs)
  end.

(** ** Control CPUs *)

(** What the device tree and the kernel answer: the node "ascend_ctl" (or 0),
    the status and the value of "ctrl_cpu_num", the number of CPUs online. *)
Record of_view := OfView {
  of_node : Z;
  of_status : Z;
  ctrl_cpu_num : Z;
  num_online_cpus : Z
}.

(** [cpumask_set_cpu] for [n] CPUs from [i]. *)
Fixpoint set_cpus (n : nat) (i : Z) (mask : gset Z) : gset Z :=
  match n with
  | O => mask
  | S n => set_cpus n (i + 1) ({[ i ]} ∪ mask)
  end.

(** Mask, references taken to the node, status.  [None]: no mask. *)
Definition get_kthread_cpumask (v : of_view) (cpumask : option (gset Z))
    : option (gset Z) * Z * Z :=
  match cpumask with
  | None => (None, 0, - 1)
  | Some mask =>
      if of_node v =? 0 then (Some mask, 0, - 1)
      else if of_status v <? 0 then (Some mask, 1, of_status v)
      else if num_online_cpus v <? ctrl_cpu_num v then (Some mask, 1, - 1)
      else (Some (set_cpus (Z.to_nat (ctrl_cpu_num v)) 0 mask), 1, 0)
  end.

(** The mask, the adapters' pointers, the references to the device-tree node
    and the work-queue attributes that are allocated. *)
Record aff_state := AffState {
  g_kthread_cpumask : gset Z;
  aff_static : ko_static;
  node_refs : Z;
  live_attrs : gset Z
}.

Definition init_kthread_cpumask (s : aff_state) (v : of_view) : aff_state :=
  let '(mask, refs, _) := get_kthread_cpumask v (Some ∅) in
  AffState (default ∅ mask) (aff_static s) (node_refs s + refs) (live_attrs s).

(** Calls into the kernel, with the address called. *)
Inductive aff_call :=
| BindThread (pt task : Z) (mask : gset Z)
| ApplyAttrs (wq nice : Z) (no_numa : bool) (mask : gset Z)
| FreeAttrs (pt attrs : Z).

Definition with_static (s : aff_state) (st : ko_static) (live : gset Z) : aff_state :=
  AffState (g_kthread_cpumask s) st (node_refs s) live.

(** [mask_addr] is the address of [g_kthread_cpumask]. *)
Definition tz_kthread_bind_mask (lk : kallsyms) (mask_addr : Z) (s : aff_state) (kthread : Z)
    : aff_state * list aff_call :=
  if kthread =? 0 then (s, [])
  else if bool_decide (g_kthread_cpumask s = ∅) then (s, [])
  else
    let '(st, r) := koadpt_kthread_bind_mask lk (aff_static s) kthread mask_addr in
    (with_static s st (live_attrs s),
     match r with
     | KoCall pt _ => [BindThread pt kthread (g_kthread_cpumask s)]
     | KoRet _ => []
     end).

Definition GFP_KERNEL : Z := 0xcc0.
Definition WQ_HIGHPRI : Z := 16.
Definition MIN_NICE : Z := - 20.

(** [attrs] is what [alloc_workqueue_attrs] returns when it is called. *)
Definition tz_workqueue_bind_mask (lk : kallsyms) (attrs : Z) (s : aff_state) (wq flag : Z)
    : aff_state * list aff_call :=
  if wq =? 0 then (s, [])
  else if bool_decide (g_kthread_cpumask s = ∅) then (s, [])
  else
    let '(st, r) := koadpt_alloc_workqueue_attrs lk (aff_static s) GFP_KERNEL in
    let attrs := match r with KoCall _ _ => attrs | KoRet v => v end in
    if attrs =? 0 then (with_static s st (live_attrs s), [])
    else
      let s := with_static s st ({[ attrs ]} ∪ live_attrs s) in
      let nice := if Z.land flag WQ_HIGHPRI =? 0 then 0 else MIN_NICE in
      let apply := ApplyAttrs wq nice true (g_kthread_cpumask s) in
      let '(st, r) := koadpt_free_workqueue_attrs lk (aff_static s) attrs in
      match r with
      | KoCall pt _ => (with_static s st (live_attrs s ∖ {[ attrs ]}), [apply; FreeAttrs pt attrs])
      | KoRet _ => (with_static s st (live_attrs s), [apply])
      end.

(** * Adapters and affinity are correct

    What the adapters of [KoAdapt] call and return in any sequence of calls,
    and which CPUs the driver's threads are bound to. *)


(** ** What each adapter is for *)

Definition ko_name (r : ko_req) : string :=
  match r with
  | GetTaskCred _ => "get_task_cred"%string
  | KthreadBindMask _ _ => "kthread_bind_mask"%string
  | SysChown _ _ _ => "sys_chown"%string
  | VfsWrite _ _ _ _ => "vfs_write"%string
  | VfsRead _ _ _ _ => "vfs_read"%string
  | AllocPages _ _ => "alloc_pages_current"%string
  | AllocWorkqueueAttrs _ => "alloc_workqueue_attrs"%string
  | FreeWorkqueueAttrs _ => "free_workqueue_attrs"%string
  end.

Definition ko_args (r : ko_req) : list Z :=
  match r with
  | GetTaskCred a | AllocWorkqueueAttrs a | FreeWorkqueueAttrs a => [a]
  | KthreadBindMask a b | AllocPages a b => [a; b]
  | SysChown a b c => [a; b; c]
  | VfsWrite a b c d | VfsRead a b c d => [a; b; c; d]
  end.

(** No pointer that the function needs is NULL. *)
Definition ko_valid (r : ko_req) : bool :=
  match r with
  | GetTaskCred a | FreeWorkqueueAttrs a | SysChown a _ _ => negb (a =? 0)
  | KthreadBindMask a b => negb ((a =? 0) || (b =? 0))
  | VfsWrite a b _ d | VfsRead a b _ d => negb ((a =? 0) || (b =? 0) || (d =? 0))
  | AllocPages _ _ | AllocWorkqueueAttrs _ => true
  end.

Definition ko_error (r : ko_req) : Z :=
  match r with SysChown _ _ _ | VfsWrite _ _ _ _ | VfsRead _ _ _ _ => - EINVAL | _ => 0 end.

Lemma ko_call_through lk st r :
  ko_call lk st r =
    if ko_valid r then through lk st (ko_name r) (ko_args r) (ko_error r)
    else (st, KoRet (ko_error r)).
Proof.
  destruct r; simpl;
    unfold koadpt_get_task_cred, koadpt_kthread_bind_mask, koadpt_sys_chown, koadpt_vfs_write,
      koadpt_vfs_read, koadpt_alloc_pages, koadpt_alloc_workqueue_attrs,
      koadpt_free_workqueue_attrs;
    repeat match goal with |- context [?a =? 0] => destruct (a =? 0) end; done.
Qed.

Section Symbols.
Context (addr : string → Z).

(** The symbol table knows the function's address or nothing. *)
Definition truthful (lk : kallsyms) : Prop := ∀ name, lk name = 0 ∨ lk name = addr name.

(** A call so far has found the symbol. *)
Definition known (hist : list (kallsyms * ko_req)) (name : string) : bool :=
  existsb (λ '(lk, r), ko_valid r && bool_decide (ko_name r = name) && negb (lk name =? 0)) hist.

Definition static_ok (st : ko_static) (hist : list (kallsyms * ko_req)) : Prop :=
  ∀ name, default 0 (st !! name) = if known hist name then addr name else 0.

Context (Haddr : ∀ name, is_err_or_null (addr name) = false).

Lemma addr_nonzero name : addr name ≠ 0.
Proof. intros E. specialize (Haddr name). by rewrite E in Haddr. Qed.

Lemma known_snoc hist lk r name :
  known (hist ++ [(lk, r)]) name =
    known hist name || (ko_valid r && bool_decide (ko_name r = name) && negb (lk name =? 0)).
Proof. unfold known. rewrite existsb_app. simpl. by rewrite orb_false_r. Qed.

Lemma ko_call_spec lk st hist r st' x :
  truthful lk → static_ok st hist → ko_call lk st r = (st', x) →
  static_ok st' (hist ++ [(lk, r)]) ∧
  x = if ko_valid r && known (hist ++ [(lk, r)]) (ko_name r)
      then KoCall (addr (ko_name r)) (ko_args r) else KoRet (ko_error r).
Proof.
  intros Hlk Hst. rewrite ko_call_through. destruct (ko_valid r) eqn:Ev.
  2:{ intros [= <- <-]. split; [|done]. intros name.
      by rewrite known_snoc, Ev, Hst, orb_false_r. }
  unfold through, symbol_pt. cbv zeta. rewrite !Hst, known_snoc, Ev.
  rewrite bool_decide_true by done. cbn [andb].
  pose proof (addr_nonzero (ko_name r)) as Hz.
  destruct (known hist (ko_name r)) eqn:Ek; cbn [orb].
  - rewrite (proj2 (Z.eqb_neq _ _) Hz). intros [= <- <-]. split; [|done]. intros name.
    rewrite known_snoc, Hst. destruct (known hist name) eqn:En; [done|]. cbn [orb].
    destruct (bool_decide_reflect (ko_name r = name)) as [<-|]; [congruence|].
    by rewrite andb_false_r.
  - rewrite Z.eqb_refl. intros [= <- <-]. split.
    + intros name. rewrite known_snoc, Ev. cbn [andb].
      destruct (decide (ko_name r = name)) as [<-|Hne].
      * rewrite lookup_insert_eq, Ek, bool_decide_true by done. simpl.
        destruct (Hlk (ko_name r)) as [->| ->]; [done|].
        by rewrite (proj2 (Z.eqb_neq _ _) Hz).
      * rewrite lookup_insert_ne, Hst, bool_decide_false by done. simpl. by rewrite orb_false_r.
    + destruct (Hlk (ko_name r)) as [->| ->]; [done|].
      by rewrite Haddr, (proj2 (Z.eqb_neq _ _) Hz).
Qed.

Lemma ko_calls_spec l st hist k lk r :
  (∀ lk r, (lk, r) ∈ l → truthful lk) → static_ok st hist → l !! k = Some (lk, r) →
  (ko_calls st l).2 !! k =
    Some (if ko_valid r && known (hist ++ take (S k) l) (ko_name r)
          then KoCall (addr (ko_name r)) (ko_args r) else KoRet (ko_error r)).
Proof.
  revert st hist k. induction l as [|[lk' r'] l IH]; intros st hist k Hl Hst Hk; [done|].
  simpl. destruct (ko_call lk' st r') as [st' x] eqn:E.
  destruct (ko_call_spec _ _ _ _ _ _ (Hl _ _ (list_elem_of_here _ _)) Hst E) as [Hst' ->].
  destruct (ko_calls st' l) as [st2 xs] eqn:E2.
  destruct k as [|k]; simpl in *; [by injection Hk as -> ->|].
  assert (xs = (ko_calls st' l).2) as -> by (by rewrite E2).
  rewrite (IH st' (hist ++ [(lk', r')]) k); [by rewrite <- app_assoc| |done|done].
  intros lk2 r2 Hin. eapply Hl. by right.
Qed.

End Symbols.

(** ** The adapters in any order *)

(** Whatever adapters the driver calls and in whatever order, a call with a
    NULL pointer is refused with the adapter's error; otherwise, as soon as a
    call has found the symbol, this and every later call of the adapter jumps
    to that function with its arguments unchanged, and until then it returns
    the error. *)
Theorem koadpt_calls_kernel addr l k lk r :
  (∀ name, is_err_or_null (addr name) = false) →
  (∀ lk r, (lk, r) ∈ l → truthful addr lk) → l !! k = Some (lk, r) →
  (ko_calls ∅ l).2 !! k =
    Some (if ko_valid r && known (take (S k) l) (ko_name r)
          then KoCall (addr (ko_name r)) (ko_args r) else KoRet (ko_error r)).
Proof. intros Ha Hl Hk. by apply (ko_calls_spec addr Ha l ∅ [] k lk r). Qed.

(** The check for an error pointer does not last: had a lookup ever returned
    one, the first call would be refused and the second would jump to it. *)
Theorem koadpt_error_pointer_kept (lk : kallsyms) r e :
  ko_valid r = true → lk (ko_name r) = e → 2 ^ 64 - 4095 ≤ e →
  (ko_calls ∅ [(lk, r); (lk, r)]).2 = [KoRet (ko_error r); KoCall e (ko_args r)].
Proof.
  intros Hv <- He. cbn [ko_calls]. rewrite ko_call_through, Hv.
  unfold through at 1, symbol_pt at 1. rewrite lookup_empty. simpl.
  assert (is_err_or_null (lk (ko_name r)) = true) as ->.
  { unfold is_err_or_null. rewrite (proj2 (Z.leb_le _ _) He). apply orb_true_r. }
  rewrite ko_call_through, Hv. unfold through, symbol_pt. rewrite lookup_insert_eq. simpl.
  by rewrite (proj2 (Z.eqb_neq _ _)) by lia.
Qed.

(** ** Affinity *)

(** The CPUs the device tree reserves for control. *)
Definition control_cpus (v : of_view) : gset Z :=
  if (of_node v =? 0) || (of_status v <? 0) || (num_online_cpus v <? ctrl_cpu_num v)
  then ∅ else list_to_set (seqZ 0 (ctrl_cpu_num v)).

Lemma set_cpus_range n i mask :
  set_cpus n i mask = list_to_set (seqZ i (Z.of_nat n)) ∪ mask.
Proof.
  revert i mask. induction n as [|n IH]; intros i mask; simpl; [set_solver|].
  rewrite IH. apply set_eq. intros x. rewrite !elem_of_union, elem_of_singleton,
    !elem_of_list_to_set, !elem_of_seqZ. destruct (decide (x ∈ mask)); [tauto|].
    intuition lia.
Qed.

Lemma init_kthread_cpumask_spec s v :
  g_kthread_cpumask (init_kthread_cpumask s v) = control_cpus v ∧
  node_refs (init_kthread_cpumask s v) = node_refs s + (if of_node v =? 0 then 0 else 1) ∧
  aff_static (init_kthread_cpumask s v) = aff_static s ∧
  live_attrs (init_kthread_cpumask s v) = live_attrs s.
Proof.
  unfold init_kthread_cpumask, get_kthread_cpumask, control_cpus.
  destruct (of_node v =? 0); [done|]. destruct (of_status v <? 0); [done|].
  destruct (_ <? _); [done|]. simpl. split; [|done]. rewrite set_cpus_range.
  rewrite union_empty_r_L. apply set_eq. intros x. rewrite !elem_of_list_to_set, !elem_of_seqZ. lia.
Qed.

(** A thread or a work queue to bind; for a work queue, the attributes the
    kernel allocates. *)
Inductive aff_op :=
| OpThread (kthread : Z)
| OpQueue (attrs wq flag : Z).

Definition aff_run (lk : kallsyms) (mask_addr : Z) (s : aff_state) (op : aff_op)
    : aff_state * list aff_call :=
  match op with
  | OpThread kthread => tz_kthread_bind_mask lk mask_addr s kthread
  | OpQueue attrs wq flag => tz_workqueue_bind_mask lk attrs s wq flag
  end.

Fixpoint aff_runs (lk : kallsyms) (mask_addr : Z) (s : aff_state) (l : list aff_op)
    : aff_state * list aff_call :=
  match l with
  | [] => (s, [])
  | op :: l =>
      let '(s, c) := aff_run lk mask_addr s op in
      let '(s, cs) := aff_runs lk mask_addr s l in (s, (c ++ cs)%list)
  end.

(** The kernel has a function of this name. *)
Definition has (lk : kallsyms) (name : string) : bool := negb (lk name =? 0).

(** The calls an operation has to make: bind this thread to the CPUs, or apply
    attributes with the CPUs and the priority asked for to this work queue and
    give the attributes back. *)
Definition bind_calls (lk : kallsyms) (mask : gset Z) (op : aff_op) : list aff_call :=
  match op with
  | OpThread kthread =>
      if (kthread =? 0) || negb (has lk "kthread_bind_mask"%string) then []
      else [BindThread (lk "kthread_bind_mask"%string) kthread mask]
  | OpQueue attrs wq flag =>
      if (wq =? 0) || negb (has lk "alloc_workqueue_attrs"%string) || (attrs =? 0) then []
      else
        ApplyAttrs wq (if Z.testbit flag 4 then - 20 else 0) true mask
        :: (if has lk "free_workqueue_attrs"%string
            then [FreeAttrs (lk "free_workqueue_attrs"%string) attrs] else [])
  end.

(** No call at all without control CPUs. *)
Definition expected_calls (lk : kallsyms) (mask : gset Z) (l : list aff_op) : list aff_call :=
  if bool_decide (mask = ∅) then [] else concat (bind_calls lk mask <$> l).

(** The attributes of the new work queues are not in use yet. *)
Definition attrs_fresh (live : gset Z) (op : aff_op) : Prop :=
  match op with OpThread _ => True | OpQueue attrs _ _ => attrs ∉ live end.

Lemma highpri_bit flag : (Z.land flag WQ_HIGHPRI =? 0) = negb (Z.testbit flag 4).
Proof.
  assert (Z.testbit (Z.land flag WQ_HIGHPRI) 4 = Z.testbit flag 4) as E
    by (rewrite Z.land_spec; apply andb_true_r).
  destruct (Z.testbit flag 4) eqn:Ef; cbn [negb].
  - apply Z.eqb_neq. intros Hz. by rewrite Hz in E.
  - apply Z.eqb_eq, Z.bits_inj'. intros n Hn. rewrite Z.land_spec, Z.bits_0.
    destruct (decide (n = 4)) as [->|Hne]; [by rewrite Ef|].
    change WQ_HIGHPRI with (2 ^ 4). rewrite Z.pow2_bits_false by lia. apply andb_false_r.
Qed.

Section Affinity.
Context (lk : kallsyms) (Hlk : ∀ name, lk name = 0 ∨ is_err_or_null (lk name) = false).

Definition static_sound (st : ko_static) : Prop :=
  ∀ name, default 0 (st !! name) = 0 ∨ default 0 (st !! name) = lk name.

Lemma through_sound st name args err :
  static_sound st →
  ∃ st', through lk st name args err = (st', if has lk name then KoCall (lk name) args else KoRet err) ∧
    static_sound st'.
Proof.
  intros Hst. unfold through, symbol_pt, has. cbv zeta.
  destruct (Z.eqb_spec (default 0 (st !! name)) 0) as [E|E].
  - exists (<[name := lk name]> st). split.
    + destruct (Z.eqb_spec (lk name) 0) as [->|Hz]; [done|].
      destruct (Hlk name) as [?| ->]; done.
    + intros n. destruct (decide (n = name)) as [->|Hne].
      * rewrite lookup_insert_eq. by right.
      * rewrite lookup_insert_ne by done. apply Hst.
  - destruct (Hst name) as [?|Ek]; [done|]. rewrite Ek in *. exists st.
    by rewrite (proj2 (Z.eqb_neq _ _) E).
Qed.

(** One operation on a sound state. *)
Lemma aff_run_ok mask_addr s op :
  mask_addr ≠ 0 → static_sound (aff_static s) → g_kthread_cpumask s ≠ ∅ →
  ∃ s', aff_run lk mask_addr s op = (s', bind_calls lk (g_kthread_cpumask s) op) ∧
    static_sound (aff_static s') ∧ g_kthread_cpumask s' = g_kthread_cpumask s ∧
    (has lk "free_workqueue_attrs"%string = true → attrs_fresh (live_attrs s) op →
     live_attrs s' = live_attrs s).
Proof.
  intros Hma Hst Hm. destruct op as [t|a wq flag]; cbn [aff_run bind_calls].
  - unfold tz_kthread_bind_mask. destruct (t =? 0) eqn:Et; [by exists s|].
    rewrite bool_decide_false by done.
    unfold koadpt_kthread_bind_mask. rewrite Et, (proj2 (Z.eqb_neq _ _) Hma). cbn [orb].
    destruct (through_sound (aff_static s) "kthread_bind_mask"%string [t; mask_addr] 0 Hst)
      as (st & -> & Hst'). exists (with_static s st (live_attrs s)). split; [|done].
    by destruct (has _ _).
  - unfold tz_workqueue_bind_mask. destruct (wq =? 0); [by exists s|].
    rewrite bool_decide_false by done. unfold koadpt_alloc_workqueue_attrs.
    destruct (through_sound (aff_static s) "alloc_workqueue_attrs"%string [GFP_KERNEL] 0 Hst)
      as (st & -> & Hst'). cbn [orb].
    destruct (has lk "alloc_workqueue_attrs"%string); cbn [negb orb]; [|by eexists].
    destruct (a =? 0) eqn:Ea; [by eexists|]. cbn [orb].
    unfold koadpt_free_workqueue_attrs. rewrite Ea. cbn [aff_static with_static g_kthread_cpumask].
    destruct (through_sound st "free_workqueue_attrs"%string [a] 0 Hst') as (st2 & -> & Hst2).
    rewrite highpri_bit. change MIN_NICE with (- 20).
    destruct (has lk "free_workqueue_attrs"%string); eexists;
      (split; [by destruct (Z.testbit flag 4)|]); (split; [done|]); (split; [done|]); [|done].
    intros _ Hf. simpl. clear -Hf. set_solver.
Qed.

Lemma aff_runs_ok mask_addr l s :
  mask_addr ≠ 0 → static_sound (aff_static s) → g_kthread_cpumask s ≠ ∅ →
  ∃ s', aff_runs lk mask_addr s l = (s', concat (bind_calls lk (g_kthread_cpumask s) <$> l)) ∧
    g_kthread_cpumask s' = g_kthread_cpumask s ∧
    (has lk "free_workqueue_attrs"%string = true → Forall (attrs_fresh (live_attrs s)) l →
     live_attrs s' = live_attrs s).
Proof.
  intros Hma. revert s. induction l as [|op l IH]; intros s Hst Hm; simpl; [by exists s|].
  destruct (aff_run_ok mask_addr s op Hma Hst Hm) as (s1 & -> & Hst1 & Em & El).
  destruct (IH s1 Hst1) as (s2 & -> & Em2 & El2); [by rewrite Em|].
  exists s2. rewrite Em in *. split_and!; [done..|]. intros Hf [H1 H2]%Forall_cons.
  specialize (El Hf H1). rewrite <- El. apply El2; [done|]. by rewrite El.
Qed.

Lemma aff_runs_none mask_addr l s :
  g_kthread_cpumask s = ∅ → aff_runs lk mask_addr s l = (s, []).
Proof.
  intros Hm. induction l as [|op l IH]; simpl; [done|].
  assert (aff_run lk mask_addr s op = (s, [])) as ->; [|by rewrite IH].
  destruct op as [t|a wq flag]; simpl; unfold tz_kthread_bind_mask, tz_workqueue_bind_mask;
    rewrite (bool_decide_true _ Hm); by destruct (_ =? 0).
Qed.

End Affinity.

(** C39. The driver's threads and work queues are bound to the control CPUs.
    After [init_kthread_cpumask] has read the device tree, whatever threads and
    work queues are bound and in whatever order, the calls into the kernel are
    exactly these: for each thread a [kthread_bind_mask] of this thread to the
    control CPUs, for each work queue whose attributes can be allocated an
    [apply_workqueue_attrs] to this queue with the control CPUs and nice value
    -20 if [WQ_HIGHPRI] is set and 0 otherwise, followed by the release of the
    attributes.  A function the kernel does not have is not called (without
    [free_workqueue_attrs] the attributes are not given back; with it all are).
    The control CPUs are those the device tree names, no more than are online;
    without a valid entry there are none and nothing is called.  (A symbol that
    is found has a valid address, and the symbols do not change.) *)
Theorem kthreads_on_control_cpus lk mask_addr v s0 l :
  (∀ name, lk name = 0 ∨ is_err_or_null (lk name) = false) → mask_addr ≠ 0 → aff_static s0 = ∅ →
  ∃ s', aff_runs lk mask_addr (init_kthread_cpumask s0 v) l
      = (s', expected_calls lk (control_cpus v) l) ∧
    g_kthread_cpumask s' = control_cpus v ∧
    (∀ cpu, cpu ∈ control_cpus v ↔
       of_node v ≠ 0 ∧ 0 ≤ of_status v ∧ ctrl_cpu_num v ≤ num_online_cpus v ∧
       0 ≤ cpu < ctrl_cpu_num v) ∧
    (has lk "free_workqueue_attrs"%string = true → Forall (attrs_fresh (live_attrs s0)) l →
     live_attrs s' = live_attrs s0).
Proof.
  intros Hlk Hma Hst. destruct (init_kthread_cpumask_spec s0 v) as (Em & _ & Es & El).
  assert (∀ cpu, cpu ∈ control_cpus v ↔
    of_node v ≠ 0 ∧ 0 ≤ of_status v ∧ ctrl_cpu_num v ≤ num_online_cpus v ∧
    0 ≤ cpu < ctrl_cpu_num v) as Hcpu.
  { intros cpu. unfold control_cpus.
    destruct (Z.eqb_spec (of_node v) 0), (Z.ltb_spec (of_status v) 0),
      (Z.ltb_spec (num_online_cpus v) (ctrl_cpu_num v)); simpl;
      rewrite ?elem_of_list_to_set, ?elem_of_seqZ, ?elem_of_empty; lia. }
  unfold expected_calls. destruct (bool_decide_reflect (control_cpus v = ∅)) as [Hm|Hm].
  - rewrite aff_runs_none by (by rewrite Em). eexists. split_and!; [done..|]. intros _ _. by rewrite El.
  - destruct (aff_runs_ok lk Hlk mask_addr l (init_kthread_cpumask s0 v) Hma) as (s' & E & Em' & El').
    { rewrite Es, Hst. by left. }
    { by rewrite Em. }
    rewrite Em, El in *. exists s'. by split_and!.
Qed.

(** The node of the device tree is looked up and never given back. *)
Theorem control_cpu_node_leaks s v :
  of_node v ≠ 0 → node_refs (init_kthread_cpumask s v) = node_refs s + 1.
Proof.
  intros H. destruct (init_kthread_cpumask_spec s v) as (_ & -> & _).
  by rewrite (proj2 (Z.eqb_neq _ _) H).
Qed.

(** ** Example *)

(** Eight CPUs online of which four are for control; a thread and a work queue
    of high priority. *)
Definition demo_of : of_view := OfView 7 0 4 8.
Definition demo_addr (name : string) : Z := 4096 + Z.of_nat (String.length name) mod 64.
Definition demo_aff : aff_state := AffState ∅ ∅ 0 ∅.

Lemma demo_addr_ok name : is_err_or_null (demo_addr name) = false.
Proof.
  unfold is_err_or_null, demo_addr.
  pose proof (Z.mod_pos_bound (Z.of_nat (String.length name)) 64 eq_refl).
  rewrite (proj2 (Z.eqb_neq _ _)) by lia. apply Z.leb_gt. lia.
Qed.

Lemma kthreads_on_control_cpus_witness :
  ∃ s', aff_runs demo_addr 64 (init_kthread_cpumask demo_aff demo_of)
      [OpThread 100; OpQueue 300 200 WQ_HIGHPRI]
    = (s', [BindThread 4113 100 (control_cpus demo_of);
            ApplyAttrs 200 (- 20) true (control_cpus demo_of); FreeAttrs 4116 300]) ∧
    live_attrs s' = ∅ ∧ 3 ∈ g_kthread_cpumask s' ∧ 4 ∉ g_kthread_cpumask s'.
Proof.
  destruct (kthreads_on_control_cpus demo_addr 64 demo_of demo_aff
    [OpThread 100; OpQueue 300 200 WQ_HIGHPRI]) as (s' & E & Em & Hc & El).
  - intros name. right. apply demo_addr_ok.
  - discriminate.
  - reflexivity.
  - exists s'. split; [exact E|]. split.
    + apply El; [reflexivity|]. repeat constructor. apply not_elem_of_empty.
    + rewrite Em. split; [apply Hc; done|]. intros H. apply Hc in H. simpl in H. lia.
Defined.
