(* ===== verification/TloggerClaims.v ===== *)
(** * Theorems on the TEE log reader

    Safety of a read whatever the ring holds, delivery of the log in order and
    without loss, and what goes wrong when the TEE changes the head of the
    ring or the length of an item during a read, when an item has a length
    that is no multiple of 64, or when the misc device cannot be registered. *)

From stdpp Require Import base gmap list.
From Stdlib Require Import ZArith Lia.
From S2P Require Import Prelude KernelApi TeeTypes Buffers Mailbox SessReg.
From S2P Require Import CallTypes GpParams Tlogger TloggerThm TloggerSys.

(** The file with [private_data] [p] leads to reader [r] and ring [lb]. *)
Record opened (s : tlogger) (p : Z) (r : tlogger_reader) (a : Z) (lb : log_buffer) : Prop := {
  opened_file : p ≠ 0;
  opened_reader : reader_heap s !! p = Some r;
  opened_log : ∃ lg, log_heap s !! reader_log r = Some lg ∧ buffer_info lg = a;
  opened_log_ptr : reader_log r ≠ 0;
  opened_buf_ptr : a ≠ 0;
  opened_buf : log_mem s !! a = Some lb
}.

(** The words of the head are unsigned and the ring is as long as the driver
    believes. *)
Record ring_ok (s : tlogger) (lb : log_buffer) : Prop := {
  ring_last : 0 ≤ last_pos (flag lb);
  ring_loops : 0 ≤ write_loops (flag lb) < 2 ^ 32;
  ring_max : 0 ≤ max_len (flag lb);
  ring_mem : LOG_BUFFER_SIZE ≤ g_log_mem_len s < 2 ^ 32;
  ring_bytes : g_log_mem_len s - LOG_BUFFER_SIZE ≤ zlen (buffer_start lb)
}.

Section Claims.
Context {CM : ClientMem} {CL : ClientMemLaws CM}.

(** A read up to the look at the head. *)
Lemma read_head tee s m p r a lb buf count :
  opened s p r a lb → buf ≠ 0 → LOG_ITEM_MAX_LEN ≤ count →
  process_tlogger_read tee s m (Some p) buf count =
    let '(ret, last_pos, is_read) := get_last_read_pos s (flag lb) r in
    if negb is_read then Ret (s, m, ret)
    else
      '(s, m, reader, ret) ← trigger_parse_log s m buf count last_pos (tee lb).1 r;
      let s := set_log_mem s (<[a := (tee lb).2]> (log_mem s)) in
      Ret (set_readers s (<[p := reader]> (reader_heap s)), m, ret).
Proof.
  intros [Hp Hr (lg & Hlg & <-) Hl0 Ha0 Hb] Hbuf Hc. unfold process_tlogger_read, check_read_params.
  rewrite (proj2 (Z.ltb_ge _ _)) by lia. rewrite (proj2 (Z.eqb_neq buf 0)) by done.
  change (nonzero 0) with false. cbv iota. simpl default.
  rewrite (proj2 (Z.eqb_neq p 0)) by done. rewrite (proj2 (at_index_Some _ _ _) Hr), ret_bind.
  unfold get_buffer_info. rewrite (proj2 (Z.eqb_neq _ 0)) by done.
  rewrite (proj2 (at_index_Some _ _ _) Hlg), ret_bind. rewrite (proj2 (Z.eqb_neq _ 0)) by done.
  rewrite (proj2 (at_index_Some _ _ _) Hb), !ret_bind.
  destruct (get_last_read_pos _ _ _) as [[ret lp] []]; simpl negb; cbv iota; [|done].
  rewrite (proj2 (at_index_Some _ _ _) Hb), ret_bind. by destruct (tee lb).
Qed.

Lemma last_read_pos_ok s lb r ret lp :
  ring_ok s lb → get_last_read_pos s (flag lb) r = (ret, lp, true) →
  lp = last_pos (flag lb) ∧ lp ≤ max_len (flag lb) ∧ r_off r ≤ max_len (flag lb) ∧
  max_len (flag lb) ≤ g_log_mem_len s - LOG_BUFFER_SIZE ∧ max_len (flag lb) ≤ LOG_BUFFER_MAX_LEN.
Proof.
  intros [_ _ Hm Hl _]. unfold get_last_read_pos. rewrite u32_small by (unfold LOG_BUFFER_SIZE in *; lia).
  destruct (Z.ltb_spec LOG_BUFFER_MAX_LEN (g_log_mem_len s - LOG_BUFFER_SIZE)); [done|].
  destruct (_ && _); [done|].
  destruct (Z.ltb_spec (max_len (flag lb)) (last_pos (flag lb))); [done|]. simpl orb.
  destruct (Z.ltb_spec (g_log_mem_len s - LOG_BUFFER_SIZE) (max_len (flag lb))); [done|].
  destruct (Z.ltb_spec (max_len (flag lb)) (r_off r)); [done|].
  intros [= <- <-]. lia.
Qed.

(** What the reader sees of the log: the TEE leaves [max_len] and the lengths of
    the items that are being copied alone. *)
Record view_ok (v : log_view) (mx : Z) : Prop := {
  view_max k : max_at v k = mx;
  view_first : steady (first_ring v) mx;
  view_second : steady (second_ring v) mx
}.

(** A parse that has stayed inside the client's buffer and the ring; [data] is
    what it has copied. *)
Definition stays_within (m : mem) (buf count mx : Z)
    (res : outcome (tlogger * mem * tlogger_reader * Z)) : Prop :=
  ∃ s' m' r' ret data, res = Ret (s', m', r', ret) ∧
    (∀ x, ¬ buf ≤ x < buf + zlen data → m' !! x = m !! x) ∧
    (writable buf count → m' = store_bytes m buf data) ∧
    ret = (if zlen data =? 0 then LOG_READ_STATUS_ERROR else zlen data) ∧ zlen data ≤ count ∧
    0 ≤ r_off r' ≤ mx.

Lemma proc_read_ret_within m buf count mx data s r (m' : mem) :
  zlen data ≤ count → 0 ≤ r_off r ≤ mx →
  (∀ x, ¬ buf ≤ x < buf + zlen data → m' !! x = m !! x) →
  (writable buf count → m' = store_bytes m buf data) →
  stays_within m buf count mx (let '(s1, ret) := proc_read_ret s (zlen data) r in Ret (s1, m', r, ret)).
Proof.
  intros Hw Hr Hm Hs. unfold proc_read_ret.
  destruct (Z.eqb_spec (zlen data) 0) as [E|E]; eexists _, _, _, _, data; split_and!;
    try (done || lia); by rewrite ?E, ?(proj2 (Z.eqb_neq _ _) E).
Qed.

Lemma trigger_safe s m buf count lp v mx r :
  view_ok v mx → 0 ≤ lp ≤ mx → 0 ≤ r_off r ≤ mx → mx < 2 ^ 32 → 0 ≤ count < 2 ^ 32 →
  stays_within m buf count mx (trigger_parse_log s m buf count lp v r).
Proof.
  intros [Hv1 Hv2 Hv3] Hlp Hoff Hmx Hc. unfold trigger_parse_log, set_reader_position. rewrite !Hv1.
  destruct (_ =? r_loops r).
  - destruct (parse_log_item_ok (first_ring v) mx (r_off r) lp m buf count
      (r_off r) false) as (m' & w & off & u & -> & Hw & Ho & Hm & data & <- & Hs); try (done || lia).
    rewrite ret_bind. rewrite u32_small in * by lia. simpl default.
    apply proc_read_ret_within; [lia|simpl; lia|done|done].
  - set (r1 := resume_reader_at _ _ _ _ _).
    assert (0 ≤ r_off r1 ≤ mx) as Hr1.
    { unfold r1, resume_reader_at. destruct (_ || _); simpl; lia. }
    destruct (parse_log_item_ok (first_ring v) mx (r_off r1) mx m buf count (r_off r1) false)
      as (m1 & w & off & u & -> & Hw & Ho & Hm & data & <- & Hs); try (done || lia).
    rewrite ret_bind. rewrite u32_small in * by lia. simpl default.
    destruct (Z.ltb_spec (zlen data) count) as [Hwc|Hwc], u; simpl andb; cbv iota;
      [|apply proc_read_ret_within; [lia|simpl; lia|done|done]..].
    destruct (parse_log_item_ok (second_ring v) mx 0 lp m1 (buf + zlen data) (count - zlen data)
      (r_off (with_pos r1 off (r_loops r1))) true)
      as (m2 & w2 & off2 & u2 & -> & Hw2 & Ho2 & Hm2 & more & <- & Hs2); try (done || lia).
    rewrite ret_bind. rewrite (u32_small (count - _)) in * by lia. rewrite u32_small by lia. simpl default.
    assert (zlen data + zlen more = zlen (data ++ more)) as E by (unfold zlen; rewrite length_app; lia).
    rewrite E. apply proc_read_ret_within; [lia|simpl; lia| |].
    + intros. rewrite Hm2, Hm by lia. done.
    + intros Hwr. rewrite store_bytes_app, <- Hs by done. apply Hs2.
      intros m0 d bs H1 H2. apply Hwr; lia.
Qed.


(** ** Delivery *)

(** The items a reader still has to get: those between its position and the
    end of the log, over the end of the ring if the TEE has gone round; a reader
    that was overtaken starts at the oldest item. *)
Definition pending (lb : log_buffer) (r : tlogger_reader) (l : list (list Z)) : Prop :=
  let f := flag lb in
  let b := buffer_start lb in
  if write_loops f =? r_loops r then region b (r_off r) l (last_pos f)
  else
    ∃ l1 l2 e, l = l1 ++ l2 ∧
      region b (r_off (resume_reader f (last_pos f) r)) l1 e ∧ e ≤ max_len f ∧
      no_item_from b e (max_len f) ∧ region b 0 l2 (last_pos f).

Lemma parsed_to_exact b p e n l off u :
  region b p l e → parsed_to b p e e n l off u →
  off = p + zlen (concat (fit n l)) ∧ region b off (unfit n l) e.
Proof.
  intros Hr Hp. assert (off = p + zlen (concat (fit n l))) as ->; [|split; [done|by apply region_fit]].
  destruct u; simpl in Hp; [|apply Hp]. destruct Hp as (Hu & _ & _ & He).
  pose proof (fit_unfit n l) as E. rewrite Hu, app_nil_r in E. rewrite E.
  rewrite He by done. by apply (region_end b).
Qed.

Lemma fit_first b p l e n :
  region b p l e → 1024 ≤ n → l ≠ [] → 0 < zlen (concat (fit n l)).
Proof.
  intros Hr Hn Hl. inversion Hr as [|? it l' ? Hok]; subst; [done|].
  apply item_ok_len in Hok. cbn [fit].
  rewrite (proj2 (Z.leb_le _ _)) by lia. cbn [concat]. unfold zlen in *. rewrite length_app. lia.
Qed.

(** What a read of the pending items [l] leaves. *)
Definition delivers (s : tlogger) (m : mem) (buf count : Z) (lb : log_buffer) (r : tlogger_reader)
    (l : list (list Z)) (res : outcome (tlogger * mem * tlogger_reader * Z)) : Prop :=
  ∃ pre post r', l = pre ++ post ∧ 0 < zlen (concat pre) ≤ count ∧
    res = Ret (set_last_read s (r_off r'), store_bytes m buf (concat pre), r',
               zlen (concat pre)) ∧
    pending lb r' post ∧ reader_log r' = reader_log r ∧ 0 ≤ r_off r' ≤ max_len (flag lb).

Lemma delivers_intro s m buf count lb r l pre post r' :
  l = pre ++ post → 0 < zlen (concat pre) ≤ count → pending lb r' post →
  reader_log r' = reader_log r → 0 ≤ r_off r' ≤ max_len (flag lb) →
  delivers s m buf count lb r l
    (let '(s1, ret) := proc_read_ret s (zlen (concat pre)) r' in
     Ret (s1, store_bytes m buf (concat pre), r', ret)).
Proof.
  intros El Hz Hp Hl Ho. exists pre, post, r'. split_and!; try done; try lia.
  unfold proc_read_ret. rewrite (proj2 (Z.eqb_neq _ 0)) by lia. done.
Qed.

Context (lb : log_buffer) (buf count : Z).
Let f := flag lb.
Let b := buffer_start lb.
Hypothesis (Hlast : 0 ≤ last_pos f ≤ max_len f) (Hmax : max_len f ≤ zlen b)
  (Hmax' : max_len f < 2 ^ 32) (Hloops : 0 ≤ write_loops f < 2 ^ 32)
  (Hcount : 1024 ≤ count < 2 ^ 32) (Hwr : writable buf count).

Lemma trigger_delivers_same s m r l :
  write_loops f = r_loops r → pending lb r l → l ≠ [] →
  delivers s m buf count lb r l (trigger_parse_log s m buf count (last_pos f) (still_log lb) r).
Proof.
  intros El Hp Hl. unfold pending in Hp. fold f b in Hp. rewrite El, Z.eqb_refl in Hp.
  unfold trigger_parse_log, set_reader_position. cbn [still_log loops_at max_at first_ring second_ring].
  fold f b. rewrite El, Z.eqb_refl.
  destruct (parse_log_item_region b (max_len f) (last_pos f) (last_pos f) m buf count (r_off r) l
    (r_off r) false) as (off & u & -> & Hpt); try done; try lia.
  { apply no_item_short. lia. }
  rewrite ret_bind. destruct (parsed_to_exact _ _ _ _ _ _ _ Hp Hpt) as [Hoff Hreg].
  pose proof (region_range _ _ _ _ Hreg).
  apply delivers_intro with (unfit count l); simpl; try done; try lia.
  - by rewrite fit_unfit.
  - split; [eapply fit_first; [done|lia|done]|apply fit_len; lia].
  - unfold pending. fold f b. simpl. by rewrite El, Z.eqb_refl.
  - fold f. lia.
Qed.

(** The second parse, from the start of the ring. *)
Lemma trigger_delivers_wrapped s m r r0 l1 l2 o :
  reader_log r = reader_log r0 →
  region b 0 l2 (last_pos f) → zlen (concat l1) < count → (l1 ≠ [] → 0 < zlen (concat l1)) →
  l1 ++ l2 ≠ [] →
  delivers s m buf count lb r0 (l1 ++ l2)
    ('(m, more, off, _) ←
       parse_log_item (store_bytes m buf (concat l1)) (buf + zlen (concat l1))
         (count - zlen (concat l1)) (ReaderPosition (Some (still_ring b)) (max_len f) 0 (last_pos f))
         (Some o) true;
     let reader := with_pos r (default 0 off) (write_loops f) in
     let '(s, ret) := proc_read_ret s (u32 (zlen (concat l1) + more)) reader in
     Ret (s, m, reader, ret)).
Proof.
  intros Hlog Hr Hlt Hl1 Hl. set (w := zlen (concat l1)) in *.
  assert (0 ≤ w) by (unfold w, zlen; lia).
  destruct (parse_log_item_region b (max_len f) (last_pos f) (last_pos f)
    (store_bytes m buf (concat l1)) (buf + w) (count - w) 0 l2 o true)
    as (off & u & -> & Hpt); try done; try lia.
  { apply no_item_short. lia. }
  { intros m0 d bs H1 H2. apply Hwr; lia. }
  rewrite ret_bind. destruct (parsed_to_exact _ _ _ _ _ _ _ Hr Hpt) as [Hoff Hreg].
  pose proof (region_range _ _ _ _ Hreg). pose proof (fit_len (count - w) l2 ltac:(lia)).
  assert (zlen (concat (l1 ++ fit (count - w) l2)) = w + zlen (concat (fit (count - w) l2))) as E.
  { unfold w, zlen. rewrite concat_app, length_app. lia. }
  rewrite u32_small by (unfold zlen in *; lia). unfold w. rewrite <- store_bytes_app, <- concat_app.
  fold w. rewrite <- E.
  apply delivers_intro with (unfit (count - w) l2); simpl; try done; try lia.
  - by rewrite <- app_assoc, fit_unfit.
  - rewrite E. split; [|lia]. destruct l1 as [|it l1].
    + change w with 0 in *. rewrite Z.sub_0_r, Z.add_0_l. eapply fit_first; [done|lia|done].
    + specialize (Hl1 ltac:(done)). unfold zlen at 1. lia.
  - unfold pending. fold f b. simpl. by rewrite Z.eqb_refl.
  - fold f. lia.
Qed.

(** The items left when the first parse has ended before the end of the ring,
    or exactly with the client's buffer. *)
Lemma pending_behind r l1 l2 e off :
  write_loops f ≠ r_loops r → r_off (resume_reader f (last_pos f) r) ≤ off →
  region b off l1 e → e ≤ max_len f → no_item_from b e (max_len f) →
  region b 0 l2 (last_pos f) →
  let r1 := resume_reader f (last_pos f) r in
  pending lb (with_pos r1 off (r_loops r1)) (l1 ++ l2).
Proof.
  intros Hne Hoff Hr He Hno Hr2 r1. unfold pending. fold f b.
  pose proof (resume_reader_loops f (last_pos f) r Hloops Hne) as Hne'.
  rewrite (proj2 (Z.eqb_neq _ _)) by exact Hne'.
  exists l1, l2, e. unfold r1. rewrite resume_reader_stable by done. done.
Qed.

Lemma trigger_delivers_behind s m r l :
  write_loops f ≠ r_loops r → pending lb r l → l ≠ [] →
  delivers s m buf count lb r l (trigger_parse_log s m buf count (last_pos f) (still_log lb) r).
Proof.
  intros Hne Hp Hl. unfold pending in Hp. fold f b in Hp.
  rewrite (proj2 (Z.eqb_neq _ _)) in Hp by done.
  destruct Hp as (l1 & l2 & e & -> & Hr1 & He & Hno & Hr2).
  unfold trigger_parse_log, set_reader_position. cbn [still_log loops_at max_at first_ring second_ring].
  fold f b.
  rewrite (proj2 (Z.eqb_neq _ _)) by done. cbv zeta. fold (resume_reader f (last_pos f) r).
  pose proof (pending_behind r) as Hpb.
  set (r1 := resume_reader f (last_pos f) r) in *.
  assert (reader_log r1 = reader_log r) as Hlog
    by (unfold r1, resume_reader, resume_reader_at; by destruct (_ || _)).
  pose proof (region_range _ _ _ _ Hr1).
  destruct (parse_log_item_region b (max_len f) (max_len f) e m buf count (r_off r1) l1
    (r_off r1) false) as (off & u & -> & Hpt); try done; try lia.
  rewrite ret_bind. pose proof (fit_len count l1 ltac:(lia)).
  pose proof (region_fit _ _ _ _ count Hr1) as Hrf. pose proof (region_range _ _ _ _ Hrf).
  assert (fit count l1 ++ unfit count l1 ++ l2 = l1 ++ l2) as El
    by (by rewrite app_assoc, fit_unfit).
  simpl default. destruct u; simpl in Hpt.
  - destruct Hpt as (Hu & Ho & Hno' & _). rewrite Hu in *. simpl in El.
    pose proof (fit_unfit count l1) as Ef. rewrite Hu, app_nil_r in Ef. rewrite Ef in *.
    rewrite andb_true_r. destruct (Z.ltb_spec (zlen (concat l1)) count) as [Hlt|Hge].
    + apply (trigger_delivers_wrapped s m); [done|done|done| |done].
      intros Hl1. rewrite <- Ef at 1. by eapply fit_first; [|lia|].
    + apply delivers_intro with l2; simpl; try done; [lia| |fold f; lia].
      apply (Hpb [] l2 off off); [done|lia|constructor; lia|lia|done|done].
  - destruct Hpt as (Hu & ->). rewrite andb_false_r.
    apply delivers_intro with (unfit count l1 ++ l2); simpl; try done; [|..|fold f; lia].
    + split; [|done]. eapply fit_first; [exact Hr1|lia|]. by intros ->.
    + unfold zlen in *. apply (Hpb _ _ e); done || lia.
Qed.

End Claims.

(** The ring seen by the driver is consistent, and the reader stands in it. *)
Record log_ready (s : tlogger) (lb : log_buffer) (r : tlogger_reader) : Prop := {
  ready_ring : ring_ok s lb;
  ready_last : last_pos (flag lb) ≤ max_len (flag lb);
  ready_max : max_len (flag lb) ≤ g_log_mem_len s - LOG_BUFFER_SIZE;
  ready_len : g_log_mem_len s - LOG_BUFFER_SIZE ≤ LOG_BUFFER_MAX_LEN;
  ready_off : 0 ≤ r_off r ≤ max_len (flag lb)
}.

Section Delivery.
Context {CM : ClientMem} {CL : ClientMemLaws CM}.

Lemma last_read_pos_ready s lb r l :
  log_ready s lb r → pending lb r l → l ≠ [] →
  get_last_read_pos s (flag lb) r = (0, last_pos (flag lb), true).
Proof.
  intros [[H1 H2 H3 H4 H5] HA HB HC HD] Hp Hl. unfold get_last_read_pos, LOG_BUFFER_SIZE in *.
  rewrite u32_small by lia. rewrite (proj2 (Z.ltb_ge _ _)) by done.
  destruct (Z.eqb_spec (write_loops (flag lb)) (r_loops r)) as [E|E].
  - unfold pending in Hp. rewrite E, Z.eqb_refl in Hp.
    inversion Hp as [|? it ? ? Hok ? ? ? Hr]; subst; [done|].
    apply item_ok_len in Hok. apply region_range in Hr.
    rewrite (proj2 (Z.eqb_neq _ _)) by lia. simpl andb. cbv iota.
    by rewrite !(proj2 (Z.ltb_ge _ _)) by lia.
  - rewrite andb_false_r. by rewrite !(proj2 (Z.ltb_ge _ _)) by lia.
Qed.

(** While the TEE leaves the ring alone, a read delivers the oldest items
    the reader has not seen: a non-empty prefix of them, whole items only, as
    many as the buffer holds, and the rest stays to be read.  This covers
    readers inside the current loop, one loop behind (the items wrap round the
    end of the ring) and overtaken ones. *)
Lemma read_delivers s m p r a lb l buf count :
  opened s p r a lb → log_ready s lb r → pending lb r l → l ≠ [] →
  buf ≠ 0 → 1024 ≤ count < 2 ^ 32 → writable buf count →
  ∃ pre post s' r',
    l = pre ++ post ∧ 0 < zlen (concat pre) ≤ count ∧
    process_tlogger_read idle s m (Some p) buf count
      = Ret (s', store_bytes m buf (concat pre), zlen (concat pre)) ∧
    opened s' p r' a lb ∧ log_ready s' lb r' ∧ pending lb r' post.
Proof.
  intros Ho Hrd Hp Hl Hb Hc Hw. rewrite (read_head _ _ _ _ _ _ _ _ _ Ho Hb)
    by (unfold LOG_ITEM_MAX_LEN; lia).
  rewrite (last_read_pos_ready _ _ _ _ Hrd Hp Hl). simpl negb. cbv iota zeta. unfold idle.
  cbn [fst snd].
  destruct Ho as [O1 O2 O3 O4 O5 O6]. pose proof Hrd as [[H1 H2 H3 H4 H5] HA HB HC HD].
  unfold LOG_BUFFER_SIZE, LOG_BUFFER_MAX_LEN in *.
  assert (delivers s m buf count lb r l (trigger_parse_log s m buf count (last_pos (flag lb)) (still_log lb) r))
    as (pre & post & r' & -> & Hz & E & Hp' & Hlog & Hoff).
  { destruct (decide (write_loops (flag lb) = r_loops r)).
    - apply trigger_delivers_same; done || lia.
    - apply trigger_delivers_behind; done || lia. }
  rewrite E, ret_bind.
  eexists pre, post, _, r'. split; [done|]. split; [exact Hz|]. split; [done|].
  split; [|split; [|exact Hp']].
  - split; simpl; rewrite ?lookup_insert_eq, ?Hlog; try done.
  - destruct Hrd as [[? ? ? ? ?] ? ? ? ?]. split; [split|..]; simpl; done || lia.
Qed.

(** [n] reads in a row, and what they return. *)
Fixpoint drain (n : nat) (s : tlogger) (m : mem) (p buf count : Z) : outcome (tlogger * list Z) :=
  match n with
  | O => Ret (s, [])
  | S n =>
      '(s, m, ret) ← process_tlogger_read idle s m (Some p) buf count;
      let bytes := load_bytes m buf (Z.to_nat ret) in
      '(s, rest) ← drain n s m p buf count;
      Ret (s, bytes ++ rest)
  end.

(** C33. A client that goes on reading gets the log: when the items between its
    position and the end of the log lie one behind the other and each passes
    the reader's check (a [buffer_len] that is a multiple of 64, at most 1024
    bytes with the head), the TEE does not write during these reads and the
    client's buffer is writable and holds at least 1024 bytes, then at most as
    many reads as there are items return exactly these items, in order, and
    leave nothing pending.  ([misaligned_item_skipped]: an item whose length is
    a multiple of 32 only is never delivered.) *)
Theorem tlogger_drains s m p r a lb l buf count :
  opened s p r a lb → log_ready s lb r → pending lb r l →
  buf ≠ 0 → 1024 ≤ count < 2 ^ 32 → writable buf count →
  ∃ n s' r', (n ≤ length l)%nat ∧ drain n s m p buf count = Ret (s', concat l) ∧
    opened s' p r' a lb ∧ pending lb r' [].
Proof.
  intros Ho Hrd Hp Hb Hc Hw. remember (length l) as k eqn:Hk.
  revert s m r l Hk Ho Hrd Hp.
  induction k as [k IH] using lt_wf_ind. intros s m r l -> Ho Hrd Hp.
  destruct (decide (l = [])) as [->|Hl].
  { exists 0%nat, s, r. simpl. split; [lia|done]. }
  destruct (read_delivers s m p r a lb l buf count Ho Hrd Hp Hl Hb Hc Hw)
    as (pre & post & s1 & r1 & -> & Hz & E & Ho1 & Hrd1 & Hp1).
  assert (pre ≠ []) by (intros ->; unfold zlen in Hz; simpl in Hz; lia).
  assert (0 < length pre)%nat by (destruct pre; simpl; done || lia).
  destruct (IH (length post) ltac:(rewrite length_app; lia) s1
    (store_bytes m buf (concat pre)) r1 post eq_refl Ho1 Hrd1 Hp1)
    as (n & s2 & r2 & Hn & E2 & Ho2 & Hp2).
  exists (S n), s2, r2. split; [rewrite length_app; lia|]. split; [|done].
  cbn [drain]. rewrite E, ret_bind, E2, ret_bind. do 2 f_equal.
  unfold zlen. rewrite Nat2Z.id, load_store_bytes, concat_app. done.
Qed.

(** [process_tlogger_poll] looks at the position only: a reader that is one
    loop behind at the same position is told that there is nothing to read,
    although a read would deliver data. *)
Theorem tlogger_poll_misses_lap s m p r a lb l buf count :
  opened s p r a lb → log_ready s lb r → pending lb r l → l ≠ [] →
  last_pos (flag lb) = r_off r → write_loops (flag lb) ≠ r_loops r →
  buf ≠ 0 → 1024 ≤ count < 2 ^ 32 → writable buf count →
  process_tlogger_poll s (Some p) = Ret (Z.lor POLLOUT POLLWRNORM) ∧
  ∃ s' m' n, process_tlogger_read idle s m (Some p) buf count = Ret (s', m', n) ∧ 0 < n ≤ count.
Proof.
  intros Ho Hrd Hp Hl Heq Hne Hb Hc Hw. split.
  - destruct Ho as [O1 O2 (lg & O3 & <-) O4 O5 O6]. unfold process_tlogger_poll.
    rewrite (proj2 (Z.eqb_neq p 0)) by done.
    rewrite (proj2 (at_index_Some _ _ _) O2), ret_bind.
    rewrite (proj2 (Z.eqb_neq _ 0)) by done.
    rewrite (proj2 (at_index_Some _ _ _) O3), ret_bind.
    rewrite (proj2 (Z.eqb_neq _ 0)) by done.
    rewrite (proj2 (at_index_Some _ _ _) O6), ret_bind. by rewrite Heq, Z.eqb_refl.
  - destruct (read_delivers s m p r a lb l buf count Ho Hrd Hp Hl Hb Hc Hw)
      as (pre & post & s' & r' & _ & Hz & E & _). eauto.
Qed.

End Delivery.

(** ** The archive *)

Section Archive.
Context {F : Type} {LF : LogFile F}.

(** The texts of the items, as they go to the file one after the other until a
    write fails. *)
Definition item_text (it : list Z) : list Z :=
  sub_buf it LOG_ITEM_SIZE (real_len (decode_item (take 64 it))).

Fixpoint write_all (f : F) (l : list (list Z)) : F * Z :=
  match l with
  | [] => (f, 0)
  | x :: l => let '(f, n) := vfs_write f x in if n <? 0 then (f, -1) else write_all f l
  end.

Lemma msg_next_valid b p mx it :
  valid_at b p (p + LOG_ITEM_MAX_LEN) it → 0 ≤ p → p + buffer_len it + 64 ≤ mx →
  mx < 2 ^ 32 → msg_get_next (Some b) p LOG_ITEM_MAX_LEN mx = Ret (Some (p, it)).
Proof.
  intros Hv Hp Hmx Hmx'. pose proof (valid_at_bounds _ _ _ _ Hv). destruct Hv as [El Hc].
  unfold msg_get_next. cbn [msg_next_loop]. rewrite !Z.add_0_r, Z.sub_0_r.
  rewrite (u32_small p) by lia. unfold LOG_ITEM_SIZE, LOG_ITEM_MAX_LEN in *.
  rewrite (proj2 (Z.leb_le 0 1024)), (proj2 (Z.ltb_lt (p + 64) mx)) by lia. simpl andb. cbv iota.
  rewrite El, ret_bind. change (u32 1024) with 1024. change (1024 <? 1024) with false. cbv iota.
  replace (Z.min 1024 (p + 1024 - p)) with 1024 in Hc by lia. rewrite Hc.
  rewrite (proj2 (Z.ltb_ge _ _)) by lia. done.
Qed.

Lemma msg_next_none fuel b p mx i :
  no_item_from b (p + i) (p + LOG_ITEM_MAX_LEN) → 0 ≤ p → 0 ≤ i → mx ≤ zlen b → mx < 2 ^ 31 →
  p ≤ mx → (1024 - i) / 64 + 1 < Z.of_nat fuel → (0 < fuel)%nat →
  msg_next_loop fuel (Some b) p LOG_ITEM_MAX_LEN mx i = Ret None.
Proof.
  revert i. induction fuel as [|fuel IH]; intros i Hno Hp Hi Hz Hmx Hpm Hf Hf0; [lia|].
  cbn [msg_next_loop]. unfold LOG_ITEM_SIZE, LOG_ITEM_MAX_LEN, LOG_ITEM_LEN_ALIGN in *.
  destruct (Z.leb_spec i 1024) as [Hi'|]; [|done].
  rewrite (u32_small (p + i)) by lia. simpl andb.
  destruct (Z.ltb_spec (p + i + 64) mx); [|done].
  rewrite load_item_ok, ret_bind by (unfold LOG_ITEM_SIZE; lia). rewrite u32_small by lia.
  set (it := decode_item _).
  assert ((if 1024 <? 1024 - i then 1024 else 1024 - i) = Z.min 1024 (p + 1024 - (p + i))) as ->.
  { destruct (Z.ltb_spec 1024 (1024 - i)); lia. }
  destruct (check_log_item_validite it _) eqn:Hc.
  { destruct (Hno 0 it ltac:(lia)). unfold LOG_ITEM_LEN_ALIGN. rewrite Z.mul_0_r, Z.add_0_r.
    split; [|done]. by rewrite load_item_ok by (unfold LOG_ITEM_SIZE; lia). }
  apply IH; try lia.
  - intros k it' Hk. unfold LOG_ITEM_LEN_ALIGN.
    replace (p + (i + 64) + 64 * k) with (p + i + LOG_ITEM_LEN_ALIGN * (k + 1))
      by (unfold LOG_ITEM_LEN_ALIGN; lia).
    apply Hno. lia.
  - replace (1024 - i) with (1024 - (i + 64) + 1 * 64) in Hf by lia.
    rewrite Z.div_add in Hf by lia. lia.
  - assert (0 ≤ (1024 - i) / 64) by (apply Z.div_pos; lia). lia.
Qed.

Lemma msg_next_region b p l e mx :
  region b p l e → e ≤ mx → no_item_from b e (e + LOG_ITEM_MAX_LEN) →
  mx ≤ zlen b → mx < 2 ^ 31 →
  msg_get_next (Some b) p LOG_ITEM_MAX_LEN mx =
    Ret (match l with [] => None | it :: _ => Some (p, decode_item (take 64 it)) end).
Proof.
  intros Hr He Hno Hz Hmx. pose proof (region_range _ _ _ _ Hr). destruct l as [|it l].
  - inversion Hr; subst. unfold msg_get_next. apply msg_next_none; try lia.
    + by rewrite Z.add_0_r.
    + unfold LOG_ITEM_MAX_LEN, LOG_ITEM_LEN_ALIGN. rewrite Z.sub_0_r.
      change (1024 / 64) with 16. lia.
  - inversion Hr as [|? ? ? ? Hok ? ? Hs Hr']; subst. pose proof (region_range _ _ _ _ Hr').
    pose proof (item_ok_len _ Hok). unfold LOG_ITEM_MAX_LEN.
    pose proof (region_valid _ _ _ _ _ _ Hr (Z.le_refl e)) as [Hv _].
    apply msg_next_valid; try lia.
    + split; [done|]. destruct Hok as [Hc _]. unfold LOG_ITEM_MAX_LEN in *.
      by replace (Z.min 1024 (p + 1024 - p)) with 1024 by lia.
    + destruct Hok as [_ Hok]. unfold LOG_ITEM_SIZE in Hok. lia.
Qed.

Lemma write_part_region fuel b mx f p l e :
  region b p l e → e ≤ mx → no_item_from b e (e + LOG_ITEM_MAX_LEN) →
  mx ≤ zlen b → mx < 2 ^ 31 → (length l < fuel)%nat →
  write_part_loop fuel (Some b) mx mx f
    (match l with [] => None | it :: _ => Some (p, decode_item (take 64 it)) end) p p
  = Ret (write_all f (item_text <$> l)).
Proof.
  intros Hr He Hno Hz Hmx. revert f p l Hr.
  induction fuel as [|fuel IH]; intros f p l Hr Hf; [lia|].
  destruct l as [|it l]; [done|]. pose proof (region_range _ _ _ _ Hr).
  inversion Hr as [|? ? ? ? Hok Hp Hpz Hs Hr']; subst.
  pose proof (region_range _ _ _ _ Hr'). pose proof (item_ok_len _ Hok).
  assert (buffer_len (decode_item (take 64 it)) + LOG_ITEM_SIZE = zlen it) as Elen
    by (by destruct Hok).
  pose proof (check_bounds _ _ (proj1 Hok)) as Hb. cbn [write_part_loop].
  rewrite (proj2 (Z.ltb_ge mx p)), Elen by lia. unfold LOG_ITEM_SIZE in *.
  rewrite read_range_ok, ret_bind by lia. cbn [fmap list_fmap write_all].
  assert (sub_buf b (p + 64) (real_len (decode_item (take 64 it))) = item_text it) as ->.
  { unfold item_text, LOG_ITEM_SIZE. rewrite <- Hs at 2. unfold sub_buf.
    rewrite skipn_firstn_comm, drop_drop, take_take. f_equal; [lia|f_equal; lia]. }
  destruct (vfs_write f (item_text it)) as [f1 n]. destruct (n <? 0); [done|].
  rewrite u32_small by lia.
  destruct (Z.leb_spec mx (p + zlen it)) as [Hend|Hgo].
  - assert (l = []) as ->; [|done].
    inversion Hr' as [|? ? ? ? Hok' ? ? ? Hr'']; subst; [done|].
    apply item_ok_len in Hok'. apply region_range in Hr''. lia.
  - rewrite (msg_next_region b _ _ _ _ Hr' He Hno Hz Hmx), ret_bind.
    apply IH; [done|]. simpl in Hf. lia.
Qed.

Lemma region_count b p l e : region b p l e → 128 * Z.of_nat (length l) ≤ e - p.
Proof. induction 1 as [|p it l e Hi%item_ok_len]; cbn [length]; lia. Qed.

(** A string without NUL, followed by NUL. *)
Lemma c_string_app l l' : (∀ x, x ∈ l → x ≠ 0) → c_string (l ++ 0 :: l') = Ret l.
Proof.
  induction l as [|x l IH]; intros Hl; simpl; [done|].
  rewrite (proj2 (Z.eqb_neq x 0)) by (apply Hl; left).
  rewrite IH; [done|]. intros y Hy. apply Hl. by right.
Qed.

Context {SB : SecureBuf} {SL : SecureBufLaws SB}.

(** The set-up of [register_tloger]: the ring is [buffer_start lb]. *)
Record archive_ready (s : tlogger) (lb : log_buffer) : Prop := {
  archive_mem : log_mem s !! g_log_buffer s = Some lb;
  archive_ptr : g_log_buffer s ≠ 0;
  archive_len : g_log_mem_len s = LOG_BUFFER_SIZE + zlen (buffer_start lb);
  archive_bound : 0 < zlen (buffer_start lb) ≤ LOG_BUFFER_MAX_LEN;
  archive_log : ∃ lg, log_heap s !! g_log s = Some lg ∧ buffer_info lg = g_log_buffer s;
  archive_log_ptr : g_log s ≠ 0
}.

Lemma log_write_ready s lb : archive_ready s lb → ∃ w, tz_log_write s = Ret w.
Proof.
  intros [Hm Hp _ _ (lg & Hlg & Hbi) Hg]. unfold tz_log_write.
  rewrite (proj2 (Z.eqb_neq _ 0)) by done. rewrite (proj2 (at_index_Some _ _ _) Hlg), ret_bind, Hbi.
  rewrite (proj2 (Z.eqb_neq _ 0)) by done. rewrite (proj2 (at_index_Some _ _ _) Hm), ret_bind. eauto.
Qed.

Lemma msg_buffer_ready s lb km :
  archive_ready s lb → 16 < km →
  get_msg_buffer s km
  = Ret (0, Some (buffer_start lb), zlen (buffer_start lb), 0, zlen (buffer_start lb)).
Proof.
  intros [Hm Hp Hlen Hb _ _] Hkm. unfold get_msg_buffer, zero_or_null_ptr.
  set (mx := zlen (buffer_start lb)) in *. unfold LOG_BUFFER_MAX_LEN in *.
  replace (g_log_mem_len s - LOG_BUFFER_SIZE) with mx by lia. rewrite (u32_small mx) by lia.
  rewrite (proj2 (Z.eqb_neq _ 0)), (proj2 (Z.ltb_ge _ _)), (proj2 (Z.leb_gt km 16)) by (done || lia).
  rewrite (proj2 (at_index_Some _ _ _) Hm), ret_bind, read_range_ok, ret_bind by (done || lia).
  rewrite buf_copy_ok by (unfold SECUREC_MEM_MAX_LEN; lia).
  assert (sub_buf (buffer_start lb) 0 mx = buffer_start lb) as Es.
  { unfold sub_buf, mx, zlen. rewrite Nat2Z.id. apply firstn_all. }
  rewrite !Es. change (nonzero EOK) with false. cbv iota. unfold splice. simpl.
  rewrite drop_ge, app_nil_r; [done|]. rewrite length_replicate. unfold mx, zlen. lia.
Qed.

(** After a crash the archive receives the version of the TEE and the text
    of every logged item, each once and in order, up to the first failing
    write, and the file is closed: [tlogger_store_msg] on a ring that starts
    with the items [l] and holds no item in the kilobyte behind them. *)
Theorem tlogger_archive_complete s (f0 : F) f path_len km lb version v' l e :
  archive_ready s lb →
  version_info (flag lb) = version ++ 0 :: v' → (∀ x, x ∈ version → x ≠ 0) →
  region (buffer_start lb) 0 l e → no_item_from (buffer_start lb) e (e + LOG_ITEM_MAX_LEN) →
  g_tlogcat_count s ≠ 0 → path_len ≤ TEE_LOG_FILE_NAME_MAX → 16 < km →
  filp_open f0 = Some f →
  tlogger_store_msg s f0 true path_len km =
    let '(f', ret) := write_all f (version :: (item_text <$> l)) in
    Ret (filp_close f', ret).
Proof.
  intros Hrd Hv Hv0 Hr Hno Hc Hpath Hkm Hopen.
  destruct (log_write_ready _ _ Hrd) as [w Ew].
  unfold tlogger_store_msg. rewrite (proj2 (Z.ltb_ge _ _)) by done. simpl negb. simpl orb. cbv iota.
  rewrite (proj2 (Z.eqb_neq _ 0)) by done. rewrite (msg_buffer_ready _ _ _ Hrd Hkm), ret_bind.
  change (nonzero 0) with false. cbv iota. rewrite Hopen, Ew.
  change (tlogger_chown f) with (f, 0). change (nonzero 0) with false. cbv iota.
  unfold write_version_to_msg. rewrite (proj2 (at_index_Some _ _ _) (archive_mem _ _ Hrd)), ret_bind, Hv.
  rewrite <- app_assoc. cbn [app]. rewrite (c_string_app _ _ Hv0), ret_bind. cbn [write_all].
  destruct (vfs_write f version) as [f1 n]. rewrite ret_bind.
  destruct (n <? 0); [done|]. change (nonzero 0) with false. cbv iota. unfold write_log_to_msg.
  set (mx := zlen (buffer_start lb)) in *.
  assert (0 < mx < 2 ^ 31) as Hmx
    by (pose proof (archive_bound _ _ Hrd); unfold LOG_BUFFER_MAX_LEN in *; lia).
  rewrite (proj2 (Z.ltb_lt 0 mx)) by lia. unfold write_part_log_to_msg.
  pose proof (region_range _ _ _ _ Hr). pose proof (region_count _ _ _ _ Hr).
  rewrite (msg_next_region _ _ _ _ mx Hr ltac:(lia) Hno ltac:(lia) ltac:(lia)), ret_bind.
  rewrite (write_part_region _ _ mx f1 0 l e Hr) by
    (done || lia || (unfold LOG_ITEM_LEN_ALIGN;
      assert (Z.of_nat (length l) ≤ mx / 64) by (apply Z.div_le_lower_bound; lia); lia)).
  by destruct (write_all f1 _).
Qed.

End Archive.

(** ** Registration *)

(** When [misc_register] fails, [register_device] frees the log but leaves
    it on [m_log_list]: [exit_tlogger_service] then uses freed memory. *)
Theorem register_device_failure_dangles t addr kz name ret minor :
  kz ≠ 0 → name ≠ 0 → ret ≠ 0 → m_log_list t = [] →
  (register_device t addr kz name (ret, minor)).2 = ret ∧
  exit_tlogger_service (register_device t addr kz name (ret, minor)).1 = Fault.
Proof.
  intros Hk Hn Hr Hl. unfold register_device.
  rewrite (proj2 (Z.eqb_neq kz 0)), (proj2 (Z.eqb_neq name 0)), (nonzero_neq ret) by done.
  split; [done|]. unfold exit_tlogger_service, unregister_tlogger. cbn [fst m_log_list set_logs].
  rewrite Hl. cbn [app unregister_loop log_heap set_logs].
  unfold at_index. by rewrite lookup_delete_eq.
Qed.

(** Registration followed by removal gives everything back. *)
Lemma register_device_unregister t addr kz name minor :
  kz ≠ 0 → name ≠ 0 → m_log_list t = [] → log_heap t !! kz = None → g_log_buffer t = 0 →
  ∃ t', exit_tlogger_service (register_device t addr kz name (0, minor)).1 = Ret t' ∧
    log_heap t' = log_heap t ∧ m_log_list t' = [].
Proof.
  intros Hk Hn Hl Hf Hb. unfold register_device.
  rewrite (proj2 (Z.eqb_neq kz 0)), (proj2 (Z.eqb_neq name 0)) by done.
  unfold exit_tlogger_service, unregister_tlogger. simpl. rewrite Hl. simpl.
  unfold at_index. rewrite lookup_insert_eq. simpl. unfold unregister_mem_cfg. simpl.
  rewrite Hb. simpl. eexists. split_and!; [done| |done]. simpl. by apply delete_insert_id.
Qed.

(** ** Examples *)

Definition demo_item (c : Z) : list Z :=
  replicate 32 0 ++ le_bytes 2 LOG_ITEM_MAGIC ++ le_bytes 2 0 ++ le_bytes 4 1
  ++ le_bytes 2 60 ++ le_bytes 2 64 ++ replicate 16 0 ++ [0; 0; 0; 10] ++ replicate 64 c.

(** Two items at 512 and one, written later, at 0. *)
Definition demo_ring : list Z :=
  demo_item 65 ++ replicate 384 0 ++ demo_item 66 ++ demo_item 67 ++ replicate 256 0.

Definition demo_log (last loops : Z) : log_buffer :=
  LogBuffer (LogFlag last loops 0 1024 (replicate 4 86 ++ replicate 152 0)) demo_ring.

Definition demo_reader (off loops : Z) : tlogger_reader :=
  with_pos (new_reader 100) off loops.

Definition demo_tlogger (last loops off r_loops : Z) : tlogger :=
  Tlogger {[100 := TloggerLog 200 7 300 [400]]} {[400 := demo_reader off r_loops]}
    {[200 := demo_log last loops]} [100] 100 200 (LOG_BUFFER_SIZE + 1024) 1 0 0.

Lemma demo_opened last loops off r_loops :
  opened (demo_tlogger last loops off r_loops) 400 (demo_reader off r_loops) 200
    (demo_log last loops).
Proof. split; try done. by exists (TloggerLog 200 7 300 [400]). Qed.

Lemma demo_ring_ok last loops off r_loops last' loops' :
  0 ≤ last' → 0 ≤ loops' < 2 ^ 32 →
  ring_ok (demo_tlogger last loops off r_loops) (demo_log last' loops').
Proof. intros. split; [done|done|vm_compute; done|vm_compute; done|vm_compute; done]. Qed.

Lemma demo_item_ok c : item_ok (demo_item c).
Proof. split; reflexivity. Qed.

Lemma demo_region_0 : region demo_ring 0 [demo_item 65] 128.
Proof.
  apply region_cons; [apply demo_item_ok|done|vm_compute; done|reflexivity|].
  change (0 + zlen (demo_item 65)) with 128. constructor. by vm_compute.
Qed.

Lemma demo_region_512 : region demo_ring 512 [demo_item 66; demo_item 67] 768.
Proof.
  apply region_cons; [apply demo_item_ok|done|vm_compute; done|reflexivity|].
  change (512 + zlen (demo_item 66)) with 640.
  apply region_cons; [apply demo_item_ok|done|vm_compute; done|reflexivity|].
  change (640 + zlen (demo_item 67)) with 768. constructor. by vm_compute.
Qed.

(** The tail of the ring is empty. *)
Lemma demo_tail : no_item_from demo_ring 768 1024.
Proof.
  intros k it Hk Hv. pose proof (valid_at_bounds _ _ _ _ Hv). unfold LOG_ITEM_LEN_ALIGN in *.
  assert (k = 0 ∨ k = 1 ∨ k = 2) as Hc by lia.
  destruct Hv as [E Hc']. destruct Hc as [->|[->| ->]]; vm_compute in E; injection E as <-;
    by vm_compute in Hc'.
Qed.

Lemma demo_pending : pending (demo_log 128 1) (demo_reader 512 0)
  ([demo_item 66; demo_item 67] ++ [demo_item 65]).
Proof.
  exists [demo_item 66; demo_item 67], [demo_item 65], 768.
  split; [done|]. split; [apply demo_region_512|]. split; [done|].
  split; [apply demo_tail|apply demo_region_0].
Qed.

Lemma demo_ready : log_ready (demo_tlogger 128 1 512 0) (demo_log 128 1) (demo_reader 512 0).
Proof. split; [by apply demo_ring_ok|by vm_compute..]. Qed.

Lemma flat_writable buf n : writable (CM := flat_client) buf n.
Proof. by intros m d bs _ _. Qed.

(** The TEE goes round during the read, and changes the text of the item at 512
    after the reader has checked it. *)
Definition busy_ring (p : Z) : list Z :=
  if p =? 512 then splice demo_ring 576 [88; 88; 88; 88] else demo_ring.

Definition busy_tee (lb : log_buffer) : log_view * log_buffer :=
  (LogView Z.of_nat (λ _, 1024) (RingView (λ _, demo_ring) busy_ring) (still_ring demo_ring),
   demo_log 0 7).

Lemma busy_view_ok lb : view_ok (busy_tee lb).1 1024.
Proof.
  split; simpl; [done| |by apply still_ring_steady].
  split; simpl; [done| |].
  - intros q. unfold busy_ring. by destruct (q =? 512).
  - intros q lim it [Hl _]. unfold busy_ring. destruct (Z.eqb_spec q 512) as [->|].
    + apply load_buffer_len_item in Hl. rewrite <- Hl. vm_compute. reflexivity.
    + by apply load_buffer_len_item.
Qed.


Lemma tlogger_drains_witness :
  ∃ n s' r', (n ≤ 3)%nat ∧
    drain (CM := flat_client) n (demo_tlogger 128 1 512 0) ∅ 400 4096 1024
      = Ret (s', demo_item 66 ++ demo_item 67 ++ demo_item 65) ∧
    opened s' 400 r' 200 (demo_log 128 1) ∧ pending (demo_log 128 1) r' [].
Proof.
  destruct (tlogger_drains (CM := flat_client) (demo_tlogger 128 1 512 0) ∅ 400
    (demo_reader 512 0) 200 (demo_log 128 1) ([demo_item 66; demo_item 67] ++ [demo_item 65])
    4096 1024) as (n & s' & r' & Hn & E & Ho & Hp).
  - apply demo_opened.
  - apply demo_ready.
  - apply demo_pending.
  - lia.
  - lia.
  - apply flat_writable.
  - exists n, s', r'. split; [exact Hn|]. split; [|split; [exact Ho|exact Hp]].
    rewrite E. reflexivity.
Defined.

(** A reader at 128 when the TEE has come round to 128 again. *)
Definition demo_full_ring : list Z := demo_item 65 ++ demo_item 66 ++ replicate 768 0.

Definition demo_full_log : log_buffer :=
  LogBuffer (LogFlag 128 1 0 1024 (replicate 4 86 ++ replicate 152 0)) demo_full_ring.

Definition demo_full : tlogger :=
  Tlogger {[100 := TloggerLog 200 7 300 [400]]} {[400 := demo_reader 128 0]}
    {[200 := demo_full_log]} [100] 100 200 (LOG_BUFFER_SIZE + 1024) 1 0 0.

Lemma no_items_compute b p lim (n : nat) :
  lim < p + 64 * Z.of_nat n + 128 →
  forallb (λ k, match load_item b (p + 64 * Z.of_nat k) with
                | Ret it => negb (check_log_item_validite it
                              (Z.min LOG_ITEM_MAX_LEN (lim - (p + 64 * Z.of_nat k))))
                | Fault => true end) (seq 0 n) = true →
  no_item_from b p lim.
Proof.
  intros Hl Hf k it Hk Hv. pose proof (valid_at_bounds _ _ _ _ Hv). unfold LOG_ITEM_LEN_ALIGN in *.
  rewrite forallb_forall in Hf. specialize (Hf (Z.to_nat k)).
  rewrite Z2Nat.id in Hf by done. destruct Hv as [E Hc]. rewrite E, Hc in Hf.
  discriminate Hf. apply in_seq. lia.
Qed.

Lemma demo_full_pending :
  pending demo_full_log (demo_reader 128 0) ([demo_item 66] ++ [demo_item 65]).
Proof.
  exists [demo_item 66], [demo_item 65], 256. split; [done|]. split.
  { apply region_cons; [apply demo_item_ok|done|vm_compute; done|reflexivity|].
    change (r_off _ + zlen (demo_item 66)) with 256. constructor. by vm_compute. }
  split; [done|]. split.
  - apply (no_items_compute _ _ _ 12); [done|reflexivity].
  - apply region_cons; [apply demo_item_ok|done|vm_compute; done|reflexivity|].
    change (0 + zlen (demo_item 65)) with 128. constructor. by vm_compute.
Qed.

Lemma tlogger_poll_misses_lap_witness :
  process_tlogger_poll demo_full (Some 400) = Ret (Z.lor POLLOUT POLLWRNORM) ∧
  ∃ s' m' n, process_tlogger_read (CM := flat_client) idle demo_full ∅ (Some 400) 4096 1024
    = Ret (s', m', n) ∧ 0 < n ≤ 1024.
Proof.
  apply (tlogger_poll_misses_lap (CM := flat_client) demo_full ∅ 400 (demo_reader 128 0) 200
    demo_full_log ([demo_item 66] ++ [demo_item 65])).
  - split; try done. by exists (TloggerLog 200 7 300 [400]).
  - split; [split; by vm_compute|by vm_compute..].
  - apply demo_full_pending.
  - discriminate.
  - reflexivity.
  - discriminate.
  - lia.
  - lia.
  - apply flat_writable.
Defined.

(** A file is what has been written to it. *)
#[local] Instance plain_file : LogFile (list Z) := {|
  filp_open f := Some [];
  sys_chown f _ _ := (f, 0);
  vfs_write f bytes := (f ++ bytes, zlen bytes);
  filp_close f := f
|}.

Lemma tlogger_archive_complete_witness :
  tlogger_store_msg (SB := bounds_buf)
    (Tlogger {[100 := TloggerLog 200 7 300 []]} ∅ {[200 := demo_full_log]} [100] 100 200
       (LOG_BUFFER_SIZE + 1024) 1 0 0) [] true 20 4096
  = Ret (replicate 4 86 ++ replicate 60 65 ++ replicate 60 66, 0).
Proof.
  rewrite (tlogger_archive_complete (SB := bounds_buf) _ _ [] 20 4096 demo_full_log (replicate 4 86)
    (replicate 151 0) [demo_item 65; demo_item 66] 256).
  - reflexivity.
  - split; try done. by exists (TloggerLog 200 7 300 []).
  - reflexivity.
  - intros x [-> _]%elem_of_replicate. done.
  - apply region_cons; [apply demo_item_ok|done|vm_compute; done|reflexivity|].
    change (0 + zlen (demo_item 65)) with 128.
    apply region_cons; [apply demo_item_ok|done|vm_compute; done|reflexivity|].
    change (128 + zlen (demo_item 66)) with 256. constructor. by vm_compute.
  - apply (no_items_compute _ _ _ 16); [done|reflexivity].
  - done.
  - done.
  - done.
  - reflexivity.
Defined.

Lemma register_device_failure_dangles_witness :
  (register_device (Tlogger ∅ ∅ ∅ [] 0 0 0 0 0 0) 200 100 300 (- ENOMEM, 255)).2 = - ENOMEM ∧
  exit_tlogger_service (register_device (Tlogger ∅ ∅ ∅ [] 0 0 0 0 0 0) 200 100 300
    (- ENOMEM, 255)).1 = Fault.
Proof. apply register_device_failure_dangles; done. Defined.

(** The limits of the ring are checked on a copy of its head, but the parse
    takes [max_len] from the shared head again: when the TEE raises it in
    between, the same read that was harmless leaves the log memory. *)
Theorem tlogger_read_double_fetch :
  let raise lb := (LogView (λ _, write_loops (flag lb)) (λ _, 4096) (still_ring (buffer_start lb))
                     (still_ring (buffer_start lb)), lb) in
  (∃ s' m', process_tlogger_read (CM := flat_client) idle (demo_tlogger 0 1 768 0) ∅ (Some 400)
     4096 1024 = Ret (s', m', LOG_READ_STATUS_ERROR)) ∧
  process_tlogger_read (CM := flat_client) raise (demo_tlogger 0 1 768 0) ∅ (Some 400)
    4096 1024 = Fault.
Proof. split; [eexists _, _|]; vm_compute; reflexivity. Qed.

(** [check_log_item_validite] has accepted the item at 512; when the TEE then
    raises its [buffer_len] to 960, the copy goes beyond the end of the ring. *)
Lemma item_length_double_fetch :
  let longer lb := (LogView (λ _, write_loops (flag lb)) (λ _, max_len (flag lb))
                      (RingView (λ _, buffer_start lb)
                         (λ _, splice (buffer_start lb) (512 + 42) (le_bytes 2 960)))
                      (still_ring (buffer_start lb)), lb) in
  (∃ s' m', process_tlogger_read (CM := flat_client) idle (demo_tlogger 128 1 512 0) ∅ (Some 400)
     4096 1024 = Ret (s', m', 384)) ∧
  process_tlogger_read (CM := flat_client) longer (demo_tlogger 128 1 512 0) ∅ (Some 400)
    4096 1024 = Fault.
Proof. split; [eexists _, _|]; vm_compute; reflexivity. Qed.

(** An item of 96 bytes, a multiple of 32 but not of 64: the reader passes over
    it and reports that there is nothing to read. *)
Definition item_of_96 : list Z :=
  replicate 32 0 ++ le_bytes 2 LOG_ITEM_MAGIC ++ replicate 6 0 ++ le_bytes 2 90 ++ le_bytes 2 96
  ++ replicate 20 0 ++ replicate 96 65.

Lemma misaligned_item_skipped :
  let lb := LogBuffer (LogFlag 160 0 0 1024 []) (item_of_96 ++ replicate 864 0) in
  let s := Tlogger {[100 := TloggerLog 200 7 300 [400]]} {[400 := demo_reader 0 0]} {[200 := lb]}
             [100] 100 200 (LOG_BUFFER_SIZE + 1024) 1 0 0 in
  ∃ s', process_tlogger_read (CM := flat_client) idle s ∅ (Some 400) 4096 1024
    = Ret (s', ∅, LOG_READ_STATUS_ERROR).
Proof. eexists. vm_compute. reflexivity. Qed.
