(* ===== verification/Agent.v ===== *)
(** * Agents (core/agent.c, core/agent.h)

    An agent serves requests of the TEE in the normal world.  For each one the
    driver keeps an event node with a reference count, a buffer in the mailbox
    shared with the TEE and the flags of the hand-shake between the caller that
    carries a request out of the TEE and the agent.  [agent_control] is the
    list of nodes with the heap they live in; a node is its address, 0 is NULL.
    The spin lock makes each operation on the list atomic. *)

From stdpp Require Import base gmap list.
From Stdlib Require Import ZArith Lia.
From S2P Require Import Prelude KernelApi TeeTypes Buffers Mailbox MailboxClaims SessReg.
From S2P Require Import CallTypes GpParams GpCall Tlogger TloggerSys.

(** ** Data *)

Definition HASH_FILE_MAX_SIZE : Z := 16 * 1024.
Definition AGENT_MAX : Z := 32.
Definition MAX_PATH_SIZE : Z := 512.
Definition SYSTEM_UID : Z := 1000.
Definition AGENT_FS_ID : Z := 0x46536673.
Definition AGENT_MISC_ID : Z := 0x4d495343.
Definition AGENT_SOCKET_ID : Z := 0x69e85664.
Definition SECFILE_LOAD_AGENT_ID : Z := 0x4c4f4144.

(** [enum agent_state_type], [enum agent_status] *)
Definition AGENT_CRASHED : Z := 0.
Definition AGENT_REGISTERED : Z := 1.
Definition AGENT_READY : Z := 2.
Definition AGENT_ALIVE : Z := 1.
Definition AGENT_DEAD : Z := 0.

Record smc_event_data := EventData {
  ev_agent_id : Z;
  agent_ready : Z;
  ret_flag : Z;
  ev_owner : Z;
  agent_buff_kernel : Z;
  agent_buff_user : Z;
  agent_buff_size : Z;
  ev_usage : Z;
  ca_run : Z
}.

Record agent_control := AgentControl {
  ev_heap : gmap Z smc_event_data;
  agent_list : list Z
}.

Record ca_info := CaInfo { ca_path : list Z; ca_uid : Z; ca_agent_id : Z }.

(** ** Field updates *)

Definition ev_with_usage (d : smc_event_data) (u : Z) : smc_event_data :=
  EventData (ev_agent_id d) (agent_ready d) (ret_flag d) (ev_owner d) (agent_buff_kernel d)
    (agent_buff_user d) (agent_buff_size d) u (ca_run d).

Definition ev_with_ready (d : smc_event_data) (x : Z) : smc_event_data :=
  EventData (ev_agent_id d) x (ret_flag d) (ev_owner d) (agent_buff_kernel d)
    (agent_buff_user d) (agent_buff_size d) (ev_usage d) (ca_run d).

Definition ev_with_flags (d : smc_event_data) (rf run : Z) : smc_event_data :=
  EventData (ev_agent_id d) (agent_ready d) rf (ev_owner d) (agent_buff_kernel d)
    (agent_buff_user d) (agent_buff_size d) (ev_usage d) run.

Definition ev_with_owner (d : smc_event_data) (x : Z) : smc_event_data :=
  EventData (ev_agent_id d) (agent_ready d) (ret_flag d) x (agent_buff_kernel d)
    (agent_buff_user d) (agent_buff_size d) (ev_usage d) (ca_run d).

Definition ev_with_buffers (d : smc_event_data) (k u : Z) : smc_event_data :=
  EventData (ev_agent_id d) (agent_ready d) (ret_flag d) (ev_owner d) k u
    (agent_buff_size d) (ev_usage d) (ca_run d).

Definition set_ev (A : agent_control) (p : Z) (d : smc_event_data) : agent_control :=
  AgentControl (<[p := d]> (ev_heap A)) (agent_list A).

Definition free_ev (A : agent_control) (p : Z) : agent_control :=
  AgentControl (delete p (ev_heap A)) (agent_list A).

(** ** References *)

Definition get_agent_event (A : agent_control) (p : Z) : outcome agent_control :=
  if p =? 0 then Ret A
  else
    d ← at_index (ev_heap A) p;
    Ret (set_ev A p (ev_with_usage d (atomic_inc (ev_usage d)))).

Definition put_agent_event (A : agent_control) (p : Z) : outcome agent_control :=
  if p =? 0 then Ret A
  else
    d ← at_index (ev_heap A) p;
    if atomic_dec (ev_usage d) =? 0 then Ret (free_ev A p)
    else Ret (set_ev A p (ev_with_usage d (atomic_dec (ev_usage d)))).

(** The first node of the list that satisfies [q]; 0 if there is none. *)
Fixpoint find_node (A : agent_control) (q : smc_event_data → bool) (l : list Z) : outcome Z :=
  match l with
  | [] => Ret 0
  | p :: l =>
      d ← at_index (ev_heap A) p;
      if q d then Ret p else find_node A q l
  end.

Definition has_id (agent_id : Z) (d : smc_event_data) : bool := ev_agent_id d =? agent_id.
Definition has_owner (dev_file : Z) (d : smc_event_data) : bool := ev_owner d =? dev_file.

Definition find_event_control (A : agent_control) (agent_id : Z)
    : outcome (agent_control * Z) :=
  p ← find_node A (has_id agent_id) (agent_list A);
  A ← get_agent_event A p;
  Ret (A, p).

(** ** The caller's credentials *)

(** The current task: [task_cred] is [None] when the credentials cannot be had;
    [get_task_mm] and [get_mm_exe_file] say whether the kernel gives a pointer,
    [mm_exe_file] whether [mm->exe_file] is one when it is read; [d_path] is
    [None] for an error pointer; [kmalloc_path] is the outcome of the
    allocation of the path buffer. *)
Class Caller := {
  task_cred : option Z;
  get_task_mm : bool;
  mm_exe_file : bool;
  get_mm_exe_file : bool;
  d_path : option (list Z);
  kmalloc_path : bool
}.

(** The references taken on the task's [mm], on the executable's file and on
    its path. *)
Record proc_refs := ProcRefs { mm_users : Z; file_refs : Z; path_refs : Z }.

Definition add_mm (p : proc_refs) (n : Z) : proc_refs :=
  ProcRefs (mm_users p + n) (file_refs p) (path_refs p).
Definition add_file (p : proc_refs) (n : Z) : proc_refs :=
  ProcRefs (mm_users p) (file_refs p + n) (path_refs p).
Definition add_path (p : proc_refs) (n : Z) : proc_refs :=
  ProcRefs (mm_users p) (file_refs p) (path_refs p + n).

Section Access.
Context {CR : Caller}.

(** [mm] says whether the pointer is one; its reference is dropped on the
    second error. *)
Definition check_mm_struct (p : proc_refs) (mm : bool) : proc_refs * Z :=
  if negb mm then (p, - EINVAL)
  else if negb mm_exe_file then (add_mm p (-1), - EINVAL)
  else (p, 0).

(** [path] is the caller's buffer; [None] for a null or an error pointer. *)
Definition get_proc_dpath (p : proc_refs) (path path_len : Z) : proc_refs * option (list Z) :=
  if (path =? 0) || negb (path_len =? MAX_PATH_SIZE) then (p, None)
  else
    let p := if get_task_mm then add_mm p 1 else p in
    let '(p, ret) := check_mm_struct p get_task_mm in
    if nonzero ret then (p, None)
    else if negb get_mm_exe_file then (add_mm p (-1), None)
    else
      let p := add_path (add_file p 1) 1 in
      let dpath := d_path in
      let p := add_mm (add_file (add_path p (-1)) (-1)) (-1) in
      (p, dpath).

(** Every reference taken is given back, on all paths. *)
Lemma get_proc_dpath_balanced p path n : (get_proc_dpath p path n).1 = p.
Proof.
  assert (∀ x : Z, x + 1 + - 1 = x) as E by lia.
  destruct p as [a b c]. unfold get_proc_dpath, check_mm_struct, add_mm, add_file, add_path.
  destruct (_ || _), get_task_mm, mm_exe_file, get_mm_exe_file; simpl; by rewrite ?E.
Qed.

(** The path as a caller with a buffer of its own sees it. *)
Definition proc_dpath : option (list Z) :=
  (get_proc_dpath (ProcRefs 0 0 0) 1 MAX_PATH_SIZE).2.

Definition tc_ns_get_uid : Z :=
  match task_cred with None => u32 (-1) | Some uid => uid end.

(** The status and the path with the uid. *)
Definition get_ca_path_and_uid : Z * ca_info :=
  if negb kmalloc_path then (- ENOMEM, CaInfo [] 0 0)
  else
    match proc_dpath with
    | None => (- ENOMEM, CaInfo [] 0 0)
    | Some path =>
        let message_size := if zlen path <=? MAX_PATH_SIZE - 1 then zlen path else -1 in
        if message_size <=? 0 then (- EFAULT, CaInfo [] 0 0)
        else
          match task_cred with
          | None => (- EACCES, CaInfo path 0 0)
          | Some uid => (0, CaInfo path uid 0)
          end
    end.

(** The table [g_allowed_ext_agent_ca], empty in the repository and filled in
    by a product. *)
Context (allowed : list ca_info).

Fixpoint is_allowed_loop (ca : ca_info) (check_agent_id : bool) (l : list ca_info) : Z :=
  match l with
  | [] => - EACCES
  | t :: l =>
      if bool_decide (ca_path ca = ca_path t) && (ca_uid ca =? ca_uid t)
         && (negb check_agent_id || (ca_agent_id ca =? ca_agent_id t))
      then 0 else is_allowed_loop ca check_agent_id l
  end.

Definition is_allowed_agent_ca (ca : ca_info) (check_agent_id : bool) : Z :=
  is_allowed_loop ca check_agent_id allowed.

Definition check_ext_agent_access (agent_id : Z) : Z :=
  let '(ret, ca) := get_ca_path_and_uid in
  if nonzero ret then ret
  else is_allowed_agent_ca (CaInfo (ca_path ca) (ca_uid ca) agent_id) true.

(** [tc_ns_get_uid() && check_ext_agent_access(agent_id)] *)
Definition fake_agent (agent_id : Z) : bool :=
  nonzero tc_ns_get_uid && nonzero (check_ext_agent_access agent_id).

Fixpoint third_party_loop (agent_id : Z) (l : list ca_info) : bool :=
  match l with
  | [] => false
  | t :: l => (ca_agent_id t =? agent_id) || third_party_loop agent_id l
  end.

Definition is_third_party_agent (agent_id : Z) : bool := third_party_loop agent_id allowed.

Definition is_built_in_agent (agent_id : Z) : bool :=
  (agent_id =? AGENT_FS_ID) || (agent_id =? AGENT_MISC_ID) || (agent_id =? AGENT_SOCKET_ID)
  || (agent_id =? SECFILE_LOAD_AGENT_ID).

Definition is_valid_agent (agent_id buffer_size : Z) (user_agent : bool) : bool :=
  if fake_agent agent_id then false
  else if user_agent && (SZ_4K <? buffer_size) then false
  else true.

Definition check_for_unregister_agent (agent_id : Z) : Z :=
  if nonzero tc_ns_get_uid && negb (tc_ns_get_uid =? SYSTEM_UID) then - EINVAL
  else if is_built_in_agent agent_id then - EINVAL
  else 0.

(** ** The hand-shake *)

Definition process_send_event_response (A : agent_control) (p : Z) : outcome agent_control :=
  d ← at_index (ev_heap A) p;
  if ret_flag d =? 0 then Ret A
  else Ret (set_ev A p (ev_with_flags d 0 1)).

Definition check_response_access (A : agent_control) (agent_id : Z)
    : outcome (agent_control * Z) :=
  '(A, p) ← find_event_control A agent_id;
  if p =? 0 then Ret (A, 0)
  else if fake_agent agent_id then A ← put_agent_event A p; Ret (A, 0)
  else Ret (A, p).

Definition tc_ns_send_event_response (A : agent_control) (agent_id : Z)
    : outcome (agent_control * Z) :=
  '(A, p) ← check_response_access A agent_id;
  if p =? 0 then Ret (A, - EINVAL)
  else
    A ← process_send_event_response A p;
    A ← put_agent_event A p;
    Ret (A, 0).

Definition send_event_response (A : agent_control) (agent_id : Z) : outcome agent_control :=
  '(A, p) ← find_event_control A agent_id;
  if p =? 0 then Ret A
  else
    d ← at_index (ev_heap A) p;
    A ← process_send_event_response (set_ev A p (ev_with_ready d AGENT_CRASHED)) p;
    put_agent_event A p.

Definition send_event_response_single (A : agent_control) (dev_file : Z)
    : outcome agent_control :=
  if dev_file =? 0 then Ret A
  else
    p ← find_node A (has_owner dev_file) (agent_list A);
    agent_id ← (if p =? 0 then Ret 0
                else d ← at_index (ev_heap A) p; Ret (ev_agent_id d));
    send_event_response A agent_id.

(** How one sleep of a caller ends: the flag was seen, a signal or the freezer
    interrupted it ([sig] tells whether a signal is pending afterwards), or the
    timeout passed ([killed]: a SIGKILL is pending).  The freezable sleep has no
    timeout and the other one no interruption. *)
Inductive wait_end := WaitSeen | WaitInterrupted (sig : bool) | WaitTimeout (killed : bool).

(** The status and whether [ret_flag] is cleared; [None] while still asleep at
    the end of the list. *)
Fixpoint wait_agent_response (evs : list wait_end) (need_freeze sig_pending : bool)
    : option (Z * bool) :=
  match evs with
  | [] => None
  | ev :: evs =>
      if need_freeze && negb sig_pending then
        match ev with
        | WaitSeen => Some (0, false)
        | WaitInterrupted sig => wait_agent_response evs need_freeze sig
        | WaitTimeout _ => wait_agent_response evs need_freeze sig_pending
        end
      else
        match ev with
        | WaitSeen => Some (0, false)
        | WaitTimeout true => Some (- EFAULT, true)
        | _ => wait_agent_response evs need_freeze sig_pending
        end
  end.

(** [sleep] is what other tasks do to the nodes during the wait, with the ends
    of the sleeps. *)
Definition agent_process_work (sleep : agent_control → agent_control * list wait_end)
    (need_freeze sig_pending : bool) (A : agent_control) (smc_cmd : option tc_ns_smc_cmd)
    (agent_id : Z) : outcome (option (agent_control * Z)) :=
  match smc_cmd with
  | None => Ret (Some (A, - EINVAL))
  | Some _ =>
      '(A, p) ← find_event_control A agent_id;
      if p =? 0 then Ret (Some (A, - EINVAL))
      else
        d ← at_index (ev_heap A) p;
        if agent_ready d =? AGENT_CRASHED then
          A ← put_agent_event A p; Ret (Some (A, - EFAULT))
        else
          let A := set_ev A p (ev_with_flags d 1 (ca_run d)) in
          let '(A, evs) := sleep A in
          match wait_agent_response evs need_freeze sig_pending with
          | None => Ret None
          | Some (ret, clear) =>
              d ← at_index (ev_heap A) p;
              let A := set_ev A p (ev_with_flags d (if clear then 0 else ret_flag d) 0) in
              A ← put_agent_event A p;
              Ret (Some (A, ret))
          end
  end.

Definition is_agent_alive (A : agent_control) (agent_id : Z) : outcome (agent_control * Z) :=
  '(A, p) ← find_event_control A agent_id;
  if p =? 0 then Ret (A, AGENT_DEAD)
  else A ← put_agent_event A p; Ret (A, AGENT_ALIVE).

(** [sleep] as above, with the status of [wait_event_interruptible]. *)
Definition tc_ns_wait_event (sleep : agent_control → agent_control * Z) (A : agent_control)
    (agent_id : Z) : outcome (agent_control * Z) :=
  if fake_agent agent_id then Ret (A, - EPERM)
  else
    '(A, p) ← find_event_control A agent_id;
    if p =? 0 then Ret (A, - EINVAL)
    else
      d ← at_index (ev_heap A) p;
      let '(A, ret) := sleep (set_ev A p (ev_with_ready d AGENT_READY)) in
      A ← put_agent_event A p;
      Ret (A, ret).

(** ** Agents of a device file *)

Definition is_system_agent (A : agent_control) (dev_file : Z) : outcome bool :=
  if dev_file =? 0 then Ret false
  else p ← find_node A (has_owner dev_file) (agent_list A); Ret (nonzero p).

(** The ids of the agents [dev_file] owns, at most [AGENT_MAX]. *)
Fixpoint owned_ids (A : agent_control) (dev_file : Z) (room : nat) (l : list Z)
    : outcome (list Z) :=
  match l with
  | [] => Ret []
  | p :: l =>
      d ← at_index (ev_heap A) p;
      match room with
      | S room' =>
          if has_owner dev_file d
          then ids ← owned_ids A dev_file room' l; Ret (ev_agent_id d :: ids)
          else owned_ids A dev_file room l
      | O => owned_ids A dev_file O l
      end
  end.

Fixpoint respond_all (A : agent_control) (ids : list Z) : outcome agent_control :=
  match ids with
  | [] => Ret A
  | i :: ids =>
      A ← (if nonzero i then send_event_response A i else Ret A);
      respond_all A ids
  end.

Definition send_crashed_event_response_all (A : agent_control) (dev_file : Z)
    : outcome agent_control :=
  if dev_file =? 0 then Ret A
  else
    ids ← owned_ids A dev_file (Z.to_nat AGENT_MAX) (agent_list A);
    respond_all A ids.

Definition tee_agent_clear_dev_owner (A : agent_control) (dev_file : Z)
    : outcome agent_control :=
  p ← find_node A (has_owner dev_file) (agent_list A);
  if p =? 0 then Ret A
  else d ← at_index (ev_heap A) p; Ret (set_ev A p (ev_with_owner d 0)).

End Access.
