(* ===== verification/AgentReg.v ===== *)
(** * Registration of agents (core/agent.c)

    [tc_ns_register_agent] and [tc_ns_unregister_agent] with the mailbox buffer
    an agent shares with the TEE, the commands of the agent daemon, and the
    agents that run in the kernel. *)

From stdpp Require Import base gmap list.
From Stdlib Require Import ZArith Lia.
From S2P Require Import Prelude KernelApi TeeTypes Buffers Mailbox MailboxClaims SessReg.
From S2P Require Import CallTypes GpParams GpCall Tlogger TloggerSys Agent.

(** The user mapping of a buffer: [vm_mmap size] is an address or an error
    value, [find_vma] tells whether the area is found, [remap_pfn_range] and
    [vm_munmap] return a status. *)
Class UserMap := {
  vm_mmap : Z → Z;
  find_vma : Z → bool;
  remap_pfn_range : Z → Z → Z → Z;
  vm_munmap : Z → Z → Z
}.

(** [IS_ERR] of an [unsigned long]. *)
Definition is_err (a : Z) : bool := 2 ^ 64 - 4095 <=? a.

(** [ALIGN(x, SZ_4K)] of an [unsigned int]. *)
Definition align_4k_u32 (x : Z) : Z := Z.ldiff (u32 (x + (SZ_4K - 1))) (SZ_4K - 1).

Definition cmd_with_agent (c : tc_ns_smc_cmd) (id : Z) : tc_ns_smc_cmd :=
  SmcCmd (uuid c) (cmd_type c) (cmd_id c) (dev_file_id c) (context_id c) id
    (operation_phys c) (operation_h_phys c) (login_method c) (login_data_phy c)
    (login_data_h_addr c) (login_data_len c) (err_origin c) (ret_val c) (event_nr c)
    (uid c) (ca_pid c) (token_phys c) (token_h_phys c) (pid c) (params_phys c)
    (params_h_phys c) (eventindex c) (started c).

(** [TEE_PARAM_TYPE_VALUE_INPUT | (TEE_PARAM_TYPE_VALUE_INPUT << TEE_PARAM_NUM)] *)
Definition two_value_types : Z :=
  Z.lor TEE_PARAM_TYPE_VALUE_INPUT (Z.shiftl TEE_PARAM_TYPE_VALUE_INPUT TEE_PARAM_NUM).

(** The operation that hands the TEE a buffer and its size. *)
Definition buffer_operation {P : PageMap} (buf size : Z) : tc_ns_operation :=
  value_operation two_value_types
    [(virt_to_phys buf, Z.shiftr (u64 (virt_to_phys buf)) ADDR_TRANS_NUM); (size, 0);
     (0, 0); (0, 0)].

Section Registration.
Context {Env St : Type} {BA : BlockAllocator St} {SMC : SmcChannel Env} {P : PageMap}.
Context {CM : ClientMem} {CR : Caller} {UM : UserMap}.
Context (allowed : list ca_info).

(** ** Nodes *)

Definition init_restart_agent_node (d : smc_event_data) (dev_file : Z) : smc_event_data :=
  EventData (ev_agent_id d) AGENT_REGISTERED 0 dev_file (agent_buff_kernel d)
    (agent_buff_user d) (agent_buff_size d) (ev_usage d) 0.

(** The status, [*find_flag] and [*event_data]. *)
Definition reuse_agent_node (A : agent_control) (agent_id dev_file : Z)
    : outcome (agent_control * Z * bool * Z) :=
  p ← find_node A (has_id agent_id) (agent_list A);
  if p =? 0 then Ret (A, 0, false, 0)
  else
    d ← at_index (ev_heap A) p;
    if negb (agent_ready d =? AGENT_CRASHED) then Ret (A, - EINVAL, false, 0)
    else
      A ← get_agent_event A p;
      d ← at_index (ev_heap A) p;
      Ret (set_ev A p (init_restart_agent_node d dev_file), 0, true, p).

(** The status, the node and the buffer; [kz] is the address [kzalloc]
    returns. *)
Definition create_new_agent_node (s : St) (m : mem) (A : agent_control)
    (dev_file agent_id agent_buff_size kz : Z) : outcome (St * mem * agent_control * Z * Z * Z) :=
  '(s, m, agent_buff) ← ba_alloc s m agent_buff_size MB_FLAG_ZERO;
  if agent_buff =? 0 then Ret (s, m, A, - ENOMEM, 0, 0)
  else if zero_or_null_ptr kz then
    s ← ba_free s agent_buff;
    Ret (s, m, A, - ENOMEM, 0, 0)
  else
    Ret (s, m,
         set_ev A kz (EventData agent_id AGENT_REGISTERED 0 dev_file agent_buff 0
                        agent_buff_size 0 0), 0, kz, agent_buff).

Definition agent_buffer_map (buffer size : Z) : Z :=
  let user_addr := vm_mmap size in
  if is_err user_addr then user_addr
  else if negb (find_vma user_addr) then 2 ^ 64 - EFAULT
  else if nonzero (remap_pfn_range user_addr (Z.shiftr buffer PAGE_SHIFT) size)
  then 2 ^ 64 - EFAULT
  else user_addr.

(** The status and [*buffer]. *)
Definition get_agent_buffer (A : agent_control) (p : Z) (user_agent : bool) (buffer : Z)
    : outcome (agent_control * Z * Z) :=
  d ← at_index (ev_heap A) p;
  if user_agent then
    let user := agent_buffer_map (virt_to_phys (agent_buff_kernel d)) (agent_buff_size d) in
    let A := set_ev A p (ev_with_buffers d (agent_buff_kernel d) user) in
    if is_err user then Ret (A, - EFAULT, buffer) else Ret (A, 0, user)
  else Ret (A, 0, agent_buff_kernel d).

Definition unmap_agent_buffer (A : agent_control) (p : Z) : outcome agent_control :=
  if p =? 0 then Ret A
  else
    d ← at_index (ev_heap A) p;
    if is_err_or_null (agent_buff_user d) then Ret A
    else Ret (set_ev A p (ev_with_buffers d (agent_buff_kernel d) 0)).

Definition add_event_node_to_list (A : agent_control) (p : Z) : outcome agent_control :=
  d ← at_index (ev_heap A) p;
  Ret (AgentControl (<[p := ev_with_usage d 1]> (ev_heap A)) (agent_list A ++ [p])).

Definition free_event_control (s : St) (A : agent_control) (agent_id : Z)
    : outcome (St * agent_control) :=
  p ← find_node A (has_id agent_id) (agent_list A);
  if p =? 0 then Ret (s, A)
  else
    l ← unlink p (agent_list A);
    A ← unmap_agent_buffer (AgentControl (ev_heap A) l) p;
    d ← at_index (ev_heap A) p;
    s ← ba_free s (agent_buff_kernel d);
    A ← put_agent_event (set_ev A p (ev_with_buffers d 0 (agent_buff_user d))) p;
    Ret (s, A).

(** ** Commands to the TEE *)

(** A command pack, one command, and the pack given back: the status is that of
    the command. *)
Definition register_agent_to_tee (e : Env) (s : St) (m : mem) (agent_id agent_buff
    agent_buff_size : Z) : outcome (Env * St * mem * Z) :=
  '(s, m, pack) ← ba_alloc s m SZ_4K MB_FLAG_ZERO;
  if pack =? 0 then Ret (e, s, m, - ENOMEM)
  else
    let op := buffer_operation agent_buff agent_buff_size in
    let cmd := cmd_with_agent (global_cmd GLOBAL_CMD_ID_REGISTER_AGENT pack) agent_id in
    let '(e, m, _, _, r) := tc_ns_smc e m op cmd in
    s ← ba_free s pack;
    Ret (e, s, m, if nonzero r then - EPERM else 0).

(** [buffer] is [None] for a NULL pointer, else the value it points to. *)
Definition tc_ns_register_agent (e : Env) (s : St) (m : mem) (A : agent_control)
    (dev_file agent_id buffer_size : Z) (buffer : option Z) (user_agent : bool) (kz : Z)
    : outcome (Env * St * mem * agent_control * option Z * Z) :=
  match buffer with
  | None => Ret (e, s, m, A, buffer, - EINVAL)
  | Some b =>
      if negb (is_valid_agent allowed agent_id buffer_size user_agent)
      then Ret (e, s, m, A, buffer, - EINVAL)
      else
        let size_align := align_4k_u32 buffer_size in
        '(A, r, find_flag, p) ← reuse_agent_node A agent_id dev_file;
        if nonzero r then Ret (e, s, m, A, buffer, - EINVAL)
        else if (find_flag : bool) then
          '(A, r, b) ← get_agent_buffer A p user_agent b;
          A ← put_agent_event A p;
          Ret (e, s, m, A, Some b, if nonzero r then - EINVAL else 0)
        else
          '(s, m, A, ret, p, agent_buff) ←
            create_new_agent_node s m A dev_file agent_id size_align kz;
          if nonzero ret then Ret (e, s, m, A, buffer, ret)
          else
            '(A, r, b) ← get_agent_buffer A p user_agent b;
            if nonzero r then
              (* release_rsrc, with [ret] as [create_new_agent_node] left it *)
              s ← ba_free s agent_buff;
              Ret (e, s, m, free_ev A p, Some b, ret)
            else
              '(e, s, m, ret) ← register_agent_to_tee e s m agent_id agent_buff size_align;
              if nonzero ret then
                A ← unmap_agent_buffer A p;
                s ← ba_free s agent_buff;
                Ret (e, s, m, free_ev A p, Some b, ret)
              else
                A ← add_event_node_to_list A p;
                Ret (e, s, m, A, Some b, 0)
  end.

Definition tc_ns_unregister_agent (e : Env) (s : St) (m : mem) (A : agent_control)
    (agent_id : Z) : outcome (Env * St * mem * agent_control * Z) :=
  if nonzero (check_for_unregister_agent agent_id) then Ret (e, s, m, A, - EINVAL)
  else if negb (is_third_party_agent allowed agent_id) then Ret (e, s, m, A, - EACCES)
  else
    '(A, p) ← find_event_control A agent_id;
    if p =? 0 then Ret (e, s, m, A, - EINVAL)
    else
      d ← at_index (ev_heap A) p;
      if agent_buff_kernel d =? 0 then Ret (e, s, m, A, - EINVAL)
      else
        '(s, m, pack) ← ba_alloc s m SZ_4K MB_FLAG_ZERO;
        if pack =? 0 then A ← put_agent_event A p; Ret (e, s, m, A, - ENOMEM)
        else
          let op := buffer_operation (agent_buff_kernel d) SZ_4K in
          let cmd := cmd_with_agent (global_cmd GLOBAL_CMD_ID_UNREGISTER_AGENT pack) agent_id in
          let '(e, m, _, _, r) := tc_ns_smc e m op cmd in
          '(s, A) ← (if nonzero r then Ret (s, A) else free_event_control s A agent_id);
          A ← put_agent_event A p;
          s ← ba_free s pack;
          Ret (e, s, m, A, if nonzero r then - EPERM else 0).

(** The status and the length word. *)
Definition get_buf_len (m : mem) (inbuf : Z) : Z * Z :=
  let '(left_over, l) := copy_from_user m inbuf 4 in
  let buf_len := u32 (le_value l) in
  if nonzero left_over then (- EFAULT, buf_len)
  else if HASH_FILE_MAX_SIZE <? buf_len then (- EFAULT, buf_len)
  else (0, buf_len).

Definition send_set_smc_cmd (e : Env) (m : mem) (pack id buf_to_tee buf_len : Z)
    : Env * mem * Z :=
  let op := buffer_operation buf_to_tee buf_len in
  let '(e, m, _, _, r) := tc_ns_smc e m op (global_cmd id pack) in
  (e, m, if nonzero r then - EPERM else 0).

Definition tc_ns_set_native_hash (e : Env) (s : St) (m : mem) (arg id : Z)
    : outcome (Env * St * mem * Z) :=
  if arg =? 0 then Ret (e, s, m, - EINVAL)
  else if nonzero tc_ns_get_uid then Ret (e, s, m, - EACCES)
  else
    let '(r, buf_len) := get_buf_len m arg in
    if nonzero r then Ret (e, s, m, - EFAULT)
    else
      '(s, m, buf_to_tee) ← ba_alloc s m buf_len 0;
      if buf_to_tee =? 0 then Ret (e, s, m, - ENOMEM)
      else
        let '(left_over, l) := copy_from_user m arg buf_len in
        let m := store_bytes m buf_to_tee l in
        if nonzero left_over then s ← ba_free s buf_to_tee; Ret (e, s, m, - EFAULT)
        else
          '(s, m, pack) ← ba_alloc s m SZ_4K MB_FLAG_ZERO;
          if pack =? 0 then s ← ba_free s buf_to_tee; Ret (e, s, m, - ENOMEM)
          else
            let '(e, m, ret) := send_set_smc_cmd e m pack id buf_to_tee buf_len in
            s ← ba_free s buf_to_tee;
            s ← ba_free s pack;
            Ret (e, s, m, ret).

Definition tc_ns_late_init (e : Env) (s : St) (m : mem) (arg : Z) : outcome (Env * St * mem * Z) :=
  let index := u32 arg in
  if nonzero tc_ns_get_uid then Ret (e, s, m, - EACCES)
  else
    '(s, m, pack) ← ba_alloc s m SZ_4K MB_FLAG_ZERO;
    if pack =? 0 then Ret (e, s, m, - ENOMEM)
    else
      let op := value_operation TEE_PARAM_TYPE_VALUE_INPUT [(index, 0); (0, 0); (0, 0); (0, 0)] in
      let '(e, m, _, _, r) := tc_ns_smc e m op (global_cmd GLOBAL_CMD_ID_LATE_INIT pack) in
      s ← ba_free s pack;
      Ret (e, s, m, if nonzero r then - EPERM else 0).

(** The seconds and milliseconds travel in [err_origin] and [ret_val]; the
    pack is not used. *)
Definition tc_ns_sync_sys_time (e : Env) (s : St) (m : mem) (tc_ns_time : Z)
    : outcome (Env * St * mem * Z) :=
  if tc_ns_time =? 0 then Ret (e, s, m, - EINVAL)
  else if nonzero tc_ns_get_uid then Ret (e, s, m, - EINVAL)
  else
    let '(left_over, l) := copy_from_user m tc_ns_time 8 in
    if nonzero left_over then Ret (e, s, m, - EFAULT)
    else
      '(s, m, pack) ← ba_alloc s m SZ_4K MB_FLAG_ZERO;
      if pack =? 0 then Ret (e, s, m, - ENOMEM)
      else
        let seconds := le_value (sub_buf l 0 4) in
        let millis := le_value (sub_buf l 4 4) in
        let cmd := SmcCmd (replicate 16 0) CMD_TYPE_GLOBAL GLOBAL_CMD_ID_ADJUST_TIME 0 0 0 0 0
                     0 0 0 0 seconds (s32 millis) 0 0 0 0 0 0 0 0 0 false in
        let '(e, m, _, _, r) := tc_ns_smc e m zero_operation cmd in
        s ← ba_free s pack;
        Ret (e, s, m, if nonzero r then - EPERM else 0).

End Registration.

(** ** Agents in the kernel *)

(** The data of a [struct tee_agent_kernel_ops] and its operations, over the
    state [W] they act on; a NULL operation is [None]. *)
Record kernel_agent_data := KernelAgentData {
  agent_name : bool;
  ka_id : Z;
  ka_buff_size : Z;
  ka_buff : Z;
  ka_thread : Z
}.

Record tee_agent_kernel_ops (W : Type) := KernelOps {
  ka_data : kernel_agent_data;
  tee_agent_init : option (kernel_agent_data → W → outcome (W * kernel_agent_data * Z));
  tee_agent_run : option (kernel_agent_data → W → outcome (W * kernel_agent_data * Z));
  tee_agent_work : option (kernel_agent_data → W → outcome (W * kernel_agent_data * Z));
  tee_agent_stop : option (kernel_agent_data → W → outcome (W * kernel_agent_data * Z));
  tee_agent_exit : option (kernel_agent_data → W → outcome (W * kernel_agent_data * Z));
  tee_agent_crash_work : option (kernel_agent_data → W → outcome (W * kernel_agent_data * Z))
}.
Arguments KernelOps {W}.
Arguments ka_data {W}.
Arguments tee_agent_init {W}.
Arguments tee_agent_run {W}.
Arguments tee_agent_work {W}.
Arguments tee_agent_stop {W}.
Arguments tee_agent_exit {W}.
Arguments tee_agent_crash_work {W}.

Section Kernel.
Context {W : Type}.
(** [g_def_tee_agent_ops.tee_agent_run] and [.tee_agent_stop]. *)
Context (def_tee_agent_run def_tee_agent_stop :
           kernel_agent_data → W → outcome (W * kernel_agent_data * Z)).

Abbreviation kernel_ops := (tee_agent_kernel_ops W).

Definition with_data (o : kernel_ops) (d : kernel_agent_data) : kernel_ops :=
  KernelOps d (tee_agent_init o) (tee_agent_run o) (tee_agent_work o) (tee_agent_stop o)
    (tee_agent_exit o) (tee_agent_crash_work o).

(** [op ? op(agent) : skip], with the current value of [ret] kept by a skip. *)
Definition call_op (op : option (kernel_agent_data → W → outcome (W * kernel_agent_data * Z)))
    (w : W) (o : kernel_ops) (ret : Z) : outcome (W * kernel_ops * Z) :=
  match op with
  | None => Ret (w, o, ret)
  | Some f => '(w, d, ret) ← f (ka_data o) w; Ret (w, with_data o d, ret)
  end.

Definition set_buff_size (o : kernel_ops) : kernel_ops :=
  let d := ka_data o in
  if ka_buff_size d =? 0
  then with_data o (KernelAgentData (agent_name d) (ka_id d) PAGE_SIZE (ka_buff d) (ka_thread d))
  else o.

Definition valid_kernel_agent (o : kernel_ops) : bool :=
  nonzero (ka_id (ka_data o)) && agent_name (ka_data o)
  && match tee_agent_work o with Some _ => true | None => false end.

(** One turn of the loop of [tee_agent_kernel_init], with [ret] as the previous
    turn left it. *)
Definition kernel_init_one (w : W) (o : kernel_ops) (ret : Z) : outcome (W * kernel_ops * Z) :=
  if negb (valid_kernel_agent o) then Ret (w, o, ret)
  else
    '(w, o, ret) ← call_op (tee_agent_init o) w (set_buff_size o) ret;
    if nonzero ret then Ret (w, o, ret)
    else
      let run := match tee_agent_run o with
                 | Some f => Some f | None => Some def_tee_agent_run end in
      '(w, o, ret) ← call_op run w o ret;
      if nonzero ret then
        '(w, o, _) ← call_op (tee_agent_exit o) w o ret; Ret (w, o, ret)
      else Ret (w, o, ret).

Fixpoint kernel_init_loop (w : W) (l : list kernel_ops) (ret : Z)
    : outcome (W * list kernel_ops) :=
  match l with
  | [] => Ret (w, [])
  | o :: l =>
      '(w, o, ret) ← kernel_init_one w o ret;
      '(w, l) ← kernel_init_loop w l ret;
      Ret (w, o :: l)
  end.

Definition tee_agent_kernel_init (w : W) (g_tee_agent_list : list kernel_ops)
    : outcome (W * list kernel_ops * Z) :=
  '(w, l) ← kernel_init_loop w g_tee_agent_list 0; Ret (w, l, 0).

Fixpoint tee_agent_kernel_exit (w : W) (l : list kernel_ops) : outcome (W * list kernel_ops) :=
  match l with
  | [] => Ret (w, [])
  | o :: l =>
      let stop := match tee_agent_stop o with
                  | Some f => Some f | None => Some def_tee_agent_stop end in
      '(w, o, _) ← call_op stop w o 0;
      '(w, o, _) ← call_op (tee_agent_exit o) w o 0;
      '(w, l) ← tee_agent_kernel_exit w l;
      Ret (w, o :: l)
  end.

Fixpoint tee_agent_clear_work (w : W) (l : list kernel_ops) : outcome (W * list kernel_ops) :=
  match l with
  | [] => Ret (w, [])
  | o :: l =>
      '(w, o, _) ← call_op (tee_agent_crash_work o) w o 0;
      '(w, l) ← tee_agent_clear_work w l;
      Ret (w, o :: l)
  end.

(** [None] is a NULL argument. *)
Definition tee_agent_kernel_register (g_tee_agent_list : list kernel_ops)
    (new_agent : option kernel_ops) : list kernel_ops * Z :=
  match new_agent with
  | None => (g_tee_agent_list, - EINVAL)
  | Some o => (g_tee_agent_list ++ [o], 0)
  end.

(** Both lists are made empty first. *)
Definition agent_init (w : W) (A : agent_control) (g_tee_agent_list : list kernel_ops)
    : outcome (W * agent_control * list kernel_ops) :=
  '(w, l, _) ← tee_agent_kernel_init w [];
  Ret (w, AgentControl (ev_heap A) [], l).

Definition agent_exit := tee_agent_kernel_exit.

End Kernel.

(** ** The default operations *)

Section Defaults.
Context {Env St : Type} {BA : BlockAllocator St} {SMC : SmcChannel Env} {P : PageMap}.
Context {CM : ClientMem} {CR : Caller} {UM : UserMap}.
Context (allowed : list ca_info).

Record agent_world := AgentWorld {
  aw_env : Env;
  aw_pool : St;
  aw_mem : mem;
  aw_agents : agent_control
}.

(** [dev] is the address of the local [struct tc_ns_dev_file], [kz] the address
    [kzalloc] returns, [thread] what [kthread_run] returns. *)
Definition def_tee_agent_run (dev kz thread : Z) (d : kernel_agent_data) (w : agent_world)
    : outcome (agent_world * kernel_agent_data * Z) :=
  '(e, s, m, A, b, ret) ←
    tc_ns_register_agent allowed (aw_env w) (aw_pool w) (aw_mem w) (aw_agents w) dev (ka_id d)
      (ka_buff_size d) (Some (ka_buff d)) false kz;
  let d := KernelAgentData (agent_name d) (ka_id d) (ka_buff_size d) (default 0 b) (ka_thread d) in
  let w := AgentWorld e s m A in
  if nonzero ret then Ret (w, d, - EINVAL)
  else if is_err_or_null thread
  then Ret (w, KernelAgentData (agent_name d) (ka_id d) (ka_buff_size d) (ka_buff d) 0,
            s32 (u64 thread))
  else Ret (w, KernelAgentData (agent_name d) (ka_id d) (ka_buff_size d) (ka_buff d) thread, 0).

(** [kthread_stop] only waits for the thread. *)
Definition def_tee_agent_stop (d : kernel_agent_data) (w : agent_world)
    : outcome (agent_world * kernel_agent_data * Z) :=
  '(A, _) ← tc_ns_send_event_response allowed (aw_agents w) (ka_id d);
  '(e, s, m, A, _) ←
    tc_ns_unregister_agent allowed (aw_env w) (aw_pool w) (aw_mem w) A (ka_id d);
  Ret (AgentWorld e s m A, d, 0).

(** The thread of an agent: one turn for each element of [turns], which tells
    whether the thread is asked to stop and how its wait goes. *)
Fixpoint def_tee_agent_work (turns : list (bool * (agent_control → agent_control * Z)))
    (work : option (kernel_agent_data → agent_world → outcome (agent_world * kernel_agent_data * Z)))
    (d : kernel_agent_data) (w : agent_world) (ret : Z)
    : outcome (agent_world * kernel_agent_data * Z) :=
  match turns with
  | [] => Ret (w, d, ret)
  | (stop, sleep) :: turns =>
      if (stop : bool) then Ret (w, d, ret)
      else
        '(A, ret) ← tc_ns_wait_event allowed sleep (aw_agents w) (ka_id d);
        let w := AgentWorld (aw_env w) (aw_pool w) (aw_mem w) A in
        if nonzero ret then Ret (w, d, ret)
        else
          '(w, d, _) ← match work with
                       | None => Ret (w, d, 0)
                       | Some f => f d w
                       end;
          '(A, ret) ← tc_ns_send_event_response allowed (aw_agents w) (ka_id d);
          let w := AgentWorld (aw_env w) (aw_pool w) (aw_mem w) A in
          if nonzero ret then Ret (w, d, ret)
          else def_tee_agent_work turns work d w ret
  end.

End Defaults.
