(* ===== verification/AgentThm.v ===== *)
(** * Agents: invariant and lemmas

    The nodes on the list are allocated, counted and carry distinct ids; each
    owns the mailbox block it shares with the TEE. *)

From stdpp Require Import base gmap list.
From Stdlib Require Import ZArith Lia.
From S2P Require Import Prelude KernelApi TeeTypes Buffers Mailbox MailboxClaims SessReg.
From S2P Require Import SessOk CallTypes GpParams GpCall GpHeld Tlogger TloggerSys Agent AgentReg.

(** ** Sizes *)

Lemma align_4k_u32_le x : 0 ≤ align_4k_u32 x ≤ u32 (x + (SZ_4K - 1)).
Proof.
  unfold align_4k_u32. pose proof (u32_range (x + (SZ_4K - 1))) as Hr.
  set (y := u32 (x + (SZ_4K - 1))) in *. change (SZ_4K - 1) with (Z.ones 12).
  rewrite Z.ldiff_ones_r, Z.shiftl_mul_pow2, Z.shiftr_div_pow2 by lia.
  pose proof (Z.mul_div_le y (2 ^ 12) ltac:(lia)).
  pose proof (Z.div_pos y (2 ^ 12) ltac:(lia) ltac:(lia)). lia.
Qed.

Lemma align_4k_u32_range x : 0 ≤ align_4k_u32 x < 2 ^ 32.
Proof. pose proof (align_4k_u32_le x). pose proof (u32_range (x + (SZ_4K - 1))). lia. Qed.

Lemma align_4k_u32_range64 x : 0 ≤ align_4k_u32 x < 2 ^ 64.
Proof. pose proof (align_4k_u32_range x). lia. Qed.

(** ** The invariant *)

Record node_ok (d : smc_event_data) : Prop := {
  node_usage : 0 < ev_usage d < 2 ^ 31 - 1;
  node_buffer : agent_buff_kernel d ≠ 0
}.

Record agents_ok (A : agent_control) : Prop := {
  ag_nodup : NoDup (agent_list A);
  ag_null : 0 ∉ agent_list A;
  ag_listed p : p ∈ agent_list A → ∃ d, ev_heap A !! p = Some d ∧ node_ok d;
  ag_ids p q d d' :
    p ∈ agent_list A → q ∈ agent_list A → ev_heap A !! p = Some d → ev_heap A !! q = Some d' →
    ev_agent_id d = ev_agent_id d' → p = q
}.

(** The mailbox blocks of the listed agents. *)
Definition buffers (A : agent_control) : list Z :=
  omap (λ p, agent_buff_kernel <$> ev_heap A !! p) (agent_list A).

Lemma omap_ext_in {X Y} (f g : X → option Y) (l : list X) :
  (∀ x, x ∈ l → f x = g x) → omap f l = omap g l.
Proof.
  induction l as [|x l IH]; intros H; [done|]. simpl. rewrite (H x) by left.
  destruct (g x); [f_equal|]; apply IH; intros; apply H; by right.
Qed.

(** ** Updates of one node *)

Lemma set_ev_twice A p d d' : set_ev (set_ev A p d) p d' = set_ev A p d'.
Proof. unfold set_ev. simpl. by rewrite insert_insert_eq. Qed.

Lemma at_set_ev A p d : at_index (ev_heap (set_ev A p d)) p = Ret d.
Proof. apply at_index_Some, lookup_insert_eq. Qed.

Lemma set_ev_id A p d : ev_heap A !! p = Some d → set_ev A p d = A.
Proof. intros. unfold set_ev. rewrite insert_id by done. by destruct A. Qed.

Lemma free_set_ev A p d : ev_heap A !! p = None → free_ev (set_ev A p d) p = A.
Proof.
  intros. unfold free_ev, set_ev. simpl. rewrite delete_insert_id by done. by destruct A.
Qed.

(** An update that keeps what the invariant speaks of. *)
Definition same_node (d d' : smc_event_data) : Prop :=
  ev_agent_id d' = ev_agent_id d ∧ agent_buff_kernel d' = agent_buff_kernel d ∧
  ev_usage d' = ev_usage d.

Lemma set_ev_ok' A p d d' :
  agents_ok A → ev_heap A !! p = Some d → ev_agent_id d' = ev_agent_id d → node_ok d' →
  agents_ok (set_ev A p d').
Proof.
  intros [H1 H2 H3 H4] Hp Ei Hok. split; simpl; try done.
  - intros q Hq. destruct (decide (p = q)) as [->|].
    + rewrite lookup_insert_eq. eauto.
    + rewrite lookup_insert_ne by done. by apply H3.
  - assert (∀ q x, (<[p:=d']> (ev_heap A)) !! q = Some x →
      ∃ y, ev_heap A !! q = Some y ∧ ev_agent_id y = ev_agent_id x) as Hsame.
    { intros q x. destruct (decide (p = q)) as [->|].
      - rewrite lookup_insert_eq. intros [= <-]. eauto.
      - rewrite lookup_insert_ne by done. eauto. }
    intros q q' x x' Hq Hq' (y & Hy & Ey)%Hsame (y' & Hy' & Ey')%Hsame Hid.
    eapply H4; eauto. congruence.
Qed.

Lemma set_ev_ok A p d d' :
  agents_ok A → ev_heap A !! p = Some d → same_node d d' → node_ok d → agents_ok (set_ev A p d').
Proof.
  intros HA Hp (Ei & Eb & Eu) [Hu Hb]. eapply set_ev_ok'; eauto.
  split; [by rewrite Eu|by rewrite Eb].
Qed.

Lemma set_ev_buffers A p d d' :
  ev_heap A !! p = Some d → agent_buff_kernel d' = agent_buff_kernel d →
  buffers (set_ev A p d') = buffers A.
Proof.
  intros Hp Eb. unfold buffers. simpl. apply omap_ext_in. intros q _.
  destruct (decide (p = q)) as [->|].
  - rewrite lookup_insert_eq, Hp. simpl. by rewrite Eb.
  - by rewrite lookup_insert_ne.
Qed.

(** ** Lookups *)

Lemma find_node_cases A q l :
  (∀ p, p ∈ l → is_Some (ev_heap A !! p)) →
  ∃ p, find_node A q l = Ret p ∧
    (p = 0 ∧ (∀ x d, x ∈ l → ev_heap A !! x = Some d → q d = false) ∨
     p ∈ l ∧ ∃ d, ev_heap A !! p = Some d ∧ q d = true).
Proof.
  induction l as [|x l IH]; intros Hl; simpl.
  - exists 0. split; [done|]. left. split; [done|]. intros ? ? ?%not_elem_of_nil. done.
  - destruct (at_index_is_Some (ev_heap A) x) as (d & -> & Hd); [apply Hl; left|]. rewrite ret_bind.
    destruct (q d) eqn:Hq.
    + exists x. split; [done|]. right. split; [left|eauto].
    + destruct IH as (p & -> & Hp); [intros; apply Hl; by right|]. exists p. split; [done|].
      destruct Hp as [[-> Hn]|[Hp Hd']].
      * left. split; [done|]. intros y d' [->|Hy]%elem_of_cons Hd'; [congruence|by eapply Hn].
      * right. split; [by right|done].
Qed.

Lemma find_listed A q :
  agents_ok A →
  ∃ p, find_node A q (agent_list A) = Ret p ∧
    (p = 0 ∧ (∀ x d, x ∈ agent_list A → ev_heap A !! x = Some d → q d = false) ∨
     p ≠ 0 ∧ p ∈ agent_list A ∧ ∃ d, ev_heap A !! p = Some d ∧ node_ok d ∧ q d = true).
Proof.
  intros HA. destruct (find_node_cases A q (agent_list A)) as (p & E & Hp).
  { intros p (d & -> & _)%(ag_listed _ HA). done. }
  exists p. split; [done|]. destruct Hp as [?|[Hl (d & Hd & Hq)]]; [by left|right].
  split_and!; [|done|].
  - intros ->. by apply (ag_null _ HA).
  - destruct (ag_listed _ HA p Hl) as (d' & Hd' & Hok). simplify_eq. eauto.
Qed.

Lemma get_event_ok A p d :
  p ≠ 0 → ev_heap A !! p = Some d → node_ok d →
  get_agent_event A p = Ret (set_ev A p (ev_with_usage d (ev_usage d + 1))).
Proof.
  intros Hp Hd [Hu _]. unfold get_agent_event. rewrite (proj2 (Z.eqb_neq p 0)) by done.
  rewrite (proj2 (at_index_Some _ _ _) Hd), ret_bind. unfold atomic_inc.
  by rewrite s32_small by lia.
Qed.

(** Giving back a reference that was not the last one. *)
Lemma put_event_ok A p d u :
  p ≠ 0 → ev_heap A !! p = Some d → ev_usage d = u + 1 → 0 < u < 2 ^ 31 - 1 →
  put_agent_event A p = Ret (set_ev A p (ev_with_usage d u)).
Proof.
  intros Hp Hd Hu Hr. unfold put_agent_event. rewrite (proj2 (Z.eqb_neq p 0)) by done.
  rewrite (proj2 (at_index_Some _ _ _) Hd), ret_bind. unfold atomic_dec. rewrite Hu.
  rewrite s32_small by lia. replace (u + 1 - 1) with u by lia.
  by rewrite (proj2 (Z.eqb_neq u 0)) by lia.
Qed.

Lemma put_event_last A p d :
  p ≠ 0 → ev_heap A !! p = Some d → ev_usage d = 1 →
  put_agent_event A p = Ret (free_ev A p).
Proof.
  intros Hp Hd Hu. unfold put_agent_event. rewrite (proj2 (Z.eqb_neq p 0)) by done.
  rewrite (proj2 (at_index_Some _ _ _) Hd), ret_bind. by rewrite Hu.
Qed.

(** A lookup takes a reference on a listed node, or finds nothing. *)
Lemma find_event_control_cases A id :
  agents_ok A →
  find_event_control A id = Ret (A, 0) ∧
    (∀ x d, x ∈ agent_list A → ev_heap A !! x = Some d → ev_agent_id d ≠ id) ∨
  ∃ p d, p ≠ 0 ∧ p ∈ agent_list A ∧ ev_heap A !! p = Some d ∧ node_ok d ∧ ev_agent_id d = id ∧
    find_event_control A id = Ret (set_ev A p (ev_with_usage d (ev_usage d + 1)), p).
Proof.
  intros HA. unfold find_event_control.
  destruct (find_listed A (has_id id) HA) as (p & -> & [[-> Hn]|(Hp & Hl & d & Hd & Hok & Hq)]);
    rewrite ret_bind.
  - left. split; [done|]. intros x d Hx Hd E. specialize (Hn x d Hx Hd). unfold has_id in Hn.
    rewrite E, Z.eqb_refl in Hn. done.
  - right. exists p, d. apply Z.eqb_eq in Hq. split_and!; try done.
    by rewrite (get_event_ok A p d Hp Hd Hok), ret_bind.
Qed.
