(* ===== verification/AgentClaims.v ===== *)
(** * Theorems on agents

    Registration and removal keep the table of agents well-formed and give
    back every mailbox block on every path; what the code does when a mapping
    fails; the set-up of kernel agents. *)

From stdpp Require Import base gmap list.
From Stdlib Require Import ZArith Lia.
From S2P Require Import Prelude KernelApi TeeTypes Buffers Mailbox MailboxClaims SessReg.
From S2P Require Import SessOk CallTypes GpParams GpCall GpHeld Tlogger TloggerSys.
From S2P Require Import Agent AgentReg AgentThm.

(** ** Registration *)

Section Registration.
Context {Env St : Type} {BA : BlockAllocator St} {BAL : BlockAllocatorLaws St BA}.
Context {SMC : SmcChannel Env} {P : PageMap} {CM : ClientMem} {CR : Caller} {UM : UserMap}.
Context (allowed : list ca_info).

Lemma register_to_tee_owns e (s : St) m id b n B L :
  owns_plus s B L →
  ∃ e' s' m' r, register_agent_to_tee e s m id b n = Ret (e', s', m', r) ∧ owns_plus s' B L.
Proof.
  intros Ho. unfold register_agent_to_tee.
  destruct (owns_plus_alloc s B L m SZ_4K MB_FLAG_ZERO Ho) as (s1 & m1 & a & -> & H); [done|].
  rewrite ret_bind. destruct H as [(-> & -> & H)|[Ha H]]; [simpl; eauto 10|].
  rewrite (proj2 (Z.eqb_neq a 0)) by done. destruct (tc_ns_smc _ _ _ _) as [[[[e2 m2] ?] ?] r].
  destruct (owns_plus_free _ _ _ _ H) as (s2 & -> & H2). rewrite ret_bind. eauto 10.
Qed.

(** The parts of a registration that work on an unlisted or listed node. *)
Lemma get_agent_buffer_ok A p d user b :
  ev_heap A !! p = Some d →
  ∃ d' r b', get_agent_buffer A p user b = Ret (set_ev A p d', r, b') ∧ same_node d d' ∧
    ev_owner d' = ev_owner d ∧ agent_ready d' = agent_ready d.
Proof.
  intros Hd. unfold get_agent_buffer. rewrite (proj2 (at_index_Some _ _ _) Hd), ret_bind.
  destruct user.
  - cbv zeta. destruct (is_err _); eexists _, _, _; (split; [done|done]).
  - exists d, 0, (agent_buff_kernel d). rewrite set_ev_id by done. done.
Qed.

Lemma unmap_agent_buffer_ok A p d :
  p ≠ 0 → ev_heap A !! p = Some d →
  ∃ d', unmap_agent_buffer A p = Ret (set_ev A p d') ∧ same_node d d'.
Proof.
  intros Hp Hd. unfold unmap_agent_buffer. rewrite (proj2 (Z.eqb_neq p 0)) by done.
  rewrite (proj2 (at_index_Some _ _ _) Hd), ret_bind.
  destruct (is_err_or_null _); [exists d; by rewrite set_ev_id|eexists; split; done].
Qed.

(** What a registration leaves: the invariant, the mailbox blocks of the listed
    agents and nothing else, and no node outside the list. *)
Definition registered (A : agent_control) (L : gset Z) (kz dev id : Z)
    (res : outcome (Env * St * mem * agent_control * option Z * Z)) : Prop :=
  ∃ e' s' m' A' b ret, res = Ret (e', s', m', A', b, ret) ∧
    agents_ok A' ∧ owns_plus s' (buffers A') L ∧
    (∀ p, is_Some (ev_heap A' !! p) → p ∈ agent_list A' ∨ is_Some (ev_heap A !! p)) ∧
    (agent_list A' = agent_list A ∨
     ret = 0 ∧ agent_list A' = agent_list A ++ [kz] ∧
     ∃ d, ev_heap A' !! kz = Some d ∧ ev_agent_id d = id ∧ ev_owner d = dev ∧ ev_usage d = 1 ∧
       agent_ready d = AGENT_REGISTERED).

Lemma registered_same e (s : St) m A L kz dev id b ret :
  agents_ok A → owns_plus s (buffers A) L → registered A L kz dev id (Ret (e, s, m, A, b, ret)).
Proof. intros HA Ho. eexists _, _, _, _, _, _. split_and!; [done..|eauto|by left]. Qed.

(** A crashed agent comes back: its node is reused. *)
Lemma reuse_registered e (s : St) m A L kz dev id p d user b :
  agents_ok A → owns_plus s (buffers A) L → p ≠ 0 → ev_heap A !! p = Some d → node_ok d →
  registered A L kz dev id
    (A ← get_agent_event A p;
     d ← at_index (ev_heap A) p;
     '(A, r, b) ← get_agent_buffer (set_ev A p (init_restart_agent_node d dev)) p user b;
     A ← put_agent_event A p;
     Ret (e, s, m, A, Some b, if nonzero r then - EINVAL else 0)).
Proof.
  intros HA Ho Hp Hd Hok. rewrite (get_event_ok A p d Hp Hd Hok), ret_bind.
  rewrite at_set_ev, ret_bind, set_ev_twice.
  set (d1 := init_restart_agent_node _ _).
  destruct (get_agent_buffer_ok (set_ev A p d1) p d1 user b) as (d2 & r & b' & -> & Hs & _).
  { apply lookup_insert_eq. }
  rewrite ret_bind, set_ev_twice. destruct Hs as (E1 & E2 & E3).
  rewrite (put_event_ok _ p d2 (ev_usage d) Hp); [|apply lookup_insert_eq|by rewrite E3|apply Hok].
  rewrite ret_bind, set_ev_twice.
  assert (same_node d (ev_with_usage d2 (ev_usage d))) as Hs by (by split_and!).
  eexists _, _, _, _, _, _. split; [done|]. split; [by eapply set_ev_ok|].
  split; [by rewrite (set_ev_buffers A p d) by (done || apply Hs)|]. split; [|by left].
  intros q Hq. simpl in *. right. destruct (decide (p = q)) as [->|]; [by rewrite Hd|].
  by rewrite lookup_insert_ne in Hq.
Qed.

(** A new node joins the list. *)
Lemma add_node_ok A p d :
  agents_ok A → ev_heap A !! p = None → p ≠ 0 → agent_buff_kernel d ≠ 0 →
  (∀ x d', x ∈ agent_list A → ev_heap A !! x = Some d' → ev_agent_id d' ≠ ev_agent_id d) →
  ∃ A', add_event_node_to_list (set_ev A p d) p = Ret A' ∧ agents_ok A' ∧
    buffers A' = buffers A ++ [agent_buff_kernel d] ∧ agent_list A' = agent_list A ++ [p] ∧
    ev_heap A' = <[p := ev_with_usage d 1]> (ev_heap A).
Proof.
  intros HA Hp H0 Hb Hid. unfold add_event_node_to_list.
  unfold at_index. cbn [ev_heap set_ev]. rewrite lookup_insert_eq, ret_bind, insert_insert_eq.
  assert (∀ q, q ∈ agent_list A → p ≠ q) as Hne.
  { intros q Hq ->. destruct (ag_listed _ HA q Hq) as (? & E & _). congruence. }
  eexists. split; [done|]. split_and!; [| |done|done].
  - destruct HA as [H1 H2 H3 H4]. split; simpl.
    + apply NoDup_app. split_and!; [done| |apply NoDup_singleton].
      intros q Hq ->%list_elem_of_singleton. by apply (Hne p).
    + rewrite elem_of_app, list_elem_of_singleton. naive_solver.
    + intros q [Hq| ->%list_elem_of_singleton]%elem_of_app.
      * rewrite lookup_insert_ne by (by apply Hne). by apply H3.
      * rewrite lookup_insert_eq. eexists. split; [done|]. by split.
    + intros q q' x x' Hq Hq' Hx Hx' E. revert Hx Hx'.
      apply elem_of_app in Hq as [Hq| ->%list_elem_of_singleton],
        Hq' as [Hq'| ->%list_elem_of_singleton]; rewrite ?lookup_insert_eq;
        rewrite ?(lookup_insert_ne _ p q), ?(lookup_insert_ne _ p q') by (by apply Hne);
        intros Hx Hx'; simplify_eq; [by eapply H4|..|done]; naive_solver.
  - unfold buffers. simpl. rewrite omap_app. f_equal.
    + apply omap_ext_in. intros q Hq. by rewrite lookup_insert_ne by (by apply Hne).
    + simpl. by rewrite lookup_insert_eq.
Qed.

Lemma new_node_registered e (s : St) m A L kz dev id n user b :
  agents_ok A → owns_plus s (buffers A) L → ev_heap A !! kz = None → 0 ≤ n < 2 ^ 64 →
  (∀ x d', x ∈ agent_list A → ev_heap A !! x = Some d' → ev_agent_id d' ≠ id) →
  registered A L kz dev id
    ('(s, m, A, ret, p, agent_buff) ← create_new_agent_node s m A dev id n kz;
     if nonzero ret then Ret (e, s, m, A, Some b, ret)
     else
       '(A, r, b) ← get_agent_buffer A p user b;
       if nonzero r then s ← ba_free s agent_buff; Ret (e, s, m, free_ev A p, Some b, ret)
       else
         '(e, s, m, ret) ← register_agent_to_tee e s m id agent_buff n;
         if nonzero ret then
           A ← unmap_agent_buffer A p;
           s ← ba_free s agent_buff;
           Ret (e, s, m, free_ev A p, Some b, ret)
         else A ← add_event_node_to_list A p; Ret (e, s, m, A, Some b, 0)).
Proof.
  intros HA Ho Hkz Hn Hid. unfold create_new_agent_node.
  destruct (owns_plus_alloc s _ L m n MB_FLAG_ZERO Ho Hn) as (s1 & m1 & a & -> & H).
  rewrite ret_bind. destruct H as [(-> & -> & H)|[Ha H]]; [by apply registered_same|].
  rewrite (proj2 (Z.eqb_neq a 0)) by done.
  destruct (owns_plus_free _ _ _ _ H) as (s2 & E2 & H2).
  unfold zero_or_null_ptr. destruct (Z.leb_spec kz 16) as [|Hk].
  { rewrite E2, !ret_bind. by apply registered_same. }
  rewrite ret_bind. change (nonzero 0) with false. cbv iota. set (d := EventData _ _ _ _ _ _ _ _ _).
  destruct (get_agent_buffer_ok (set_ev A kz d) kz d user b) as (d1 & r & b' & -> & Hs & Eo & Er).
  { apply lookup_insert_eq. }
  rewrite ret_bind, set_ev_twice. destruct (nonzero r).
  { rewrite E2, ret_bind, free_set_ev by done. by apply registered_same. }
  destruct (register_to_tee_owns e s1 m1 id a n _ _ H) as (e3 & s3 & m3 & r3 & -> & H3).
  rewrite ret_bind. destruct (nonzero r3).
  - destruct (unmap_agent_buffer_ok (set_ev A kz d1) kz d1) as (d2 & -> & _);
      [lia|apply lookup_insert_eq|].
    destruct (owns_plus_free _ _ _ _ H3) as (s4 & E4 & H4).
    rewrite ret_bind, set_ev_twice, E4, ret_bind, free_set_ev by done. by apply registered_same.
  - destruct Hs as (Ei & Eb & _).
    destruct (add_node_ok A kz d1 HA Hkz ltac:(lia)) as (A' & -> & HA' & EB & El & Eh).
    { by rewrite Eb. }
    { intros x d' Hx Hd'. rewrite Ei. by apply (Hid x). }
    rewrite ret_bind. eexists _, _, _, _, _, _. split; [done|]. split; [done|].
    split; [rewrite EB, Eb; by rewrite (comm _ (buffers A))|]. split.
    + intros q. rewrite El, Eh. destruct (decide (kz = q)) as [->|Hne].
      * left. apply elem_of_app. right. by apply list_elem_of_singleton.
      * rewrite lookup_insert_ne by done. by right.
    + right. split_and!; [done..|]. rewrite Eh, lookup_insert_eq.
      eexists. split; [done|]. split_and!; done || (simpl; congruence).
Qed.

(** C21. Registering an agent, whatever its id, size, owner and kind, and
    whatever the allocator, the TEE and the user mapping answer, ends without a
    fault, keeps the table of agents well-formed, and leaves the mailbox with
    exactly the buffers of the listed agents on top of what it held for others:
    no block and no node is leaked on an error path.  The list changes only by
    the new node, with the given id and owner. *)
Theorem agent_register_balanced e (s : St) m A L dev id size b user kz :
  agents_ok A → owns_plus s (buffers A) L → ev_heap A !! kz = None →
  registered A L kz dev id
    (tc_ns_register_agent allowed e s m A dev id size (Some b) user kz).
Proof.
  intros HA Ho Hkz. unfold tc_ns_register_agent.
  destruct (is_valid_agent _ _ _ _); cbn [negb]; [|by apply registered_same].
  cbv zeta. unfold reuse_agent_node.
  destruct (find_listed A (has_id id) HA) as (p & -> & [[-> Hn]|(Hp & Hl & d & Hd & Hok & Hq)]);
    rewrite ret_bind.
  - rewrite Z.eqb_refl, ret_bind. change (nonzero 0) with false. cbv iota.
    apply new_node_registered; try done; [apply align_4k_u32_range64|].
    intros x d' Hx Hd' E. specialize (Hn x d' Hx Hd'). unfold has_id in Hn.
    by rewrite E, Z.eqb_refl in Hn.
  - rewrite (proj2 (Z.eqb_neq p 0)) by done.
    rewrite (proj2 (at_index_Some _ _ _) Hd), ret_bind.
    destruct (agent_ready d =? AGENT_CRASHED); simpl negb; cbv iota.
    2:{ rewrite ret_bind. change (nonzero (- EINVAL)) with true. by apply registered_same. }
    pose proof (reuse_registered e s m A L kz dev id p d user b HA Ho Hp Hd Hok) as Hres.
    rewrite (get_event_ok A p d Hp Hd Hok), ret_bind, at_set_ev, ret_bind in Hres.
    rewrite (get_event_ok A p d Hp Hd Hok), ret_bind, at_set_ev, !ret_bind. exact Hres.
Qed.

(** A live agent cannot be registered again. *)
Lemma register_twice_refused e (s : St) m A dev id size b user kz p d :
  agents_ok A → p ∈ agent_list A → ev_heap A !! p = Some d → ev_agent_id d = id →
  agent_ready d ≠ AGENT_CRASHED →
  tc_ns_register_agent allowed e s m A dev id size (Some b) user kz
    = Ret (e, s, m, A, Some b, - EINVAL).
Proof.
  intros HA Hl Hd Hid Hr. unfold tc_ns_register_agent.
  destruct (is_valid_agent _ _ _ _); [|done]. cbn [negb]. cbv zeta. unfold reuse_agent_node.
  destruct (find_listed A (has_id id) HA) as (q & -> & [[-> Hn]|(Hq & Hql & d' & Hd' & _ & Hqid)]);
    rewrite ret_bind.
  - specialize (Hn p d Hl Hd). unfold has_id in Hn. by rewrite Hid, Z.eqb_refl in Hn.
  - rewrite (proj2 (Z.eqb_neq q 0)) by done.
    rewrite (proj2 (at_index_Some _ _ _) Hd'), ret_bind. apply Z.eqb_eq in Hqid.
    assert (p = q) as <- by (eapply (ag_ids _ HA); eauto; congruence).
    assert (d' = d) as -> by congruence. rewrite (proj2 (Z.eqb_neq _ _)) by done. done.
Qed.

(** When the buffer of a new user agent cannot be mapped, everything is given
    back but [tc_ns_register_agent] still returns 0: the caller is told that
    the agent is registered, and no node with its id exists. *)
Theorem register_map_failure_returns_0 e (s : St) m A L dev id size b kz :
  agents_ok A → owns_plus s (buffers A) L → ev_heap A !! kz = None → 16 < kz →
  is_valid_agent allowed id size true = true →
  (∀ x d, x ∈ agent_list A → ev_heap A !! x = Some d → ev_agent_id d ≠ id) →
  (∀ n, is_err (vm_mmap n) = true) →
  (∀ s' m', ba_alloc s m (align_4k_u32 size) MB_FLAG_ZERO ≠ Ret (s', m', 0)) →
  ∃ e' s' m' b', tc_ns_register_agent allowed e s m A dev id size (Some b) true kz
      = Ret (e', s', m', A, b', 0) ∧
    owns_plus s' (buffers A) L ∧ is_agent_alive A id = Ret (A, AGENT_DEAD).
Proof.
  intros HA Ho Hkz Hk Hv Hid Hmap Hal. unfold tc_ns_register_agent. rewrite Hv. cbn [negb].
  cbv zeta. unfold reuse_agent_node.
  assert (∀ q, find_node A (has_id id) (agent_list A) = Ret q → q = 0) as Hz.
  { intros q E. destruct (find_listed A (has_id id) HA)
      as (p & E' & [[-> _]|(_ & Hl & d & Hd & _ & Hq)]); [congruence|].
    apply Z.eqb_eq in Hq. by destruct (Hid p d Hl Hd). }
  destruct (find_listed A (has_id id) HA) as (q & E & _). pose proof (Hz q E) as ->.
  rewrite E, ret_bind, Z.eqb_refl, ret_bind. change (nonzero 0) with false. cbv iota.
  unfold create_new_agent_node.
  destruct (owns_plus_alloc s _ L m (align_4k_u32 size) MB_FLAG_ZERO Ho (align_4k_u32_range64 size))
    as (s1 & m1 & a & Ea & H). rewrite Ea, ret_bind.
  destruct H as [(-> & _)|[Ha H]]; [by destruct (Hal s1 m1)|].
  destruct (owns_plus_free _ _ _ _ H) as (s2 & E2 & H2).
  rewrite (proj2 (Z.eqb_neq a 0)) by done. unfold zero_or_null_ptr.
  rewrite (proj2 (Z.leb_gt kz 16)), ret_bind by done. change (nonzero 0) with false. cbv iota.
  unfold get_agent_buffer. rewrite at_set_ev, ret_bind. cbv zeta. unfold agent_buffer_map. rewrite Hmap.
  change (is_err (vm_mmap _)) with (is_err (vm_mmap (align_4k_u32 size))).
  rewrite Hmap, ret_bind. change (nonzero (- EFAULT)) with true. cbv iota.
  rewrite E2, ret_bind, set_ev_twice, free_set_ev by done. eexists _, _, _, _.
  split_and!; [done|done|]. unfold is_agent_alive, find_event_control. by rewrite E.
Qed.

(** ** Removal *)

Lemma omap_remove (f : Z → option Z) p b (l : list Z) :
  NoDup l → p ∈ l → f p = Some b → omap f l ≡ₚ b :: omap f (filter (λ q, q ≠ p) l).
Proof.
  induction 1 as [|x l Hx Hnd IH]; intros Hp Hf; [by apply not_elem_of_nil in Hp|].
  rewrite filter_cons. destruct (decide (x = p)) as [->|Hne].
  - rewrite decide_False by tauto. simpl. rewrite Hf.
    assert (filter (λ q, q ≠ p) l = l) as ->; [|done].
    clear - Hx. induction l as [|y l IH]; [done|]. apply not_elem_of_cons in Hx as [Hy Hl].
    by rewrite filter_cons_True, IH.
  - rewrite decide_True by done. apply elem_of_cons in Hp as [?|Hp]; [done|].
    simpl. destruct (f x); rewrite (IH Hp Hf); [apply Permutation_swap|done].
Qed.

Lemma unlist_ok A p h :
  agents_ok A → p ∈ agent_list A →
  (∀ q, q ≠ p → h !! q = ev_heap A !! q) →
  agents_ok (AgentControl h (filter (λ q, q ≠ p) (agent_list A))).
Proof.
  intros [H1 H2 H3 H4] Hp Hh. split; simpl.
  - by apply NoDup_filter.
  - rewrite list_elem_of_filter. tauto.
  - intros q [Hq Hl]%list_elem_of_filter. rewrite Hh by done. by apply H3.
  - intros q q' x x' [Hq Hl]%list_elem_of_filter [Hq' Hl']%list_elem_of_filter.
    rewrite !Hh by done. by apply H4.
Qed.

Lemma unlist_buffers A p d h :
  agents_ok A → p ∈ agent_list A → ev_heap A !! p = Some d →
  (∀ q, q ≠ p → h !! q = ev_heap A !! q) →
  buffers A ≡ₚ agent_buff_kernel d ::
    buffers (AgentControl h (filter (λ q, q ≠ p) (agent_list A))).
Proof.
  intros HA Hp Hd Hh. unfold buffers. simpl.
  rewrite (omap_remove _ p (agent_buff_kernel d)); [|apply HA|done|by rewrite Hd].
  f_equiv. erewrite omap_ext_in; [done|]. intros q [Hq _]%list_elem_of_filter. by rewrite Hh.
Qed.

Lemma unlisted_dead A p h id :
  agents_ok A → p ∈ agent_list A → (∃ d, ev_heap A !! p = Some d ∧ ev_agent_id d = id) →
  (∀ q, q ≠ p → h !! q = ev_heap A !! q) →
  let A' := AgentControl h (filter (λ q, q ≠ p) (agent_list A)) in
  is_agent_alive A' id = Ret (A', AGENT_DEAD).
Proof.
  intros HA Hp (d & Hd & Hid) Hh A'. pose proof (unlist_ok A p h HA Hp Hh) as HA'.
  unfold is_agent_alive.
  destruct (find_event_control_cases A' id HA') as [[-> _]|(q & x & Hq & Hl & Hx & _ & Hxid & _)];
    [done|].
  apply list_elem_of_filter in Hl as [Hne Hl]. simpl in Hx. rewrite Hh in Hx by done.
  destruct Hne. eapply (ag_ids _ HA); eauto. congruence.
Qed.

Lemma unlist_buffers_ext A p h h' :
  (∀ q, q ≠ p → h !! q = h' !! q) →
  let l := filter (λ q, q ≠ p) (agent_list A) in
  buffers (AgentControl h l) = buffers (AgentControl h' l).
Proof.
  intros Hh l. unfold buffers. simpl. apply omap_ext_in.
  intros q [Hq _]%list_elem_of_filter. by rewrite Hh.
Qed.

(** [free_event_control] under a reference of the caller. *)
Lemma free_event_control_ok (s : St) A L B p d :
  agents_ok A → p ∈ agent_list A → p ≠ 0 → ev_heap A !! p = Some d → node_ok d → 1 < ev_usage d →
  owns_plus s (buffers A ++ B) L →
  let A' := AgentControl (ev_heap A) (filter (λ q, q ≠ p) (agent_list A)) in
  ∃ s' d', free_event_control s A (ev_agent_id d) = Ret (s', set_ev A' p d') ∧
    ev_usage d' = ev_usage d - 1 ∧ owns_plus s' (buffers A' ++ B) L.
Proof.
  intros HA Hl Hp Hd Hok Hu Ho A'. unfold free_event_control.
  destruct (find_listed A (has_id (ev_agent_id d)) HA)
    as (q & -> & [[-> Hn]|(Hq & Hql & x & Hx & _ & Hxid)]); rewrite ret_bind.
  { specialize (Hn p d Hl Hd). unfold has_id in Hn. by rewrite Z.eqb_refl in Hn. }
  apply Z.eqb_eq in Hxid.
  assert (q = p) as -> by (eapply (ag_ids _ HA); eauto).
  rewrite (proj2 (Z.eqb_neq p 0)) by done. unfold unlink. rewrite decide_True, ret_bind by done.
  fold A'. destruct (unmap_agent_buffer_ok A' p d Hp Hd) as (d1 & -> & E1 & E2 & E3).
  rewrite ret_bind, at_set_ev, ret_bind, set_ev_twice, E2.
  rewrite (unlist_buffers A p d (ev_heap A) HA Hl Hd) in Ho by done. fold A' in Ho.
  destruct (owns_plus_free _ _ _ _ Ho) as (s' & -> & Ho'). rewrite ret_bind.
  rewrite (put_event_ok _ p (ev_with_buffers d1 0 (agent_buff_user d1)) (ev_usage d - 1) Hp);
    [|apply lookup_insert_eq|simpl; lia|destruct Hok; lia].
  rewrite ret_bind, set_ev_twice. eexists _, _. split; [done|]. split; done.
Qed.

(** What a removal leaves. *)
Definition unregistered (A : agent_control) (L : gset Z) (id : Z)
    (res : outcome (Env * St * mem * agent_control * Z)) : Prop :=
  ∃ e' s' m' A' ret, res = Ret (e', s', m', A', ret) ∧
    agents_ok A' ∧ owns_plus s' (buffers A') L ∧
    (ret ≠ 0 ∧ A' = A ∨ ret = 0 ∧ is_agent_alive A' id = Ret (A', AGENT_DEAD)).

Lemma unregister_failed e (s : St) m A L id ret :
  agents_ok A → owns_plus s (buffers A) L → ret ≠ 0 → unregistered A L id (Ret (e, s, m, A, ret)).
Proof. intros. eexists _, _, _, _, _. split; [done|]. split_and!; try done. by left. Qed.

(** The TEE has agreed: the node goes, and the pack after it. *)
Lemma unregister_agreed e (s : St) m A L a p d :
  agents_ok A → p ∈ agent_list A → p ≠ 0 → ev_heap A !! p = Some d → node_ok d →
  ev_usage d < 2 ^ 31 - 2 → owns_plus s (a :: buffers A) L →
  unregistered A L (ev_agent_id d)
    ('(s, A) ← free_event_control s (set_ev A p (ev_with_usage d (ev_usage d + 1))) (ev_agent_id d);
     A ← put_agent_event A p;
     s ← ba_free s a;
     Ret (e, s, m, A, 0)).
Proof.
  intros HA Hl Hp Hd Hok Hu Ho. set (d1 := ev_with_usage d (ev_usage d + 1)).
  assert (node_ok d1) as Hok1 by (destruct Hok; split; simpl; done || lia).
  rewrite (Permutation_cons_append _ a) in Ho.
  rewrite <- (set_ev_buffers A p d d1) in Ho by done.
  destruct (free_event_control_ok s (set_ev A p d1) L [a] p d1) as (s1 & d2 & E & Eu & Ho1);
    try done; [by eapply set_ev_ok'|apply lookup_insert_eq|destruct Hok; simpl; lia|].
  change (ev_agent_id d1) with (ev_agent_id d) in E. rewrite E, ret_bind.
  set (A1 := AgentControl _ _) in *.
  assert (∃ h, put_agent_event (set_ev A1 p d2) p
      = Ret (AgentControl h (filter (λ q, q ≠ p) (agent_list A))) ∧
      ∀ q, q ≠ p → h !! q = ev_heap A !! q) as (h & -> & Hh).
  { simpl in Eu. destruct (decide (ev_usage d = 1)) as [E1|E1].
    - rewrite (put_event_last _ p d2 Hp) by (apply lookup_insert_eq || lia).
      eexists. split; [done|]. intros q Hq. simpl. rewrite lookup_delete_ne, !lookup_insert_ne by done. done.
    - rewrite (put_event_ok _ p d2 (ev_usage d - 1) Hp);
        [|apply lookup_insert_eq|lia|destruct Hok; lia].
      eexists. split; [done|]. intros q Hq. simpl. by rewrite !lookup_insert_ne. }
  rewrite ret_bind. rewrite <- Permutation_cons_append in Ho1.
  destruct (owns_plus_free _ _ _ _ Ho1) as (s2 & -> & Ho2). rewrite ret_bind.
  eexists _, _, _, _, _. split; [done|]. split; [by apply unlist_ok|]. split.
  - rewrite (unlist_buffers_ext A p h (ev_heap A1)); [done|].
    intros q Hq. rewrite Hh by done. simpl. by rewrite lookup_insert_ne.
  - right. split; [done|]. apply unlisted_dead; eauto.
Qed.

(** Removing an agent ends without a fault, keeps the table well-formed, and
    leaves the mailbox with exactly the buffers of the agents that remain: when
    the TEE agrees the agent's buffer and its entry are gone, otherwise nothing
    has changed. *)
Theorem agent_unregister_balanced e (s : St) m A L id :
  agents_ok A → owns_plus s (buffers A) L →
  (∀ p d, ev_heap A !! p = Some d → ev_usage d < 2 ^ 31 - 2) →
  unregistered A L id (tc_ns_unregister_agent allowed e s m A id).
Proof.
  intros HA Ho Husage. unfold tc_ns_unregister_agent.
  destruct (nonzero _); [by apply unregister_failed|].
  destruct (negb _); [by apply unregister_failed|].
  destruct (find_event_control_cases A id HA) as [[-> _]|(p & d & Hp & Hl & Hd & Hok & <- & ->)];
    rewrite ret_bind; [by apply unregister_failed|].
  rewrite (proj2 (Z.eqb_neq p 0)) by done. rewrite at_set_ev, ret_bind.
  cbn [agent_buff_kernel ev_with_usage]. rewrite (proj2 (Z.eqb_neq _ 0)) by apply Hok.
  assert (put_agent_event (set_ev A p (ev_with_usage d (ev_usage d + 1))) p = Ret A) as Hput.
  { rewrite (put_event_ok _ p (ev_with_usage d (ev_usage d + 1)) (ev_usage d) Hp);
      [|apply lookup_insert_eq|done|apply Hok].
    rewrite set_ev_twice. rewrite set_ev_id; [done|]. by destruct d. }
  destruct (owns_plus_alloc s _ L m SZ_4K MB_FLAG_ZERO Ho) as (s1 & m1 & a & -> & H); [done|].
  rewrite ret_bind. destruct H as [(-> & -> & H)|[Ha H]].
  { cbn [Z.eqb]. rewrite Hput, ret_bind. by apply unregister_failed. }
  rewrite (proj2 (Z.eqb_neq a 0)) by done. destruct (tc_ns_smc _ _ _ _) as [[[[e2 m2] ?] ?] r].
  destruct (nonzero r); [|by apply unregister_agreed; eauto].
  rewrite ret_bind, Hput, ret_bind. destruct (owns_plus_free _ _ _ _ H) as (s2 & -> & H2).
  rewrite ret_bind. by apply unregister_failed.
Qed.

End Registration.

(** ** Agents in the kernel *)

(** [agent_init] empties [g_tee_agent_list] before it goes through it: agents
    registered before are dropped and none is ever initialised or run. *)
Lemma agent_init_runs_nothing {W} run (w : W) A l :
  agent_init run w A l = Ret (w, AgentControl (ev_heap A) [], []).
Proof. reflexivity. Qed.

(** An agent that counts how often it is run; the second one has no init
    operation of its own. *)
Definition counting (fails : bool) (d : kernel_agent_data) (w : nat)
    : outcome (nat * kernel_agent_data * Z) :=
  Ret (S w, d, if fails then - EINVAL else 0).

Definition demo_kernel_agent (id : Z) (fails : bool) : tee_agent_kernel_ops nat :=
  KernelOps (KernelAgentData true id 0 0 0) None (Some (counting fails))
    (Some (counting false)) None None None.

(** The status of one agent leaks into the next: after a failing agent the next
    one, which has no init operation, is taken for failed and not run. *)
Lemma kernel_init_stale_status :
  (∃ l, kernel_init_loop (counting false) 0%nat
     [demo_kernel_agent 1 true; demo_kernel_agent 2 false] 0 = Ret (1%nat, l)) ∧
  (∃ l, kernel_init_loop (counting false) 0%nat
     [demo_kernel_agent 1 false; demo_kernel_agent 2 false] 0 = Ret (2%nat, l)).
Proof. split; eexists; reflexivity. Qed.

(** ** Examples *)

Definition root_caller : Caller := {|
  task_cred := Some 0;
  get_task_mm := true;
  mm_exe_file := true;
  get_mm_exe_file := true;
  d_path := Some [47];
  kmalloc_path := true
|}.

Definition failing_map : UserMap := {|
  vm_mmap n := 2 ^ 64 - ENOMEM;
  find_vma a := true;
  remap_pfn_range a f n := 0;
  vm_munmap a n := 0
|}.

Definition working_map : UserMap := {|
  vm_mmap n := 0x7f000000;
  find_vma a := true;
  remap_pfn_range a f n := 0;
  vm_munmap a n := 0
|}.

(** A TEE that agrees to everything. *)
Definition yes_tee : SmcChannel nat := {|
  smc_sees e _ := e;
  tc_ns_smc e m op cmd := (S e, m, op, cmd, 0);
  tc_ns_smc_with_no_nr e m op cmd := (S e, m, op, cmd, 0)
|}.

Abbreviation demo_blocks := (mailbox_allocator (P := linear_map) (SC := boundscheck)).

Lemma demo_pool_holds : owns_plus (BA := demo_blocks) demo_pool [] ∅.
Proof.
  apply (owns_plus_nil (BA := demo_blocks)). exists 5, ∅. split; [exact demo_pool_ok|].
  intros a. split; [set_solver|]. intros (h & _ & [k Hk]). by rewrite lookup_empty in Hk.
Qed.

Lemma no_agents_ok : agents_ok (AgentControl ∅ []).
Proof.
  split; simpl.
  - constructor.
  - apply not_elem_of_nil.
  - intros p Hp. by apply not_elem_of_nil in Hp.
  - intros p q d d' Hp. by apply not_elem_of_nil in Hp.
Qed.

Lemma agent_register_balanced_witness :
  registered (BA := demo_blocks) (Env := nat) (AgentControl ∅ []) ∅ 0x5000 0x1000 77
    (tc_ns_register_agent (BA := demo_blocks) (SMC := yes_tee) (P := linear_map)
       (CR := root_caller) (UM := working_map) [] 0%nat demo_pool ∅ (AgentControl ∅ []) 0x1000
       77 4096 (Some 0) true 0x5000).
Proof.
  apply (agent_register_balanced (BA := demo_blocks)).
  - exact no_agents_ok.
  - exact demo_pool_holds.
  - reflexivity.
Defined.

Lemma register_map_failure_returns_0_witness :
  ∃ e' s' m' b',
    tc_ns_register_agent (BA := demo_blocks) (SMC := yes_tee) (P := linear_map)
      (CR := root_caller) (UM := failing_map) [] 0%nat demo_pool ∅ (AgentControl ∅ []) 0x1000
      77 4096 (Some 0) true 0x5000 = Ret (e', s', m', AgentControl ∅ [], b', 0) ∧
    is_agent_alive (AgentControl ∅ []) 77 = Ret (AgentControl ∅ [], AGENT_DEAD).
Proof.
  destruct (register_map_failure_returns_0 (BA := demo_blocks) (SMC := yes_tee) (P := linear_map)
    (CR := root_caller) (UM := failing_map) [] 0%nat demo_pool ∅ (AgentControl ∅ []) ∅ 0x1000
    77 4096 0 0x5000) as (e' & s' & m' & b' & E & _ & Hd).
  - exact no_agents_ok.
  - exact demo_pool_holds.
  - reflexivity.
  - lia.
  - reflexivity.
  - intros x d Hx. by apply not_elem_of_nil in Hx.
  - intros n. reflexivity.
  - intros s' m' E.
    assert (match ba_alloc (BlockAllocator := demo_blocks) demo_pool ∅ (align_4k_u32 4096)
                    MB_FLAG_ZERO with Ret (_, _, a) => a | Fault => 0 end ≠ 0) as H
      by (vm_compute; discriminate).
    rewrite E in H. by destruct H.
  - exists e', s', m', b'. split; [exact E|exact Hd].
Defined.

Definition demo_node (a : Z) : smc_event_data :=
  EventData 77 AGENT_REGISTERED 0 0x1000 a 0 4096 1 0.

Definition demo_agents (a : Z) : agent_control := AgentControl {[0x5000 := demo_node a]} [0x5000].

Lemma demo_agents_ok a : a ≠ 0 → agents_ok (demo_agents a).
Proof.
  intros Ha. split; simpl.
  - apply NoDup_singleton.
  - rewrite list_elem_of_singleton. lia.
  - intros p ->%list_elem_of_singleton. exists (demo_node a). split; [done|]. split; simpl; done || lia.
  - intros p q d d' ->%list_elem_of_singleton ->%list_elem_of_singleton. done.
Qed.

(** The agent 77 of a product's table, registered with a block of the pool. *)
Lemma agent_unregister_balanced_witness :
  ∃ s a, owns_plus (BA := demo_blocks) s [a] ∅ ∧
    unregistered (BA := demo_blocks) (Env := nat) (demo_agents a) ∅ 77
      (tc_ns_unregister_agent (BA := demo_blocks) (SMC := yes_tee) (P := linear_map)
         (CR := root_caller) [CaInfo [47] 0 77] 0%nat s ∅ (demo_agents a) 77).
Proof.
  destruct (owns_plus_alloc (BA := demo_blocks) demo_pool [] ∅ ∅ 4096 0 demo_pool_holds ltac:(lia))
    as (s & m' & a & E & [(-> & _)|[Ha Ho]]).
  - exfalso.
    assert (match ba_alloc (BlockAllocator := demo_blocks) demo_pool ∅ 4096 0
            with Ret (_, _, a) => a | Fault => 0 end ≠ 0) as H by (vm_compute; discriminate).
    rewrite E in H. by destruct H.
  - exists s, a. split; [exact Ho|].
    apply (agent_unregister_balanced (BA := demo_blocks)).
    + by apply demo_agents_ok.
    + exact Ho.
    + intros p d Hd. cbn in Hd. apply lookup_singleton_Some in Hd as [_ <-]. simpl. lia.
Defined.
