(* ===== verification/AgentSteps.v ===== *)
(** * The hand-shake between a caller and an agent (core/agent.c)

    A caller that carries a request of the TEE ([agent_process_work]) and the
    agent ([tc_ns_wait_event], [tc_ns_send_event_response]) share the flags of
    one event node without a lock.  Each access to the node is a step; the two
    threads interleave freely.  Optional steps: a caller that is killed while
    it waits, and an agent that dies ([send_event_response] on behalf of its
    device file, after the system call it may be in has been interrupted) and
    registers again ([reuse_agent_node]).  The node stays registered here; who
    may free it is the subject of [AgentRefs]. *)

From stdpp Require Import base gmap list relations.
From Stdlib Require Import ZArith Lia.
From S2P Require Import Prelude KernelApi TeeTypes Buffers Mailbox MailboxClaims SessReg.
From S2P Require Import SessOk CallTypes GpParams GpCall GpHeld Tlogger TloggerSys.
From S2P Require Import Agent AgentReg AgentThm.

(** Where a caller is in [agent_process_work]. *)
Inductive ca_pc :=
| CIdle
| CFound             (* node found, [agent_ready] not yet read *)
| CAsk               (* about to set [ret_flag] *)
| CWait              (* in [wait_agent_response] *)
| CRet (ret : Z)     (* about to clear [ca_run] *)
| CPut (ret : Z).    (* about to give the node back *)

(** Where an agent is in [tc_ns_wait_event], at work, or in
    [tc_ns_send_event_response] / [send_event_response]. *)
Inductive ag_pc :=
| AIdle
| AFound             (* node found, about to set [agent_ready] *)
| AWait              (* asleep until [ret_flag] *)
| APut (woken : bool) (* about to give the node back *)
| AWork
| XFound             (* node found after the agent died, about to mark it *)
| RFound             (* about to look at [ret_flag] *)
| RSeen              (* about to clear [ret_flag] *)
| RClear             (* about to set [ca_run] *)
| RPut               (* about to give the node back *)
| ADead.             (* crashed, not yet registered again *)

(** The node with the two threads.  Requests are numbered; [serving] is the
    request the agent was woken for, [answered] the one it answered last,
    [dying] tells whether the running response is that of a dead agent. *)
Record hs := HS {
  hs_node : smc_event_data;
  hs_ca : ca_pc;
  hs_ag : ag_pc;
  hs_req : nat;
  hs_serving : nat;
  hs_answered : nat;
  hs_dying : bool
}.

Definition get_ref (d : smc_event_data) : smc_event_data := ev_with_usage d (ev_usage d + 1).
Definition put_ref (d : smc_event_data) : smc_event_data := ev_with_usage d (ev_usage d - 1).

Inductive ca_step (kills : bool) : hs → hs → Prop :=
| ca_find d ag r s a x :
    ca_step kills (HS d CIdle ag r s a x) (HS (get_ref d) CFound ag r s a x)
| ca_crashed d ag r s a x :
    agent_ready d = AGENT_CRASHED →
    ca_step kills (HS d CFound ag r s a x) (HS d (CPut (- EFAULT)) ag r s a x)
| ca_ready d ag r s a x :
    agent_ready d ≠ AGENT_CRASHED →
    ca_step kills (HS d CFound ag r s a x) (HS d CAsk ag r s a x)
| ca_ask d ag r s a x :
    ca_step kills (HS d CAsk ag r s a x)
      (HS (ev_with_flags d 1 (ca_run d)) CWait ag (S r) s a x)
| ca_seen d ag r s a x :
    ca_run d ≠ 0 → ca_step kills (HS d CWait ag r s a x) (HS d (CRet 0) ag r s a x)
| ca_killed d ag r s a x :
    kills = true →
    ca_step kills (HS d CWait ag r s a x)
      (HS (ev_with_flags d 0 (ca_run d)) (CRet (- EFAULT)) ag r s a x)
| ca_clear d ret ag r s a x :
    ca_step kills (HS d (CRet ret) ag r s a x)
      (HS (ev_with_flags d (ret_flag d) 0) (CPut ret) ag r s a x)
| ca_put d ret ag r s a x :
    ca_step kills (HS d (CPut ret) ag r s a x) (HS (put_ref d) CIdle ag r s a x).

Inductive ag_step (crashes : bool) : hs → hs → Prop :=
| ag_find d ca r s a x :
    ag_step crashes (HS d ca AIdle r s a x) (HS (get_ref d) ca AFound r s a x)
| ag_ready d ca r s a x :
    ag_step crashes (HS d ca AFound r s a x) (HS (ev_with_ready d AGENT_READY) ca AWait r s a x)
| ag_woken d ca r s a x :
    ret_flag d ≠ 0 →
    ag_step crashes (HS d ca AWait r s a x) (HS d ca (APut true) r r a x)
| ag_interrupted d ca r s a x :
    ag_step crashes (HS d ca AWait r s a x) (HS d ca (APut false) r s a x)
| ag_put d ca (w : bool) r s a x :
    ag_step crashes (HS d ca (APut w) r s a x)
      (HS (put_ref d) ca (if w then AWork else AIdle) r s a x)
| ag_respond d ca r s a x :
    ag_step crashes (HS d ca AWork r s a x) (HS (get_ref d) ca RFound r s a false)
| ag_die d ca r s a x :
    crashes = true →
    ag_step crashes (HS d ca AWork r s a x) (HS (get_ref d) ca XFound r s a true)
| ag_die_idle d ca r s a x :
    crashes = true →
    ag_step crashes (HS d ca AIdle r s a x) (HS (get_ref d) ca XFound r s a true)
| ag_mark d ca r s a x :
    ag_step crashes (HS d ca XFound r s a x) (HS (ev_with_ready d AGENT_CRASHED) ca RFound r s a x)
| ag_nothing d ca r s a x :
    ret_flag d = 0 → ag_step crashes (HS d ca RFound r s a x) (HS d ca RPut r s a x)
| ag_seen d ca r s a x :
    ret_flag d ≠ 0 → ag_step crashes (HS d ca RFound r s a x) (HS d ca RSeen r s a x)
| ag_clear d ca r s a x :
    ag_step crashes (HS d ca RSeen r s a x)
      (HS (ev_with_flags d 0 (ca_run d)) ca RClear r s a x)
| ag_run d ca r s a x :
    ag_step crashes (HS d ca RClear r s a x)
      (HS (ev_with_flags d (ret_flag d) 1) ca RPut r s s x)
| ag_done d ca r s a x :
    ag_step crashes (HS d ca RPut r s a x)
      (HS (put_ref d) ca (if (x : bool) then ADead else AIdle) r s a x)
| ag_restart d ca r s a x dev :
    ag_step crashes (HS d ca ADead r s a x)
      (HS (init_restart_agent_node d dev) ca AIdle r s a false).

Definition hs_step (kills crashes : bool) (σ σ' : hs) : Prop :=
  ca_step kills σ σ' ∨ ag_step crashes σ σ'.

(** A registered agent that nobody uses. *)
Definition hs_init (id dev buf size : Z) : hs :=
  HS (EventData id AGENT_REGISTERED 0 dev buf 0 size 1 0) CIdle AIdle 0 0 0 false.

Definition hs_reach (kills crashes : bool) (σ : hs) : Prop :=
  ∃ id dev buf size, rtc (hs_step kills crashes) (hs_init id dev buf size) σ.

Lemma hs_reach_ind kills crashes (Q : hs → Prop) :
  (∀ id dev buf size, Q (hs_init id dev buf size)) →
  (∀ σ σ', Q σ → hs_step kills crashes σ σ' → Q σ') →
  ∀ σ, hs_reach kills crashes σ → Q σ.
Proof.
  intros Hi Hs σ (id & dev & buf & size & Hr).
  revert Hr. generalize (Hi id dev buf size). generalize (hs_init id dev buf size).
  intros σ0 H0 Hr. induction Hr as [|x y z Hxy _ IH]; [done|]. apply IH. by eapply Hs.
Qed.

(** ** Undisturbed hand-shakes *)

(** The phases of a request when no caller is killed and no agent dies. *)
Definition ag_resting (c : ag_pc) : Prop :=
  match c with AIdle | AFound | AWait | APut false | RPut => True | _ => False end.

Definition ag_serving (c : ag_pc) : Prop :=
  match c with APut true | AWork | RFound | RSeen => True | _ => False end.

Inductive phase (σ : hs) : Prop :=
| ph_none :
    ret_flag (hs_node σ) = 0 → ca_run (hs_node σ) = 0 → ag_resting (hs_ag σ) →
    match hs_ca σ with
    | CIdle | CFound | CAsk => True
    | CPut ret => ret = 0 ∧ hs_answered σ = hs_req σ
    | _ => False
    end → phase σ
| ph_asked :
    hs_ca σ = CWait → ret_flag (hs_node σ) = 1 → ca_run (hs_node σ) = 0 →
    ag_resting (hs_ag σ) → phase σ
| ph_served :
    hs_ca σ = CWait → ret_flag (hs_node σ) = 1 → ca_run (hs_node σ) = 0 →
    ag_serving (hs_ag σ) → hs_serving σ = hs_req σ → phase σ
| ph_cleared :
    hs_ca σ = CWait → ret_flag (hs_node σ) = 0 → ca_run (hs_node σ) = 0 →
    hs_ag σ = RClear → hs_serving σ = hs_req σ → phase σ
| ph_answered :
    hs_ca σ = CWait ∨ hs_ca σ = CRet 0 → ret_flag (hs_node σ) = 0 → ca_run (hs_node σ) = 1 →
    ag_resting (hs_ag σ) → hs_answered σ = hs_req σ → phase σ.

Record quiet (σ : hs) : Prop := {
  quiet_phase : phase σ;
  quiet_ready : agent_ready (hs_node σ) ≠ AGENT_CRASHED;
  quiet_dying : hs_dying σ = false
}.

Lemma quiet_ca σ σ' : quiet σ → ca_step false σ σ' → quiet σ'.
Proof.
  intros [Hp Hr Hd] H. destruct H; simpl in *; try done; split; simpl; try done;
    destruct Hp as [? ? ? Hc|? ? ? ?|? ? ? ? ?|? ? ? ? ?|[?|?] ? ? ? ?]; simpl in *; simplify_eq;
    try done; try (destruct Hc as []; simplify_eq);
    first [by apply ph_none|by apply ph_asked|by apply ph_served|by apply ph_cleared
          |apply ph_answered; simpl; tauto].
Qed.

Lemma quiet_ag σ σ' : quiet σ → ag_step false σ σ' → quiet σ'.
Proof.
  intros [Hp Hr Hd] H. destruct H; simpl in *; try done; simplify_eq; split; simpl; try done;
    destruct Hp as [? ? ? Hc|? ? ? ?|? ? ? ? ?|? ? ? ? ?|[?|?] ? ? ? ?]; simpl in *; simplify_eq;
    try done; try (destruct w; try done);
    first [by apply ph_none|by apply ph_asked|by apply ph_served|by apply ph_cleared
          |apply ph_answered; simpl; tauto].
Qed.

Lemma quiet_reach σ : hs_reach false false σ → quiet σ.
Proof.
  revert σ. apply hs_reach_ind.
  - intros. split; simpl; [by apply ph_none|done|done].
  - intros σ σ' IH [H|H]; [by eapply quiet_ca|by eapply quiet_ag].
Qed.

(** ** Progress *)

(** The agent's own steps from a woken agent to the answer. *)
Lemma serve_to_answer d ag r a x :
  ag_serving ag → ret_flag d = 1 → ca_run d = 0 → x = false →
  ∃ d', rtc (hs_step false false) (HS d CWait ag r r a x) (HS d' CWait RPut r r r false) ∧
    ca_run d' = 1.
Proof.
  intros Hs Hf Hr ->.
  assert (∀ d, rtc (hs_step false false) (HS d CWait RSeen r r a false)
    (HS (ev_with_flags (ev_with_flags d 0 (ca_run d)) 0 1) CWait RPut r r r false)) as H1.
  { intros d0. eapply rtc_l; [right; apply ag_clear|]. eapply rtc_l; [right; apply ag_run|]. done. }
  assert (∀ d, ret_flag d = 1 → ∃ d', rtc (hs_step false false) (HS d CWait RFound r r a false)
    (HS d' CWait RPut r r r false) ∧ ca_run d' = 1) as H2.
  { intros d0 Hd0. eexists. split; [|].
    - eapply rtc_l; [right; apply ag_seen; lia|apply H1].
    - done. }
  assert (∀ d, ret_flag d = 1 → ∃ d', rtc (hs_step false false) (HS d CWait AWork r r a false)
    (HS d' CWait RPut r r r false) ∧ ca_run d' = 1) as H3.
  { intros d0 Hd0. destruct (H2 (get_ref d0) Hd0) as (d' & Hd' & E). exists d'. split; [|done].
    eapply rtc_l; [right; apply ag_respond|exact Hd']. }
  destruct ag as [| | |[]| | | | | | |]; simpl in Hs; try done.
  - destruct (H3 (put_ref d) Hf) as (d' & Hd' & E). exists d'. split; [|done].
    eapply rtc_l; [right; apply ag_put|exact Hd'].
  - by apply H3.
  - by apply H2.
  - eexists. split; [apply H1|done].
Qed.

(** A resting agent comes to wait for a request without touching the flags. *)
Lemma rest_to_wait d ag r s a x :
  ag_resting ag → x = false →
  ∃ d', rtc (hs_step false false) (HS d CWait ag r s a x) (HS d' CWait AWait r s a false) ∧
    ret_flag d' = ret_flag d ∧ ca_run d' = ca_run d.
Proof.
  intros Hr ->.
  assert (∀ d, ∃ d', rtc (hs_step false false) (HS d CWait AIdle r s a false)
    (HS d' CWait AWait r s a false) ∧ ret_flag d' = ret_flag d ∧ ca_run d' = ca_run d) as H1.
  { intros d0. eexists. split.
    - eapply rtc_l; [right; apply ag_find|]. eapply rtc_l; [right; apply ag_ready|]. done.
    - done. }
  destruct ag as [| | |[]| | | | | | |]; simpl in Hr; try done.
  - eexists. split; [|]. { eapply rtc_l; [right; apply ag_ready|]. done. } done.
  - by exists d.
  - destruct (H1 (put_ref d)) as (d' & H & E). exists d'. split; [|done].
    eapply rtc_l; [right; apply ag_put|exact H].
  - destruct (H1 (put_ref d)) as (d' & H & E). exists d'. split; [|done].
    eapply rtc_l; [right; apply ag_done|exact H].
Qed.

(** C18. While no caller is killed and no agent dies, every interleaving is
    right: a call that returns has the answer to its own request, and no
    wake-up is lost, since a caller and an agent never sleep at the same time
    with both flags clear. *)
Theorem agent_handshake_correct σ :
  hs_reach false false σ →
  (∀ ret, hs_ca σ = CPut ret → ret = 0 ∧ hs_answered σ = hs_req σ) ∧
  (hs_ca σ = CWait → hs_ag σ = AWait → ret_flag (hs_node σ) ≠ 0 ∨ ca_run (hs_node σ) ≠ 0).
Proof.
  intros [Hp _ _]%quiet_reach. split.
  - intros ret E. destruct Hp as [? ? ? Hc|Hc|Hc|Hc|[Hc|Hc]]; rewrite E in Hc; done.
  - intros E E'. destruct Hp as [? ? ? Hc|Hc|? ? ? Hc|? ? ? Hc|Hc]; rewrite ?E, ?E' in *; try done;
      [left|right]; congruence.
Qed.

(** C19. From every reachable state in which a caller waits, the request can
    still be completed: some run of the agent and the caller ends with the
    caller returning 0 and its request answered. *)
Theorem agent_request_completes σ :
  hs_reach false false σ → hs_ca σ = CWait →
  ∃ σ', rtc (hs_step false false) σ σ' ∧ hs_ca σ' = CPut 0 ∧ hs_answered σ' = hs_req σ'.
Proof.
  intros Hreach%quiet_reach Hw. destruct Hreach as [Hp Hr Hd].
  assert (∀ d ag r s x, ca_run d = 1 → ∃ σ',
    rtc (hs_step false false) (HS d CWait ag r s r x) σ' ∧ hs_ca σ' = CPut 0 ∧
      hs_answered σ' = hs_req σ') as Hdone.
  { intros d0 ag0 r0 s0 x0 E. eexists. split.
    - eapply rtc_l; [left; apply ca_seen; lia|]. eapply rtc_l; [left; apply ca_clear|]. done.
    - done. }
  assert (∀ d ag r a, ag_serving ag → ret_flag d = 1 → ca_run d = 0 → ∃ σ',
    rtc (hs_step false false) (HS d CWait ag r r a false) σ' ∧ hs_ca σ' = CPut 0 ∧
      hs_answered σ' = hs_req σ') as Hserve.
  { intros d0 ag0 r0 a0 Hs Hf Hc. destruct (serve_to_answer d0 ag0 r0 a0 false Hs Hf Hc eq_refl)
      as (d' & Hrun & E). destruct (Hdone d' RPut r0 r0 false E) as (σ' & Hrun' & H).
    exists σ'. split; [by etrans|done]. }
  destruct σ as [d ca ag r s a x]; simpl in *; subst.
  destruct Hp as [? ? ? Hc|_ Hf Hc Hag|_ Hf Hc Hag Hsv|_ Hf Hc Hag Hsv|_ Hf Hc Hag Ha]; simpl in *;
    subst; try done.
  - destruct (rest_to_wait d ag r s a false Hag eq_refl) as (d' & Hrun & Ef & Ec).
    destruct (Hserve d' (APut true) r a I) as (σ' & Hrun' & H); [congruence..|].
    exists σ'. split; [|done]. etrans; [exact Hrun|].
    eapply rtc_l; [right; apply ag_woken; congruence|exact Hrun'].
  - by apply Hserve.
  - destruct (Hdone (ev_with_flags d (ret_flag d) 1) RPut r r false eq_refl) as (σ' & Hrun & H).
    exists σ'. split; [|done]. eapply rtc_l; [right; apply ag_run|exact Hrun].
  - by apply Hdone.
Qed.

(** ** Killed callers and restarted agents *)

(** One step of the caller or of the agent in an explicit run. *)
Ltac ca rule := eapply rtc_l; [left; eapply rule; done|].
Ltac ag rule := eapply rtc_l; [right; eapply rule; done|].

(** A caller killed while the agent is answering lets the answer slip into the
    next request: a later call returns 0 although nobody was even woken for
    its request. *)
Theorem agent_kill_leaves_stale_answer :
  ∃ σ, hs_reach true false σ ∧ hs_ca σ = CPut 0 ∧
    (hs_serving σ < hs_req σ)%nat ∧ (hs_answered σ < hs_req σ)%nat.
Proof.
  eexists. split.
  - exists 1, 0, 4096, 4096. unfold hs_init.
    (* the first request is picked up ... *)
    ca ca_find. ca ca_ready.
    ca ca_ask. ag ag_find.
    ag ag_ready. ag ag_woken.
    ag ag_put. ag ag_respond.
    ag ag_seen.
    (* ... its caller is killed and leaves ... *)
    ca ca_killed. ca ca_clear.
    ca ca_put.
    (* ... the answer arrives ... *)
    ag ag_clear. ag ag_run.
    (* ... and the next caller takes it. *)
    ca ca_find. ca ca_ready.
    ca ca_ask. ca ca_seen.
    ca ca_clear. apply rtc_refl.
  - simpl. split; [done|lia].
Qed.

(** A caller that nobody will wake: both flags clear and no answer on its way. *)
Definition stranded (σ : hs) : Prop :=
  hs_ca σ = CWait ∧ ret_flag (hs_node σ) = 0 ∧ ca_run (hs_node σ) = 0 ∧
  match hs_ag σ with RSeen | RClear => False | _ => True end.

Lemma stranded_step σ σ' : stranded σ → hs_step false true σ σ' → stranded σ'.
Proof.
  intros (Hc & Hf & Hr & Ha) [H|H]; destruct H; simpl in *; try done; try congruence;
    unfold stranded; simpl; try (destruct w); try (destruct x); done || tauto.
Qed.

Lemma stranded_forever σ σ' : rtc (hs_step false true) σ σ' → stranded σ → stranded σ'.
Proof. induction 1 as [|x y z Hxy _ IH]; [done|]. intros H. apply IH. by eapply stranded_step. Qed.

(** An agent that dies answers its caller, but registering again clears the
    answer: if the caller has not run in between it waits for ever, whatever
    the agent does afterwards. *)
Theorem agent_restart_loses_answer :
  ∃ σ, hs_reach false true σ ∧ hs_ca σ = CWait ∧ hs_answered σ = hs_req σ ∧
    ∀ σ', rtc (hs_step false true) σ σ' → hs_ca σ' = CWait.
Proof.
  eexists. split; [|split; [|split]].
  - exists 1, 0, 4096, 4096. unfold hs_init.
    ca ca_find. ca ca_ready.
    ca ca_ask. ag ag_find.
    ag ag_ready. ag ag_woken.
    ag ag_put. ag ag_die.
    ag ag_mark. ag ag_seen.
    ag ag_clear. ag ag_run.
    ag ag_done.
    eapply rtc_l; [right; apply (ag_restart _ _ _ _ _ _ _ 0)|]. apply rtc_refl.
  - done.
  - done.
  - intros σ' Hr. by apply (stranded_forever _ _ Hr).
Qed.

(** ** Relation to the sequential code *)

(** Run alone, the steps of a responder are [process_send_event_response]. *)
Lemma responder_alone d ca r s a x p A' :
  process_send_event_response (AgentControl {[p := d]} [p]) p = Ret A' →
  ∃ d' a', ev_heap A' !! p = Some d' ∧
    rtc (hs_step false false) (HS d ca RFound r s a x) (HS d' ca RPut r s a' x).
Proof.
  unfold process_send_event_response, at_index. simpl. rewrite lookup_singleton_eq. simpl.
  destruct (Z.eqb_spec (ret_flag d) 0) as [E|E]; intros [= <-]; simpl.
  - rewrite lookup_singleton_eq. exists d, a. split; [done|].
    ag ag_nothing. done.
  - rewrite lookup_insert_eq. eexists _, _. split; [done|].
    ag ag_seen. ag ag_clear.
    ag ag_run. done.
Qed.

(** ** Examples *)

(** A caller that has asked, with the agent woken for it. *)
Definition demo_served : hs :=
  HS (EventData 1 AGENT_READY 1 0 4096 0 4096 3 0) CWait (APut true) 1 1 0 false.

Lemma demo_served_reach kills crashes : hs_reach kills crashes demo_served.
Proof.
  exists 1, 0, 4096, 4096. unfold hs_init.
  ca ca_find. ca ca_ready. ca ca_ask. ag ag_find. ag ag_ready. ag ag_woken. apply rtc_refl.
Qed.

Lemma agent_handshake_correct_witness :
  ∃ σ, hs_ca σ = CPut 0 ∧ hs_answered σ = hs_req σ.
Proof.
  pose (σ := HS (EventData 1 AGENT_READY 0 0 4096 0 4096 3 0) (CPut 0) RPut 1 1 1 false).
  exists σ. split; [reflexivity|].
  apply (proj1 (agent_handshake_correct σ ltac:(exists 1, 0, 4096, 4096; unfold hs_init;
    ca ca_find; ca ca_ready; ca ca_ask; ag ag_find; ag ag_ready; ag ag_woken; ag ag_put;
    ag ag_respond; ag ag_seen; ag ag_clear; ag ag_run; ca ca_seen; ca ca_clear; apply rtc_refl)) 0).
  reflexivity.
Defined.

Lemma agent_request_completes_witness :
  ∃ σ', rtc (hs_step false false) demo_served σ' ∧ hs_ca σ' = CPut 0 ∧
    hs_answered σ' = hs_req σ'.
Proof. apply agent_request_completes; [apply demo_served_reach|reflexivity]. Defined.
