(* ===== verification/AgentRefs.v ===== *)
(** * The lifetime of event nodes (core/agent.c)

    Any number of threads run the operations of [agent.c] on the shared list of
    event nodes at the same time: callers, agents, threads that answer for a
    dead agent, registrations and removals.  An operation is a [prog]: the
    sections under [g_agent_control.lock] are the functions of [Agent] and
    [AgentReg], everything else is a single access to a node.  The threads
    interleave freely, and using a node that has been freed is [Fault]. *)

From stdpp Require Import base gmap list relations.
From Stdlib Require Import ZArith Lia.
From S2P Require Import Prelude KernelApi TeeTypes Buffers Mailbox MailboxClaims SessReg.
From S2P Require Import SessOk CallTypes GpParams GpCall GpHeld Tlogger TloggerSys.
From S2P Require Import Agent AgentReg AgentThm.

(** ** Operations as sequences of accesses *)

(** What is left of an operation.
    - [PEnd]: it has returned; [PLost]: so it has, without giving a node back;
    - [PFind], [PReuse], [PUnlink], [PScan], [PLink]: a section under the lock;
    - [PAccess]: one access to a node; [PWait]: asleep until [stop] holds of the
      node or the sleep ends otherwise;
    - [PPut]: [put_agent_event]; [PAlloc], [PFree]: [kzalloc] and [kfree];
    - [PChoose]: an answer from outside (the allocator, the TEE, a check of the
      caller's credentials). *)
Inductive prog :=
| PEnd
| PLost
| PFind (agent_id : Z) (next : Z → prog)
| PReuse (agent_id dev_file : Z) (next : Z * bool * Z → prog)
| PUnlink (agent_id : Z) (next : Z → prog)
| PScan (q : smc_event_data → bool) (f : smc_event_data → smc_event_data) (next : Z → prog)
| PLink (p : Z) (next : prog)
| PAccess (p : Z) (f : smc_event_data → smc_event_data) (next : smc_event_data → prog)
| PWait (p : Z) (stop : smc_event_data → bool) (next : bool → prog)
| PPut (p : Z) (next : prog)
| PAlloc (d : smc_event_data) (next : Z → prog)
| PFree (p : Z) (next : prog)
| PChoose (next : bool → prog).

Definition read (p : Z) (next : smc_event_data → prog) : prog := PAccess p (λ d, d) next.
Definition write (p : Z) (f : smc_event_data → smc_event_data) (next : prog) : prog :=
  PAccess p f (λ _, next).

(** [wake_up] on a wait queue of the node. *)
Definition wake (p : Z) (next : prog) : prog := read p (λ _, next).

Definition set_ready (x : Z) (d : smc_event_data) : smc_event_data := ev_with_ready d x.
Definition set_ret_flag (x : Z) (d : smc_event_data) : smc_event_data :=
  ev_with_flags d x (ca_run d).
Definition set_ca_run (x : Z) (d : smc_event_data) : smc_event_data :=
  ev_with_flags d (ret_flag d) x.
Definition set_buff_user (x : Z) (d : smc_event_data) : smc_event_data :=
  ev_with_buffers d (agent_buff_kernel d) x.
Definition clear_buff_kernel (d : smc_event_data) : smc_event_data :=
  ev_with_buffers d 0 (agent_buff_user d).

(** [agent_process_work]; the wait ends with [ca_run] set or with the caller
    killed. *)
Definition work_prog (agent_id : Z) : prog :=
  PFind agent_id (λ p, if p =? 0 then PEnd else
  read p (λ d, if agent_ready d =? AGENT_CRASHED then PPut p PEnd else
  write p (set_ret_flag 1) (wake p (read p (λ _,
  (PWait p (λ d, nonzero (ca_run d)) (λ seen,
    let leave := write p (set_ca_run 0) (PPut p PEnd) in
    if seen then leave else write p (set_ret_flag 0) leave))))))).

Definition alive_prog (agent_id : Z) : prog :=
  PFind agent_id (λ p, if p =? 0 then PEnd else PPut p PEnd).

(** [tc_ns_wait_event]; the wait ends with [ret_flag] set or interrupted. *)
Definition wait_prog (agent_id : Z) : prog :=
  PChoose (λ fake, if fake then PEnd else
  PFind agent_id (λ p, if p =? 0 then PEnd else
  write p (set_ready AGENT_READY)
  (PWait p (λ d, nonzero (ret_flag d)) (λ _, PPut p PEnd)))).

(** [process_send_event_response] and the put that follows it. *)
Definition answer_prog (p : Z) : prog :=
  read p (λ d, if ret_flag d =? 0 then PPut p PEnd else
  write p (set_ret_flag 0) (write p (set_ca_run 1) (wake p (PPut p PEnd)))).

(** [tc_ns_send_event_response]. *)
Definition respond_prog (agent_id : Z) : prog :=
  PFind agent_id (λ p, if p =? 0 then PEnd else
  PChoose (λ fake, if fake then PPut p PEnd else answer_prog p)).

(** [send_event_response], for an agent that died. *)
Definition crashed_prog (agent_id : Z) : prog :=
  PFind agent_id (λ p, if p =? 0 then PEnd else
  write p (set_ready AGENT_CRASHED) (answer_prog p)).

(** [is_system_agent], [tee_agent_clear_dev_owner]. *)
Definition system_agent_prog (dev_file : Z) : prog :=
  PScan (has_owner dev_file) (λ d, d) (λ _, PEnd).
Definition clear_owner_prog (dev_file : Z) : prog :=
  PScan (has_owner dev_file) (λ d, ev_with_owner d 0) (λ _, PEnd).

(** [unmap_agent_buffer]. *)
Definition unmap_prog (p : Z) (next : prog) : prog :=
  read p (λ d, if is_err_or_null (agent_buff_user d) then next
               else write p (set_buff_user 0) next).

(** [free_event_control]. *)
Definition free_control_prog (agent_id : Z) (next : prog) : prog :=
  PUnlink agent_id (λ p, if p =? 0 then next else
  unmap_prog p (read p (λ _, write p clear_buff_kernel (PPut p next)))).

(** [tc_ns_unregister_agent] after its checks: a node without a buffer is not
    given back. *)
Definition unregister_prog (agent_id : Z) : prog :=
  PFind agent_id (λ p, if p =? 0 then PEnd else
  read p (λ d, if agent_buff_kernel d =? 0 then PLost else
  PChoose (λ have_pack, if negb have_pack then PPut p PEnd else
  read p (λ _, PChoose (λ tee_ok,
    if tee_ok then free_control_prog agent_id (PPut p PEnd) else PPut p PEnd))))).

(** [get_agent_buffer]: [user] is the address of the user mapping, or an error. *)
Definition get_buffer_prog (p user : Z) (user_agent : bool) (ok err : prog) : prog :=
  if user_agent then write p (set_buff_user user) (if is_err user then err else ok)
  else read p (λ _, ok).

(** [tc_ns_register_agent] after its checks. *)
Definition register_prog (agent_id dev_file buff size user : Z) (user_agent : bool) : prog :=
  PReuse agent_id dev_file (λ '(r, found, p),
    if nonzero r then PEnd
    else if (found : bool) then get_buffer_prog p user user_agent (PPut p PEnd) (PPut p PEnd)
    else PChoose (λ have_buff, if negb have_buff then PEnd else
    PAlloc (EventData agent_id AGENT_REGISTERED 0 dev_file buff 0 size 0 0) (λ p,
    if p =? 0 then PEnd else
    get_buffer_prog p user user_agent
      (PChoose (λ tee_ok, if tee_ok then PLink p PEnd else unmap_prog p (PFree p PEnd)))
      (PFree p PEnd)))).

(** The operations a thread may run. *)
Inductive operation : prog → Prop :=
| op_work i : operation (work_prog i)
| op_alive i : operation (alive_prog i)
| op_wait i : operation (wait_prog i)
| op_respond i : operation (respond_prog i)
| op_crashed i : operation (crashed_prog i)
| op_system dev : operation (system_agent_prog dev)
| op_clear dev : operation (clear_owner_prog dev)
| op_unregister i : operation (unregister_prog i)
| op_register i dev b s u k : operation (register_prog i dev b s u k).

(** ** Threads *)

(** A thread, with the references it has taken and not given back (one entry
    for each) and the nodes it has allocated and not yet linked or freed. *)
Record thread := Thread { t_prog : prog; t_held : list Z; t_own : list Z }.

(** One occurrence less. *)
Fixpoint without (p : Z) (l : list Z) : list Z :=
  match l with
  | [] => []
  | q :: l => if q =? p then l else q :: without p l
  end.

Definition add_ref (p : Z) (l : list Z) : list Z := if p =? 0 then l else p :: l.

(** One step of a thread: [b] is the answer from outside or the end of a sleep,
    [kz] the address [kzalloc] returns. *)
Definition exec (b : bool) (kz : Z) (A : agent_control) (t : thread)
    : outcome (agent_control * thread) :=
  let H := t_held t in
  let O := t_own t in
  match t_prog t with
  | PEnd | PLost => Ret (A, t)
  | PFind i k => '(A, p) ← find_event_control A i; Ret (A, Thread (k p) (add_ref p H) O)
  | PReuse i dev k =>
      '(A, r, found, p) ← reuse_agent_node A i dev;
      Ret (A, Thread (k (r, found, p)) (add_ref p H) O)
  | PUnlink i k =>
      p ← find_node A (has_id i) (agent_list A);
      if p =? 0 then Ret (A, Thread (k p) H O)
      else l ← unlink p (agent_list A);
           Ret (AgentControl (ev_heap A) l, Thread (k p) (add_ref p H) O)
  | PScan q f k =>
      p ← find_node A q (agent_list A);
      if p =? 0 then Ret (A, Thread (k p) H O)
      else d ← at_index (ev_heap A) p; Ret (set_ev A p (f d), Thread (k p) H O)
  | PLink p k => A ← add_event_node_to_list A p; Ret (A, Thread k H (without p O))
  | PAccess p f k =>
      d ← at_index (ev_heap A) p; Ret (set_ev A p (f d), Thread (k d) H O)
  | PWait p stop k =>
      d ← at_index (ev_heap A) p;
      if b then Ret (A, Thread (k (stop d)) H O) else Ret (A, t)
  | PPut p k => A ← put_agent_event A p; Ret (A, Thread k (without p H) O)
  | PAlloc d k =>
      if zero_or_null_ptr kz then Ret (A, Thread (k 0) H O)
      else Ret (set_ev A kz d, Thread (k kz) H (kz :: O))
  | PFree p k => _ ← at_index (ev_heap A) p; Ret (free_ev A p, Thread k H (without p O))
  | PChoose k => Ret (A, Thread (k b) H O)
  end.

Definition all_held (ts : list thread) : list Z := concat (t_held <$> ts).
Definition all_own (ts : list thread) : list Z := concat (t_own <$> ts).

(** Far fewer references than the counter can count. *)
Definition few_refs (ts : list thread) : Prop :=
  Z.of_nat (length (all_held ts)) + 2 < 2 ^ 31.

Inductive sys_step : agent_control * list thread → agent_control * list thread → Prop :=
| sys_start A ts c : operation c → sys_step (A, ts) (A, ts ++ [Thread c [] []])
| sys_exec A ts i t b kz A' t' :
    ts !! i = Some t → ev_heap A !! kz = None → few_refs ts →
    exec b kz A t = Ret (A', t') → sys_step (A, ts) (A', <[i := t']> ts).

Definition sys_reach (x : agent_control * list thread) : Prop :=
  rtc sys_step (AgentControl ∅ [], []) x.

(** ** The invariant *)

Definition keeps_usage (f : smc_event_data → smc_event_data) : Prop :=
  ∀ d, ev_usage (f d) = ev_usage d.

(** A thread with references [H] and nodes of its own [O] touches only these,
    leaves the counters to [get] and [put], and ends without any, unless in
    [PLost]. *)
Fixpoint disciplined (H O : list Z) (c : prog) : Prop :=
  match c with
  | PEnd => H = [] ∧ O = []
  | PLost => O = []
  | PFind _ k | PUnlink _ k => ∀ p, disciplined (add_ref p H) O (k p)
  | PReuse _ _ k =>
      ∀ (r : Z) (found : bool) p, (if found then p ≠ 0 ∧ r = 0 else p = 0) →
        disciplined (add_ref p H) O (k (r, found, p))
  | PScan _ f k => keeps_usage f ∧ ∀ p, disciplined H O (k p)
  | PLink p k | PFree p k => p ∈ O ∧ disciplined H (without p O) k
  | PAccess p f k => p ∈ H ++ O ∧ keeps_usage f ∧ ∀ d, disciplined H O (k d)
  | PWait p _ k => p ∈ H ∧ ∀ b, disciplined H O (k b)
  | PPut p k => p ∈ H ∧ disciplined (without p H) O k
  | PAlloc _ k => ∀ p, disciplined H (add_ref p O) (k p)
  | PChoose k => ∀ b, disciplined H O (k b)
  end.

Ltac discipline := repeat (simpl; unfold add_ref, get_buffer_prog in *;
  change (nonzero 0) with false; rewrite ?Z.eqb_refl; match goal with
  | |- ∀ _, _ => intro
  | |- _ ∧ _ => split
  | |- keeps_usage _ => done
  | |- _ = _ => done
  | |- _ ∈ _ => set_solver
  | H : if ?b then _ else _ |- _ => destruct b
  | H : _ ∧ _ |- _ => destruct H
  | H : ?p ≠ 0 |- context [?p =? 0] => rewrite (proj2 (Z.eqb_neq p 0) H)
  | H : ?p = 0 |- _ => subst
  | |- context [?p =? 0] => destruct (Z.eqb_spec p 0); subst
  | |- context [?p =? ?q] => destruct (Z.eqb_spec p q); subst
  | |- context [if ?b then _ else _] => destruct b
  end).

Lemma operation_disciplined c : operation c → disciplined [] [] c.
Proof. destruct 1; discipline. Qed.

Lemma without_perm p l : p ∈ l → l ≡ₚ p :: without p l.
Proof.
  induction l as [|q l IH]; intros Hp; [by apply elem_of_nil in Hp|]. simpl.
  destruct (Z.eqb_spec q p) as [->|Hne]; [done|].
  apply elem_of_cons in Hp as [?|Hp]; [by subst|]. rewrite (IH Hp) at 1. apply Permutation_swap.
Qed.

(** Occurrences. *)
Definition occ (p : Z) (l : list Z) : Z := Z.of_nat (count_occ Z.eq_dec l p).

Lemma occ_cons p q l : occ p (q :: l) = (if decide (p = q) then 1 else 0) + occ p l.
Proof.
  unfold occ. simpl. destruct (Z.eq_dec q p), (decide (p = q)); lia.
Qed.

Lemma occ_pos p l : p ∈ l ↔ 0 < occ p l.
Proof. unfold occ. rewrite list_elem_of_In, (count_occ_In Z.eq_dec). lia. Qed.

Lemma occ_range p l : 0 ≤ occ p l ≤ Z.of_nat (length l).
Proof. unfold occ. pose proof (count_occ_bound Z.eq_dec p l). lia. Qed.

Lemma occ_perm p l l' : l ≡ₚ l' → occ p l = occ p l'.
Proof. intros H. unfold occ. by rewrite (proj1 (Permutation_count_occ Z.eq_dec l l') H). Qed.

(** The nodes with the references [HH] of all threads and the nodes [OO] that
    are not on the list yet. *)
Record nodes_ok (A : agent_control) (HH OO : list Z) : Prop := {
  nd_nodup : NoDup (agent_list A);
  nd_null : (0 ∉ agent_list A) ∧ (0 ∉ HH) ∧ (0 ∉ OO);
  nd_alloc p : is_Some (ev_heap A !! p) ↔ p ∈ agent_list A ∨ p ∈ HH ∨ p ∈ OO;
  nd_own_nodup : NoDup OO;
  nd_own p : p ∈ OO → (p ∉ agent_list A) ∧ (p ∉ HH);
  nd_usage p d :
    ev_heap A !! p = Some d → p ∉ OO →
    ev_usage d = (if decide (p ∈ agent_list A) then 1 else 0) + occ p HH
}.

Lemma nodes_perm A HH HH' OO OO' :
  HH ≡ₚ HH' → OO ≡ₚ OO' → nodes_ok A HH OO → nodes_ok A HH' OO'.
Proof.
  intros E1 E2 []. split; try done.
  - by rewrite <- E1, <- E2.
  - intros p. by rewrite <- E1, <- E2.
  - by rewrite <- E2.
  - intros p. rewrite <- E1, <- E2. auto.
  - intros p d Hd. rewrite <- E2, <- (occ_perm p _ _ E1). auto.
Qed.

(** *** What the functions do to it *)

Lemma nodes_update A HH OO p d d' :
  nodes_ok A HH OO → ev_heap A !! p = Some d → ev_usage d' = ev_usage d →
  nodes_ok (set_ev A p d') HH OO.
Proof.
  intros [] Hd Hu. split; try done; simpl.
  - intros q. rewrite lookup_insert_is_Some', <- nd_alloc0. naive_solver.
  - intros q e [[<- <-]|[_ He]]%lookup_insert_Some; [rewrite Hu|]; eauto.
Qed.

Lemma nodes_get A HH OO p d :
  nodes_ok A HH OO → p ∈ agent_list A → ev_heap A !! p = Some d →
  nodes_ok (set_ev A p (ev_with_usage d (ev_usage d + 1))) (p :: HH) OO.
Proof.
  intros Hok Hp Hd. pose proof Hok as []. destruct nd_null0 as (N1 & N2 & N3).
  split; simpl; try done.
  - split_and!; [done| |done]. intros [E|?]%elem_of_cons; [by subst|done].
  - intros q. rewrite lookup_insert_is_Some', elem_of_cons, nd_alloc0. naive_solver.
  - intros q Hq. destruct (nd_own0 q Hq). split; [done|].
    intros [->|?]%elem_of_cons; done.
  - intros q e. rewrite occ_cons. intros [[<- <-]|[Hne He]]%lookup_insert_Some Ho; simpl.
    + rewrite (nd_usage0 p d Hd Ho), (decide_True (P := p = p)) by done. lia.
    + rewrite (decide_False (P := q = p)) by done. rewrite (nd_usage0 q e He Ho). lia.
Qed.

Lemma nodes_put A HH OO p :
  nodes_ok A (p :: HH) OO → Z.of_nat (length HH) + 3 < 2 ^ 31 →
  ∃ A', put_agent_event A p = Ret A' ∧ nodes_ok A' HH OO.
Proof.
  intros Hok Hs. pose proof Hok as []. destruct nd_null0 as (N1 & N2 & N3).
  assert (p ≠ 0) as Hp by (intros ->; apply N2; left).
  assert (p ∉ OO) as Ho by (intros [_ Hn]%nd_own0; apply Hn; left).
  destruct (proj2 (nd_alloc0 p)) as [d Hd]; [right; left; left|].
  pose proof (nd_usage0 p d Hd Ho) as Hu. rewrite occ_cons, (decide_True (P := p = p)) in Hu by done.
  pose proof (occ_range p HH) as Hr.
  assert (∀ q e, ev_heap A !! q = Some e → q ∉ OO → q ≠ p →
    ev_usage e = (if decide (q ∈ agent_list A) then 1 else 0) + occ q HH) as Hoth.
  { intros q e He Hq Hne. rewrite (nd_usage0 q e He Hq), occ_cons.
    rewrite (decide_False (P := q = p)) by done. lia. }
  destruct (decide ((p ∉ agent_list A) ∧ (p ∉ HH))) as [[Hl Hh]|Hn].
  - assert (occ p HH = 0) as E by (rewrite occ_pos in Hh; lia).
    rewrite decide_False in Hu by done. exists (free_ev A p).
    split; [eapply put_event_last; [done..|lia]|]. split; simpl; try done.
    + split_and!; [done| |done]. intros ?; apply N2; by right.
    + intros q. rewrite lookup_delete_is_Some, nd_alloc0, elem_of_cons. split; [naive_solver|].
      intros Hq. split; [intros ->; tauto|tauto].
    + intros q Hq. destruct (nd_own0 q Hq) as [? Hnq]. split; [done|]. intros ?; apply Hnq; by right.
    + intros q e [Hne He]%lookup_delete_Some Hq. by apply Hoth.
  - assert (0 < (if decide (p ∈ agent_list A) then 1 else 0) + occ p HH) as Hpos.
    { destruct (decide (p ∈ agent_list A)); [lia|]. destruct (decide (p ∈ HH)) as [H|]; [|tauto].
      apply occ_pos in H. lia. }
    eexists. split; [apply (put_event_ok A p d
      ((if decide (p ∈ agent_list A) then 1 else 0) + occ p HH)); try done; [lia|]|].
    { destruct (decide (p ∈ agent_list A)); lia. }
    split; simpl; try done.
    + split_and!; [done| |done]. intros ?; apply N2; by right.
    + intros q. rewrite lookup_insert_is_Some', nd_alloc0, elem_of_cons. split; [|naive_solver].
      intros [<-|[?|[[->|?]|?]]]; auto;
        destruct (decide (p ∈ agent_list A)); auto; destruct (decide (p ∈ HH)); auto; tauto.
    + intros q Hq. destruct (nd_own0 q Hq) as [? Hnq]. split; [done|]. intros ?; apply Hnq; by right.
    + intros q e [[<- <-]|[Hne He]]%lookup_insert_Some Hq; [done|by apply Hoth].
Qed.

(** The reference of the list goes to the thread that unlinks the node. *)
Lemma nodes_unlink A HH OO p :
  nodes_ok A HH OO → p ∈ agent_list A →
  nodes_ok (AgentControl (ev_heap A) (filter (λ q, q ≠ p) (agent_list A))) (p :: HH) OO.
Proof.
  intros [] Hp. destruct nd_null0 as (N1 & N2 & N3).
  assert (∀ q, q ∈ filter (λ q, q ≠ p) (agent_list A) ↔ q ≠ p ∧ q ∈ agent_list A) as Hf
    by (intros q; by rewrite list_elem_of_filter).
  split; simpl; try done.
  - by apply NoDup_filter.
  - split_and!; [by intros [_ ?]%Hf| |done]. intros [E|?]%elem_of_cons; [by subst|done].
  - intros q. rewrite nd_alloc0, elem_of_cons, Hf. destruct (decide (q = p)); naive_solver.
  - intros q Hq. destruct (nd_own0 q Hq). split; [by intros [_ ?]%Hf|].
    intros [->|?]%elem_of_cons; done.
  - intros q d Hd Ho. rewrite (nd_usage0 q d Hd Ho), occ_cons.
    destruct (decide (q = p)) as [->|Hne].
    + rewrite decide_True, decide_False by (done || by intros [? _]%Hf). lia.
    + destruct (decide (q ∈ agent_list A)).
      * rewrite decide_True by (by apply Hf). lia.
      * rewrite decide_False by (by intros [_ ?]%Hf). lia.
Qed.

Lemma nodes_link A HH OO p :
  nodes_ok A HH (p :: OO) →
  ∃ A', add_event_node_to_list A p = Ret A' ∧ nodes_ok A' HH OO.
Proof.
  intros Hok. pose proof Hok as []. destruct nd_null0 as (N1 & N2 & N3).
  apply NoDup_cons in nd_own_nodup0 as [Hp Hnd]. destruct (nd_own0 p ltac:(left)) as [Hl Hh].
  destruct (proj2 (nd_alloc0 p)) as [d Hd]; [right; right; left|].
  unfold add_event_node_to_list. rewrite (proj2 (at_index_Some _ _ _) Hd), ret_bind.
  eexists. split; [done|].
  assert (∀ q, q ∈ agent_list A ++ [p] ↔ q ∈ agent_list A ∨ q = p) as Hf
    by (intros q; by rewrite elem_of_app, list_elem_of_singleton).
  split; simpl; try done.
  - apply NoDup_app. split; [done|]. split; [|apply NoDup_singleton].
    intros q Hq ->%list_elem_of_singleton. done.
  - split_and!; [|done|]; [intros [?|E]%Hf; [done|]|]; [subst; apply N3; left|].
    intros ?; apply N3; by right.
  - intros q. rewrite lookup_insert_is_Some', nd_alloc0, elem_of_cons, Hf. naive_solver.
  - intros q Hq. destruct (nd_own0 q) as [? ?]; [by right|]. split; [|done].
    intros [?| ->]%Hf; done.
  - intros q e [[<- <-]|[Hne He]]%lookup_insert_Some Ho; simpl.
    + rewrite decide_True by (apply Hf; by right). rewrite occ_pos in Hh.
      pose proof (occ_range p HH). lia.
    + rewrite (nd_usage0 q e He) by (intros [?|?]%elem_of_cons; [congruence|done]).
      destruct (decide (q ∈ agent_list A)); [rewrite decide_True|rewrite decide_False]; try done;
        rewrite Hf; naive_solver.
Qed.

Lemma nodes_alloc A HH OO p d :
  nodes_ok A HH OO → ev_heap A !! p = None → p ≠ 0 → nodes_ok (set_ev A p d) HH (p :: OO).
Proof.
  intros [] Hp Hp0. destruct nd_null0 as (N1 & N2 & N3).
  assert (¬ (p ∈ agent_list A ∨ p ∈ HH ∨ p ∈ OO)) as Hn.
  { intros [x Hx]%nd_alloc0. congruence. }
  split; simpl; try done.
  - split_and!; [done..|]. intros [E|?]%elem_of_cons; [by subst|done].
  - intros q. rewrite lookup_insert_is_Some', nd_alloc0, elem_of_cons. naive_solver.
  - apply NoDup_cons. split; [tauto|done].
  - intros q [->|Hq]%elem_of_cons; [tauto|]. by apply nd_own0.
  - intros q e [[<- <-]|[Hne He]]%lookup_insert_Some Ho; [exfalso; apply Ho; left|].
    apply nd_usage0; [done|]. intros ?; apply Ho; by right.
Qed.

Lemma nodes_free A HH OO p :
  nodes_ok A HH (p :: OO) → is_Some (ev_heap A !! p) ∧ nodes_ok (free_ev A p) HH OO.
Proof.
  intros []. destruct nd_null0 as (N1 & N2 & N3).
  apply NoDup_cons in nd_own_nodup0 as [Hp Hnd]. destruct (nd_own0 p ltac:(left)) as [Hl Hh].
  split; [apply nd_alloc0; right; right; left|]. split; simpl; try done.
  - split_and!; [done..|]. intros ?; apply N3; by right.
  - intros q. rewrite lookup_delete_is_Some, nd_alloc0, elem_of_cons. split; [naive_solver|].
    intros Hq. split; [intros ->; tauto|tauto].
  - intros q Hq. apply nd_own0. by right.
  - intros q e [Hne He]%lookup_delete_Some Ho. apply nd_usage0; [done|].
    intros [?|?]%elem_of_cons; [congruence|done].
Qed.

(** A section that looks for a node. *)
Lemma nodes_find A HH OO q :
  nodes_ok A HH OO →
  ∃ p, find_node A q (agent_list A) = Ret p ∧
    (p = 0 ∨ p ≠ 0 ∧ p ∈ agent_list A ∧ (p ∉ OO) ∧ ∃ d, ev_heap A !! p = Some d).
Proof.
  intros []. destruct (find_node_cases A q (agent_list A)) as (p & E & Hp).
  { intros p Hp. apply nd_alloc0. by left. }
  exists p. split; [done|]. destruct Hp as [[? _]|[Hl (d & Hd & _)]]; [by left|right].
  split_and!; [|done| |by eexists].
  - intros ->. by apply (proj1 nd_null0).
  - intros [? _]%nd_own0. done.
Qed.

Lemma nodes_get_event A HH OO p d :
  nodes_ok A HH OO → Z.of_nat (length HH) + 2 < 2 ^ 31 →
  p ≠ 0 → p ∈ agent_list A → ev_heap A !! p = Some d →
  get_agent_event A p = Ret (set_ev A p (ev_with_usage d (ev_usage d + 1))) ∧
  nodes_ok (set_ev A p (ev_with_usage d (ev_usage d + 1))) (p :: HH) OO.
Proof.
  intros Hok Hs Hp Hl Hd. split; [|by apply nodes_get].
  unfold get_agent_event. rewrite (proj2 (Z.eqb_neq p 0)) by done.
  rewrite (proj2 (at_index_Some _ _ _) Hd), ret_bind. unfold atomic_inc.
  rewrite (nd_usage _ _ _ Hok p d Hd) by (intros [? _]%(nd_own _ _ _ Hok); done).
  rewrite decide_True by done. pose proof (occ_range p HH). by rewrite s32_small by lia.
Qed.

(** *** One step of a thread *)

Lemma without_app p H R : p ∈ H → H ++ R ≡ₚ p :: without p H ++ R.
Proof. intros Hp. by rewrite (without_perm p H Hp) at 1. Qed.

Lemma add_ref_app p H R : add_ref p H ++ R = add_ref p (H ++ R).
Proof. unfold add_ref. by destruct (p =? 0). Qed.

Lemma add_ref_nonzero p H : p ≠ 0 → add_ref p H = p :: H.
Proof. intros Hp. unfold add_ref. by rewrite (proj2 (Z.eqb_neq p 0)). Qed.

Definition thread_ok (t : thread) : Prop := disciplined (t_held t) (t_own t) (t_prog t).

Lemma exec_find_ok b kz A i k H O R OO :
  nodes_ok A (H ++ R) (O ++ OO) → Z.of_nat (length (H ++ R)) + 2 < 2 ^ 31 →
  ∃ A' p, exec b kz A (Thread (PFind i k) H O) = Ret (A', Thread (k p) (add_ref p H) O) ∧
    nodes_ok A' (add_ref p H ++ R) (O ++ OO).
Proof.
  intros Hok Hs. unfold exec, find_event_control. simpl.
  destruct (nodes_find _ _ _ (has_id i) Hok) as (p & -> & [->|(Hp & Hl & _ & d & Hd)]);
    rewrite ret_bind.
  - by exists A, 0.
  - destruct (nodes_get_event _ _ _ p d Hok Hs Hp Hl Hd) as [-> Hok']. rewrite !ret_bind.
    eexists _, p. split; [done|]. by rewrite add_ref_nonzero.
Qed.

Lemma exec_reuse_ok b kz A i dev k H O R OO :
  nodes_ok A (H ++ R) (O ++ OO) → Z.of_nat (length (H ++ R)) + 2 < 2 ^ 31 →
  ∃ A' (r : Z) (found : bool) p,
    exec b kz A (Thread (PReuse i dev k) H O) = Ret (A', Thread (k (r, found, p)) (add_ref p H) O) ∧
    nodes_ok A' (add_ref p H ++ R) (O ++ OO) ∧ (if found then p ≠ 0 ∧ r = 0 else p = 0).
Proof.
  intros Hok Hs. unfold exec, reuse_agent_node. simpl.
  destruct (nodes_find _ _ _ (has_id i) Hok) as (p & -> & [->|(Hp & Hl & _ & d & Hd)]);
    rewrite ret_bind.
  { by exists A, 0, false, 0. }
  rewrite (proj2 (Z.eqb_neq p 0)), (proj2 (at_index_Some _ _ _) Hd), ret_bind by done.
  destruct (negb _); [by exists A, (- EINVAL), false, 0|].
  destruct (nodes_get_event _ _ _ p d Hok Hs Hp Hl Hd) as [-> Hok']. rewrite ret_bind.
  rewrite at_set_ev, !ret_bind.
  eexists _, 0, true, p. split; [done|]. rewrite add_ref_nonzero by done. split; [|done].
  eapply nodes_update; [exact Hok'|apply lookup_insert_eq|done].
Qed.

Lemma exec_unlink_ok b kz A i k H O R OO :
  nodes_ok A (H ++ R) (O ++ OO) →
  ∃ A' p, exec b kz A (Thread (PUnlink i k) H O) = Ret (A', Thread (k p) (add_ref p H) O) ∧
    nodes_ok A' (add_ref p H ++ R) (O ++ OO).
Proof.
  intros Hok. unfold exec. simpl.
  destruct (nodes_find _ _ _ (has_id i) Hok) as (p & -> & [->|(Hp & Hl & _ & d & Hd)]);
    rewrite ret_bind.
  - by exists A, 0.
  - rewrite (proj2 (Z.eqb_neq p 0)) by done. unfold unlink. rewrite decide_True, ret_bind by done.
    eexists _, p. split; [done|]. rewrite add_ref_nonzero by done. by apply nodes_unlink.
Qed.

Lemma exec_ok b kz A t R OO :
  nodes_ok A (t_held t ++ R) (t_own t ++ OO) → thread_ok t → ev_heap A !! kz = None →
  Z.of_nat (length (t_held t ++ R)) + 2 < 2 ^ 31 →
  ∃ A' t', exec b kz A t = Ret (A', t') ∧
    nodes_ok A' (t_held t' ++ R) (t_own t' ++ OO) ∧ thread_ok t'.
Proof.
  intros Hok Ht Hkz Hs. destruct t as [c H O]. unfold thread_ok in *. cbn [t_prog t_held t_own] in *.
  destruct c as [| |i k|i dev k|i k|q f k|p k|p f k|p stop k|p k|d k|p k|k]; cbn [disciplined] in Ht.
  - by eexists _, _.
  - by eexists _, _.
  - destruct (exec_find_ok b kz A i k H O R OO Hok Hs) as (A' & p & -> & Hok').
    eexists _, _. split; [done|]. by split; [|apply Ht].
  - destruct (exec_reuse_ok b kz A i dev k H O R OO Hok Hs) as (A' & r & f & p & -> & Hok' & Hf).
    eexists _, _. split; [done|]. by split; [|apply Ht].
  - destruct (exec_unlink_ok b kz A i k H O R OO Hok) as (A' & p & -> & Hok').
    eexists _, _. split; [done|]. by split; [|apply Ht].
  - destruct Ht as [Hf Hk]. unfold exec. cbn [t_prog t_held t_own].
    destruct (nodes_find _ _ _ q Hok) as (p & -> & [->|(Hp & Hl & _ & d & Hd)]); rewrite ret_bind.
    { eexists _, _. split; [done|]. by split; [|apply Hk]. }
    rewrite (proj2 (Z.eqb_neq p 0)), (proj2 (at_index_Some _ _ _) Hd), ret_bind by done.
    eexists _, _. split; [done|]. split; [|apply Hk]. by eapply nodes_update.
  - destruct Ht as [Hp Hk]. unfold exec. cbn [t_prog t_held t_own].
    destruct (nodes_link A (H ++ R) (without p O ++ OO) p) as (A' & -> & Hok').
    { eapply nodes_perm; [done| |exact Hok]. by apply without_app. }
    rewrite ret_bind. by eexists _, _.
  - destruct Ht as (Hp & Hf & Hk). unfold exec. cbn [t_prog t_held t_own].
    destruct (proj2 (nd_alloc _ _ _ Hok p)) as [d Hd]; [set_solver|].
    rewrite (proj2 (at_index_Some _ _ _) Hd), ret_bind. eexists _, _. split; [done|].
    split; [|apply Hk]. by eapply nodes_update.
  - destruct Ht as [Hp Hk]. unfold exec. cbn [t_prog t_held t_own].
    destruct (proj2 (nd_alloc _ _ _ Hok p)) as [d Hd]; [set_solver|].
    rewrite (proj2 (at_index_Some _ _ _) Hd), ret_bind.
    destruct b; eexists _, _; (split; [done|]); split; try done. apply Hk.
  - destruct Ht as [Hp Hk]. unfold exec. cbn [t_prog t_held t_own].
    pose proof (without_app p H R Hp) as Hw.
    destruct (nodes_put A (without p H ++ R) (O ++ OO) p) as (A' & -> & Hok').
    { by eapply nodes_perm; [exact Hw|done|]. }
    { apply Permutation_length in Hw. simpl in Hw. lia. }
    rewrite ret_bind. by eexists _, _.
  - unfold exec. cbn [t_prog t_held t_own]. destruct (zero_or_null_ptr kz) eqn:E.
    { eexists _, _. split; [done|]. split; [done|]. apply (Ht 0). }
    assert (kz ≠ 0) as Hk0 by by intros ->. eexists _, _. split; [done|]. split.
    + by apply nodes_alloc.
    + specialize (Ht kz). by rewrite add_ref_nonzero in Ht.
  - destruct Ht as [Hp Hk]. unfold exec. cbn [t_prog t_held t_own].
    destruct (nodes_free A (H ++ R) (without p O ++ OO) p) as [[d Hd] Hok'].
    { eapply nodes_perm; [done| |exact Hok]. by apply without_app. }
    rewrite (proj2 (at_index_Some _ _ _) Hd), ret_bind. by eexists _, _.
  - eexists _, _. split; [done|]. by split; [|apply Ht].
Qed.

(** ** All threads *)

Definition sys_ok (x : agent_control * list thread) : Prop :=
  nodes_ok x.1 (all_held x.2) (all_own x.2) ∧ Forall thread_ok x.2.

(** The references of one thread and of the others. *)
Lemma held_split {X} (f : thread → list X) ts i t :
  ts !! i = Some t →
  ∃ rest, concat (f <$> ts) ≡ₚ f t ++ rest ∧
    ∀ t', concat (f <$> <[i := t']> ts) ≡ₚ f t' ++ rest.
Proof.
  intros Hi. exists (concat (f <$> take i ts) ++ concat (f <$> drop (S i) ts)).
  assert (∀ t', concat (f <$> take i ts ++ t' :: drop (S i) ts) ≡ₚ
    f t' ++ concat (f <$> take i ts) ++ concat (f <$> drop (S i) ts)) as H.
  { intros t'. rewrite fmap_app, concat_app, fmap_cons. simpl.
    rewrite !(assoc (++)). apply Permutation_app_tail, Permutation_app_comm. }
  split.
  - rewrite <- H. by rewrite take_drop_middle.
  - intros t'. rewrite <- H. rewrite insert_take_drop; [done|]. by eapply lookup_lt_Some.
Qed.

Lemma sys_exec_ok A ts i t b kz :
  sys_ok (A, ts) → ts !! i = Some t → ev_heap A !! kz = None → few_refs ts →
  ∃ A' t', exec b kz A t = Ret (A', t') ∧ sys_ok (A', <[i := t']> ts).
Proof.
  intros [Hok Hts] Hi Hkz Hf. simpl in *.
  destruct (held_split t_held ts i t Hi) as (R & ER & ER').
  destruct (held_split t_own ts i t Hi) as (OO & EO & EO').
  destruct (exec_ok b kz A t R OO) as (A' & t' & E & Hok' & Ht').
  - eapply nodes_perm; [exact ER|exact EO|exact Hok].
  - by apply (proj1 (Forall_lookup _ _) Hts i).
  - done.
  - unfold few_refs, all_held in Hf. apply Permutation_length in ER. by rewrite <- ER.
  - exists A', t'. split; [done|]. split; simpl.
    + eapply nodes_perm; [symmetry; apply ER'|symmetry; apply EO'|exact Hok'].
    + by apply Forall_insert.
Qed.

Lemma sys_reach_ok x : sys_reach x → sys_ok x.
Proof.
  unfold sys_reach. assert (sys_ok (AgentControl ∅ [], [])) as H0.
  { split; [|by apply Forall_nil]. split; simpl; try done; try apply NoDup_nil; try done.
    - split_and!; apply not_elem_of_nil.
    - intros p. rewrite lookup_empty. split; [by intros []|set_solver].
    - intros p ?%elem_of_nil. done. }
  revert H0. generalize (AgentControl ∅ [], @nil thread). intros x0 H0 Hr. revert H0.
  induction Hr as [|x1 x2 x3 Hs _ IH]; [done|]. intros H1. apply IH. clear IH.
  destruct Hs as [A ts c Hc|A ts i t b kz A' t' Hi Hkz Hf E].
  - destruct H1 as [Hok Hts]. split; simpl in *.
    + unfold all_held, all_own in *. rewrite !fmap_app, !concat_app. simpl. by rewrite !app_nil_r.
    + apply Forall_app. split; [done|]. apply Forall_singleton. by apply operation_disciplined.
  - destruct (sys_exec_ok A ts i t b kz H1 Hi Hkz Hf) as (A2 & t2 & E2 & H2).
    rewrite E in E2. injection E2 as <- <-. exact H2.
Qed.

(** C20. The lifetime of event nodes.  Any number of threads run
    [agent_process_work], [tc_ns_wait_event], [tc_ns_send_event_response],
    [send_event_response] for agents that die, [is_agent_alive],
    [tc_ns_register_agent], [tc_ns_unregister_agent] and the operations on the
    agents of a device file, interleaved between any two accesses and with
    callers killed and agents dying at any time.  The count of every node is
    one if it is on the list plus the references the threads have taken and not
    given back; a node is allocated exactly as long as it is on the list, or
    some thread has a reference to it, or is still registering it; no access to
    a node faults; and a thread that has returned has no reference left,
    except a [tc_ns_unregister_agent] that found a node without a buffer. *)
Theorem agent_node_lifetime A ts :
  sys_reach (A, ts) →
  (∀ p d, ev_heap A !! p = Some d → p ∉ all_own ts →
     ev_usage d = (if decide (p ∈ agent_list A) then 1 else 0) + occ p (all_held ts)) ∧
  (∀ p, is_Some (ev_heap A !! p) ↔ p ∈ agent_list A ∨ p ∈ all_held ts ∨ p ∈ all_own ts) ∧
  (∀ i t b kz, few_refs ts → ts !! i = Some t → ev_heap A !! kz = None → exec b kz A t ≠ Fault) ∧
  (∀ i t, ts !! i = Some t → t_prog t = PEnd → t_held t = [] ∧ t_own t = []).
Proof.
  intros Hr%sys_reach_ok. pose proof Hr as [Hok Hts]. simpl in Hok, Hts. split_and!.
  - apply (nd_usage _ _ _ Hok).
  - apply (nd_alloc _ _ _ Hok).
  - intros i t b kz Hf Hi Hkz. destruct (sys_exec_ok A ts i t b kz Hr Hi Hkz Hf) as (? & ? & -> & _).
    done.
  - intros i t Hi E. apply (proj1 (Forall_lookup _ _) Hts) in Hi. unfold thread_ok in Hi.
    by rewrite E in Hi.
Qed.

(** ** Relation to the sequential code *)

(** A thread alone. *)
Fixpoint alone (n : nat) (A : agent_control) (t : thread) : outcome (agent_control * thread) :=
  match n with
  | O => Ret (A, t)
  | S n => '(A, t) ← exec false 0 A t; alone n A t
  end.

Lemma exec_access b kz A p d f k H O :
  ev_heap A !! p = Some d →
  exec b kz A (Thread (PAccess p f k) H O) = Ret (set_ev A p (f d), Thread (k d) H O).
Proof. intros Hd. unfold exec. cbn [t_prog t_held t_own]. by rewrite (proj2 (at_index_Some _ _ _) Hd). Qed.

Lemma exec_put b kz A p k A' :
  put_agent_event A p = Ret A' →
  exec b kz A (Thread (PPut p k) [p] []) = Ret (A', Thread k [] []).
Proof.
  intros E. unfold exec. cbn [t_prog t_held t_own without]. by rewrite E, Z.eqb_refl.
Qed.

Lemma answer_alone A p d A1 A' :
  p ≠ 0 → ev_heap A !! p = Some d → process_send_event_response A p = Ret A1 →
  put_agent_event A1 p = Ret A' →
  ∃ n, alone n A (Thread (answer_prog p) [p] []) = Ret (A', Thread PEnd [] []).
Proof.
  intros Hp Hd. unfold process_send_event_response, answer_prog, wake, read, write.
  rewrite (proj2 (at_index_Some _ _ _) Hd), ret_bind. pose proof (insert_id _ _ _ Hd) as Eid.
  assert (set_ev A p d = A) as EA by (unfold set_ev; rewrite Eid; by destruct A).
  destruct (ret_flag d =? 0) eqn:E; intros [= <-] Hput.
  - exists 2%nat. cbn [alone]. rewrite (exec_access _ _ _ _ d), ret_bind, EA, E by done.
    by rewrite (exec_put _ _ _ _ _ A').
  - exists 5%nat. cbn [alone]. rewrite (exec_access _ _ _ _ d), ret_bind, EA, E by done.
    rewrite (exec_access _ _ _ _ d), ret_bind by done.
    rewrite (exec_access _ _ _ _ (set_ret_flag 0 d)), ret_bind, set_ev_twice
      by apply lookup_insert_eq.
    rewrite (exec_access _ _ _ _ (set_ca_run 1 (set_ret_flag 0 d))), ret_bind, set_ev_twice
      by apply lookup_insert_eq.
    by rewrite (exec_put _ _ _ _ _ A').
Qed.

(** Run alone, the accesses of [send_event_response] are the function. *)
Lemma crashed_alone A i A' :
  send_event_response A i = Ret A' →
  ∃ n, alone n A (Thread (crashed_prog i) [] []) = Ret (A', Thread PEnd [] []).
Proof.
  unfold send_event_response. intros ([A1 p] & Ef & E)%bind_Ret.
  assert (exec false 0 A (Thread (crashed_prog i) [] []) = Ret (A1, Thread (if p =? 0 then PEnd else
    write p (set_ready AGENT_CRASHED) (answer_prog p)) (add_ref p []) [])) as E1.
  { unfold exec, crashed_prog. cbn [t_prog t_held t_own]. by rewrite Ef. }
  destruct (Z.eqb_spec p 0) as [->|Hp].
  { injection E as <-. exists 1%nat. cbn [alone]. by rewrite E1. }
  apply bind_Ret in E as (d & Hd & (A2 & E2 & E3)%bind_Ret).
  destruct (answer_alone _ p (ev_with_ready d AGENT_CRASHED) A2 A' Hp (lookup_insert_eq _ _ _) E2 E3)
    as [n Hn].
  exists (S (S n)). cbn [alone]. rewrite E1, ret_bind, add_ref_nonzero by done. unfold write.
  rewrite (exec_access _ _ _ _ d), ret_bind; [exact Hn|]. by apply at_index_Some.
Qed.

(** ** Runs *)

(** A schedule: which thread makes the next step, the answer it gets and the
    address [kzalloc] returns. *)
Fixpoint schedule (l : list (nat * bool * Z)) (A : agent_control) (ts : list thread)
    : option (agent_control * list thread) :=
  match l with
  | [] => Some (A, ts)
  | (i, b, kz) :: l =>
      t ← ts !! i;
      if decide (ev_heap A !! kz = None) then
        if decide (Z.of_nat (length (all_held ts)) + 2 < 2 ^ 31) then
          match exec b kz A t with
          | Ret (A', t') => schedule l A' (<[i := t']> ts)
          | Fault => None
          end
        else None
      else None
  end.

Lemma schedule_reach l A ts x : schedule l A ts = Some x → rtc sys_step (A, ts) x.
Proof.
  revert A ts. induction l as [|[[i b] kz] l IH]; intros A ts; simpl; [by intros [= <-]|].
  destruct (ts !! i) as [t|] eqn:Hi; [|done]. simpl. case_decide; [|done]. case_decide; [|done].
  destruct (exec b kz A t) as [[A' t']|] eqn:E; [|done]. intros Hs.
  eapply rtc_l; [|by apply IH]. by eapply sys_exec.
Qed.

Lemma start_reach A ts cs :
  Forall operation cs → rtc sys_step (A, ts) (A, ts ++ ((λ c, Thread c [] []) <$> cs)).
Proof.
  intros Hc. revert ts. induction Hc as [|c cs Hc _ IH]; intros ts; [by rewrite app_nil_r|].
  eapply rtc_l; [by apply sys_start|]. specialize (IH (ts ++ [Thread c [] []])).
  by rewrite <- (assoc (++)) in IH.
Qed.

(** The threads of a run of these operations. *)
Definition started (cs : list prog) : list thread := (λ c, Thread c [] []) <$> cs.

Lemma run_reach cs l x :
  Forall operation cs → schedule l (AgentControl ∅ []) (started cs) = Some x → sys_reach x.
Proof.
  intros Hc Hs%schedule_reach. unfold sys_reach.
  transitivity (AgentControl ∅ [], started cs); [by apply (start_reach _ [] cs)|done].
Qed.

Definition result (o : option (agent_control * list thread)) : agent_control * list thread :=
  default (AgentControl ∅ [], []) o.

(** Two threads unregister the same agent.  The second has found the node when
    the first clears its buffer, and returns without giving the node back: all
    threads have returned, the node is off the list and still allocated. *)
Definition lost_ops : list prog :=
  [register_prog 7 0 0x5000 0x1000 0 false; unregister_prog 7; unregister_prog 7].

(** Thread 0 registers the agent, thread 2 finds the node, thread 1 removes it,
    thread 2 looks at the buffer. *)
Definition lost_schedule : list (nat * bool * Z) :=
  replicate 3 (0%nat, true, 100) ++ replicate 3 (0%nat, true, 200) ++ [(2%nat, true, 200)]
  ++ replicate 12 (1%nat, true, 200) ++ [(2%nat, true, 200)].

Lemma lost_ops_ok : Forall operation lost_ops.
Proof. repeat (apply Forall_cons; split; [constructor|]). by apply Forall_nil. Qed.

Lemma unregister_loses_reference :
  ∃ A ts d, sys_reach (A, ts) ∧ t_prog <$> ts = [PEnd; PEnd; PLost] ∧ agent_list A = [] ∧
    ev_heap A !! 100 = Some d ∧ ev_usage d = 1.
Proof.
  destruct (schedule lost_schedule (AgentControl ∅ []) (started lost_ops)) as [[A ts]|] eqn:E.
  2:{ vm_compute in E. discriminate. }
  pose proof (run_reach lost_ops lost_schedule (A, ts) lost_ops_ok E) as Hr.
  vm_compute in E. injection E as <- <-. eexists _, _, _. split; [exact Hr|]. vm_compute. done.
Qed.

(** An agent dies and its node is removed while a caller waits: the node
    outlives both until the caller has left. *)
Definition demo_ops : list prog :=
  [register_prog 7 0 0x5000 0x1000 0 false; work_prog 7; crashed_prog 7; unregister_prog 7].

Definition demo_schedule : list (nat * bool * Z) :=
  replicate 3 (0%nat, true, 100) ++ replicate 3 (0%nat, true, 200) ++ replicate 5 (1%nat, false, 200) ++
  replicate 7 (2%nat, true, 200) ++ replicate 12 (3%nat, true, 200).

Definition demo_state : agent_control * list thread :=
  result (schedule demo_schedule (AgentControl ∅ []) (started demo_ops)).

Lemma demo_state_reach : sys_reach (demo_state.1, demo_state.2).
Proof.
  apply (run_reach demo_ops demo_schedule).
  - repeat (apply Forall_cons; split; [constructor|]). by apply Forall_nil.
  - vm_compute. reflexivity.
Qed.

Lemma agent_node_lifetime_witness :
  agent_list demo_state.1 = [] ∧ all_held demo_state.2 = [100] ∧
  is_Some (ev_heap demo_state.1 !! 100).
Proof.
  destruct (agent_node_lifetime _ _ demo_state_reach) as (_ & H & _).
  assert (all_held demo_state.2 = [100]) as E by (vm_compute; reflexivity).
  split; [vm_compute; reflexivity|]. split; [exact E|].
  apply H. right. left. rewrite E. left.
Defined.
