(* ===== verification/TeecdAuth.v ===== *)
(** * Authentication of the TEE daemon (core/teec_daemon_auth.c,
    auth/auth_base_impl.c)

    Privileged commands are accepted from the TEE daemon only.  The driver
    hashes the name, path and uid of the calling process and compares the
    result with a constant, and it hashes the code of the process: the first
    accepted process pins its code hash, later ones must have the same.  The
    kernel's SHA-256 and the address space of the task are classes. *)

From stdpp Require Import base gmap list.
From Stdlib Require Import ZArith Lia.
From S2P Require Import Prelude KernelApi TeeTypes Buffers SessReg CallTypes Tlogger TloggerSys.
From S2P Require Import Agent.

Definition BUF_MAX_SIZE : Z := 1024.
Definition SHA256_DIGEST_LENTH : Z := 32.

(** ** The kernel's hash and the task *)

(** [desc_ok] is the outcome of the allocation of the descriptor,
    [shash_descsize] the size of the algorithm's context. *)
Class Shash := {
  shash_ctx : Type;
  shash_descsize : Z;
  desc_ok : bool;
  crypto_shash_init : Z * shash_ctx;
  crypto_shash_update : shash_ctx → list Z → Z * shash_ctx;
  crypto_shash_final : shash_ctx → Z * list Z;
  crypto_shash_digest : list Z → Z * list Z
}.

(** Hashing in pieces is hashing the concatenation. *)
Class ShashLaws (H : Shash) := {
  shash_update_ok c l : (crypto_shash_update c l).1 = 0;
  shash_update_app c l l' :
    crypto_shash_update (crypto_shash_update c l).2 l' = crypto_shash_update c (l ++ l')
}.

(** The part of [struct mm_struct] that is read.  [mm_page n] is the content of
    the page of number [n], [None] when it cannot be pinned or mapped. *)
Record mm_struct := MmStruct {
  start_code : Z;
  end_code : Z;
  mm_page : Z → option (list Z)
}.

Class Task := {
  task_mm : option mm_struct;
  current_comm : list Z;
  path_cert_ok : bool
}.

(** [g_shash_handle] and its state, the pinned hash and its state. *)
Record teecd := Teecd {
  g_shash_handle : Z;
  g_shash_handle_state : bool;
  g_teecd_calc_hash : list Z;
  g_teecd_hash_calced : bool
}.

Definition teecd_init : teecd := Teecd 0 false (replicate 32 0) false.

Definition with_handle (t : teecd) (h : Z) (state : bool) : teecd :=
  Teecd h state (g_teecd_calc_hash t) (g_teecd_hash_calced t).

Definition with_calc_hash (t : teecd) (hash : list Z) (calced : bool) : teecd :=
  Teecd (g_shash_handle t) (g_shash_handle_state t) hash calced.

(** ** The hash handle *)

(** [PTR_ERR] as an [int]. *)
Definition ptr_err (p : Z) : Z := s32 p.

(** [h] is the pointer [crypto_alloc_shash] returns. *)
Definition tee_init_shash_handle (t : teecd) (h : Z) : teecd * Z :=
  if g_shash_handle_state t then (t, 0)
  else if is_err_or_null h then (with_handle t h false, ptr_err h)
  else (with_handle t h true, 0).

Definition tee_exit_shash_handle (t : teecd) : teecd :=
  if g_shash_handle t =? 0 then t else with_handle t 0 false.

Definition get_shash_handle (t : teecd) : Z := g_shash_handle t.

(** ** The hash of name, path and uid *)

(** The decimal digits [%u] prints. *)
Fixpoint digits (fuel : nat) (n : Z) : list Z :=
  match fuel with
  | O => []
  | S fuel => (if n <? 10 then [] else digits fuel (n / 10)) ++ [48 + n mod 10]
  end.

Definition print_u32 (n : Z) : list Z := digits 10 n.

(** [snprintf_s] with a buffer of [BUF_MAX_SIZE]: the length or -1, and the
    text. *)
Definition snprintf_cert (text : list Z) : Z * list Z :=
  if zlen text <=? BUF_MAX_SIZE - 1 then (zlen text, text) else (-1, []).

Section Hash.
Context {H : Shash} {TK : Task} {CR : Caller}.

Definition pack_path_cert (is_hidl_srvc : bool) : Z * list Z :=
  if negb kmalloc_path then (- EFAULT, [])
  else
    match proc_dpath with
    | None => (- EACCES, [])
    | Some dpath =>
        match task_cred with
        | None => (- EACCES, [])
        | Some uid =>
            if is_hidl_srvc then snprintf_cert (dpath ++ print_u32 uid)
            else snprintf_cert (current_comm ++ dpath ++ print_u32 uid)
        end
    end.

(** [sizeof(struct shash_desc)] on a 64-bit kernel. *)
Definition SHASH_DESC_SIZE : Z := 8.

(** Allocation of a descriptor for the handle; asking a handle that is not
    there for its size is a fault. *)
Definition prepare_desc (t : teecd) : outcome Z :=
  if is_err_or_null (g_shash_handle t) then Fault
  else
    let size := u64 (SHASH_DESC_SIZE + shash_descsize) in
    if (size <? SHASH_DESC_SIZE) || (size <? shash_descsize) then Ret (- ENOMEM)
    else if negb desc_ok then Ret (- ENOMEM)
    else Ret EOK.

Definition proc_calc_path_hash (t : teecd) (h : Z) (data : list Z) (dig_len : Z)
    : outcome (teecd * Z * list Z) :=
  if (zlen data =? 0) || negb (dig_len =? SHA256_DIGEST_LENTH) then Ret (t, - EFAULT, [])
  else
    let '(t, ret) := tee_init_shash_handle t h in
    if nonzero ret then Ret (t, - EFAULT, [])
    else
      ret ← prepare_desc t;
      if nonzero ret then Ret (t, ret, [])
      else let '(rc, digest) := crypto_shash_digest data in Ret (t, rc, digest).

Definition calc_path_hash (t : teecd) (h : Z) (is_hidl_srvc : bool) (dig_len : Z)
    : outcome (teecd * Z * list Z) :=
  if negb (dig_len =? SHA256_DIGEST_LENTH) then Ret (t, - EFAULT, [])
  else if negb path_cert_ok then Ret (t, - EFAULT, [])
  else
    let '(packet_size, path_cert) := pack_path_cert is_hidl_srvc in
    if packet_size <=? 0 then Ret (t, - EFAULT, [])
    else
      '(t, ret, digest) ← proc_calc_path_hash t h path_cert dig_len;
      if nonzero ret then Ret (t, - ret, digest) else Ret (t, EOK, digest).

(** ** The hash of the code *)

(** The loop of [update_task_hash]; [rc] is its status so far.  The page that
    holds [start] is mapped and hashed from its beginning. *)
Fixpoint task_hash_loop (fuel : nat) (mm : mm_struct) (start code_size : Z)
    (rc : Z) (c : shash_ctx) : outcome (Z * shash_ctx) :=
  if negb (start <? end_code mm) then Ret (rc, c)
  else
    match fuel with
    | O => Fault
    | S fuel =>
        match mm_page mm (start / PAGE_SIZE) with
        | None => Ret (- EFAULT, c)
        | Some ptr_base =>
            let in_size := if PAGE_SIZE <? code_size then PAGE_SIZE else code_size in
            let '(rc, c) := crypto_shash_update c (sub_buf ptr_base 0 in_size) in
            if nonzero rc then Ret (rc, c)
            else task_hash_loop fuel mm (start + in_size) (u64 (end_code mm - (start + in_size))) rc c
        end
    end.

(** Each iteration but the last consumes a page. *)
Definition task_hash_fuel (mm : mm_struct) : nat :=
  Z.to_nat ((end_code mm - start_code mm) / PAGE_SIZE + 1).

Definition update_task_hash (mm : mm_struct) (c : shash_ctx) : outcome (Z * shash_ctx) :=
  let code_size := u64 (end_code mm - start_code mm) in
  if code_size =? 0 then Ret (- EINVAL, c)
  else task_hash_loop (task_hash_fuel mm) mm (start_code mm) code_size (-1) c.

Definition calc_task_hash (t : teecd) (dig_len : Z) : outcome (Z * list Z) :=
  if negb (dig_len =? SHA256_DIGEST_LENTH) then Ret (- EFAULT, [])
  else
    match task_mm with
    | None => Ret (EOK, replicate (Z.to_nat SHA256_DIGEST_LENTH) 0)
    | Some mm =>
        ret ← prepare_desc t;
        if nonzero ret then Ret (- ENOMEM, [])
        else
          let '(rc, c) := crypto_shash_init in
          if nonzero rc then Ret (- ENOMEM, [])
          else
            '(rc, c) ← update_task_hash mm c;
            if nonzero rc then Ret (- ENOMEM, [])
            else Ret (crypto_shash_final c)
    end.

(** ** Access of the daemon *)

(** The hash of "teecd/usr/bin/teecd0". *)
Definition g_teecd_auth_hash : list Z :=
  [0x62; 0xd9; 0x07; 0xe4; 0xd4; 0xf8; 0x5e; 0x4e;
   0xe4; 0xe7; 0xa1; 0x46; 0x6d; 0x80; 0x03; 0x60;
   0x28; 0x4a; 0xaa; 0xe6; 0xf1; 0xf9; 0x8d; 0x6c;
   0x12; 0x2e; 0xee; 0x21; 0x6b; 0x1f; 0xd4; 0xad].

(** Without CONFIG_SELINUX_ADAPT. *)
Definition check_proc_selinux_access : Z := 0.

Definition check_teecd_path_access (t : teecd) (h : Z) : outcome (teecd * Z) :=
  '(t, ret, digest) ← calc_path_hash t h false SHA256_DIGEST_LENTH;
  if nonzero ret then Ret (t, - EFAULT)
  else if negb (bool_decide (digest = g_teecd_auth_hash)) then Ret (t, - EACCES)
  else if nonzero check_proc_selinux_access then Ret (t, - EACCES)
  else Ret (t, 0).

Definition calc_teecd_process_hash (t : teecd) : outcome (teecd * Z) :=
  if g_teecd_hash_calced t then Ret (t, 0)
  else
    let t := with_calc_hash t (replicate 32 0) false in
    match task_mm with
    | None => Ret (t, - EFAULT)
    | Some _ =>
        '(rc, digest) ← calc_task_hash t SHA256_DIGEST_LENTH;
        if rc =? EOK then Ret (with_calc_hash t digest true, 0)
        else Ret (t, - EFAULT)
    end.

Definition check_teecd_code_hash (t : teecd) : outcome Z :=
  if negb (g_teecd_hash_calced t) then Ret 0
  else
    '(rc, digest) ← calc_task_hash t SHA256_DIGEST_LENTH;
    if nonzero rc then Ret (- EACCES)
    else if negb (bool_decide (digest = g_teecd_calc_hash t)) then Ret (- EACCES)
    else Ret EOK.

Definition check_teecd_access (t : teecd) (h : Z) : outcome (teecd * Z) :=
  '(t, ret) ← check_teecd_path_access t h;
  if nonzero ret then Ret (t, - EACCES)
  else
    '(t, ret) ← calc_teecd_process_hash t;
    if nonzero ret then Ret (t, - EFAULT)
    else
      ret ← check_teecd_code_hash t;
      if nonzero ret then Ret (t, - EACCES) else Ret (t, EOK).

End Hash.
