(* ===== verification/TeecdClaims.v ===== *)
(** * What the authentication of the TEE daemon guarantees

    What exactly the code hash covers, and that the decision refines a simple
    rule: the path must be right and the code hash of the first accepted
    process is pinned for all later ones. *)

From stdpp Require Import base gmap list.
From Stdlib Require Import ZArith Lia.
From S2P Require Import Prelude KernelApi TeeTypes Buffers SessReg CallTypes Tlogger TloggerSys.
From S2P Require Import Agent TeecdAuth.

(** ** The bytes of an address space *)

Definition mm_byte (mm : mm_struct) (x : Z) : Z :=
  match mm_page mm (x / PAGE_SIZE) with
  | Some p => nth (Z.to_nat (x mod PAGE_SIZE)) p 0
  | None => 0
  end.

Definition mm_bytes (mm : mm_struct) (a n : Z) : list Z := mm_byte mm <$> seqZ a n.

Lemma mm_bytes_app mm a n n' :
  0 ≤ n → 0 ≤ n' → mm_bytes mm a (n + n') = mm_bytes mm a n ++ mm_bytes mm (a + n) n'.
Proof. intros. unfold mm_bytes. by rewrite seqZ_app, fmap_app by lia. Qed.

(** Every page of the code is mapped. *)
Definition code_mapped (mm : mm_struct) : Prop :=
  ∀ k, start_code mm / PAGE_SIZE ≤ k ≤ end_code mm / PAGE_SIZE →
    ∃ p, mm_page mm k = Some p ∧ zlen p = PAGE_SIZE.

Lemma page_prefix mm k p n :
  mm_page mm k = Some p → zlen p = PAGE_SIZE → 0 ≤ n ≤ PAGE_SIZE →
  sub_buf p 0 n = mm_bytes mm (k * PAGE_SIZE) n.
Proof.
  intros Hp Hl Hn. unfold zlen, PAGE_SIZE, PAGE_SHIFT in *. apply list_eq. intros i.
  unfold sub_buf, mm_bytes. rewrite list_lookup_fmap. simpl (Z.to_nat 0). rewrite drop_0.
  destruct (decide (i < Z.to_nat n)%nat) as [Hi|Hi].
  - rewrite lookup_take_lt, lookup_seqZ_lt by lia. simpl. unfold mm_byte.
    unfold PAGE_SIZE, PAGE_SHIFT.
    rewrite Z.add_comm, Z.div_add, Z.mod_add, Z.div_small, Z.mod_small by lia.
    rewrite Z.add_0_l, Hp, Nat2Z.id.
    destruct (lookup_lt_is_Some_2 p i) as [x Hx]; [lia|].
    by rewrite (nth_lookup_Some _ _ _ _ Hx), Hx.
  - rewrite lookup_take_ge, lookup_seqZ_ge by lia. done.
Qed.

Lemma page_div_nonneg a : 0 ≤ a → 0 ≤ a / PAGE_SIZE.
Proof. intros. by apply Z.div_pos. Qed.

Section Code.
Context {H : Shash} {HL : ShashLaws H} {TK : Task} {CR : Caller}.

(** The digest of a byte string. *)
Definition hash_of (l : list Z) : Z * list Z :=
  crypto_shash_final (crypto_shash_update crypto_shash_init.2 l).2.

Lemma task_hash_loop_reads mm fuel start rc c :
  code_mapped mm → start_code mm ≤ start < end_code mm → 0 ≤ start → end_code mm < 2 ^ 64 →
  (end_code mm - start) / PAGE_SIZE + 1 ≤ Z.of_nat fuel →
  task_hash_loop fuel mm start (end_code mm - start) rc c =
    Ret (0, (crypto_shash_update c
              (mm_bytes mm (start / PAGE_SIZE * PAGE_SIZE) (end_code mm - start))).2).
Proof.
  intros Hm. revert start rc c. induction fuel as [|fuel IH]; intros start rc c Hs H0 He Hf.
  { pose proof (page_div_nonneg (end_code mm - start) ltac:(lia)). lia. }
  cbn [task_hash_loop]. rewrite (proj2 (Z.ltb_lt _ _)) by lia. cbn [negb].
  assert (0 < PAGE_SIZE) as HP by done.
  destruct (Hm (start / PAGE_SIZE)) as (p & Hp & Hl).
  { split; apply Z.div_le_mono; lia. }
  rewrite Hp.
  destruct (Z.ltb_spec PAGE_SIZE (end_code mm - start)) as [Hlt|Hge].
  - rewrite (page_prefix mm _ p PAGE_SIZE) by (done || lia).
    destruct (crypto_shash_update c _) as [rc1 c1] eqn:E.
    assert (rc1 = 0) as -> by (pose proof (shash_update_ok c
      (mm_bytes mm (start / PAGE_SIZE * PAGE_SIZE) PAGE_SIZE)) as X; by rewrite E in X).
    change (nonzero 0) with false. cbv iota. rewrite u64_small by lia.
    rewrite IH; [|lia..|].
    + do 2 f_equal. f_equal.
      assert (c1 = (crypto_shash_update c
        (mm_bytes mm (start / PAGE_SIZE * PAGE_SIZE) PAGE_SIZE)).2) as -> by (by rewrite E).
      rewrite shash_update_app. f_equal.
      replace (start + PAGE_SIZE) with (start + 1 * PAGE_SIZE) by lia.
      rewrite Z.div_add, Z.mul_add_distr_r, Z.mul_1_l by lia.
      rewrite <- mm_bytes_app by lia. f_equal. lia.
    + replace (end_code mm - (start + PAGE_SIZE)) with (end_code mm - start + -1 * PAGE_SIZE) by lia.
      rewrite Z.div_add by lia. lia.
  - rewrite (page_prefix mm _ p (end_code mm - start)) by (done || lia).
    destruct (crypto_shash_update c _) as [rc1 c1] eqn:E.
    assert (rc1 = 0) as -> by (pose proof (shash_update_ok c
      (mm_bytes mm (start / PAGE_SIZE * PAGE_SIZE) (end_code mm - start))) as X; by rewrite E in X).
    change (nonzero 0) with false. cbv iota.
    destruct fuel; cbn [task_hash_loop]; rewrite (proj2 (Z.ltb_ge _ _)) by lia; done.
Qed.

(** The descriptor can be had. *)
Definition desc_ready (t : teecd) : Prop := prepare_desc t = Ret EOK.

Lemma task_hash_reads t mm :
  task_mm = Some mm → code_mapped mm → desc_ready t → crypto_shash_init.1 = 0 →
  0 ≤ start_code mm < end_code mm → end_code mm < 2 ^ 64 →
  calc_task_hash t SHA256_DIGEST_LENTH =
    Ret (hash_of (mm_bytes mm (start_code mm / PAGE_SIZE * PAGE_SIZE)
                    (end_code mm - start_code mm))).
Proof.
  intros Hmm Hm Hd Hi Hs He.
  unfold calc_task_hash. rewrite Z.eqb_refl, Hmm, Hd, ret_bind. cbn [negb].
  change (nonzero EOK) with false. cbv iota. unfold hash_of.
  destruct crypto_shash_init as [rc c]. simpl in Hi. subst rc.
  change (nonzero 0) with false. cbv iota. simpl snd.
  unfold update_task_hash. rewrite u64_small by lia.
  rewrite (proj2 (Z.eqb_neq _ 0)) by lia. unfold task_hash_fuel.
  pose proof (page_div_nonneg (end_code mm - start_code mm) ltac:(lia)).
  rewrite task_hash_loop_reads; [done|done|lia..].
Qed.

(** Hashing the code of a process whose code starts on a page boundary ends
    and yields the digest of exactly that code, whatever its length. *)
Theorem task_hash_covers_code t mm :
  task_mm = Some mm → code_mapped mm → desc_ready t → crypto_shash_init.1 = 0 →
  0 ≤ start_code mm < end_code mm → end_code mm < 2 ^ 64 → (PAGE_SIZE | start_code mm) →
  calc_task_hash t SHA256_DIGEST_LENTH =
    Ret (hash_of (mm_bytes mm (start_code mm) (end_code mm - start_code mm))).
Proof.
  intros Hmm Hm Hd Hi Hs He [k Hk]. rewrite (task_hash_reads t mm Hmm Hm Hd Hi Hs He).
  by rewrite Hk, Z.div_mul.
Qed.

(** The loop ends whatever can be mapped and whatever the hash answers. *)
Lemma task_hash_loop_total mm fuel start rc c :
  start_code mm ≤ start ≤ end_code mm → 0 ≤ start → end_code mm < 2 ^ 64 →
  (start < end_code mm → (end_code mm - start) / PAGE_SIZE + 1 ≤ Z.of_nat fuel) →
  ∃ r, task_hash_loop fuel mm start (end_code mm - start) rc c = Ret r.
Proof.
  revert start rc c. induction fuel as [|fuel IH]; intros start rc c Hs H0 He Hf;
    cbn [task_hash_loop]; destruct (Z.ltb_spec start (end_code mm)); cbn [negb]; eauto.
  { pose proof (page_div_nonneg (end_code mm - start) ltac:(lia)). lia. }
  destruct (mm_page _ _) as [p|]; [|eauto]. destruct (crypto_shash_update _ _) as [rc1 c1].
  destruct (nonzero rc1); [eauto|].
  assert (0 < PAGE_SIZE) as HP by done.
  set (n := if PAGE_SIZE <? end_code mm - start then PAGE_SIZE else end_code mm - start).
  assert (0 < n ≤ end_code mm - start ∧ (start + n < end_code mm → n = PAGE_SIZE)) as [Hn Hn'].
  { unfold n. destruct (Z.ltb_spec PAGE_SIZE (end_code mm - start)); lia. }
  rewrite u64_small by lia. apply IH; [lia..|]. intros Hlt. rewrite (Hn' Hlt).
  replace (end_code mm - (start + PAGE_SIZE)) with (end_code mm - start + -1 * PAGE_SIZE) by lia.
  rewrite Z.div_add by lia. specialize (Hf ltac:(lia)). lia.
Qed.

Lemma update_task_hash_total mm c :
  0 ≤ start_code mm → end_code mm < 2 ^ 64 → start_code mm ≤ end_code mm →
  ∃ r, update_task_hash mm c = Ret r.
Proof.
  intros Hs He Hse. unfold update_task_hash. destruct (_ =? 0); [eauto|].
  rewrite u64_small by lia. apply task_hash_loop_total; [lia..|]. intros _.
  unfold task_hash_fuel. pose proof (page_div_nonneg (end_code mm - start_code mm) ltac:(lia)). lia.
Qed.

End Code.

(** When the code does not start on a page boundary, the digest covers as
    many bytes from the beginning of that page instead: as many bytes at the
    end of the code as the start is off the boundary are not covered, and two
    processes that differ only there have the same digest. *)
Theorem task_hash_misses_tail {H : Shash} {HL : ShashLaws H} (T1 T2 : Task) t m1 m2 :
  task_mm (Task := T1) = Some m1 → task_mm (Task := T2) = Some m2 →
  code_mapped m1 → code_mapped m2 → desc_ready t → crypto_shash_init.1 = 0 →
  start_code m2 = start_code m1 → end_code m2 = end_code m1 →
  0 ≤ start_code m1 < end_code m1 → end_code m1 < 2 ^ 64 →
  (∀ x, x < end_code m1 - start_code m1 mod PAGE_SIZE → mm_byte m2 x = mm_byte m1 x) →
  calc_task_hash (TK := T2) t SHA256_DIGEST_LENTH = calc_task_hash (TK := T1) t SHA256_DIGEST_LENTH.
Proof.
  intros H1 H2 M1 M2 Hd Hi Es Ee Hs He Heq.
  rewrite (task_hash_reads (TK := T1) t m1), (task_hash_reads (TK := T2) t m2) by (done || lia).
  do 2 f_equal. rewrite Es, Ee. apply list_fmap_ext. intros i x Hx.
  apply lookup_seqZ in Hx as [-> Hx]. apply Heq.
  pose proof (Z.div_mod (start_code m1) PAGE_SIZE ltac:(done)). lia.
Qed.

(** ** The decision *)

Section Decision.
Context {H : Shash} {TK : Task} {CR : Caller}.

(** The rule: the path must be right; the first code hash is pinned. *)
Definition spec_access (pinned : option (list Z)) (path_ok : bool) (code : option (list Z))
    : option (list Z) * bool :=
  match code with
  | Some h => if path_ok then
                match pinned with
                | None => (Some h, true)
                | Some p => (Some p, bool_decide (h = p))
                end
              else (pinned, false)
  | None => (pinned, false)
  end.

Definition pinned (t : teecd) : option (list Z) :=
  if g_teecd_hash_calced t then Some (g_teecd_calc_hash t) else None.

(** A handle that is marked as there is there. *)
Definition handle_ok (t : teecd) : Prop :=
  g_shash_handle_state t = true → is_err_or_null (g_shash_handle t) = false.

Definition desc_fits : bool :=
  let size := u64 (SHASH_DESC_SIZE + shash_descsize) in
  negb ((size <? SHASH_DESC_SIZE) || (size <? shash_descsize)) && desc_ok.

(** The name, path and uid hash to the daemon's constant. *)
Definition path_right (t : teecd) (h : Z) : bool :=
  let '(n, text) := pack_path_cert false in
  (g_shash_handle_state t || negb (is_err_or_null h)) && desc_fits && path_cert_ok && (0 <? n)
  && negb (zlen text =? 0) && bool_decide (crypto_shash_digest text = (0, g_teecd_auth_hash)).

(** The digest of the code, if it can be computed. *)
Definition code_digest (mm : mm_struct) : option (list Z) :=
  if nonzero crypto_shash_init.1 then None
  else
    match update_task_hash mm crypto_shash_init.2 with
    | Ret (rc, c) =>
        if nonzero rc then None
        else let '(rc, d) := crypto_shash_final c in if nonzero rc then None else Some d
    | Fault => None
    end.

Lemma prepare_desc_ok t :
  is_err_or_null (g_shash_handle t) = false →
  prepare_desc t = Ret (if desc_fits then EOK else - ENOMEM).
Proof.
  intros Hh. unfold prepare_desc, desc_fits. rewrite Hh. cbv zeta.
  destruct (_ || _), desc_ok; done.
Qed.

Lemma ptr_err_nonzero h : 2 ^ 64 - 4095 ≤ h < 2 ^ 64 → ptr_err h ≠ 0.
Proof.
  intros Hh. unfold ptr_err, s32.
  assert (h mod 2 ^ 32 = h - (2 ^ 32 - 1) * 2 ^ 32) as ->.
  { symmetry. apply Z.mod_unique_pos with (2 ^ 32 - 1); lia. }
  destruct (Z.ltb_spec (h - (2 ^ 32 - 1) * 2 ^ 32) (2 ^ 31)); lia.
Qed.

(** The path check with the handle in place afterwards. *)
Lemma path_access_cases t h :
  handle_ok t → 0 < h < 2 ^ 64 →
  ∃ t' ret, check_teecd_path_access t h = Ret (t', ret) ∧ handle_ok t' ∧
    pinned t' = pinned t ∧ (nonzero ret = negb (path_right t h)) ∧
    (ret = 0 → is_err_or_null (g_shash_handle t') = false).
Proof.
  intros Hok Hh. unfold check_teecd_path_access, calc_path_hash, path_right.
  rewrite Z.eqb_refl. cbn [negb]. destruct (pack_path_cert false) as [n text].
  destruct path_cert_ok; cbn [negb]; rewrite ?andb_true_r, ?andb_false_r.
  2:{ rewrite ret_bind. exists t, (- EFAULT). by split_and!. }
  destruct (Z.leb_spec n 0), (Z.ltb_spec 0 n); try lia; rewrite ?andb_true_r, ?andb_false_r.
  { rewrite ret_bind. exists t, (- EFAULT). by split_and!. }
  unfold proc_calc_path_hash. rewrite Z.eqb_refl, orb_false_r.
  destruct (zlen text =? 0); cbn [negb]; rewrite ?andb_true_r, ?andb_false_r.
  { rewrite !ret_bind. exists t, (- EFAULT). by split_and!. }
  unfold tee_init_shash_handle.
  assert (∀ u, is_err_or_null (g_shash_handle u) = false → pinned u = pinned t → 
    ∃ t' ret, ('(t0, ret0, digest) ← ('(t0, ret0, digest) ←
        (ret0 ← prepare_desc u;
         if nonzero ret0 then Ret (u, ret0, [])
         else let '(rc, digest) := crypto_shash_digest text in Ret (u, rc, digest));
       if nonzero ret0 then Ret (t0, - ret0, digest) else Ret (t0, EOK, digest));
      if nonzero ret0 then Ret (t0, - EFAULT)
      else if negb (bool_decide (digest = g_teecd_auth_hash)) then Ret (t0, - EACCES)
      else if nonzero check_proc_selinux_access then Ret (t0, - EACCES) else Ret (t0, 0))
      = Ret (t', ret) ∧ handle_ok t' ∧ pinned t' = pinned t ∧
    nonzero ret = negb (desc_fits && bool_decide (crypto_shash_digest text = (0, g_teecd_auth_hash)))
    ∧ (ret = 0 → is_err_or_null (g_shash_handle t') = false)) as Hgo.
  { intros u Hu Hp. assert (handle_ok u) as Hok' by (by intros _).
    rewrite (prepare_desc_ok u Hu), ret_bind.
    destruct desc_fits; cbn [andb].
    2:{ exists u, (- EFAULT). by split_and!. }
    change (nonzero EOK) with false. cbv iota.
    destruct (crypto_shash_digest text) as [rc d]. rewrite !ret_bind.
    destruct (nonzero rc) eqn:Hrc.
    - rewrite ret_bind. apply nonzero_true in Hrc.
      rewrite (nonzero_neq (- rc)) by lia. exists u, (- EFAULT). split_and!; try done.
      rewrite bool_decide_eq_false_2; [done|]. intros [= -> _]. done.
    - apply nonzero_false in Hrc as ->. rewrite ret_bind. change (nonzero EOK) with false. cbv iota.
      destruct (decide (d = g_teecd_auth_hash)) as [->|Hd].
      + rewrite !bool_decide_eq_true_2 by done. exists u, 0. by split_and!.
      + rewrite !bool_decide_eq_false_2 by congruence. exists u, (- EACCES). by split_and!. }
  destruct (g_shash_handle_state t) eqn:Est; cbn [orb].
  { change (nonzero 0) with false. cbv iota. rewrite andb_true_l. apply Hgo; [by apply Hok|done]. }
  destruct (is_err_or_null h) eqn:Eh; cbn [negb andb].
  - assert (nonzero (ptr_err h) = true) as ->.
    { apply nonzero_true, ptr_err_nonzero. unfold is_err_or_null in Eh.
      apply orb_true_iff in Eh as [E%Z.eqb_eq|E%Z.leb_le]; lia. }
    rewrite !ret_bind. exists (with_handle t h false), (- EFAULT). by split_and!.
  - change (nonzero 0) with false. cbv iota. by apply Hgo.
Qed.

Lemma calc_task_hash_cases t mm :
  is_err_or_null (g_shash_handle t) = false → desc_fits = true → task_mm = Some mm →
  0 ≤ start_code mm ≤ end_code mm → end_code mm < 2 ^ 64 →
  ∃ rc d, calc_task_hash t SHA256_DIGEST_LENTH = Ret (rc, d) ∧
    code_digest mm = if nonzero rc then None else Some d.
Proof.
  intros Hh Hd Hmm Hs He. unfold calc_task_hash, code_digest. rewrite Z.eqb_refl, Hmm.
  rewrite (prepare_desc_ok t Hh), Hd, ret_bind. cbn [negb]. change (nonzero EOK) with false.
  cbv iota. destruct crypto_shash_init as [rc c]. cbn [fst snd].
  destruct (nonzero rc); [by eexists _, _|].
  destruct (update_task_hash_total mm c ltac:(lia) He ltac:(lia)) as ([rc1 c1] & ->).
  rewrite ret_bind. destruct (nonzero rc1); [by eexists _, _|].
  destruct (crypto_shash_final c1) as [rc2 d]. by eexists _, _.
Qed.

(** C31. The decision about a user process refines the rule: it ends without a
    fault, accepts exactly when the path is right and the code hash is the
    pinned one, pins the hash of the first process that is accepted, and never
    changes a pinned hash. *)
Theorem teecd_access_refines t h mm :
  handle_ok t → 0 < h < 2 ^ 64 → task_mm = Some mm →
  0 ≤ start_code mm ≤ end_code mm → end_code mm < 2 ^ 64 →
  ∃ t' ret, check_teecd_access t h = Ret (t', ret) ∧ handle_ok t' ∧
    spec_access (pinned t) (path_right t h) (code_digest mm) = (pinned t', ret =? EOK).
Proof.
  intros Hok Hh Hmm Hs He. unfold check_teecd_access.
  destruct (path_access_cases t h Hok Hh) as (t1 & ret & -> & Hok1 & Hp & Hr & Hh1).
  rewrite ret_bind, Hr.
  destruct (path_right t h) eqn:Hpr; cbn [negb].
  2:{ exists t1, (- EACCES). split_and!; try done. rewrite Hp. by destruct (code_digest mm). }
  specialize (Hh1 (proj1 (nonzero_false _) Hr)).
  assert (desc_fits = true) as Hd.
  { unfold path_right in Hpr. destruct (pack_path_cert false).
    by repeat (apply andb_true_iff in Hpr as [Hpr ?]). }
  unfold calc_teecd_process_hash. rewrite <- Hp. unfold pinned at 1.
  destruct (g_teecd_hash_calced t1) eqn:Ec.
  - rewrite ret_bind. change (nonzero 0) with false. cbv iota.
    unfold check_teecd_code_hash. rewrite Ec. cbn [negb].
    destruct (calc_task_hash_cases t1 mm Hh1 Hd Hmm Hs He) as (rc & d & -> & ->).
    rewrite ret_bind. unfold spec_access, pinned.
    destruct (nonzero rc); [|destruct (decide (d = g_teecd_calc_hash t1)) as [E|E]].
    + rewrite ret_bind. exists t1, (- EACCES). by rewrite Ec.
    + rewrite !bool_decide_eq_true_2 by done. exists t1, EOK. by rewrite Ec.
    + rewrite !bool_decide_eq_false_2 by done. exists t1, (- EACCES). by rewrite Ec.
  - rewrite Hmm.
    destruct (calc_task_hash_cases (with_calc_hash t1 (replicate 32 0) false) mm Hh1 Hd Hmm Hs He)
      as (rc & d & -> & Hcd). rewrite Hcd, ret_bind. unfold EOK.
    destruct (Z.eqb_spec rc 0) as [->|Hne].
    + change (nonzero 0) with false. cbv iota. rewrite ret_bind.
      change (nonzero 0) with false. cbv iota. unfold check_teecd_code_hash.
      cbn [g_teecd_hash_calced with_calc_hash negb].
      set (t2 := with_calc_hash _ d true).
      destruct (calc_task_hash_cases t2 mm Hh1 Hd Hmm Hs He) as (rc & d' & -> & Hcd').
      rewrite ret_bind. rewrite Hcd in Hcd'. change (nonzero 0) with false in Hcd'. cbv iota in Hcd'.
      destruct (nonzero rc) eqn:Hrc; [done|]. injection Hcd' as <-.
      rewrite bool_decide_eq_true_2 by done. cbn [negb]. rewrite ret_bind.
      exists t2, 0. by split_and!.
    + rewrite (nonzero_neq rc) by done. rewrite ret_bind.
      eexists _, (- EFAULT). by split_and!.
Qed.

End Decision.

(** ** Examples *)

(** A hash that returns its input, but knows the daemon's certificate. *)
Definition teecd_text : list Z :=
  [116; 101; 101; 99; 100; 47; 117; 115; 114; 47; 98; 105; 110; 47; 116; 101; 101; 99; 100; 48].

Definition copy_hash : Shash := {|
  shash_ctx := list Z;
  shash_descsize := 104;
  desc_ok := true;
  crypto_shash_init := (0, []);
  crypto_shash_update c l := (0, c ++ l);
  crypto_shash_final c := (0, c);
  crypto_shash_digest l := (0, if bool_decide (l = teecd_text) then g_teecd_auth_hash else l)
|}.

#[export] Instance copy_hash_laws : ShashLaws copy_hash.
Proof. split; [done|]. intros c l l'. simpl. by rewrite app_assoc. Qed.

Definition teecd_caller : Caller := {|
  task_cred := Some 0;
  get_task_mm := true;
  mm_exe_file := true;
  get_mm_exe_file := true;
  d_path := Some [47; 117; 115; 114; 47; 98; 105; 110; 47; 116; 101; 101; 99; 100];
  kmalloc_path := true
|}.

(** A process whose pages hold [f n] on page [n]. *)
Definition demo_task (start stop : Z) (f : Z → list Z) : Task := {|
  task_mm := Some (MmStruct start stop (λ n, Some (f n)));
  current_comm := [116; 101; 101; 99; 100];
  path_cert_ok := true
|}.

Definition ready_teecd : teecd := Teecd 0x8000 true (replicate 32 0) false.

Definition plain_page (n : Z) : list Z := replicate 4096 0.
Definition patched_page (n : Z) : list Z := replicate 100 0 ++ replicate 3996 7.

Lemma task_hash_covers_code_witness :
  calc_task_hash (H := copy_hash) (TK := demo_task 4096 9096 plain_page) ready_teecd
    SHA256_DIGEST_LENTH =
    Ret (hash_of (H := copy_hash)
      (mm_bytes (MmStruct 4096 9096 (λ n, Some (plain_page n))) 4096 5000)).
Proof.
  apply (task_hash_covers_code (H := copy_hash) (TK := demo_task 4096 9096 plain_page)).
  - reflexivity.
  - intros k _. exists (plain_page k). split; [reflexivity|vm_compute; reflexivity].
  - reflexivity.
  - reflexivity.
  - simpl. lia.
  - simpl. lia.
  - exists 1. reflexivity.
Defined.

Lemma patched_byte x :
  x < 4196 → mm_byte (MmStruct 4196 4296 (λ n, Some (if n =? 1 then patched_page n else plain_page n))) x
    = mm_byte (MmStruct 4196 4296 (λ n, Some (plain_page n))) x.
Proof.
  intros Hx. unfold mm_byte. cbn [mm_page].
  destruct (Z.eqb_spec (x / PAGE_SIZE) 1) as [E|]; [|done].
  assert (x mod PAGE_SIZE < 100) as Hm.
  { pose proof (Z.div_mod x PAGE_SIZE ltac:(done)) as D. rewrite E in D.
    unfold PAGE_SIZE, PAGE_SHIFT in *. lia. }
  pose proof (Z.mod_pos_bound x PAGE_SIZE ltac:(done)).
  unfold patched_page, plain_page. rewrite app_nth1 by (rewrite length_replicate; lia).
  rewrite !(nth_lookup_Some _ _ 0 0); [done|apply lookup_replicate_2..]; lia.
Qed.

Lemma task_hash_misses_tail_witness :
  calc_task_hash (H := copy_hash)
    (TK := demo_task 4196 4296 (λ n, if n =? 1 then patched_page n else plain_page n))
    ready_teecd SHA256_DIGEST_LENTH =
  calc_task_hash (H := copy_hash) (TK := demo_task 4196 4296 plain_page) ready_teecd
    SHA256_DIGEST_LENTH ∧
  mm_byte (MmStruct 4196 4296 (λ n, Some (if n =? 1 then patched_page n else plain_page n))) 4250
    ≠ mm_byte (MmStruct 4196 4296 (λ n, Some (plain_page n))) 4250.
Proof.
  split; [|vm_compute; discriminate].
  apply (task_hash_misses_tail (H := copy_hash) (demo_task 4196 4296 plain_page)
    (demo_task 4196 4296 (λ n, if n =? 1 then patched_page n else plain_page n)) ready_teecd
    (MmStruct 4196 4296 (λ n, Some (plain_page n)))
    (MmStruct 4196 4296 (λ n, Some (if n =? 1 then patched_page n else plain_page n))));
    try reflexivity; try (simpl; lia).
  - intros k _. exists (plain_page k). split; [reflexivity|vm_compute; reflexivity].
  - intros k _. eexists. split; [reflexivity|]. destruct (k =? 1); vm_compute; reflexivity.
  - intros x Hx. apply patched_byte. exact Hx.
Defined.

Lemma teecd_access_refines_witness :
  ∃ t' ret, check_teecd_access (H := copy_hash) (TK := demo_task 4096 4196 plain_page)
      (CR := teecd_caller) teecd_init 0x8000 = Ret (t', ret) ∧ ret = EOK ∧
    pinned t' = Some (replicate 100 0).
Proof.
  destruct (teecd_access_refines (H := copy_hash) (TK := demo_task 4096 4196 plain_page)
    (CR := teecd_caller) teecd_init 0x8000 (MmStruct 4096 4196 (λ n, Some (plain_page n))))
    as (t' & ret & E & _ & Hs); [done|lia|reflexivity|simpl; lia|simpl; lia|].
  exists t', ret. split; [exact E|].
  assert (spec_access (pinned teecd_init)
    (path_right (H := copy_hash) (TK := demo_task 4096 4196 plain_page) (CR := teecd_caller)
       teecd_init 0x8000)
    (code_digest (H := copy_hash) (MmStruct 4096 4196 (λ n, Some (plain_page n))))
    = (Some (replicate 100 0), true)) as Hv by (vm_compute; reflexivity).
  rewrite Hv in Hs. injection Hs as Hp Hr. split; [|symmetry; exact Hp].
  symmetry in Hr. apply Z.eqb_eq in Hr. exact Hr.
Defined.
