(* ===== verification/SessLoad.v ===== *)
(** * Loading the image of a TA (core/session_manager.c)

    The image comes from the client (or, without an address space, from the
    kernel) and goes to the TEE in frames through one mailbox block: a flag
    word that is 0 in the last frame and 1 before, then the bytes. *)

From stdpp Require Import base gmap list.
From Stdlib Require Import ZArith Lia.
From S2P Require Import Prelude KernelApi TeeTypes Buffers Mailbox MailboxClaims SessReg.
From S2P Require Import CallTypes GpParams GpCall Tlogger TloggerSys Agent AgentReg TeecdAuth.

Definition SZ_1M : Z := 0x100000.
Definition SZ_8M : Z := 0x800000.
Definition SIZEOF_INT : Z := 4.
Definition SIZEOF_TC_UUID : Z := 16.

(** [enum secfile_type_t] *)
Definition LOAD_TA : Z := 0.
Definition LOAD_SERVICE : Z := 1.
Definition LOAD_LIB : Z := 2.
Definition LOAD_DYNAMIC_DRV : Z := 3.

Record load_img_params := LoadImg {
  lp_dev_file : Z;
  lp_file_buffer : Z;
  lp_file_size : Z;
  lp_mb_pack : Z;
  mb_load_mem : Z;
  uuid_return : Z;
  mb_load_size : Z
}.

(** [struct tc_ns_client_return] *)
Record tc_ns_client_return := ClientReturn { ret_code : Z; ret_origin : Z }.

(** [struct load_secfile_ioctl_struct] *)
Record load_secfile_ioctl_struct := LoadSecfile {
  secfile_type : Z;
  sf_uuid : list Z;
  sf_file_size : Z;
  sf_file_buffer : Z
}.

(** The members of the struct in its 32 bytes: type, uuid, size, pointer. *)
Definition decode_secfile (l : list Z) : load_secfile_ioctl_struct :=
  LoadSecfile (le_value (sub_buf l 0 4)) (sub_buf l 4 16) (le_value (sub_buf l 20 4))
    (le_value (sub_buf l 24 8)).

Definition SECFILE_STRUCT_LEN : Z := 32.

(** ** Fields of the command *)

Definition cmd_with_dev (c : tc_ns_smc_cmd) (id : Z) : tc_ns_smc_cmd :=
  SmcCmd (uuid c) (cmd_type c) (cmd_id c) id (context_id c) (agent_id c)
    (operation_phys c) (operation_h_phys c) (login_method c) (login_data_phy c)
    (login_data_h_addr c) (login_data_len c) (err_origin c) (ret_val c) (event_nr c)
    (uid c) (ca_pid c) (token_phys c) (token_h_phys c) (pid c) (params_phys c)
    (params_h_phys c) (eventindex c) (started c).

(** [cmd_type], [cmd_id], [context_id] and the address of the operation. *)
Definition cmd_as_global (c : tc_ns_smc_cmd) (id lo hi : Z) : tc_ns_smc_cmd :=
  SmcCmd (uuid c) CMD_TYPE_GLOBAL id (dev_file_id c) 0 (agent_id c) lo hi
    (login_method c) (login_data_phy c) (login_data_h_addr c) (login_data_len c)
    (err_origin c) (ret_val c) (event_nr c) (uid c) (ca_pid c) (token_phys c)
    (token_h_phys c) (pid c) (params_phys c) (params_h_phys c) (eventindex c) (started c).

Section Load.
Context {Env St : Type} {BA : BlockAllocator St} {SMC : SmcChannel Env}.
Context {P : PageMap} {CM : ClientMem} {CU : Current}.

(** [mailbox_copy_alloc] of a kernel object that is not in byte memory. *)
Definition ba_copy_object (s : St) (m : mem) (bytes : list Z) (size : Z)
    : outcome (St * mem * Z) :=
  if size =? 0 then Ret (s, m, 0) else
  '(s, m, mb_ptr) ← ba_alloc s m size 0;
  if mb_ptr =? 0 then Ret (s, m, 0) else
  let '(ret, m) := memcpy_out m mb_ptr size bytes in
  if nonzero ret then s ← ba_free s mb_ptr; Ret (s, m, 0)
  else Ret (s, m, mb_ptr).

(** The answer of the TEE is the first word of the parameter. *)
Definition tc_ns_need_load_image (e : Env) (s : St) (m : mem) (file_id : Z) (uuid : list Z)
    (uuid_len : Z) : outcome (Env * St * mem * Z) :=
  if negb (uuid_len =? UUID_LEN) then Ret (e, s, m, - ENOMEM)
  else
    '(s, m, mb_pack) ← ba_alloc s m SZ_4K MB_FLAG_ZERO;
    if mb_pack =? 0 then Ret (e, s, m, - ENOMEM)
    else
      '(s, m, mb_param) ← ba_copy_object s m uuid uuid_len;
      if mb_param =? 0 then s ← ba_free s mb_pack; Ret (e, s, m, - ENOMEM)
      else
        let op := set_h_addr (set_param (set_paramtypes zero_operation TEEC_MEMREF_TEMP_INOUT)
                    0 (NsParam (phys_lo mb_param) SZ_4K)) 0 (phys_hi mb_param) in
        let cmd := cmd_with_dev (global_cmd GLOBAL_CMD_ID_NEED_LOAD_APP mb_pack) file_id in
        let '(e, m, _, _, smc_ret) := tc_ns_smc e m op cmd in
        let ret := if nonzero smc_ret then - EFAULT
                   else s32 (le_value (load_bytes m mb_param 4)) in
        s ← ba_free s mb_param;
        s ← ba_free s mb_pack;
        Ret (e, s, m, ret).

(** ** Frames *)

Definition is_valid_ta_size (file_buffer file_size : Z) : bool :=
  if (file_buffer =? 0) || (file_size =? 0) then false
  else if SZ_8M <? file_size then false
  else true.

(** The loop that halves the size until a block is found: the block and the
    size it was found for.  [fuel] counts the bits of the size. *)
Fixpoint load_mem_loop (fuel : nat) (s : St) (m : mem) (size : Z)
    : outcome (St * mem * Z * Z) :=
  match fuel with
  | O => Ret (s, m, 0, size)
  | S fuel =>
      if negb (0 <? size) then Ret (s, m, 0, size)
      else
        '(s, m, a) ← ba_alloc s m size 0;
        if negb (a =? 0) then Ret (s, m, a, size)
        else load_mem_loop fuel s m (Z.shiftr size 1)
  end.

Definition alloc_for_load_image (s : St) (m : mem) (p : load_img_params)
    : outcome (St * mem * load_img_params * Z) :=
  '(s, m, load_mem, size) ← load_mem_loop 32 s m (mb_load_size p);
  let p := LoadImg (lp_dev_file p) (lp_file_buffer p) (lp_file_size p) 0 load_mem 0 size in
  if load_mem =? 0 then Ret (s, m, p, - ENOMEM)
  else
    '(s, m, pack) ← ba_alloc s m SZ_4K MB_FLAG_ZERO;
    if pack =? 0 then
      s ← ba_free s load_mem;
      Ret (s, m, LoadImg (lp_dev_file p) (lp_file_buffer p) (lp_file_size p) 0 0 0 size, - ENOMEM)
    else
      '(s, m, u) ← ba_alloc s m SIZEOF_TC_UUID 0;
      if u =? 0 then
        s ← ba_free s load_mem;
        s ← ba_free s pack;
        Ret (s, m, LoadImg (lp_dev_file p) (lp_file_buffer p) (lp_file_size p) 0 0 0 size, - ENOMEM)
      else Ret (s, m, LoadImg (lp_dev_file p) (lp_file_buffer p) (lp_file_size p) pack load_mem u size, 0).

Definition pack_load_frame_cmd (load_size : Z) (p : load_img_params) (op : tc_ns_operation)
    (cmd : tc_ns_smc_cmd) : tc_ns_operation * tc_ns_smc_cmd :=
  let op := set_h_addr (set_param op 0 (NsParam (phys_lo (mb_load_mem p)) (u32 (load_size + SIZEOF_INT))))
              0 (phys_hi (mb_load_mem p)) in
  let op := set_h_addr (set_param op 2 (NsParam (phys_lo (uuid_return p)) SIZEOF_TC_UUID))
              2 (phys_hi (uuid_return p)) in
  let op := set_paramtypes op (teec_param_types TEEC_MEMREF_TEMP_INPUT TEEC_VALUE_INOUT
              TEEC_MEMREF_TEMP_OUTPUT TEEC_VALUE_INPUT) in
  (op, cmd_as_global cmd GLOBAL_CMD_ID_LOAD_SECURE_APP (phys_lo (lp_mb_pack p)) (phys_hi (lp_mb_pack p))).

(** What is copied lands in the block, also when the copy fails half-way. *)
Definition load_image_copy_file (m : mem) (p : load_img_params) (load_size loaded_size : Z)
    : mem * Z :=
  let dest := mb_load_mem p + SIZEOF_INT in
  let '(r, l) := if negb current_mm
    then memcpy_in m (u32 (mb_load_size p - SIZEOF_INT)) (lp_file_buffer p + loaded_size) load_size
    else copy_from_user m (lp_file_buffer p + loaded_size) load_size in
  (store_bytes m dest l, if nonzero r then - EFAULT else 0).

(** One frame per iteration; [tee_ret] is [None] for NULL. *)
Fixpoint load_frame_loop (fuel : nat) (e : Env) (m : mem) (p : load_img_params)
    (op : tc_ns_operation) (cmd : tc_ns_smc_cmd) (dev_id index load_times loaded_size : Z)
    (tee_ret : option tc_ns_client_return) (type : Z)
    : Env * mem * option tc_ns_client_return * Z :=
  match fuel with
  | O => (e, m, tee_ret, 0)
  | S fuel =>
      let cmd := cmd_with_origin cmd TEEC_ORIGIN_COMMS in
      let last := index =? load_times - 1 in
      let load_flag := if last then 0 else 1 in
      let load_size := if last then u32 (lp_file_size p - loaded_size)
                       else u32 (mb_load_size p - SIZEOF_INT) in
      let m := store_bytes m (mb_load_mem p) (le_bytes 4 load_flag) in
      if u32 (mb_load_size p - SIZEOF_INT) <? load_size then (e, m, tee_ret, - EINVAL)
      else
        let '(m, r) := load_image_copy_file m p load_size loaded_size in
        if nonzero r then (e, m, tee_ret, - EFAULT)
        else
          let '(op, cmd) := pack_load_frame_cmd load_size p op cmd in
          let op := set_param op 3 (NsParam index (value_b (param_at op 3))) in
          let op := set_param op 1 (NsParam (if type =? LOAD_DYNAMIC_DRV then 1 else 0)
                                      (value_b (param_at op 1))) in
          let '(e, m, op, cmd, smc_ret) := tc_ns_smc e m op (cmd_with_dev cmd dev_id) in
          if nonzero smc_ret
          then (e, m, (λ _, ClientReturn smc_ret (err_origin cmd)) <$> tee_ret, - EFAULT)
          else load_frame_loop fuel e m p op cmd dev_id (index + 1) load_times
                 (u32 (loaded_size + load_size)) tee_ret type
  end.

Definition load_image_by_frame (e : Env) (m : mem) (p : load_img_params) (dev_id load_times : Z)
    (tee_ret : option tc_ns_client_return) (type : Z)
    : Env * mem * option tc_ns_client_return * Z :=
  load_frame_loop (Z.to_nat load_times) e m p zero_operation zero_smc_cmd dev_id 0 load_times 0
    tee_ret type.

Definition tc_ns_load_image (e : Env) (s : St) (m : mem) (R : registry) (dev file_buffer
    file_size : Z) (tee_ret : option tc_ns_client_return) (type : Z)
    : outcome (Env * St * mem * option tc_ns_client_return * Z) :=
  if (dev =? 0) || (file_buffer =? 0) then Ret (e, s, m, tee_ret, - EINVAL)
  else if negb (is_valid_ta_size file_buffer file_size) then Ret (e, s, m, tee_ret, - EINVAL)
  else
    d ← at_index (g_devs R) dev;
    let size := if SZ_1M - SIZEOF_INT <? file_size then SZ_1M else align_4k_u32 file_size in
    '(s, m, p, ret) ← alloc_for_load_image s m (LoadImg dev file_buffer file_size 0 0 0 size);
    if nonzero ret then Ret (e, s, m, tee_ret, ret)
    else
      let '(e, m, tee_ret, ret) :=
        if mb_load_size p <=? SIZEOF_INT then (e, m, tee_ret, - ENOMEM)
        else
          let frame := mb_load_size p - SIZEOF_INT in
          let load_times := file_size / frame + (if nonzero (file_size mod frame) then 1 else 0) in
          load_image_by_frame e m p (df_id d) load_times tee_ret type in
      s ← ba_free s (mb_load_mem p);
      s ← ba_free s (lp_mb_pack p);
      s ← ba_free s (uuid_return p);
      Ret (e, s, m, tee_ret, ret).

Definition tc_ns_load_image_with_lock (e : Env) (s : St) (m : mem) (R : registry)
    (dev file_buffer file_size type : Z) : outcome (Env * St * mem * Z) :=
  if (dev =? 0) || (file_buffer =? 0) then Ret (e, s, m, - EINVAL)
  else
    '(e, s, m, _, ret) ← tc_ns_load_image e s m R dev file_buffer file_size None type;
    Ret (e, s, m, ret).

(** The context's new return code and origin as well. *)
Definition load_ta_image (e : Env) (s : St) (m : mem) (R : registry) (dev_file : Z)
    (context : tc_ns_client_context) : outcome (Env * St * mem * tc_ns_client_context * Z) :=
  d ← at_index (g_devs R) dev_file;
  '(e, s, m, ret) ← tc_ns_need_load_image e s m (df_id d) (ctx_uuid context) UUID_LEN;
  if ret =? 1 then
    if file_buffer context =? 0 then Ret (e, s, m, context, -1)
    else
      '(e, s, m, tee_ret, ret) ← tc_ns_load_image e s m R dev_file (file_buffer context)
        (file_size context) (Some (ClientReturn 0 TEEC_ORIGIN_COMMS)) LOAD_TA;
      if nonzero ret then
        let tr := default (ClientReturn 0 TEEC_ORIGIN_COMMS) tee_ret in
        if negb (ret_origin tr =? TEEC_ORIGIN_COMMS)
        then Ret (e, s, m, ctx_with_returns context (ret_code tr) (ret_origin tr), EFAULT)
        else Ret (e, s, m, ctx_with_returns context (ret_code tr) (returns_origin context), ret)
      else Ret (e, s, m, context, ret)
  else Ret (e, s, m, context, ret).

(** ** The ioctl of the TEE daemon *)

Context {HS : Shash} {TK : Task} {CR : Caller}.

Definition tc_ns_load_secfile (e : Env) (s : St) (m : mem) (R : registry) (t : teecd) (h : Z)
    (dev_file argp : Z) : outcome (Env * St * mem * teecd * Z) :=
  if (dev_file =? 0) || (argp =? 0) then Ret (e, s, m, t, - EINVAL)
  else
    let '(left_over, l) := copy_from_user m argp SECFILE_STRUCT_LEN in
    if nonzero left_over then Ret (e, s, m, t, - ENOMEM)
    else
      let arg := decode_secfile l in
      let load e s m t :=
        '(e, s, m, _, ret) ← tc_ns_load_image e s m R dev_file (sf_file_buffer arg)
          (sf_file_size arg) None (secfile_type arg);
        Ret (e, s, m, t, ret) in
      if secfile_type arg =? LOAD_TA then
        d ← at_index (g_devs R) dev_file;
        '(e, s, m, ret) ← tc_ns_need_load_image e s m (df_id d) (sf_uuid arg) UUID_LEN;
        if ret =? 1 then load e s m t else Ret (e, s, m, t, ret)
      else if secfile_type arg =? LOAD_LIB then load e s m t
      else if secfile_type arg =? LOAD_DYNAMIC_DRV then
        '(t, ret) ← check_teecd_access t h;
        if ret =? EOK then load e s m t else Ret (e, s, m, t, ret)
      else Ret (e, s, m, t, - EINVAL).

End Load.
