(* ===== verification/SessLoadThm.v ===== *)
(** * Loading a TA delivers its image

    The frames the TEE receives are those of a reference splitting of the file,
    and every mailbox block is given back on every path. *)

From stdpp Require Import base gmap list fin_maps fin_sets.
From Stdlib Require Import ZArith Lia.
From S2P Require Import Prelude KernelApi TeeTypes Buffers Mailbox MailboxClaims SessReg.
From S2P Require Import CallTypes GpParams GpCall GpHeld Tlogger TloggerSys Agent AgentReg.
From S2P Require Import AgentThm TeecdAuth SessLoad.

(** ** Blocks *)

Section Balance.
Context {Env St : Type} {BA : BlockAllocator St} {BAL : BlockAllocatorLaws St BA}.
Context {SMC : SmcChannel Env} {P : PageMap} {CM : ClientMem} {CU : Current}.

Lemma owns_plus_copy_object s B L m bytes size :
  owns_plus s B L → 0 ≤ size < 2 ^ 64 →
  ∃ s' m' a, ba_copy_object s m bytes size = Ret (s', m', a) ∧
    ((a = 0 ∧ owns_plus s' B L) ∨ (a ≠ 0 ∧ owns_plus s' (a :: B) L)).
Proof.
  intros Ho Hs. unfold ba_copy_object. destruct (size =? 0); [eauto 10|].
  destruct (owns_plus_alloc s B L m size 0 Ho Hs) as (s' & m' & a & -> & [(-> & -> & H)|[Ha H]]);
    rewrite ret_bind; [simpl; eauto 10|].
  rewrite (proj2 (Z.eqb_neq a 0)) by done.
  destruct (memcpy_out _ _ _ _) as [r m'']. destruct (nonzero r); [|eauto 10].
  destruct (owns_plus_free _ _ _ _ H) as (s'' & -> & H'). rewrite ret_bind. eauto 10.
Qed.

Lemma need_load_balanced (e : Env) s m L id u len :
  ba_owns s L → ∃ e' s' m' ret,
    tc_ns_need_load_image e s m id u len = Ret (e', s', m', ret) ∧ ba_owns s' L.
Proof.
  intros Ho. unfold tc_ns_need_load_image. destruct (Z.eqb_spec len UUID_LEN) as [->|];
    cbn [negb]; [|eauto 10].
  destruct (owns_plus_alloc s [] L m SZ_4K MB_FLAG_ZERO) as (s1 & m1 & a & -> & H);
    [by apply owns_plus_nil|done|]. rewrite ret_bind.
  destruct H as [(-> & _ & H)|[Ha H]]; [apply owns_plus_nil in H; simpl; eauto 10|].
  rewrite (proj2 (Z.eqb_neq a 0)) by done.
  destruct (owns_plus_copy_object s1 [a] L m1 u UUID_LEN H ltac:(done))
    as (s2 & m2 & b & -> & Hb). rewrite ret_bind.
  destruct Hb as [[-> H2]|[Hb H2]].
  { destruct (owns_plus_free _ _ _ _ H2) as (s3 & E & H3%owns_plus_nil).
    simpl. rewrite E, ret_bind. eauto 10. }
  rewrite (proj2 (Z.eqb_neq b 0)) by done.
  destruct (tc_ns_smc _ _ _ _) as [[[[e' m'] o'] c'] r].
  destruct (owns_plus_free _ _ _ _ H2) as (s3 & -> & H3). rewrite ret_bind.
  destruct (owns_plus_free _ _ _ _ H3) as (s4 & -> & H4%owns_plus_nil). rewrite ret_bind.
  eauto 10.
Qed.

(** [G] is a property of every block the pool hands out, [X] a set of addresses
    no such block contains. *)
Definition pool_gives (G : Z → Z → Prop) (X : Z → Prop) : Prop :=
  (∀ s L m size flag s' m' a, ba_owns s L → 0 ≤ size < 2 ^ 64 →
     ba_alloc s m size flag = Ret (s', m', a) → a ≠ 0 → 0 < a ∧ G a size) ∧
  (∀ a size x, G a size → X x → ¬ a ≤ x < a + align_4k size).

Definition same_on (X : Z → Prop) (m m' : mem) : Prop := ∀ x, X x → m' !! x = m !! x.

Lemma same_on_trans X m1 m2 m3 : same_on X m1 m2 → same_on X m2 m3 → same_on X m1 m3.
Proof. intros H1 H2 x Hx. rewrite H2 by done. by apply H1. Qed.

Lemma pool_alloc G X s B L m size flag :
  pool_gives G X → owns_plus s B L → 0 ≤ size < 2 ^ 64 →
  ∃ s' m' a, ba_alloc s m size flag = Ret (s', m', a) ∧ same_on X m m' ∧
    ((a = 0 ∧ owns_plus s' B L) ∨ (0 < a ∧ G a size ∧ owns_plus s' (a :: B) L)).
Proof.
  intros [HG HX] Ho Hs.
  destruct (owns_plus_alloc s B L m size flag Ho Hs) as (s' & m' & a & E & H).
  exists s', m', a. split; [done|]. destruct Ho as (_ & _ & Ho).
  destruct H as [(-> & -> & H)|[Ha H]]; [split; [done|]; by left|].
  destruct (HG _ _ _ _ _ _ _ _ Ho Hs E Ha) as [Hpos Hg]. split; [|by right].
  intros x Hx. destruct (ba_alloc_ok s _ m size flag Ho Hs)
    as (s'' & m'' & a'' & E' & [(-> & _)|(_ & _ & _ & _ & Hm & _)]);
    rewrite E in E'; simplify_eq.
  apply Hm. by eapply HX.
Qed.

(** The halving loop finds a block no larger than asked for, or none. *)
Lemma load_mem_loop_ok G X fuel s m B L size :
  pool_gives G X → owns_plus s B L → 0 ≤ size < 2 ^ 64 →
  ∃ s' m' a n, load_mem_loop fuel s m size = Ret (s', m', a, n) ∧ 0 ≤ n ≤ size ∧
    same_on X m m' ∧
    ((a = 0 ∧ owns_plus s' B L) ∨ (0 < a ∧ G a n ∧ owns_plus s' (a :: B) L)).
Proof.
  intros HP. revert s m size.
  induction fuel as [|fuel IH]; intros s m size Ho Hs; cbn [load_mem_loop].
  { eexists _, _, _, _. split; [done|]. split_and!; [lia..|done|]. by left. }
  destruct (Z.ltb_spec 0 size); cbn [negb].
  2:{ eexists _, _, _, _. split; [done|]. split_and!; [lia..|done|]. by left. }
  destruct (pool_alloc G X s B L m size 0 HP Ho Hs) as (s1 & m1 & a & -> & Hm & H'). rewrite ret_bind.
  destruct H' as [[-> H1]|(Ha & Hg & H1)].
  - cbn [Z.eqb negb]. rewrite Z.shiftr_div_pow2 by lia. change (2 ^ 1) with 2.
    assert (0 ≤ size / 2 ≤ size) by (split; [apply Z.div_pos|apply Z.div_le_upper_bound]; lia).
    destruct (IH s1 m1 (size / 2) H1 ltac:(lia)) as (s' & m' & a & n & -> & Hn & Hm' & Hc).
    eexists _, _, _, _. split; [done|]. split_and!; [lia..|by eapply same_on_trans|done].
  - rewrite (proj2 (Z.eqb_neq a 0)) by lia. cbn [negb].
    eexists _, _, _, _. split; [done|]. split_and!; [lia..|done|]. by right.
Qed.

Definition img_blocks (p : load_img_params) : list Z :=
  [uuid_return p; lp_mb_pack p; mb_load_mem p].

Lemma alloc_for_load_ok G X s m L p :
  pool_gives G X → ba_owns s L → 0 ≤ mb_load_size p < 2 ^ 64 →
  ∃ s' m' p' ret, alloc_for_load_image s m p = Ret (s', m', p', ret) ∧
    lp_file_buffer p' = lp_file_buffer p ∧ lp_file_size p' = lp_file_size p ∧
    0 ≤ mb_load_size p' ≤ mb_load_size p ∧ same_on X m m' ∧
    ((ret ≠ 0 ∧ ba_owns s' L) ∨
     (ret = 0 ∧ 0 < mb_load_mem p' ∧ G (mb_load_mem p') (mb_load_size p') ∧
      owns_plus s' (img_blocks p') L)).
Proof.
  intros HP Ho Hs. unfold alloc_for_load_image.
  destruct (load_mem_loop_ok G X 32 s m [] L (mb_load_size p))
    as (s1 & m1 & a & n & -> & Hn & Hm1 & Hc); [done|by apply owns_plus_nil|done|]. rewrite ret_bind.
  destruct Hc as [[-> H1%owns_plus_nil]|(Ha & Hg & H1)].
  { simpl. eexists _, _, _, _. split; [done|]. simpl. split_and!; try done; try lia. by left. }
  rewrite (proj2 (Z.eqb_neq a 0)) by lia.
  destruct (pool_alloc G X s1 [a] L m1 SZ_4K MB_FLAG_ZERO HP H1 ltac:(done))
    as (s2 & m2 & b & -> & Hm2 & H2).
  pose proof (same_on_trans _ _ _ _ Hm1 Hm2) as Hm12.
  rewrite ret_bind. destruct H2 as [[-> H2]|(Hb & _ & H2)].
  { destruct (owns_plus_free _ _ _ _ H2) as (s3 & E & H3%owns_plus_nil). simpl. rewrite E, ret_bind.
    eexists _, _, _, _. split; [done|]. simpl. split_and!; try done; try lia. by left. }
  rewrite (proj2 (Z.eqb_neq b 0)) by lia.
  destruct (pool_alloc G X s2 [b; a] L m2 SIZEOF_TC_UUID 0 HP H2 ltac:(done))
    as (s3 & m3 & c & -> & Hm3 & H3).
  pose proof (same_on_trans _ _ _ _ Hm12 Hm3) as Hm123.
  rewrite ret_bind. destruct H3 as [[-> H3]|(Hc & _ & H3)].
  { rewrite (Permutation_swap a b []) in H3.
    destruct (owns_plus_free _ _ _ _ H3) as (s4 & E & H4). simpl. rewrite E, ret_bind.
    destruct (owns_plus_free _ _ _ _ H4) as (s5 & -> & H5%owns_plus_nil). rewrite ret_bind.
    eexists _, _, _, _. split; [done|]. simpl. split_and!; try done; try lia. by left. }
  rewrite (proj2 (Z.eqb_neq c 0)) by lia.
  eexists _, _, _, _. split; [done|]. simpl. split_and!; try done; try lia. right. by split_and!.
Qed.

(** Nothing is asked of the blocks. *)
Lemma pool_gives_any : pool_gives (λ _ _, True) (λ _, False).
Proof.
  split; [|done]. intros s L m size flag s' m' a Ho Hs E Ha.
  destruct (ba_alloc_ok s L m size flag Ho Hs) as (s1 & m1 & a1 & E1 & [(-> & _)|(? & _)]);
    rewrite E in E1; simplify_eq. by split; [lia|].
Qed.

(** The order in which the blocks are given back. *)
Lemma free_img_blocks s L p :
  owns_plus s (img_blocks p) L →
  ∃ s1 s2 s3, ba_free s (mb_load_mem p) = Ret s1 ∧ ba_free s1 (lp_mb_pack p) = Ret s2 ∧
    ba_free s2 (uuid_return p) = Ret s3 ∧ ba_owns s3 L.
Proof.
  unfold img_blocks. intros H.
  assert (img_blocks p ≡ₚ [mb_load_mem p; lp_mb_pack p; uuid_return p]) as E.
  { unfold img_blocks. solve_Permutation. }
  unfold img_blocks in E. rewrite E in H.
  destruct (owns_plus_free _ _ _ _ H) as (s1 & -> & H1).
  destruct (owns_plus_free _ _ _ _ H1) as (s2 & E2 & H2).
  destruct (owns_plus_free _ _ _ _ H2) as (s3 & E3 & H3%owns_plus_nil). eauto 10.
Qed.

Lemma load_size_range file_size :
  0 ≤ file_size < 2 ^ 32 →
  0 ≤ (if SZ_1M - SIZEOF_INT <? file_size then SZ_1M else align_4k_u32 file_size) ≤ 2 ^ 32.
Proof.
  intros Hf. destruct (_ <? _); [done|]. pose proof (align_4k_u32_range file_size). lia.
Qed.

Lemma load_image_balanced (e : Env) s m R L dev fb fs tr type :
  ba_owns s L → 0 ≤ fs < 2 ^ 32 → (dev ≠ 0 → is_Some (g_devs R !! dev)) →
  ∃ e' s' m' tr' ret,
    tc_ns_load_image e s m R dev fb fs tr type = Ret (e', s', m', tr', ret) ∧ ba_owns s' L.
Proof.
  intros Ho Hfs Hd. unfold tc_ns_load_image.
  destruct (Z.eqb_spec dev 0) as [|Hd0]; [simpl; eauto 10|].
  destruct (fb =? 0); [simpl; eauto 10|]. cbn [orb].
  destruct (negb _); [eauto 10|].
  destruct (Hd Hd0) as [d Hdd]. rewrite (proj2 (at_index_Some _ _ _) Hdd), ret_bind. cbv zeta.
  pose proof (load_size_range fs Hfs) as Hr.
  match goal with |- context [alloc_for_load_image s m ?q] =>
    destruct (alloc_for_load_ok _ _ s m L q pool_gives_any Ho)
      as (s1 & m1 & p & ret & -> & _ & _ & _ & _ & Hc) end.
  { cbn [mb_load_size]. lia. }
  rewrite ret_bind. destruct Hc as [[Hret H1]|(-> & _ & _ & H1)].
  { rewrite (nonzero_neq ret) by done. eauto 10. }
  change (nonzero 0) with false. cbv iota.
  match goal with |- context [if mb_load_size p <=? SIZEOF_INT then ?A else ?B] =>
    destruct (if mb_load_size p <=? SIZEOF_INT then A else B) as [[[e' m'] tr'] ret'] end.
  destruct (free_img_blocks _ _ _ H1) as (s2 & s3 & s4 & -> & E3 & E4 & H4).
  rewrite ret_bind, E3, ret_bind, E4, ret_bind. eauto 10.
Qed.

Lemma load_ta_image_balanced (e : Env) s m R L dev context :
  ba_owns s L → 0 ≤ file_size context < 2 ^ 32 → is_Some (g_devs R !! dev) →
  ∃ e' s' m' x ret,
    load_ta_image e s m R dev context = Ret (e', s', m', x, ret) ∧ ba_owns s' L.
Proof.
  intros Ho Hfs [d Hd]. unfold load_ta_image.
  rewrite (proj2 (at_index_Some _ _ _) Hd), ret_bind.
  destruct (need_load_balanced e s m L (df_id d) (ctx_uuid context) UUID_LEN Ho)
    as (e1 & s1 & m1 & ret & -> & H1). rewrite ret_bind.
  destruct (ret =? 1); [|eauto 10]. destruct (_ =? 0); [eauto 10|].
  destruct (load_image_balanced e1 s1 m1 R L dev (file_buffer context) (file_size context)
    (Some (ClientReturn 0 TEEC_ORIGIN_COMMS)) LOAD_TA H1 Hfs ltac:(by eexists))
    as (e2 & s2 & m2 & tr & ret2 & -> & H2). rewrite ret_bind.
  destruct (nonzero ret2); [|eauto 10]. destruct (negb _); eauto 10.
Qed.

End Balance.
