(* ===== verification/SessLoadClaims.v ===== *)
(** * The TEE receives the image of a TA

    The requests a load sends are compared with a reference splitting of the
    file into frames. *)

From stdpp Require Import base gmap list fin_maps fin_sets.
From Stdlib Require Import ZArith Lia.
From S2P Require Import Prelude KernelApi TeeTypes Buffers Mailbox MailboxClaims SessReg.
From S2P Require Import MailboxThm CallTypes GpParams GpCall GpHeld Tlogger TloggerSys Agent.
From S2P Require Import AgentReg AgentThm TeecdAuth SessLoad SessLoadThm.

(** ** Reference: frames of at most [n] bytes, the last one flagged 0 *)

Fixpoint split_frames (fuel : nat) (n : nat) (file : list Z) : list (Z * list Z) :=
  match fuel with
  | O => []
  | S fuel =>
      if decide (length file ≤ n)%nat then [(0, file)]
      else (1, take n file) :: split_frames fuel n (drop n file)
  end.

(** With a frame per [n] bytes nothing is lost, nothing is empty, and only the
    last frame is flagged. *)
Lemma split_frames_concat fuel n file :
  (length file ≤ fuel * n)%nat → (0 < fuel)%nat → concat (snd <$> split_frames fuel n file) = file.
Proof.
  revert file. induction fuel as [|fuel IH]; intros file Hl Hf; [lia|]. simpl.
  case_decide as Hc; [simpl; by rewrite app_nil_r|]. simpl.
  rewrite IH; [apply take_drop|rewrite length_drop; lia|].
  destruct fuel; [simpl in Hl; lia|lia].
Qed.

(** The fuel does not matter once it is enough. *)
Lemma split_frames_fuel fuel fuel' n file :
  (length file ≤ fuel * n)%nat → (0 < fuel)%nat →
  (length file ≤ fuel' * n)%nat → (0 < fuel')%nat →
  split_frames fuel n file = split_frames fuel' n file.
Proof.
  revert fuel' file. induction fuel as [|fuel IH]; intros [|fuel'] file H1 H1' H2 H2'; try lia.
  cbn [split_frames]. case_decide as Hc; [done|]. f_equal.
  apply IH; rewrite ?length_drop; lia || (destruct fuel, fuel'; simpl in *; lia).
Qed.

Definition frames (n : nat) (file : list Z) : list (Z * list Z) :=
  split_frames (length file) n file.

Lemma frames_concat n file :
  (0 < n)%nat → file ≠ [] → concat (snd <$> frames n file) = file.
Proof.
  intros Hn Hf. assert (0 < length file)%nat by (destruct file; simpl; [done|lia]).
  apply split_frames_concat; nia.
Qed.

(** ** The requests of a channel *)

Record request := Request {
  rq_mem : mem;
  rq_op : tc_ns_operation;
  rq_cmd : tc_ns_smc_cmd
}.

Definition traced {Env : Type} (C : SmcChannel Env) : SmcChannel (Env * list request) := {|
  smc_sees '(e, tr) R := (smc_sees e R, tr);
  tc_ns_smc '(e, tr) m o c :=
    let '(e', m', o', c', r) := tc_ns_smc e m o c in
    (e', tr ++ [Request m o c], m', o', c', r);
  tc_ns_smc_with_no_nr '(e, tr) m o c :=
    let '(e', m', o', c', r) := tc_ns_smc_with_no_nr e m o c in
    (e', tr ++ [Request m o c], m', o', c', r)
|}.

(** What the TEE reads through the first parameter: the flag and the bytes. *)
Definition frame_seen {F : PhysMap} (q : request) : Z * list Z :=
  let p := param_at (rq_op q) 0 in
  let a := phys_to_virt (phys_join (nth 0 (op_buffer_h_addr (rq_op q)) 0) (memref_buffer p)) in
  (le_value (load_bytes (rq_mem q) a 4),
   load_bytes (rq_mem q) (a + SIZEOF_INT) (Z.to_nat (memref_size p - SIZEOF_INT))).

Lemma load_bytes_split m a j n :
  load_bytes m a (j + n) = load_bytes m a j ++ load_bytes m (a + Z.of_nat j) n.
Proof.
  revert a. induction j as [|j IH]; intros a; cbn [Nat.add load_bytes app].
  - by rewrite Z.add_0_r.
  - rewrite IH. do 3 f_equal. lia.
Qed.

Section Delivery.
Context {Env St : Type} {BA : BlockAllocator St} {BAL : BlockAllocatorLaws St BA}.
Context {SMC : SmcChannel Env} {P : PageMap} {F : PhysMap} {PF : PhysMapLaws P F}.
Context {CM : ClientMem} {CL : ClientMemLaws CM} {CU : Current}.
Context (fb fs : Z).

(** The TEE leaves the file and the shape of the operation alone. *)
Definition tee_leaves_file : Prop :=
  ∀ e m o c e' m' o' c' r, tc_ns_smc e m o c = (e', m', o', c', r) →
    length (op_params o') = length (op_params o) ∧
    length (op_buffer_h_addr o') = length (op_buffer_h_addr o) ∧
    ∀ x, fb ≤ x < fb + fs → m' !! x = m !! x.

Definition file_from (m : mem) (k : Z) : list Z := load_bytes m (fb + k) (Z.to_nat (fs - k)).

Lemma file_from_ext m m' k :
  0 ≤ k → (∀ x, fb ≤ x < fb + fs → m' !! x = m !! x) → file_from m' k = file_from m k.
Proof. intros Hk H. apply load_bytes_ext. intros x Hx. apply H. lia. Qed.

Lemma file_from_split m k j :
  0 ≤ j → k + j ≤ fs →
  file_from m k = load_bytes m (fb + k) (Z.to_nat j) ++ file_from m (k + j).
Proof.
  intros Hj Hk. unfold file_from.
  replace (Z.to_nat (fs - k)) with (Z.to_nat j + Z.to_nat (fs - (k + j)))%nat by lia.
  rewrite load_bytes_split. do 2 f_equal. lia.
Qed.

(** The block of a load and its place in memory. *)
Record img_ok (p : load_img_params) : Prop := {
  img_pos : 0 < mb_load_mem p;
  img_size : SIZEOF_INT < mb_load_size p < 2 ^ 31;
  img_phys : 0 ≤ virt_to_phys (mb_load_mem p) < 2 ^ 64;
  img_apart x : fb ≤ x < fb + fs → ¬ mb_load_mem p ≤ x < mb_load_mem p + mb_load_size p
}.

(** One frame: what is in the block and in the operation when it is sent. *)
Lemma frame_seen_packed (p : load_img_params) m op cmd dev_id index type flag k l b1 b3 :
  img_ok p → length (op_params op) = 4%nat → length (op_buffer_h_addr op) = 4%nat →
  0 ≤ flag < 2 → 0 ≤ k ≤ mb_load_size p - SIZEOF_INT → length l = Z.to_nat k →
  let '(op1, cmd1) := pack_load_frame_cmd k p op cmd in
  frame_seen (Request
    (store_bytes (store_bytes m (mb_load_mem p) (le_bytes 4 flag)) (mb_load_mem p + SIZEOF_INT) l)
    (set_param (set_param op1 3 (NsParam index b3)) 1 (NsParam type b1))
    (cmd_with_dev cmd1 dev_id)) = (flag, l).
Proof.
  intros Hp Ho1 Ho2 Hf Hk Hl. destruct op as [ty ps hs sh mb]. simpl in Ho1, Ho2.
  destruct ps as [|p0 [|p1 [|p2 [|p3 [|]]]]]; try done.
  destruct hs as [|h0 [|h1 [|h2 [|h3 [|]]]]]; try done.
  assert (phys_join (phys_hi (mb_load_mem p)) (phys_lo (mb_load_mem p))
    = virt_to_phys (mb_load_mem p)) as Ej by (apply phys_join_split, Hp).
  unfold pack_load_frame_cmd. generalize (phys_lo (uuid_return p)), (phys_hi (uuid_return p)).
  revert Ej. generalize (phys_lo (mb_load_mem p)), (phys_hi (mb_load_mem p)).
  intros lo hi Ej lo2 hi2. unfold frame_seen.
  cbn -[load_bytes store_bytes le_bytes le_value]. rewrite Ej.
  rewrite (phys_to_virt_to_phys (F := F)) by apply Hp.
  unfold SIZEOF_INT in *. pose proof (img_size p Hp) as Hsz. unfold SIZEOF_INT in Hsz.
  rewrite u32_small by lia. f_equal.
  - rewrite load_store_bytes_outside by lia.
    change 4%nat with (length (le_bytes 4 flag)). rewrite load_store_bytes.
    assert (flag = 0 ∨ flag = 1) as [->| ->] by lia; done.
  - replace (Z.to_nat (k + 4 - 4)) with (length l) by lia. apply load_store_bytes.
Qed.

(** The copy of a frame: what arrives in the block when it succeeds. *)
Lemma copy_file_ok m p loaded k :
  img_ok p → lp_file_buffer p = fb → 0 < fb → 0 ≤ loaded → loaded + k ≤ fs →
  0 ≤ k ≤ mb_load_size p - SIZEOF_INT →
  ∃ l r, load_image_copy_file m p k loaded = (store_bytes m (mb_load_mem p + SIZEOF_INT) l, r) ∧
    (r = 0 → l = load_bytes m (fb + loaded) (Z.to_nat k)) ∧
    ((∀ m x k, (copy_from_user m x k).1 = 0) → r = 0).
Proof.
  intros Hp Hfb H0 Hl0 Hkf Hk. pose proof (img_size p Hp) as Hsz. unfold load_image_copy_file.
  unfold SIZEOF_INT in *. rewrite Hfb, u32_small by lia.
  destruct (if negb current_mm then memcpy_in m (mb_load_size p - 4) (fb + loaded) k
            else copy_from_user m (fb + loaded) k) as [r l] eqn:Ec.
  exists l, (if nonzero r then - EFAULT else 0). split; [done|]. split.
  - destruct (nonzero r) eqn:Hn; [done|]. intros _. apply nonzero_false in Hn as ->.
    destruct current_mm; cbn [negb] in Ec; [by apply copy_from_user_ok in Ec; [|lia]|].
    by apply memcpy_in_eok in Ec; [|lia].
  - intros Hcp. assert (r = 0) as ->; [|done]. destruct current_mm; cbn [negb] in Ec.
    + pose proof (Hcp m (fb + loaded) k) as X. by rewrite Ec in X.
    + rewrite memcpy_in_ok in Ec; [by injection Ec|lia| |lia]. unfold SECUREC_MEM_MAX_LEN. lia.
Qed.

(** The reference splitting at a position in the file. *)
Lemma split_frames_at m fuel n loaded :
  0 < n → 0 ≤ loaded < fs →
  split_frames (S fuel) (Z.to_nat n) (file_from m loaded) =
    if decide (fs - loaded ≤ n) then [(0, load_bytes m (fb + loaded) (Z.to_nat (fs - loaded)))]
    else (1, load_bytes m (fb + loaded) (Z.to_nat n))
         :: split_frames fuel (Z.to_nat n) (file_from m (loaded + n)).
Proof.
  intros Hn Hl. cbn [split_frames]. destruct (decide (fs - loaded ≤ n)).
  - rewrite decide_True by (unfold file_from; rewrite load_bytes_length; lia). done.
  - rewrite decide_False by (unfold file_from; rewrite load_bytes_length; lia).
    rewrite (file_from_split m loaded n) by lia.
    by rewrite take_app_length', drop_app_length' by (by rewrite load_bytes_length).
Qed.

(** The file is the same in both memories. *)
Definition file_same (m m' : mem) : Prop := ∀ x, fb ≤ x < fb + fs → m' !! x = m !! x.

Lemma store_block_same p m a l :
  img_ok p → mb_load_mem p ≤ a → a + Z.of_nat (length l) ≤ mb_load_mem p + mb_load_size p →
  file_same m (store_bytes m a l).
Proof.
  intros Hp Ha Hl x Hx. apply store_bytes_lookup_outside. pose proof (img_apart p Hp x Hx). lia.
Qed.

(** A frame of [k] bytes: it is copied and then seen by the TEE, or the copy
    fails. *)
Lemma frame_request m p op cmd dev_id index ty flag k loaded :
  img_ok p → lp_file_buffer p = fb → 0 < fb → 0 ≤ loaded → loaded + k ≤ fs →
  0 ≤ k ≤ mb_load_size p - SIZEOF_INT → 0 ≤ flag < 2 →
  length (op_params op) = 4%nat → length (op_buffer_h_addr op) = 4%nat →
  let m1 := store_bytes m (mb_load_mem p) (le_bytes 4 flag) in
  let '(m2, r) := load_image_copy_file m1 p k loaded in
  ((∀ m x k, (copy_from_user m x k).1 = 0) → r = 0) ∧
  (r = 0 → file_same m m2 ∧
    let '(op1, cmd1) := pack_load_frame_cmd k p op cmd in
    ∀ b1 b3, let op2 := set_param (set_param op1 3 (NsParam index b3)) 1 (NsParam ty b1) in
      length (op_params op2) = 4%nat ∧ length (op_buffer_h_addr op2) = 4%nat ∧
      frame_seen (Request m2 op2 (cmd_with_dev cmd1 dev_id))
        = (flag, load_bytes m (fb + loaded) (Z.to_nat k))).
Proof.
  intros Hp Hfb H0 Hl0 Hkf Hk Hflag Ho1 Ho2 m1. pose proof (img_size p Hp) as Hsz.
  assert (file_same m m1) as Hm1.
  { apply (store_block_same p); [done|lia|]. unfold SIZEOF_INT in *. cbn [le_bytes length]. lia. }
  destruct (copy_file_ok m1 p loaded k Hp Hfb H0 Hl0 Hkf Hk) as (l & r & E & Hl & Hr).
  rewrite E. split; [done|]. intros ->. specialize (Hl eq_refl).
  assert (length l = Z.to_nat k) as Hll by (by rewrite Hl, load_bytes_length). split.
  - intros x Hx. rewrite <- (Hm1 x Hx). apply (store_block_same p); unfold SIZEOF_INT in *; done || lia.
  - assert (load_bytes m1 (fb + loaded) (Z.to_nat k) = load_bytes m (fb + loaded) (Z.to_nat k)) as Em
      by (apply load_bytes_ext; intros; apply Hm1; lia). rewrite Em in Hl.
    pose proof (λ b1 b3, frame_seen_packed p m op cmd dev_id index ty flag k l b1 b3 Hp Ho1 Ho2 Hflag Hk)
      as Hseen.
    unfold pack_load_frame_cmd in *. intros b1 b3.
    split; [cbn; by rewrite !length_insert|]. split; [cbn; by rewrite !length_insert|].
    rewrite <- Hl. by apply Hseen.
Qed.

(** Where the loop is: the last frame or one of [n] bytes with more to come. *)
Lemma frame_place fuel n index times loaded :
  0 < n → (times - 1) * n < fs ≤ times * n → 0 ≤ index < times → loaded = index * n →
  S fuel = Z.to_nat (times - index) →
  let last := index =? times - 1 in
  let k := if last then fs - loaded else n in
  0 ≤ loaded < fs ∧ 0 ≤ k ≤ n ∧ loaded + k ≤ fs ∧
  (if last then fs - loaded ≤ n ∧ fuel = 0%nat else loaded + n < fs ∧ index + 1 < times).
Proof.
  intros Hn Hf Hi -> Hfuel last k. unfold k, last.
  destruct (Z.eqb_spec index (times - 1)); split_and!; nia || lia.
Qed.

(** The reference splitting at the loop's place. *)
Lemma frame_split m fuel n index times loaded :
  0 < n → (times - 1) * n < fs ≤ times * n → 0 ≤ index < times → loaded = index * n →
  S fuel = Z.to_nat (times - index) →
  let last := index =? times - 1 in
  split_frames (S fuel) (Z.to_nat n) (file_from m loaded) =
    (if last then 0 else 1,
     load_bytes m (fb + loaded) (Z.to_nat (if last then fs - loaded else n)))
    :: (if last then [] else split_frames fuel (Z.to_nat n) (file_from m (loaded + n))).
Proof.
  intros Hn Hf Hi Hl Hfuel last. destruct (frame_place fuel n index times loaded) as (Hl0 & _ & _ & Hc);
    try done. fold last in Hc. rewrite split_frames_at by lia.
  destruct last; [rewrite decide_True by lia|rewrite decide_False by lia]; done.
Qed.

Lemma load_frame_loop_delivers fuel (e : Env) tr m p op cmd dev_id index times loaded tee type :
  tee_leaves_file → img_ok p → lp_file_buffer p = fb → lp_file_size p = fs →
  0 < fb → 0 ≤ fs < 2 ^ 31 →
  length (op_params op) = 4%nat → length (op_buffer_h_addr op) = 4%nat →
  let n := mb_load_size p - SIZEOF_INT in
  (times - 1) * n < fs ≤ times * n → 0 ≤ index < times → loaded = index * n →
  fuel = Z.to_nat (times - index) →
  ∃ e' tr' m' tee' ret,
    load_frame_loop (SMC := traced SMC) fuel (e, tr) m p op cmd dev_id index times loaded tee type
      = ((e', tr ++ tr'), m', tee', ret) ∧
    (frame_seen <$> tr') `prefix_of` split_frames fuel (Z.to_nat n) (file_from m loaded) ∧
    (ret = 0 → (frame_seen <$> tr') = split_frames fuel (Z.to_nat n) (file_from m loaded)) ∧
    ((∀ e m o c, (tc_ns_smc (SmcChannel := SMC) e m o c).2 = 0) →
     (∀ m x k, (copy_from_user m x k).1 = 0) → ret = 0).
Proof.
  intros Htee Hp Hfb Hfs H0 Hf31. intros Ho1 Ho2 n Hn Hi Hld Hfuel. pose proof (img_size p Hp) as Hsz.
  assert (0 < n) as Hn0 by lia.
  revert e tr m op cmd index loaded Ho1 Ho2 Hi Hld Hfuel.
  induction fuel as [|fuel IH]; intros e tr m op cmd index loaded Ho1 Ho2 Hi Hld Hfuel; [lia|].
  destruct (frame_place fuel n index times loaded) as (Hl0 & Hk & Hkf & Hc); try done.
  rewrite (frame_split m fuel n index times loaded) by done. cbn [load_frame_loop]. rewrite Hfs.
  set (last := index =? times - 1) in *. set (k := if last then fs - loaded else n) in *.
  replace (if last then u32 (fs - loaded) else u32 (mb_load_size p - SIZEOF_INT)) with k
    by (unfold k; fold n; destruct last; rewrite u32_small; unfold SIZEOF_INT in *; lia).
  rewrite (u32_small (mb_load_size p - SIZEOF_INT)) by (unfold SIZEOF_INT in *; lia).
  fold n. rewrite (proj2 (Z.ltb_ge n k)) by lia. set (flag := if last then 0 else 1).
  assert (0 ≤ flag < 2) as Hflag by (unfold flag; destruct last; lia).
  pose proof (frame_request m p op (cmd_with_origin cmd TEEC_ORIGIN_COMMS) dev_id index
    (if type =? LOAD_DYNAMIC_DRV then 1 else 0) flag k loaded Hp Hfb H0 (proj1 Hl0) Hkf Hk Hflag Ho1 Ho2)
    as Hone. cbv zeta in Hone.
  destruct (load_image_copy_file _ p k loaded) as [m2 r]. destruct Hone as [Hcp Hone].
  destruct (nonzero r) eqn:Hnr.
  { apply nonzero_true in Hnr. exists e, [], m2, tee, (- EFAULT). rewrite app_nil_r.
    split_and!; [done|apply prefix_nil|done|]. intros _ Hok. by destruct Hnr; apply Hcp. }
  apply nonzero_false in Hnr. destruct (Hone Hnr) as [Hm2 Hpack].
  destruct (pack_load_frame_cmd k p op _) as [op1 cmd1].
  destruct (Hpack (value_b (param_at (set_param op1 3 (NsParam index (value_b (param_at op1 3)))) 1))
    (value_b (param_at op1 3))) as (Hq1 & Hq2 & Hseen). set (op2 := set_param (set_param _ _ _) _ _) in *.
  cbn [tc_ns_smc traced].
  destruct (tc_ns_smc e m2 op2 (cmd_with_dev cmd1 dev_id)) as [[[[e' m'] o'] c'] smc_ret] eqn:Es.
  destruct (Htee _ _ _ _ _ _ _ _ _ Es) as (Hs1 & Hs2 & Hm3).
  destruct (nonzero smc_ret) eqn:Hnz.
  { apply nonzero_true in Hnz. eexists e', [_], m', _, (- EFAULT). split; [reflexivity|].
    cbn [fmap list_fmap]. rewrite Hseen. split_and!; [apply prefix_cons, prefix_nil|done|].
    intros Hacc _. specialize (Hacc e m2 op2 (cmd_with_dev cmd1 dev_id)). by rewrite Es in Hacc. }
  assert (file_same m m') as Hm' by (intros x Hx; rewrite Hm3 by done; by apply Hm2).
  destruct last eqn:El.
  - destruct Hc as (_ & ->). cbn [load_frame_loop].
    eexists e', [_], m', tee, 0. split; [reflexivity|]. cbn [fmap list_fmap]. rewrite Hseen. by split_and!.
  - assert (k = n) as -> by done. rewrite u32_small by lia.
    destruct (IH e' (tr ++ [Request m2 op2 (cmd_with_dev cmd1 dev_id)]) m' o' c' (index + 1) (loaded + n))
      as (e2 & tr2 & m4 & tee2 & ret & -> & Hpre & Heq & Hok);
      [by rewrite Hs1|by rewrite Hs2|lia|lia|lia|].
    rewrite (file_from_ext m m') in Hpre, Heq by (lia || done).
    eexists e2, (_ :: tr2), m4, tee2, ret. split; [by rewrite <- app_assoc|].
    cbn [fmap list_fmap]. rewrite Hseen. split_and!; [by apply prefix_cons| |done].
    intros E. f_equal. by apply Heq.
Qed.

(** The number of frames [tc_ns_load_image] computes. *)
Lemma load_times_bound n :
  0 < n → 0 < fs →
  let times := fs / n + (if nonzero (fs mod n) then 1 else 0) in
  (times - 1) * n < fs ≤ times * n ∧ 0 < times.
Proof.
  intros Hn Hf. cbv zeta. pose proof (Z.div_mod fs n ltac:(lia)) as D.
  pose proof (Z.mod_pos_bound fs n Hn). pose proof (Z.div_pos fs n ltac:(lia) Hn).
  destruct (nonzero _) eqn:E.
  - apply nonzero_true in E. nia.
  - apply nonzero_false in E. rewrite E in *. nia.
Qed.

(** A block has a physical address and does not contain the file. *)
Definition apart_from_file (a size : Z) : Prop :=
  0 ≤ virt_to_phys a < 2 ^ 64 ∧ ∀ x, fb ≤ x < fb + fs → ¬ a ≤ x < a + align_4k size.

(** The size [tc_ns_load_image] starts with. *)
Definition first_load_size : Z :=
  if SZ_1M - SIZEOF_INT <? fs then SZ_1M else align_4k_u32 fs.

(** An allocated block of at most the first size is one a load can use. *)
Lemma allocated_img_ok p :
  0 < fs ≤ SZ_8M → SIZEOF_INT < mb_load_size p ≤ first_load_size → 0 < mb_load_mem p →
  apart_from_file (mb_load_mem p) (mb_load_size p) → img_ok p.
Proof.
  intros Hfs Hsz Ha [Hph Hap].
  assert (mb_load_size p < 2 ^ 31) as Hmb.
  { unfold first_load_size, SZ_1M, SZ_8M, SIZEOF_INT in *.
    destruct (Z.ltb_spec (0x100000 - 4) fs); [lia|].
    pose proof (align_4k_u32_le fs). rewrite u32_small in * by (unfold SZ_4K; lia).
    unfold SZ_4K in *. lia. }
  split; [done|lia|done|]. intros x Hx ?. destruct (Hap x Hx).
  pose proof (align_4k_bounds (mb_load_size p) ltac:(unfold SZ_4K, SIZEOF_INT in *; lia)). lia.
Qed.

(** The frames that are sent are those of the file. *)
Lemma sent_frames m m1 times n :
  0 < fs → 0 < n → fs ≤ times * n → 0 < times →
  (∀ k, 0 ≤ k → file_from m1 k = file_from m k) →
  split_frames (Z.to_nat times) (Z.to_nat n) (file_from m1 0)
  = frames (Z.to_nat n) (load_bytes m fb (Z.to_nat fs)).
Proof.
  intros Hfs Hn Ht Ht0 Hff. rewrite Hff by lia. unfold file_from. rewrite Z.add_0_r, Z.sub_0_r.
  apply split_frames_fuel; rewrite ?load_bytes_length; nia.
Qed.

(** C22. Loading a TA delivers its image.  Whatever blocks can be had and
    whatever the TEE answers, the load ends and gives back every block; the
    requests the TEE has seen are the frames of the file, in order, without a
    gap and with only the last one flagged, up to the point of a failure; if
    the load returns 0 the TEE has seen all of them, and it does return 0 when
    the blocks can be had, the copies succeed and the TEE accepts. *)
Theorem ta_image_delivered (e : Env) s m R L dev d tee type :
  ba_owns s L → g_devs R !! dev = Some d → dev ≠ 0 → 0 < fb → 0 < fs ≤ SZ_8M →
  tee_leaves_file → pool_gives apart_from_file (λ x, fb ≤ x < fb + fs) →
  ∃ e' tr s' m' tee' ret n,
    tc_ns_load_image (SMC := traced SMC) (e, []) s m R dev fb fs tee type
      = Ret (e', tr, s', m', tee', ret) ∧ ba_owns s' L ∧ (0 < n)%nat ∧
    (frame_seen <$> tr) `prefix_of` frames n (load_bytes m fb (Z.to_nat fs)) ∧
    (ret = 0 → (frame_seen <$> tr) = frames n (load_bytes m fb (Z.to_nat fs)) ∧
       concat (snd <$> (frame_seen <$> tr)) = load_bytes m fb (Z.to_nat fs)) ∧
    (∀ s1 m1 p, alloc_for_load_image s m (LoadImg dev fb fs 0 0 0 first_load_size)
         = Ret (s1, m1, p, 0) → SIZEOF_INT < mb_load_size p →
       (∀ e m o c, (tc_ns_smc (SmcChannel := SMC) e m o c).2 = 0) →
       (∀ m x k, (copy_from_user m x k).1 = 0) → ret = 0).
Proof.
  intros Ho Hd Hd0 Hfb Hfs Htee Hpool. unfold tc_ns_load_image.
  rewrite (proj2 (Z.eqb_neq dev 0)), (proj2 (Z.eqb_neq fb 0)) by lia. cbn [orb].
  unfold is_valid_ta_size.
  rewrite (proj2 (Z.eqb_neq fb 0)), (proj2 (Z.eqb_neq fs 0)), (proj2 (Z.ltb_ge _ _)) by lia.
  cbn [orb negb]. rewrite (proj2 (at_index_Some _ _ _) Hd), ret_bind. fold first_load_size.
  assert (0 ≤ first_load_size ≤ 2 ^ 32) as Hsz
    by (apply load_size_range; unfold SZ_8M in *; lia).
  destruct (alloc_for_load_ok _ _ s m L (LoadImg dev fb fs 0 0 0 first_load_size) Hpool Ho)
    as (s1 & m1 & p & ret & E & Eb & Es & Hp & Hm & Hc); [simpl; lia|].
  rewrite E, ret_bind. simpl in Eb, Es, Hp.
  assert (∀ k, 0 ≤ k → file_from m1 k = file_from m k) as Hff
    by (intros; by apply file_from_ext).
  destruct Hc as [[Hret H1]|(-> & Ha & [Hph Hap] & H1)].
  { rewrite (nonzero_neq ret) by done. exists e, [], s1, m1, tee, ret, 1%nat.
    split_and!; [done|done|lia|apply prefix_nil|done|]. intros ? ? ? E' _.
    by injection E' as _ _ _ ->. }
  change (nonzero 0) with false. cbv iota.
  destruct (free_img_blocks _ _ _ H1) as (s2 & s3 & s4 & F1 & F2 & F3 & H4).
  destruct (Z.leb_spec (mb_load_size p) SIZEOF_INT) as [Hsmall|Hbig].
  { rewrite F1, ret_bind, F2, ret_bind, F3, ret_bind.
    exists e, [], s4, m1, tee, (- ENOMEM), 1%nat.
    split_and!; [done|done|lia|apply prefix_nil|done|]. intros ? ? ? E' ?.
    simplify_eq. lia. }
  set (n := mb_load_size p - SIZEOF_INT). cbv zeta.
  destruct (load_times_bound n ltac:(lia) ltac:(lia)) as [Ht Ht0].
  set (times := fs / n + _) in *.
  assert (img_ok p) as Hok by (apply allocated_img_ok; [done|lia|done|by split]).
  unfold load_image_by_frame.
  destruct (load_frame_loop_delivers (Z.to_nat times) e [] m1 p zero_operation zero_smc_cmd
    (df_id d) 0 times 0 tee type Htee Hok Eb Es Hfb ltac:(unfold SZ_8M in *; lia) eq_refl eq_refl Ht
    ltac:(lia) ltac:(lia) ltac:(f_equal; lia)) as (e' & tr & m' & tee' & ret & -> & H5 & H6 & H7).
  rewrite F1, ret_bind, F2, ret_bind, F3, ret_bind.
  pose proof (sent_frames m m1 times n ltac:(lia) ltac:(lia) ltac:(lia) Ht0 Hff) as Ef.
  cbv zeta in H5, H6. fold n in H5, H6. rewrite Ef in H5, H6.
  exists e', tr, s4, m', tee', ret, (Z.to_nat n).
  split_and!; [done|done|lia|done| |by intros; apply H7].
  intros Hr. split; [by apply H6|]. rewrite H6 by done. apply frames_concat; [lia|].
  intros El. apply (f_equal length) in El. rewrite load_bytes_length in El. simpl in El. lia.
Qed.

End Delivery.

(** ** Example *)

(** A pool of eight blocks of 2 MiB, at addresses far above the client's. *)
Definition slots : list Z := (λ i, 2 ^ 41 + i * 2 ^ 21) <$> seqZ 0 8.

Definition free_slot (s : gset Z) : option Z := head (filter (λ a, a ∉ s) slots).

#[export] Instance slot_allocator : BlockAllocator (gset Z) := {|
  ba_alloc s m size flag :=
    if (size <=? 0) || (2 ^ 21 <? size) then Ret (s, m, 0)
    else
      match free_slot s with
      | None => Ret (s, m, 0)
      | Some a =>
          Ret ({[a]} ∪ s,
               if nonzero (Z.land flag MB_FLAG_ZERO)
               then store_bytes m a (replicate (Z.to_nat (align_4k size)) 0) else m, a)
      end;
  ba_free s a := if decide (a = 0) then Ret s
                 else if decide (a ∈ s) then Ret (s ∖ {[a]}) else Fault;
  ba_owns s L := s = L ∧ 0 ∉ L
|}.

Lemma free_slot_ok s a : free_slot s = Some a → a ∈ slots ∧ a ∉ s.
Proof.
  intros H. apply head_Some_elem_of in H. apply list_elem_of_filter in H. tauto.
Qed.

Lemma slots_range a : a ∈ slots → 2 ^ 41 ≤ a < 2 ^ 42.
Proof.
  intros (i & -> & Hi)%list_elem_of_fmap. apply elem_of_seqZ in Hi. lia.
Qed.

#[export] Instance slot_allocator_laws : BlockAllocatorLaws (gset Z) slot_allocator.
Proof.
  split; simpl.
  - intros s L m size flag [-> H0] Hs.
    destruct (_ || _) eqn:E; [exists L, m, 0; split; [done|]; by left|].
    apply orb_false_iff in E as [E%Z.leb_gt _].
    destruct (free_slot L) as [a|] eqn:Ea; [|exists L, m, 0; split; [done|]; by left].
    apply free_slot_ok in Ea as [Ha%slots_range Hn].
    eexists _, _, a. split; [done|]. right. split_and!; [lia|done|lia|done|set_solver by lia| |].
    + intros x Hx. destruct (nonzero _); [|done]. apply store_bytes_lookup_outside.
      rewrite length_replicate. lia.
    + intros Hf. rewrite (nonzero_neq _ Hf).
      rewrite <- (length_replicate (Z.to_nat (align_4k size)) 0) at 2. apply load_store_bytes.
  - intros s L m flag [-> _]. done.
  - intros s L a [-> H0] Ha. rewrite decide_False by (by intros ->). rewrite decide_True by done.
    eexists. split; [done|]. split; [done|set_solver].
  - intros s L _. done.
Qed.

Lemma slots_apart fb fs :
  0 < fb → fb + fs < 2 ^ 41 →
  pool_gives (BA := slot_allocator) (apart_from_file (P := linear_map) fb fs)
    (λ x, fb ≤ x < fb + fs).
Proof.
  intros Hfb Hfs. split; [|intros a size x [_ H]; apply H].
  simpl. intros s L m size flag s' m' a _ _ E Ha.
  destruct (_ || _); [by simplify_eq|].
  destruct (free_slot s) as [b|] eqn:Eb; [|by simplify_eq]. simplify_eq.
  apply free_slot_ok in Eb as [Hb%slots_range _]. split; [lia|]. split.
  - simpl. unfold linear_base. lia.
  - intros x Hx. lia.
Qed.

(** A TEE that accepts everything. *)
Definition accepting_tee : SmcChannel unit := {|
  smc_sees e _ := e;
  tc_ns_smc e m o c := (e, m, o, c, 0);
  tc_ns_smc_with_no_nr e m o c := (e, m, o, c, 0)
|}.

Definition demo_load_registry : registry :=
  Registry ∅ ∅ {[1000 := zero_dev_file]} ∅ [] [1000] 1.

Definition user_task : Current := {|
  current_tgid := 10; current_pid := 10; current_uid := 0; current_mm := true
|}.

Lemma ta_image_delivered_witness :
  ∃ tr s' m' tee',
    tc_ns_load_image (BA := slot_allocator) (SMC := traced accepting_tee) (P := linear_map)
      (CM := flat_client) (CU := user_task) (tt, []) ∅ ∅ demo_load_registry 1000 0x5000 10000
      None LOAD_TA = Ret (tt, tr, s', m', tee', 0) ∧ s' = ∅ ∧
    concat (snd <$> (frame_seen (F := linear_phys) <$> tr)) = load_bytes ∅ 0x5000 (Z.to_nat 10000).
Proof.
  destruct (ta_image_delivered (BA := slot_allocator) (SMC := accepting_tee) (P := linear_map)
    (F := linear_phys) (CM := flat_client) (CU := user_task) 0x5000 10000 tt ∅ ∅
    demo_load_registry ∅ 1000 zero_dev_file None LOAD_TA)
    as (e' & tr & s' & m' & tee' & ret & n & E & [Hs _] & _ & _ & Hall & Hlive).
  - split; [reflexivity|set_solver].
  - reflexivity.
  - lia.
  - lia.
  - vm_compute. split; [reflexivity|discriminate].
  - intros e m o c e' m' o' c' r H. injection H as _ <- <- _ _. by split_and!.
  - apply slots_apart; lia.
  - destruct e'.
    assert (ret = 0) as Hr.
    { eapply (Hlive _ (store_bytes ∅ (2 ^ 41 + 1 * 2 ^ 21) (replicate (Z.to_nat (align_4k SZ_4K)) 0))
        (LoadImg 1000 0x5000 10000 (2 ^ 41 + 1 * 2 ^ 21) (2 ^ 41 + 0 * 2 ^ 21)
           (2 ^ 41 + 2 * 2 ^ 21) 12288));
        [reflexivity|reflexivity|intros; reflexivity|intros; reflexivity]. }
    subst ret. exists tr, s', m', tee'. split; [exact E|]. split; [exact Hs|].
    exact (proj2 (Hall eq_refl)).
Defined.
