(* ===== verification/SessMgr.v ===== *)
(** * Opening, using and closing sessions (core/session_manager.c)

    One definition per function, over the state of a call ([call_state]): the
    environment of the TEE, the mailbox pool, byte memory and the registry.
    [fuel] bounds the number of commands the TEE may answer with
    [TEEC_PENDING], as in [tc_client_call]; [None] is that bound exceeded. *)

From stdpp Require Import base gmap list.
From Stdlib Require Import ZArith Lia.
From S2P Require Import Prelude KernelApi TeeTypes Buffers Mailbox MailboxClaims SessReg.
From S2P Require Import SessLookup CallTypes Auth AuthCall GpParams GpCall Tlogger TloggerSys.
From S2P Require Import Agent AgentReg TeecdAuth SessLoad.

Definition MAX_PACKAGE_NAME_LEN : Z := 255.
Definition MAX_PUBKEY_LEN : Z := 1024.
Definition TEEC_LOGIN_IDENTIFY : Z := 7.

(** ** Fields of the context *)

Definition ctx_with_params (c : tc_ns_client_context) (ps : list tc_ns_client_param) :=
  ClientContext (ctx_uuid c) (ctx_session_id c) (ctx_cmd_id c) (returns_code c)
    (returns_origin c) (ctx_login_method c) (ctx_login_mdata c) ps (ctx_param_types c)
    (ctx_started c) (ctx_teec_token c) (ctx_token_len c) (calling_pid c)
    (file_size c) (file_buffer c).

Definition ctx_with_types (c : tc_ns_client_context) (ty : Z) :=
  ClientContext (ctx_uuid c) (ctx_session_id c) (ctx_cmd_id c) (returns_code c)
    (returns_origin c) (ctx_login_method c) (ctx_login_mdata c) (ctx_params c) ty
    (ctx_started c) (ctx_teec_token c) (ctx_token_len c) (calling_pid c)
    (file_size c) (file_buffer c).

Definition ctx_with_cmd (c : tc_ns_client_context) (id : Z) :=
  ClientContext (ctx_uuid c) (ctx_session_id c) id (returns_code c)
    (returns_origin c) (ctx_login_method c) (ctx_login_mdata c) (ctx_params c)
    (ctx_param_types c) (ctx_started c) (ctx_teec_token c) (ctx_token_len c) (calling_pid c)
    (file_size c) (file_buffer c).

(** [params[i].memref.size_addr] and [params[i].memref.buffer]. *)
Definition ctx_set_memref (c : tc_ns_client_context) (i : Z) (buffer size_addr : Z) :=
  ctx_with_params c (<[Z.to_nat i :=
    ClientParam buffer (cp_offset (client_param_at c i)) size_addr]> (ctx_params c)).

(** ** The context in user memory: 176 bytes on a 64-bit kernel *)

Definition CONTEXT_LEN : Z := 176.

Definition decode_param (l : list Z) : tc_ns_client_param :=
  ClientParam (le_value (sub_buf l 0 8)) (le_value (sub_buf l 8 8)) (le_value (sub_buf l 16 8)).

Definition encode_param (p : tc_ns_client_param) : list Z :=
  le_bytes 8 (cp_w0 p) ++ le_bytes 8 (cp_w1 p) ++ le_bytes 8 (cp_w2 p).

Definition decode_context (l : list Z) : tc_ns_client_context :=
  let u32_at off := u32 (le_value (sub_buf l off 4)) in
  ClientContext (sub_buf l 0 16) (u32_at 16) (u32_at 20) (s32 (u32_at 24)) (u32_at 28)
    (u32_at 32) (u32_at 36)
    ((λ i, decode_param (sub_buf l (40 + 24 * i) 24)) <$> [0; 1; 2; 3])
    (u32_at 136) (le_value (sub_buf l 140 1)) (le_value (sub_buf l 144 8)) (u32_at 152)
    (u32_at 156) (u32_at 160) (le_value (sub_buf l 168 8)).

(** Padding is copied as it is on the stack; here as zeros. *)
Definition encode_context (c : tc_ns_client_context) : list Z :=
  ctx_uuid c ++ le_bytes 4 (ctx_session_id c) ++ le_bytes 4 (ctx_cmd_id c)
  ++ le_bytes 4 (u32 (returns_code c)) ++ le_bytes 4 (returns_origin c)
  ++ le_bytes 4 (ctx_login_method c) ++ le_bytes 4 (ctx_login_mdata c)
  ++ concat (encode_param <$> ctx_params c) ++ le_bytes 4 (ctx_param_types c)
  ++ le_bytes 1 (ctx_started c) ++ replicate 3 0 ++ le_bytes 8 (ctx_teec_token c)
  ++ le_bytes 4 (ctx_token_len c) ++ le_bytes 4 (calling_pid c) ++ le_bytes 4 (file_size c)
  ++ replicate 4 0 ++ le_bytes 8 (file_buffer c).

(** ** Login data of a device file *)

(** Offsets of the members of [struct tc_ns_dev_file], fixed by the compiler. *)
Class DevLayout := {
  off_pkg_name_len : Z;
  off_pkg_name : Z;
  off_pub_key_len : Z;
  off_pub_key : Z
}.

Definition df_with_pub_key (d : tc_ns_dev_file) (len : Z) (key : list Z) : tc_ns_dev_file :=
  DevFile (df_id d) (service_ref d) (services d) (kernel_api d) (login_setup d)
    (pkg_name_len d) (pkg_name d) len key (load_app_flag d) (shared_mem_list d).

Section Mgr.
Context {Env St : Type} {BA : BlockAllocator St} {SMC : SmcChannel Env}.
Context {P : PageMap} {SC : SecureC} {SB : SecureBuf} {CM : ClientMem} {UA : UserAccess}.
Context {KR : KernelRandom} {KC : KernelCipher} {KA : KernelAlloc} {CU : Current}.
Context {VV : VirtValid} {CR : Caller} {DL : DevLayout}.

Abbreviation state := (call_state Env St).

(** The members the context points to, as the bytes they are in memory. *)
Definition expose_login (m : mem) (dev : Z) (d : tc_ns_dev_file) : mem :=
  let m := store_bytes m (dev + off_pkg_name_len) (le_bytes 4 (pkg_name_len d)) in
  let m := store_bytes m (dev + off_pkg_name) (pkg_name d) in
  let m := store_bytes m (dev + off_pub_key_len) (le_bytes 4 (pub_key_len d)) in
  store_bytes m (dev + off_pub_key) (pub_key d).

Definition set_login_information (R : registry) (m : mem) (dev_file : Z)
    (context : tc_ns_client_context) : outcome (registry * mem * tc_ns_client_context * Z) :=
  d ← at_index (g_devs R) dev_file;
  if pkg_name_len d =? 0 then Ret (R, m, context, - EINVAL)
  else
    let context := ctx_set_memref context 3 (dev_file + off_pkg_name) (dev_file + off_pkg_name_len) in
    let mark c := ctx_with_types c (u32 (teec_param_types
      (teec_param_type_get (ctx_param_types c) 0) (teec_param_type_get (ctx_param_types c) 1)
      TEEC_MEMREF_TEMP_INPUT TEEC_MEMREF_TEMP_INPUT)) in
    if nonzero (pub_key_len d) then
      let context := ctx_set_memref context 2 (dev_file + off_pub_key) (dev_file + off_pub_key_len) in
      Ret (R, expose_login m dev_file d, mark context, 0)
    else
      let ca_uid := tc_ns_get_uid in
      if ca_uid =? u32 (-1) then Ret (R, m, context, - EFAULT)
      else
        let context := ctx_set_memref context 2 (cp_buffer (client_param_at context 2))
                         (dev_file + off_pub_key_len) in
        let '(r, key) := buf_copy (pub_key d) 0 MAX_PUBKEY_LEN (le_bytes 4 ca_uid) 0 4 in
        let d := df_with_pub_key d 4 key in
        let R := upd_dev R dev_file d in
        if nonzero r then Ret (R, m, context, - EFAULT)
        else
          let context := ctx_set_memref context 2 (dev_file + off_pub_key)
                           (dev_file + off_pub_key_len) in
          Ret (R, expose_login m dev_file d, mark context, 0).

(** The new flags as well. *)
Definition check_login_method (R : registry) (m : mem) (dev_file : Z)
    (context : tc_ns_client_context) (flags : Z)
    : outcome (registry * mem * tc_ns_client_context * Z * Z) :=
  if dev_file =? 0 then Ret (R, m, context, flags, - EFAULT)
  else if negb (ctx_login_method context =? TEEC_LOGIN_IDENTIFY)
  then Ret (R, m, context, flags, - EINVAL)
  else
    d ← at_index (g_devs R) dev_file;
    if (kernel_api d =? TEE_REQ_FROM_USER_MODE)
       && (negb (tc_user_param_valid m (Some context) 0)
           || negb (tc_user_param_valid m (Some context) 1))
    then Ret (R, m, context, flags, - EINVAL)
    else
      '(R, m, context, ret) ← set_login_information R m dev_file context;
      if nonzero ret then Ret (R, m, context, flags, ret)
      else Ret (R, m, context, Z.lor flags TC_CALL_LOGIN, 0).

(** ** Opening *)

Definition free_session_token_buf (R : registry) (session : Z) : outcome registry :=
  if session =? 0 then Ret R
  else
    s ← at_index (g_sessions R) session;
    match token_buffer (teec_token s) with
    | None => Ret R
    | Some _ => Ret (upd_session R session (with_token s (Token None (token_len (teec_token s)))))
    end.

Definition clear_context_param (c : tc_ns_client_context) : tc_ns_client_context :=
  ctx_set_memref (ctx_set_memref c 2 0 0) 3 0 0.

Abbreviation result := (outcome (option (state * tc_ns_client_context * Z))).

Definition with_env_pool (k : state) (e : Env) (s : St) (m : mem) (R : registry) : state :=
  CallState e s m R (cs_op k) (cs_tzmp_uid k).

(** Ends a failed opening: the session's secure information is cleaned. *)
Definition open_failed (k : state) (context : tc_ns_client_context) (session ret : Z) : result :=
  R ← clean_session_secure_information (cs_reg k) session;
  Ret (Some (with_reg k R, context, ret)).

Definition proc_open_session (fuel : nat) (g_root : session_crypto_info) (k : state)
    (dev_file : Z) (context : tc_ns_client_context) (service session flags : Z) : result :=
  '(e, s, m, context, ret) ← load_ta_image (cs_env k) (cs_pool k) (cs_mem k) (cs_reg k)
                              dev_file context;
  let k := with_env_pool k e s m (cs_reg k) in
  if nonzero ret then Ret (Some (k, context, ret))
  else
    '(e, s, m, R, context, ret) ← get_session_secure_params (cs_env k) (cs_pool k) (cs_mem k)
                                   (cs_reg k) g_root dev_file context session;
    let k := with_env_pool k e s m R in
    if nonzero ret then open_failed k context session ret
    else
      x ← at_index (g_sessions (cs_reg k)) session;
      let buffer := if kzalloc_ok site_token_buffer
                    then Some (replicate (Z.to_nat TOKEN_BUFFER_LEN) 0) else None in
      let k := with_reg k (upd_session (cs_reg k) session
                             (with_token x (Token buffer TOKEN_BUFFER_LEN))) in
      match buffer with
      | None => open_failed k context session (- ENOMEM)
      | Some _ =>
          res ← tc_client_call fuel (CallParams dev_file context session flags) k;
          match res with
          | None => Ret None
          | Some (k, context, ret) =>
              if nonzero ret then open_failed k context session ret
              else
                R ← init_new_sess_node (cs_reg k) dev_file (ctx_session_id context) service session;
                Ret (Some (with_reg k R, context, ret))
          end
      end.

(** From a failure of [proc_open_session] to the label [clear_param]. *)
Definition undo_open (k : state) (dev_file service session : Z) : outcome state :=
  R ← free_session_token_buf (cs_reg k) session;
  R ← del_service_from_dev R dev_file service;
  Ret (with_reg k (set_sessions R (delete session (g_sessions R)))).

(** [kz_service] and [kz_session] are the addresses [kzalloc] returns. *)
Definition tc_ns_open_session (fuel : nat) (g_root : session_crypto_info) (k : state)
    (dev_file : Z) (context : tc_ns_client_context) (kz_service kz_session : Z) : result :=
  if dev_file =? 0 then Ret (Some (k, context, - EINVAL))
  else
    '(R, m, context, flags, ret) ← check_login_method (cs_reg k) (cs_mem k) dev_file context
                                    TC_CALL_GLOBAL;
    let k := with_reg (with_mem k m) R in
    if nonzero ret then Ret (Some (k, clear_context_param context, ret))
    else
      let context := ctx_with_cmd context GLOBAL_CMD_ID_OPEN_SESSION in
      '(R, service) ← find_service kz_service (cs_reg k) dev_file (ctx_uuid context);
      let k := with_reg k R in
      if service =? 0 then Ret (Some (k, clear_context_param context, - ENOMEM))
      else if zero_or_null_ptr kz_session then
        R ← del_service_from_dev (cs_reg k) dev_file service;
        Ret (Some (with_reg k R, clear_context_param context, - ENOMEM))
      else
        let k := with_reg k (upd_session (cs_reg k) kz_session zero_session) in
        res ← proc_open_session fuel g_root k dev_file context service kz_session flags;
        match res with
        | None => Ret None
        | Some (k, context, ret) =>
            if negb (nonzero ret) then Ret (Some (k, clear_context_param context, ret))
            else
              k ← undo_open k dev_file service kz_session;
              Ret (Some (k, clear_context_param context, ret))
        end.

(** ** Closing *)

(** The context on the stack; [memset_s] and [memcpy_s] with these constant
    sizes succeed. *)
Definition close_context (uuid : list Z) (session_id : Z) : tc_ns_client_context :=
  let c := zero_context in
  ClientContext uuid session_id GLOBAL_CMD_ID_CLOSE_SESSION (returns_code c)
    (returns_origin c) (ctx_login_method c) (ctx_login_mdata c) (ctx_params c)
    (ctx_param_types c) (ctx_started c) (ctx_teec_token c) (ctx_token_len c) (calling_pid c)
    (file_size c) (file_buffer c).

Definition close_session (fuel : nat) (k : state) (dev session : Z) (uuid : list Z)
    (uuid_len session_id : Z) : outcome (option (state * Z)) :=
  if negb (uuid_len =? UUID_LEN) then Ret (Some (k, - EINVAL))
  else
    res ← tc_client_call fuel (CallParams dev (close_context uuid session_id) session
                                 (Z.lor TC_CALL_GLOBAL TC_CALL_SYNC)) k;
    match res with None => Ret None | Some (k, _, ret) => Ret (Some (k, ret)) end.

(** [memset_s(&session->secure_info, ...)] *)
Definition wipe_secure_info (R : registry) (session : Z) : outcome registry :=
  s ← at_index (g_sessions R) session;
  Ret (upd_session R session (with_secure_info s zero_secure_info)).

(** One session of the list: closed, wiped, given back twice. *)
Definition close_found (fuel : nat) (k : state) (dev service session : Z)
    : outcome (option state) :=
  v ← at_index (g_services (cs_reg k)) service;
  s ← at_index (g_sessions (cs_reg k)) session;
  res ← close_session fuel k dev session (sv_uuid v) UUID_LEN (session_id s);
  match res with
  | None => Ret None
  | Some (k, _) =>
      R ← wipe_secure_info (cs_reg k) session;
      R ← put_session_struct R session;
      R ← put_session_struct R session;
      Ret (Some (with_reg k R))
  end.

(** The [while] loop; [n] bounds its iterations. *)
Fixpoint close_list_loop (n fuel : nat) (k : state) (dev service : Z)
    : outcome (option state) :=
  '(R, session) ← tc_find_and_del_session (cs_reg k) service dev;
  let k := with_reg k R in
  if session =? 0 then Ret (Some k)
  else
    match n with
    | O => Ret None
    | S n =>
        res ← close_found fuel k dev service session;
        match res with
        | None => Ret None
        | Some k => close_list_loop n fuel k dev service
        end
    end.

Definition close_session_in_service_list (fuel : nat) (k : state) (dev service : Z)
    : outcome (option state) :=
  v ← at_index (g_services (cs_reg k)) service;
  close_list_loop (length (session_list v)) fuel k dev service.

(** Has the slot a service with sessions? *)
Definition slot_busy (R : registry) (service : Z) : outcome bool :=
  if service =? 0 then Ret false
  else v ← at_index (g_services R) service; Ret (negb (bool_decide (session_list v = []))).

Fixpoint exist_unclosed_loop (R : registry) (sl : list Z) : outcome bool :=
  match sl with
  | [] => Ret false
  | p :: sl => b ← slot_busy R p; if (b : bool) then Ret true else exist_unclosed_loop R sl
  end.

Definition if_exist_unclosed_session (R : registry) (dev : Z) : outcome bool :=
  d ← at_index (g_devs R) dev;
  exist_unclosed_loop R (services d).

Fixpoint close_slots_loop (fuel : nat) (k : state) (dev : Z) (sl : list Z)
    : outcome (option state) :=
  match sl with
  | [] => Ret (Some k)
  | service :: sl =>
      b ← slot_busy (cs_reg k) service;
      if (b : bool) then
        res ← close_session_in_service_list fuel k dev service;
        match res with
        | None => Ret None
        | Some k =>
            R ← put_service_struct (cs_reg k) service;
            close_slots_loop fuel (with_reg k R) dev sl
        end
      else close_slots_loop fuel k dev sl
  end.

Definition close_session_thread_fn (fuel : nat) (k : state) (dev : Z) : outcome (option state) :=
  d ← at_index (g_devs (cs_reg k)) dev;
  close_slots_loop fuel k dev (services d).

(** [thread_ok] is the outcome of [kthread_create]; the caller waits for the
    thread. *)
Definition close_unclosed_session_in_kthread (fuel : nat) (k : state) (dev : Z)
    (thread_ok : bool) : outcome (option state) :=
  if dev =? 0 then Ret (Some k)
  else
    b ← if_exist_unclosed_session (cs_reg k) dev;
    if negb b then Ret (Some k)
    else if negb thread_ok then Ret (Some k)
    else close_session_thread_fn fuel k dev.

Definition tc_ns_close_session (fuel : nat) (k : state) (dev_file : Z)
    (context : tc_ns_client_context) : outcome (option (state * Z)) :=
  if dev_file =? 0 then Ret (Some (k, - EINVAL))
  else
    '(R, service) ← get_service (cs_reg k) dev_file (ctx_uuid context);
    let k := with_reg k R in
    if service =? 0 then Ret (Some (k, - EINVAL))
    else
      '(R, session) ← get_session (cs_reg k) service dev_file (ctx_session_id context);
      let k := with_reg k R in
      if session =? 0 then
        R ← put_service_struct (cs_reg k) service;
        Ret (Some (with_reg k R, - EINVAL))
      else
        res ← close_session fuel k dev_file session (ctx_uuid context) UUID_LEN
                (ctx_session_id context);
        match res with
        | None => Ret None
        | Some (k, _) =>
            R ← wipe_secure_info (cs_reg k) session;
            R ← del_session_node R service session;
            R ← put_session_struct R session;
            R ← put_session_struct R session;
            R ← del_service_from_dev R dev_file service;
            R ← put_service_struct R service;
            Ret (Some (with_reg k R, 0))
        end.

(** ** Commands *)

Definition tc_ns_send_cmd (fuel : nat) (k : state) (dev_file : Z)
    (context : tc_ns_client_context) : result :=
  if dev_file =? 0 then Ret (Some (k, context, - EINVAL))
  else
    '(R, service) ← get_service (cs_reg k) dev_file (ctx_uuid context);
    let k := with_reg k R in
    if service =? 0 then Ret (Some (k, context, - EINVAL))
    else
      '(R, session) ← get_session (cs_reg k) service dev_file (ctx_session_id context);
      R ← put_service_struct R service;
      let k := with_reg k R in
      if session =? 0 then Ret (Some (k, context, - EINVAL))
      else
        res ← tc_client_call fuel (CallParams dev_file context session 0) k;
        match res with
        | None => Ret None
        | Some (k, context, ret) =>
            R ← put_session_struct (cs_reg k) session;
            Ret (Some (with_reg k R, context, ret))
        end.

Definition ioctl_session_send_cmd (fuel : nat) (k : state) (dev_file : Z)
    (context : tc_ns_client_context) (argp : Z) : outcome (option (state * Z)) :=
  res ← tc_ns_send_cmd fuel k dev_file context;
  match res with
  | None => Ret None
  | Some (k, context, ret) =>
      let '(left_over, m) := copy_to_user (cs_mem k) argp (encode_context context) in
      Ret (Some (with_mem k m, if nonzero left_over && negb (nonzero ret) then - EFAULT else ret))
  end.

(** ** The ioctls of a session *)

Definition TC_NS_CLIENT_IOC_MAGIC : Z := 116.
Definition TC_NS_CLIENT_IOCTL_SES_OPEN_REQ : Z := ioc 1 TC_NS_CLIENT_IOC_MAGIC 1 CONTEXT_LEN.
Definition TC_NS_CLIENT_IOCTL_SES_CLOSE_REQ : Z := ioc 3 TC_NS_CLIENT_IOC_MAGIC 2 CONTEXT_LEN.
Definition TC_NS_CLIENT_IOCTL_SEND_CMD_REQ : Z := ioc 3 TC_NS_CLIENT_IOC_MAGIC 3 CONTEXT_LEN.

(** [restart_syscall] of the kernel returns this. *)
Definition ERESTARTNOINTR : Z := 513.

(** A restart is not leaked to user space. *)
Definition session_ioctl_ret (cmd ret : Z) : Z :=
  if ret =? - ERESTARTSYS then
    if cmd =? TC_NS_CLIENT_IOCTL_SES_CLOSE_REQ then - EINTR else - ERESTARTNOINTR
  else ret.

(** [dev_file] is [file->private_data]. *)
Definition tc_client_session_ioctl (fuel : nat) (g_root : session_crypto_info) (k : state)
    (dev_file cmd argp kz_service kz_session : Z) : outcome (option (state * Z)) :=
  if argp =? 0 then Ret (Some (k, - EINVAL))
  else
    let '(left_over, l) := copy_from_user (cs_mem k) argp CONTEXT_LEN in
    if nonzero left_over then Ret (Some (k, - EFAULT))
    else
      let c := decode_context l in
      let context := ctx_with_returns c (returns_code c) TEEC_ORIGIN_COMMS in
      if cmd =? TC_NS_CLIENT_IOCTL_SES_OPEN_REQ then
        res ← tc_ns_open_session fuel g_root k dev_file context kz_service kz_session;
        match res with
        | None => Ret None
        | Some (k, context, ret) =>
            let '(left_over, m) := copy_to_user (cs_mem k) argp (encode_context context) in
            let ret := if nonzero left_over && negb (nonzero ret) then - EFAULT else ret in
            Ret (Some (with_mem k m, session_ioctl_ret cmd ret))
        end
      else if cmd =? TC_NS_CLIENT_IOCTL_SES_CLOSE_REQ then
        res ← tc_ns_close_session fuel k dev_file context;
        match res with None => Ret None | Some (k, ret) => Ret (Some (k, session_ioctl_ret cmd ret)) end
      else if cmd =? TC_NS_CLIENT_IOCTL_SEND_CMD_REQ then
        res ← ioctl_session_send_cmd fuel k dev_file context argp;
        match res with None => Ret None | Some (k, ret) => Ret (Some (k, session_ioctl_ret cmd ret)) end
      else Ret (Some (k, - EINVAL)).

End Mgr.
