(* ===== verification/SessInv.v ===== *)
(** * The reference counts of the session registry

    [reg_inv R H] says what every counter of the registry counts when the
    references [H] are held by operations in progress: a slot of a device file
    counts the sessions its owner has with that service, a service counts the
    device files that use it, a session counts its users; nothing is leaked and
    nothing dangles.  Each operation of [SessReg] keeps the invariant and moves
    references between [H] and the registry. *)

From stdpp Require Import base gmap list.
From Stdlib Require Import ZArith Lia.
From S2P Require Import Prelude KernelApi TeeTypes Mailbox SessReg SessLookup SessOk.

(** ** Counting *)

Section Count.
Context {A : Type}.

Definition one (b : bool) : Z := if b then 1 else 0.

Fixpoint cnt (f : A → bool) (l : list A) : Z :=
  match l with [] => 0 | x :: l => one (f x) + cnt f l end.

Lemma one_range b : 0 ≤ one b ≤ 1.
Proof. destruct b; simpl; lia. Qed.

Lemma cnt_range f l : 0 ≤ cnt f l ≤ Z.of_nat (length l).
Proof. induction l as [|x l IH]; cbn [cnt length]; [lia|]. pose proof (one_range (f x)). lia. Qed.

Lemma count_app f l l' : cnt f (l ++ l') = cnt f l + cnt f l'.
Proof. induction l as [|x l IH]; cbn [cnt app]; lia. Qed.

Lemma cnt_ext f g l : (∀ x, x ∈ l → f x = g x) → cnt f l = cnt g l.
Proof.
  induction l as [|x l IH]; intros H; [done|]. cbn [cnt]. rewrite (H x) by left.
  rewrite IH; [done|]. intros; apply H; by right.
Qed.

Lemma count_pos f l x : x ∈ l → f x = true → 0 < cnt f l.
Proof.
  induction 1 as [x l|x y l _ IH]; intros Hf; cbn [cnt].
  - rewrite Hf. pose proof (cnt_range f l). simpl. lia.
  - pose proof (one_range (f y)). specialize (IH Hf). lia.
Qed.

Lemma cnt_pos_inv f l : 0 < cnt f l → ∃ x, x ∈ l ∧ f x = true.
Proof.
  induction l as [|x l IH]; cbn [cnt]; [lia|]. destruct (f x) eqn:E; simpl; intros H.
  - exists x. split; [left|done].
  - destruct IH as (y & ? & ?); [lia|]. exists y. split; [by right|done].
Qed.

(** Two predicates that differ at one element of a duplicate-free list. *)
Lemma cnt_at f g l x :
  NoDup l → x ∈ l → (∀ y, y ∈ l → y ≠ x → g y = f y) →
  cnt g l = cnt f l - one (f x) + one (g x).
Proof.
  induction l as [|y l IH]; intros Hn Hx H; [by apply elem_of_nil in Hx|]. cbn [cnt].
  apply NoDup_cons in Hn as [Hy Hn]. apply elem_of_cons in Hx as [->|Hx].
  - rewrite (cnt_ext g f l); [lia|]. intros z Hz. apply H; [by right|]. by intros ->.
  - rewrite (H y); [|left|by intros ->]. rewrite IH; [lia|done|done|].
    intros z ? ?. apply H; [by right|done].
Qed.

Lemma filter_ne_id `{EqDecision A} (l : list A) x : x ∉ l → filter (λ y, y ≠ x) l = l.
Proof.
  induction l as [|y l IH]; intros Hx; [done|]. apply not_elem_of_cons in Hx as [? ?].
  rewrite filter_cons_True by done. by rewrite IH.
Qed.

(** Taking one element out of a duplicate-free list. *)
Lemma cnt_remove `{EqDecision A} f l x :
  NoDup l → x ∈ l → cnt f (filter (λ y, y ≠ x) l) = cnt f l - one (f x).
Proof.
  induction l as [|y l IH]; intros Hn Hx; [by apply elem_of_nil in Hx|].
  apply NoDup_cons in Hn as [Hy Hn]. rewrite filter_cons. apply elem_of_cons in Hx as [->|Hx].
  - rewrite decide_False by (by intros ?). cbn [cnt].
    rewrite filter_ne_id by done. lia.
  - rewrite decide_True by (by intros ->). cbn [cnt]. rewrite IH by done. lia.
Qed.

End Count.

Lemma cnt_eqb_cons p q l : cnt (Z.eqb p) (q :: l) = one (p =? q) + cnt (Z.eqb p) l.
Proof. done. Qed.

(** ** The invariant *)

(** References held: slot references of sessions that are being opened or have
    been closed, services and sessions that have been looked up, sessions that
    are on no list. *)
Record refs := Refs {
  r_slot : list (Z * Z);
  r_svc : list Z;
  r_sess : list Z;
  r_free : list Z
}.

Definition no_refs : refs := Refs [] [] [] [].

Definition owned (R : registry) (d q : Z) : bool :=
  match g_sessions R !! q with Some s => owner s =? d | None => false end.

Definition uses (R : registry) (p d : Z) : bool :=
  match g_devs R !! d with Some x => bool_decide (p ∈ services x) | None => false end.

(** The sessions a device file has with a service, open or in progress. *)
Definition slot_count (R : registry) (H : refs) (d p : Z) (l : list Z) : Z :=
  cnt (owned R d) l + cnt (λ h, bool_decide (h = (d, p))) (r_slot H).

Record reg_inv (R : registry) (H : refs) : Prop := {
  inv_dev_nodup : NoDup (dev_file_list R);
  inv_dev_heap d : d ∈ dev_file_list R ↔ is_Some (g_devs R !! d);
  inv_dev_null : 0 ∉ dev_file_list R;
  inv_svc_nodup : NoDup (g_service_list R);
  inv_svc_heap p : p ∈ g_service_list R ↔ is_Some (g_services R !! p);
  inv_svc_null : 0 ∉ g_service_list R;
  inv_shape d x :
    g_devs R !! d = Some x → length (services x) = 32%nat ∧ length (service_ref x) = 32%nat;
  inv_slot d x i p :
    g_devs R !! d = Some x → services x !! i = Some p → p ≠ 0 →
    ∃ v, g_services R !! p = Some v ∧
      service_ref x !! i = Some (slot_count R H d p (session_list v)) ∧
      0 < slot_count R H d p (session_list v) ≤ MAX_REF_COUNT;
  inv_distinct d x i j p :
    g_devs R !! d = Some x → services x !! i = Some p → services x !! j = Some p → p ≠ 0 → i = j;
  inv_uuid p q v w :
    g_services R !! p = Some v → g_services R !! q = Some w → sv_uuid v = sv_uuid w → p = q;
  inv_usage p v :
    g_services R !! p = Some v →
    sv_usage v = cnt (uses R p) (dev_file_list R) + cnt (Z.eqb p) (r_svc H) ∧ 0 < sv_usage v;
  inv_list_nodup p v : g_services R !! p = Some v → NoDup (session_list v);
  inv_listed p v q :
    g_services R !! p = Some v → q ∈ session_list v →
    q ≠ 0 ∧ ∃ s, g_sessions R !! q = Some s ∧ s_usage s = 1 + cnt (Z.eqb q) (r_sess H) ∧
      uses R p (owner s) = true;
  inv_disjoint p p' v v' q :
    g_services R !! p = Some v → g_services R !! p' = Some v' →
    q ∈ session_list v → q ∈ session_list v' → p = p';
  inv_all q :
    is_Some (g_sessions R !! q) →
    q ∈ r_free H ∨ ∃ p v, g_services R !! p = Some v ∧ q ∈ session_list v;
  inv_free q :
    q ∈ r_free H → is_Some (g_sessions R !! q) ∧
    ∀ p v, g_services R !! p = Some v → q ∉ session_list v;
  inv_held d p : (d, p) ∈ r_slot H → p ≠ 0 ∧ uses R p d = true;
  inv_held_svc p : p ∈ r_svc H → is_Some (g_services R !! p);
  inv_held_sess q : q ∈ r_sess H → is_Some (g_sessions R !! q)
}.

(** No counter is near its limit. *)
Definition small (R : registry) (H : refs) : Prop :=
  Z.of_nat (length (dev_file_list R) + length (r_svc H) + length (r_sess H)) < 2 ^ 31 - 2.

Lemma usage_small R H p v :
  reg_inv R H → small R H → g_services R !! p = Some v → 1 ≤ sv_usage v < 2 ^ 31 - 2.
Proof.
  intros HI Hs Hv. destruct (inv_usage _ _ HI p v Hv) as [E ?].
  pose proof (cnt_range (uses R p) (dev_file_list R)).
  pose proof (cnt_range (Z.eqb p) (r_svc H)). unfold small in Hs. lia.
Qed.

Lemma session_usage_small R H p v q s :
  reg_inv R H → small R H → g_services R !! p = Some v → q ∈ session_list v →
  g_sessions R !! q = Some s → 1 ≤ s_usage s < 2 ^ 31 - 1.
Proof.
  intros HI Hs Hv Hq Hqs. destruct (inv_listed _ _ HI p v q Hv Hq) as (_ & s' & E & Hu & _).
  rewrite Hqs in E. injection E as <-. pose proof (cnt_range (Z.eqb q) (r_sess H)).
  unfold small in Hs. lia.
Qed.

Lemma reg_inv_ok R H : reg_inv R H → small R H → reg_ok R.
Proof.
  intros HI Hs. split.
  - split.
    + intros p v q s Hv Hq Hqs. by eapply session_usage_small.
    + intros p v Hv. pose proof (usage_small _ _ _ _ HI Hs Hv). lia.
  - intros p. apply HI.
  - intros d x p Hd [i Hi]%list_elem_of_lookup Hp.
    destruct (inv_slot _ _ HI d x i p Hd Hi Hp) as (v & Hv & _). eauto.
  - intros p v q Hv Hq. destruct (inv_listed _ _ HI p v q Hv Hq) as (_ & s & Hqs & _). eauto.
Qed.

Lemma uses_spec R p d : uses R p d = true ↔ ∃ x, g_devs R !! d = Some x ∧ p ∈ services x.
Proof.
  unfold uses. destruct (g_devs R !! d) as [x|]; [|naive_solver].
  rewrite bool_decide_eq_true. naive_solver.
Qed.

(** A service that a device file uses is in one of its slots. *)
Lemma uses_slot R H p d :
  reg_inv R H → uses R p d = true → p ≠ 0 →
  ∃ x i v, g_devs R !! d = Some x ∧ services x !! i = Some p ∧ g_services R !! p = Some v ∧
    (i < 32)%nat ∧ service_ref x !! i = Some (slot_count R H d p (session_list v)) ∧
    0 < slot_count R H d p (session_list v) ≤ MAX_REF_COUNT.
Proof.
  intros HI (x & Hx & [i Hi]%list_elem_of_lookup)%uses_spec Hp.
  destruct (inv_slot _ _ HI d x i p Hx Hi Hp) as (v & Hv & Hr & Hb).
  exists x, i, v. split_and!; try done; try lia.
  apply lookup_lt_Some in Hi. destruct (inv_shape _ _ HI d x Hx). lia.
Qed.

(** ** Changes of session data *)

(** Only the owners and the counts of listed sessions matter. *)
Lemma inv_sessions_gen R H H' h :
  reg_inv R H → r_slot H' = r_slot H → r_svc H' = r_svc H →
  (∀ p v q, g_services R !! p = Some v → q ∈ session_list v →
     owner <$> h !! q = owner <$> g_sessions R !! q) →
  (∀ p v q s, g_services R !! p = Some v → q ∈ session_list v → h !! q = Some s →
     s_usage s = 1 + cnt (Z.eqb q) (r_sess H')) →
  (∀ q, is_Some (h !! q) → q ∈ r_free H' ∨ is_Some (g_sessions R !! q) ∧ q ∉ r_free H) →
  (∀ q, q ∈ r_free H' → is_Some (h !! q) ∧ ∀ p v, g_services R !! p = Some v → q ∉ session_list v) →
  (∀ q, q ∈ r_sess H' → is_Some (h !! q)) →
  reg_inv (set_sessions R h) H'.
Proof.
  intros HI E1 E2 Ho Hu Ha Hf Hl.
  assert (∀ d p p' v, g_services R !! p = Some v →
    slot_count (set_sessions R h) H' d p' (session_list v) = slot_count R H d p' (session_list v)) as Hc.
  { intros d p p' v Hv. unfold slot_count. rewrite E1. f_equal. apply cnt_ext. intros q Hq.
    unfold owned. simpl. specialize (Ho p v q Hv Hq).
    destruct (h !! q), (g_sessions R !! q); simpl in Ho; congruence. }
  destruct HI. split; try done; simpl.
  - intros d x i p Hd Hi Hp. destruct (inv_slot0 d x i p Hd Hi Hp) as (v & Hv & Hr & Hb).
    exists v. by rewrite (Hc _ p).
  - by rewrite E2.
  - intros p v q Hv Hq. destruct (inv_listed0 p v q Hv Hq) as (H0 & s & Hqs & _ & Hus).
    split; [done|]. pose proof (Ho p v q Hv Hq) as E. rewrite Hqs in E.
    destruct (h !! q) as [s'|] eqn:Hs'; simpl in E; [|done]. injection E as E.
    exists s'. rewrite E. split_and!; [done|by eapply Hu|done].
  - intros q Hq. destruct (Ha q Hq) as [?|[Hs Hn]]; [by left|].
    destruct (inv_all0 q Hs); [done|by right].
  - intros d p Hdp. rewrite E1 in Hdp. by apply inv_held0.
  - by rewrite E2.
Qed.

Lemma inv_sessions R H H' h :
  reg_inv R H → r_slot H' = r_slot H → r_svc H' = r_svc H → r_free H' = r_free H →
  (∀ q, owner <$> h !! q = owner <$> g_sessions R !! q) →
  (∀ p v q s, g_services R !! p = Some v → q ∈ session_list v → h !! q = Some s →
     s_usage s = 1 + cnt (Z.eqb q) (r_sess H')) →
  (∀ q, q ∈ r_sess H' → is_Some (h !! q)) →
  reg_inv (set_sessions R h) H'.
Proof.
  intros HI E1 E2 E3 Ho Hu Hl.
  assert (∀ q, is_Some (h !! q) ↔ is_Some (g_sessions R !! q)) as Hs.
  { intros q. rewrite <- (fmap_is_Some owner (h !! q)), Ho. apply fmap_is_Some. }
  apply (inv_sessions_gen R H); try done; rewrite E3.
  - intros q Hq%Hs. destruct (decide (q ∈ r_free H)); [by left|by right].
  - intros q Hq. destruct (inv_free _ _ HI q Hq). split; [by apply Hs|done].
Qed.

Lemma inv_like R R' H : reg_inv R H → reg_like R R' → reg_inv R' H.
Proof.
  intros HI HL. pose proof HL as [Es Ed El Edl Ec Hk].
  assert (reg_inv (set_sessions R (g_sessions R')) H) as HI'.
  { apply (inv_sessions R H H); try done.
    - intros q. specialize (Hk q).
      destruct (g_sessions R' !! q), (g_sessions R !! q); simpl in *; try done.
      injection Hk as _ -> _. done.
    - intros p v q s Hv Hq Hqs. assert (reg_like R' R) as HL' by by symmetry.
      destruct (like_session _ _ _ _ HL' Hqs) as (s' & Hs' & E). injection E as _ _ <-.
      destruct (inv_listed _ _ HI p v q Hv Hq) as (_ & s'' & Hs'' & Hu & _). congruence.
    - intros q Hq%(inv_held_sess _ _ HI). by apply (like_is_Some R R'). }
  destruct HI'; simpl in *. unfold slot_count, owned, uses in *. simpl in *.
  rewrite <- Es, <- Ed, <- El, <- Edl in *. by split.
Qed.

(** A reference to a listed session is taken. *)
Definition add_sess (q : Z) (H : refs) : refs := Refs (r_slot H) (r_svc H) (q :: r_sess H) (r_free H).
Definition add_svc (p : Z) (H : refs) : refs := Refs (r_slot H) (p :: r_svc H) (r_sess H) (r_free H).
Definition add_slot (d p : Z) (H : refs) : refs := Refs ((d, p) :: r_slot H) (r_svc H) (r_sess H) (r_free H).
Definition add_free (q : Z) (H : refs) : refs := Refs (r_slot H) (r_svc H) (r_sess H) (q :: r_free H).

Lemma upd_session_twice R q s s' : upd_session (upd_session R q s) q s' = upd_session R q s'.
Proof. unfold upd_session, set_sessions. simpl. by rewrite insert_insert_eq. Qed.

Lemma upd_session_owner R q s s' q' :
  g_sessions R !! q = Some s → owner s' = owner s →
  owner <$> <[q := s']> (g_sessions R) !! q' = owner <$> g_sessions R !! q'.
Proof.
  intros Hs Ho. destruct (decide (q = q')) as [->|].
  - rewrite lookup_insert_eq, Hs. simpl. by rewrite Ho.
  - by rewrite lookup_insert_ne.
Qed.

Lemma get_session_inv R H p v q :
  reg_inv R H → small R H → g_services R !! p = Some v → q ∈ session_list v →
  ∃ s, g_sessions R !! q = Some s ∧
    get_session_struct R q = Ret (upd_session R q (with_usage s (s_usage s + 1))) ∧
    reg_inv (upd_session R q (with_usage s (s_usage s + 1))) (add_sess q H).
Proof.
  intros HI Hsm Hv Hq. destruct (inv_listed _ _ HI p v q Hv Hq) as (Hq0 & s & Hs & Hu & Hus).
  pose proof (session_usage_small _ _ _ _ _ _ HI Hsm Hv Hq Hs) as Hb.
  exists s. split; [done|]. split; [by apply get_put_session|].
  apply (inv_sessions R H); try done.
  - intros q'. by eapply upd_session_owner.
  - intros p' v' q' s' Hv' Hq' Hs'. cbn [add_sess r_sess]. rewrite cnt_eqb_cons.
    destruct (decide (q = q')) as [->|Hne].
    + rewrite lookup_insert_eq in Hs'. injection Hs' as <-. rewrite Z.eqb_refl. simpl. lia.
    + rewrite lookup_insert_ne in Hs' by done. rewrite (proj2 (Z.eqb_neq q' q)) by done.
      destruct (inv_listed _ _ HI p' v' q' Hv' Hq') as (_ & s'' & Hs'' & Hu'' & _).
      rewrite Hs' in Hs''. injection Hs'' as <-. simpl. lia.
  - intros q' [->|Hq']%elem_of_cons; rewrite lookup_insert_is_Some'; [by left|right].
    by apply (inv_held_sess _ _ HI).
Qed.

Lemma put_session_inv R H p v q :
  reg_inv R (add_sess q H) → small R (add_sess q H) → g_services R !! p = Some v → q ∈ session_list v →
  ∃ s, g_sessions R !! q = Some s ∧
    put_session_struct R q = Ret (upd_session R q (with_usage s (s_usage s - 1))) ∧
    reg_inv (upd_session R q (with_usage s (s_usage s - 1))) H.
Proof.
  intros HI Hsm Hv Hq. destruct (inv_listed _ _ HI p v q Hv Hq) as (Hq0 & s & Hs & Hu & Hus).
  pose proof (session_usage_small _ _ _ _ _ _ HI Hsm Hv Hq Hs) as Hb.
  cbn [add_sess r_sess] in Hu. rewrite cnt_eqb_cons, Z.eqb_refl in Hu. simpl in Hu.
  pose proof (cnt_range (Z.eqb q) (r_sess H)).
  exists s. split; [done|]. split.
  - unfold put_session_struct. rewrite (proj2 (Z.eqb_neq q 0)) by done.
    rewrite (proj2 (at_index_Some _ _ _) Hs), ret_bind. rewrite atomic_dec_small by lia.
    rewrite (proj2 (Z.eqb_neq _ 0)) by lia. done.
  - apply (inv_sessions R (add_sess q H)); try done.
    + intros q'. by eapply upd_session_owner.
    + intros p' v' q' s' Hv' Hq' Hs'. destruct (decide (q = q')) as [->|Hne].
      * rewrite lookup_insert_eq in Hs'. injection Hs' as <-. simpl. lia.
      * rewrite lookup_insert_ne in Hs' by done.
        destruct (inv_listed _ _ HI p' v' q' Hv' Hq') as (_ & s'' & Hs'' & Hu'' & _).
        cbn [add_sess r_sess] in Hu''. rewrite cnt_eqb_cons, (proj2 (Z.eqb_neq q' q)) in Hu'' by done.
        rewrite Hs' in Hs''. injection Hs'' as <-. simpl in Hu''. lia.
    + intros q' Hq'. rewrite lookup_insert_is_Some'. right. apply (inv_held_sess _ _ HI). by right.
Qed.
