(* ===== verification/SessInvOps.v ===== *)
(** * The operations of the registry keep its invariant

    References to services, slots of device files, and the lists of sessions. *)

From stdpp Require Import base gmap list.
From Stdlib Require Import ZArith Lia.
From S2P Require Import Prelude KernelApi TeeTypes Mailbox SessReg SessLookup SessOk SessInv.

(** ** Services *)

(** A service whose uuid and sessions are kept. *)
Lemma lookup_usage (h : gmap Z tc_ns_service) p v u p' w :
  h !! p = Some v → <[p := with_sv_usage v u]> h !! p' = Some w →
  ∃ w0, h !! p' = Some w0 ∧ sv_uuid w = sv_uuid w0 ∧ session_list w = session_list w0.
Proof.
  intros Hv. destruct (decide (p = p')) as [->|].
  - rewrite lookup_insert_eq. intros [= <-]. by exists v.
  - rewrite lookup_insert_ne by done. intros Hw. by exists w.
Qed.

Lemma lookup_usage_back (h : gmap Z tc_ns_service) p v u p' w0 :
  h !! p = Some v → h !! p' = Some w0 →
  ∃ w, <[p := with_sv_usage v u]> h !! p' = Some w ∧ sv_uuid w = sv_uuid w0 ∧
    session_list w = session_list w0.
Proof.
  intros Hv Hw. destruct (decide (p = p')) as [->|].
  - rewrite lookup_insert_eq. rewrite Hv in Hw. injection Hw as <-. eexists. split; [done|]. done.
  - rewrite lookup_insert_ne by done. by exists w0.
Qed.

Lemma inv_upd_usage R H H' p v u :
  reg_inv R H → g_services R !! p = Some v →
  r_slot H' = r_slot H → r_sess H' = r_sess H → r_free H' = r_free H →
  (∀ p', p' ≠ p → cnt (Z.eqb p') (r_svc H') = cnt (Z.eqb p') (r_svc H)) →
  (∀ p', p' ∈ r_svc H' → p' = p ∨ p' ∈ r_svc H) →
  u = cnt (uses R p) (dev_file_list R) + cnt (Z.eqb p) (r_svc H') → 0 < u →
  reg_inv (upd_service R p (with_sv_usage v u)) H'.
Proof.
  intros HI Hv E1 E2 E3 Hr Hrv Hu Hpos.
  assert (∀ d p' l, slot_count (upd_service R p (with_sv_usage v u)) H' d p' l
    = slot_count R H d p' l) as Hc by (intros; unfold slot_count; by rewrite E1).
  destruct HI. split; try done; simpl.
  - intros p'. rewrite inv_svc_heap, lookup_insert_is_Some'. split; [by right|].
    intros [<-|]; [by eexists|done].
  - intros d x i p' Hd Hi Hp. destruct (inv_slot d x i p' Hd Hi Hp) as (w & Hw & Hs & Hb).
    destruct (lookup_usage_back _ _ _ u _ _ Hv Hw) as (w' & Hw' & _ & El).
    exists w'. rewrite El, Hc. done.
  - intros p1 p2 w1 w2 H1 H2 E. destruct (lookup_usage _ _ _ _ _ _ Hv H1) as (v1 & Hv1 & Eu1 & _).
    destruct (lookup_usage _ _ _ _ _ _ Hv H2) as (v2 & Hv2 & Eu2 & _).
    eapply inv_uuid; [done..|congruence].
  - intros p' w Hw. change (uses (upd_service R p (with_sv_usage v u)) p') with (uses R p').
    destruct (decide (p = p')) as [<-|Hne].
    + rewrite lookup_insert_eq in Hw. injection Hw as <-. done.
    + rewrite lookup_insert_ne in Hw by done. rewrite Hr by done. by apply inv_usage.
  - intros p' w Hw. destruct (lookup_usage _ _ _ _ _ _ Hv Hw) as (w0 & Hw0 & _ & ->). eauto.
  - intros p' w q Hw Hq. destruct (lookup_usage _ _ _ _ _ _ Hv Hw) as (w0 & Hw0 & _ & El).
    rewrite El in Hq. destruct (inv_listed _ _ _ Hw0 Hq) as (? & s & ? & Hus & ?).
    split; [done|]. exists s. by rewrite E2.
  - intros p1 p2 w1 w2 q H1 H2 Hq1 Hq2.
    destruct (lookup_usage _ _ _ _ _ _ Hv H1) as (v1 & Hv1 & _ & El1).
    destruct (lookup_usage _ _ _ _ _ _ Hv H2) as (v2 & Hv2 & _ & El2).
    rewrite El1 in Hq1. rewrite El2 in Hq2. by eapply inv_disjoint.
  - intros q Hq. destruct (inv_all q Hq) as [?|(p' & w & Hw & Hql)]; [left; by rewrite E3|right].
    destruct (lookup_usage_back _ _ _ u _ _ Hv Hw) as (w' & Hw' & _ & El).
    exists p', w'. by rewrite El.
  - intros q Hq. rewrite E3 in Hq. destruct (inv_free q Hq) as [? Hn]. split; [done|].
    intros p' w Hw. destruct (lookup_usage _ _ _ _ _ _ Hv Hw) as (w0 & Hw0 & _ & ->). eauto.
  - intros d p' Hdp. rewrite E1 in Hdp. by apply inv_held.
  - intros p' Hp'. rewrite lookup_insert_is_Some'. destruct (Hrv _ Hp'); [left; congruence|right; eauto].
  - by rewrite E2.
Qed.

Lemma get_service_inv R H p v :
  reg_inv R H → small R H → g_services R !! p = Some v →
  get_service_struct R p = Ret (upd_service R p (with_sv_usage v (sv_usage v + 1))) ∧
  reg_inv (upd_service R p (with_sv_usage v (sv_usage v + 1))) (add_svc p H).
Proof.
  intros HI Hs Hv. pose proof (usage_small _ _ _ _ HI Hs Hv) as Hb.
  assert (p ≠ 0) as Hp0.
  { intros ->. apply (inv_svc_null _ _ HI), (inv_svc_heap _ _ HI). eauto. }
  split; [apply get_put_service; [done|lia|done]|].
  destruct (inv_usage _ _ HI p v Hv) as [E _].
  apply (inv_upd_usage R H); try done.
  - intros p' Hne. cbn [add_svc r_svc]. rewrite cnt_eqb_cons, (proj2 (Z.eqb_neq p' p)) by done.
    simpl. lia.
  - by intros p' [?|?]%elem_of_cons; [left|right].
  - cbn [add_svc r_svc]. rewrite cnt_eqb_cons, Z.eqb_refl. simpl. lia.
  - lia.
Qed.

(** A service nobody uses any more. *)
Lemma inv_delete_service R H p v :
  reg_inv R (add_svc p H) → g_services R !! p = Some v → sv_usage v = 1 →
  reg_inv (set_services R (delete p (g_services R)) (filter (λ q, q ≠ p) (g_service_list R))) H.
Proof.
  intros HI Hv Hu. destruct (inv_usage _ _ HI p v Hv) as [E _].
  cbn [add_svc r_svc] in E. rewrite cnt_eqb_cons, Z.eqb_refl in E. simpl in E.
  pose proof (cnt_range (uses R p) (dev_file_list R)).
  pose proof (cnt_range (Z.eqb p) (r_svc H)).
  assert (∀ d, uses R p d = false) as Hno.
  { intros d. destruct (uses R p d) eqn:Ed; [|done]. apply uses_spec in Ed as Ed'.
    destruct Ed' as (x & Hx & _).
    assert (0 < cnt (uses R p) (dev_file_list R)); [|lia].
    eapply count_pos; [|done]. apply (inv_dev_heap _ _ HI). eauto. }
  assert (session_list v = []) as Hnil.
  { destruct (session_list v) as [|q l] eqn:El; [done|].
    destruct (inv_listed _ _ HI p v q Hv) as (_ & s & _ & _ & Hus); [rewrite El; left|].
    by rewrite Hno in Hus. }
  assert (∀ d p' l, slot_count R (add_svc p H) d p' l = slot_count R H d p' l) as Hc by done.
  destruct HI. split; try done; simpl.
  - by apply NoDup_filter.
  - intros p'. rewrite list_elem_of_filter, inv_svc_heap, lookup_delete_is_Some. naive_solver.
  - rewrite list_elem_of_filter. naive_solver.
  - intros d x i p' Hd Hi Hp'. destruct (inv_slot d x i p' Hd Hi Hp') as (w & Hw & Hs & Hb).
    exists w. split; [|done]. rewrite lookup_delete_ne; [done|]. intros <-.
    assert (uses R p d = true) as Ht; [|by rewrite Hno in Ht].
    apply uses_spec. exists x. split; [done|]. by eapply list_elem_of_lookup_2.
  - intros p1 p2 w1 w2 [_ Hw1]%lookup_delete_Some [_ Hw2]%lookup_delete_Some. by apply inv_uuid.
  - intros p' w [Hne Hw]%lookup_delete_Some. destruct (inv_usage p' w Hw) as [E' ?].
    cbn [add_svc r_svc] in E'. rewrite cnt_eqb_cons, (proj2 (Z.eqb_neq p' p)) in E' by done.
    by split.
  - intros p' w [_ Hw]%lookup_delete_Some. eauto.
  - intros p' w q [_ Hw]%lookup_delete_Some. apply inv_listed; done.
  - intros p1 p2 w1 w2 q [_ Hw1]%lookup_delete_Some [_ Hw2]%lookup_delete_Some. by apply inv_disjoint.
  - intros q Hq. destruct (inv_all q Hq) as [?|(p' & w & Hw & Hql)]; [by left|right].
    exists p', w. split; [|done]. rewrite lookup_delete_ne; [done|]. intros <-.
    rewrite Hv in Hw. injection Hw as <-. rewrite Hnil in Hql. by apply elem_of_nil in Hql.
  - intros q Hq. destruct (inv_free q Hq) as [? Hn]. split; [done|].
    intros p' w [_ Hw]%lookup_delete_Some. eauto.
  - intros p' Hp'. rewrite lookup_delete_is_Some. split.
    + intros <-. pose proof (count_pos (Z.eqb p) _ _ Hp' (Z.eqb_refl p)). lia.
    + apply inv_held_svc. by right.
Qed.

(** Equal but for the services. *)
Definition same_but_services (R R' : registry) : Prop :=
  g_sessions R' = g_sessions R ∧ g_devs R' = g_devs R ∧ g_shared R' = g_shared R ∧
  dev_file_list R' = dev_file_list R ∧ g_device_file_cnt R' = g_device_file_cnt R.

Lemma put_service_inv R H p v :
  reg_inv R (add_svc p H) → small R (add_svc p H) → g_services R !! p = Some v →
  ∃ R', put_service_struct R p = Ret R' ∧ reg_inv R' H ∧ same_but_services R R' ∧
    (∀ p' w, p' ≠ p → g_services R !! p' = Some w ↔ g_services R' !! p' = Some w) ∧
    ∀ w, g_services R' !! p = Some w → session_list w = session_list v ∧ sv_uuid w = sv_uuid v.
Proof.
  intros HI Hs Hv. pose proof (usage_small _ _ _ _ HI Hs Hv) as Hb.
  assert (p ∈ g_service_list R) as Hpl by (apply (inv_svc_heap _ _ HI); eauto).
  assert (p ≠ 0) as Hp0 by (intros ->; by apply (inv_svc_null _ _ HI)).
  destruct (inv_usage _ _ HI p v Hv) as [E _]. cbn [add_svc r_svc] in E.
  rewrite cnt_eqb_cons, Z.eqb_refl in E. change (one true) with 1 in E.
  unfold put_service_struct. rewrite (proj2 (Z.eqb_neq p 0)) by done.
  rewrite (proj2 (at_index_Some _ _ _) Hv), ret_bind, atomic_dec_small by lia.
  destruct (Z.eqb_spec (sv_usage v - 1) 0) as [E0|E0].
  - unfold unlink. rewrite decide_True, ret_bind by done. eexists. split; [done|].
    split; [by apply (inv_delete_service R H p v); [..|lia]|]. split; [by split_and!|].
    split; simpl.
    + intros p' w Hne. by rewrite lookup_delete_ne.
    + intros w. by rewrite lookup_delete_eq.
  - eexists. split; [done|]. split; [|split; [by split_and!|split; simpl]].
    + apply (inv_upd_usage R (add_svc p H)); try done; [| |lia..].
      * intros p' Hne. cbn [add_svc r_svc]. rewrite cnt_eqb_cons, (proj2 (Z.eqb_neq p' p)) by done. done.
      * intros p' ?. right. by right.
    + intros p' w Hne. by rewrite lookup_insert_ne.
    + intros w. rewrite lookup_insert_eq. by intros [= <-].
Qed.

(** ** Slots *)

Lemma with_slot_services d i r p : services (with_slot d i r p) = <[i := p]> (services d).
Proof. done. Qed.

Lemma slot_id {A} (l : list A) i x : l !! i = Some x → <[i := x]> l = l.
Proof. apply list_insert_id. Qed.

(** The reference count of a slot changes. *)
Lemma inv_upd_ref R H H' d x i p v r :
  reg_inv R H → g_devs R !! d = Some x → services x !! i = Some p → p ≠ 0 →
  g_services R !! p = Some v →
  r_svc H' = r_svc H → r_sess H' = r_sess H → r_free H' = r_free H →
  (∀ d' p', (d', p') ≠ (d, p) →
     cnt (λ h, bool_decide (h = (d', p'))) (r_slot H') = cnt (λ h, bool_decide (h = (d', p'))) (r_slot H)) →
  (∀ d' p', (d', p') ∈ r_slot H' → p' ≠ 0 ∧ uses R p' d' = true) →
  r = slot_count R H' d p (session_list v) → 0 < r ≤ MAX_REF_COUNT →
  reg_inv (upd_dev R d (with_slot x i r p)) H'.
Proof.
  intros HI Hd Hi Hp Hv E1 E2 E3 Hcnt Hheld Hr Hb.
  assert (∀ p' d', uses (upd_dev R d (with_slot x i r p)) p' d' = uses R p' d') as Hu.
  { intros p' d'. unfold uses. simpl. destruct (decide (d = d')) as [<-|].
    - by rewrite lookup_insert_eq, Hd, with_slot_services, slot_id.
    - by rewrite lookup_insert_ne. }
  destruct (inv_shape _ _ HI d x Hd) as [Hl1 Hl2].
  pose proof (lookup_lt_Some _ _ _ Hi) as Hlt.
  destruct HI. split; try done; simpl.
  - intros d'. rewrite inv_dev_heap, lookup_insert_is_Some'. split; [by right|].
    intros [<-|]; [by eexists|done].
  - intros d' x'. destruct (decide (d = d')) as [<-|].
    + rewrite lookup_insert_eq. intros [= <-]. simpl. by rewrite !length_insert.
    + rewrite lookup_insert_ne by done. eauto.
  - intros d' x' j p' Hd' Hj Hp'.
    change (slot_count (upd_dev R d (with_slot x i r p)) H') with (slot_count R H').
    destruct (decide (d = d')) as [<-|Hne].
    + rewrite lookup_insert_eq in Hd'. injection Hd' as <-.
      rewrite with_slot_services, slot_id in Hj by done.
      destruct (decide (p' = p)) as [->|Hpp].
      * assert (i = j) as <- by by eapply inv_distinct. exists v. split; [done|].
        rewrite <- Hr. split; [|done]. simpl. rewrite list_lookup_insert_eq; [done|]. lia.
      * destruct (inv_slot d x j p' Hd Hj Hp') as (w & Hw & Hs & Hbw). exists w. split; [done|].
        unfold slot_count in *. rewrite Hcnt by congruence. split; [|done].
        simpl. rewrite list_lookup_insert_ne; [done|]. intros <-. congruence.
    + rewrite lookup_insert_ne in Hd' by done.
      destruct (inv_slot d' x' j p' Hd' Hj Hp') as (w & Hw & Hs & Hbw). exists w. split; [done|].
      unfold slot_count in *. rewrite Hcnt by congruence. done.
  - intros d' x' j k p' Hd'. destruct (decide (d = d')) as [<-|Hne].
    + rewrite lookup_insert_eq in Hd'. injection Hd' as <-.
      rewrite with_slot_services, slot_id by done. eauto.
    + rewrite lookup_insert_ne in Hd' by done. eauto.
  - intros p' w Hw. rewrite E1. rewrite (cnt_ext _ (uses R p')) by done. eauto.
  - intros p' w q Hw Hq. destruct (inv_listed p' w q Hw Hq) as (? & s & ? & ? & ?).
    split; [done|]. exists s. by rewrite Hu, E2.
  - by rewrite E3.
  - by rewrite E3.
  - intros d' p' Hdp. rewrite Hu. eauto.
  - by rewrite E1.
  - by rewrite E2.
Qed.

(** A slot is filled or emptied; the reference of a lookup becomes that of the
    slot, or the other way round. *)
Lemma slot_unused R H d p v :
  reg_inv R H → g_services R !! p = Some v → uses R p d = false →
  slot_count R H d p (session_list v) = 0.
Proof.
  intros HI Hv Hu. unfold slot_count.
  assert (cnt (owned R d) (session_list v) = 0) as ->.
  { pose proof (cnt_range (owned R d) (session_list v)).
    destruct (decide (0 < cnt (owned R d) (session_list v))) as [Hp|]; [|lia].
    apply cnt_pos_inv in Hp as (q & Hq & Ho).
    destruct (inv_listed _ _ HI p v q Hv Hq) as (_ & s & Hs & _ & Hus).
    unfold owned in Ho. rewrite Hs in Ho. apply Z.eqb_eq in Ho as <-. congruence. }
  pose proof (cnt_range (λ h, bool_decide (h = (d, p))) (r_slot H)).
  destruct (decide (0 < cnt (λ h, bool_decide (h = (d, p))) (r_slot H))) as [Hp|]; [|lia].
  apply cnt_pos_inv in Hp as (h & Hh & ->%bool_decide_eq_true).
  apply (inv_held _ _ HI) in Hh as [_ Hh]. congruence.
Qed.

Lemma uses_with_slot R d x i r p p' d' :
  g_devs R !! d = Some x → (i < length (services x))%nat → p' ≠ p → p' ≠ nth i (services x) 0 →
  uses (upd_dev R d (with_slot x i r p)) p' d' = uses R p' d'.
Proof.
  intros Hd Hi H1 H2. unfold uses. simpl. destruct (decide (d = d')) as [<-|].
  - rewrite lookup_insert_eq, Hd, with_slot_services. apply bool_decide_ext.
    destruct (lookup_lt_is_Some_2 _ _ Hi) as [y Hy]. rewrite (nth_lookup_Some _ _ _ _ Hy) in H2.
    rewrite !list_elem_of_lookup. split; intros [j Hj].
    + apply list_lookup_insert_Some in Hj as [(-> & -> & _)|[_ Hj]]; [done|eauto].
    + exists j. rewrite list_lookup_insert_ne; [done|]. intros ->. congruence.
  - by rewrite lookup_insert_ne.
Qed.

Lemma uses_other_dev R d y p d' : d ≠ d' → uses (upd_dev R d y) p d' = uses R p d'.
Proof. intros. unfold uses. simpl. by rewrite lookup_insert_ne. Qed.

(** The number of users of [p] after one device file has changed. *)
Lemma cnt_uses R H d x y p :
  reg_inv R H → g_devs R !! d = Some x →
  cnt (uses (upd_dev R d y) p) (dev_file_list R)
  = cnt (uses R p) (dev_file_list R) - one (uses R p d) + one (uses (upd_dev R d y) p d).
Proof.
  intros HI Hd. apply cnt_at; [apply HI|apply HI; eauto|].
  intros d' _ Hne. by apply uses_other_dev.
Qed.

(** Slot [i] of [d] changes from [y] to [y']. *)
Lemma inv_slot_change R H H' d x i y y' r :
  reg_inv R H → g_devs R !! d = Some x → services x !! i = Some y →
  let R' := upd_dev R d (with_slot x i r y') in
  (y' ≠ 0 → uses R y' d = false ∧ ∃ v, g_services R !! y' = Some v ∧
     r = slot_count R H' d y' (session_list v) ∧ 0 < r ≤ MAX_REF_COUNT) →
  r_sess H' = r_sess H → r_free H' = r_free H →
  (∀ d' p', (d', p') ≠ (d, y) → (d', p') ≠ (d, y') →
     cnt (λ h, bool_decide (h = (d', p'))) (r_slot H') = cnt (λ h, bool_decide (h = (d', p'))) (r_slot H)) →
  (∀ p, is_Some (g_services R !! p) →
     cnt (uses R' p) (dev_file_list R) + cnt (Z.eqb p) (r_svc H')
     = cnt (uses R p) (dev_file_list R) + cnt (Z.eqb p) (r_svc H)) →
  (∀ p v q s, g_services R !! p = Some v → q ∈ session_list v → g_sessions R !! q = Some s →
     uses R' p (owner s) = true) →
  (∀ d' p', (d', p') ∈ r_slot H' → p' ≠ 0 ∧ uses R' p' d' = true) →
  (∀ p, p ∈ r_svc H' → is_Some (g_services R !! p)) →
  reg_inv R' H'.
Proof.
  intros HI Hd Hi R' Hnew E2 E3 Hcnt Huse Hlist Hheld Hsvc.
  destruct (inv_shape _ _ HI d x Hd) as [Hl1 Hl2].
  pose proof (lookup_lt_Some _ _ _ Hi) as Hlt.
  assert (∀ j, services x !! j = Some y' → y' ≠ 0 → False) as Hfresh.
  { intros j Hj H0. destruct (Hnew H0) as [Hu _].
    assert (uses R y' d = true); [|congruence]. apply uses_spec. exists x. split; [done|].
    by eapply list_elem_of_lookup_2. }
  destruct HI. split; try done; simpl.
  - intros d'. rewrite inv_dev_heap, lookup_insert_is_Some'. split; [by right|].
    intros [<-|]; [by eexists|done].
  - intros d' x'. destruct (decide (d = d')) as [<-|].
    + rewrite lookup_insert_eq. intros [= <-]. simpl. by rewrite !length_insert.
    + rewrite lookup_insert_ne by done. eauto.
  - intros d' x' j p' Hd' Hj Hp'. change (slot_count R' H') with (slot_count R H').
    destruct (decide (d = d')) as [<-|Hne].
    + rewrite lookup_insert_eq in Hd'. injection Hd' as <-. rewrite with_slot_services in Hj.
      apply list_lookup_insert_Some in Hj as [(<- & <- & _)|[Hij Hj]].
      * destruct (Hnew Hp') as (_ & v & Hv & Hr & Hb). exists v. split; [done|].
        rewrite <- Hr. split; [|done]. simpl. rewrite list_lookup_insert_eq; [done|]. lia.
      * destruct (inv_slot d x j p' Hd Hj Hp') as (w & Hw & Hs & Hbw). exists w. split; [done|].
        unfold slot_count in *. rewrite Hcnt; [split; [|done]|..].
        -- simpl. by rewrite list_lookup_insert_ne.
        -- intros [= ->]. by eapply Hij, inv_distinct.
        -- intros [= ->]. by eapply Hfresh.
    + rewrite lookup_insert_ne in Hd' by done.
      destruct (inv_slot d' x' j p' Hd' Hj Hp') as (w & Hw & Hs & Hbw). exists w. split; [done|].
      unfold slot_count in *. rewrite Hcnt by congruence. done.
  - intros d' x' j k p' Hd' Hj Hk Hp'. destruct (decide (d = d')) as [<-|Hne].
    + rewrite lookup_insert_eq in Hd'. injection Hd' as <-. rewrite with_slot_services in Hj, Hk.
      apply list_lookup_insert_Some in Hj as [(<- & <- & _)|[Hij Hj]];
        apply list_lookup_insert_Some in Hk as [(<- & E & _)|[Hik Hk]]; try done; subst;
        try (by exfalso; eapply Hfresh); eauto.
    + rewrite lookup_insert_ne in Hd' by done. eauto.
  - intros p' w Hw. destruct (inv_usage p' w Hw). rewrite Huse by eauto. done.
  - intros p' w q Hw Hq. destruct (inv_listed p' w q Hw Hq) as (? & s & ? & ? & ?).
    split; [done|]. exists s. rewrite E2. split_and!; try done. eauto.
  - by rewrite E3.
  - by rewrite E3.
  - by rewrite E2.
Qed.

Lemma service_not_null R H p v : reg_inv R H → g_services R !! p = Some v → p ≠ 0.
Proof. intros HI Hv ->. apply (inv_svc_null _ _ HI), (inv_svc_heap _ _ HI). eauto. Qed.

Lemma cnt_slot_cons (d p d' p' : Z) l :
  cnt (λ h, bool_decide (h = (d', p'))) ((d, p) :: l)
  = one (bool_decide ((d, p) = (d', p'))) + cnt (λ h, bool_decide (h = (d', p'))) l.
Proof. done. Qed.

(** An empty slot takes over the reference of a lookup. *)
Lemma inv_fill R H d x i p v :
  reg_inv R (add_svc p H) → g_devs R !! d = Some x → services x !! i = Some 0 →
  g_services R !! p = Some v → uses R p d = false →
  reg_inv (upd_dev R d (with_slot x i 1 p)) (add_slot d p H).
Proof.
  intros HI Hd Hi Hv Hu. pose proof (service_not_null _ _ _ _ HI Hv) as Hp0.
  pose proof (lookup_lt_Some _ _ _ Hi) as Hlt.
  assert (uses (upd_dev R d (with_slot x i 1 p)) p d = true) as Hup.
  { apply uses_spec. exists (with_slot x i 1 p). simpl. rewrite lookup_insert_eq. split; [done|].
    apply list_elem_of_lookup. exists i. by rewrite list_lookup_insert_eq. }
  assert (∀ p' d', p' ≠ 0 → p' ≠ p → uses (upd_dev R d (with_slot x i 1 p)) p' d' = uses R p' d') as Hother.
  { intros p' d' H1 H2. apply uses_with_slot; try done. by rewrite (nth_lookup_Some _ _ _ _ Hi). }
  assert (∀ p' d', p' ≠ 0 → uses R p' d' = true →
    uses (upd_dev R d (with_slot x i 1 p)) p' d' = true) as Hmono.
  { intros p' d' H1 H2. destruct (decide (p' = p)) as [->|]; [|by rewrite Hother].
    destruct (decide (d = d')) as [<-|]; [done|]. by rewrite uses_other_dev. }
  apply (inv_slot_change R (add_svc p H) (add_slot d p H) d x i 0 p 1); try done.
  - intros _. split; [done|]. exists v. split; [done|].
    pose proof (slot_unused _ _ _ _ _ HI Hv Hu) as E. unfold slot_count in *.
    cbn [add_slot add_svc r_slot] in *. rewrite cnt_slot_cons, bool_decide_true by done.
    unfold MAX_REF_COUNT. simpl. lia.
  - intros d' p' _ Hne. cbn [add_slot add_svc r_slot]. rewrite cnt_slot_cons.
    rewrite bool_decide_false; [done|congruence].
  - intros p' [w Hw]. cbn [add_svc add_slot r_svc]. rewrite cnt_eqb_cons.
    destruct (decide (p' = p)) as [->|Hne].
    + rewrite (cnt_uses R (add_svc p H) d x) by done. rewrite Hu, Hup, Z.eqb_refl. simpl. lia.
    + rewrite (proj2 (Z.eqb_neq p' p)) by done. simpl.
      rewrite (cnt_ext _ (uses R p')); [lia|]. intros d' _. apply Hother; [|done].
      by eapply service_not_null.
  - intros p' w q s Hw Hq Hs. apply Hmono; [by eapply service_not_null|].
    destruct (inv_listed _ _ HI p' w q Hw Hq) as (_ & s' & Hs' & _ & ?). congruence.
  - intros d' p' [[= -> ->]|Hh]%elem_of_cons; [by split|].
    apply (inv_held _ _ HI) in Hh as [? ?]. split; [done|]. by apply Hmono.
  - intros p' Hp'. apply (inv_held_svc _ _ HI). by right.
Qed.

(** The last session of a slot gives its service back. *)
Lemma inv_empty R H d x i p :
  reg_inv R (add_slot d p H) → g_devs R !! d = Some x → services x !! i = Some p → p ≠ 0 →
  service_ref x !! i = Some 1 →
  reg_inv (upd_dev R d (with_slot x i 0 0)) (add_svc p H).
Proof.
  intros HI Hd Hi Hp0 Hr. pose proof (lookup_lt_Some _ _ _ Hi) as Hlt.
  destruct (inv_slot _ _ HI d x i p Hd Hi Hp0) as (v & Hv & Hr' & _).
  rewrite Hr in Hr'. injection Hr' as Hone. unfold slot_count in Hone.
  cbn [add_slot r_slot] in Hone. rewrite cnt_slot_cons, bool_decide_true in Hone by done.
  change (one true) with 1 in Hone.
  pose proof (cnt_range (owned R d) (session_list v)) as Hc1.
  pose proof (cnt_range (λ h, bool_decide (h = (d, p))) (r_slot H)) as Hc2.
  assert (uses R p d = true) as Hup.
  { apply uses_spec. exists x. split; [done|]. by eapply list_elem_of_lookup_2. }
  assert (uses (upd_dev R d (with_slot x i 0 0)) p d = false) as Hup'.
  { apply not_true_iff_false. intros (x' & Hx' & Hin)%uses_spec.
    simpl in Hx'. rewrite lookup_insert_eq in Hx'. injection Hx' as <-.
    rewrite with_slot_services in Hin. apply list_elem_of_lookup in Hin as [j Hj].
    apply list_lookup_insert_Some in Hj as [(_ & <- & _)|[Hij Hj]]; [done|].
    by destruct Hij; eapply (inv_distinct _ _ HI). }
  assert (∀ p' d', p' ≠ 0 → p' ≠ p → uses (upd_dev R d (with_slot x i 0 0)) p' d' = uses R p' d') as Hother.
  { intros p' d' H1 H2. apply uses_with_slot; try done. by rewrite (nth_lookup_Some _ _ _ _ Hi). }
  apply (inv_slot_change R (add_slot d p H) (add_svc p H) d x i p 0 0); try done.
  - intros d' p' Hne _. cbn [add_slot add_svc r_slot]. rewrite cnt_slot_cons.
    rewrite bool_decide_false; [done|congruence].
  - intros p' [w Hw]. cbn [add_svc add_slot r_svc]. rewrite cnt_eqb_cons.
    destruct (decide (p' = p)) as [->|Hne].
    + rewrite (cnt_uses R (add_slot d p H) d x) by done. rewrite Hup, Hup', Z.eqb_refl. simpl. lia.
    + rewrite (proj2 (Z.eqb_neq p' p)) by done. simpl.
      rewrite (cnt_ext _ (uses R p')); [lia|]. intros d' _. apply Hother; [|done].
      by eapply service_not_null.
  - intros p' w q s Hw Hq Hs.
    destruct (inv_listed _ _ HI p' w q Hw Hq) as (_ & s' & Hs' & _ & Hus).
    rewrite Hs in Hs'. injection Hs' as <-.
    destruct (decide (p' = p)) as [->|]; [|by rewrite Hother; [| eapply service_not_null |]].
    destruct (decide (d = owner s)) as [->|]; [|by rewrite uses_other_dev].
    rewrite Hv in Hw. injection Hw as <-.
    pose proof (count_pos (owned R (owner s)) _ q Hq). unfold owned in *. rewrite Hs in *.
    rewrite Z.eqb_refl in *. lia.
  - intros d' p' Hh. destruct (inv_held _ _ HI d' p') as [? Hus]; [by right|]. split; [done|].
    destruct (decide (p' = p)) as [->|]; [|by rewrite Hother].
    destruct (decide (d = d')) as [<-|]; [|by rewrite uses_other_dev].
    assert (0 < cnt (λ h, bool_decide (h = (d, p))) (r_slot H)); [|lia].
    eapply count_pos; [done|by apply bool_decide_eq_true].
  - intros p' [->|Hp']%elem_of_cons; [by eexists|]. by apply (inv_held_svc _ _ HI).
Qed.

(** What the operations on slots leave alone. *)
Record slot_frame (R R' : registry) : Prop := {
  fr_sessions : g_sessions R' = g_sessions R;
  fr_shared : g_shared R' = g_shared R;
  fr_devs : dev_file_list R' = dev_file_list R;
  fr_files d : shared_mem_list <$> g_devs R' !! d = shared_mem_list <$> g_devs R !! d
}.

#[export] Instance slot_frame_preorder : PreOrder slot_frame.
Proof.
  split; [by split|]. intros R1 R2 R3 [] []. split; congruence.
Qed.


Lemma upd_dev_frame R d x y :
  g_devs R !! d = Some x → shared_mem_list y = shared_mem_list x → slot_frame R (upd_dev R d y).
Proof.
  intros Hd Hy. split; try done. intros d'. simpl.
  destruct (decide (d = d')) as [<-|]; [|by rewrite lookup_insert_ne].
  rewrite lookup_insert_eq, Hd. simpl. by f_equal.
Qed.

Lemma same_but_services_frame R R' : same_but_services R R' → slot_frame R R'.
Proof. intros (? & E & ? & ? & ?). split; try done. intros d. by rewrite E. Qed.

(** [del_service_from_dev]: the reference of a slot is given back. *)
Lemma slot_of_loop_spec p sl j i :
  sl !! i = Some p → (∀ k, (k < i)%nat → sl !! k ≠ Some p) → slot_of_loop j p sl = Some (j + i)%nat.
Proof.
  revert j i. induction sl as [|y sl IH]; intros j i Hi Hk; [done|]. simpl.
  destruct i as [|i]; simpl in Hi.
  - injection Hi as ->. rewrite Z.eqb_refl. f_equal. lia.
  - destruct (Z.eqb_spec y p) as [->|]; [by destruct (Hk 0%nat); [lia|]|].
    rewrite (IH (S j) i); [f_equal; lia|done|]. intros k ?. apply (Hk (S k)). lia.
Qed.

Lemma del_service_inv R H d p :
  reg_inv R (add_slot d p H) → small R (add_svc p H) →
  ∃ R', del_service_from_dev R d p = Ret R' ∧ reg_inv R' H ∧ slot_frame R R' ∧
    (∀ p' w, p' ≠ p → g_services R !! p' = Some w ↔ g_services R' !! p' = Some w) ∧
    (∀ v w, g_services R !! p = Some v → g_services R' !! p = Some w →
       session_list w = session_list v ∧ sv_uuid w = sv_uuid v).
Proof.
  intros HI Hs. destruct (inv_held _ _ HI d p) as [Hp0 Hu]; [left|].
  destruct (uses_slot _ _ _ _ HI Hu Hp0) as (x & i & v & Hd & Hi & Hv & Hi32 & Hr & Hb).
  unfold del_service_from_dev. rewrite (proj2 (at_index_Some _ _ _) Hd), ret_bind.
  rewrite (slot_of_loop_spec p _ 0 i); [|done|].
  2:{ intros k Hk E. assert (k = i); [|lia]. by eapply (inv_distinct _ _ HI). }
  rewrite Nat.add_0_l, (nth_lookup_Some _ _ _ _ Hr).
  set (c := slot_count R (add_slot d p H) d p (session_list v)) in *.
  rewrite (proj2 (Z.eqb_neq c 0)) by lia. unfold MAX_REF_COUNT in Hb.
  unfold u8. rewrite Z.mod_small by lia.
  destruct (Z.eqb_spec (c - 1) 0) as [E|E].
  - assert (reg_inv (upd_dev R d (with_slot x i 0 0)) (add_svc p H)) as HI'.
    { eapply inv_empty; try done. rewrite Hr. f_equal. lia. }
    destruct (put_service_inv _ H p v HI') as (R' & E' & Hinv & Hsb & Hp & Hpw); [done..|].
    exists R'. split_and!; try done.
    + etrans; [by apply (upd_dev_frame R d x (with_slot x i 0 0))|].
      by apply same_but_services_frame.
    + intros v' w Hv'. rewrite Hv in Hv'. injection Hv' as <-. apply Hpw.
  - eexists. split; [done|]. split; [|split_and!; try done].
    + eapply (inv_upd_ref R (add_slot d p H)); try done.
      * intros d' p' Hne. cbn [add_slot r_slot]. rewrite cnt_slot_cons, bool_decide_false; [done|congruence].
      * intros d' p' Hin. apply (inv_held _ _ HI). by right.
      * unfold c, slot_count. cbn [add_slot r_slot]. rewrite cnt_slot_cons, bool_decide_true by done.
        change (one true) with 1. lia.
      * unfold MAX_REF_COUNT. lia.
    + by apply (upd_dev_frame R d x).
    + intros v' w Hv' Hw. cbn in Hw; rewrite Hv' in Hw. by injection Hw as <-.
Qed.
