(* ===== verification/SessInvFind.v ===== *)
(** * Finding services, linking and unlinking sessions

    [find_service], [init_new_sess_node] and the removal of a session keep the
    invariant of the registry. *)

From stdpp Require Import base gmap list.
From Stdlib Require Import ZArith Lia.
From S2P Require Import Prelude KernelApi TeeTypes Mailbox SessReg SessLookup SessOk SessInv.
From S2P Require Import SessInvOps.

(** ** New services *)

Lemma uses_live R H p d : reg_inv R H → uses R p d = true → p ≠ 0 → is_Some (g_services R !! p).
Proof.
  intros HI Hu Hp. destruct (uses_slot _ _ _ _ HI Hu Hp) as (? & ? & v & _ & _ & Hv & _). eauto.
Qed.

Lemma service_init_inv R H kz u :
  reg_inv R H → kz ≠ 0 → g_services R !! kz = None →
  (∀ p v, g_services R !! p = Some v → sv_uuid v ≠ u) →
  reg_inv (set_services R (<[kz := Service u [] 1]> (g_services R)) (g_service_list R ++ [kz]))
    (add_svc kz H).
Proof.
  intros HI H0 Hkz Hu.
  assert (kz ∉ g_service_list R) as Hkl.
  { intros Hin. apply (inv_svc_heap _ _ HI) in Hin. rewrite Hkz in Hin. by destruct Hin. }
  assert (∀ d, uses R kz d = false) as Hno.
  { intros d. apply not_true_iff_false. intros E. destruct (uses_live _ _ _ _ HI E H0). congruence. }
  assert (cnt (uses R kz) (dev_file_list R) = 0) as Hc.
  { pose proof (cnt_range (uses R kz) (dev_file_list R)).
    destruct (decide (0 < cnt (uses R kz) (dev_file_list R))) as [Hp|]; [|lia].
    apply cnt_pos_inv in Hp as (d & _ & E). by rewrite Hno in E. }
  assert (cnt (Z.eqb kz) (r_svc H) = 0) as Hc'.
  { pose proof (cnt_range (Z.eqb kz) (r_svc H)).
    destruct (decide (0 < cnt (Z.eqb kz) (r_svc H))) as [Hp|]; [|lia].
    apply cnt_pos_inv in Hp as (p & Hp & <-%Z.eqb_eq).
    apply (inv_held_svc _ _ HI) in Hp as [? ?]. congruence. }
  assert (∀ p v, g_services R !! p = Some v → kz ≠ p) as Hne by (intros p v Hv ->; congruence).
  destruct HI. split; try done; simpl.
  - apply NoDup_app. split; [done|]. split; [|apply NoDup_singleton].
    intros p Hp ->%list_elem_of_singleton. done.
  - intros p. rewrite elem_of_app, list_elem_of_singleton, inv_svc_heap, lookup_insert_is_Some'.
    naive_solver.
  - rewrite elem_of_app, list_elem_of_singleton. naive_solver.
  - intros d x i p Hd Hi Hp. destruct (inv_slot d x i p Hd Hi Hp) as (v & Hv & Hs).
    exists v. by rewrite lookup_insert_ne by eauto.
  - intros p q v w. rewrite !lookup_insert_Some.
    intros [[<- <-]|[_ Hv]] [[<- <-]|[_ Hw]] E; try done; simpl in E;
      [by destruct (Hu _ _ Hw)|by destruct (Hu _ _ Hv)|eauto].
  - intros p v. rewrite lookup_insert_Some.
    change (uses (set_services R _ _) p) with (uses R p). intros [[<- <-]|[Hp Hv]].
    + rewrite Z.eqb_refl. simpl. lia.
    + rewrite (proj2 (Z.eqb_neq p kz)) by done. by apply inv_usage.
  - intros p v. rewrite lookup_insert_Some. intros [[<- <-]|[_ Hv]]; [apply NoDup_nil_2|eauto].
  - intros p v q. rewrite lookup_insert_Some. intros [[<- <-]|[_ Hv]] Hq; [by apply elem_of_nil in Hq|].
    by apply (inv_listed p v q).
  - intros p p' v v' q. rewrite !lookup_insert_Some.
    intros [[<- <-]|[_ Hv]] [[<- <-]|[_ Hw]] Hq Hq'; try by apply elem_of_nil in Hq.
    + by apply elem_of_nil in Hq'.
    + by eapply inv_disjoint.
  - intros q Hq. destruct (inv_all q Hq) as [?|(p & v & Hv & Hql)]; [by left|right].
    exists p, v. by rewrite lookup_insert_ne by eauto.
  - intros q Hq. destruct (inv_free q Hq) as [? Hn]. split; [done|]. intros p v.
    rewrite lookup_insert_Some. intros [[<- <-]|[_ Hv]]; [apply not_elem_of_nil|eauto].
  - intros p [->|Hp]%elem_of_cons; rewrite lookup_insert_is_Some'; [by left|right; eauto].
Qed.

(** ** Adding a service to a device file *)

Lemma add_slot_loop_spec j sl :
  match add_slot_loop j sl with
  | Some i => (j ≤ i)%nat ∧ sl !! (i - j)%nat = Some 0
  | None => 0 ∉ sl
  end.
Proof.
  revert j. induction sl as [|y sl IH]; intros j; simpl; [apply not_elem_of_nil|].
  destruct (Z.eqb_spec y 0) as [->|Hy]; [by rewrite Nat.sub_diag|].
  specialize (IH (S j)). destruct (add_slot_loop (S j) sl) as [i|].
  - destruct IH as [? Hi]. split; [lia|]. by replace (i - j)%nat with (S (i - S j)) by lia.
  - apply not_elem_of_cons. by split.
Qed.

Lemma add_found_inv R H d p v :
  reg_inv R (add_svc p H) → small R (add_svc p H) → d ≠ 0 → is_Some (g_devs R !! d) →
  g_services R !! p = Some v → uses R p d = false →
  ∃ R' p', add_found_service R d p = Ret (R', p') ∧ slot_frame R R' ∧
    ((p' = 0 ∧ reg_inv R' H) ∨
     (p' = p ∧ reg_inv R' (add_slot d p H) ∧ g_services R' = g_services R)).
Proof.
  intros HI Hs Hd0 [x Hd] Hv Hu. pose proof (service_not_null _ _ _ _ HI Hv) as Hp0.
  unfold add_found_service, add_service_to_dev.
  rewrite (proj2 (Z.eqb_neq d 0)), (proj2 (Z.eqb_neq p 0)) by done. simpl.
  rewrite (proj2 (at_index_Some _ _ _) Hd), ret_bind.
  pose proof (add_slot_loop_spec 0 (services x)) as Hl.
  destruct (add_slot_loop 0 (services x)) as [i|]; rewrite ret_bind; simpl.
  - destruct Hl as [_ Hi]. rewrite Nat.sub_0_r in Hi. eexists _, p. split; [done|].
    split; [by apply (upd_dev_frame R d x)|]. right. split; [done|]. split; [|done].
    by eapply inv_fill.
  - destruct (put_service_inv R H p v) as (R' & -> & HI' & Hf & _); [done..|]. simpl.
    eexists _, _. split; [done|]. split; [by apply same_but_services_frame|]. by left.
Qed.

Lemma find_service_loop_spec R u l :
  (∀ p, p ∈ l → p ≠ 0 ∧ is_Some (g_services R !! p)) →
  ∃ p, find_service_loop R u l = Ret p ∧
    ((p = 0 ∧ ∀ q v, q ∈ l → g_services R !! q = Some v → sv_uuid v ≠ u) ∨
     (p ≠ 0 ∧ ∃ v, g_services R !! p = Some v ∧ sv_uuid v = u)).
Proof.
  induction l as [|q l IH]; intros Hl; simpl.
  { exists 0. split; [done|]. left. split; [done|]. intros q v Hq. by apply elem_of_nil in Hq. }
  destruct (Hl q) as (Hq0 & v & Hv); [left|].
  rewrite (proj2 (at_index_Some _ _ _) Hv), ret_bind. case_decide as E; [by eauto 10|].
  destruct IH as (p & Hp & Hc); [intros; apply Hl; by right|]. exists p. split; [done|].
  destruct Hc as [[-> Hc]|Hc]; [left|by right]. split; [done|].
  intros q' v' [->|Hq]%elem_of_cons Hv'; [congruence|eauto].
Qed.

(** The slots of a device file in which a uuid was not found. *)
Lemma uuid_slot_loop_none R i u sl p v :
  uuid_slot_loop R i u sl = Ret None → p ∈ sl → p ≠ 0 → g_services R !! p = Some v → sv_uuid v ≠ u.
Proof.
  revert i. induction sl as [|y sl IH]; intros i H Hin Hp Hv; [by apply elem_of_nil in Hin|].
  simpl in H. apply elem_of_cons in Hin as [<-|Hin].
  - rewrite (proj2 (Z.eqb_neq p 0)) in H by done.
    rewrite (proj2 (at_index_Some _ _ _) Hv), ret_bind in H. by case_decide.
  - destruct (y =? 0); [by eapply IH|]. apply bind_Ret in H as (w & _ & H).
    case_decide; [done|]. by eapply IH.
Qed.

(** ** Finding or creating a service *)

Lemma ref_slot_inv R H d x i p v :
  reg_inv R H → g_devs R !! d = Some x → services x !! i = Some p → p ≠ 0 →
  g_services R !! p = Some v → nth i (service_ref x) 0 ≠ MAX_REF_COUNT →
  reg_inv (upd_dev R d (with_slot x i (u8 (nth i (service_ref x) 0 + 1)) p)) (add_slot d p H).
Proof.
  intros HI Hd Hi Hp Hv Hm. destruct (inv_slot _ _ HI d x i p Hd Hi Hp) as (w & Hw & Hr & Hb).
  rewrite Hv in Hw. injection Hw as <-. rewrite (nth_lookup_Some _ _ _ _ Hr) in *.
  unfold MAX_REF_COUNT in *. unfold u8. rewrite Z.mod_small by lia.
  eapply (inv_upd_ref R H); try done.
  - intros d' p' Hne. cbn [add_slot r_slot]. rewrite cnt_slot_cons, bool_decide_false; [done|congruence].
  - intros d' p' [[= -> ->]|Hin]%elem_of_cons; [|by apply (inv_held _ _ HI)]. split; [done|].
    apply uses_spec. exists x. split; [done|]. by eapply list_elem_of_lookup_2.
  - unfold slot_count. cbn [add_slot r_slot]. rewrite cnt_slot_cons, bool_decide_true by done.
    change (one true) with 1. lia.
  - unfold MAX_REF_COUNT. lia.
Qed.

(** A service found for [d], or 0. *)
Definition found_service (R' : registry) (H : refs) (d p : Z) (u : list Z) : Prop :=
  (p = 0 ∧ reg_inv R' H) ∨
  (p ≠ 0 ∧ reg_inv R' (add_slot d p H) ∧ ∃ v, g_services R' !! p = Some v ∧ sv_uuid v = u).

Lemma find_service_inv kz R H d u :
  reg_inv R H → small R (add_svc 0 H) → d ≠ 0 → is_Some (g_devs R !! d) →
  (zero_or_null_ptr kz = false → g_services R !! kz = None) →
  ∃ R' p, find_service kz R d u = Ret (R', p) ∧ slot_frame R R' ∧ found_service R' H d p u.
Proof.
  intros HI Hs Hd0 [x Hd] Hkz.
  assert (small R H) as Hs0 by (unfold small in *; simpl in Hs; lia).
  assert (∀ p h l, small (set_services R h l) (add_svc p H)) as Hs1 by done.
  unfold find_service, tc_ref_service_in_dev. rewrite Z.eqb_refl. cbn [negb].
  rewrite (proj2 (at_index_Some _ _ _) Hd), ret_bind.
  destruct (uuid_slot_loop_total R 0 u (services x)) as (r & Er).
  { intros p Hp H0. by apply (reg_slots _ (reg_inv_ok _ _ HI Hs0) d x p). }
  rewrite Er, ret_bind. destruct r as [[i p]|].
  { apply uuid_slot_loop_found in Er as (_ & Hi & Hp0 & v & Hv & Hu). rewrite Nat.sub_0_r in Hi.
    destruct (Z.eqb_spec (nth i (service_ref x) 0) MAX_REF_COUNT) as [E|E].
    - exists R, 0. split; [done|]. split; [done|]. by left.
    - rewrite ret_bind. rewrite (proj2 (Z.eqb_neq p 0)) by done. eexists _, p. split; [done|].
      split; [by apply (upd_dev_frame R d x)|]. right. split; [done|].
      split; [by eapply ref_slot_inv|]. by exists v. }
  rewrite ret_bind. simpl. unfold tc_find_service_from_all. rewrite Z.eqb_refl. cbn [negb].
  destruct (find_service_loop_spec R u (g_service_list R)) as (p & -> & Hp).
  { intros p Hp. split; [intros ->; by apply (inv_svc_null _ _ HI)|by apply (inv_svc_heap _ _ HI)]. }
  assert (∀ p v, g_services R !! p = Some v → sv_uuid v = u → uses R p d = false) as Hnu.
  { intros q v Hv Hu. apply not_true_iff_false. intros (y & Hy & Hin)%uses_spec.
    rewrite Hd in Hy. injection Hy as <-.
    by eapply (uuid_slot_loop_none R 0 u (services x) q v); try done; eapply service_not_null. }
  rewrite ret_bind. destruct Hp as [[-> Hnone]|(Hp0 & v & Hv & Hu)].
  - simpl. unfold tc_ns_service_init. rewrite Z.eqb_refl. cbn [negb].
    destruct (zero_or_null_ptr kz) eqn:Ekz.
    { exists R, 0. split; [done|]. split; [done|]. by left. }
    simpl. assert (kz ≠ 0) as Hkz0 by (intros ->; done).
    assert (reg_inv (set_services R (<[kz := Service u [] 1]> (g_services R))
      (g_service_list R ++ [kz])) (add_svc kz H)) as HI'.
    { apply service_init_inv; eauto. intros p v Hv. eapply Hnone; [|done].
      apply (inv_svc_heap _ _ HI). eauto. }
    destruct (add_found_inv _ H d kz (Service u [] 1) HI') as (R' & p' & E & Hf & Hc);
      [done|done|by exists x|by simpl; rewrite lookup_insert_eq|..].
    + apply not_true_iff_false. intros Hus.
      destruct (uses_live R H kz d HI Hus Hkz0) as [? Hl]. by rewrite Hkz in Hl.
    + exists R', p'. split; [done|]. split; [by etrans; [|done]; split|].
      destruct Hc as [Hc|(-> & HI'' & Es)]; [by left|right]. split; [done|]. split; [done|].
      exists (Service u [] 1). rewrite Es. simpl. by rewrite lookup_insert_eq.
  - rewrite (proj2 (Z.eqb_neq p 0)) by done. simpl.
    destruct (get_service_inv R H p v HI Hs0 Hv) as [-> HI']. rewrite ret_bind.
    destruct (add_found_inv _ H d p (with_sv_usage v (sv_usage v + 1)) HI') as (R' & p' & E & Hf & Hc);
      [done|done|by exists x|by simpl; rewrite lookup_insert_eq|..].
    + by apply (Hnu p v).
    + exists R', p'. split; [done|]. split; [by etrans; [|done]; split|].
      destruct Hc as [Hc|(-> & HI'' & Es)]; [by left|right]. split; [done|]. split; [done|].
      exists (with_sv_usage v (sv_usage v + 1)). rewrite Es. simpl. by rewrite lookup_insert_eq.
Qed.

(** * Sessions on and off the list of their service *)

(** ** Sessions on no list *)

Lemma listed_not_free R H p v q :
  reg_inv R H → g_services R !! p = Some v → q ∈ session_list v → q ∉ r_free H.
Proof. intros HI Hv Hq Hf. destruct (inv_free _ _ HI q Hf) as [_ Hn]. by eapply Hn. Qed.

Lemma listed_ne R H p v q q' :
  reg_inv R H → g_services R !! p = Some v → q ∈ session_list v → q' ∈ r_free H → q' ≠ q.
Proof. intros HI Hv Hq Hf ->. by eapply listed_not_free. Qed.

Lemma listed_usage R H p v q s :
  reg_inv R H → g_services R !! p = Some v → q ∈ session_list v → g_sessions R !! q = Some s →
  s_usage s = 1 + cnt (Z.eqb q) (r_sess H).
Proof.
  intros HI Hv Hq Hs. destruct (inv_listed _ _ HI p v q Hv Hq) as (_ & s' & Hs' & Hu & _). congruence.
Qed.

(** The data of a session that is on no list is nobody's business. *)
Lemma inv_upd_free R H q s :
  reg_inv R H → q ∈ r_free H → reg_inv (upd_session R q s) H.
Proof.
  intros HI Hq. apply (inv_sessions_gen R H); try done; simpl.
  - intros p v q' Hv Hq'. rewrite lookup_insert_ne; [done|]. by eapply listed_ne.
  - intros p v q' s' Hv Hq'. rewrite lookup_insert_ne by (by eapply listed_ne).
    by eapply listed_usage.
  - intros q'. rewrite lookup_insert_is_Some'.
    destruct (decide (q' ∈ r_free H)); [by left|]. intros [<-|]; [done|by right].
  - intros q' Hq'. destruct (inv_free _ _ HI q' Hq') as [? ?]. split; [|done].
    rewrite lookup_insert_is_Some'. by right.
  - intros q' Hq'%(inv_held_sess _ _ HI). rewrite lookup_insert_is_Some'. by right.
Qed.

Lemma inv_new_session R H q s :
  reg_inv R H → g_sessions R !! q = None → reg_inv (upd_session R q s) (add_free q H).
Proof.
  intros HI Hq.
  assert (∀ p v q', g_services R !! p = Some v → q' ∈ session_list v → q ≠ q') as Hne.
  { intros p v q' Hv Hq' <-. destruct (inv_listed _ _ HI p v q Hv Hq') as (_ & ? & ? & _). congruence. }
  apply (inv_sessions_gen R H); try done; simpl.
  - intros p v q' Hv Hq'. by rewrite lookup_insert_ne by eauto.
  - intros p v q' s' Hv Hq'. rewrite lookup_insert_ne by eauto. by eapply listed_usage.
  - intros q'. rewrite lookup_insert_is_Some', elem_of_cons.
    destruct (decide (q' ∈ r_free H)); naive_solver.
  - intros q' [->|Hq']%elem_of_cons; rewrite lookup_insert_is_Some'.
    + split; [by left|]. intros p v Hv Hin. by apply (Hne p v q).
    + destruct (inv_free _ _ HI q' Hq') as [? ?]. split; [by right|done].
  - intros q' Hq'%(inv_held_sess _ _ HI). rewrite lookup_insert_is_Some'. by right.
Qed.

Lemma inv_delete_free R H q :
  reg_inv R (add_free q H) → q ∉ r_free H → q ∉ r_sess H →
  reg_inv (set_sessions R (delete q (g_sessions R))) H.
Proof.
  intros HI Hf Hs. assert (q ∈ r_free (add_free q H)) as Hin by left.
  apply (inv_sessions_gen R (add_free q H)); try done; simpl.
  - intros p v q' Hv Hq'. rewrite lookup_delete_ne; [done|]. by eapply listed_ne.
  - intros p v q' s' Hv Hq'. rewrite lookup_delete_ne by (by eapply listed_ne).
    by eapply (listed_usage R (add_free q H)).
  - intros q'. rewrite lookup_delete_is_Some, not_elem_of_cons.
    destruct (decide (q' ∈ r_free H)); naive_solver.
  - intros q' Hq'. rewrite lookup_delete_is_Some.
    destruct (inv_free _ _ HI q') as [? ?]; [by right|]. split; [|done]. split; [by intros ->|done].
  - intros q' Hq'. rewrite lookup_delete_is_Some. split; [by intros ->|].
    by apply (inv_held_sess _ _ HI).
Qed.

(** ** On and off the list *)

(** A service whose list changes. *)
Lemma lookup_list (h : gmap Z tc_ns_service) p v l p' w :
  h !! p = Some v → <[p := with_session_list v l]> h !! p' = Some w →
  ∃ w0, h !! p' = Some w0 ∧ sv_uuid w = sv_uuid w0 ∧ sv_usage w = sv_usage w0 ∧
    session_list w = (if decide (p' = p) then l else session_list w0).
Proof.
  intros Hv. destruct (decide (p = p')) as [->|].
  - rewrite lookup_insert_eq. intros [= <-]. exists v. by rewrite decide_True.
  - rewrite lookup_insert_ne by done. intros Hw. exists w. by rewrite decide_False.
Qed.

Lemma lookup_list_back (h : gmap Z tc_ns_service) p v l p' w0 :
  h !! p = Some v → h !! p' = Some w0 →
  ∃ w, <[p := with_session_list v l]> h !! p' = Some w ∧
    session_list w = (if decide (p' = p) then l else session_list w0).
Proof.
  intros Hv Hw. destruct (decide (p = p')) as [->|].
  - rewrite lookup_insert_eq. eexists. split; [done|]. by rewrite decide_True.
  - rewrite lookup_insert_ne by done. exists w0. by rewrite decide_False.
Qed.

(** The list of [p] becomes [l]. *)
Lemma inv_upd_list R H H' p v l :
  reg_inv R H → g_services R !! p = Some v → r_svc H' = r_svc H →
  let R' := upd_service R p (with_session_list v l) in
  (∀ d, slot_count R H' d p l = slot_count R H d p (session_list v)) →
  (∀ d p' m, p' ≠ p → slot_count R H' d p' m = slot_count R H d p' m) →
  NoDup l →
  (∀ q, q ∈ l → q ≠ 0 ∧ ∃ s, g_sessions R !! q = Some s ∧
     s_usage s = 1 + cnt (Z.eqb q) (r_sess H') ∧ uses R p (owner s) = true) →
  (∀ p' w q, p' ≠ p → g_services R !! p' = Some w → q ∈ session_list w →
     (q ∉ l) ∧ cnt (Z.eqb q) (r_sess H') = cnt (Z.eqb q) (r_sess H)) →
  (∀ q, (q ∈ l ∨ q ∈ r_free H') ↔ (q ∈ session_list v ∨ q ∈ r_free H)) →
  (∀ q, q ∈ l → q ∉ r_free H') →
  (∀ d p', (d, p') ∈ r_slot H' → p' ≠ 0 ∧ uses R p' d = true) →
  (∀ q, q ∈ r_sess H' → is_Some (g_sessions R !! q)) →
  reg_inv R' H'.
Proof.
  intros HI Hv E1 R' Hc Hc' Hnd Hl Ho Hfree Hdis Hheld Hsess.
  assert (∀ q p' w, q ∈ r_free H' → g_services R !! p' = Some w → p' ≠ p → q ∉ session_list w) as Hff.
  { intros q p' w Hq Hw Hne Hin. destruct (proj1 (Hfree q)) as [Hq'|Hq']; [by right|..].
    - by apply Hne, (inv_disjoint _ _ HI p' p w v q).
    - by eapply (listed_not_free R H p' w). }
  pose proof HI as HI0. destruct HI. split; try done; simpl.
  - intros p'. rewrite inv_svc_heap, lookup_insert_is_Some'. split; [by right|].
    intros [<-|]; [by eexists|done].
  - intros d x i p' Hd Hi Hp. destruct (inv_slot d x i p' Hd Hi Hp) as (w & Hw & Hs & Hb).
    destruct (lookup_list_back _ _ _ l _ _ Hv Hw) as (w' & Hw' & El).
    exists w'. split; [done|]. rewrite El. change (slot_count R' H') with (slot_count R H').
    destruct (decide (p' = p)) as [->|]; [|by rewrite Hc'].
    rewrite Hc. rewrite Hv in Hw. by injection Hw as <-.
  - intros p1 p2 w1 w2 Hw1 Hw2 E.
    destruct (lookup_list _ _ _ _ _ _ Hv Hw1) as (v1 & Hv1 & Eu1 & _).
    destruct (lookup_list _ _ _ _ _ _ Hv Hw2) as (v2 & Hv2 & Eu2 & _).
    eapply inv_uuid; [done..|congruence].
  - intros p' w Hw. destruct (lookup_list _ _ _ _ _ _ Hv Hw) as (w0 & Hw0 & _ & -> & _).
    rewrite E1. by apply (inv_usage p' w0).
  - intros p' w Hw. destruct (lookup_list _ _ _ _ _ _ Hv Hw) as (w0 & Hw0 & _ & _ & ->).
    case_decide; eauto.
  - intros p' w q Hw Hq. destruct (lookup_list _ _ _ _ _ _ Hv Hw) as (w0 & Hw0 & _ & _ & El).
    rewrite El in Hq. case_decide as Hpp; [subst p'; by apply Hl|].
    destruct (inv_listed _ _ _ Hw0 Hq) as (? & s & ? & Hus & ?).
    split; [done|]. exists s. destruct (Ho p' w0 q) as [_ ->]; done.
  - intros p1 p2 w1 w2 q Hw1 Hw2 Hq1 Hq2.
    destruct (lookup_list _ _ _ _ _ _ Hv Hw1) as (v1 & Hv1 & _ & _ & El1).
    destruct (lookup_list _ _ _ _ _ _ Hv Hw2) as (v2 & Hv2 & _ & _ & El2).
    rewrite El1 in Hq1. rewrite El2 in Hq2. destruct (decide (p1 = p)), (decide (p2 = p)).
    + congruence.
    + by destruct (Ho p2 v2 q) as [? _].
    + by destruct (Ho p1 v1 q) as [? _].
    + by eapply inv_disjoint.
  - intros q Hq. assert (q ∈ session_list v ∨ q ∈ r_free H ∨
      ∃ p' w, p' ≠ p ∧ g_services R !! p' = Some w ∧ q ∈ session_list w) as Hcase.
    { destruct (inv_all q Hq) as [?|(p' & w & Hw & Hql)]; [by right; left|].
      destruct (decide (p' = p)) as [->|]; [|by eauto 10].
      rewrite Hv in Hw. injection Hw as <-. by left. }
    assert (q ∈ session_list v ∨ q ∈ r_free H → q ∈ r_free H' ∨ q ∈ l) as Hback
      by (intros Hx; destruct (proj2 (Hfree q) Hx); tauto).
    destruct Hcase as [Hx|[Hx|(p' & w & Hne & Hw & Hx)]].
    1-2: destruct Hback as [?|?]; [tauto|by left|right].
    1-2: exists p, (with_session_list v l); by rewrite lookup_insert_eq.
    right. exists p', w. by rewrite lookup_insert_ne.
  - intros q Hq. split.
    + destruct (proj1 (Hfree q)) as [Hx|Hx]; [by right|..]; [|by apply inv_free].
      destruct (inv_listed p v q Hv Hx) as (_ & ? & ? & _). eauto.
    + intros p' w Hw. destruct (lookup_list _ _ _ _ _ _ Hv Hw) as (w0 & Hw0 & _ & _ & ->).
      case_decide; [intros Hx; by apply (Hdis q)|by eapply Hff].
  - rewrite E1. intros p' Hp'. rewrite lookup_insert_is_Some'. right. eauto.
Qed.

Lemma owned_same R q s : g_sessions R !! q = Some s → owned R (owner s) q = true.
Proof. unfold owned. intros ->. apply Z.eqb_refl. Qed.

Lemma owned_other R q s d : g_sessions R !! q = Some s → d ≠ owner s → owned R d q = false.
Proof. unfold owned. intros -> Hd. by apply Z.eqb_neq. Qed.

(** A session leaves the list; its reference to the slot is to be given back.
    [H'] may hold fewer references to the session. *)
Lemma inv_unlink R H H' p v q s :
  reg_inv R H → g_services R !! p = Some v → q ∈ session_list v → g_sessions R !! q = Some s →
  r_slot H' = (owner s, p) :: r_slot H → r_svc H' = r_svc H → r_free H' = q :: r_free H →
  (∀ q', q' ≠ q → cnt (Z.eqb q') (r_sess H') = cnt (Z.eqb q') (r_sess H)) →
  (∀ q', q' ∈ r_sess H' → q' ∈ r_sess H) →
  reg_inv (upd_service R p (with_session_list v (filter (λ x, x ≠ q) (session_list v)))) H'.
Proof.
  intros HI Hv Hq Hs E1 E2 E3 Hn Hsub. pose proof (inv_list_nodup _ _ HI p v Hv) as Hnd.
  apply (inv_upd_list R H); try done.
  - intros d. unfold slot_count. rewrite cnt_remove, E1, cnt_slot_cons by done.
    destruct (decide (d = owner s)) as [->|Hd].
    + rewrite (owned_same R q s), bool_decide_true by done. lia.
    + rewrite (owned_other R q s), bool_decide_false by (done || congruence). simpl. lia.
  - intros d p' m Hne. unfold slot_count. rewrite E1, cnt_slot_cons, bool_decide_false by congruence.
    done.
  - by apply NoDup_filter.
  - intros q' [Hne Hq']%list_elem_of_filter. rewrite Hn by done. by apply (inv_listed _ _ HI p v q').
  - intros p' w q' Hne Hw Hq'. rewrite list_elem_of_filter. split.
    + intros [_ Hq'']. by apply Hne, (inv_disjoint _ _ HI p' p w v q').
    + apply Hn. intros ->. by apply Hne, (inv_disjoint _ _ HI p' p w v q).
  - intros q'. rewrite E3, list_elem_of_filter, elem_of_cons.
    destruct (decide (q' = q)) as [->|]; naive_solver.
  - intros q' [Hne Hq']%list_elem_of_filter. rewrite E3, not_elem_of_cons. split; [done|].
    by eapply listed_not_free.
  - intros d p'. rewrite E1. intros [[= -> ->]|Hin]%elem_of_cons; [|by apply (inv_held _ _ HI)].
    split; [by eapply service_not_null|].
    destruct (inv_listed _ _ HI p v q Hv Hq) as (_ & s' & Hs' & _ & ?). congruence.
  - intros q' Hq'. by apply (inv_held_sess _ _ HI), Hsub.
Qed.

(** A session joins the list and takes over the reference to the slot. *)
Lemma inv_link R H p v q s :
  reg_inv R (add_free q (add_slot (owner s) p H)) → g_services R !! p = Some v →
  g_sessions R !! q = Some s → s_usage s = 1 → q ≠ 0 → q ∉ r_free H → q ∉ r_sess H →
  reg_inv (upd_service R p (with_session_list v (session_list v ++ [q]))) H.
Proof.
  intros HI Hv Hs Hu Hq0 Hqf Hqs. pose proof (inv_list_nodup _ _ HI p v Hv) as Hnd.
  destruct (inv_free _ _ HI q) as [_ Hnl]; [left|].
  assert (cnt (Z.eqb q) (r_sess H) = 0) as Hc0.
  { pose proof (cnt_range (Z.eqb q) (r_sess H)).
    destruct (decide (0 < cnt (Z.eqb q) (r_sess H))) as [Hp|]; [|lia].
    apply cnt_pos_inv in Hp as (q' & Hq' & <-%Z.eqb_eq). done. }
  eapply (inv_upd_list R (add_free q (add_slot (owner s) p H))); try done.
  - intros d. unfold slot_count. cbn [add_free add_slot r_slot]. rewrite count_app, cnt_slot_cons.
    cbn [cnt]. destruct (decide (d = owner s)) as [->|Hd].
    + rewrite (owned_same R q s), bool_decide_true by done. lia.
    + rewrite (owned_other R q s), bool_decide_false by (done || congruence). simpl. lia.
  - intros d p' m Hne. unfold slot_count. cbn [add_free add_slot r_slot].
    rewrite cnt_slot_cons, bool_decide_false by congruence. done.
  - apply NoDup_app. split; [done|]. split; [|apply NoDup_singleton].
    intros q' Hq' ->%list_elem_of_singleton. by apply (Hnl p v).
  - intros q' [Hq'| ->%list_elem_of_singleton]%elem_of_app; [by apply (inv_listed _ _ HI p v q')|].
    split; [done|]. exists s. rewrite Hc0. split_and!; [done|lia|].
    apply (inv_held _ _ HI). left.
  - intros p' w q' Hne Hw Hq'. split; [|done]. rewrite elem_of_app, list_elem_of_singleton.
    intros [Hq''| ->]; [by apply Hne, (inv_disjoint _ _ HI p' p w v q')|by apply (Hnl p' w)].
  - intros q'. cbn [add_free add_slot r_free]. rewrite elem_of_app, !elem_of_cons, elem_of_nil.
    tauto.
  - intros q' [Hq'| ->%list_elem_of_singleton]%elem_of_app; [|done].
    assert (q' ∉ r_free (add_free q (add_slot (owner s) p H))) as Hx by by eapply listed_not_free.
    cbn [add_free add_slot r_free] in Hx. by apply not_elem_of_cons in Hx as [_ ?].
  - intros d p' Hin. apply (inv_held _ _ HI). by right.
  - apply (inv_held_sess _ _ HI).
Qed.

Lemma init_sess_node_inv R H d sid p q v :
  reg_inv R (add_free q (add_slot d p H)) → g_services R !! p = Some v → q ≠ 0 →
  q ∉ r_free H → q ∉ r_sess H →
  ∃ R' s, init_new_sess_node R d sid p q = Ret R' ∧ reg_inv R' H ∧
    g_devs R' = g_devs R ∧ g_shared R' = g_shared R ∧ dev_file_list R' = dev_file_list R ∧
    g_services R' !! p = Some (with_session_list v (session_list v ++ [q])) ∧
    g_sessions R' = <[q := s]> (g_sessions R) ∧ sess_key s = (sid, d, 1).
Proof.
  intros HI Hv Hq0 Hqf Hqs. destruct (inv_free _ _ HI q) as [[s Hs] _]; [left|].
  unfold init_new_sess_node. rewrite (proj2 (at_index_Some _ _ _) Hs), ret_bind.
  rewrite (proj2 (at_index_Some _ _ _) Hv), ret_bind.
  set (s' := Session sid d (secure_info s) (teec_token s) (auth_hash_buf s) 0 1).
  eexists _, s'. split; [done|]. split; [|split_and!; try done].
  - apply (inv_link (upd_session R q s') H p v q s'); try done.
    + by apply inv_upd_free; [|left].
    + simpl. by rewrite lookup_insert_eq.
  - simpl. by rewrite lookup_insert_eq.
Qed.
