(* ===== verification/SessMgrThm.v ===== *)
(** * Opening, using and closing a session keep the registry's invariant *)

From stdpp Require Import base gmap list.
From Stdlib Require Import ZArith Lia.
From S2P Require Import Prelude KernelApi TeeTypes Buffers Mailbox MailboxClaims SessReg.
From S2P Require Import SessLookup SessOk CallTypes Auth AuthCall AuthOk GpParams GpCall GpHeld.
From S2P Require Import GpAlloc GpCallThm GpClaims Tlogger TloggerSys Agent AgentReg TeecdAuth.
From S2P Require Import SessLoad SessLoadThm SessMgr SessInv SessInvOps SessInvFind.

(** ** Shared buffers *)

(** Every shared buffer of a device file is live and has room for references. *)
Definition shares_ok (R : registry) : Prop :=
  shared_ok (g_shared R) ∧
  ∀ d x q, g_devs R !! d = Some x → q ∈ shared_mem_list x → q ≠ 0 ∧ is_Some (g_shared R !! q).

Lemma shares_frame R R' : slot_frame R R' → shares_ok R → shares_ok R'.
Proof.
  intros [_ Es _ Ef] [H1 H2]. split; rewrite Es; [done|]. intros d x q Hd.
  specialize (Ef d). rewrite Hd in Ef. destruct (g_devs R !! d) as [y|] eqn:Hy; [|done].
  simpl in Ef. injection Ef as ->. eauto.
Qed.

Lemma shares_like R R' : sess_step R R' → shares_ok R → shares_ok R'.
Proof.
  intros [HL Es] [H1 H2]. split; rewrite Es; [done|]. intros d x q. rewrite (like_devs _ _ HL). eauto.
Qed.

Lemma shares_upd_session R q s : shares_ok R → shares_ok (upd_session R q s).
Proof. done. Qed.

Lemma small_frame R R' H : dev_file_list R' = dev_file_list R → small R H → small R' H.
Proof. unfold small. by intros ->. Qed.

Lemma small_less R H p : small R (add_svc p H) → small R H.
Proof. unfold small. simpl. lia. Qed.

Lemma slot_frame_live R R' d : slot_frame R R' → is_Some (g_devs R !! d) → is_Some (g_devs R' !! d).
Proof.
  intros [_ _ _ Ef] [x Hx]. specialize (Ef d). rewrite Hx in Ef. by destruct (g_devs R' !! d).
Qed.

(** ** Data of a device file *)

Lemma inv_dev_data R H d x y :
  reg_inv R H → g_devs R !! d = Some x → services y = services x → service_ref y = service_ref x →
  reg_inv (upd_dev R d y) H.
Proof.
  intros HI Hd E1 E2.
  assert (∀ d' z, <[d := y]> (g_devs R) !! d' = Some z →
    ∃ z0, g_devs R !! d' = Some z0 ∧ services z = services z0 ∧ service_ref z = service_ref z0) as Hl.
  { intros d' z. destruct (decide (d = d')) as [<-|].
    - rewrite lookup_insert_eq. intros [= <-]. by exists x.
    - rewrite lookup_insert_ne by done. intros Hz. by exists z. }
  assert (∀ p d', uses (upd_dev R d y) p d' = uses R p d') as Hu.
  { intros p d'. destruct (decide (d = d')) as [<-|]; [|by apply uses_other_dev].
    unfold uses. simpl. by rewrite lookup_insert_eq, Hd, E1. }
  destruct HI. split; try done; simpl.
  - intros d'. rewrite inv_dev_heap, lookup_insert_is_Some'. split; [by right|].
    intros [<-|]; [by eexists|done].
  - intros d' z Hz. destruct (Hl d' z Hz) as (z0 & Hz0 & -> & ->). eauto.
  - intros d' z i p Hz. destruct (Hl d' z Hz) as (z0 & Hz0 & -> & ->). by apply inv_slot.
  - intros d' z i j p Hz. destruct (Hl d' z Hz) as (z0 & Hz0 & -> & _). by apply (inv_distinct d').
  - intros p v Hv. rewrite (cnt_ext _ (uses R p)) by done. by apply inv_usage.
  - intros p v q Hv Hq. destruct (inv_listed p v q Hv Hq) as (? & s & ?). split; [done|].
    exists s. by rewrite Hu.
  - intros d' p. rewrite Hu. by apply inv_held.
Qed.

Section Mgr.
Context {Env St : Type} {BA : BlockAllocator St} {BAL : BlockAllocatorLaws St BA}.
Context {SMC : SmcChannel Env} {TB : TeeBehaviour Env SMC}.
Context {P : PageMap} {SC : SecureC} {SB : SecureBuf} {CM : ClientMem} {UA : UserAccess}.
Context {KR : KernelRandom} {KC : KernelCipher} {KA : KernelAlloc} {CU : Current}.
Context {VV : VirtValid} {VL : VirtValidLaws St BA VV} {CR : Caller} {DL : DevLayout}.

Abbreviation state := (call_state Env St).

(** [check_login_method] only changes the login data of the device file. *)
Lemma check_login_inv R H m d (c : tc_ns_client_context) flags :
  reg_inv R H → is_Some (g_devs R !! d) →
  ∃ R' m' c' flags' ret,
    check_login_method R m d c flags = Ret (R', m', c', flags', ret) ∧
    reg_inv R' H ∧ slot_frame R R' ∧ g_services R' = g_services R ∧
    ctx_uuid c' = ctx_uuid c ∧ file_size c' = file_size c ∧
    (ret = 0 → flags' = Z.lor flags TC_CALL_LOGIN).
Proof.
  intros HI [x Hx]. unfold check_login_method.
  assert (∀ (m' : mem) c' flags' (ret : Z), ctx_uuid c' = ctx_uuid c → file_size c' = file_size c →
    (ret = 0 → flags' = Z.lor flags TC_CALL_LOGIN) →
    ∃ R1 m1 c1 f1 r1, Ret (R, m', c', flags', ret) = Ret (R1, m1, c1, f1, r1) ∧
      reg_inv R1 H ∧ slot_frame R R1 ∧ g_services R1 = g_services R ∧
      ctx_uuid c1 = ctx_uuid c ∧ file_size c1 = file_size c ∧
      (r1 = 0 → f1 = Z.lor flags TC_CALL_LOGIN)) as Hret.
  { intros m' c' f' r E1 E2 E3. by exists R, m', c', f', r. }
  destruct (d =? 0); [by apply Hret|]. destruct (negb _); [by apply Hret|].
  rewrite (proj2 (at_index_Some _ _ _) Hx), ret_bind. destruct (_ && _); [by apply Hret|].
  unfold set_login_information. rewrite (proj2 (at_index_Some _ _ _) Hx), ret_bind.
  destruct (pkg_name_len x =? 0); [rewrite ret_bind; by apply Hret|].
  destruct (nonzero (pub_key_len x)); [rewrite ret_bind; by apply Hret|].
  destruct (tc_ns_get_uid =? _); [rewrite ret_bind; by apply Hret|].
  destruct (buf_copy _ _ _ _ _ _) as [r key].
  assert (reg_inv (upd_dev R d (df_with_pub_key x 4 key)) H) as HI' by by eapply inv_dev_data.
  assert (slot_frame R (upd_dev R d (df_with_pub_key x 4 key))) as Hf by by eapply upd_dev_frame.
  destruct (nonzero r) eqn:Er; rewrite ret_bind; simpl;
    eexists _, _, _, _, _; split; [done| |done|]; by split_and!.
Qed.

(** A call on a session that is on no list, or that is in use. *)
Lemma global_call_pre R d c q flags :
  shares_ok R → is_Some (g_devs R !! d) → is_Some (g_sessions R !! q) →
  nonzero (Z.land flags TC_CALL_GLOBAL) = true → call_pre R (CallParams d c q flags).
Proof.
  intros [Hs1 Hs2] Hd Hq Hg. split; simpl; try done.
  - unfold is_global_call. simpl. by rewrite Hg.
  - split; [done|by right].
  - intros x p Hx. by apply (Hs2 d x).
Qed.

Lemma clean_step R q :
  is_Some (g_sessions R !! q) →
  ∃ R', clean_session_secure_information R q = Ret R' ∧ sess_step R R'.
Proof.
  intros [s Hs]. unfold clean_session_secure_information.
  destruct (q =? 0); [by exists R|]. rewrite (proj2 (at_index_Some _ _ _) Hs), ret_bind.
  eexists. split; [done|]. by eapply upd_session_step.
Qed.

Lemma step_live R R' q : sess_step R R' → is_Some (g_sessions R !! q) → is_Some (g_sessions R' !! q).
Proof. intros [HL _]. by apply like_is_Some. Qed.

Lemma open_failed_step (k : state) c q ret :
  is_Some (g_sessions (cs_reg k) !! q) →
  ∃ R', open_failed k c q ret = Ret (Some (with_reg k R', c, ret)) ∧ sess_step (cs_reg k) R'.
Proof.
  intros Hq. unfold open_failed. destruct (clean_step _ _ Hq) as (R' & -> & HS).
  rewrite ret_bind. by exists R'.
Qed.

Context (fuel : nat) (Hfuel : ∀ e m o c, (tee_rank (tc_ns_smc e m o c).1.1.1.1 < fuel)%nat).

(** What a failed opening changes is in the session; a successful one ends by
    putting the session on its list. *)
Lemma proc_open_cases g_root (k : state) H L d c p q flags :
  reg_inv (cs_reg k) H → small (cs_reg k) H → shares_ok (cs_reg k) →
  is_Some (g_devs (cs_reg k) !! d) → is_Some (g_sessions (cs_reg k) !! q) →
  is_Some (g_services (cs_reg k) !! p) →
  nonzero (Z.land flags TC_CALL_GLOBAL) = true →
  ba_owns (cs_pool k) L → 0 ≤ file_size c < 2 ^ 32 →
  ∃ k' x ret R1, proc_open_session fuel g_root k d c p q flags = Ret (Some (k', x, ret)) ∧
    ba_owns (cs_pool k') L ∧ sess_step (cs_reg k) R1 ∧
    ((ret ≠ 0 ∧ cs_reg k' = R1) ∨
     (ret = 0 ∧ init_new_sess_node R1 d (ctx_session_id x) p q = Ret (cs_reg k'))).
Proof.
  intros HI Hsm Hsh Hd Hq Hp Hg Ho Hfs. unfold proc_open_session.
  destruct (load_ta_image_balanced (cs_env k) (cs_pool k) (cs_mem k) (cs_reg k) L d c Ho Hfs Hd)
    as (e1 & s1 & m1 & c1 & r1 & -> & Ho1). rewrite ret_bind.
  destruct (nonzero r1) eqn:E1.
  { eexists _, _, _, (cs_reg k). split; [done|]. split; [done|]. split; [done|].
    left. split; [by apply nonzero_true|done]. }
  destruct (get_session_secure_params_balanced e1 s1 m1 (cs_reg k) g_root d c1 q L Ho1)
    as (e2 & s2 & m2 & R2 & c2 & r2 & E & Ho2 & HS2 & _); [by eapply reg_inv_ok|done|done|].
  cbn [cs_env cs_pool cs_mem cs_reg with_env_pool]. rewrite E, ret_bind.
  set (k2 := with_env_pool _ e2 s2 m2 R2).
  assert (∀ (k3 : state) c3 r3, ba_owns (cs_pool k3) L → sess_step (cs_reg k) (cs_reg k3) → r3 ≠ 0 →
    ∃ k' x ret R1, open_failed k3 c3 q r3 = Ret (Some (k', x, ret)) ∧
      ba_owns (cs_pool k') L ∧ sess_step (cs_reg k) R1 ∧
      ((ret ≠ 0 ∧ cs_reg k' = R1) ∨
       (ret = 0 ∧ init_new_sess_node R1 d (ctx_session_id x) p q = Ret (cs_reg k')))) as Hfail.
  { intros k3 c3 r3 Hk Hst Hr. destruct (open_failed_step k3 c3 q r3) as (R' & -> & HS);
      [by eapply step_live|]. eexists _, _, _, R'. split; [done|]. split; [done|].
    split; [by etrans|]. by left. }
  destruct (nonzero r2) eqn:E2; [by apply Hfail; [..|apply nonzero_true]|].
  destruct (step_live _ _ _ HS2 Hq) as [s Hs].
  change (cs_reg k2) with R2. rewrite (proj2 (at_index_Some _ _ _) Hs), ret_bind.
  destruct (kzalloc_ok site_token_buffer).
  2:{ apply Hfail; [done| |done]. simpl. etrans; [done|]. by eapply upd_session_step. }
  set (R3 := upd_session R2 q _).
  assert (sess_step (cs_reg k) R3) as HS3 by (etrans; [done|]; by eapply upd_session_step).
  destruct (client_call_balanced R3 L fuel (CallParams d c2 q flags) (with_reg k2 R3))
    as (k4 & c4 & r4 & E4 & Ho4 & HL4 & Hs4); try done.
  { eapply global_call_pre; try done.
    - by eapply shares_like.
    - by rewrite (like_devs _ _ (proj1 HS3)).
    - by eapply step_live. }
  rewrite E4, ret_bind.
  assert (sess_step (cs_reg k) (cs_reg k4)) as HS4 by (etrans; [done|by split]).
  destruct (nonzero r4) eqn:E5; [by apply Hfail; [..|apply nonzero_true]|].
  destruct (step_live _ _ _ HS4 Hq) as [s4 Hq4].
  unfold init_new_sess_node at 1. rewrite (proj2 (at_index_Some _ _ _) Hq4), ret_bind.
  destruct Hp as [v Hv]. rewrite <- (like_services _ _ (proj1 HS4)) in Hv.
  rewrite (proj2 (at_index_Some _ _ _) Hv), !ret_bind.
  eexists _, _, _, (cs_reg k4). split; [done|]. split; [done|]. split; [done|].
  right. split; [by apply nonzero_false|]. unfold init_new_sess_node.
  by rewrite (proj2 (at_index_Some _ _ _) Hq4), ret_bind, (proj2 (at_index_Some _ _ _) Hv), ret_bind.
Qed.

(** The keys of all sessions but one. *)
Definition same_keys (q : Z) (R R' : registry) : Prop :=
  ∀ q', q' ≠ q → sess_key <$> g_sessions R' !! q' = sess_key <$> g_sessions R !! q'.

(** [q] is an open session of [d] with the TA [u], called [sid] by the TEE. *)
Definition session_open (R : registry) (d q : Z) (u : list Z) (sid : Z) : Prop :=
  ∃ p v s, g_services R !! p = Some v ∧ sv_uuid v = u ∧ q ∈ session_list v ∧
    g_sessions R !! q = Some s ∧ sess_key s = (sid, d, 1).

Lemma undo_open_inv (k : state) H d p q :
  reg_inv (cs_reg k) (add_free q (add_slot d p H)) → small (cs_reg k) (add_svc p H) →
  q ∉ r_free H → q ∉ r_sess H →
  ∃ R', undo_open k d p q = Ret (with_reg k R') ∧ reg_inv R' H ∧
    g_shared R' = g_shared (cs_reg k) ∧ dev_file_list R' = dev_file_list (cs_reg k) ∧
    (shares_ok (cs_reg k) → shares_ok R') ∧ same_keys q (cs_reg k) R' ∧ g_sessions R' !! q = None.
Proof.
  intros HI Hsm Hf Hs. destruct (inv_free _ _ HI q) as [[s Hqs] _]; [left|]. unfold undo_open.
  assert (∃ R1, free_session_token_buf (cs_reg k) q = Ret R1 ∧ sess_step (cs_reg k) R1)
    as (R1 & -> & HS1).
  { unfold free_session_token_buf. destruct (q =? 0); [by eexists|].
    rewrite (proj2 (at_index_Some _ _ _) Hqs), ret_bind. destruct (token_buffer _); [|by eexists].
    eexists. split; [done|]. by eapply upd_session_step. }
  rewrite ret_bind.
  assert (reg_inv R1 (add_slot d p (add_free q H))) as HI1 by (by eapply inv_like; [|apply HS1]).
  destruct (del_service_inv R1 (add_free q H) d p) as (R2 & -> & HI2 & Hfr & _); [done| |].
  { eapply small_frame; [|exact Hsm]. apply (like_dev_list _ _ (proj1 HS1)). }
  rewrite ret_bind. eexists. split; [done|]. split; [by apply inv_delete_free|].
  assert (shares_ok (cs_reg k) → shares_ok R2) as Hsh
    by (intros ?; by eapply shares_frame; [|eapply shares_like]).
  split_and!; [..|done| |].
  - simpl. rewrite (fr_shared _ _ Hfr). apply HS1.
  - simpl. rewrite (fr_devs _ _ Hfr). apply (like_dev_list _ _ (proj1 HS1)).
  - intros q' Hne. simpl. rewrite lookup_delete_ne, (fr_sessions _ _ Hfr) by done.
    apply (like_keys _ _ (proj1 HS1)).
  - simpl. apply lookup_delete_eq.
Qed.

(** What an opening leaves behind. *)
Definition open_post (k k' : state) (H : refs) (L : gset Z) (d q : Z) (u : list Z)
    (sid ret : Z) : Prop :=
  ba_owns (cs_pool k') L ∧ reg_inv (cs_reg k') H ∧ shares_ok (cs_reg k') ∧
  g_shared (cs_reg k') = g_shared (cs_reg k) ∧
  dev_file_list (cs_reg k') = dev_file_list (cs_reg k) ∧ same_keys q (cs_reg k) (cs_reg k') ∧
  (ret = 0 → session_open (cs_reg k') d q u sid) ∧
  (ret ≠ 0 → g_sessions (cs_reg k') !! q = None).

(** The part of an opening that has a session struct. *)
Lemma open_allocated g_root (k : state) H L d c p v q flags :
  reg_inv (cs_reg k) (add_slot d p H) → shares_ok (cs_reg k) → small (cs_reg k) (add_svc p H) →
  is_Some (g_devs (cs_reg k) !! d) → g_services (cs_reg k) !! p = Some v →
  g_sessions (cs_reg k) !! q = None → q ≠ 0 →
  nonzero (Z.land flags TC_CALL_GLOBAL) = true → ba_owns (cs_pool k) L → 0 ≤ file_size c < 2 ^ 32 →
  ∃ k' x ret,
    (res ← proc_open_session fuel g_root (with_reg k (upd_session (cs_reg k) q zero_session))
             d c p q flags;
     match res with
     | None => Ret None
     | Some (k, context, ret) =>
         if negb (nonzero ret) then Ret (Some (k, clear_context_param context, ret))
         else
           k ← undo_open k d p q;
           Ret (Some (k, clear_context_param context, ret))
     end) = Ret (Some (k', x, ret)) ∧ open_post k k' H L d q (sv_uuid v) (ctx_session_id x) ret.
Proof.
  intros HI Hsh Hsm Hd Hv Hq Hq0 Hg Ho Hfs.
  set (k3 := with_reg k (upd_session (cs_reg k) q zero_session)).
  assert (reg_inv (cs_reg k3) (add_free q (add_slot d p H))) as HI3 by by apply inv_new_session.
  assert (q ∉ r_free H) as Hqf.
  { intros Hin. destruct (inv_free _ _ HI _ Hin) as [[? ?] _]. congruence. }
  assert (q ∉ r_sess H) as Hqs.
  { intros Hin. destruct (inv_held_sess _ _ HI _ Hin) as [? ?]. congruence. }
  destruct (proc_open_cases g_root k3 (add_free q (add_slot d p H)) L d c p q flags)
    as (k4 & x & r & R5 & E4 & Ho4 & HS & Hc); try done.
  { by apply (small_less _ _ p). }
  { simpl. by rewrite lookup_insert_eq. }
  rewrite E4, ret_bind.
  assert (same_keys q (cs_reg k) R5) as Hkeys.
  { intros q' Hne. rewrite (like_keys _ _ (proj1 HS)). simpl. by rewrite lookup_insert_ne. }
  assert (reg_inv R5 (add_free q (add_slot d p H))) as HI5 by (by eapply inv_like; [|apply HS]).
  assert (shares_ok R5) as Hsh5 by by eapply shares_like.
  assert (dev_file_list R5 = dev_file_list (cs_reg k)) as Ed5 by apply (like_dev_list _ _ (proj1 HS)).
  destruct Hc as [[Hr Ek]|[-> Ein]].
  - rewrite (proj2 (nonzero_true r)) by done. cbn [negb].
    destruct (undo_open_inv k4 H d p q) as (R6 & -> & HI6 & Eg6 & Ed6 & Hsh6 & Hk6 & Hn6);
      rewrite ?Ek; try done; [by eapply small_frame|].
    rewrite Ek in *. rewrite ret_bind. eexists _, _, r. split; [done|]. split_and!; simpl; try done.
    + by apply Hsh6.
    + rewrite Eg6. apply HS.
    + congruence.
    + intros q' Hne. rewrite Hk6 by done. by apply Hkeys.
  - change (negb (nonzero 0)) with true. cbv iota.
    destruct (init_sess_node_inv R5 H d (ctx_session_id x) p q v)
      as (R6 & s & E6 & HI6 & Ed6 & Eg6 & El6 & Hw & Es & Ekey); try done.
    { by rewrite (like_services _ _ (proj1 HS)). }
    rewrite Ein in E6. injection E6 as <-.
    eexists _, _, 0. split; [done|]. split_and!; simpl; try done.
    + destruct Hsh5 as [? Hx]. split; rewrite Eg6; [done|]. rewrite Ed6. done.
    + rewrite Eg6. apply HS.
    + congruence.
    + intros q' Hne. rewrite Es, lookup_insert_ne by done. by apply Hkeys.
    + intros _. eexists p, _, s. split; [done|]. split; [done|]. simpl.
      rewrite Es, lookup_insert_eq. split_and!; try done.
      apply elem_of_app. right. by apply list_elem_of_singleton.
Qed.

Lemma open_session_inv g_root (k : state) H L d c kz_service kz_session :
  reg_inv (cs_reg k) H → shares_ok (cs_reg k) → small (cs_reg k) (add_svc 0 H) →
  is_Some (g_devs (cs_reg k) !! d) →
  (zero_or_null_ptr kz_service = false → g_services (cs_reg k) !! kz_service = None) →
  g_sessions (cs_reg k) !! kz_session = None →
  ba_owns (cs_pool k) L → 0 ≤ file_size c < 2 ^ 32 →
  ∃ k' x ret, tc_ns_open_session fuel g_root k d c kz_service kz_session = Ret (Some (k', x, ret)) ∧
    open_post k k' H L d kz_session (ctx_uuid c) (ctx_session_id x) ret.
Proof.
  intros HI Hsh Hsm Hd Hks Hkq Ho Hfs.
  assert (d ≠ 0) as Hd0 by (intros ->; by apply (inv_dev_null _ _ HI), (inv_dev_heap _ _ HI)).
  unfold tc_ns_open_session. rewrite (proj2 (Z.eqb_neq d 0)) by done.
  destruct (check_login_inv (cs_reg k) H (cs_mem k) d c TC_CALL_GLOBAL HI Hd)
    as (R1 & m1 & c1 & flags & r1 & -> & HI1 & Hf1 & Ev1 & Eu & Ef & Efl). rewrite ret_bind.
  assert (∀ (k' : state) x ret, slot_frame R1 (cs_reg k') → reg_inv (cs_reg k') H → ret ≠ 0 →
    cs_pool k' = cs_pool k → ∃ k1 x1 r1, Ret (Some (k', x, ret)) = Ret (Some (k1, x1, r1)) ∧
      open_post k k1 H L d kz_session (ctx_uuid c) (ctx_session_id x1) r1) as Hret.
  { intros k' x ret Hf HI' Hr Ep. assert (slot_frame (cs_reg k) (cs_reg k')) as Hf' by by etrans.
    exists k', x, ret. split; [done|]. split_and!; try done.
    - by rewrite Ep.
    - by eapply shares_frame.
    - apply (fr_shared _ _ Hf').
    - apply (fr_devs _ _ Hf').
    - intros q _. by rewrite (fr_sessions _ _ Hf').
    - intros _. by rewrite (fr_sessions _ _ Hf'). }
  destruct (nonzero r1) eqn:E1; [by apply Hret; [..|apply nonzero_true|]|].
  apply nonzero_false in E1. rewrite Efl by done. clear Efl.
  destruct (find_service_inv kz_service R1 H d (ctx_uuid c1)) as (R2 & p & E2 & Hf2 & Hfound); try done.
  { by eapply small_frame; [apply (fr_devs _ _ Hf1)|]. }
  { by eapply slot_frame_live. }
  { by rewrite Ev1. }
  cbn [cs_reg with_reg ctx_uuid ctx_with_cmd]. rewrite E2, ret_bind.
  destruct Hfound as [[-> HI2]|(Hp & HI2 & v & Hv & Hu)]; [by apply Hret|].
  rewrite (proj2 (Z.eqb_neq p 0)) by done.
  assert (slot_frame (cs_reg k) R2) as Hf12 by by etrans.
  assert (small R2 (add_svc p H)) as Hsm2 by (by eapply small_frame; [apply (fr_devs _ _ Hf12)|]).
  destruct (zero_or_null_ptr kz_session) eqn:Ekz.
  { destruct (del_service_inv R2 H d p) as (R3 & E3 & HI3 & Hf3 & _); [done..|].
    cbn [cs_reg with_reg]. rewrite E3, ret_bind. by apply Hret; [etrans|..]. }
  destruct (open_allocated g_root (with_reg (with_reg (with_mem k m1) R1) R2) H L d
    (ctx_with_cmd c1 GLOBAL_CMD_ID_OPEN_SESSION) p v kz_session (Z.lor TC_CALL_GLOBAL TC_CALL_LOGIN))
    as (k' & x & ret & E & Hpost); try done.
  { by eapply shares_frame. }
  { by eapply slot_frame_live. }
  { simpl. by rewrite (fr_sessions _ _ Hf12). }
  { by intros ->. }
  { simpl. by rewrite Ef. }
  exists k', x, ret. split; [exact E|]. rewrite Hu, Eu in Hpost.
  destruct Hpost as (? & ? & ? & Eg & Edl & Hk & ? & ?). simpl in Eg, Edl. split_and!; try done.
  - rewrite Eg. apply (fr_shared _ _ Hf12).
  - rewrite Edl. apply (fr_devs _ _ Hf12).
  - intros q Hne. rewrite Hk by done. simpl. by rewrite (fr_sessions _ _ Hf12).
Qed.

End Mgr.
