(* ===== verification/SessUse.v ===== *)
(** * Using and closing sessions *)

From stdpp Require Import base gmap list.
From Stdlib Require Import ZArith Lia.
From S2P Require Import Prelude KernelApi TeeTypes Buffers Mailbox MailboxClaims SessReg.
From S2P Require Import SessLookup SessOk CallTypes Auth AuthCall AuthOk GpParams GpCall GpHeld.
From S2P Require Import GpAlloc GpCallThm GpClaims Tlogger TloggerSys Agent AgentReg TeecdAuth.
From S2P Require Import SessLoad SessMgr SessInv SessInvOps SessInvFind SessMgrThm.

(** ** Lookups that take a reference *)

Lemma get_service_cases R H d u :
  reg_inv R H → small R H → d ≠ 0 → is_Some (g_devs R !! d) →
  ∃ R1 p, get_service R d u = Ret (R1, p) ∧
    ((p = 0 ∧ R1 = R) ∨
     (p ≠ 0 ∧ reg_inv R1 (add_svc p H) ∧ same_but_services R R1 ∧
      ∃ v, g_services R1 !! p = Some v ∧ sv_uuid v = u ∧ uses R1 p d = true ∧
        ∃ v0, g_services R !! p = Some v0 ∧ sv_uuid v0 = u ∧ session_list v0 = session_list v)).
Proof.
  intros HI Hs Hd0 Hd. unfold get_service.
  destruct (tc_find_service_in_dev_total R d u (reg_inv_ok _ _ HI Hs)) as (p & E); [done|].
  rewrite E, ret_bind. destruct (decide (p = 0)) as [->|Hp]; [by exists R, 0; split; [|left]|].
  destruct (tc_find_service_in_dev_found _ _ _ _ E Hp) as (x & i & v & Hx & Hi & Hv & Hu).
  destruct (get_service_inv R H p v HI Hs Hv) as [-> HI']. rewrite ret_bind.
  eexists _, p. split; [done|]. right. split_and!; try done.
  exists (with_sv_usage v (sv_usage v + 1)). simpl. rewrite lookup_insert_eq. split_and!; try done.
  - apply uses_spec. exists x. split; [done|]. by eapply list_elem_of_lookup_2.
  - by exists v.
Qed.

Lemma get_session_cases R H p v d sid :
  reg_inv R H → small R H → g_services R !! p = Some v → d ≠ 0 →
  ∃ R1 q, get_session R p d sid = Ret (R1, q) ∧
    ((q = 0 ∧ R1 = R) ∨
     (q ≠ 0 ∧ q ∈ session_list v ∧ ∃ s, g_sessions R !! q = Some s ∧ session_id s = sid ∧
        owner s = d ∧ R1 = upd_session R q (with_usage s (s_usage s + 1)) ∧
        reg_inv R1 (add_sess q H))).
Proof.
  intros HI Hs Hv Hd. unfold get_session. rewrite (proj2 (at_index_Some _ _ _) Hv), ret_bind.
  unfold tc_find_session_withowner. rewrite (proj2 (Z.eqb_neq d 0)) by done.
  destruct (find_session_loop_total R sid d (session_list v)) as (q & E).
  { intros q Hq. by apply (reg_session_list _ (reg_inv_ok _ _ HI Hs) p v q). }
  rewrite E, ret_bind. destruct (decide (q = 0)) as [->|Hq]; [by exists R, 0; split; [|left]|].
  destruct (find_session_loop_found _ _ _ _ _ E Hq) as (Hin & s & Hqs & Eid & Eow).
  destruct (get_session_inv R H p v q HI Hs Hv Hin) as (s' & Hs' & -> & HI').
  rewrite Hqs in Hs'. injection Hs' as <-. rewrite ret_bind.
  eexists _, q. split; [done|]. right. split_and!; try done. by exists s.
Qed.

(** Giving a service back while a device file uses it. *)
Lemma put_used_service R H p v d :
  reg_inv R (add_svc p H) → small R (add_svc p H) → g_services R !! p = Some v →
  uses R p d = true →
  ∃ R' w, put_service_struct R p = Ret R' ∧ reg_inv R' H ∧ same_but_services R R' ∧
    g_services R' !! p = Some w ∧ session_list w = session_list v ∧ uses R' p d = true.
Proof.
  intros HI Hs Hv Hu. pose proof (service_not_null _ _ _ _ HI Hv) as Hp0.
  destruct (put_service_inv R H p v) as (R' & E & HI' & Hsb & _ & Hw); [done..|].
  pose proof Hsb as (_ & Ed & _).
  assert (uses R' p d = true) as Hu' by (unfold uses in *; by rewrite Ed).
  destruct (uses_live _ _ _ _ HI' Hu' Hp0) as [w Hw']. exists R', w.
  destruct (Hw w Hw'). done.
Qed.

(** Room for one more reference of each kind. *)
Lemma small_refs R R' H p q :
  small R (add_sess 0 (add_svc 0 H)) → dev_file_list R' = dev_file_list R →
  small R' H ∧ small R' (add_svc p H) ∧ small R' (add_sess q H) ∧ small R' (add_svc p (add_sess q H)).
Proof. unfold small. intros Hs ->. simpl in *. lia. Qed.

(** A session found in [R] by uuid and id: the service is held in [R1], both
    are in [R2]. *)
Record held_session (R : registry) (H : refs) (d : Z) (u : list Z) (sid : Z) (R1 : registry)
    (p q : Z) (R2 : registry) (v v0 : tc_ns_service) (s : tc_ns_session) : Prop := {
  hs_service : g_services R1 !! p = Some v;
  hs_uses : uses R1 p d = true;
  hs_old : g_services R !! p = Some v0 ∧ sv_uuid v0 = u ∧ session_list v0 = session_list v;
  hs_session : q ∈ session_list v ∧ g_sessions R1 !! q = Some s;
  hs_key : session_id s = sid ∧ owner s = d;
  hs_inv1 : reg_inv R1 (add_svc p H);
  hs_taken : R2 = upd_session R1 q (with_usage s (s_usage s + 1));
  hs_inv : reg_inv R2 (add_sess q (add_svc p H))
}.

(** The lookups at the start of a request on a session, each of which may
    fail; after the second failure the service is given back. *)
Lemma session_lookup R H d u sid :
  reg_inv R H → small R (add_sess 0 (add_svc 0 H)) → d ≠ 0 → is_Some (g_devs R !! d) →
  ∃ R1 p, get_service R d u = Ret (R1, p) ∧
    ((p = 0 ∧ R1 = R) ∨
     (p ≠ 0 ∧ slot_frame R R1 ∧ ∃ R2 q, get_session R1 p d sid = Ret (R2, q) ∧
       ((q = 0 ∧ R2 = R1 ∧
           ∃ R3, put_service_struct R1 p = Ret R3 ∧ reg_inv R3 H ∧ slot_frame R R3) ∨
        (q ≠ 0 ∧ ∃ v v0 s, held_session R H d u sid R1 p q R2 v v0 s)))).
Proof.
  intros HI Hsm Hd0 Hd.
  destruct (get_service_cases R H d u HI) as (R1 & p & E1 & Hc); [by apply (small_refs R R H 0 0)|done..|].
  exists R1, p. split; [done|].
  destruct Hc as [[-> ->]|(Hp & HI1 & Hf1 & v & Hv & Hu & Hus & v0 & Hv0)]; [by left|right].
  pose proof (same_but_services_frame _ _ Hf1) as Hs1. split; [done|]. split; [done|].
  assert (small R1 (add_svc p H)) as Hs by (eapply (small_refs R R1 H p 0); [done|apply Hs1]).
  destruct (get_session_cases R1 (add_svc p H) p v d sid) as (R2 & q & E2 & Hc); try done.
  exists R2, q. split; [done|].
  destruct Hc as [[-> ->]|(Hq & Hin & s & Hqs & Eid & Eow & -> & HI2)].
  - left. split; [done|]. split; [done|].
    destruct (put_used_service R1 H p v d) as (R3 & w & E3 & HI3 & Hf3 & _); try done.
    exists R3. split_and!; [done|done|]. etrans; [done|by apply same_but_services_frame].
  - right. split; [done|]. exists v, v0, s. by split.
Qed.

Section Use.
Context {Env St : Type} {BA : BlockAllocator St} {BAL : BlockAllocatorLaws St BA}.
Context {SMC : SmcChannel Env} {TB : TeeBehaviour Env SMC}.
Context {P : PageMap} {SC : SecureC} {SB : SecureBuf} {CM : ClientMem} {UA : UserAccess}.
Context {KR : KernelRandom} {KC : KernelCipher} {KA : KernelAlloc} {CU : Current}.
Context {VV : VirtValid} {VL : VirtValidLaws St BA VV} {CR : Caller} {DL : DevLayout}.
Context (fuel : nat) (Hfuel : ∀ e m o c, (tee_rank (tc_ns_smc e m o c).1.1.1.1 < fuel)%nat).

Abbreviation state := (call_state Env St).

(** The part of a registry's state that a balanced operation restores. *)
Record restored (k k' : state) (H : refs) (L : gset Z) : Prop := {
  res_pool : ba_owns (cs_pool k') L;
  res_inv : reg_inv (cs_reg k') H;
  res_shares : shares_ok (cs_reg k');
  res_shared : g_shared (cs_reg k') = g_shared (cs_reg k);
  res_devs : dev_file_list (cs_reg k') = dev_file_list (cs_reg k)
}.

Definition all_keys (R R' : registry) : Prop :=
  ∀ q, sess_key <$> g_sessions R' !! q = sess_key <$> g_sessions R !! q.

Lemma frame_restored (k k' : state) H L :
  ba_owns (cs_pool k') L → reg_inv (cs_reg k') H → shares_ok (cs_reg k) →
  slot_frame (cs_reg k) (cs_reg k') → restored k k' H L.
Proof. intros ? ? ? Hf. split; try apply Hf; try done. by eapply shares_frame. Qed.

Lemma session_call_pre R H d c q flags :
  reg_inv R H → small R H → shares_ok R → is_Some (g_devs R !! d) → is_Some (g_sessions R !! q) →
  call_pre R (CallParams d c q flags).
Proof.
  intros HI Hs [Hs1 Hs2] Hd Hq. split; simpl; try done.
  - intros _. by eapply reg_inv_ok.
  - split; [done|by right].
  - intros x p Hx. by apply (Hs2 d x).
Qed.

(** The keys of the sessions after a reference to [q] was taken, a call made
    and the reference given back. *)
Lemma keys_back R1 R3 R4 q s s4 :
  g_sessions R1 !! q = Some s → g_sessions R3 = <[q := with_usage s (s_usage s + 1)]> (g_sessions R1) →
  all_keys R3 R4 → g_sessions R4 !! q = Some s4 →
  all_keys R1 (upd_session R4 q (with_usage s4 (s_usage s4 - 1))).
Proof.
  intros Hs E3 Hk Hs4 q'. specialize (Hk q'). rewrite E3 in Hk. simpl. unfold sess_key in *.
  destruct (decide (q = q')) as [<-|Hne].
  - rewrite lookup_insert_eq in *. rewrite Hs4 in Hk. simpl in Hk. injection Hk as E1 E2 E4.
    rewrite Hs. simpl. rewrite E1, E2, E4. do 2 f_equal. lia.
  - rewrite lookup_insert_ne in * by done. done.
Qed.

(** [tc_ns_send_cmd] gives back the references it takes. *)
Lemma send_cmd_inv (k : state) H L d c :
  reg_inv (cs_reg k) H → shares_ok (cs_reg k) → small (cs_reg k) (add_sess 0 (add_svc 0 H)) →
  is_Some (g_devs (cs_reg k) !! d) → ba_owns (cs_pool k) L →
  ∃ k' x ret, tc_ns_send_cmd fuel k d c = Ret (Some (k', x, ret)) ∧ restored k k' H L ∧
    all_keys (cs_reg k) (cs_reg k').
Proof.
  intros HI Hsh Hsm Hd Ho.
  assert (d ≠ 0) as Hd0 by (intros ->; by apply (inv_dev_null _ _ HI), (inv_dev_heap _ _ HI)).
  unfold tc_ns_send_cmd. rewrite (proj2 (Z.eqb_neq d 0)) by done.
  destruct (session_lookup (cs_reg k) H d (ctx_uuid c) (ctx_session_id c) HI Hsm Hd0 Hd)
    as (R1 & p & -> & Hc). rewrite ret_bind.
  destruct Hc as [[-> ->]|(Hp & Hs1 & R2 & q & E2 & Hc)].
  { eexists _, _, _. split; [done|]. split; [|done]. by apply frame_restored. }
  rewrite (proj2 (Z.eqb_neq p 0)) by done. cbn [cs_reg with_reg]. rewrite E2, ret_bind.
  destruct Hc as [(-> & -> & R3 & -> & HI3 & Hf3)|(Hq & v & v0 & s & Hh)].
  { rewrite ret_bind. eexists _, _, _. split; [done|]. split; [by apply frame_restored|].
    intros q. simpl. by rewrite (fr_sessions _ _ Hf3). }
  pose proof Hh as [Hv Hus _ [Hin Hqs] _ HI1 -> HI2].
  set (R2 := upd_session R1 q _) in *.
  assert (∀ R, dev_file_list R = dev_file_list (cs_reg k) → small R (add_sess q H)) as Hsq
    by (intros R E; by eapply (small_refs (cs_reg k) R H 0 q)).
  destruct (put_used_service R2 (add_sess q H) p v d) as (R3 & w & -> & HI3 & Hf3 & Hw & El & _); try done.
  { eapply (small_refs (cs_reg k) R2 H p q); [done|apply Hs1]. }
  rewrite ret_bind, (proj2 (Z.eqb_neq q 0)) by done. pose proof Hf3 as (Es3 & Ed3 & Eg3 & El3 & _).
  assert (shares_ok R3) as Hsh3.
  { eapply shares_frame; [by apply same_but_services_frame|]. apply shares_upd_session.
    by eapply shares_frame. }
  destruct (client_call_balanced R3 L fuel (CallParams d c q 0) (with_reg (with_reg k R1) R3))
    as (k4 & x & r & E4 & Ho4 & HL4 & Hs4); try done.
  { eapply (session_call_pre _ (add_sess q H)); try done.
    - apply Hsq. rewrite El3. apply Hs1.
    - rewrite Ed3. by apply (slot_frame_live (cs_reg k) R1).
    - rewrite Es3. simpl. by rewrite lookup_insert_eq. }
  cbn [with_reg cs_reg] in E4 |- *. rewrite E4, ret_bind.
  assert (reg_inv (cs_reg k4) (add_sess q H)) as HI4 by by eapply inv_like.
  assert (dev_file_list (cs_reg k4) = dev_file_list (cs_reg k)) as Ed4.
  { rewrite (like_dev_list _ _ HL4), El3. apply Hs1. }
  destruct (put_session_inv (cs_reg k4) H p w q) as (s4 & Hq4 & -> & HI5);
    [done|by apply Hsq|by rewrite (like_services _ _ HL4)|by rewrite El|].
  rewrite ret_bind. eexists _, _, _. split; [done|]. split; [split; simpl; try done|].
  - apply shares_upd_session. eapply shares_like; [|done]. by split.
  - rewrite Hs4, Eg3. apply Hs1.
  - intros q'. rewrite <- (fr_sessions _ _ Hs1).
    by apply (keys_back R1 R3 (cs_reg k4) q s s4 Hqs Es3 (like_keys _ _ HL4) Hq4 q').
Qed.

Lemma close_session_call (k : state) L d q u sid :
  shares_ok (cs_reg k) → is_Some (g_devs (cs_reg k) !! d) →
  is_Some (g_sessions (cs_reg k) !! q) → ba_owns (cs_pool k) L →
  ∃ k' ret, close_session fuel k d q u UUID_LEN sid = Ret (Some (k', ret)) ∧
    ba_owns (cs_pool k') L ∧ sess_step (cs_reg k) (cs_reg k').
Proof.
  intros Hsh Hd Hq Ho. unfold close_session. rewrite Z.eqb_refl. cbn [negb].
  destruct (client_call_balanced (cs_reg k) L fuel (CallParams d (close_context u sid) q
    (Z.lor TC_CALL_GLOBAL TC_CALL_SYNC)) k) as (k' & x & r & -> & Ho' & HL & Hs); try done.
  { by eapply global_call_pre. }
  rewrite ret_bind. by exists k', r.
Qed.

(** The last two references of a session. *)
Lemma put_twice R q s :
  g_sessions R !! q = Some s → s_usage s = 2 → q ≠ 0 →
  (R ← put_session_struct R q; put_session_struct R q)
    = Ret (set_sessions R (delete q (g_sessions R))).
Proof.
  intros Hs Hu Hq. unfold put_session_struct. rewrite (proj2 (Z.eqb_neq q 0)) by done.
  rewrite (proj2 (at_index_Some _ _ _) Hs), ret_bind, Hu, atomic_dec_small by lia.
  change (2 - 1 =? 0) with false. cbv iota. rewrite ret_bind.
  assert (g_sessions (upd_session R q (with_usage s (2 - 1))) !! q = Some (with_usage s 1)) as Hs'
    by apply lookup_insert_eq.
  rewrite (proj2 (at_index_Some _ _ _) Hs'), ret_bind. cbn [s_usage with_usage].
  rewrite atomic_dec_small by lia. change (1 - 1 =? 0) with true. cbv iota.
  unfold set_sessions, upd_session. simpl. by rewrite delete_insert_eq.
Qed.

(** A session in use leaves its list and is freed: [wipe_secure_info],
    [del_session_node] and two [put_session_struct]. *)
Lemma release_session R H p v q s :
  reg_inv R (add_sess q H) → r_sess H = [] → g_services R !! p = Some v → q ∈ session_list v →
  g_sessions R !! q = Some s →
  ∃ R', (R ← wipe_secure_info R q; R ← del_session_node R p q; R ← put_session_struct R q;
         put_session_struct R q) = Ret R' ∧
    reg_inv R' (add_slot (owner s) p H) ∧ slot_frame (set_sessions R (g_sessions R')) R' ∧
    g_sessions R' = delete q (g_sessions R).
Proof.
  intros HI Hrs Hv Hin Hs. destruct (inv_listed _ _ HI p v q Hv Hin) as (Hq0 & s0 & Hs0 & Hu & _).
  rewrite Hs in Hs0. injection Hs0 as <-. cbn [add_sess r_sess] in Hu.
  rewrite cnt_eqb_cons, Z.eqb_refl, Hrs in Hu. change (s_usage s = 2) in Hu.
  assert (q ∉ r_free H) as Hqf by (by apply (listed_not_free R (add_sess q H) p v)).
  unfold wipe_secure_info. rewrite (proj2 (at_index_Some _ _ _) Hs), !ret_bind.
  set (s1 := with_secure_info s zero_secure_info).
  assert (reg_inv (upd_session R q s1) (add_sess q H)) as HI1.
  { eapply inv_like; [done|]. by eapply upd_session_like. }
  assert (g_sessions (upd_session R q s1) !! q = Some s1) as Hs1 by apply lookup_insert_eq.
  unfold del_session_node, unlink. cbn [g_services upd_session set_sessions].
  rewrite (proj2 (at_index_Some _ _ _) Hv), ret_bind, decide_True, !ret_bind by done.
  set (R2 := upd_service (upd_session R q s1) p _).
  assert (reg_inv R2 (add_free q (add_slot (owner s) p H))) as HI2.
  { apply (inv_unlink (upd_session R q s1) (add_sess q H) _ p v q s1); try done; simpl.
    - intros q' Hne. rewrite (proj2 (Z.eqb_neq q' q)) by done. simpl. lia.
    - intros q'. by right. }
  assert (g_sessions R2 !! q = Some s1) as Hs2 by apply lookup_insert_eq.
  rewrite (put_twice R2 q s1) by done. eexists. split; [done|]. split; [|split; [by split|]].
  { apply inv_delete_free; [done..|]. simpl. rewrite Hrs. apply not_elem_of_nil. }
  simpl. by rewrite delete_insert_eq.
Qed.

(** The rest of [tc_ns_close_session] after the TEE's answer. *)
Lemma close_rest R H d p v q s :
  reg_inv R (add_sess q (add_svc p H)) → r_sess H = [] → small R (add_sess 0 (add_svc 0 H)) →
  g_services R !! p = Some v → q ∈ session_list v → g_sessions R !! q = Some s → owner s = d →
  ∃ R', (R ← wipe_secure_info R q; R ← del_session_node R p q; R ← put_session_struct R q;
         R ← put_session_struct R q; R ← del_service_from_dev R d p; put_service_struct R p) = Ret R' ∧
    reg_inv R' H ∧ slot_frame (set_sessions R (g_sessions R')) R' ∧
    g_sessions R' = delete q (g_sessions R).
Proof.
  intros HI Hrs Hsm Hv Hin Hs <-.
  destruct (release_session R (add_svc p H) p v q s) as (R4 & E4 & HI4 & Hf4 & Es4); try done.
  apply bind_Ret in E4 as (Ra & -> & E4). rewrite ret_bind.
  apply bind_Ret in E4 as (Rb & -> & E4). rewrite ret_bind.
  apply bind_Ret in E4 as (Rc & -> & E4). rewrite ret_bind, E4, ret_bind.
  pose proof (fr_devs _ _ Hf4) as Ed4. simpl in Ed4.
  destruct (del_service_inv R4 (add_svc p H) (owner s) p HI4) as (R5 & -> & HI5 & Hf5 & _).
  { unfold small in *. rewrite Ed4. simpl in *. lia. }
  rewrite ret_bind. destruct (inv_held_svc _ _ HI5 p) as [v5 Hv5]; [left|].
  pose proof (fr_devs _ _ Hf5) as Ed5.
  destruct (put_service_inv R5 H p v5 HI5) as (R6 & -> & HI6 & Hf6%same_but_services_frame & _); [|done|].
  { eapply (small_refs R R5 H p 0); congruence. }
  assert (slot_frame R4 R6) as Hf46 by by etrans. pose proof (fr_sessions _ _ Hf46) as E6.
  exists R6. split_and!; [done|done| |congruence]. rewrite E6. by etrans.
Qed.

(** The session that is closed was open. *)
Lemma held_session_open R H d u sid R1 p q R2 v v0 s :
  held_session R H d u sid R1 p q R2 v v0 s → r_sess H = [] → g_sessions R1 = g_sessions R →
  session_open R d q u sid.
Proof.
  intros [Hv _ (Hv0 & Hu0 & El0) [Hin Hqs] [<- <-] HI1 _ _] Hrs Es. exists p, v0, s. rewrite El0.
  split_and!; try done; [by rewrite <- Es|]. unfold sess_key. do 2 f_equal.
  rewrite (listed_usage R1 (add_svc p H) p v q s) by done. simpl. by rewrite Hrs.
Qed.

(** [tc_ns_close_session] removes the session it finds, or changes nothing. *)
Lemma close_session_inv (k : state) H L d c :
  reg_inv (cs_reg k) H → r_sess H = [] → shares_ok (cs_reg k) →
  small (cs_reg k) (add_sess 0 (add_svc 0 H)) →
  is_Some (g_devs (cs_reg k) !! d) → ba_owns (cs_pool k) L →
  ∃ k' ret, tc_ns_close_session fuel k d c = Ret (Some (k', ret)) ∧ restored k k' H L ∧
    (ret ≠ 0 → all_keys (cs_reg k) (cs_reg k')) ∧
    (ret = 0 → ∃ q, session_open (cs_reg k) d q (ctx_uuid c) (ctx_session_id c) ∧
       same_keys q (cs_reg k) (cs_reg k') ∧ g_sessions (cs_reg k') !! q = None).
Proof.
  intros HI Hrs Hsh Hsm Hd Ho.
  assert (d ≠ 0) as Hd0 by (intros ->; by apply (inv_dev_null _ _ HI), (inv_dev_heap _ _ HI)).
  unfold tc_ns_close_session. rewrite (proj2 (Z.eqb_neq d 0)) by done.
  destruct (session_lookup (cs_reg k) H d (ctx_uuid c) (ctx_session_id c) HI Hsm Hd0 Hd)
    as (R1 & p & -> & Hc). rewrite ret_bind.
  destruct Hc as [[-> ->]|(Hp & Hs1 & R2 & q & E2 & Hc)].
  { eexists _, _. split; [done|]. split; [by apply frame_restored|done]. }
  rewrite (proj2 (Z.eqb_neq p 0)) by done. cbn [cs_reg with_reg]. rewrite E2, ret_bind.
  destruct Hc as [(-> & -> & R3 & E3 & HI3 & Hf3)|(Hq & v & v0 & s & Hh)].
  { cbn [Z.eqb cs_reg with_reg]. rewrite E3, ret_bind. eexists _, _. split; [done|].
    split; [by apply frame_restored|]. split; [|done]. intros _ q. simpl.
    by rewrite (fr_sessions _ _ Hf3). }
  rewrite (proj2 (Z.eqb_neq q 0)) by done.
  pose proof Hh as [Hv _ _ [Hin Hqs] [_ Eow] _ -> HI2]. set (R2 := upd_session R1 q _) in *.
  destruct (close_session_call (with_reg (with_reg k R1) R2) L d q
    (ctx_uuid c) (ctx_session_id c)) as (k3 & r & -> & Ho3 & HS3); try done.
  { simpl. apply shares_upd_session. by eapply shares_frame. }
  { by apply (slot_frame_live (cs_reg k) R1). }
  { simpl. by rewrite lookup_insert_eq. }
  rewrite ret_bind. pose proof HS3 as [HL3 Eg3]. simpl in HL3, Eg3.
  destruct (like_session R2 (cs_reg k3) q (with_usage s (s_usage s + 1)) HL3) as (s3 & Hs3 & Ek3);
    [apply lookup_insert_eq|].
  unfold sess_key in Ek3. simpl in Ek3. injection Ek3 as _ Eow3 _.
  assert (dev_file_list (cs_reg k3) = dev_file_list (cs_reg k)) as Ed3.
  { rewrite (like_dev_list _ _ HL3). apply (fr_devs _ _ Hs1). }
  destruct (close_rest (cs_reg k3) H d p v q s3) as (R6 & E6 & HI6 & Hf6 & Es6); try done.
  { by eapply inv_like. }
  { unfold small in *. by rewrite Ed3. }
  { by rewrite (like_services _ _ HL3). }
  { congruence. }
  do 5 (apply bind_Ret in E6 as (? & -> & E6); rewrite ret_bind). rewrite E6, ret_bind.
  eexists _, 0. split; [done|]. split; [split; simpl; try done|].
  - eapply shares_frame; [exact Hf6|].
    destruct (shares_like _ _ HS3) as [? ?]; [apply shares_upd_session; by eapply shares_frame|]. done.
  - rewrite (fr_shared _ _ Hf6). simpl. rewrite Eg3. apply (fr_shared _ _ Hs1).
  - rewrite (fr_devs _ _ Hf6). simpl. congruence.
  - split; [done|]. intros _. exists q.
    split; [exact (held_session_open _ _ _ _ _ _ _ _ _ _ _ _ Hh Hrs (fr_sessions _ _ Hs1))|].
    split; [|simpl; by rewrite Es6, lookup_delete_eq].
    intros q' Hne. simpl. rewrite Es6, lookup_delete_ne, (like_keys _ _ HL3) by done. simpl.
    by rewrite lookup_insert_ne, (fr_sessions _ _ Hs1) by done.
Qed.

End Use.
