(* ===== verification/Login.v ===== *)
(** * Login information of a device file (core/tc_client_driver.c)

    The daemon sends a certificate buffer
    [name_len || name || key_len || key]; the driver stores its parts in the
    device file, once. *)

From stdpp Require Import base gmap list.
From Stdlib Require Import ZArith Lia.
From S2P Require Import Prelude KernelApi TeeTypes Buffers Mailbox SessReg CallTypes GpParams.
From S2P Require Import Agent TeecdAuth SessLoad SessMgr TeecdClaims.

(** ** [strncpy_s] of the bounded C library *)

(** The bytes before the first NUL. *)
Fixpoint cstr (l : list Z) : list Z :=
  match l with [] => [] | c :: l => if c =? 0 then [] else c :: cstr l end.

(** [str_ncopy dst destMax src soff count]: the status and the destination. *)
Class SecureStr := {
  str_ncopy : list Z → Z → list Z → Z → Z → Z * list Z
}.

(** Copies at most [count] bytes up to the first NUL, and a NUL. *)
Class SecureStrLaws (S : SecureStr) := {
  str_ncopy_ok dst destMax src soff count :
    0 < destMax ≤ SECUREC_MEM_MAX_LEN → 0 ≤ count < destMax →
    str_ncopy dst destMax src soff count
      = (EOK, splice dst 0 (cstr (sub_buf src soff count) ++ [0]))
}.

Definition bounds_str : SecureStr := {|
  str_ncopy dst destMax src soff count :=
    if (0 <? destMax) && (destMax <=? SECUREC_MEM_MAX_LEN) && (0 <=? count) && (count <? destMax)
    then (EOK, splice dst 0 (cstr (sub_buf src soff count) ++ [0])) else (EINVAL, dst)
|}.

#[export] Instance bounds_str_laws : SecureStrLaws bounds_str.
Proof.
  split; intros dst m src o c [H1 H2] [H3 H4]. simpl.
  by rewrite (proj2 (Z.ltb_lt _ _) H1), (proj2 (Z.leb_le _ _) H2), (proj2 (Z.leb_le _ _) H3),
    (proj2 (Z.ltb_lt _ _) H4).
Qed.

(** ** Fields of the device file *)

Definition df_with_name (d : tc_ns_dev_file) (len : Z) (name : list Z) : tc_ns_dev_file :=
  DevFile (df_id d) (service_ref d) (services d) (kernel_api d) (login_setup d) len name
    (pub_key_len d) (pub_key d) (load_app_flag d) (shared_mem_list d).

Definition df_with_login (d : tc_ns_dev_file) (b : bool) : tc_ns_dev_file :=
  DevFile (df_id d) (service_ref d) (services d) (kernel_api d) b (pkg_name_len d) (pkg_name d)
    (pub_key_len d) (pub_key d) (load_app_flag d) (shared_mem_list d).

Section Login.
Context {SB : SecureBuf} {SS : SecureStr} {CM : ClientMem}.
Context {HS : Shash} {TK : Task} {CR : Caller}.

(** [cert_buffer] is the position in the buffer [cert]. *)
Definition get_pack_name_len (d : tc_ns_dev_file) (cert : list Z) (cert_buffer : Z)
    : tc_ns_dev_file * Z :=
  let d := df_with_name d 0 (pkg_name d) in
  let '(r, l) := buf_copy (replicate 4 0) 0 4 cert cert_buffer 4 in
  if nonzero r then (d, - EFAULT)
  else
    let tmp_len := le_value l in
    if (tmp_len =? 0) || (MAX_PACKAGE_NAME_LEN <=? tmp_len) then (d, - EINVAL)
    else (df_with_name d tmp_len (pkg_name d), 0).

Definition get_public_key_len (d : tc_ns_dev_file) (cert : list Z) (cert_buffer : Z)
    : tc_ns_dev_file * Z :=
  let d := df_with_pub_key d 0 (pub_key d) in
  let '(r, l) := buf_copy (replicate 4 0) 0 4 cert cert_buffer 4 in
  if nonzero r then (d, - EFAULT)
  else
    let tmp_len := le_value l in
    if MAX_PUBKEY_LEN <? tmp_len then (d, - EINVAL)
    else (df_with_pub_key d tmp_len (pub_key d), 0).

Definition get_public_key (d : tc_ns_dev_file) (cert : list Z) (cert_buffer : Z)
    : tc_ns_dev_file * Z :=
  if pub_key_len d =? 0 then (d, 0)
  else
    let '(r, key) := buf_copy (pub_key d) 0 MAX_PUBKEY_LEN cert cert_buffer (pub_key_len d) in
    let d := df_with_pub_key d (pub_key_len d) key in
    if nonzero r then (d, - EINVAL) else (d, 0).

Definition MAX_BUF_LEN : Z := 4096.

Definition is_cert_buffer_size_valid (cert_buffer_size : Z) : bool :=
  negb ((MAX_BUF_LEN <? cert_buffer_size) || (cert_buffer_size =? 0)).

(** The status and [*cert_buffer_size]; [kmalloc_ok] is the outcome of
    [kmalloc], [h] the handle a new [crypto_alloc_shash] returns. *)
Definition alloc_login_buf (t : teecd) (h : Z) (kmalloc_ok : bool) : outcome (teecd * Z * Z) :=
  '(t, r) ← check_teecd_access t h;
  if nonzero r then Ret (t, - EACCES, 0)
  else
    let cert_buffer_size := MAX_PACKAGE_NAME_LEN + MAX_PUBKEY_LEN + 4 + 4 in
    Ret (t, if kmalloc_ok then 0 else - ENOMEM, cert_buffer_size).

(** The status and the bytes of the buffer. *)
Definition client_login_prepare (m : mem) (buffer cert_buffer_size : Z) : Z * list Z :=
  if negb (is_cert_buffer_size_valid cert_buffer_size) then (- EINVAL, [])
  else
    let '(left_over, l) := copy_from_user m buffer cert_buffer_size in
    if nonzero left_over then (- EINVAL, l) else (0, l).

(** From [get_pack_name_len] to the label [error]. *)
Definition parse_login (d : tc_ns_dev_file) (cert : list Z) : tc_ns_dev_file * Z :=
  let '(d, ret) := get_pack_name_len d cert 0 in
  if nonzero ret then (d, ret)
  else
    let '(r, name) := str_ncopy (pkg_name d) MAX_PACKAGE_NAME_LEN cert 4 (pkg_name_len d) in
    let d := df_with_name d (pkg_name_len d) name in
    if nonzero r then (d, - ENOMEM)
    else
      let '(d, ret) := get_public_key_len d cert (4 + pkg_name_len d) in
      if nonzero ret then (d, ret)
      else
        let '(d, ret) := get_public_key d cert (4 + pkg_name_len d + 4) in
        (df_with_login d true, ret).

Definition tc_ns_client_login_func (t : teecd) (h : Z) (m : mem) (R : registry)
    (dev_file buffer : Z) (kmalloc_ok : bool) : outcome (teecd * registry * Z) :=
  if dev_file =? 0 then Ret (t, R, - EINVAL)
  else
    d ← at_index (g_devs R) dev_file;
    if buffer =? 0 then
      Ret (t, upd_dev R dev_file (df_with_pub_key (df_with_name d 0 (pkg_name d)) 0 (pub_key d)), 0)
    else if login_setup d then Ret (t, R, - EINVAL)
    else
      '(t, ret, cert_buffer_size) ← alloc_login_buf t h kmalloc_ok;
      if nonzero ret then Ret (t, R, ret)
      else
        let '(r, cert) := client_login_prepare m buffer cert_buffer_size in
        if nonzero r then Ret (t, R, - EINVAL)
        else
          let '(d, ret) := parse_login d cert in
          Ret (t, upd_dev R dev_file d, ret).

End Login.

(** * What a login leaves in the device file *)

(** The buffer the daemon sends. *)
Definition login_cert (name key pad : list Z) : list Z :=
  le_bytes 4 (zlen name) ++ name ++ le_bytes 4 (zlen key) ++ key ++ pad.

Lemma cstr_nonzero l r : Forall (λ c, c ≠ 0) l → cstr (l ++ 0 :: r) = l.
Proof.
  induction 1 as [|c l Hc _ IH]; simpl; [done|]. rewrite (proj2 (Z.eqb_neq c 0)) by done. by rewrite IH.
Qed.

Lemma cstr_all l : Forall (λ c, c ≠ 0) l → cstr l = l.
Proof.
  induction 1 as [|c l Hc _ IH]; simpl; [done|]. rewrite (proj2 (Z.eqb_neq c 0)) by done. by rewrite IH.
Qed.

(** The part of a concatenation after a prefix. *)
Lemma sub_buf_app l s r off n :
  off = zlen l → n = zlen s → sub_buf (l ++ s ++ r) off n = s.
Proof.
  intros -> ->. unfold sub_buf, zlen. rewrite !Nat2Z.id, drop_app_length. apply take_app_length.
Qed.

Lemma splice_full l s : length s = length l → splice l 0 s = s.
Proof.
  intros E. unfold splice. rewrite E, take_0, drop_ge by lia. apply app_nil_r.
Qed.

Lemma zlen_le_bytes n x : zlen (le_bytes n x) = Z.of_nat n.
Proof. unfold zlen. by rewrite le_bytes_length. Qed.

Section Login.
Context {SB : SecureBuf} {SBL : SecureBufLaws SB} {SS : SecureStr} {SSL : SecureStrLaws SS}.
Context {CM : ClientMem} {HS : Shash} {TK : Task} {CR : Caller}.

(** A length word of the buffer. *)
Lemma copy_len_word l r n :
  0 ≤ n < 2 ^ 32 →
  ∃ w, buf_copy (replicate 4 0) 0 4 (l ++ le_bytes 4 n ++ r) (zlen l) 4 = (EOK, w) ∧ le_value w = n.
Proof.
  intros Hn. rewrite buf_copy_ok by (unfold SECUREC_MEM_MAX_LEN; lia).
  rewrite sub_buf_app; [|done|by rewrite zlen_le_bytes]. eexists. split; [done|].
  rewrite splice_full by by rewrite le_bytes_length. by apply le_value_bytes.
Qed.

Lemma parse_login_cert d name key pad :
  0 < zlen name < MAX_PACKAGE_NAME_LEN → zlen key ≤ MAX_PUBKEY_LEN →
  Forall (λ c, c ≠ 0) name → zlen (pkg_name d) = MAX_PACKAGE_NAME_LEN →
  zlen (pub_key d) = MAX_PUBKEY_LEN →
  ∃ x, parse_login d (login_cert name key pad) = (x, 0) ∧
    pkg_name_len x = zlen name ∧ cstr (pkg_name x) = name ∧ pub_key_len x = zlen key ∧
    sub_buf (pub_key x) 0 (zlen key) = key ∧ login_setup x = true ∧
    services x = services d ∧ service_ref x = service_ref d ∧ shared_mem_list x = shared_mem_list d.
Proof.
  intros Hn Hk Hz Hd1 Hd2. unfold MAX_PACKAGE_NAME_LEN, MAX_PUBKEY_LEN in *.
  assert (0 ≤ zlen key) as Hk0 by (unfold zlen; lia).
  unfold parse_login, get_pack_name_len.
  destruct (copy_len_word [] (name ++ le_bytes 4 (zlen key) ++ key ++ pad) (zlen name))
    as (w & E & Ew); [lia|].
  change (zlen []) with 0 in E. cbn [app] in E. fold (login_cert name key pad) in E. rewrite E, Ew.
  cbn [nonzero Z.eqb negb]. change (nonzero EOK) with false. cbv iota.
  rewrite (proj2 (Z.eqb_neq (zlen name) 0)), (proj2 (Z.leb_gt MAX_PACKAGE_NAME_LEN (zlen name)))
    by (unfold MAX_PACKAGE_NAME_LEN; lia).
  cbn [orb]. change (nonzero 0) with false. cbv iota. cbn [pkg_name_len pkg_name df_with_name].
  rewrite str_ncopy_ok by (unfold SECUREC_MEM_MAX_LEN, MAX_PACKAGE_NAME_LEN; lia).
  assert (sub_buf (login_cert name key pad) 4 (zlen name) = name) as ->
    by (apply sub_buf_app; [by rewrite zlen_le_bytes|done]).
  change (nonzero EOK) with false. cbv iota. rewrite (cstr_all name) by done.
  unfold get_public_key_len. cbn [pkg_name_len df_with_name df_with_pub_key pub_key].
  destruct (copy_len_word (le_bytes 4 (zlen name) ++ name) (key ++ pad) (zlen key))
    as (w' & E' & Ew'); [lia|].
  assert (zlen (le_bytes 4 (zlen name) ++ name) = 4 + zlen name) as El.
  { unfold zlen. rewrite length_app, le_bytes_length. lia. }
  rewrite El, <- app_assoc in E'. fold (login_cert name key pad) in E'.
  rewrite E', Ew'. change (nonzero EOK) with false. cbv iota.
  rewrite (proj2 (Z.ltb_ge MAX_PUBKEY_LEN (zlen key))) by (unfold MAX_PUBKEY_LEN; lia). change (nonzero 0) with false. cbv iota.
  unfold get_public_key. cbn [pub_key_len df_with_pub_key pkg_name_len pub_key df_with_name].
  assert (cstr (splice (pkg_name d) 0 (name ++ [0])) = name) as Hname.
  { unfold splice. simpl. rewrite <- app_assoc. by apply cstr_nonzero. }
  destruct (Z.eqb_spec (zlen key) 0) as [E0|E0].
  - eexists. split; [done|]. split_and!; try done. simpl. rewrite E0.
    destruct key; [done|]. by unfold zlen in E0.
  - rewrite buf_copy_ok by (unfold SECUREC_MEM_MAX_LEN, MAX_PUBKEY_LEN; lia).
    assert (login_cert name key pad
      = (le_bytes 4 (zlen name) ++ name ++ le_bytes 4 (zlen key)) ++ key ++ pad) as ->
      by (unfold login_cert; by rewrite !app_assoc).
    rewrite sub_buf_app; [| |done].
    2:{ unfold zlen. rewrite !length_app, !le_bytes_length. lia. }
    change (nonzero EOK) with false. cbv iota. eexists. split; [done|]. split_and!; try done.
    simpl. apply sub_buf_splice_same; unfold zlen in *; lia.
Qed.

(** A login stores what the daemon sent, and only once.  When the daemon
    passes the access check and no login has been made, a certificate buffer
    with a name of 1 to 254 bytes and a key of at most 1024 bytes ends with
    status 0 and exactly that name and key, and their lengths, in the device
    file; its slots and shared buffers are untouched.  Every later login with a
    buffer is refused and changes nothing. *)
Theorem login_stores_cert t t' h m R dev d buffer name key pad :
  dev ≠ 0 → buffer ≠ 0 → g_devs R !! dev = Some d → login_setup d = false →
  zlen (pkg_name d) = MAX_PACKAGE_NAME_LEN → zlen (pub_key d) = MAX_PUBKEY_LEN →
  check_teecd_access t h = Ret (t', 0) →
  copy_from_user m buffer 1287 = (0, login_cert name key pad) →
  0 < zlen name < MAX_PACKAGE_NAME_LEN → zlen key ≤ MAX_PUBKEY_LEN → Forall (λ c, c ≠ 0) name →
  ∃ x, tc_ns_client_login_func t h m R dev buffer true = Ret (t', upd_dev R dev x, 0) ∧
    pkg_name_len x = zlen name ∧ cstr (pkg_name x) = name ∧ pub_key_len x = zlen key ∧
    sub_buf (pub_key x) 0 (zlen key) = key ∧
    services x = services d ∧ service_ref x = service_ref d ∧ shared_mem_list x = shared_mem_list d ∧
    ∀ t1 h1 m1 b1 k1, b1 ≠ 0 →
      tc_ns_client_login_func t1 h1 m1 (upd_dev R dev x) dev b1 k1
        = Ret (t1, upd_dev R dev x, - EINVAL).
Proof.
  intros Hdev Hb Hd Hl Hn Hk Hacc Hcopy Hname Hkey Hz.
  destruct (parse_login_cert d name key pad) as (x & E & H1 & H2 & H3 & H4 & H5 & H6); [done..|].
  exists x. split; [|split_and!; try done; try apply H6].
  - unfold tc_ns_client_login_func, alloc_login_buf, client_login_prepare.
    rewrite (proj2 (Z.eqb_neq dev 0)), (proj2 (at_index_Some _ _ _) Hd), ret_bind by done.
    rewrite (proj2 (Z.eqb_neq buffer 0)), Hl, Hacc, !ret_bind by done.
    change (nonzero 0) with false. cbv iota. rewrite ret_bind. change (nonzero 0) with false. cbv iota.
    change (MAX_PACKAGE_NAME_LEN + MAX_PUBKEY_LEN + 4 + 4) with 1287.
    change (negb (is_cert_buffer_size_valid 1287)) with false. cbv iota.
    rewrite Hcopy. change (nonzero 0) with false. cbv iota. change (nonzero 0) with false. cbv iota.
    by rewrite E.
  - intros t1 h1 m1 b1 k1 Hb1. unfold tc_ns_client_login_func.
    rewrite (proj2 (Z.eqb_neq dev 0)) by done.
    assert (g_devs (upd_dev R dev x) !! dev = Some x) as Hx by (simpl; apply lookup_insert_eq).
    rewrite (proj2 (at_index_Some _ _ _) Hx), ret_bind.
    by rewrite (proj2 (Z.eqb_neq b1 0)), H5 by done.
Qed.

End Login.

(** ** A login *)

Definition demo_name : list Z := [99; 97].
Definition demo_cert : list Z := login_cert demo_name [1; 2; 3; 4] (replicate (Z.to_nat 1273) 0).

Definition demo_login_dev : tc_ns_dev_file :=
  DevFile 1 (replicate 32 0) (replicate 32 0) 0 false 0 (replicate (Z.to_nat 255) 0) 0
    (replicate (Z.to_nat 1024) 0) 0 [].

Definition demo_login_registry : registry :=
  Registry ∅ ∅ {[ 1000 := demo_login_dev ]} ∅ [] [1000] 2.

Definition demo_access : teecd :=
  match check_teecd_access (H := copy_hash) (TK := demo_task 4096 4196 plain_page)
          (CR := teecd_caller) teecd_init 0x8000 with
  | Ret (t, _) => t
  | Fault => teecd_init
  end.

Lemma login_stores_cert_witness :
  ∃ x, tc_ns_client_login_func (SB := bounds_buf) (SS := bounds_str) (CM := flat_client)
         (HS := copy_hash) (TK := demo_task 4096 4196 plain_page) (CR := teecd_caller)
         teecd_init 0x8000 (store_bytes ∅ 0x5000 demo_cert) demo_login_registry 1000 0x5000 true
       = Ret (demo_access, upd_dev demo_login_registry 1000 x, 0) ∧
    cstr (pkg_name x) = demo_name ∧ sub_buf (pub_key x) 0 4 = [1; 2; 3; 4].
Proof.
  destruct (login_stores_cert (SB := bounds_buf) (SS := bounds_str) (CM := flat_client)
    (HS := copy_hash) (TK := demo_task 4096 4196 plain_page) (CR := teecd_caller)
    teecd_init demo_access 0x8000 (store_bytes ∅ 0x5000 demo_cert) demo_login_registry 1000
    demo_login_dev 0x5000 demo_name [1; 2; 3; 4] (replicate (Z.to_nat 1273) 0))
    as (x & E & _ & Hn & _ & Hk & _);
    [discriminate|discriminate|reflexivity|reflexivity|reflexivity|reflexivity
    |vm_compute; reflexivity|vm_compute; reflexivity|split; reflexivity|discriminate
    |repeat constructor; discriminate|].
  exists x. split; [exact E|]. split; [exact Hn|exact Hk].
Defined.
