(* ===== verification/ShareMem.v ===== *)
(** * Shared buffers of a device file (core/mem.c, core/tc_client_driver.c)

    A buffer is created by the first [mmap] at its page offset and may be
    mapped a second time; each mapping holds one reference, and the buffer is
    freed with the last one. *)

From stdpp Require Import base gmap list.
From Stdlib Require Import ZArith Lia.
From S2P Require Import Prelude KernelApi TeeTypes Mailbox SessReg TloggerSys.

(** [(void * )-1] *)
Definition INVALID_MAP_ADDR : Z := 2 ^ 64 - 1.

(** The fields of [struct vm_area_struct] the driver reads. *)
Record vm_area_struct := VmArea { vm_start : Z; vm_end : Z; vm_pgoff : Z }.

(** [remap_vmalloc_range]: the area and the buffer; a status. *)
Class VmRemap := { remap_vmalloc_range : vm_area_struct → Z → Z }.

(** ** core/mem.c *)

(** [vfree] of the buffer, [kfree] of the struct. *)
Definition tc_mem_free (R : registry) (shared_mem : Z) : outcome registry :=
  if shared_mem =? 0 then Ret R
  else
    _ ← at_index (g_shared R) shared_mem;
    Ret (set_shared R (delete shared_mem (g_shared R))).

(** [ALIGN(len, SZ_4K)] of a [size_t]. *)
Definition align_4k_u64 (len : Z) : Z := Z.ldiff (u64 (len + (SZ_4K - 1))) (SZ_4K - 1).

Definition err_ptr (e : Z) : Z := 2 ^ 64 - e.

(** [km] and [addr] are the addresses [kmalloc] and [vmalloc_user] return. *)
Definition tc_mem_allocate (km addr : Z) (R : registry) (len : Z) : registry * Z :=
  if zero_or_null_ptr km then (R, err_ptr ENOMEM)
  else
    let len := align_4k_u64 len in
    if MAILBOX_POOL_SIZE <? len then (R, err_ptr EINVAL)
    else if addr =? 0 then (R, err_ptr ENOMEM)
    else
      (set_shared R (<[km := SharedMem addr INVALID_MAP_ADDR INVALID_MAP_ADDR len 0 0]>
                       (g_shared R)), km).

(** ** Mapping *)

Definition sm_with_user (h : tc_ns_shared_mem) (user ca : Z) : tc_ns_shared_mem :=
  SharedMem (sm_kernel_addr h) user ca (sm_len h) (sm_usage h) (sm_offset h).

Definition sm_with_offset (h : tc_ns_shared_mem) (off : Z) : tc_ns_shared_mem :=
  SharedMem (sm_kernel_addr h) (sm_user_addr h) (sm_user_addr_ca h) (sm_len h) (sm_usage h) off.

Definition upd_shared (R : registry) (p : Z) (h : tc_ns_shared_mem) : registry :=
  set_shared R (<[p := h]> (g_shared R)).

Definition df_with_shared (d : tc_ns_dev_file) (l : list Z) : tc_ns_dev_file :=
  DevFile (df_id d) (service_ref d) (services d) (kernel_api d) (login_setup d) (pkg_name_len d)
    (pkg_name d) (pub_key_len d) (pub_key d) (load_app_flag d) l.

(** The [list_for_each_entry] loop: [None] is the end of the list reached.
    The [int] offset is compared with an [unsigned long]. *)
Fixpoint find_shm_loop (R : registry) (vma : vm_area_struct) (l : list Z)
    : outcome (option (registry * Z * bool)) :=
  match l with
  | [] => Ret None
  | p :: l =>
      h ← at_index (g_shared R) p;
      if u64 (sm_offset h) =? vm_pgoff vma then
        if negb (sm_user_addr_ca h =? INVALID_MAP_ADDR)
           || negb (u64 (vm_end vma - vm_start vma) =? sm_len h)
        then Ret (Some (R, 0, false))
        else R ← get_sharemem_struct R p; Ret (Some (R, p, true))
      else find_shm_loop R vma l
  end.

(** The buffer and [*only_remap]. *)
Definition find_sharedmem (km addr : Z) (R : registry) (vma : vm_area_struct) (dev_file : Z)
    : outcome (registry * Z * bool) :=
  d ← at_index (g_devs R) dev_file;
  r ← find_shm_loop R vma (shared_mem_list d);
  match r with
  | Some x => Ret x
  | None =>
      let '(R, p) := tc_mem_allocate km addr R (u64 (vm_end vma - vm_start vma)) in
      Ret (R, p, false)
  end.

Section Map.
Context {VR : VmRemap}.

Definition remap_shared_mem (R : registry) (vma : vm_area_struct) (shared_mem : Z) : outcome Z :=
  h ← at_index (g_shared R) shared_mem;
  Ret (remap_vmalloc_range vma (sm_kernel_addr h)).

(** [dev_file] is [filp->private_data]. *)
Definition tc_client_mmap (km addr : Z) (R : registry) (dev_file : Z) (vma : vm_area_struct)
    : outcome (registry * Z) :=
  if dev_file =? 0 then Ret (R, - EINVAL)
  else
    '(R, shared_mem, only_remap) ← find_sharedmem km addr R vma dev_file;
    if is_err_or_null shared_mem then Ret (R, - ENOMEM)
    else
      ret ← remap_shared_mem R vma shared_mem;
      if nonzero ret then
        R ← (if (only_remap : bool) then put_sharemem_struct R shared_mem
             else tc_mem_free R shared_mem);
        Ret (R, ret)
      else
        h ← at_index (g_shared R) shared_mem;
        if only_remap
        then Ret (upd_shared R shared_mem (sm_with_user h (sm_user_addr h) (vm_start vma)), ret)
        else
          let h := sm_with_offset (sm_with_user h (vm_start vma) (sm_user_addr_ca h))
                     (s32 (vm_pgoff vma)) in
          R ← get_sharemem_struct (upd_shared R shared_mem h) shared_mem;
          d ← at_index (g_devs R) dev_file;
          Ret (upd_dev R dev_file (df_with_shared d (shared_mem_list d ++ [shared_mem])), ret).

End Map.

(** ** Unmapping *)

(** The loop over the remaining buffers [l] of the list. *)
Fixpoint release_loop (R : registry) (dev_file : Z) (start : Z) (l : list Z) : outcome registry :=
  match l with
  | [] => Ret R
  | p :: l =>
      h ← at_index (g_shared R) p;
      let '(h, find) :=
        if sm_user_addr h =? start then (sm_with_user h INVALID_MAP_ADDR (sm_user_addr_ca h), true)
        else if sm_user_addr_ca h =? start
        then (sm_with_user h (sm_user_addr h) INVALID_MAP_ADDR, true)
        else (h, false) in
      let R := upd_shared R p h in
      R ← (if (sm_user_addr h =? INVALID_MAP_ADDR) && (sm_user_addr_ca h =? INVALID_MAP_ADDR)
           then
             d ← at_index (g_devs R) dev_file;
             l' ← unlink p (shared_mem_list d);
             Ret (upd_dev R dev_file (df_with_shared d l'))
           else Ret R);
      if (find : bool) then put_sharemem_struct R p else release_loop R dev_file start l
  end.

Definition release_vma_shared_mem (R : registry) (dev_file : Z) (vma : vm_area_struct)
    : outcome registry :=
  d ← at_index (g_devs R) dev_file;
  release_loop R dev_file (vm_start vma) (shared_mem_list d).

(** The thread that runs: its group leader and whether the leader or the
    thread itself is exiting. *)
Class TaskState := {
  group_leader : Z;
  leader_exiting : bool;
  current_exiting : bool
}.
