(* ===== verification/Driver.v ===== *)
(** * The file operations of the driver (core/tc_client_driver.c)

    Opening and closing the device, closing a mapped area, and the dispatch of
    its ioctls to the session manager, the agents and the login code.  The
    state of the driver is that of a call, the agents, the authentication state
    of the daemon and the task that last opened the device. *)

From stdpp Require Import base gmap list.
From Stdlib Require Import ZArith Lia.
From S2P Require Import Prelude KernelApi TeeTypes Buffers Mailbox MailboxClaims SessReg.
From S2P Require Import SessLookup CallTypes Auth AuthCall GpParams GpCall Tlogger TloggerSys.
From S2P Require Import Agent AgentReg TeecdAuth SessLoad SessMgr Login ShareMem.

Definition GLOBAL_CMD_ID_GET_TEE_VERSION : Z := 0x22.

(** ** Requests (tc_ns_client.h) *)

Definition AGENT_ARGS_LEN : Z := 16.

Definition iowr (nr size : Z) : Z := ioc 3 TC_NS_CLIENT_IOC_MAGIC nr size.
Definition TC_NS_CLIENT_IOCTL_WAIT_EVENT : Z := iowr 5 4.
Definition TC_NS_CLIENT_IOCTL_SEND_EVENT_RESPONSE : Z := iowr 6 4.
Definition TC_NS_CLIENT_IOCTL_REGISTER_AGENT : Z := iowr 7 AGENT_ARGS_LEN.
Definition TC_NS_CLIENT_IOCTL_UNREGISTER_AGENT : Z := iowr 8 4.
Definition TC_NS_CLIENT_IOCTL_LOAD_APP_REQ : Z := iowr 9 SECFILE_STRUCT_LEN.
Definition TC_NS_CLIENT_IOCTL_CANCEL_CMD_REQ : Z := iowr 13 CONTEXT_LEN.
Definition TC_NS_CLIENT_IOCTL_LOGIN : Z := iowr 14 4.
Definition TC_NS_CLIENT_IOCTL_TST_CMD_REQ : Z := iowr 15 4.
Definition TC_NS_CLIENT_IOCTL_SYC_SYS_TIME : Z := iowr 17 8.
Definition TC_NS_CLIENT_IOCTL_SET_NATIVECA_IDENTITY : Z := iowr 18 4.
Definition TC_NS_CLIENT_IOCTL_LATEINIT : Z := iowr 20 4.
Definition TC_NS_CLIENT_IOCTL_GET_TEE_VERSION : Z := iowr 21 4.

(** [struct agent_ioctl_args]: id, size and user address of the buffer. *)
Record agent_ioctl_args := AgentArgs { arg_id : Z; arg_buffer_size : Z; arg_buffer : Z }.

Definition decode_agent_args (l : list Z) : agent_ioctl_args :=
  AgentArgs (le_value (sub_buf l 0 4)) (le_value (sub_buf l 4 4)) (le_value (sub_buf l 8 8)).

Definition encode_agent_args (a : agent_ioctl_args) : list Z :=
  le_bytes 4 (arg_id a) ++ le_bytes 4 (arg_buffer_size a) ++ le_bytes 8 (arg_buffer a).

(** ** State *)

Record driver (Env St : Type) := Driver {
  dr_call : call_state Env St;
  dr_agents : agent_control;
  dr_teecd : teecd;
  g_teecd_task : Z
}.
Arguments Driver {Env St} _ _ _ _.
Arguments dr_call {Env St} _.
Arguments dr_agents {Env St} _.
Arguments dr_teecd {Env St} _.
Arguments g_teecd_task {Env St} _.

(** What the kernel gives to one request: addresses from [kzalloc], a hash
    handle, the outcome of the login buffer's [kmalloc] and of
    [kthread_create], the sleep of an agent. *)
Record kernel_gives := KernelGives {
  kz_service : Z;
  kz_session : Z;
  kz_agent : Z;
  new_shash : Z;
  login_kmalloc : bool;
  thread_created : bool;
  agent_sleep : agent_control → agent_control * Z
}.

Section Driver.
Context {Env St : Type} {BA : BlockAllocator St} {SMC : SmcChannel Env}.
Context {P : PageMap} {SC : SecureC} {SB : SecureBuf} {CM : ClientMem} {UA : UserAccess}.
Context {KR : KernelRandom} {KC : KernelCipher} {KA : KernelAlloc} {CU : Current}.
Context {VV : VirtValid} {CR : Caller} {DL : DevLayout} {SS : SecureStr}.
Context {HS : Shash} {TK : Task} {UM : UserMap} {TS : TaskState}.
Context (allowed : list ca_info) (fuel : nat) (g_root : session_crypto_info).

Abbreviation state := (call_state Env St).
Abbreviation drv := (driver Env St).

Definition with_call (D : drv) (k : state) : drv :=
  Driver k (dr_agents D) (dr_teecd D) (g_teecd_task D).
Definition with_agents (D : drv) (A : agent_control) : drv :=
  Driver (dr_call D) A (dr_teecd D) (g_teecd_task D).
Definition with_teecd (D : drv) (t : teecd) : drv :=
  Driver (dr_call D) (dr_agents D) t (g_teecd_task D).

Definition with_io (k : state) (e : Env) (s : St) (m : mem) : state :=
  CallState e s m (cs_reg k) (cs_op k) (cs_tzmp_uid k).

(** The caller is the daemon: it opened the device last and is root. *)
Definition is_teecd (D : drv) : bool :=
  (g_teecd_task D =? group_leader) && (tc_ns_get_uid =? 0).

(** ** Small requests *)

Definition tc_ns_get_tee_version (D : drv) (dev_file argp : Z) : outcome (drv * Z) :=
  if argp =? 0 then Ret (D, - EINVAL)
  else if negb (is_teecd D) then Ret (D, - EACCES)
  else
    let k := dr_call D in
    '(s, m, pack) ← ba_alloc (cs_pool k) (cs_mem k) SZ_4K MB_FLAG_ZERO;
    if pack =? 0 then Ret (with_call D (with_io k (cs_env k) s m), - ENOMEM)
    else
      d ← at_index (g_devs (cs_reg k)) dev_file;
      let cmd := cmd_with_dev (global_cmd GLOBAL_CMD_ID_GET_TEE_VERSION pack) (df_id d) in
      let '(e, m, op, _, r) :=
        tc_ns_smc (cs_env k) m (set_paramtypes zero_operation TEEC_VALUE_OUTPUT) cmd in
      let ret := if nonzero r then - EPERM else 0 in
      let version := value_a (nth 0 (op_params op) (NsParam 0 0)) in
      let '(left_over, m) := copy_to_user m argp (le_bytes 4 version) in
      let ret := if nonzero left_over then - EFAULT else ret in
      s ← ba_free s pack;
      Ret (with_call D (with_io k e s m), ret).

Definition tc_ns_send_cancel_cmd (m : mem) (argp : Z) : mem * Z :=
  if argp =? 0 then (m, - EINVAL)
  else
    let '(left_over, l) := copy_from_user m argp CONTEXT_LEN in
    if nonzero left_over then (m, - ENOMEM)
    else
      let c := ctx_with_returns (decode_context l) TEEC_ERROR_GENERIC TEEC_ORIGIN_COMMS in
      let '(left_over, m) := copy_to_user m argp (encode_context c) in
      (m, if nonzero left_over then - EFAULT else 0).

(** core/tz_spi_notify.c: not supported. *)
Definition tc_ns_tst_cmd (argp : Z) : Z := 0.

(** ** Agents *)

Definition ioctl_register_agent (D : drv) (g : kernel_gives) (dev_file arg : Z)
    : outcome (drv * Z) :=
  if arg =? 0 then Ret (D, - EFAULT)
  else
    let k := dr_call D in
    let '(left_over, l) := copy_from_user (cs_mem k) arg AGENT_ARGS_LEN in
    if nonzero left_over then Ret (D, - EFAULT)
    else
      let args := decode_agent_args l in
      '(e, s, m, A, b, ret) ← tc_ns_register_agent allowed (cs_env k) (cs_pool k) (cs_mem k)
         (dr_agents D) dev_file (arg_id args) (arg_buffer_size args) (Some (arg_buffer args))
         true (kz_agent g);
      let m := if negb (nonzero ret)
               then (copy_to_user m arg (encode_agent_args
                       (AgentArgs (arg_id args) (arg_buffer_size args) (default 0 b)))).2
               else m in
      Ret (with_agents (with_call D (with_io k e s m)) A, ret).

Definition ioctl_unregister_agent (D : drv) (dev_file arg : Z) : outcome (drv * Z) :=
  '(A, p) ← find_event_control (dr_agents D) (u32 arg);
  if p =? 0 then Ret (with_agents D A, - EINVAL)
  else
    d ← at_index (ev_heap A) p;
    A ← put_agent_event A p;
    if negb (ev_owner d =? dev_file) then Ret (with_agents D A, - EINVAL)
    else
      let k := dr_call D in
      '(e, s, m, A, ret) ← tc_ns_unregister_agent allowed (cs_env k) (cs_pool k) (cs_mem k) A
                            (u32 arg);
      Ret (with_agents (with_call D (with_io k e s m)) A, ret).

(** A command that changes the environment, the pool and memory. *)
Definition run_io (D : drv) (r : outcome (Env * St * mem * Z)) : outcome (drv * Z) :=
  '(e, s, m, ret) ← r;
  Ret (with_call D (with_io (dr_call D) e s m), ret).

Definition tc_agent_ioctl (D : drv) (g : kernel_gives) (dev_file cmd arg : Z)
    : outcome (drv * Z) :=
  let k := dr_call D in
  if dev_file =? 0 then Ret (D, - EINVAL)
  else if cmd =? TC_NS_CLIENT_IOCTL_WAIT_EVENT then
    '(A, ret) ← tc_ns_wait_event allowed (agent_sleep g) (dr_agents D) (u32 arg);
    Ret (with_agents D A, ret)
  else if cmd =? TC_NS_CLIENT_IOCTL_SEND_EVENT_RESPONSE then
    '(A, ret) ← tc_ns_send_event_response allowed (dr_agents D) (u32 arg);
    Ret (with_agents D A, ret)
  else if cmd =? TC_NS_CLIENT_IOCTL_REGISTER_AGENT then ioctl_register_agent D g dev_file arg
  else if cmd =? TC_NS_CLIENT_IOCTL_UNREGISTER_AGENT then ioctl_unregister_agent D dev_file arg
  else if cmd =? TC_NS_CLIENT_IOCTL_SYC_SYS_TIME then
    run_io D (tc_ns_sync_sys_time (cs_env k) (cs_pool k) (cs_mem k) arg)
  else if cmd =? TC_NS_CLIENT_IOCTL_SET_NATIVECA_IDENTITY then
    run_io D (tc_ns_set_native_hash (cs_env k) (cs_pool k) (cs_mem k) arg GLOBAL_CMD_ID_SET_CA_HASH)
  else if cmd =? TC_NS_CLIENT_IOCTL_LATEINIT then
    run_io D (tc_ns_late_init (cs_env k) (cs_pool k) (cs_mem k) arg)
  else Ret (D, - EINVAL).

(** ** Dispatch *)

Definition is_session_ioctl (cmd : Z) : bool :=
  (cmd =? TC_NS_CLIENT_IOCTL_SES_OPEN_REQ) || (cmd =? TC_NS_CLIENT_IOCTL_SES_CLOSE_REQ)
  || (cmd =? TC_NS_CLIENT_IOCTL_SEND_CMD_REQ).

Definition is_agent_ioctl (cmd : Z) : bool :=
  (cmd =? TC_NS_CLIENT_IOCTL_WAIT_EVENT) || (cmd =? TC_NS_CLIENT_IOCTL_SEND_EVENT_RESPONSE)
  || (cmd =? TC_NS_CLIENT_IOCTL_REGISTER_AGENT) || (cmd =? TC_NS_CLIENT_IOCTL_UNREGISTER_AGENT)
  || (cmd =? TC_NS_CLIENT_IOCTL_SYC_SYS_TIME)
  || (cmd =? TC_NS_CLIENT_IOCTL_SET_NATIVECA_IDENTITY) || (cmd =? TC_NS_CLIENT_IOCTL_LATEINIT).

Definition as_some {A} (r : outcome A) : outcome (option A) := x ← r; Ret (Some x).

(** [dev_file] is [file->private_data]. *)
Definition tc_client_ioctl (D : drv) (g : kernel_gives) (dev_file cmd arg : Z)
    : outcome (option (drv * Z)) :=
  let k := dr_call D in
  if is_session_ioctl cmd then
    res ← tc_client_session_ioctl fuel g_root k dev_file cmd arg (kz_service g) (kz_session g);
    match res with None => Ret None | Some (k, ret) => Ret (Some (with_call D k, ret)) end
  else if cmd =? TC_NS_CLIENT_IOCTL_LOAD_APP_REQ then
    '(e, s, m, t, ret) ← tc_ns_load_secfile (cs_env k) (cs_pool k) (cs_mem k) (cs_reg k)
                          (dr_teecd D) (new_shash g) dev_file arg;
    Ret (Some (with_teecd (with_call D (with_io k e s m)) t, ret))
  else if cmd =? TC_NS_CLIENT_IOCTL_CANCEL_CMD_REQ then
    let '(m, ret) := tc_ns_send_cancel_cmd (cs_mem k) arg in
    Ret (Some (with_call D (with_mem k m), ret))
  else if cmd =? TC_NS_CLIENT_IOCTL_LOGIN then
    '(t, R, ret) ← tc_ns_client_login_func (dr_teecd D) (new_shash g) (cs_mem k) (cs_reg k)
                    dev_file arg (login_kmalloc g);
    Ret (Some (with_teecd (with_call D (with_reg k R)) t, ret))
  else if is_agent_ioctl cmd then as_some (tc_agent_ioctl D g dev_file cmd arg)
  else if cmd =? TC_NS_CLIENT_IOCTL_TST_CMD_REQ then Ret (Some (D, tc_ns_tst_cmd arg))
  else if cmd =? TC_NS_CLIENT_IOCTL_GET_TEE_VERSION
  then as_some (tc_ns_get_tee_version D dev_file arg)
  else Ret (Some (D, - EFAULT)).

(** [compat_ptr] keeps the low 32 bits. *)
Definition tc_compat_client_ioctl (D : drv) (g : kernel_gives) (dev_file cmd arg : Z)
    : outcome (option (drv * Z)) :=
  tc_client_ioctl D g dev_file cmd (u32 arg).

(** ** Opening and closing *)

(** The status and [file->private_data]; [kz] is the address [kzalloc]
    returns. *)
Definition tc_client_open (D : drv) (g : kernel_gives) (kz : Z) : outcome (drv * Z * Z) :=
  '(t, ret) ← check_teecd_access (dr_teecd D) (new_shash g);
  if nonzero ret then Ret (with_teecd D t, - EACCES, 0)
  else
    let '(R, ret, dev) := tc_ns_client_open kz (cs_reg (dr_call D)) TEE_REQ_FROM_USER_MODE in
    Ret (Driver (with_reg (dr_call D) R) (dr_agents D) t group_leader, ret, dev).

(** The device file is unlinked, its agents lose their owner, it is wiped and
    freed. *)
Definition free_dev (D : drv) (dev : Z) : outcome drv :=
  R ← del_dev_node (cs_reg (dr_call D)) dev;
  A ← tee_agent_clear_dev_owner (dr_agents D) dev;
  Ret (with_agents (with_call D (with_reg (dr_call D)
         (set_devs R (delete dev (g_devs R)) (dev_file_list R)))) A).

Definition tc_ns_client_close (D : drv) (g : kernel_gives) (dev : Z)
    : outcome (option (drv * Z)) :=
  if dev =? 0 then Ret (Some (D, - EINVAL))
  else
    res ← close_unclosed_session_in_kthread fuel (dr_call D) dev (thread_created g);
    match res with
    | None => Ret None
    | Some k =>
        A ← send_crashed_event_response_all (dr_agents D) dev;
        D ← free_dev (with_agents (with_call D k) A) dev;
        Ret (Some (D, 0))
    end.

(** [dev] is [file->private_data]. *)
Definition tc_client_close (D : drv) (g : kernel_gives) (dev : Z) : outcome (option (drv * Z)) :=
  if is_teecd D && (leader_exiting || current_exiting) then
    b ← is_system_agent (dr_agents D) dev;
    if (b : bool) then
      A ← send_event_response_single (dr_agents D) dev;
      D ← free_dev (with_agents D A) dev;
      Ret (Some (D, 0))
    else
      '(R, ret) ← teec_daemon_close (cs_reg (dr_call D)) dev;
      Ret (Some (with_call D (with_reg (dr_call D) R), ret))
  else tc_ns_client_close D g dev.

(** [dev_file] is [vma->vm_private_data].  The daemon's areas are left alone
    when it exits. *)
Definition shared_vma_close (D : drv) (vma : vm_area_struct) (dev_file : Z) : outcome drv :=
  if dev_file =? 0 then Ret D
  else if is_teecd D && (leader_exiting || current_exiting) then Ret D
  else
    R ← release_vma_shared_mem (cs_reg (dr_call D)) dev_file vma;
    Ret (with_call D (with_reg (dr_call D) R)).

End Driver.
