(* ===== verification/ShareMemClaims.v ===== *)
(** * Mapping and unmapping shared buffers *)

From stdpp Require Import base gmap list.
From Stdlib Require Import ZArith Lia.
From S2P Require Import Prelude KernelApi TeeTypes Mailbox SessReg SessLookup SessOk SessInv TloggerSys ShareMem.
From S2P Require Import CallTypes Auth AuthCall GpParams GpCall Agent TeecdAuth SessLoad SessMgr Driver GpClaims AgentClaims.

(** A buffer that is mapped, but not at [start], with [usage] references. *)
Definition mapped_elsewhere (start : Z) (h : tc_ns_shared_mem) : Prop :=
  sm_user_addr h ≠ start ∧ sm_user_addr_ca h ≠ start ∧
  (sm_user_addr h ≠ INVALID_MAP_ADDR ∨ sm_user_addr_ca h ≠ INVALID_MAP_ADDR).

(** The buffers of a device file before a mapping at [start]. *)
Record buffers_ok (R : registry) (d : tc_ns_dev_file) (start : Z) : Prop := {
  buf_nodup : NoDup (shared_mem_list d);
  buf_live p : p ∈ shared_mem_list d → is_err_or_null p = false ∧
    ∃ h, g_shared R !! p = Some h ∧ 1 ≤ sm_usage h < 2 ^ 31 - 1 ∧ mapped_elsewhere start h
}.

Lemma upd_shared_id R p h : g_shared R !! p = Some h → upd_shared R p h = R.
Proof. intros H. destruct R. unfold upd_shared, set_shared. simpl in *. by rewrite insert_id. Qed.

Lemma upd_dev_id R d x : g_devs R !! d = Some x → upd_dev R d x = R.
Proof. intros H. destruct R. unfold upd_dev, set_devs. simpl in *. by rewrite insert_id. Qed.

(** Buffers that are mapped elsewhere are passed over. *)
Lemma release_skip R d start l1 l2 :
  (∀ p, p ∈ l1 → ∃ h, g_shared R !! p = Some h ∧ mapped_elsewhere start h) →
  release_loop R d start (l1 ++ l2) = release_loop R d start l2.
Proof.
  induction l1 as [|p l1 IH]; intros Hl; [done|]. cbn [app release_loop].
  destruct (Hl p) as (h & Hh & Hu & Hc & Hm); [left|].
  rewrite (proj2 (at_index_Some _ _ _) Hh), ret_bind.
  rewrite (proj2 (Z.eqb_neq _ _) Hu), (proj2 (Z.eqb_neq _ _) Hc). cbv iota.
  rewrite upd_shared_id by done.
  assert ((sm_user_addr h =? INVALID_MAP_ADDR) && (sm_user_addr_ca h =? INVALID_MAP_ADDR) = false) as ->.
  { destruct Hm as [Hm|Hm]; rewrite (proj2 (Z.eqb_neq _ _) Hm); [done|apply andb_false_r]. }
  rewrite ret_bind. apply IH. intros q Hq. apply Hl. by right.
Qed.

(** What the search for a buffer finds. *)
Lemma find_shm_cases R vma l :
  (∀ p, p ∈ l → p ≠ 0 ∧ ∃ h, g_shared R !! p = Some h ∧ 0 ≤ sm_usage h < 2 ^ 31 - 1) →
  ∃ r, find_shm_loop R vma l = Ret r ∧
    (r = None ∨ r = Some (R, 0, false) ∨
     ∃ p h, p ∈ l ∧ g_shared R !! p = Some h ∧ sm_user_addr_ca h = INVALID_MAP_ADDR ∧
       r = Some (upd_shared R p (SharedMem (sm_kernel_addr h) (sm_user_addr h) (sm_user_addr_ca h)
                                   (sm_len h) (sm_usage h + 1) (sm_offset h)), p, true)).
Proof.
  induction l as [|p l IH]; intros Hl; cbn [find_shm_loop]; [by eexists; split; [|left]|].
  destruct (Hl p) as (Hp & h & Hh & Hu); [left|].
  rewrite (proj2 (at_index_Some _ _ _) Hh), ret_bind. destruct (u64 (sm_offset h) =? vm_pgoff vma).
  - destruct (Z.eqb_spec (sm_user_addr_ca h) INVALID_MAP_ADDR) as [Hca|]; cbn [negb orb].
    2:{ eexists. split; [done|]. by right; left. }
    destruct (negb _); [eexists; split; [done|]; by right; left|].
    unfold get_sharemem_struct. rewrite (proj2 (Z.eqb_neq p 0)) by done.
    rewrite (proj2 (at_index_Some _ _ _) Hh), !ret_bind, atomic_inc_small by done.
    eexists. split; [done|]. right; right. exists p, h. split; [left|]. by split_and!.
  - destruct IH as (r & E & Hr); [intros; apply Hl; by right|]. exists r. split; [done|].
    destruct Hr as [?|[?|(q & hq & Hq & ?)]]; [by left|by right; left|right; right].
    exists q, hq. split; [by right|done].
Qed.

Section Claims.
Context {VR : VmRemap} {Env St : Type}.

(** The second mapping of a buffer, undone. *)
Lemma remap_released R dev d p h vma :
  g_devs R !! dev = Some d → buffers_ok R d (vm_start vma) → vm_start vma ≠ INVALID_MAP_ADDR →
  p ∈ shared_mem_list d → g_shared R !! p = Some h → sm_user_addr_ca h = INVALID_MAP_ADDR →
  release_vma_shared_mem
    (upd_shared R p (SharedMem (sm_kernel_addr h) (sm_user_addr h) (vm_start vma) (sm_len h)
       (sm_usage h + 1) (sm_offset h))) dev vma = Ret R.
Proof.
  intros Hd [Hnd Hl] Hs Hp Hh Hca. set (h1 := SharedMem _ _ _ _ _ _). set (R1 := upd_shared R p h1).
  destruct (Hl p Hp) as (Hp0 & h' & Hh' & Hu & Hu1 & _ & Hm). rewrite Hh in Hh'. injection Hh' as <-.
  assert (p ≠ 0) as Hpz by (by intros ->).
  assert (g_shared R1 !! p = Some h1) as Hh1 by apply lookup_insert_eq.
  unfold release_vma_shared_mem. cbn [g_devs R1 upd_shared set_shared].
  rewrite (proj2 (at_index_Some _ _ _) Hd), ret_bind.
  apply list_elem_of_split in Hp as (l1 & l2 & El). rewrite El in *.
  rewrite release_skip.
  2:{ intros q Hq. apply NoDup_app in Hnd as (_ & Hn & _).
      assert (p ≠ q) by (intros <-; apply (Hn p Hq); left).
      destruct (Hl q) as (_ & hq & Hhq & _ & Hmq); [apply elem_of_app; by left|].
      exists hq. cbn [R1 g_shared upd_shared set_shared]. by rewrite lookup_insert_ne. }
  cbn [release_loop]. rewrite (proj2 (at_index_Some _ _ _) Hh1), ret_bind.
  cbn [sm_user_addr sm_user_addr_ca h1]. rewrite (proj2 (Z.eqb_neq _ _) Hu1), Z.eqb_refl.
  cbn [sm_with_user sm_user_addr sm_user_addr_ca sm_kernel_addr sm_len sm_usage sm_offset].
  assert (sm_user_addr h ≠ INVALID_MAP_ADDR) as Hun by (destruct Hm; congruence).
  rewrite (proj2 (Z.eqb_neq _ _) Hun). cbn [andb]. rewrite ret_bind.
  unfold put_sharemem_struct. rewrite (proj2 (Z.eqb_neq p 0)) by done.
  unfold R1, upd_shared. cbn [g_shared set_shared].
  rewrite (proj2 (at_index_Some _ _ _) (lookup_insert_eq _ p _)), ret_bind.
  unfold sm_with_user, h1. cbn [sm_usage]. rewrite atomic_dec_small by lia. rewrite (proj2 (Z.eqb_neq _ 0)) by lia.
  cbn [sm_kernel_addr sm_user_addr sm_user_addr_ca sm_len sm_offset].
  rewrite !insert_insert_eq. f_equal.
  replace (sm_usage h + 1 - 1) with (sm_usage h) by lia. rewrite <- Hca.
  destruct R, h. unfold set_shared. simpl in *. by rewrite insert_id.
Qed.

(** The first mapping of a buffer, undone. *)
Lemma map_released R dev d p a len off vma :
  g_devs R !! dev = Some d → buffers_ok R d (vm_start vma) → vm_start vma ≠ INVALID_MAP_ADDR →
  p ≠ 0 → g_shared R !! p = None →
  let R1 := upd_shared R p (SharedMem a (vm_start vma) INVALID_MAP_ADDR len 1 off) in
  release_vma_shared_mem (upd_dev R1 dev (df_with_shared d (shared_mem_list d ++ [p]))) dev vma
    = Ret R.
Proof.
  intros Hd [Hnd Hl] Hs Hp Hn R1.
  assert (p ∉ shared_mem_list d) as Hpl.
  { intros Hin. destruct (Hl p Hin) as (_ & h & Hh & _). congruence. }
  set (R2 := upd_dev R1 dev _).
  assert (g_devs R2 !! dev = Some (df_with_shared d (shared_mem_list d ++ [p]))) as Hd2
    by apply lookup_insert_eq.
  assert (g_shared R2 !! p = Some (SharedMem a (vm_start vma) INVALID_MAP_ADDR len 1 off)) as Hh2
    by apply lookup_insert_eq.
  unfold release_vma_shared_mem. rewrite (proj2 (at_index_Some _ _ _) Hd2), ret_bind.
  cbn [shared_mem_list df_with_shared]. rewrite release_skip.
  2:{ intros q Hq. destruct (Hl q Hq) as (_ & hq & Hhq & _ & Hmq). exists hq.
      unfold R2, R1. cbn [upd_dev set_devs upd_shared set_shared g_shared].
      rewrite lookup_insert_ne; [done|]. by intros ->. }
  cbn [release_loop]. rewrite (proj2 (at_index_Some _ _ _) Hh2), ret_bind.
  cbn [sm_user_addr sm_user_addr_ca]. rewrite Z.eqb_refl.
  cbn [sm_with_user sm_user_addr sm_user_addr_ca sm_kernel_addr sm_len sm_usage sm_offset].
  rewrite !Z.eqb_refl. cbn [andb upd_shared set_shared g_devs R2 R1 upd_dev set_devs].
  rewrite (proj2 (at_index_Some _ _ _) (lookup_insert_eq _ dev _)), ret_bind.
  cbn [shared_mem_list df_with_shared]. unfold unlink.
  rewrite decide_True by (apply elem_of_app; right; by apply list_elem_of_singleton). rewrite !ret_bind.
  unfold put_sharemem_struct. rewrite (proj2 (Z.eqb_neq p 0)) by done.
  cbn [g_shared set_devs upd_dev upd_shared set_shared g_devs].
  rewrite (proj2 (at_index_Some _ _ _) (lookup_insert_eq _ p _)), ret_bind. cbn [sm_usage].
  change (atomic_dec 1 =? 0) with true. cbv iota. f_equal.
  rewrite filter_app, filter_cons_False, filter_nil, app_nil_r by (intros ?; done).
  rewrite (filter_ne_id (shared_mem_list d) p) by done.
  unfold R2, R1. destruct R, d. unfold set_shared, upd_dev, set_devs, df_with_shared. simpl in *.
  rewrite insert_insert_eq, insert_id by done. rewrite !delete_insert_eq, delete_id by done. done.
Qed.

(** A failed remapping leaves no trace. *)
Lemma remap_undone R p h :
  p ≠ 0 → g_shared R !! p = Some h → 1 ≤ sm_usage h < 2 ^ 31 - 1 →
  put_sharemem_struct
    (upd_shared R p (SharedMem (sm_kernel_addr h) (sm_user_addr h) (sm_user_addr_ca h) (sm_len h)
                       (sm_usage h + 1) (sm_offset h))) p = Ret R.
Proof.
  intros Hp Hh Hu. unfold put_sharemem_struct, upd_shared. rewrite (proj2 (Z.eqb_neq p 0)) by done.
  cbn [g_shared set_shared].
  rewrite (proj2 (at_index_Some _ _ _) (lookup_insert_eq _ p _)), ret_bind.
  cbn [sm_usage sm_kernel_addr sm_user_addr sm_user_addr_ca sm_len sm_offset].
  rewrite atomic_dec_small by lia. rewrite (proj2 (Z.eqb_neq _ 0)) by lia.
  rewrite insert_insert_eq. replace (sm_usage h + 1 - 1) with (sm_usage h) by lia. f_equal.
  destruct R, h. unfold set_shared. simpl in *. by rewrite insert_id.
Qed.

(** Some buffer of the device file is mapped at [start]. *)
Definition mapped_at (R : registry) (dev start : Z) : Prop :=
  ∃ d p h, g_devs R !! dev = Some d ∧ p ∈ shared_mem_list d ∧ g_shared R !! p = Some h ∧
    (sm_user_addr h = start ∨ sm_user_addr_ca h = start).

(** The first mapping of an offset allocates a buffer. *)
Lemma mmap_new_buffer km addr R dev d vma :
  dev ≠ 0 → g_devs R !! dev = Some d → buffers_ok R d (vm_start vma) →
  vm_start vma ≠ INVALID_MAP_ADDR → 0 ≤ km < 2 ^ 64 - 4095 → g_shared R !! km = None →
  find_shm_loop R vma (shared_mem_list d) = Ret None →
  ∃ R1 ret, tc_client_mmap km addr R dev vma = Ret (R1, ret) ∧
    (ret ≠ 0 → R1 = R) ∧
    (ret = 0 → mapped_at R1 dev (vm_start vma) ∧ release_vma_shared_mem R1 dev vma = Ret R).
Proof.
  intros Hdev Hd Hb Hs Hkm Hn Hf.
  unfold tc_client_mmap, find_sharedmem, remap_shared_mem. rewrite (proj2 (Z.eqb_neq dev 0)) by done.
  rewrite (proj2 (at_index_Some _ _ _) Hd), ret_bind, Hf, ret_bind.
  unfold tc_mem_allocate. destruct (zero_or_null_ptr km) eqn:Ekm; [by eexists _, _|].
  destruct (MAILBOX_POOL_SIZE <? _); [by eexists _, _|].
  destruct (addr =? 0); [by eexists _, _|]. rewrite ret_bind.
  assert (km ≠ 0) as Hkm0 by (by intros ->).
  assert (is_err_or_null km = false) as ->
    by (unfold is_err_or_null; apply orb_false_intro; [by apply Z.eqb_neq|apply Z.leb_gt; lia]).
  cbn [g_shared set_shared].
  rewrite (proj2 (at_index_Some _ _ _) (lookup_insert_eq _ km _)), !ret_bind. cbn [sm_kernel_addr].
  destruct (nonzero (remap_vmalloc_range vma addr)) eqn:Er.
  { unfold tc_mem_free. rewrite (proj2 (Z.eqb_neq km 0)) by done. cbn [g_shared set_shared].
    rewrite (proj2 (at_index_Some _ _ _) (lookup_insert_eq _ km _)), !ret_bind.
    apply nonzero_true in Er. eexists _, _. split; [done|]. split; [intros _|done].
    unfold set_shared. simpl. rewrite delete_insert_eq, delete_id by done. by destruct R. }
  apply nonzero_false in Er. cbn [sm_with_user sm_with_offset sm_user_addr_ca].
  unfold get_sharemem_struct, upd_shared. rewrite (proj2 (Z.eqb_neq km 0)) by done.
  cbn [g_shared set_shared].
  rewrite (proj2 (at_index_Some _ _ _) (lookup_insert_eq _ km _)), !ret_bind.
  cbn [g_devs set_shared]. rewrite (proj2 (at_index_Some _ _ _) Hd), ret_bind, Er.
  cbn [sm_kernel_addr sm_user_addr sm_user_addr_ca sm_len sm_usage sm_offset].
  rewrite !insert_insert_eq. change (atomic_inc 0) with 1. eexists _, _. split; [done|].
  split; [done|]. intros _. split.
  + eexists _, km, _. cbn [g_devs upd_dev set_devs g_shared set_shared].
    rewrite !lookup_insert_eq. split; [done|]. split; [|split; [done|by left]].
    cbn [shared_mem_list df_with_shared]. apply elem_of_app. right. by apply list_elem_of_singleton.
  + by apply (map_released R dev d km).
Qed.

(** A second mapping uses the buffer [p]. *)
Lemma mmap_second km addr R dev d vma p h :
  dev ≠ 0 → g_devs R !! dev = Some d → buffers_ok R d (vm_start vma) →
  vm_start vma ≠ INVALID_MAP_ADDR → p ∈ shared_mem_list d → g_shared R !! p = Some h →
  sm_user_addr_ca h = INVALID_MAP_ADDR →
  find_shm_loop R vma (shared_mem_list d)
    = Ret (Some (upd_shared R p (SharedMem (sm_kernel_addr h) (sm_user_addr h) (sm_user_addr_ca h)
                                   (sm_len h) (sm_usage h + 1) (sm_offset h)), p, true)) →
  ∃ R1 ret, tc_client_mmap km addr R dev vma = Ret (R1, ret) ∧
    (ret ≠ 0 → R1 = R) ∧
    (ret = 0 → mapped_at R1 dev (vm_start vma) ∧ release_vma_shared_mem R1 dev vma = Ret R).
Proof.
  intros Hdev Hd Hb Hs Hp Hh Hca Hf. pose proof Hb as [Hnd Hl].
  unfold tc_client_mmap, find_sharedmem, remap_shared_mem. rewrite (proj2 (Z.eqb_neq dev 0)) by done.
  rewrite (proj2 (at_index_Some _ _ _) Hd), ret_bind, Hf, ret_bind.
  destruct (Hl p Hp) as (He & h' & Hh' & Hu & _). rewrite Hh in Hh'. injection Hh' as <-.
  assert (p ≠ 0) as Hp0 by (by intros ->). rewrite ret_bind, He.
  set (h1 := SharedMem _ _ _ _ _ _). set (R1 := upd_shared R p h1).
  assert (g_shared R1 !! p = Some h1) as Hh1 by apply lookup_insert_eq.
  rewrite (proj2 (at_index_Some _ _ _) Hh1), !ret_bind.
  change (sm_kernel_addr h1) with (sm_kernel_addr h).
  destruct (nonzero (remap_vmalloc_range vma (sm_kernel_addr h))) eqn:Er.
  { unfold R1, h1. rewrite remap_undone by done. rewrite ret_bind. apply nonzero_true in Er.
    by eexists _, _. }
  apply nonzero_false in Er. rewrite Er. unfold R1, h1.
  cbn [sm_with_user sm_kernel_addr sm_user_addr sm_user_addr_ca sm_len sm_usage sm_offset].
  eexists _, _. split; [done|]. split; [done|]. intros _.
  unfold upd_shared. cbn [g_shared set_shared]. rewrite insert_insert_eq. split.
  + eexists d, p, _. cbn [g_devs set_shared g_shared]. rewrite lookup_insert_eq.
    split_and!; try done. by right.
  + by apply (remap_released R dev d p h).
Qed.

(** On the registry: what a mapping does and its release undoes. *)
Lemma mmap_released km addr R dev d vma :
  dev ≠ 0 → g_devs R !! dev = Some d → buffers_ok R d (vm_start vma) →
  vm_start vma ≠ INVALID_MAP_ADDR → 0 ≤ km < 2 ^ 64 - 4095 → g_shared R !! km = None →
  ∃ R1 ret, tc_client_mmap km addr R dev vma = Ret (R1, ret) ∧
    (ret ≠ 0 → R1 = R) ∧
    (ret = 0 → mapped_at R1 dev (vm_start vma) ∧ release_vma_shared_mem R1 dev vma = Ret R).
Proof.
  intros Hdev Hd Hb Hs Hkm Hn. pose proof Hb as [_ Hl].
  destruct (find_shm_cases R vma (shared_mem_list d)) as (r & E & Hr).
  { intros p Hp. destruct (Hl p Hp) as (He & h & Hh & Hu & _). split; [by intros ->|].
    exists h. split; [done|]. lia. }
  destruct Hr as [->|[->|(p & h & Hp & Hh & Hca & ->)]].
  - by eapply mmap_new_buffer.
  - unfold tc_client_mmap, find_sharedmem. rewrite (proj2 (Z.eqb_neq dev 0)) by done.
    rewrite (proj2 (at_index_Some _ _ _) Hd), ret_bind, E. by eexists _, _.
  - by eapply mmap_second.
Qed.

(** C32. Mapping and unmapping a shared buffer is a round trip.  When no buffer of
    the device file is mapped at the start of the area yet, [tc_client_mmap]
    always returns; when it fails (no memory, a size above the limit, an offset
    already mapped twice or with another size, a failed remapping) the registry
    is what it was; when it succeeds a buffer of the device file is mapped at
    the area's start, and [shared_vma_close] restores the registry exactly: the
    new buffer is unlinked and freed, or the second mapping's reference is
    given back.  A daemon that is exiting is the exception: its areas are closed
    without any change, and the buffer stays for the close of the device file.
    (The buffers of the file are live, mapped, and have counters that do not
    overflow, and [kzalloc] returns memory not in use.) *)
Theorem mmap_round_trip {TS : TaskState} {CR : Agent.Caller} km addr (D : driver Env St) dev d vma :
  dev ≠ 0 → g_devs (cs_reg (dr_call D)) !! dev = Some d →
  buffers_ok (cs_reg (dr_call D)) d (vm_start vma) →
  vm_start vma ≠ INVALID_MAP_ADDR → 0 ≤ km < 2 ^ 64 - 4095 →
  g_shared (cs_reg (dr_call D)) !! km = None →
  ∃ R1 ret, tc_client_mmap km addr (cs_reg (dr_call D)) dev vma = Ret (R1, ret) ∧
    (ret ≠ 0 → R1 = cs_reg (dr_call D)) ∧
    (ret = 0 → mapped_at R1 dev (vm_start vma) ∧
       shared_vma_close (with_call D (with_reg (dr_call D) R1)) vma dev =
         Ret (if is_teecd D && (leader_exiting || current_exiting)
              then with_call D (with_reg (dr_call D) R1) else D)).
Proof.
  intros Hdev Hd Hb Hs Hkm Hn.
  destruct (mmap_released km addr _ dev d vma Hdev Hd Hb Hs Hkm Hn) as (R1 & ret & E & Hno & Hok).
  exists R1, ret. split_and!; [done..|]. intros H0. destruct (Hok H0) as [Hm Hrel]. split; [done|].
  unfold shared_vma_close. rewrite (proj2 (Z.eqb_neq dev 0)) by done.
  change (is_teecd (with_call D _)) with (is_teecd D). destruct (_ && _); [done|].
  cbn [with_call with_reg dr_call cs_reg]. rewrite Hrel, ret_bind. by destruct D as [[]].
Qed.

End Claims.

(** ** A mapping *)

Definition demo_remap : VmRemap := {| remap_vmalloc_range _ _ := 0 |}.
Definition demo_vma : vm_area_struct := VmArea 0x7000000 0x7002000 3.

Definition demo_map_dev : tc_ns_dev_file :=
  DevFile 1 (replicate 32 0) (replicate 32 0) 0 false 0 [] 0 [] 0 [600].

(** Mapped once at offset 3, with the same size. *)
Definition demo_map_registry : registry :=
  Registry ∅ ∅ {[ 1000 := demo_map_dev ]}
    {[ 600 := SharedMem 0x9000 0x6000000 INVALID_MAP_ADDR 8192 1 3 ]} [] [1000] 2.

Lemma demo_buffers_ok : buffers_ok demo_map_registry demo_map_dev 0x7000000.
Proof.
  split; simpl.
  - apply NoDup_singleton.
  - intros p ->%list_elem_of_singleton. split; [done|]. eexists.
    rewrite lookup_singleton_eq. split; [done|]. simpl. split; [lia|]. split_and!; [done..|by left].
Qed.

Definition demo_map_driver : driver unit unit :=
  Driver (CallState tt tt ∅ demo_map_registry demo_op INVALID_TZMP_UID) (AgentControl ∅ []) teecd_init 9.

Definition live_task : TaskState :=
  {| group_leader := 9; leader_exiting := false; current_exiting := false |}.

Definition with_map (R : registry) : driver unit unit :=
  with_call demo_map_driver (with_reg (dr_call demo_map_driver) R).

Lemma mmap_round_trip_witness :
  ∃ R1, tc_client_mmap (VR := demo_remap) 700 0xa000 demo_map_registry 1000 demo_vma = Ret (R1, 0) ∧
    shared_vma_close (CR := root_caller) (TS := live_task) (with_map R1) demo_vma 1000
    = Ret demo_map_driver.
Proof.
  destruct (mmap_round_trip (VR := demo_remap) (TS := live_task) (CR := root_caller) 700 0xa000
    demo_map_driver 1000 demo_map_dev demo_vma)
    as (R1 & ret & E & _ & H);
    [discriminate|reflexivity|exact demo_buffers_ok|discriminate|split; [discriminate|reflexivity]
    |reflexivity|].
  assert (ret = 0) as -> by (vm_compute in E; congruence).
  exists R1. split; [exact E|]. apply H. reflexivity.
Defined.

(** ** Two buffers at the same address *)

(** Two processes that share the file map different offsets at the same
    address. *)
Definition twice_mapped : registry :=
  Registry ∅ ∅ {[ 1000 := DevFile 1 (replicate 32 0) (replicate 32 0) 0 false 0 [] 0 [] 0 [600; 601] ]}
    {[ 600 := SharedMem 0x9000 0x7000000 INVALID_MAP_ADDR 8192 1 3;
       601 := SharedMem 0xa000 0x7000000 INVALID_MAP_ADDR 8192 1 4 ]} [] [1000] 2.

(** Closing the second area, whose buffer has offset 4, releases the first:
    [release_vma_shared_mem] goes by the start of the area alone. *)
Lemma unmap_releases_other_buffer :
  ∃ R, release_vma_shared_mem twice_mapped 1000 (VmArea 0x7000000 0x7002000 4) = Ret R ∧
    g_shared R !! 600 = None ∧ sm_offset <$> (g_shared R !! 601) = Some 4.
Proof. eexists. split; [vm_compute; reflexivity|]. split; vm_compute; reflexivity. Qed.
