(* ===== verification/DevClose.v ===== *)
(** * Closing a device file

    [close_unclosed_session_in_kthread] closes the sessions of a device file
    slot by slot and gives the services back without emptying the slots, which
    are freed with the device file.  The proofs keep, beside the registry [R],
    the device file [y] with the slots emptied that the invariant speaks of:
    [reg_inv (upd_dev R d y) H]. *)

From stdpp Require Import base gmap list.
From Stdlib Require Import ZArith Lia.
From S2P Require Import Prelude KernelApi TeeTypes Buffers Mailbox MailboxClaims SessReg.
From S2P Require Import SessLookup SessOk CallTypes Auth AuthCall AuthOk GpParams GpCall GpHeld.
From S2P Require Import GpAlloc GpCallThm GpClaims Tlogger TloggerSys Agent AgentReg TeecdAuth.
From S2P Require Import SessLoad SessMgr SessInv SessInvOps SessInvFind SessMgrThm SessUse.

Lemma like_upd_dev R R' d y : reg_like R R' → reg_like (upd_dev R d y) (upd_dev R' d y).
Proof. intros [? E ? ? ? ?]. split; try done. simpl. by rewrite E. Qed.

Lemma upd_dev_twice R d y y' : upd_dev (upd_dev R d y) d y' = upd_dev R d y'.
Proof. unfold upd_dev, set_devs. simpl. by rewrite insert_insert_eq. Qed.

Lemma put_service_upd_dev R d y p :
  put_service_struct (upd_dev R d y) p = (R' ← put_service_struct R p; Ret (upd_dev R' d y)).
Proof.
  unfold put_service_struct. destruct (p =? 0); [done|]. cbn [g_services upd_dev set_devs].
  destruct (at_index (g_services R) p) as [v|]; [|done]. rewrite !ret_bind.
  destruct (atomic_dec (sv_usage v) =? 0); [|done].
  change (g_service_list (upd_dev R d y)) with (g_service_list R).
  destruct (unlink p (g_service_list R)); [by rewrite !ret_bind|done].
Qed.

Lemma put_service_same R p R' : put_service_struct R p = Ret R' → same_but_services R R'.
Proof.
  unfold put_service_struct. destruct (p =? 0); [by intros [= <-]|].
  rewrite bind_Ret. intros (v & _ & E). destruct (_ =? 0); [|by injection E as <-].
  apply bind_Ret in E as (l & _ & E). by injection E as <-.
Qed.

(** The last reference to the device file goes away when its slots are empty. *)
Lemma inv_delete_dev R H d :
  reg_inv R H → r_slot H = [] →
  (∀ x p, g_devs R !! d = Some x → p ∈ services x → p = 0) →
  reg_inv (set_devs R (delete d (g_devs R)) (filter (λ x, x ≠ d) (dev_file_list R))) H.
Proof.
  intros HI Hrs Hz.
  set (R' := set_devs R _ _).
  assert (∀ p d', p ≠ 0 → uses R' p d' = uses R p d') as Hu.
  { intros p d' Hp. unfold uses, R'. simpl. destruct (decide (d = d')) as [<-|].
    - rewrite lookup_delete_eq. destruct (g_devs R !! d) as [x|] eqn:Ex; [|done].
      symmetry. apply bool_decide_eq_false. intros Hin. by apply Hp, (Hz x).
    - by rewrite lookup_delete_ne. }
  assert (∀ p, p ≠ 0 → uses R p d = false) as Hno.
  { intros p Hp. rewrite <- Hu by done. unfold uses, R'. simpl. by rewrite lookup_delete_eq. }
  assert (∀ p v, g_services R !! p = Some v →
    cnt (uses R' p) (filter (λ x, x ≠ d) (dev_file_list R)) = cnt (uses R p) (dev_file_list R)) as Hc.
  { intros p v Hv. pose proof (service_not_null _ _ _ _ HI Hv) as Hp.
    rewrite (cnt_ext _ (uses R p)) by auto. destruct (decide (d ∈ dev_file_list R)) as [Hin|Hin].
    - rewrite cnt_remove by (done || apply HI). rewrite Hno by done. simpl. lia.
    - by rewrite filter_ne_id. }
  assert (∀ d' x, delete d (g_devs R) !! d' = Some x → g_devs R !! d' = Some x) as Hl
    by (intros d' x Hx; by apply lookup_delete_Some in Hx as [_ ?]).
  pose proof HI as HI0. destruct HI. split; try done; simpl.
  - by apply NoDup_filter.
  - intros d'. rewrite list_elem_of_filter, inv_dev_heap, lookup_delete_is_Some. naive_solver.
  - rewrite list_elem_of_filter. naive_solver.
  - eauto.
  - intros d' x i p Hx. by apply inv_slot, Hl.
  - intros d' x i j p Hx. by apply (inv_distinct d'), Hl.
  - intros p v Hv. rewrite (Hc p v Hv). by apply inv_usage.
  - intros p v q Hv Hq. destruct (inv_listed p v q Hv Hq) as (? & s & ?). split; [done|].
    exists s. rewrite Hu; [done|]. by eapply (service_not_null R H).
  - intros d' p. rewrite Hrs. intros Hin. by apply elem_of_nil in Hin.
Qed.

(** ** The search for a session of the device file *)

Lemma find_owned_cases R H p v d l :
  reg_inv R H → g_services R !! p = Some v → l ⊆ session_list v →
  ∃ q, find_owned_loop R d l = Ret q ∧
    ((q = 0 ∧ cnt (owned R d) l = 0) ∨
     (q ≠ 0 ∧ q ∈ l ∧ ∃ s, g_sessions R !! q = Some s ∧ owner s = d)).
Proof.
  intros HI Hv. induction l as [|q l IH]; intros Hl; cbn [find_owned_loop cnt].
  { by exists 0; split; [|left]. }
  destruct (inv_listed _ _ HI p v q Hv) as (Hq & s & Hs & _); [apply Hl; left|].
  rewrite (proj2 (at_index_Some _ _ _) Hs), ret_bind.
  unfold owned at 1. rewrite Hs. destruct (Z.eqb_spec (owner s) d) as [E|E].
  - exists q. split; [done|]. right. split; [done|]. split; [left|by exists s].
  - destruct IH as (q' & E' & Hc); [intros z Hz; apply Hl; by right|]. exists q'. split; [done|].
    destruct Hc as [[-> Hc]|(? & Hq' & ?)]; [left; by rewrite Hc|right].
    split; [done|]. split; [by right|done].
Qed.

Lemma find_owned_upd_dev R d y d' l : find_owned_loop (upd_dev R d y) d' l = find_owned_loop R d' l.
Proof. induction l as [|q l IH]; [done|]. cbn [find_owned_loop]. by rewrite IH. Qed.

(** Sessions of other device files keep their keys. *)
Definition kept (d : Z) (R R' : registry) : Prop :=
  ∀ q s, g_sessions R !! q = Some s → owner s ≠ d →
    sess_key <$> g_sessions R' !! q = Some (sess_key s).

#[export] Instance kept_preorder d : PreOrder (kept d).
Proof.
  split.
  - intros R q s Hs _. by rewrite Hs.
  - intros R1 R2 R3 H1 H2 q s Hs Ho. specialize (H1 q s Hs Ho).
    destruct (g_sessions R2 !! q) as [s2|] eqn:E; [|done]. injection H1 as H1 H3 H4.
    rewrite (H2 q s2 E) by congruence. unfold sess_key. congruence.
Qed.

Lemma like_kept d R R' : reg_like R R' → kept d R R'.
Proof. intros HL q s Hs _. by rewrite (like_keys _ _ HL), Hs. Qed.

(** What the steps of a close leave alone. *)
Record closing (d : Z) (R R' : registry) : Prop := {
  cl_devs : g_devs R' = g_devs R;
  cl_list : dev_file_list R' = dev_file_list R;
  cl_shared : g_shared R' = g_shared R;
  cl_kept : kept d R R'
}.

#[export] Instance closing_preorder d : PreOrder (closing d).
Proof.
  split; [by split|]. intros R1 R2 R3 [] []. split; try congruence. by etrans.
Qed.

Lemma closing_shares d R R' : closing d R R' → shares_ok R → shares_ok R'.
Proof. intros [E _ Es _] [H1 H2]. split; rewrite Es; [done|]. by rewrite E. Qed.

(** ** One session *)

(** Unlinking the session that was found. *)
Lemma unlink_found R H d y p v q s :
  reg_inv (upd_dev R d y) H → small R H → r_sess H = [] → g_services R !! p = Some v →
  q ∈ session_list v → g_sessions R !! q = Some s → owner s = d →
  let R1 := upd_service (upd_session R q (with_usage s 2)) p
              (with_session_list v (filter (λ x, x ≠ q) (session_list v))) in
  find_owned_loop R d (session_list v) = Ret q →
  tc_find_and_del_session R p d = Ret (R1, q) ∧
  reg_inv (upd_dev R1 d y) (add_free q (add_slot d p H)).
Proof.
  intros HI Hsm Hrs Hv Hq Hs Ho R1 Hf.
  destruct (get_session_inv (upd_dev R d y) H p v q HI Hsm Hv Hq) as (s' & Hs' & _ & HI').
  simpl in Hs'. rewrite Hs in Hs'. injection Hs' as <-.
  assert (s_usage s = 1) as Hu.
  { rewrite (listed_usage (upd_dev R d y) H p v q s) by done. by rewrite Hrs. }
  destruct (inv_listed _ _ HI p v q Hv Hq) as (Hq0 & _).
  rewrite Hu in HI'. change (1 + 1) with 2 in HI'. split.
  - unfold tc_find_and_del_session. rewrite (proj2 (at_index_Some _ _ _) Hv), ret_bind, Hf, ret_bind.
    rewrite (proj2 (Z.eqb_neq q 0)) by done. unfold get_session_struct, unlink.
    rewrite (proj2 (Z.eqb_neq q 0)) by done.
    by rewrite (proj2 (at_index_Some _ _ _) Hs), ret_bind, Hu, decide_True, !ret_bind.
  - rewrite <- Ho at 2.
    apply (inv_unlink (upd_session (upd_dev R d y) q (with_usage s 2)) (add_sess q H) _ p v q
      (with_usage s 2)); try done; simpl.
    + apply lookup_insert_eq.
    + intros q' Hne. rewrite (proj2 (Z.eqb_neq q' q)) by done. done.
    + intros q'. by right.
Qed.

(** The slot gives back the reference of a closed session. *)
Lemma drop_slot_ref R H d y i p v :
  reg_inv (upd_dev R d y) (add_slot d p H) → r_slot H = [] → services y !! i = Some p → p ≠ 0 →
  g_services R !! p = Some v →
  ∃ y', (cnt (owned R d) (session_list v) = 0 ∧ services y' = <[i := 0]> (services y) ∧
         reg_inv (upd_dev R d y') (add_svc p H)) ∨
        (services y' = services y ∧ reg_inv (upd_dev R d y') H).
Proof.
  intros HI Hrs Hi Hp Hv. set (G := upd_dev R d y) in *.
  assert (g_devs G !! d = Some y) as Hy by apply lookup_insert_eq.
  destruct (inv_slot _ _ HI d y i p Hy Hi Hp) as (v' & Hv' & Hr & Hb).
  change (g_services G) with (g_services R) in Hv'. rewrite Hv in Hv'. injection Hv' as <-.
  assert (slot_count G (add_slot d p H) d p (session_list v)
    = cnt (owned R d) (session_list v) + 1) as Ec.
  { unfold slot_count. cbn [add_slot r_slot]. rewrite cnt_slot_cons, bool_decide_true, Hrs by done.
    done. }
  rewrite Ec in Hr, Hb. destruct (decide (cnt (owned R d) (session_list v) = 0)) as [E0|E0].
  - exists (with_slot y i 0 0). left. split; [done|]. split; [done|].
    rewrite <- (upd_dev_twice R d y). eapply inv_empty; try done. rewrite Hr. f_equal. lia.
  - exists (with_slot y i (cnt (owned R d) (session_list v)) p). right.
    split; [by rewrite with_slot_services, slot_id|].
    pose proof (cnt_range (owned R d) (session_list v)).
    rewrite <- (upd_dev_twice R d y). eapply (inv_upd_ref G (add_slot d p H)); try done.
    + intros d' p' Hne. cbn [add_slot r_slot]. rewrite cnt_slot_cons, bool_decide_false; [done|congruence].
    + intros d' p'. rewrite Hrs. intros Hin. by apply elem_of_nil in Hin.
    + unfold slot_count. rewrite Hrs. simpl. rewrite Z.add_0_r. done.
    + unfold MAX_REF_COUNT in *. lia.
Qed.

Section Close.
Context {Env St : Type} {BA : BlockAllocator St} {BAL : BlockAllocatorLaws St BA}.
Context {SMC : SmcChannel Env} {TB : TeeBehaviour Env SMC}.
Context {P : PageMap} {SC : SecureC} {SB : SecureBuf} {CM : ClientMem} {UA : UserAccess}.
Context {KR : KernelRandom} {KC : KernelCipher} {KA : KernelAlloc} {CU : Current}.
Context {VV : VirtValid} {VL : VirtValidLaws St BA VV} {CR : Caller} {DL : DevLayout}.
Context (fuel : nat) (Hfuel : ∀ e m o c, (tee_rank (tc_ns_smc e m o c).1.1.1.1 < fuel)%nat).
Context (d : Z) (L : gset Z).

Abbreviation state := (call_state Env St).

(** The state while the slots of [d] are worked off. *)
Record closing_ok (k : state) (y : tc_ns_dev_file) (H : refs) : Prop := {
  co_inv : reg_inv (upd_dev (cs_reg k) d y) H;
  co_small : small (cs_reg k) (add_sess 0 (add_svc 0 H));
  co_live : is_Some (g_devs (cs_reg k) !! d);
  co_shares : shares_ok (cs_reg k);
  co_pool : ba_owns (cs_pool k) L;
  co_sess : r_sess H = [];
  co_slot : r_slot H = [];
  co_free : r_free H = []
}.

(** Closing, wiping and freeing the session that was unlinked. *)
Lemma close_found_inv (k : state) y H p v q s :
  reg_inv (upd_dev (cs_reg k) d y) (add_free q H) → is_Some (g_devs (cs_reg k) !! d) →
  shares_ok (cs_reg k) → ba_owns (cs_pool k) L → r_sess H = [] → r_free H = [] →
  g_services (cs_reg k) !! p = Some v → g_sessions (cs_reg k) !! q = Some s →
  s_usage s = 2 → owner s = d → q ≠ 0 →
  ∃ k', close_found fuel k d p q = Ret (Some k') ∧ closing d (cs_reg k) (cs_reg k') ∧
    g_services (cs_reg k') = g_services (cs_reg k) ∧
    reg_inv (upd_dev (cs_reg k') d y) H ∧ ba_owns (cs_pool k') L ∧
    ∀ q', q' ≠ q → owned (cs_reg k') d q' = owned (cs_reg k) d q'.
Proof.
  intros HI Hd Hsh Ho Hrs Hrf Hv Hs Hu Hod Hq0. unfold close_found.
  rewrite (proj2 (at_index_Some _ _ _) Hv), ret_bind, (proj2 (at_index_Some _ _ _) Hs), ret_bind.
  destruct (close_session_call fuel Hfuel k L d q (sv_uuid v) (session_id s))
    as (k1 & r & -> & Ho1 & [HL1 Es1]); [done|done|by eexists|done|].
  rewrite ret_bind. unfold wipe_secure_info.
  destruct (like_session _ _ q s HL1 Hs) as (s1 & Hs1 & Ek). injection Ek as Ek1 Ek2 Ek3.
  rewrite (proj2 (at_index_Some _ _ _) Hs1), !ret_bind.
  set (s2 := with_secure_info s1 zero_secure_info). set (R2 := upd_session (cs_reg k1) q s2).
  assert (reg_like (cs_reg k) R2) as HL2.
  { etrans; [done|]. by eapply upd_session_like. }
  assert (g_sessions R2 !! q = Some s2) as Hs2 by apply lookup_insert_eq.
  pose proof (put_twice R2 q s2 Hs2 ltac:(simpl; congruence) Hq0) as E.
  apply bind_Ret in E as (R3 & -> & E). rewrite ret_bind, E, ret_bind.
  eexists. split; [done|]. split_and!; simpl.
  - split; simpl; try done.
    + apply (like_devs _ _ HL1).
    + apply (like_dev_list _ _ HL1).
    + intros q' s' Hs' Ho'. simpl. rewrite delete_insert_eq.
      destruct (decide (q = q')) as [<-|Hne]; [congruence|].
      rewrite lookup_delete_ne by done. by rewrite (like_keys _ _ HL1), Hs'.
  - apply (like_services _ _ HL1).
  - apply (inv_delete_free (upd_dev R2 d y)).
    + by eapply inv_like; [|apply like_upd_dev].
    + rewrite Hrf. apply not_elem_of_nil.
    + rewrite Hrs. apply not_elem_of_nil.
  - done.
  - intros q' Hne. unfold owned. simpl. rewrite delete_insert_eq, lookup_delete_ne by done.
    pose proof (like_keys _ _ HL1 q') as Ek.
    destruct (g_sessions (cs_reg k1) !! q') as [a|], (g_sessions (cs_reg k) !! q') as [b|];
      simpl in Ek; try done. injection Ek as _ -> _. done.
Qed.

(** ** The sessions of a slot *)

Lemma closing_ok_step (k k' : state) y y' H H' :
  closing_ok k y H → closing d (cs_reg k) (cs_reg k') → reg_inv (upd_dev (cs_reg k') d y') H' →
  ba_owns (cs_pool k') L → length (r_svc H') = length (r_svc H) →
  r_sess H' = [] → r_slot H' = [] → r_free H' = [] → closing_ok k' y' H'.
Proof.
  intros [HI Hsm Hd Hsh Ho E1 E2 E3] HC HI' Ho' El Hs1 Hs2 Hs3. split; try done.
  - unfold small in *. rewrite (cl_list _ _ _ HC). simpl in *. by rewrite El, Hs1, <- E1.
  - by rewrite (cl_devs _ _ _ HC).
  - by eapply closing_shares.
Qed.

(** No session of [d] is left: the loop ends. *)
Lemma close_list_done n (k : state) y H p v :
  reg_inv (upd_dev (cs_reg k) d y) H → g_services (cs_reg k) !! p = Some v →
  cnt (owned (cs_reg k) d) (session_list v) = 0 →
  close_list_loop n fuel k d p = Ret (Some (with_reg k (cs_reg k))).
Proof.
  intros HI Hv Hc.
  assert (tc_find_and_del_session (cs_reg k) p d = Ret (cs_reg k, 0)) as E.
  { unfold tc_find_and_del_session. rewrite (proj2 (at_index_Some _ _ _) Hv), ret_bind.
    destruct (find_owned_cases _ _ p v d (session_list v) HI Hv) as (q & Eq & Hq); [done|].
    rewrite find_owned_upd_dev in Eq. rewrite Eq, ret_bind.
    destruct Hq as [[-> _]|(Hq0 & Hin & s & Hs & Ho)]; [done|].
    pose proof (count_pos (owned (cs_reg k) d) _ q Hin) as Hp.
    unfold owned in Hp at 1. simpl in Hs. rewrite Hs, Ho, Z.eqb_refl in Hp. specialize (Hp eq_refl). lia. }
  destruct n; cbn [close_list_loop]; rewrite E, ret_bind; done.
Qed.

Lemma close_list_inv n (k : state) y H i p v :
  closing_ok k y H → services y !! i = Some p → p ≠ 0 → g_services (cs_reg k) !! p = Some v →
  cnt (owned (cs_reg k) d) (session_list v) ≤ Z.of_nat n →
  ∃ k' y', close_list_loop n fuel k d p = Ret (Some k') ∧ closing d (cs_reg k) (cs_reg k') ∧
    services y' = <[i := 0]> (services y) ∧ is_Some (g_services (cs_reg k') !! p) ∧
    reg_inv (upd_dev (cs_reg k') d y') (add_svc p H) ∧ ba_owns (cs_pool k') L.
Proof.
  revert k y v. induction n as [|n IH]; intros k y v Hok Hi Hp Hv Hn; pose proof Hok as [HI Hsm Hd Hsh Ho E1 E2 E3].
  all: assert (0 < cnt (owned (cs_reg k) d) (session_list v)) as Hpos.
  1,3: destruct (inv_slot _ _ HI d y i p ltac:(apply lookup_insert_eq) Hi Hp) as (v' & Hv' & _ & Hb);
    simpl in Hv'; rewrite Hv in Hv'; injection Hv' as <-; unfold slot_count in Hb; rewrite E2 in Hb;
    cbn [cnt] in Hb; change (owned (upd_dev (cs_reg k) d y) d) with (owned (cs_reg k) d) in Hb; lia.
  1: lia.
  destruct (find_owned_cases _ _ p v d (session_list v) HI Hv) as (q & Eq & Hq); [done|].
  rewrite find_owned_upd_dev in Eq.
  change (owned (upd_dev (cs_reg k) d y) d) with (owned (cs_reg k) d) in Hq.
  destruct Hq as [[_ ?]|(Hq0 & Hin & s & Hs & Hos)]; [lia|]. simpl in Hs.
  destruct (unlink_found (cs_reg k) H d y p v q s) as [Ef HI1]; try done.
  { unfold small in *. simpl in Hsm. lia. }
  cbn [close_list_loop]. rewrite Ef, ret_bind, (proj2 (Z.eqb_neq q 0)) by done.
  set (R1 := upd_service _ _ _) in *.
  assert (g_services R1 !! p = Some (with_session_list v (filter (λ x, x ≠ q) (session_list v)))) as Hv1
    by apply lookup_insert_eq.
  assert (closing d (cs_reg k) R1) as HC1.
  { split; try done. intros q' s' Hs' Ho'. simpl. rewrite lookup_insert_ne; [by rewrite Hs'|].
    intros <-. congruence. }
  destruct (close_found_inv (with_reg k R1) y (add_slot d p H) p
    (with_session_list v (filter (λ x, x ≠ q) (session_list v))) q (with_usage s 2))
    as (k2 & -> & HC2 & Ev2 & HI2 & Ho2 & Hown); try done.
  { apply lookup_insert_eq. }
  rewrite ret_bind. cbn [cs_reg with_reg] in *.
  rewrite <- Ev2 in Hv1.
  assert (cnt (owned (cs_reg k2) d) (filter (λ x, x ≠ q) (session_list v))
    = cnt (owned (cs_reg k) d) (session_list v) - 1) as Ecnt.
  { rewrite (cnt_ext _ (owned (cs_reg k) d)).
    - rewrite cnt_remove by (done || by apply (inv_list_nodup _ _ HI p)).
      rewrite <- Hos, (owned_same (cs_reg k) q s) by done. done.
    - intros x [Hx _]%list_elem_of_filter. rewrite Hown by done. unfold owned, R1. simpl.
      by rewrite lookup_insert_ne. }
  assert (closing d (cs_reg k) (cs_reg k2)) as HC by (by etrans).
  destruct (drop_slot_ref (cs_reg k2) H d y i p _ HI2 E2 Hi Hp Hv1) as (y2 & [(E0 & Es & HI3)|(Es & HI3)]).
  - rewrite (close_list_done n k2 y2 (add_svc p H) p _ HI3 Hv1) by done.
    exists (with_reg k2 (cs_reg k2)), y2. split_and!; try done.
  - assert (closing_ok k2 y2 H) as Hok2 by (by eapply closing_ok_step).
    cbn [session_list with_session_list] in *.
    destruct (IH k2 y2 _ Hok2 ltac:(by rewrite Es) Hp Hv1) as (k' & y' & -> & HC' & Es' & Hl & HI' & Ho');
      [simpl; lia|].
    exists k', y'. split; [done|]. split; [by etrans|]. split; [by rewrite Es', Es|done].
Qed.

(** ** All slots *)

Lemma close_slots_inv sl (k : state) y H n :
  closing_ok k y H → services y = replicate n 0 ++ sl →
  ∃ k' y', close_slots_loop fuel k d sl = Ret (Some k') ∧ closing d (cs_reg k) (cs_reg k') ∧
    services y' = replicate (n + length sl) 0 ∧ closing_ok k' y' H.
Proof.
  revert k y n. induction sl as [|p sl IH]; intros k y n Hok Es; cbn [close_slots_loop length].
  { exists k, y. rewrite app_nil_r in Es. rewrite Nat.add_0_r. by split_and!. }
  replace (n + S (length sl))%nat with (S n + length sl)%nat by lia.
  unfold slot_busy. destruct (Z.eqb_spec p 0) as [->|Hp].
  { rewrite ret_bind. apply (IH k y (S n) Hok). rewrite Es. by rewrite replicate_S_end, <- app_assoc. }
  pose proof Hok as [HI Hsm Hd Hsh Ho E1 E2 E3].
  assert (services y !! n = Some p) as Hi.
  { rewrite Es, lookup_app_r by (by rewrite length_replicate). by rewrite length_replicate, Nat.sub_diag. }
  destruct (inv_slot _ _ HI d y n p ltac:(apply lookup_insert_eq) Hi Hp) as (v & Hv & _ & Hb).
  unfold slot_count in Hb. rewrite E2 in Hb. cbn [cnt] in Hb. simpl in Hv.
  rewrite (proj2 (at_index_Some _ _ _) Hv), !ret_bind.
  assert (bool_decide (session_list v = []) = false) as ->.
  { apply bool_decide_eq_false. intros E. rewrite E in Hb. simpl in Hb. lia. }
  cbn [negb]. unfold close_session_in_service_list.
  rewrite (proj2 (at_index_Some _ _ _) Hv), ret_bind.
  destruct (close_list_inv (length (session_list v)) k y H n p v Hok Hi Hp Hv)
    as (k1 & y1 & -> & HC1 & Es1 & [v1 Hv1] & HI1 & Ho1); [apply cnt_range|].
  rewrite ret_bind.
  destruct (put_service_inv (upd_dev (cs_reg k1) d y1) H p v1 HI1) as (G & EG & HI2 & _); [|done|].
  { unfold small in *. simpl in *. rewrite (cl_list _ _ _ HC1). lia. }
  rewrite put_service_upd_dev in EG. apply bind_Ret in EG as (R2 & Ep & EG). injection EG as <-.
  rewrite Ep, ret_bind. destruct (put_service_same _ _ _ Ep) as (Es2 & Ed2 & Eg2 & El2 & _).
  assert (closing d (cs_reg k) R2) as HC2.
  { etrans; [done|]. split; try done. intros q s Hs _. by rewrite Es2, Hs. }
  destruct (IH (with_reg k1 R2) y1 (S n)) as (k' & y' & -> & HC' & Es' & Hok').
  { by eapply closing_ok_step. }
  { rewrite Es1, Es. rewrite insert_app_r_alt by (by rewrite length_replicate).
    rewrite length_replicate, Nat.sub_diag, (replicate_S_end n), <- app_assoc. done. }
  exists k', y'. split_and!; try done. by etrans.
Qed.

Lemma exist_unclosed_cases R sl :
  (∀ p, p ∈ sl → p = 0 ∨ ∃ v, g_services R !! p = Some v ∧ session_list v ≠ []) →
  ∃ b, exist_unclosed_loop R sl = Ret b ∧ (b = false → ∀ p, p ∈ sl → p = 0).
Proof.
  induction sl as [|p sl IH]; intros Hl; cbn [exist_unclosed_loop].
  { exists false. split; [done|]. intros _ p Hp. by apply elem_of_nil in Hp. }
  destruct IH as (b & E & Hb); [intros; apply Hl; by right|]. unfold slot_busy.
  destruct (Hl p) as [->|(v & Hv & Hne)]; [left|..].
  - rewrite Z.eqb_refl, ret_bind. exists b. split; [done|]. intros Hf q [->|Hq]%elem_of_cons; auto.
  - destruct (Z.eqb_spec p 0) as [->|Hp].
    + rewrite ret_bind. exists b. split; [done|]. intros Hf q [->|Hq]%elem_of_cons; auto.
    + rewrite (proj2 (at_index_Some _ _ _) Hv), !ret_bind, bool_decide_false by done. by exists true.
Qed.

(** All sessions of a device file are closed. *)
Lemma close_unclosed_inv (k : state) x H :
  closing_ok k x H → g_devs (cs_reg k) !! d = Some x →
  ∃ k' y, close_unclosed_session_in_kthread fuel k d true = Ret (Some k') ∧
    closing d (cs_reg k) (cs_reg k') ∧ (∀ p, p ∈ services y → p = 0) ∧ closing_ok k' y H.
Proof.
  intros Hok Hx. pose proof Hok as [HI Hsm Hd Hsh Ho E1 E2 E3].
  unfold close_unclosed_session_in_kthread, if_exist_unclosed_session, close_session_thread_fn.
  assert (g_devs (upd_dev (cs_reg k) d x) !! d = Some x) as Hx' by apply lookup_insert_eq.
  assert (d ≠ 0) as Hd0.
  { intros ->. apply (inv_dev_null _ _ HI), (inv_dev_heap _ _ HI). by rewrite Hx'. }
  rewrite (proj2 (Z.eqb_neq d 0)) by done. rewrite !(proj2 (at_index_Some _ _ _) Hx), !ret_bind.
  destruct (exist_unclosed_cases (cs_reg k) (services x)) as (b & -> & Hb).
  { intros p [i Hi]%list_elem_of_lookup. destruct (decide (p = 0)) as [|Hp]; [by left|right].
    destruct (inv_slot _ _ HI d x i p Hx' Hi Hp) as (v & Hv & _ & Hc). exists v. split; [done|].
    intros E. unfold slot_count in Hc. rewrite E, E2 in Hc. simpl in Hc. lia. }
  rewrite ret_bind. destruct b; cbn [negb].
  - destruct (close_slots_inv (services x) k x H 0 Hok eq_refl) as (k' & y & -> & HC & Es & Hok').
    exists k', y. split_and!; try done. intros p. rewrite Es. by intros [-> _]%elem_of_replicate.
  - exists k, x. split_and!; try done. by apply Hb.
Qed.

End Close.
