(* ===== verification/DriverThm.v ===== *)
(** * The driver: closing a device file, and sequences of requests *)

From stdpp Require Import base gmap list.
From Stdlib Require Import ZArith Lia.
From S2P Require Import Prelude KernelApi TeeTypes Buffers Mailbox MailboxClaims SessReg.
From S2P Require Import SessLookup SessOk CallTypes Auth AuthCall AuthOk GpParams GpCall GpHeld.
From S2P Require Import GpAlloc GpCallThm GpClaims Tlogger TloggerSys Agent AgentReg AgentThm.
From S2P Require Import TeecdAuth SessLoad SessMgr SessInv SessInvOps SessInvFind.
From S2P Require Import SessMgrThm SessUse Login ShareMem ShareMemClaims Driver DevClose.

(** ** The agents of a device file *)

(** The nodes keep their identity; those with the ids [ids] are crashed. *)
Definition crashed (ids : list Z) (A A' : agent_control) : Prop :=
  agent_list A' = agent_list A ∧
  ∀ x d, x ∈ agent_list A → ev_heap A !! x = Some d →
    ∃ d', ev_heap A' !! x = Some d' ∧ ev_agent_id d' = ev_agent_id d ∧ ev_owner d' = ev_owner d ∧
      (agent_ready d = AGENT_CRASHED ∨ ev_agent_id d ∈ ids → agent_ready d' = AGENT_CRASHED).

Lemma crashed_trans i1 i2 A1 A2 A3 : crashed i1 A1 A2 → crashed i2 A2 A3 → crashed (i1 ++ i2) A1 A3.
Proof.
  intros [E1 H1] [E2 H2]. split; [congruence|]. intros x d Hx Hd.
  destruct (H1 x d Hx Hd) as (d2 & Hd2 & Ei & Eo & Hr).
  destruct (H2 x d2 ltac:(by rewrite E1) Hd2) as (d3 & Hd3 & Ei' & Eo' & Hr').
  exists d3. split_and!; [done|congruence..|]. rewrite elem_of_app. intros [?|[?|?]]; apply Hr'.
  - left. apply Hr. by left.
  - left. apply Hr. by right.
  - right. by rewrite Ei.
Qed.

Lemma send_event_response_ok A id :
  agents_ok A → ∃ A', send_event_response A id = Ret A' ∧ agents_ok A' ∧ crashed [id] A A'.
Proof.
  intros HA. unfold send_event_response.
  destruct (find_event_control_cases A id HA) as [[-> Hn]|(p & d & Hp & Hl & Hd & Hok & Hid & ->)];
    rewrite ret_bind.
  { exists A. split; [done|]. split; [done|]. split; [done|]. intros x d Hx Hd. exists d.
    split_and!; try done. intros [?|E%list_elem_of_singleton]; [done|]. by destruct (Hn x d Hx Hd). }
  rewrite (proj2 (Z.eqb_neq p 0)) by done. rewrite at_set_ev, ret_bind, set_ev_twice.
  unfold process_send_event_response. rewrite at_set_ev, ret_bind.
  set (d1 := ev_with_ready _ AGENT_CRASHED).
  assert (∃ d2, (if ret_flag d1 =? 0 then Ret (set_ev A p d1)
    else Ret (set_ev (set_ev A p d1) p (ev_with_flags d1 0 1))) = Ret (set_ev A p d2) ∧
    ev_usage d2 = ev_usage d + 1 ∧ ev_agent_id d2 = ev_agent_id d ∧ ev_owner d2 = ev_owner d ∧
    agent_buff_kernel d2 = agent_buff_kernel d ∧ agent_ready d2 = AGENT_CRASHED)
    as (d2 & -> & Eu & Ei & Eo & Eb & Er).
  { destruct (ret_flag d1 =? 0); [by exists d1|]. rewrite set_ev_twice. by eexists. }
  pose proof Hok as [Hu Hb]. rewrite ret_bind.
  rewrite (put_event_ok (set_ev A p d2) p d2 (ev_usage d) Hp) by (done || apply lookup_insert_eq).
  rewrite set_ev_twice. eexists. split; [done|]. split.
  - eapply set_ev_ok'; [done|done|done|]. split; simpl; [done|congruence].
  - split; [done|]. intros x dx Hx Hdx. simpl. destruct (decide (p = x)) as [<-|Hne].
    + rewrite lookup_insert_eq. rewrite Hd in Hdx. injection Hdx as <-. by eexists.
    + rewrite lookup_insert_ne by done. exists dx. split_and!; try done.
      intros [?|E%list_elem_of_singleton]; [done|]. exfalso. apply Hne.
      eapply (ag_ids _ HA); [done..|congruence].
Qed.

Lemma respond_all_ok A ids :
  agents_ok A → ∃ A', respond_all A ids = Ret A' ∧ agents_ok A' ∧ crashed (filter (λ i, i ≠ 0) ids) A A'.
Proof.
  revert A. induction ids as [|i ids IH]; intros A HA; cbn [respond_all].
  { exists A. split; [done|]. split; [done|]. split; [done|]. intros x d _ Hd. exists d.
    split_and!; try done. intros [?|H]; [done|]. by apply elem_of_nil in H. }
  destruct (nonzero i) eqn:Ei.
  - destruct (send_event_response_ok A i HA) as (A1 & -> & HA1 & HC1). rewrite ret_bind.
    destruct (IH A1 HA1) as (A2 & -> & HA2 & HC2). exists A2. split; [done|]. split; [done|].
    rewrite filter_cons_True by (by apply nonzero_true). by apply (crashed_trans [i] _ A A1).
  - rewrite ret_bind. apply nonzero_false in Ei as ->. rewrite filter_cons_False by (by intros ?).
    by apply IH.
Qed.

Lemma owned_ids_spec A dev room l :
  (∀ x, x ∈ l → is_Some (ev_heap A !! x)) →
  ∃ ids, owned_ids A dev room l = Ret ids ∧
    ((length l ≤ room)%nat → ∀ x d, x ∈ l → ev_heap A !! x = Some d → ev_owner d = dev → ev_agent_id d ∈ ids).
Proof.
  revert room. induction l as [|p l IH]; intros room Hl; cbn [owned_ids].
  { exists []. split; [done|]. intros _ x d Hx. by apply elem_of_nil in Hx. }
  destruct (Hl p) as [d Hd]; [left|]. rewrite (proj2 (at_index_Some _ _ _) Hd), ret_bind.
  assert (∀ x, x ∈ l → is_Some (ev_heap A !! x)) as Hl' by (intros; apply Hl; by right).
  destruct room as [|room].
  { destruct (IH 0%nat Hl') as (ids & E & _). exists ids. split; [done|]. simpl. lia. }
  unfold has_owner. destruct (Z.eqb_spec (ev_owner d) dev) as [Eo|Eo].
  - destruct (IH room Hl') as (ids & -> & Hids). rewrite ret_bind. eexists. split; [done|].
    intros Hlen x dx [->|Hx]%elem_of_cons Hdx Ho; [rewrite Hd in Hdx; injection Hdx as <-; left|right].
    eapply Hids; [simpl in Hlen; lia|done..].
  - destruct (IH (S room) Hl') as (ids & -> & Hids). eexists. split; [done|].
    intros Hlen x dx [->|Hx]%elem_of_cons Hdx Ho; [congruence|].
    eapply Hids; [simpl in Hlen; lia|done..].
Qed.

(** The crash of a device file's agents: at most [AGENT_MAX] of them. *)
Lemma crash_all_ok A dev :
  agents_ok A → dev ≠ 0 →
  ∃ A', send_crashed_event_response_all A dev = Ret A' ∧ agents_ok A' ∧
    agent_list A' = agent_list A ∧
    ((length (agent_list A) ≤ Z.to_nat AGENT_MAX)%nat →
     ∀ x d', x ∈ agent_list A → ev_heap A' !! x = Some d' → ev_owner d' = dev →
       ev_agent_id d' ≠ 0 → agent_ready d' = AGENT_CRASHED).
Proof.
  intros HA Hdev. unfold send_crashed_event_response_all. rewrite (proj2 (Z.eqb_neq dev 0)) by done.
  destruct (owned_ids_spec A dev (Z.to_nat AGENT_MAX) (agent_list A)) as (ids & -> & Hids).
  { intros x (d & -> & _)%(ag_listed _ HA). done. }
  rewrite ret_bind. destruct (respond_all_ok A ids HA) as (A' & -> & HA' & [El HC]).
  exists A'. split_and!; try done. intros Hlen x d' Hx Hd' Ho Hi.
  destruct (ag_listed _ HA x Hx) as (d & Hd & _).
  destruct (HC x d Hx Hd) as (d2 & Hd2 & Ei2 & Eo2 & Hr). rewrite Hd' in Hd2. injection Hd2 as <-.
  apply Hr. right. apply list_elem_of_filter. split; [congruence|]. eapply Hids; [done..|congruence].
Qed.

Lemma clear_owner_ok A dev :
  agents_ok A → ∃ A', tee_agent_clear_dev_owner A dev = Ret A' ∧ agents_ok A' ∧
    agent_list A' = agent_list A.
Proof.
  intros HA. unfold tee_agent_clear_dev_owner.
  destruct (find_listed A (has_owner dev) HA) as (p & -> & [[-> _]|(Hp & _ & d & Hd & Hok & _)]);
    rewrite ret_bind; [by exists A|].
  rewrite (proj2 (Z.eqb_neq p 0)), (proj2 (at_index_Some _ _ _) Hd), ret_bind by done.
  eexists. split; [done|]. split; [|done]. by eapply set_ev_ok.
Qed.

(** ** Device files *)

Definition new_dev_file (id api : Z) : tc_ns_dev_file :=
  DevFile id (replicate 32 0) (replicate 32 0) api false 0 (replicate 255 0) 0 (replicate 1024 0) 0 [].

Lemma new_dev_slot id api p : p ∈ services (new_dev_file id api) → p = 0.
Proof. by intros [-> _]%elem_of_replicate. Qed.

Lemma inv_new_dev R H d id api :
  reg_inv R H → d ≠ 0 → g_devs R !! d = None →
  reg_inv (set_devs R (<[d := new_dev_file id api]> (g_devs R)) (dev_file_list R ++ [d])) H.
Proof.
  intros HI Hd0 Hd. set (R' := set_devs R _ _).
  assert (d ∉ dev_file_list R) as Hdl.
  { intros Hin%(inv_dev_heap _ _ HI). rewrite Hd in Hin. by destruct Hin. }
  assert (∀ p d', p ≠ 0 → uses R' p d' = uses R p d') as Hu.
  { intros p d' Hp. unfold uses, R'. simpl. destruct (decide (d = d')) as [<-|].
    - rewrite lookup_insert_eq, Hd. apply bool_decide_eq_false. intros Hin%new_dev_slot. done.
    - by rewrite lookup_insert_ne. }
  assert (∀ p, p ≠ 0 → uses R p d = false) as Hno by (intros p _; unfold uses; by rewrite Hd).
  pose proof HI as HI0. destruct HI. split; try done; simpl.
  - apply NoDup_app. split; [done|]. split; [|apply NoDup_singleton].
    intros q Hq ->%list_elem_of_singleton. done.
  - intros d'. rewrite elem_of_app, list_elem_of_singleton, inv_dev_heap, lookup_insert_is_Some'. naive_solver.
  - rewrite elem_of_app, list_elem_of_singleton. naive_solver.
  - intros d' x. rewrite lookup_insert_Some. intros [[<- <-]|[_ Hx]]; [done|eauto].
  - intros d' x i p. rewrite lookup_insert_Some. intros [[<- <-]|[_ Hx]] Hi Hp.
    + by apply list_elem_of_lookup_2, new_dev_slot in Hi.
    + by apply inv_slot.
  - intros d' x i j p. rewrite lookup_insert_Some. intros [[<- <-]|[_ Hx]] Hi Hj Hp.
    + by apply list_elem_of_lookup_2, new_dev_slot in Hi.
    + by apply (inv_distinct d' x i j p).
  - intros p v Hv. pose proof (service_not_null _ _ _ _ HI0 Hv) as Hp.
    rewrite count_app. cbn [cnt]. rewrite (cnt_ext _ (uses R p)) by auto.
    rewrite Hu, Hno by done. simpl. rewrite Z.add_0_r. by apply inv_usage.
  - intros p v q Hv Hq. destruct (inv_listed p v q Hv Hq) as (? & s & ?). split; [done|].
    exists s. rewrite Hu; [done|]. by eapply (service_not_null R H).
  - intros d' p Hin. destruct (inv_held d' p Hin) as [? ?]. split; [done|]. by rewrite Hu.
Qed.

(** The counter of ids is not part of the invariant. *)
Lemma inv_file_cnt R H n :
  reg_inv R H →
  reg_inv (Registry (g_sessions R) (g_services R) (g_devs R) (g_shared R) (g_service_list R)
             (dev_file_list R) n) H.
Proof. by intros []; split. Qed.

(** Only the login data, the package name and the key change. *)
Definition login_frame (x y : tc_ns_dev_file) : Prop :=
  services y = services x ∧ service_ref y = service_ref x ∧ shared_mem_list y = shared_mem_list x.

Section Parse.
Context {SB : SecureBuf} {SS : SecureStr}.

Lemma login_frame_trans x y z : login_frame x y → login_frame y z → login_frame x z.
Proof. intros (? & ? & ?) (? & ? & ?). split_and!; congruence. Qed.

Lemma pack_name_frame x cert o : login_frame x (get_pack_name_len x cert o).1.
Proof. unfold get_pack_name_len. destruct (buf_copy _ _ _ _ _ _). by repeat case_match. Qed.

Lemma key_len_frame x cert o : login_frame x (get_public_key_len x cert o).1.
Proof. unfold get_public_key_len. destruct (buf_copy _ _ _ _ _ _). by repeat case_match. Qed.

Lemma key_frame x cert o : login_frame x (get_public_key x cert o).1.
Proof.
  unfold get_public_key. destruct (_ =? 0); [done|]. destruct (buf_copy _ _ _ _ _ _). by case_match.
Qed.

Lemma parse_login_frame x cert : login_frame x (parse_login x cert).1.
Proof.
  unfold parse_login. pose proof (pack_name_frame x cert 0) as H1.
  destruct (get_pack_name_len x cert 0) as [x1 r1]. simpl in H1. destruct (nonzero r1); [done|].
  destruct (str_ncopy _ _ _ _ _) as [r2 name].
  set (x2 := df_with_name x1 (pkg_name_len x1) name).
  assert (login_frame x x2) as H2 by done. destruct (nonzero r2); [done|].
  pose proof (key_len_frame x2 cert (4 + pkg_name_len x2)) as H3.
  destruct (get_public_key_len x2 cert _) as [x3 r3]. simpl in H3.
  assert (login_frame x x3) as H3' by by eapply login_frame_trans. destruct (nonzero r3); [done|].
  pose proof (key_frame x3 cert (4 + pkg_name_len x3 + 4)) as H4.
  destruct (get_public_key x3 cert _) as [x4 r4]. simpl in *.
  apply (login_frame_trans x x3); [done|]. by apply (login_frame_trans x3 x4).
Qed.

End Parse.
