(* ===== verification/DriverSteps.v ===== *)
(** * Requests to the driver keep the registry's counts *)

From stdpp Require Import base gmap list relations.
From Stdlib Require Import ZArith Lia.
From S2P Require Import Prelude KernelApi TeeTypes Buffers Mailbox MailboxClaims SessReg.
From S2P Require Import SessLookup SessOk CallTypes Auth AuthCall AuthOk GpParams GpCall GpHeld.
From S2P Require Import GpAlloc GpCallThm GpClaims Tlogger TloggerSys Agent AgentReg AgentThm.
From S2P Require Import TeecdAuth SessLoad SessMgr SessInv SessInvOps SessInvFind.
From S2P Require Import SessMgrThm SessUse Login ShareMem ShareMemClaims Driver DevClose DriverThm.

Section Steps.
Context {Env St : Type} {BA : BlockAllocator St} {BAL : BlockAllocatorLaws St BA}.
Context {SMC : SmcChannel Env} {TB : TeeBehaviour Env SMC}.
Context {P : PageMap} {SC : SecureC} {SB : SecureBuf} {CM : ClientMem} {UA : UserAccess}.
Context {KR : KernelRandom} {KC : KernelCipher} {KA : KernelAlloc} {CU : Current}.
Context {VV : VirtValid} {VL : VirtValidLaws St BA VV} {CR : Caller} {DL : DevLayout}.
Context {SS : SecureStr} {HS : Shash} {TK : Task} {UM : UserMap} {TS : TaskState}.
Context (fuel : nat) (g_root : session_crypto_info).
Context (Hfuel : ∀ e m o c, (tee_rank (tc_ns_smc e m o c).1.1.1.1 < fuel)%nat).

Abbreviation state := (call_state Env St).
Abbreviation drv := (driver Env St).
Abbreviation regd D := (cs_reg (dr_call D)).

(** Far fewer device files than a counter can count. *)
Definition few_devs (R : registry) : Prop := Z.of_nat (length (dev_file_list R)) < 2 ^ 31 - 16.

Lemma few_small R : few_devs R → small R (add_sess 0 (add_svc 0 no_refs)).
Proof. unfold few_devs, small. simpl. lia. Qed.

(** What the driver's state satisfies between two requests. *)
Record driver_ok (L : gset Z) (D : drv) : Prop := {
  ok_inv : reg_inv (regd D) no_refs;
  ok_shares : shares_ok (regd D);
  ok_few : few_devs (regd D);
  ok_agents : agents_ok (dr_agents D);
  ok_pool : ba_owns (cs_pool (dr_call D)) L
}.

(** Addresses [kzalloc] may return. *)
Definition fresh (R : registry) (g : kernel_gives) : Prop :=
  (zero_or_null_ptr (kz_service g) = false → g_services R !! kz_service g = None) ∧
  g_sessions R !! kz_session g = None.

Lemma restored_mem (k k' : state) m H L : restored k k' H L → restored k (with_mem k' m) H L.
Proof. intros []. by split. Qed.

(** The session requests return and restore everything but the sessions. *)
Lemma session_ioctl_inv (k : state) L dev cmd argp kz_service kz_session :
  reg_inv (cs_reg k) no_refs → shares_ok (cs_reg k) → few_devs (cs_reg k) →
  is_Some (g_devs (cs_reg k) !! dev) → ba_owns (cs_pool k) L →
  (zero_or_null_ptr kz_service = false → g_services (cs_reg k) !! kz_service = None) →
  g_sessions (cs_reg k) !! kz_session = None →
  ∃ k' ret, tc_client_session_ioctl fuel g_root k dev cmd argp kz_service kz_session
      = Ret (Some (k', ret)) ∧ restored k k' no_refs L.
Proof.
  intros HI Hsh Hf Hd Ho Hk1 Hk2. pose proof (few_small _ Hf) as Hsm.
  assert (∀ ret : Z, ∃ k' ret', Ret (Some (k, ret)) = Ret (Some (k', ret')) ∧ restored k k' no_refs L)
    as Hret by (intros ret; exists k, ret; split; [done|by split]).
  unfold tc_client_session_ioctl. destruct (argp =? 0); [apply Hret|].
  destruct (copy_from_user (cs_mem k) argp CONTEXT_LEN) as [left l].
  destruct (nonzero left); [apply Hret|].
  set (c := ctx_with_returns _ _ _).
  destruct (cmd =? TC_NS_CLIENT_IOCTL_SES_OPEN_REQ).
  { destruct (open_session_inv fuel Hfuel g_root k no_refs L dev c kz_service kz_session)
      as (k' & x & ret & -> & Ho' & HI' & Hsh' & Eg & Ed & _); try done.
    { unfold few_devs, small in *. simpl. lia. }
    { apply Z.mod_pos_bound. lia. }
    rewrite ret_bind. destruct (copy_to_user _ _ _) as [lo m]. eexists _, _. split; [done|].
    apply restored_mem. by split. }
  destruct (cmd =? TC_NS_CLIENT_IOCTL_SES_CLOSE_REQ).
  { destruct (close_session_inv fuel Hfuel k no_refs L dev c) as (k' & ret & -> & Hr & _); try done.
    rewrite ret_bind. by eexists _, _. }
  destruct (cmd =? TC_NS_CLIENT_IOCTL_SEND_CMD_REQ); [|apply Hret].
  unfold ioctl_session_send_cmd.
  destruct (send_cmd_inv fuel Hfuel k no_refs L dev c) as (k' & x & ret & -> & Hr & _); try done.
  rewrite ret_bind. destruct (copy_to_user _ _ _) as [lo m]. rewrite ret_bind. eexists _, _.
  split; [done|]. by apply restored_mem.
Qed.

(** [tc_ns_client_close] when its thread can be created. *)
Lemma client_close_inv L D g dev :
  driver_ok L D → is_Some (g_devs (regd D) !! dev) → thread_created g = true →
  ∃ D', tc_ns_client_close fuel D g dev = Ret (Some (D', 0)) ∧ driver_ok L D' ∧
    g_devs (regd D') = delete dev (g_devs (regd D)) ∧ kept dev (regd D) (regd D') ∧
    (∀ q s, g_sessions (regd D') !! q = Some s → owner s ≠ dev) ∧
    g_shared (regd D') = g_shared (regd D) ∧ agent_list (dr_agents D') = agent_list (dr_agents D).
Proof.
  intros [HI Hsh Hf HA Ho] [x Hx] Ht. unfold tc_ns_client_close, free_dev.
  assert (dev ≠ 0) as Hd0.
  { intros ->. apply (inv_dev_null _ _ HI), (inv_dev_heap _ _ HI). by rewrite Hx. }
  rewrite (proj2 (Z.eqb_neq dev 0)), Ht by done.
  assert (closing_ok dev L (dr_call D) x no_refs) as Hok.
  { split; try done; [by rewrite upd_dev_id|by apply few_small]. }
  destruct (close_unclosed_inv fuel Hfuel dev L (dr_call D) x no_refs Hok Hx)
    as (k' & y & -> & HC & Hz & [HI' Hsm' Hd' Hsh' Ho' _ _ _]).
  rewrite ret_bind. destruct (crash_all_ok (dr_agents D) dev HA Hd0) as (A1 & -> & HA1 & El1 & _).
  rewrite ret_bind. unfold del_dev_node, unlink. rewrite (proj2 (Z.eqb_neq dev 0)) by done.
  cbn [dr_call with_agents with_call cs_reg dr_agents].
  pose proof (cl_devs _ _ _ HC) as Ed. pose proof (cl_list _ _ _ HC) as El.
  rewrite decide_True by (rewrite El; apply (inv_dev_heap _ _ HI); by rewrite Hx).
  rewrite !ret_bind. destruct (clear_owner_ok A1 dev HA1) as (A2 & -> & HA2 & El2).
  rewrite !ret_bind. eexists. split; [done|]. simpl.
  assert (reg_inv (set_devs (cs_reg k') (delete dev (g_devs (cs_reg k')))
    (filter (λ q, q ≠ dev) (dev_file_list (cs_reg k')))) no_refs) as HI2.
  { pose proof (inv_delete_dev (upd_dev (cs_reg k') dev y) no_refs dev HI' eq_refl) as H2.
    unfold upd_dev, set_devs in *. simpl in *. rewrite delete_insert_eq in H2. apply H2.
    intros z p. rewrite lookup_insert_eq. intros [= <-]. apply Hz. }
  split; [split; simpl; try done|split_and!].
  - destruct Hsh' as [Hs1 Hs2]. split; [done|]. intros d' z q Hz'. simpl in Hz'.
    apply lookup_delete_Some in Hz' as [_ Hz']. eauto.
  - unfold few_devs in *. simpl.
    pose proof (length_filter (λ q, q ≠ dev) (dev_file_list (cs_reg k'))). rewrite El in *. lia.
  - by rewrite Ed.
  - apply (cl_kept _ _ _ HC).
  - intros q s Hs E.
    destruct (inv_all _ _ HI2 q) as [Hin|(p & v & Hv & Hq)]; [by eexists|by apply elem_of_nil in Hin|].
    destruct (inv_listed _ _ HI2 p v q Hv Hq) as (_ & s' & Hs' & _ & Hus).
    simpl in Hs'. rewrite Hs in Hs'. injection Hs' as <-. unfold uses in Hus. simpl in Hus.
    by rewrite E, lookup_delete_eq in Hus.
  - apply (cl_shared _ _ _ HC).
  - congruence.
Qed.

(** ** Closing a device file without open sessions *)

Definition no_session (R : registry) (dev : Z) : Prop :=
  ∀ q s, g_sessions R !! q = Some s → owner s ≠ dev.

(** Such a device file uses no service. *)
Lemma no_session_slots R dev x p :
  reg_inv R no_refs → g_devs R !! dev = Some x → no_session R dev → p ∈ services x → p = 0.
Proof.
  intros HI Hx Hn [i Hi]%list_elem_of_lookup. destruct (decide (p = 0)) as [|Hp]; [done|].
  destruct (inv_slot _ _ HI dev x i p Hx Hi Hp) as (v & _ & _ & [Hc _]).
  unfold slot_count in Hc. simpl in Hc. rewrite Z.add_0_r in Hc.
  apply cnt_pos_inv in Hc as (q & _ & Hq). unfold owned in Hq.
  destruct (g_sessions R !! q) as [s|] eqn:Hs; [|done]. apply Z.eqb_eq in Hq. by apply Hn in Hs.
Qed.

Lemma unclosed_none (k : state) dev x b :
  g_devs (cs_reg k) !! dev = Some x → (∀ p, p ∈ services x → p = 0) →
  close_unclosed_session_in_kthread fuel k dev b = Ret (Some k).
Proof.
  intros Hx Hz. unfold close_unclosed_session_in_kthread, if_exist_unclosed_session.
  destruct (dev =? 0); [done|]. rewrite (proj2 (at_index_Some _ _ _) Hx), ret_bind.
  destruct (exist_unclosed_loop (cs_reg k) (services x)) as [[|]|] eqn:E; [|done|]; exfalso;
    revert E; clear Hx; induction (services x) as [|p l IH]; cbn [exist_unclosed_loop]; try done;
    unfold slot_busy; rewrite (Hz p) by left; rewrite Z.eqb_refl, ret_bind;
    apply IH; intros; apply Hz; by right.
Qed.

(** Unlinking and freeing the device file, whatever its agents become. *)
Lemma drop_dev_ok L D A dev x :
  driver_ok L D → g_devs (regd D) !! dev = Some x → (∀ p, p ∈ services x → p = 0) → agents_ok A →
  driver_ok L (with_agents (with_call D (with_reg (dr_call D)
    (set_devs (regd D) (delete dev (g_devs (regd D)))
       (filter (λ q, q ≠ dev) (dev_file_list (regd D)))))) A).
Proof.
  intros [HI Hsh Hf _ Ho] Hx Hz HA. split; simpl; try done.
  - apply inv_delete_dev; [done|done|]. intros y p. rewrite Hx. intros [= <-]. apply Hz.
  - destruct Hsh as [H1 H2]. split; [done|]. intros d' z q Hz'. simpl in Hz'.
    apply lookup_delete_Some in Hz' as [_ Hz']. eauto.
  - unfold few_devs in *. simpl. pose proof (length_filter (λ q, q ≠ dev) (dev_file_list (regd D))).
    lia.
Qed.

Lemma unlink_dev R dev :
  reg_inv R no_refs → is_Some (g_devs R !! dev) →
  dev ≠ 0 ∧ del_dev_node R dev
    = Ret (set_devs R (g_devs R) (filter (λ q, q ≠ dev) (dev_file_list R))).
Proof.
  intros HI Hd. pose proof (proj2 (inv_dev_heap _ _ HI dev) Hd) as Hin.
  assert (dev ≠ 0) as Hd0 by (intros ->; by apply (inv_dev_null _ _ HI)).
  split; [done|]. unfold del_dev_node, unlink.
  by rewrite (proj2 (Z.eqb_neq dev 0)), decide_True, ret_bind by done.
Qed.

Lemma free_dev_ok L D A dev x :
  driver_ok L D → g_devs (regd D) !! dev = Some x → (∀ p, p ∈ services x → p = 0) → agents_ok A →
  ∃ D', free_dev (with_agents D A) dev = Ret D' ∧ driver_ok L D'.
Proof.
  intros Hok Hx Hz HA. unfold free_dev. cbn [dr_call with_agents dr_agents].
  destruct (unlink_dev (regd D) dev) as [_ ->]; [apply Hok|by eexists|]. rewrite ret_bind.
  destruct (clear_owner_ok A dev HA) as (A' & -> & HA' & _). rewrite ret_bind.
  eexists. split; [done|]. by eapply (drop_dev_ok L D A').
Qed.

(** The driver without the device file. *)
Definition without_dev (D : drv) (dev : Z) (A : agent_control) : drv :=
  with_agents (with_call D (with_reg (dr_call D)
    (set_devs (regd D) (delete dev (g_devs (regd D)))
       (filter (λ q, q ≠ dev) (dev_file_list (regd D)))))) A.

(** The exiting daemon closes a device file: it is unlinked and freed, its
    sessions are left alone. *)
Lemma exiting_close L D g dev :
  driver_ok L D → is_Some (g_devs (regd D) !! dev) →
  is_teecd D && (leader_exiting || current_exiting) = true →
  ∃ A, tc_client_close fuel D g dev = Ret (Some (without_dev D dev A, 0)) ∧ agents_ok A.
Proof.
  intros [HI _ _ HA _] Hd Hx. destruct (unlink_dev (regd D) dev HI Hd) as [Hd0 Eu].
  unfold tc_client_close. rewrite Hx. unfold is_system_agent, send_event_response_single.
  rewrite (proj2 (Z.eqb_neq dev 0)) by done.
  destruct (find_listed (dr_agents D) (has_owner dev) HA)
    as (p & E & [[-> _]|(Hp & _ & d & Hev & _)]); rewrite E, !ret_bind.
  - change (nonzero 0) with false. cbv iota. unfold teec_daemon_close.
    rewrite (proj2 (Z.eqb_neq dev 0)), Eu, !ret_bind by done.
    exists (dr_agents D). split; [by destruct D|done].
  - rewrite (proj2 (nonzero_true p)), (proj2 (Z.eqb_neq p 0)) by done.
    rewrite (proj2 (at_index_Some _ _ _) Hev), !ret_bind.
    destruct (send_event_response_ok (dr_agents D) (ev_agent_id d) HA) as (A1 & -> & HA1 & _).
    rewrite ret_bind. unfold free_dev. cbn [dr_call with_agents dr_agents]. rewrite Eu, ret_bind.
    destruct (clear_owner_ok A1 dev HA1) as (A2 & -> & HA2 & _). rewrite !ret_bind.
    by exists A2.
Qed.

(** Who may close: anyone, if the device file has no open session; otherwise the
    thread that closes the sessions can be created and the caller is not the
    exiting daemon, which skips that. *)
Definition closable (D : drv) (g : kernel_gives) (dev : Z) : Prop :=
  (thread_created g = true ∧ is_teecd D && (leader_exiting || current_exiting) = false) ∨
  no_session (regd D) dev.

Lemma client_close_ok L D g dev :
  driver_ok L D → is_Some (g_devs (regd D) !! dev) → closable D g dev →
  ∃ D', tc_client_close fuel D g dev = Ret (Some (D', 0)) ∧ driver_ok L D'.
Proof.
  intros Hok Hd [[Ht Hn]|Hns]; unfold tc_client_close.
  { rewrite Hn. destruct (client_close_inv L D g dev) as (D' & -> & ? & _); try done. by eexists. }
  destruct Hd as [x Hx]. pose proof (ok_inv _ _ Hok) as HI.
  assert (∀ p, p ∈ services x → p = 0) as Hz by (intros p; by eapply no_session_slots).
  destruct (is_teecd D && (leader_exiting || current_exiting)) eqn:Hex.
  { destruct (exiting_close L D g dev Hok (ex_intro _ x Hx) Hex) as (A & E & HA).
    unfold tc_client_close in E. rewrite Hex in E. exists (without_dev D dev A).
    split; [exact E|]. by eapply drop_dev_ok. }
  unfold tc_ns_client_close. destruct (unlink_dev (regd D) dev HI) as [Hd0 _]; [by eexists|].
  rewrite (proj2 (Z.eqb_neq dev 0)), (unclosed_none _ _ _ _ Hx Hz), ret_bind by done.
  destruct (crash_all_ok (dr_agents D) dev (ok_agents _ _ Hok) Hd0) as (A1 & -> & HA1 & _).
  rewrite ret_bind. assert (with_call D (dr_call D) = D) as -> by by destruct D.
  destruct (free_dev_ok L D A1 dev x) as (D' & -> & Hok'); try done.
  rewrite ret_bind. by eexists.
Qed.

End Steps.
