(* ===== verification/DriverClaims.v ===== *)
(** * Properties of the driver's requests *)

From stdpp Require Import base gmap list relations.
From Stdlib Require Import ZArith Lia.
From S2P Require Import Prelude KernelApi TeeTypes Buffers Mailbox MailboxClaims SessReg.
From S2P Require Import SessLookup SessOk CallTypes Auth AuthCall AuthOk GpParams GpCall GpHeld.
From S2P Require Import GpAlloc GpCallThm GpClaims Tlogger TloggerSys Agent AgentReg AgentThm AgentClaims.
From S2P Require Import TeecdAuth TeecdClaims SessLoad SessMgr SessInv SessInvOps SessInvFind.
From S2P Require Import SessMgrThm SessUse Login ShareMem ShareMemClaims Driver DevClose DriverThm.
From S2P Require Import AuthCipher DriverSteps.

Section Claims.
Context {Env St : Type} {BA : BlockAllocator St} {BAL : BlockAllocatorLaws St BA}.
Context {SMC : SmcChannel Env} {TB : TeeBehaviour Env SMC}.
Context {P : PageMap} {SC : SecureC} {SB : SecureBuf} {CM : ClientMem} {UA : UserAccess}.
Context {KR : KernelRandom} {KC : KernelCipher} {KA : KernelAlloc} {CU : Current}.
Context {VV : VirtValid} {VL : VirtValidLaws St BA VV} {CR : Caller} {DL : DevLayout}.
Context {SS : SecureStr} {HS : Shash} {TK : Task} {UM : UserMap} {TS : TaskState}.
Context (allowed : list ca_info) (fuel : nat) (g_root : session_crypto_info).

Abbreviation state := (call_state Env St).
Abbreviation drv := (driver Env St).
Abbreviation regd D := (cs_reg (dr_call D)).

(** The TEE answers [TEEC_PENDING] fewer than [fuel] times. *)
Definition tee_bounded : Prop := ∀ e m o c, (tee_rank (tc_ns_smc e m o c).1.1.1.1 < fuel)%nat.

(** C14. Opening a session is all or nothing.  Whatever fails (the login check,
    an allocation, the loading of the TA, the secure parameters, the TEE),
    [tc_ns_open_session] returns; every counter of the registry still counts
    exactly what refers to it, the mailbox owns the blocks it owned, and all
    other sessions keep their id, owner and count.  With status 0 the new
    session is on the list of the service with the requested uuid, owned by
    the device file, under the id the TEE gave, with one reference; with any
    other status it does not exist. *)
Theorem open_session_all_or_nothing (k : state) L dev c kz_service kz_session :
  tee_bounded → reg_inv (cs_reg k) no_refs → shares_ok (cs_reg k) → few_devs (cs_reg k) →
  is_Some (g_devs (cs_reg k) !! dev) →
  (zero_or_null_ptr kz_service = false → g_services (cs_reg k) !! kz_service = None) →
  g_sessions (cs_reg k) !! kz_session = None →
  ba_owns (cs_pool k) L → 0 ≤ file_size c < 2 ^ 32 →
  ∃ k' x ret, tc_ns_open_session fuel g_root k dev c kz_service kz_session = Ret (Some (k', x, ret)) ∧
    restored k k' no_refs L ∧ same_keys kz_session (cs_reg k) (cs_reg k') ∧
    (ret = 0 → session_open (cs_reg k') dev kz_session (ctx_uuid c) (ctx_session_id x)) ∧
    (ret ≠ 0 → g_sessions (cs_reg k') !! kz_session = None).
Proof.
  intros Hf HI Hsh Hfew Hd H1 H2 Ho Hfs.
  destruct (open_session_inv fuel Hf g_root k no_refs L dev c kz_service kz_session)
    as (k' & x & ret & E & ? & ? & ? & ? & ? & ? & ? & ?); try done.
  { unfold few_devs, small in *. simpl. lia. }
  exists k', x, ret. split_and!; try done.
Qed.

(** C15. Closing a session removes exactly that session.  [tc_ns_close_session]
    returns whatever the TEE answers; the counters stay exact and the mailbox
    owns what it owned.  With status 0 there was a session of this device file
    with this uuid and id, it is gone, and all others keep their id, owner and
    count; otherwise no session changes. *)
Theorem close_session_exact (k : state) L dev c :
  tee_bounded → reg_inv (cs_reg k) no_refs → shares_ok (cs_reg k) → few_devs (cs_reg k) →
  is_Some (g_devs (cs_reg k) !! dev) → ba_owns (cs_pool k) L →
  ∃ k' ret, tc_ns_close_session fuel k dev c = Ret (Some (k', ret)) ∧ restored k k' no_refs L ∧
    (ret ≠ 0 → all_keys (cs_reg k) (cs_reg k')) ∧
    (ret = 0 → ∃ q, session_open (cs_reg k) dev q (ctx_uuid c) (ctx_session_id c) ∧
       same_keys q (cs_reg k) (cs_reg k') ∧ g_sessions (cs_reg k') !! q = None).
Proof.
  intros Hf HI Hsh Hfew Hd Ho. apply close_session_inv; try done. by apply few_small.
Qed.

(** C16. Closing the device releases everything the client held.  When its
    thread can be created, [tc_ns_client_close] returns 0 whatever the TEE
    answers; afterwards the device file is gone, no session is owned by it,
    the sessions of all other device files keep their id, owner and count, and
    every counter of the registry is exact again. *)
Theorem client_close_releases L (D : drv) g dev :
  tee_bounded → driver_ok L D → is_Some (g_devs (regd D) !! dev) → thread_created g = true →
  ∃ D', tc_ns_client_close fuel D g dev = Ret (Some (D', 0)) ∧ driver_ok L D' ∧
    g_devs (regd D') = delete dev (g_devs (regd D)) ∧ kept dev (regd D) (regd D') ∧
    (∀ q s, g_sessions (regd D') !! q = Some s → owner s ≠ dev).
Proof.
  intros Hf Hok Hd Ht. destruct (client_close_inv fuel Hf L D g dev) as (D' & E & ? & ? & ? & ? & _); try done.
  by exists D'.
Qed.

(** When the thread that closes the sessions cannot be created, the
    sessions survive their owner: [tc_ns_client_close] still returns 0 and
    frees the device file, and every session of the device file stays on the
    list of its service, with an owner that no longer exists. *)
Theorem close_without_thread_leaks L (D : drv) g dev p v q s :
  driver_ok L D → is_Some (g_devs (regd D) !! dev) → thread_created g = false →
  g_services (regd D) !! p = Some v → q ∈ session_list v →
  g_sessions (regd D) !! q = Some s → owner s = dev →
  ∃ D', tc_ns_client_close fuel D g dev = Ret (Some (D', 0)) ∧
    g_services (regd D') !! p = Some v ∧ g_sessions (regd D') !! q = Some s ∧
    g_devs (regd D') !! owner s = None.
Proof.
  intros [HI Hsh Hfew HA Ho] [x Hx] Ht Hv Hq Hs Hown. unfold tc_ns_client_close, free_dev.
  assert (dev ≠ 0) as Hd0.
  { intros ->. apply (inv_dev_null _ _ HI), (inv_dev_heap _ _ HI). by rewrite Hx. }
  rewrite (proj2 (Z.eqb_neq dev 0)), Ht by done.
  unfold close_unclosed_session_in_kthread, if_exist_unclosed_session.
  rewrite (proj2 (Z.eqb_neq dev 0)), (proj2 (at_index_Some _ _ _) Hx), ret_bind by done.
  destruct (exist_unclosed_cases (regd D) (services x)) as (b & -> & _).
  { intros p' [i Hi]%list_elem_of_lookup. destruct (decide (p' = 0)) as [|Hp]; [by left|right].
    destruct (inv_slot _ _ HI dev x i p' Hx Hi Hp) as (v' & Hv' & _ & Hc). exists v'. split; [done|].
    intros E. unfold slot_count in Hc. rewrite E in Hc. simpl in Hc. lia. }
  rewrite ret_bind.
  assert ((if negb b then Ret (Some (dr_call D)) else if negb false then Ret (Some (dr_call D))
    else close_session_thread_fn fuel (dr_call D) dev) = Ret (Some (dr_call D))) as -> by by destruct b.
  rewrite ret_bind. destruct (crash_all_ok (dr_agents D) dev HA Hd0) as (A1 & -> & HA1 & _).
  rewrite ret_bind. unfold del_dev_node, unlink. rewrite (proj2 (Z.eqb_neq dev 0)) by done.
  cbn [dr_call with_agents with_call cs_reg dr_agents].
  rewrite decide_True by (apply (inv_dev_heap _ _ HI); by rewrite Hx).
  rewrite !ret_bind. destruct (clear_owner_ok A1 dev HA1) as (A2 & -> & _).
  rewrite !ret_bind. eexists. split; [done|]. simpl. split_and!; try done.
  rewrite Hown. apply lookup_delete_eq.
Qed.

(** So they do when the exiting daemon closes the device file. *)
Lemma exiting_close_leaks L (D : drv) g dev q s :
  driver_ok L D → is_Some (g_devs (regd D) !! dev) →
  is_teecd D && (leader_exiting || current_exiting) = true →
  g_sessions (regd D) !! q = Some s → owner s = dev →
  ∃ D', tc_client_close fuel D g dev = Ret (Some (D', 0)) ∧
    g_sessions (regd D') !! q = Some s ∧ g_devs (regd D') !! owner s = None.
Proof.
  intros Hok Hd Hx Hs Ho. destruct (exiting_close fuel L D g dev Hok Hd Hx) as (A & E & _).
  exists (without_dev D dev A). split; [exact E|]. split; [exact Hs|].
  rewrite Ho. apply lookup_delete_eq.
Qed.

(** ** Sequences of requests *)

(** Opening the device, the session requests and the login through
    [tc_client_ioctl], and closing the device, whatever status they return.
    A device file is closed only in a way that closes its sessions: see
    [close_without_thread_leaks] and [exiting_close_leaks] for the others. *)
Inductive request : drv → drv → Prop :=
| rq_open D g kz D' ret dev :
    g_devs (regd D) !! kz = None → tc_client_open D g kz = Ret (D', ret, dev) →
    few_devs (regd D') → request D D'
| rq_ioctl D g dev cmd arg D' ret :
    is_Some (g_devs (regd D) !! dev) → fresh (regd D) g →
    is_session_ioctl cmd = true ∨ cmd = TC_NS_CLIENT_IOCTL_LOGIN →
    tc_client_ioctl allowed fuel g_root D g dev cmd arg = Ret (Some (D', ret)) → request D D'
| rq_close D g dev D' ret :
    is_Some (g_devs (regd D) !! dev) → closable D g dev →
    tc_client_close fuel D g dev = Ret (Some (D', ret)) → request D D'.

Lemma restored_driver_ok L (D : drv) k' :
  driver_ok L D → restored (dr_call D) k' no_refs L → driver_ok L (with_call D k').
Proof.
  intros [HI Hsh Hfew HA Ho] [Hp Hi Hs _ Hd]. split; try done. unfold few_devs. simpl. by rewrite Hd.
Qed.

Lemma open_step_ok L (D : drv) g kz (D' : drv) ret dev :
  driver_ok L D → g_devs (regd D) !! kz = None → tc_client_open D g kz = Ret (D', ret, dev) →
  few_devs (regd D') → driver_ok L D'.
Proof.
  intros [HI Hsh Hfew HA Ho] Hk E Hf. unfold tc_client_open in E.
  apply bind_Ret in E as ([t r] & _ & E). destruct (nonzero r); [by injection E as <- _ _|].
  unfold tc_ns_client_open in E. destruct (zero_or_null_ptr kz) eqn:Ez; [by injection E as <- _ _|].
  injection E as <- _ _. assert (kz ≠ 0) by by intros ->. split; simpl; try done.
  - pose proof (inv_new_dev _ _ kz (g_device_file_cnt (regd D)) TEE_REQ_FROM_USER_MODE HI) as HI'.
    by apply (inv_file_cnt (set_devs _ _ _)), HI'.
  - destruct Hsh as [H1 H2]. split; [done|]. simpl. intros d x q. rewrite lookup_insert_Some.
    intros [[_ <-]|[_ Hx]] Hq; [by apply elem_of_nil in Hq|eauto].
Qed.

Lemma login_step_ok L (D : drv) g dev arg (D' : drv) ret :
  driver_ok L D → is_Some (g_devs (regd D) !! dev) →
  tc_client_ioctl allowed fuel g_root D g dev TC_NS_CLIENT_IOCTL_LOGIN arg = Ret (Some (D', ret)) →
  driver_ok L D'.
Proof.
  intros Hok [x Hx] E. pose proof Hok as [HI Hsh Hfew HA Ho].
  unfold tc_client_ioctl in E. change (is_session_ioctl TC_NS_CLIENT_IOCTL_LOGIN) with false in E.
  change (TC_NS_CLIENT_IOCTL_LOGIN =? TC_NS_CLIENT_IOCTL_LOAD_APP_REQ) with false in E.
  change (TC_NS_CLIENT_IOCTL_LOGIN =? TC_NS_CLIENT_IOCTL_CANCEL_CMD_REQ) with false in E.
  rewrite Z.eqb_refl in E. cbv iota zeta in E.
  apply bind_Ret in E as ([[t R] r] & El & E). injection E as <- <-.
  assert (R = regd D ∨ ∃ y, R = upd_dev (regd D) dev y ∧ login_frame x y) as HR.
  { unfold tc_ns_client_login_func in El. destruct (dev =? 0); [injection El; auto|].
    rewrite (proj2 (at_index_Some _ _ _) Hx), ret_bind in El.
    destruct (arg =? 0); [injection El as _ <- _; right; by eexists|].
    destruct (login_setup x); [injection El; auto|].
    apply bind_Ret in El as ([[t1 r1] n] & _ & El). destruct (nonzero r1); [injection El; auto|].
    destruct (client_login_prepare _ _ _) as [r2 cert]. destruct (nonzero r2); [injection El; auto|].
    pose proof (parse_login_frame x cert) as Hp. destruct (parse_login x cert) as [y r3].
    injection El as _ <- _. right. by exists y. }
  destruct HR as [->|(y & -> & Hs & Hr & Hm)]; split; simpl; try done.
  - by eapply inv_dev_data.
  - eapply shares_frame; [|done]. by eapply upd_dev_frame.
Qed.

Lemma request_ok L D D' : tee_bounded → driver_ok L D → request D D' → driver_ok L D'.
Proof.
  intros Hf Hok Hr.
  destruct Hr as [D0 g kz D1 ret dev Hk E Hfew|D0 g dev cmd arg D1 ret Hd Hfr Hc E|D0 g dev D1 ret Hd Hc E].
  - by eapply open_step_ok.
  - destruct Hc as [Hc| ->]; [|by eapply login_step_ok].
    unfold tc_client_ioctl in E. rewrite Hc in E. destruct Hfr as [H1 H2].
    pose proof Hok as [HI Hsh Hfew HA Ho].
    destruct (session_ioctl_inv fuel g_root Hf (dr_call D0) L dev cmd arg (kz_service g) (kz_session g))
      as (k' & r & E' & Hr); try done.
    rewrite E', ret_bind in E. injection E as <- _. by apply restored_driver_ok.
  - destruct (client_close_ok fuel Hf L D0 g dev) as (D2 & E2 & Hok2); try done.
    rewrite E2 in E. by injection E as <- _.
Qed.

(** ** What every sequence of requests keeps *)

Lemma requests_ok L D D' : tee_bounded → driver_ok L D → rtc request D D' → driver_ok L D'.
Proof.
  intros Hf Hok Hs. induction Hs as [|D1 D2 D3 Hr _ IH]; [done|]. apply IH. by eapply request_ok.
Qed.

Lemma next_ioctl L (D : drv) g dev cmd arg :
  tee_bounded → driver_ok L D → is_Some (g_devs (regd D) !! dev) → fresh (regd D) g →
  is_session_ioctl cmd = true →
  ∃ D' ret, tc_client_ioctl allowed fuel g_root D g dev cmd arg = Ret (Some (D', ret)).
Proof.
  intros Hf [HI Hsh Hfew HA Ho] Hd [H1 H2] Hc.
  destruct (session_ioctl_inv fuel g_root Hf (dr_call D) L dev cmd arg (kz_service g) (kz_session g))
    as (k' & r & E' & Hr); try done.
  unfold tc_client_ioctl. rewrite Hc, E', ret_bind. by eexists _, _.
Qed.

Lemma next_close L (D : drv) g dev :
  tee_bounded → driver_ok L D → is_Some (g_devs (regd D) !! dev) → closable D g dev →
  ∃ D', tc_client_close fuel D g dev = Ret (Some (D', 0)).
Proof.
  intros Hf Hok Hd Ht. destruct (client_close_ok fuel Hf L D g dev) as (D2 & E2 & _); try done.
  by exists D2.
Qed.

(** C13. Requests keep the registry exact.  From a driver whose counters are
    exact, take any sequence of opening the device, opening, using and closing
    sessions, logging in and closing the device, each with whatever status it
    returns, in which a device file that has open sessions is closed neither by
    the exiting daemon nor when the kernel cannot create the closing thread
    (these two leave the sessions without an owner), and in which the TEE answers every command after
    fewer than [fuel] pending answers.  Then the counters are exact again (each
    slot counts its sessions, each service the device files that use it, each
    session its users, and nothing is listed that was freed), the mailbox owns
    the blocks it owned, and the next session request, and the next such close,
    returns without a fault. *)
Theorem requests_keep_counts L (D D' : drv) :
  tee_bounded → driver_ok L D → rtc request D D' →
  driver_ok L D' ∧
  (∀ g dev cmd arg, is_Some (g_devs (regd D') !! dev) → fresh (regd D') g →
     is_session_ioctl cmd = true →
     ∃ D'' ret, tc_client_ioctl allowed fuel g_root D' g dev cmd arg = Ret (Some (D'', ret))) ∧
  (∀ g dev, is_Some (g_devs (regd D') !! dev) → closable D' g dev →
     ∃ D'', tc_client_close fuel D' g dev = Ret (Some (D'', 0))).
Proof.
  intros Hf Hok Hs. pose proof (requests_ok L D D' Hf Hok Hs) as Hok'.
  split; [done|]. split; intros *; [by apply (next_ioctl L)|by apply (next_close L)].
Qed.

End Claims.

(** ** A device file with one session *)

Section Demo.
#[local] Existing Instance linear_map.
#[local] Existing Instance boundscheck.
#[local] Existing Instance bounds_buf.
#[local] Existing Instance bounds_str.
#[local] Existing Instance flat_client.
#[local] Existing Instance patient_tee.
#[local] Existing Instance demo_random.
#[local] Existing Instance xor_cipher.
#[local] Existing Instance demo_alloc_ok_all.
#[local] Existing Instance demo_current.
#[local] Existing Instance linear_valid.
#[local] Existing Instance root_caller.
#[local] Existing Instance copy_hash.
#[local] Existing Instance working_map.

#[local] Instance demo_access_ok : UserAccess := {| access_ok _ _ := true; get_user_u32 _ _ := 0 |}.
#[local] Instance demo_layout : DevLayout :=
  {| off_pkg_name_len := 64; off_pkg_name := 68; off_pub_key_len := 328; off_pub_key := 332 |}.
#[local] Instance demo_process : Task := demo_task 4096 4196 plain_page.
#[local] Instance demo_task_state : TaskState :=
  {| group_leader := 77; leader_exiting := false; current_exiting := false |}.

Definition demo_uuid : list Z := replicate 16 7.

Definition open_dev : tc_ns_dev_file :=
  DevFile 1 (1 :: replicate 31 0) (2000 :: replicate 31 0) 0 true 2 [99; 97] 4 [1; 2; 3; 4] 0 [].

Definition open_registry : registry :=
  Registry {[ 3000 := Session 5 1000 zero_secure_info (Token None 0) [] 0 1 ]}
    {[ 2000 := Service demo_uuid [3000] 1 ]} {[ 1000 := open_dev ]} ∅ [2000] [1000] 2.

Definition open_state : call_state nat mailbox :=
  CallState 0%nat demo_pool ∅ open_registry demo_op INVALID_TZMP_UID.

Definition open_driver : driver nat mailbox :=
  Driver open_state (AgentControl ∅ []) teecd_init 0.

Definition demo_gives (thread : bool) : kernel_gives :=
  KernelGives 2500 3500 4500 0x8000 true thread (λ A, (A, 0)).

Lemma open_dev_slot i p : services open_dev !! i = Some p → p ≠ 0 → i = 0%nat ∧ p = 2000.
Proof.
  destruct i as [|i]; simpl; [by intros [= <-]|]. intros Hi Hp. exfalso. apply Hp.
  change (replicate 31 0 !! i = Some p) in Hi. by apply lookup_replicate in Hi as [-> _].
Qed.

Lemma open_registry_inv : reg_inv open_registry no_refs.
Proof.
  split; simpl.
  - apply NoDup_singleton.
  - intros d. rewrite list_elem_of_singleton, lookup_singleton_is_Some. done.
  - by intros ?%list_elem_of_singleton.
  - apply NoDup_singleton.
  - intros p. rewrite list_elem_of_singleton, lookup_singleton_is_Some. done.
  - by intros ?%list_elem_of_singleton.
  - intros d x [_ <-]%lookup_singleton_Some. done.
  - intros d x i p [<- <-]%lookup_singleton_Some Hi Hp.
    destruct (open_dev_slot i p Hi Hp) as [-> ->]. eexists. rewrite lookup_singleton_eq.
    split; [done|]. split; [done|]. vm_compute. by split.
  - intros d x i j p [_ <-]%lookup_singleton_Some Hi Hj Hp.
    destruct (open_dev_slot i p Hi Hp) as [-> _]. by destruct (open_dev_slot j p Hj Hp) as [-> _].
  - intros p q v w [<- _]%lookup_singleton_Some [<- _]%lookup_singleton_Some. done.
  - intros p v [<- <-]%lookup_singleton_Some. done.
  - intros p v [_ <-]%lookup_singleton_Some. apply NoDup_singleton.
  - intros p v q [<- <-]%lookup_singleton_Some ->%list_elem_of_singleton. split; [done|].
    eexists. rewrite lookup_singleton_eq. done.
  - intros p p' v v' q [<- _]%lookup_singleton_Some [<- _]%lookup_singleton_Some. done.
  - intros q <-%lookup_singleton_is_Some. right. eexists 2000, _. rewrite lookup_singleton_eq.
    split; [done|]. by apply list_elem_of_singleton.
  - intros q Hq. by apply elem_of_nil in Hq.
  - intros d p Hp. by apply elem_of_nil in Hp.
  - intros p Hp. by apply elem_of_nil in Hp.
  - intros q Hq. by apply elem_of_nil in Hq.
Qed.

Lemma open_registry_shares : shares_ok open_registry.
Proof.
  split; simpl.
  - intros p x Hx. by rewrite lookup_empty in Hx.
  - intros d x q [_ <-]%lookup_singleton_Some Hq. by apply elem_of_nil in Hq.
Qed.

Lemma open_driver_ok : driver_ok ∅ open_driver.
Proof.
  split; [exact open_registry_inv|exact open_registry_shares|done|exact no_agents_ok|exact demo_pool_owns].
Qed.

Definition demo_root : session_crypto_info := CryptoInfo (replicate 32 1) (replicate 16 0).

(** A request for a session with the same TA, by name. *)
Definition demo_open_context : tc_ns_client_context :=
  ClientContext demo_uuid 0 0 0 0 TEEC_LOGIN_IDENTIFY 0 (replicate 4 (ClientParam 0 0 0)) 0 0 0 0 0 0 0.

Lemma open_session_all_or_nothing_witness :
  ∃ k' x ret, tc_ns_open_session 2 demo_root open_state 1000 demo_open_context 2500 3500
      = Ret (Some (k', x, ret)) ∧ restored open_state k' no_refs ∅.
Proof.
  destruct (open_session_all_or_nothing 2 demo_root open_state ∅ 1000 demo_open_context 2500 3500)
    as (k' & x & ret & E & Hr & _);
    [exact (λ _ _ _ _, le_n 2)|exact open_registry_inv|exact open_registry_shares|reflexivity
    |eexists; reflexivity|intros _; reflexivity|reflexivity|exact demo_pool_owns|simpl; lia|].
  exists k', x, ret. split; [exact E|exact Hr].
Defined.

Definition demo_close_context : tc_ns_client_context :=
  ClientContext demo_uuid 5 0 0 0 0 0 (replicate 4 (ClientParam 0 0 0)) 0 0 0 0 0 0 0.

Lemma close_session_exact_witness :
  ∃ k' q, tc_ns_close_session 2 open_state 1000 demo_close_context = Ret (Some (k', 0)) ∧
    session_open open_registry 1000 q demo_uuid 5 ∧ g_sessions (cs_reg k') !! q = None.
Proof.
  destruct (close_session_exact 2 open_state ∅ 1000 demo_close_context)
    as (k' & ret & E & _ & _ & Hr);
    [exact (λ _ _ _ _, le_n 2)|exact open_registry_inv|exact open_registry_shares|reflexivity
    |eexists; reflexivity|exact demo_pool_owns|].
  assert (match tc_ns_close_session 2 open_state 1000 demo_close_context with
          | Ret (Some (_, r)) => r =? 0 | _ => false end = true) as H0 by (vm_compute; reflexivity).
  rewrite E in H0. apply Z.eqb_eq in H0. destruct (Hr H0) as (q & Ho & _ & Hn).
  exists k', q. rewrite <- H0 at 1. split; [exact E|]. split; [exact Ho|exact Hn].
Defined.

Lemma client_close_releases_witness :
  ∃ D', tc_ns_client_close 2 open_driver (demo_gives true) 1000 = Ret (Some (D', 0)) ∧
    driver_ok ∅ D' ∧ g_devs (cs_reg (dr_call D')) = delete 1000 {[ 1000 := open_dev ]}.
Proof.
  destruct (client_close_releases 2 ∅ open_driver (demo_gives true) 1000) as (D' & E & Hok & Hd & _);
    [exact (λ _ _ _ _, le_n 2)|exact open_driver_ok|eexists; reflexivity|reflexivity|].
  exists D'. split; [exact E|]. split; [exact Hok|exact Hd].
Defined.

Lemma close_without_thread_leaks_witness :
  ∃ D', tc_ns_client_close 2 open_driver (demo_gives false) 1000 = Ret (Some (D', 0)) ∧
    is_Some (g_sessions (cs_reg (dr_call D')) !! 3000) ∧ g_devs (cs_reg (dr_call D')) !! 1000 = None.
Proof.
  destruct (close_without_thread_leaks 2 ∅ open_driver (demo_gives false) 1000 2000
    (Service demo_uuid [3000] 1) 3000 (Session 5 1000 zero_secure_info (Token None 0) [] 0 1))
    as (D' & E & _ & Hs & Hd);
    [exact open_driver_ok|eexists; reflexivity|reflexivity|reflexivity|left|reflexivity|reflexivity|].
  exists D'. split; [exact E|]. split; [eexists; exact Hs|exact Hd].
Defined.

Lemma requests_keep_counts_witness :
  ∃ D' : driver nat mailbox, D' ≠ open_driver ∧ driver_ok ∅ D'.
Proof.
  destruct (client_close_inv (SMC := patient_tee) (TB := patient_tee_behaves) (BA := demo_blocks) 2 (λ _ _ _ _, le_n 2) ∅ open_driver
    (demo_gives true) 1000 open_driver_ok (ex_intro _ open_dev eq_refl) eq_refl)
    as (D' & E & _ & Hd & _).
  exists D'. split.
  - intros ->. assert (g_devs open_registry !! 1000 = None) as Hn
      by (change (g_devs open_registry) with (g_devs (cs_reg (dr_call open_driver)));
          rewrite Hd; reflexivity).
    discriminate Hn.
  - refine (proj1 (requests_keep_counts (SMC := patient_tee) (TB := patient_tee_behaves)
      (BA := demo_blocks) [] 2 demo_root ∅ open_driver D' (λ _ _ _ _, le_n 2) open_driver_ok _)).
    apply rtc_once. apply (rq_close [] 2 demo_root open_driver (demo_gives true) 1000 D' 0);
      [eexists; reflexivity|left; split; reflexivity|exact E].
Defined.

End Demo.
