(* ===== verification/Spi.v ===== *)
(** * Notifications from the TEE (core/tz_spi_notify.c)

    The TEE writes entries into a page it shares with the driver and raises an
    interrupt; a work item takes the entries one by one under a spin lock and
    acts on them: it wakes a caller, starts a shadow thread, serves a fast
    interrupt, or signals a timer to a session and to registered callbacks.

    An entry's context is a union: it is kept as its 48 bytes, which every
    handler decodes for itself.  The notification pages are a heap indexed by
    address, and the frames behind them a set of page addresses. *)

From stdpp Require Import base gmap list.
From Stdlib Require Import ZArith Lia.
From S2P Require Import Prelude KernelApi TeeTypes Buffers Mailbox MailboxClaims SessReg.
From S2P Require Import CallTypes GpParams GpCall TloggerSys SmcPending SmcSend.

(** ** Data *)

Definition MAX_CALLBACK_COUNT : Z := 100.
Definition UUID_SIZE : Z := 16.

(** [enum timer_class_type] *)
Definition TIMER_GENERIC : Z := 0.
Definition TIMER_RTC : Z := 1.

Record teec_timer_property := TimerProperty {
  tp_type : Z;
  timer_id : Z;
  timer_class : Z;
  reserved2 : Z
}.

Record notify_context_timer := ContextTimer {
  nt_dev_file_id : Z;
  nt_uuid : list Z;
  nt_session_id : Z;
  property : teec_timer_property;
  expire_time : Z
}.

Record notify_data_entry := NotifyEntry {
  entry_type : Z;
  filled : bool;
  context : list Z
}.

(** The counters of the last entry of the page. *)
Record notify_context_stats := NotifyStats {
  send_s : Z;
  recv_s : Z;
  send_w : Z;
  recv_w : Z;
  missed : Z
}.

Record notify_data_struct := NotifyData {
  entry : list notify_data_entry;
  meta : notify_context_stats
}.

(** [sizeof(struct notify_data_entry)] is 56 on a 64-bit kernel, and
    [CONFIG_NOTIFY_PAGE_ORDER] is 4. *)
Definition NOTIFY_PAGES : Z := 16.
Definition NOTIFY_DATA_ENTRY_COUNT : Z := PAGE_SIZE * NOTIFY_PAGES / 56 - 1.

(** [enum notify_data_type] *)
Definition NOTIFY_DATA_ENTRY_UNUSED : Z := 0.
Definition NOTIFY_DATA_ENTRY_TIMER : Z := 1.
Definition NOTIFY_DATA_ENTRY_RTC : Z := 2.
Definition NOTIFY_DATA_ENTRY_WAKEUP : Z := 3.
Definition NOTIFY_DATA_ENTRY_SHADOW : Z := 4.
Definition NOTIFY_DATA_ENTRY_FIQSHD : Z := 5.
Definition NOTIFY_DATA_ENTRY_SHADOW_EXIT : Z := 6.

Record tc_ns_callback := Callback { cb_uuid : list Z; callback_func : Z }.

Record tc_ns_callback_list := CallbackList {
  callback_count : Z;
  callback_list : list tc_ns_callback
}.

(** The members of the union. *)
Definition context_word (c : list Z) (off n : Z) : Z := le_value (sub_buf c off n).

Definition context_timer (c : list Z) : notify_context_timer :=
  ContextTimer (context_word c 0 4) (sub_buf c 4 16) (context_word c 20 4)
    (TimerProperty (context_word c 24 4) (context_word c 28 4) (context_word c 32 4)
       (context_word c 36 4))
    (context_word c 40 4).

(** A [pid_t] is signed. *)
Definition context_ca_thread_id (c : list Z) : Z := s32 (context_word c 0 4).
Definition context_target_tcb (c : list Z) : Z := context_word c 0 8.

(** The static variables of the file.  [notify_frames] are the page frames held
    for notification pages; [tc_notify_works] is [None] until the first
    interrupt, then whether each work item is queued. *)
Record spi_state := SpiState {
  g_notify_data : Z;
  notify_heap : gmap Z notify_data_struct;
  notify_frames : gset Z;
  g_ta_callback_func_list : tc_ns_callback_list;
  tc_notify_works : option (list bool);
  g_tz_spi_wq : bool
}.

Definition spi_with_page (s : spi_state) (d : notify_data_struct) : spi_state :=
  SpiState (g_notify_data s) (<[g_notify_data s := d]> (notify_heap s)) (notify_frames s)
    (g_ta_callback_func_list s) (tc_notify_works s) (g_tz_spi_wq s).

Definition spi_with_callbacks (s : spi_state) (l : tc_ns_callback_list) : spi_state :=
  SpiState (g_notify_data s) (notify_heap s) (notify_frames s) l (tc_notify_works s)
    (g_tz_spi_wq s).

Definition spi_with_works (s : spi_state) (w : list bool) : spi_state :=
  SpiState (g_notify_data s) (notify_heap s) (notify_frames s) (g_ta_callback_func_list s)
    (Some w) (g_tz_spi_wq s).

Definition spi_with_wq (s : spi_state) (b : bool) : spi_state :=
  SpiState (g_notify_data s) (notify_heap s) (notify_frames s) (g_ta_callback_func_list s)
    (tc_notify_works s) b.

(** ** Taking an entry *)

(** The counters after an entry of the given type, [None] for a type that is
    not known. *)
Definition count_entry (st : notify_context_stats) (type : Z) : option notify_context_stats :=
  if (type =? NOTIFY_DATA_ENTRY_TIMER) || (type =? NOTIFY_DATA_ENTRY_RTC) then Some st
  else if (type =? NOTIFY_DATA_ENTRY_SHADOW) || (type =? NOTIFY_DATA_ENTRY_SHADOW_EXIT)
          || (type =? NOTIFY_DATA_ENTRY_FIQSHD)
  then Some (NotifyStats (send_s st) (u32 (recv_s st + 1)) (send_w st) (recv_w st) (missed st))
  else if type =? NOTIFY_DATA_ENTRY_WAKEUP
  then Some (NotifyStats (send_s st) (recv_s st) (send_w st) (u32 (recv_w st + 1)) (missed st))
  else None.

(** [e->filled = 0] *)
Definition clear_filled (e : notify_data_entry) : notify_data_entry :=
  NotifyEntry (entry_type e) false (context e).

(** The first filled entry, with the entries after its [filled] is cleared and
    the counters; [None] when there is none or its type is not known. *)
Fixpoint get_entry_loop (l : list notify_data_entry) (st : notify_context_stats)
    : option (list notify_data_entry * notify_context_stats * notify_data_entry) :=
  match l with
  | [] => None
  | e :: l =>
      if negb (filled e) then
        match get_entry_loop l st with
        | Some (l, st, copy) => Some (e :: l, st, copy)
        | None => None
        end
      else
        match count_entry st (entry_type e) with
        | None => None
        | Some st => Some (clear_filled e :: l, st, e)
        end
  end.

Definition take_entry (d : notify_data_struct) : option (notify_data_struct * notify_data_entry) :=
  match get_entry_loop (entry d) (meta d) with
  | Some (l, st, copy) => Some (NotifyData l st, copy)
  | None => None
  end.

(** [None] stands for the status -1, [Some copy] for 0. *)
Definition get_notify_data_entry (s : spi_state)
    : outcome (spi_state * option notify_data_entry) :=
  if g_notify_data s =? 0 then Ret (s, None)
  else
    d ← at_index (notify_heap s) (g_notify_data s);
    match take_entry d with
    | Some (d, copy) => Ret (spi_with_page s d, Some copy)
    | None => Ret (s, None)
    end.

(** ** Timers *)

(** The callbacks to run, in order, each with the property it is given. *)
Fixpoint walk_loop (t : notify_context_timer) (l : list tc_ns_callback)
    : list (Z * teec_timer_property) :=
  match l with
  | [] => []
  | cb :: l =>
      if negb (bool_decide (cb_uuid cb = nt_uuid t)) then walk_loop t l
      else if timer_class (property t) =? TIMER_RTC
      then (callback_func cb, property t) :: walk_loop t l
      else walk_loop t l
  end.

Definition walk_callback_list (s : spi_state) (t : notify_context_timer)
    : list (Z * teec_timer_property) :=
  walk_loop t (callback_list (g_ta_callback_func_list s)).

(** The session, with a reference taken, or 0; the device list is never NULL. *)
Definition find_notify_sess (R : registry) (t : notify_context_timer)
    : outcome (registry * Z) :=
  dev_file ← find_dev_loop R (nt_dev_file_id t) (dev_file_list R);
  if dev_file =? 0 then Ret (R, 0)
  else
    svc ← tc_find_service_in_dev R dev_file (nt_uuid t) UUID_LEN;
    if svc =? 0 then Ret (R, 0)
    else
      R ← get_service_struct R svc;
      v ← at_index (g_services R) svc;
      ses ← tc_find_session_withowner R (session_list v) (nt_session_id t) dev_file;
      R ← get_session_struct R ses;
      R ← put_service_struct R svc;
      Ret (R, ses).

(** [send_wait_flag = 1; wake_up(...)] *)
Definition wake_session (R : registry) (ses : Z) : outcome registry :=
  s ← at_index (g_sessions R) ses;
  Ret (upd_session R ses (with_wait_flag s 1)).

Definition tc_notify_timer_fn (s : spi_state) (R : registry) (e : notify_data_entry)
    : outcome (registry * list (Z * teec_timer_property)) :=
  let t := context_timer (context e) in
  let calls := walk_callback_list s t in
  '(R, ses) ← find_notify_sess R t;
  if timer_class (property t) =? TIMER_GENERIC then
    if negb (ses =? 0)
    then R ← wake_session R ses; R ← put_session_struct R ses; Ret (R, calls)
    else Ret (R, calls)
  else Ret (R, calls).

(** ** Shadow threads (core/smc_smp.c)

    [kthread_queue_work] tells whether the work item could be queued; it is
    flushed before the function returns.  [target_arg] and [kthread_create] are
    the results of the allocation and of the creation of the thread. *)
Class ShadowThreads := {
  kthread_queue_work : Z → bool;
  target_arg : Z → Z;
  kthread_create : Z → Z
}.

(** The threads that run [shadow_thread_fn], by their targets. *)
Record shadow_state := ShadowState { shadow_threads : list Z; g_shadow_thread_id : Z }.

Section Notify.
Context {W : Type} {SW : SmcWorld W} {ST : ShadowThreads}.

Definition shadow_work_func (x : shadow_state) (target : Z) : shadow_state :=
  if zero_or_null_ptr (target_arg target) then x
  else
    let id := u64 (g_shadow_thread_id x + 1) in
    if is_err_or_null (kthread_create target) then ShadowState (shadow_threads x) id
    else ShadowState (shadow_threads x ++ [target]) id.

Definition smc_queue_shadow_worker (x : shadow_state) (target : Z) : shadow_state * Z :=
  if negb (kthread_queue_work target) then (x, - 1)
  else (shadow_work_func x target, 0).

(** ** Acting on an entry *)

(** What the work item reaches.  [ns_calls] are the callbacks called so far. *)
Record notify_sys := NotifySys {
  ns_world : W;
  ns_spi : spi_state;
  ns_reg : registry;
  ns_smc : smc_sys;
  ns_shadow : shadow_state;
  ns_calls : list (Z * teec_timer_property)
}.

Definition ns_with_smc (k : notify_sys) (w : W) (s : smc_sys) : notify_sys :=
  NotifySys w (ns_spi k) (ns_reg k) s (ns_shadow k) (ns_calls k).
Definition ns_with_pend (k : notify_sys) (p : pend_state) : notify_sys :=
  ns_with_smc k (ns_world k) (sys_with_pend (ns_smc k) p).
Definition ns_with_spi (k : notify_sys) (s : spi_state) : notify_sys :=
  NotifySys (ns_world k) s (ns_reg k) (ns_smc k) (ns_shadow k) (ns_calls k).

Definition tc_notify_wakeup_fn (k : notify_sys) (e : notify_data_entry) : outcome notify_sys :=
  '(p, _) ← smc_wakeup_ca (sys_pend (ns_smc k)) (context_ca_thread_id (context e));
  Ret (ns_with_pend k p).

Definition tc_notify_shadow_fn (k : notify_sys) (e : notify_data_entry) : notify_sys :=
  NotifySys (ns_world k) (ns_spi k) (ns_reg k) (ns_smc k)
    (smc_queue_shadow_worker (ns_shadow k) (context_target_tcb (context e))).1 (ns_calls k).

(** [smcs] bounds the SMCs of one fast interrupt; [None] is that bound
    exceeded. *)
Definition tc_notify_fiqshd_fn (smcs : nat) (k : notify_sys) (e : option notify_data_entry)
    : option notify_sys :=
  let target := match e with None => 0 | Some e => context_target_tcb (context e) end in
  match fiq_shadow_work_func smcs (ns_world k) (ns_smc k) target with
  | Some (w, s) => Some (ns_with_smc k w s)
  | None => None
  end.

Definition tc_notify_shadowexit_fn (k : notify_sys) (e : notify_data_entry) : outcome notify_sys :=
  '(p, _) ← smc_shadow_exit (sys_pend (ns_smc k)) (context_ca_thread_id (context e));
  Ret (ns_with_pend k p).

(** The [switch] of [tc_notify_fn]. *)
Definition handle_entry (smcs : nat) (k : notify_sys) (e : notify_data_entry)
    : outcome (option notify_sys) :=
  let t := entry_type e in
  if (t =? NOTIFY_DATA_ENTRY_TIMER) || (t =? NOTIFY_DATA_ENTRY_RTC) then
    '(R, calls) ← tc_notify_timer_fn (ns_spi k) (ns_reg k) e;
    Ret (Some (NotifySys (ns_world k) (ns_spi k) R (ns_smc k) (ns_shadow k)
                 (ns_calls k ++ calls)))
  else if t =? NOTIFY_DATA_ENTRY_WAKEUP then k ← tc_notify_wakeup_fn k e; Ret (Some k)
  else if t =? NOTIFY_DATA_ENTRY_SHADOW then Ret (Some (tc_notify_shadow_fn k e))
  else if t =? NOTIFY_DATA_ENTRY_FIQSHD then Ret (tc_notify_fiqshd_fn smcs k (Some e))
  else if t =? NOTIFY_DATA_ENTRY_SHADOW_EXIT then k ← tc_notify_shadowexit_fn k e; Ret (Some k)
  else Ret (Some k).

(** [missed] is exchanged with 0. *)
Definition spi_broadcast_notifications (smcs : nat) (k : notify_sys)
    : outcome (option notify_sys) :=
  if g_notify_data (ns_spi k) =? 0 then Ret (Some k)
  else
    d ← at_index (notify_heap (ns_spi k)) (g_notify_data (ns_spi k));
    let m := meta d in
    let k := ns_with_spi k (spi_with_page (ns_spi k)
      (NotifyData (entry d) (NotifyStats (send_s m) (recv_s m) (send_w m) (recv_w m) 0))) in
    if missed m =? 0 then Ret (Some k)
    else
      k ← (if Z.testbit (missed m) NOTIFY_DATA_ENTRY_WAKEUP
           then '(p, _) ← smc_wakeup_broadcast (sys_pend (ns_smc k)); Ret (ns_with_pend k p)
           else Ret k);
      if Z.testbit (missed m) NOTIFY_DATA_ENTRY_FIQSHD
      then Ret (tc_notify_fiqshd_fn smcs k None)
      else Ret (Some k).

(** What the TEE writes between two looks at the page. *)
Class NotifyTee := { tee_notify : W → spi_state → spi_state }.
Context {NT : NotifyTee}.

(** [fuel] bounds the entries one run takes. *)
Fixpoint tc_notify_fn (fuel smcs : nat) (k : notify_sys) : outcome (option notify_sys) :=
  match fuel with
  | O => Ret None
  | S fuel =>
      '(s, r) ← get_notify_data_entry (tee_notify (ns_world k) (ns_spi k));
      let k := ns_with_spi k s in
      match r with
      | None => spi_broadcast_notifications smcs k
      | Some copy =>
          o ← handle_entry smcs k copy;
          match o with
          | None => Ret None
          | Some k => tc_notify_fn fuel smcs k
          end
      end
  end.

End Notify.
Arguments notify_sys : clear implicits.
Arguments NotifyTee : clear implicits.

(** ** The interrupt *)

Definition N_WORK : nat := 8.

(** [queue_work] does nothing for an item that is queued already. *)
Fixpoint queue_work_loop (l : list bool) : list bool :=
  match l with
  | [] => []
  | true :: l => true :: queue_work_loop l
  | false :: l => true :: l
  end.

Definition tc_secure_notify (s : spi_state) : spi_state :=
  let works := match tc_notify_works s with Some l => l | None => replicate N_WORK false end in
  spi_with_works s (queue_work_loop works).

(** ** Callbacks *)

Fixpoint set_callback (u : list Z) (func : Z) (l : list tc_ns_callback)
    : option (list tc_ns_callback) :=
  match l with
  | [] => None
  | cb :: l =>
      if bool_decide (cb_uuid cb = u) then Some (Callback (cb_uuid cb) func :: l)
      else match set_callback u func l with Some l => Some (cb :: l) | None => None end
  end.

(** [u] is [None] for NULL; [kz] is the address [kzalloc] returns. *)
Definition tc_ns_register_service_call_back_func (kz : Z) (s : spi_state)
    (u : option (list Z)) (func : Z) : spi_state * Z :=
  match u with
  | None => (s, - EINVAL)
  | Some u =>
      if func =? 0 then (s, - EINVAL)
      else
        let g := g_ta_callback_func_list s in
        if MAX_CALLBACK_COUNT <? callback_count g then (s, - ENOMEM)
        else
          match set_callback u func (callback_list g) with
          | Some l => (spi_with_callbacks s (CallbackList (callback_count g) l), 0)
          | None =>
              if zero_or_null_ptr kz then (s, - ENOMEM)
              else
                (spi_with_callbacks s
                   (CallbackList (u32 (callback_count g + 1))
                      (callback_list g ++ [Callback u func])), 0)
          end
  end.

Definition TC_NS_RegisterServiceCallbackFunc := tc_ns_register_service_call_back_func.

(** ** Set-up *)

Section Setup.
Context {Env St : Type} {BA : BlockAllocator St} {SMC : SmcChannel Env} {P : PageMap}.

Definition send_notify_cmd (e : Env) (s : St) (m : mem) (page cmd_id : Z)
    : outcome (Env * St * mem * Z) :=
  '(s, m, pack) ← ba_alloc s m SZ_4K MB_FLAG_ZERO;
  if pack =? 0 then Ret (e, s, m, - ENOMEM)
  else
    let op := value_operation
      (Z.lor TEE_PARAM_TYPE_VALUE_INPUT (Z.shiftl TEE_PARAM_TYPE_VALUE_INPUT TEE_PARAM_NUM))
      [(virt_to_phys page, Z.shiftr (u64 (virt_to_phys page)) ADDR_TRANS_NUM); (SZ_4K, 0);
       (0, 0); (0, 0)] in
    let '(e, m, _, _, r) := tc_ns_smc e m op (global_cmd cmd_id pack) in
    s ← ba_free s pack;
    Ret (e, s, m, if nonzero r then - EPERM else 0).

(** [irq] is the result of [devm_request_irq]; without ACPI a device node is
    needed. *)
Definition config_spi_context (s : spi_state) (np : bool) (irq : Z) : spi_state * Z :=
  if negb np then (s, - EINVAL)
  else if irq <? 0 then (s, irq)
  else (spi_with_callbacks s (CallbackList 0 []), 0).

(** The frames of [1 << CONFIG_NOTIFY_PAGE_ORDER] pages at [pg]. *)
Definition frames_at (pg n : Z) : gset Z :=
  list_to_set ((λ i, pg + PAGE_SIZE * Z.of_nat i) <$> seq 0 (Z.to_nat n)).

Definition zero_entry : notify_data_entry := NotifyEntry 0 false (replicate 48 0).

Definition zero_notify_data : notify_data_struct :=
  NotifyData (replicate (Z.to_nat NOTIFY_DATA_ENTRY_COUNT) zero_entry) (NotifyStats 0 0 0 0 0).

Definition spi_alloc_page (s : spi_state) (pg : Z) : spi_state :=
  SpiState pg (<[pg := zero_notify_data]> (notify_heap s))
    (notify_frames s ∪ frames_at pg NOTIFY_PAGES) (g_ta_callback_func_list s)
    (tc_notify_works s) (g_tz_spi_wq s).

(** [free_pages] of [n] pages at [g_notify_data], which becomes NULL. *)
Definition spi_free_page (s : spi_state) (n : Z) : spi_state :=
  SpiState 0 (delete (g_notify_data s) (notify_heap s))
    (notify_frames s ∖ frames_at (g_notify_data s) n) (g_ta_callback_func_list s)
    (tc_notify_works s) (g_tz_spi_wq s).

(** [flush_workqueue] lets the queued items run: the page is gone, so they do
    nothing and are off the queue; then the queue is destroyed. *)
Definition flush_and_destroy (x : spi_state) : spi_state :=
  SpiState (g_notify_data x) (notify_heap x) (notify_frames x) (g_ta_callback_func_list x)
    ((λ l, replicate (length l) false) <$> tc_notify_works x) false.

Definition tz_spi_exit (e : Env) (s : St) (m : mem) (x : spi_state)
    : outcome (Env * St * mem * spi_state) :=
  '(e, s, m, x) ←
    (if g_notify_data x =? 0 then Ret (e, s, m, x)
     else
       '(e, s, m, _) ← send_notify_cmd e s m (g_notify_data x)
                         GLOBAL_CMD_ID_UNREGISTER_NOTIFY_MEMORY;
       Ret (e, s, m, spi_free_page x NOTIFY_PAGES));
  Ret (e, s, m, if g_tz_spi_wq x then flush_and_destroy x else x).

(** [wq] tells whether the work queue could be allocated, [pg] is the address
    [__get_free_pages] returns. *)
Definition tz_spi_init (e : Env) (s : St) (m : mem) (x : spi_state) (class_dev np wq : bool)
    (irq pg : Z) : outcome (Env * St * mem * spi_state * Z) :=
  if negb class_dev then Ret (e, s, m, x, - EINVAL)
  else if negb wq then Ret (e, s, m, spi_with_wq x false, - ENOMEM)
  else
    let clean e s m x ret :=
      '(e, s, m, x) ← tz_spi_exit e s m x; Ret (e, s, m, x, ret) in
    let '(x, ret) := config_spi_context (spi_with_wq x true) np irq in
    if nonzero ret then clean e s m x ret
    else if negb (g_notify_data x =? 0) then Ret (e, s, m, x, 0)
    else if pg =? 0 then clean e s m x (- ENOMEM)
    else
      let x := spi_alloc_page x pg in
      '(e, s, m, ret) ← send_notify_cmd e s m pg GLOBAL_CMD_ID_REGISTER_NOTIFY_MEMORY;
      if nonzero ret then clean e s m (spi_free_page x 1) (- EFAULT)
      else Ret (e, s, m, x, 0).

End Setup.
