(* ===== verification/SpiThm.v ===== *)
(** * Notifications: lemmas

    Taking an entry removes the first one; a run of the work item handles the
    entries in order; every handler returns and keeps the registry and the
    pending entries well-formed. *)

From stdpp Require Import base gmap list.
From Stdlib Require Import ZArith Lia.
From S2P Require Import Prelude KernelApi TeeTypes Buffers Mailbox MailboxClaims SessReg.
From S2P Require Import SmcPending SmcPendingThm SmcSend SessLookup SessOk SessInv CallTypes.
From S2P Require Import GpParams GpCall TloggerSys Spi.

(** ** The entries of a page *)

(** A type the driver knows. *)
Definition known (e : notify_data_entry) : bool :=
  (1 <=? entry_type e) && (entry_type e <=? 6).

Definition pending (l : list notify_data_entry) : list notify_data_entry :=
  filter (λ e, filled e = true) l.

(** The entries before the first one of an unknown type. *)
Fixpoint deliverable (l : list notify_data_entry) : list notify_data_entry :=
  match l with
  | [] => []
  | e :: l => if known e then e :: deliverable l else []
  end.

Lemma count_entry_known st e : is_Some (count_entry st (entry_type e)) ↔ known e = true.
Proof.
  unfold count_entry, known, NOTIFY_DATA_ENTRY_TIMER, NOTIFY_DATA_ENTRY_RTC,
    NOTIFY_DATA_ENTRY_SHADOW, NOTIFY_DATA_ENTRY_SHADOW_EXIT, NOTIFY_DATA_ENTRY_FIQSHD,
    NOTIFY_DATA_ENTRY_WAKEUP.
  destruct (_ || _) eqn:E1; [split; [lia|done]|].
  destruct (_ || _) eqn:E2 in |- *; [split; [lia|done]|].
  destruct (_ =? 3) eqn:E3; (split; [|done || lia]).
  - lia.
  - by intros [? ?].
Qed.

Lemma pending_cons e l : pending (e :: l) = if filled e then e :: pending l else pending l.
Proof. unfold pending. rewrite filter_cons. by destruct (filled e). Qed.

Lemma get_entry_loop_some l st l' st' e :
  get_entry_loop l st = Some (l', st', e) →
  pending l = e :: pending l' ∧ length l' = length l ∧ count_entry st (entry_type e) = Some st'.
Proof.
  revert l'. induction l as [|x l IH]; intros l'; cbn [get_entry_loop]; [done|].
  destruct (filled x) eqn:Hf; cbn [negb].
  - destruct (count_entry st (entry_type x)) eqn:E; [|done]. intros [= <- <- <-].
    rewrite !pending_cons, Hf. by simpl.
  - destruct (get_entry_loop l st) as [[[l1 st1] e1]|]; [|done]. intros [= <- <- <-].
    destruct (IH l1 eq_refl) as (E1 & E2 & E3). rewrite !pending_cons, Hf. simpl. by rewrite E2.
Qed.

Lemma get_entry_loop_none l st :
  get_entry_loop l st = None ↔ deliverable (pending l) = [].
Proof.
  induction l as [|x l IH]; [done|]. cbn [get_entry_loop]. rewrite pending_cons.
  destruct (filled x); cbn [negb deliverable].
  - pose proof (count_entry_known st x) as Hk.
    destruct (count_entry st (entry_type x)), (known x); try done; naive_solver.
  - rewrite <- IH. by destruct (get_entry_loop l st) as [[[? ?] ?]|].
Qed.

(** One entry is taken: the page after it. *)
Lemma take_entry_cases d :
  (take_entry d = None ∧ deliverable (pending (entry d)) = []) ∨
  ∃ d' e, take_entry d = Some (d', e) ∧ pending (entry d) = e :: pending (entry d') ∧
    length (entry d') = length (entry d) ∧ known e = true ∧
    deliverable (pending (entry d)) = e :: deliverable (pending (entry d')).
Proof.
  unfold take_entry. destruct (get_entry_loop (entry d) (meta d)) as [[[l st] e]|] eqn:E.
  - right. apply get_entry_loop_some in E as (E1 & E2 & E3). exists (NotifyData l st), e.
    assert (known e = true) as Hk by (apply (count_entry_known (meta d)); eauto).
    rewrite E1. cbn [entry deliverable]. by rewrite Hk.
  - left. split; [done|]. by apply get_entry_loop_none in E.
Qed.

Lemma known_deliverable l : Forall (λ e, known e = true) l → deliverable l = l.
Proof. induction 1 as [|e l He _ IH]; [done|]. cbn [deliverable]. by rewrite He, IH. Qed.

Lemma deliverable_length l : (length (deliverable l) ≤ length l)%nat.
Proof. induction l as [|e l IH]; [done|]. cbn [deliverable]. destruct (known e); simpl; lia. Qed.

(** ** Sessions of a timer *)

Definition timer_cmd (t : notify_context_timer) : tc_ns_smc_cmd :=
  SmcCmd (nt_uuid t) 0 0 0 (nt_session_id t) 0 0 0 0 0 0 0 0 0 0 0 0 0 0 0 0 0 0 false.

(** The lookup of a timer is the one of a command. *)
Lemma find_notify_sess_eq R t :
  find_notify_sess R t = tc_find_session_by_uuid R (nt_dev_file_id t) (timer_cmd t).
Proof.
  unfold find_notify_sess, tc_find_session_by_uuid, tc_find_dev_file. cbn [uuid context_id timer_cmd].
  destruct (find_dev_loop _ _ _) as [d|]; [|done]. rewrite !ret_bind.
  destruct (d =? 0); [done|]. destruct (tc_find_service_in_dev _ _ _ _) as [p|]; [|done].
  rewrite !ret_bind. destruct (Z.eqb_spec p 0) as [->|]; done.
Qed.

(** What a session found by command is. *)
Lemma find_session_listed R id cmd R' q :
  tc_find_session_by_uuid R id cmd = Ret (R', q) → q ≠ 0 →
  ∃ p v, g_services R !! p = Some v ∧ q ∈ session_list v.
Proof.
  unfold tc_find_session_by_uuid. rewrite bind_Ret. intros (dev & _ & H) Hq.
  destruct (Z.eqb_spec dev 0) as [_|Hdev]; [simplify_eq|].
  apply bind_Ret in H as (p & Hp & H). apply bind_Ret in H as (R1 & Hget & H).
  destruct (Z.eqb_spec p 0) as [->|Hp0]; [simplify_eq|].
  destruct (tc_find_service_in_dev_found _ _ _ _ Hp Hp0) as (d & i & v & _ & _ & Hv & _).
  unfold get_service_struct in Hget. rewrite (proj2 (Z.eqb_neq p 0)) in Hget by done.
  rewrite (proj2 (at_index_Some _ _ _) Hv), ret_bind in Hget. injection Hget as <-.
  apply bind_Ret in H as (w & Hw & H). apply at_index_Some in Hw. simpl in Hw.
  rewrite lookup_insert_eq in Hw. injection Hw as <-.
  apply bind_Ret in H as (s & Hs & H). unfold tc_find_session_withowner in Hs.
  rewrite (proj2 (Z.eqb_neq dev 0)) in Hs by done.
  apply bind_Ret in H as (? & _ & H). apply bind_Ret in H as (? & _ & H). injection H as <- <-.
  destruct (find_session_loop_found _ _ _ _ _ Hs Hq) as (Hin & _). exists p, v. by split.
Qed.

Lemma find_notify_cases R H t :
  reg_inv R H → small R H →
  find_notify_sess R t = Ret (R, 0) ∨
  ∃ q s, q ≠ 0 ∧ g_sessions R !! q = Some s ∧ session_id s = nt_session_id t ∧
    find_notify_sess R t = Ret (upd_session R q (with_usage s (s_usage s + 1)), q) ∧
    1 ≤ s_usage s < 2 ^ 31 - 1 ∧
    reg_inv (upd_session R q (with_usage s (s_usage s + 1))) (add_sess q H).
Proof.
  intros HI Hs. rewrite find_notify_sess_eq.
  pose proof (reg_inv_ok _ _ HI Hs) as HR.
  destruct (tc_find_session_total R (nt_dev_file_id t) (timer_cmd t) HR) as (R' & q & E).
  destruct (tc_find_session_balanced _ _ _ _ _ (reg_counted _ HR) E)
    as [[-> ->]|(Hq & s & Hqs & Hid & -> & _)]; [by left|right].
  destruct (find_session_listed _ _ _ _ _ E Hq) as (p & v & Hv & Hin).
  destruct (get_session_inv R H p v q HI Hs Hv Hin) as (s' & Hs' & _ & HI').
  rewrite Hqs in Hs'. injection Hs' as <-. exists q, s. rewrite E.
  pose proof (session_usage_small _ _ _ _ _ _ HI Hs Hv Hin Hqs). split_and!; try done; lia.
Qed.

(** A session whose flag has been set, its count unchanged. *)
Lemma wait_flag_like R q s :
  g_sessions R !! q = Some s → reg_like R (upd_session R q (with_wait_flag s 1)).
Proof. intros Hs. by eapply upd_session_like. Qed.

(** A generic timer sets the flag of its session and keeps no reference. *)
Lemma timer_generic_cases x R H e :
  reg_inv R H → small R H →
  timer_class (property (context_timer (context e))) = TIMER_GENERIC →
  ∃ R' calls, tc_notify_timer_fn x R e = Ret (R', calls) ∧ calls = [] ∧
    (R' = R ∨ ∃ q s, g_sessions R !! q = Some s ∧
       session_id s = nt_session_id (context_timer (context e)) ∧
       R' = upd_session R q (with_wait_flag s 1)).
Proof.
  intros HI Hs Hc. unfold tc_notify_timer_fn. set (t := context_timer (context e)) in *.
  assert (walk_callback_list x t = []) as Hw.
  { unfold walk_callback_list. induction (callback_list _) as [|cb l IH]; [done|].
    cbn [walk_loop]. rewrite Hc. cbn. by destruct (negb _). }
  rewrite Hc, Z.eqb_refl, Hw.
  destruct (find_notify_cases R H t HI Hs) as [->|(q & s & Hq & Hqs & Hid & -> & Hu & _)];
    rewrite ret_bind.
  { exists R, []. by rewrite Z.eqb_refl; split_and!; try left. }
  rewrite (proj2 (Z.eqb_neq q 0)) by done. cbn [negb]. unfold wake_session, at_index at 1.
  cbn [upd_session set_sessions g_sessions]. rewrite lookup_insert_eq, !ret_bind.
  unfold put_session_struct. rewrite (proj2 (Z.eqb_neq q 0)) by done.
  unfold at_index at 1. cbn [upd_session set_sessions g_sessions].
  rewrite lookup_insert_eq, ret_bind. cbn [s_usage with_wait_flag with_usage].
  rewrite atomic_dec_small by lia. rewrite (proj2 (Z.eqb_neq _ 0)) by lia. rewrite ret_bind.
  eexists _, []. split; [done|]. split; [done|]. right. exists q, s. split_and!; try done.
  unfold upd_session, set_sessions; simpl. rewrite !insert_insert_eq. repeat f_equal.
  destruct s; unfold with_usage, with_wait_flag; simpl. f_equal. lia.
Qed.

(** Any other timer keeps the reference it has taken. *)
Lemma timer_other_cases x R H e :
  reg_inv R H → small R H →
  timer_class (property (context_timer (context e))) ≠ TIMER_GENERIC →
  ∃ R', tc_notify_timer_fn x R e = Ret (R', walk_callback_list x (context_timer (context e))) ∧
    (R' = R ∨ ∃ q s, g_sessions R !! q = Some s ∧
       session_id s = nt_session_id (context_timer (context e)) ∧
       R' = upd_session R q (with_usage s (s_usage s + 1)) ∧ reg_inv R' (add_sess q H)).
Proof.
  intros HI Hs Hc. unfold tc_notify_timer_fn. set (t := context_timer (context e)) in *.
  destruct (find_notify_cases R H t HI Hs) as [->|(q & s & Hq & Hqs & Hid & -> & Hu & HI')];
    rewrite ret_bind, (proj2 (Z.eqb_neq _ _) Hc); eexists; (split; [done|]); [by left|right].
  by exists q, s.
Qed.

(** References that are never given back. *)
Definition leak (l : list Z) (H : refs) : refs :=
  Refs (r_slot H) (r_svc H) (l ++ r_sess H) (r_free H).

Definition leaks_session (e : notify_data_entry) : bool :=
  ((entry_type e =? NOTIFY_DATA_ENTRY_TIMER) || (entry_type e =? NOTIFY_DATA_ENTRY_RTC))
  && negb (timer_class (property (context_timer (context e))) =? TIMER_GENERIC).

Lemma small_like R R' H : dev_file_list R' = dev_file_list R → small R H → small R' H.
Proof. unfold small. by intros ->. Qed.

Lemma timer_inv x R H e :
  reg_inv R H → small R H →
  ∃ R' calls l, tc_notify_timer_fn x R e = Ret (R', calls) ∧ reg_inv R' (leak l H) ∧
    dev_file_list R' = dev_file_list R ∧
    (length l ≤ if (timer_class (property (context_timer (context e))) =? TIMER_GENERIC)%Z
                then 0 else 1)%nat.
Proof.
  intros HI Hs.
  assert (leak [] H = H) as E0 by by destruct H.
  destruct (Z.eqb_spec (timer_class (property (context_timer (context e)))) TIMER_GENERIC) as [Hc|Hc].
  - destruct (timer_generic_cases x R H e HI Hs Hc)
      as (R' & calls & -> & _ & [->|(q & s & Hqs & _ & ->)]).
    + exists R, calls, []. by rewrite E0.
    + eexists _, calls, []. rewrite E0. split_and!; try done.
      eapply inv_like; [done|]. by apply wait_flag_like.
  - destruct (timer_other_cases x R H e HI Hs Hc) as (R' & -> & [->|(q & s & _ & _ & -> & HI')]).
    + eexists R, _, []. rewrite E0. split_and!; try done. simpl. lia.
    + by eexists _, _, [q].
Qed.

(** ** Pending callers *)

Definition pend_good (p : pend_state) : Prop :=
  ∃ owned held, pend_ok p owned held ∧ Z.of_nat (length owned + length held) + 1 < 2 ^ 31 - 1.

Lemma wakeup_good p ca which :
  pend_good p → ∃ p' r, proc_smc_wakeup_ca p ca which = Ret (p', r) ∧ pend_good p'.
Proof.
  intros (owned & held & Hok & Hs). unfold proc_smc_wakeup_ca.
  destruct (ca <=? 0); [eexists _, _; split; [done|]; by exists owned, held|].
  destruct (find_ok p owned held Hok ca Hs) as (p1 & pe & -> & Hpe & Hok1). rewrite ret_bind.
  destruct (Z.eqb_spec pe 0) as [_|Hp0].
  { eexists _, _. split; [done|]. by exists owned, held. }
  destruct (set_run_ok _ _ _ Hok1 pe which) as (p2 & -> & Hok2); [right; left|]. rewrite ret_bind.
  destruct (put_ok p2 owned [] held pe Hok2) as (p3 & -> & Hok3). rewrite ret_bind.
  eexists _, _. split; [done|]. by exists owned, held.
Qed.

Lemma foreach_good l owned held p :
  pend_ok p owned held → (∀ pe, pe ∈ l → pe ∈ owned) →
  ∃ p', foreach_loop wakeup_pe p l = Ret p' ∧ pend_ok p' owned held.
Proof.
  revert p. induction l as [|pe l IH]; intros p Hok Hl; [by exists p|]. cbn [foreach_loop].
  assert (pe ∈ owned) as Hin by (apply Hl; left).
  destruct (set_run_ok _ _ _ Hok pe 1) as (p1 & E & Hok1); [by left|].
  assert (wakeup_pe p pe = Ret p1) as ->.
  { unfold wakeup_pe. destruct (Z.eqb_spec pe 0) as [->|_]; [|done].
    by destruct (po_null _ _ _ Hok) as [[] _]. }
  rewrite ret_bind. apply IH; [done|]. intros x Hx. apply Hl. by right.
Qed.

Lemma broadcast_good p :
  pend_good p → ∃ p', smc_wakeup_broadcast p = Ret (p', 0) ∧ pend_good p'.
Proof.
  intros (owned & held & Hok & Hs). unfold smc_wakeup_broadcast, foreach_pending_entry.
  rewrite (po_list _ _ _ Hok). destruct (foreach_good owned owned held p Hok) as (p' & -> & Hok'); [done|].
  rewrite ret_bind. eexists. split; [done|]. by exists owned, held.
Qed.

(** ** The handlers *)

Section Handlers.
Context {W : Type} {SW : SmcWorld W} {ST : ShadowThreads}.
Abbreviation state := (notify_sys W).

(** An SMC lets other callers come and go but leaves their entries
    well-formed, and it is interrupted a bounded number of times. *)
Class PatientWorld (smcs : nat) := {
  patience : W → nat;
  patience_bound w : (patience w < smcs)%nat;
  smc_pend_good w p s w' s' out :
    w_smc w p s = (w', s', out) → pend_good (sys_pend s) → pend_good (sys_pend s');
  smc_preempted w p s w' s' out :
    w_smc w p s = (w', s', out) → exit_reason out = SMC_EXIT_PREEMPTED →
    (patience w' < patience w)%nat
}.

Context {smcs : nat} {PW : PatientWorld smcs}.

Lemma send_loop_good n w s p ops secret :
  (patience w < n)%nat → pend_good (sys_pend s) →
  ∃ w' s' c r, smp_smc_send_loop n w s p ops secret false = Some (w', s', c, r) ∧
    pend_good (sys_pend s').
Proof.
  revert w s p secret. induction n as [|n IH]; intros w s p secret Hn Hg; [lia|].
  cbn [smp_smc_send_loop]. destruct (w_smc w _ s) as [[w1 s1] out] eqn:E.
  pose proof (smc_pend_good _ _ _ _ _ _ E Hg) as Hg1.
  destruct (Z.eqb_spec (exit_reason out) SMC_EXIT_PREEMPTED) as [Hp|Hp].
  - cbn [is_ready_to_kill andb]. apply IH; [|done]. pose proof (smc_preempted _ _ _ _ _ _ E Hp). lia.
  - eexists _, _, _, _. by split.
Qed.

Lemma fiqshd_good (k : state) e :
  pend_good (sys_pend (ns_smc k)) →
  ∃ w s, tc_notify_fiqshd_fn smcs k e = Some (ns_with_smc k w s) ∧ pend_good (sys_pend s).
Proof.
  intros Hg. unfold tc_notify_fiqshd_fn, fiq_shadow_work_func, smp_smc_send.
  edestruct (send_loop_good smcs (ns_world k) (ns_smc k)) as (w & s & c & r & -> & Hg');
    [apply patience_bound|done|]. by exists w, s.
Qed.

(** The state of the driver while it handles notifications. *)
Record notify_ok (k : state) (H : refs) : Prop := {
  nk_reg : reg_inv (ns_reg k) H;
  nk_pend : pend_good (sys_pend (ns_smc k))
}.

Lemma handle_entry_ok (k : state) H e :
  notify_ok k H → small (ns_reg k) H →
  ∃ k' l, handle_entry smcs k e = Ret (Some k') ∧ notify_ok k' (leak l H) ∧
    ns_spi k' = ns_spi k ∧ dev_file_list (ns_reg k') = dev_file_list (ns_reg k) ∧
    (length l ≤ if leaks_session e then 1 else 0)%nat.
Proof.
  intros [HI Hg] Hs. assert (leak [] H = H) as E0 by by destruct H.
  unfold handle_entry, leaks_session. destruct (_ || _).
  { destruct (timer_inv (ns_spi k) (ns_reg k) H e HI Hs) as (R' & calls & l & -> & HI' & Ed & Hl).
    rewrite ret_bind. eexists _, l. split; [done|]. split; [by split|]. split_and!; try done.
    cbn [andb]. by destruct (_ =? TIMER_GENERIC). }
  cbn [andb].
  assert (∀ p, pend_good p → notify_ok (ns_with_pend k p) (leak [] H)) as Hp.
  { intros p ?. rewrite E0. by split. }
  destruct (_ =? NOTIFY_DATA_ENTRY_WAKEUP).
  { unfold tc_notify_wakeup_fn, smc_wakeup_ca.
    destruct (wakeup_good _ (context_ca_thread_id (context e)) 1 Hg) as (p & r & -> & Hg').
    cbn. eexists _, []. split; [done|]. split; [by apply Hp|]. done. }
  destruct (_ =? NOTIFY_DATA_ENTRY_SHADOW).
  { eexists _, []. split; [done|]. rewrite E0. by split. }
  destruct (_ =? NOTIFY_DATA_ENTRY_FIQSHD).
  { destruct (fiqshd_good k (Some e) Hg) as (w & s & -> & Hg').
    eexists _, []. split; [done|]. rewrite E0. by split. }
  destruct (_ =? NOTIFY_DATA_ENTRY_SHADOW_EXIT).
  { unfold tc_notify_shadowexit_fn, smc_shadow_exit.
    destruct (wakeup_good _ (context_ca_thread_id (context e)) SHADOW_EXIT_RUN Hg) as (p & r & -> & Hg').
    cbn. eexists _, []. split; [done|]. split; [by apply Hp|]. done. }
  eexists _, []. split; [done|]. rewrite E0. by split.
Qed.

Lemma broadcast_ok (k : state) H :
  notify_ok k H → is_Some (notify_heap (ns_spi k) !! g_notify_data (ns_spi k)) →
  ∃ k' d d', spi_broadcast_notifications smcs k = Ret (Some k') ∧ notify_ok k' H ∧
    notify_heap (ns_spi k) !! g_notify_data (ns_spi k) = Some d ∧
    g_notify_data (ns_spi k') = g_notify_data (ns_spi k) ∧
    notify_heap (ns_spi k') !! g_notify_data (ns_spi k) = Some d' ∧ entry d' = entry d.
Proof.
  intros [HI Hg] [d Hd]. unfold spi_broadcast_notifications.
  destruct (g_notify_data (ns_spi k) =? 0); [by exists k, d, d|].
  rewrite (proj2 (at_index_Some _ _ _) Hd), ret_bind.
  set (k1 := ns_with_spi k _).
  assert (∀ w s, pend_good (sys_pend s) → ∃ d', notify_ok (ns_with_smc k1 w s) H ∧
    notify_heap (ns_spi (ns_with_smc k1 w s)) !! g_notify_data (ns_spi k) = Some d' ∧ entry d' = entry d)
    as Hk.
  { intros w s ?. eexists. split; [by split|]. simpl. by rewrite lookup_insert_eq. }
  destruct (missed (meta d) =? 0).
  { destruct (Hk (ns_world k) (ns_smc k) Hg) as (d' & Ho & Hh & He). by exists k1, d, d'. }
  destruct (Z.testbit _ NOTIFY_DATA_ENTRY_WAKEUP).
  - destruct (broadcast_good _ Hg) as (p & E & Hgp). cbn [k1 ns_smc ns_with_spi].
    rewrite E, !ret_bind. destruct (Z.testbit _ _).
    + destruct (fiqshd_good (ns_with_pend k1 p) None Hgp) as (w & s & -> & Hgs).
      destruct (Hk w s Hgs) as (d' & Ho & Hh & He). by exists (ns_with_smc k1 w s), d, d'.
    + destruct (Hk (ns_world k) (sys_with_pend (ns_smc k) p) Hgp) as (d' & Ho & Hh & He).
      by exists (ns_with_pend k1 p), d, d'.
  - rewrite ret_bind. destruct (Z.testbit _ _).
    + destruct (fiqshd_good k1 None Hg) as (w & s & -> & Hgs).
      destruct (Hk w s Hgs) as (d' & Ho & Hh & He). by exists (ns_with_smc k1 w s), d, d'.
    + destruct (Hk (ns_world k) (ns_smc k) Hg) as (d' & Ho & Hh & He). by exists k1, d, d'.
Qed.

End Handlers.
Arguments PatientWorld W {SW} smcs.

(** * One run of the notification work item

    [tc_notify_fn] compared with a reference: the deliverable entries of the
    page are handled in order, once each, then the missed ones are broadcast. *)

(** ** The page after a run *)

(** The first [n] filled entries are cleared. *)
Fixpoint clear_first (n : nat) (l : list notify_data_entry) : list notify_data_entry :=
  match n, l with
  | O, _ | _, [] => l
  | S m, e :: l => if filled e then clear_filled e :: clear_first m l else e :: clear_first n l
  end.

Definition count_all (st : notify_context_stats) (l : list notify_data_entry)
    : notify_context_stats :=
  foldl (λ st e, default st (count_entry st (entry_type e))) st l.

Definition served (d : notify_data_struct) : notify_data_struct :=
  let l := deliverable (pending (entry d)) in
  NotifyData (clear_first (length l) (entry d)) (count_all (meta d) l).

Lemma clear_first_0 l : clear_first 0 l = l.
Proof. by destruct l. Qed.

Lemma clear_first_get n l st l' st' e :
  get_entry_loop l st = Some (l', st', e) → clear_first (S n) l = clear_first n l'.
Proof.
  revert l'. induction l as [|x l IH]; intros l'; cbn [get_entry_loop]; [done|].
  destruct (filled x) eqn:Hf; cbn [negb].
  - destruct (count_entry st (entry_type x)); [|done]. intros [= <- <- <-].
    cbn [clear_first]. rewrite Hf. destruct n; [by rewrite !clear_first_0|]. done.
  - destruct (get_entry_loop l st) as [[[l1 st1] e1]|]; [|done]. intros [= <- <- <-].
    cbn [clear_first]. rewrite Hf, (IH l1) by done. destruct n; [by rewrite clear_first_0|].
    done.
Qed.

Lemma served_none d : deliverable (pending (entry d)) = [] → served d = d.
Proof. intros E. unfold served. rewrite E. simpl. rewrite clear_first_0. by destruct d. Qed.

Lemma served_take d d' e : take_entry d = Some (d', e) → served d = served d'.
Proof.
  intros Ht. pose proof Ht as Hg. unfold take_entry in Hg.
  destruct (get_entry_loop (entry d) (meta d)) as [[[l st] e1]|] eqn:E; [|done].
  injection Hg as <- <-. destruct (take_entry_cases d) as [[? _]|(d' & e & Ht' & _ & _ & _ & Hd)]; [congruence|].
  rewrite Ht in Ht'. injection Ht' as <- <-. unfold served. rewrite Hd. cbn [length].
  rewrite (clear_first_get _ _ _ _ _ _ E). cbn [entry meta].
  apply get_entry_loop_some in E as (_ & _ & E). unfold count_all. cbn [foldl]. by rewrite E.
Qed.

(** Nothing deliverable is left. *)
Lemma served_nothing_left d : deliverable (pending (entry (served d))) = [].
Proof.
  remember (length (pending (entry d))) as n eqn:En. revert d En.
  induction n as [n IH] using lt_wf_ind. intros d En.
  destruct (take_entry_cases d) as [[_ Hn]|(d' & e & Ht & Hp & _)].
  - by rewrite served_none.
  - rewrite (served_take _ _ _ Ht). eapply IH; [|done]. rewrite Hp in En. simpl in En. lia.
Qed.

Section Run.
Context {W : Type} {SW : SmcWorld W} {ST : ShadowThreads}.
Context {NT : NotifyTee W}.

(** ** The reference *)

Fixpoint handle_all (smcs : nat) (k : notify_sys W) (l : list notify_data_entry)
    : outcome (option (notify_sys W)) :=
  match l with
  | [] => Ret (Some k)
  | e :: l =>
      o ← handle_entry smcs k e;
      match o with Some k => handle_all smcs k l | None => Ret None end
  end.

Definition run_reference (smcs : nat) (k : notify_sys W) (d : notify_data_struct)
    : outcome (option (notify_sys W)) :=
  o ← handle_all smcs (ns_with_spi k (spi_with_page (ns_spi k) (served d)))
        (deliverable (pending (entry d)));
  match o with Some k => spi_broadcast_notifications smcs k | None => Ret None end.

(** A handler does not look at the page. *)
Lemma handle_entry_page smcs (k : notify_sys W) x e :
  g_ta_callback_func_list x = g_ta_callback_func_list (ns_spi k) →
  handle_entry smcs (ns_with_spi k x) e
  = (o ← handle_entry smcs k e; Ret (option_map (λ k, ns_with_spi k x) o)).
Proof.
  intros Hc. unfold handle_entry, tc_notify_timer_fn, walk_callback_list.
  cbn [ns_spi ns_with_spi ns_reg]. rewrite Hc.
  destruct (_ || _).
  { destruct (find_notify_sess _ _) as [[R q]|]; [|done]. rewrite !ret_bind.
    destruct (_ =? TIMER_GENERIC); [|done]. destruct (negb _); [|done].
    destruct (wake_session R q) as [R1|]; [|done]. rewrite !ret_bind.
    by destruct (put_session_struct R1 q). }
  destruct (_ =? NOTIFY_DATA_ENTRY_WAKEUP).
  { unfold tc_notify_wakeup_fn. cbn [ns_smc ns_with_spi].
    by destruct (smc_wakeup_ca _ _) as [[? ?]|]. }
  destruct (_ =? NOTIFY_DATA_ENTRY_SHADOW); [done|].
  destruct (_ =? NOTIFY_DATA_ENTRY_FIQSHD).
  { unfold tc_notify_fiqshd_fn. cbn [ns_smc ns_world ns_with_spi].
    by destruct (fiq_shadow_work_func _ _ _ _) as [[? ?]|]. }
  destruct (_ =? NOTIFY_DATA_ENTRY_SHADOW_EXIT); [|done].
  unfold tc_notify_shadowexit_fn. cbn [ns_smc ns_with_spi].
  by destruct (smc_shadow_exit _ _) as [[? ?]|].
Qed.

Lemma handle_entry_spi smcs (k k' : notify_sys W) e :
  handle_entry smcs k e = Ret (Some k') → ns_spi k' = ns_spi k.
Proof.
  intros E. pose proof (handle_entry_page smcs k (ns_spi k) e eq_refl) as Hp.
  assert (ns_with_spi k (ns_spi k) = k) as Hk by by destruct k.
  rewrite Hk, E in Hp. cbn in Hp. injection Hp as Hp. by rewrite Hp.
Qed.

Lemma spi_page_twice x d d' : spi_with_page (spi_with_page x d) d' = spi_with_page x d'.
Proof. unfold spi_with_page; simpl. by rewrite insert_insert_eq. Qed.

Lemma spi_page_same x d : notify_heap x !! g_notify_data x = Some d → spi_with_page x d = x.
Proof. intros H. unfold spi_with_page. rewrite insert_id by done. by destruct x. Qed.

(** While the TEE leaves the page alone, the loop is the reference. *)
Lemma tc_notify_fn_reference smcs fuel (k : notify_sys W) d :
  (∀ w x, tee_notify w x = x) → g_notify_data (ns_spi k) ≠ 0 →
  notify_heap (ns_spi k) !! g_notify_data (ns_spi k) = Some d →
  (length (deliverable (pending (entry d))) < fuel)%nat →
  tc_notify_fn fuel smcs k = run_reference smcs k d.
Proof.
  intros Ht. revert k d. induction fuel as [|fuel IH]; intros k d Hg Hd Hf; [lia|].
  cbn [tc_notify_fn]. rewrite Ht. unfold get_notify_data_entry.
  rewrite (proj2 (Z.eqb_neq _ _) Hg), (proj2 (at_index_Some _ _ _) Hd), ret_bind.
  unfold run_reference.
  destruct (take_entry_cases d) as [[-> Hn]|(d' & e & Et & Hp & _ & _ & Hl)].
  - rewrite ret_bind, Hn, (served_none d Hn). cbn [handle_all]. rewrite ret_bind.
    by rewrite (spi_page_same _ _ Hd).
  - rewrite Et, ret_bind, Hl, (served_take _ _ _ Et). cbn [handle_all].
    set (k1 := ns_with_spi k (spi_with_page (ns_spi k) d')).
    assert (ns_with_spi k (spi_with_page (ns_spi k) (served d'))
      = ns_with_spi k1 (spi_with_page (ns_spi k1) (served d'))) as ->.
    { unfold k1. cbn [ns_spi ns_with_spi]. by rewrite spi_page_twice. }
    rewrite handle_entry_page by done.
    destruct (handle_entry smcs k1 e) as [[k2|]|] eqn:Eh; cbn; [|done..].
    pose proof (handle_entry_spi _ _ _ _ Eh) as Es.
    rewrite (IH k2 d').
    + unfold run_reference. rewrite Es. done.
    + by rewrite Es.
    + rewrite Es. simpl. by rewrite lookup_insert_eq.
    + rewrite Hl in Hf. simpl in Hf. lia.
Qed.

(** ** The reference is safe *)

Context {smcs : nat} {PW : PatientWorld W smcs}.

Lemma leak_app l1 l2 H : leak l2 (leak l1 H) = leak (l2 ++ l1) H.
Proof. unfold leak. simpl. by rewrite app_assoc. Qed.

Definition leaky (l : list notify_data_entry) : nat := length (filter (λ e, leaks_session e = true) l).

(** Room for as many more references. *)
Definition room (R : registry) (H : refs) (n : nat) : Prop :=
  Z.of_nat (length (dev_file_list R) + length (r_svc H) + length (r_sess H) + n) < 2 ^ 31 - 2.

Lemma handle_all_ok (k : notify_sys W) H l :
  notify_ok k H → room (ns_reg k) H (leaky l) →
  ∃ k' lk, handle_all smcs k l = Ret (Some k') ∧ notify_ok k' (leak lk H) ∧
    ns_spi k' = ns_spi k ∧ (length lk ≤ leaky l)%nat.
Proof.
  revert k H. induction l as [|e l IH]; intros k H Ho Hr.
  { exists k, []. assert (leak [] H = H) as -> by by destruct H. by split_and!. }
  unfold leaky, room in *. rewrite filter_cons in Hr. cbn [handle_all].
  destruct (handle_entry_ok k H e Ho) as (k1 & l1 & E & Ho1 & Es & Ed & Hl).
  { unfold small. lia. }
  rewrite E, ret_bind. destruct (IH k1 (leak l1 H) Ho1) as (k2 & l2 & -> & Ho2 & Es2 & Hl2).
  { rewrite Ed. simpl. rewrite length_app.
    destruct (leaks_session e); [rewrite decide_True in Hr by done|rewrite decide_False in Hr by done];
      simpl in Hr; lia. }
  exists k2, (l2 ++ l1). rewrite leak_app in Ho2. split_and!; try done; [congruence|].
  rewrite length_app, filter_cons. destruct (leaks_session e);
    [rewrite decide_True by done|rewrite decide_False by done]; simpl; lia.
Qed.

Lemma run_reference_ok (k : notify_sys W) H d :
  notify_ok k H → room (ns_reg k) H (leaky (deliverable (pending (entry d)))) →
  ∃ k' lk d', run_reference smcs k d = Ret (Some k') ∧ notify_ok k' (leak lk H) ∧
    (length lk ≤ leaky (deliverable (pending (entry d))))%nat ∧
    notify_heap (ns_spi k') !! g_notify_data (ns_spi k) = Some d' ∧ entry d' = entry (served d).
Proof.
  intros Ho Hr. unfold run_reference. set (k0 := ns_with_spi k _).
  destruct (handle_all_ok k0 H (deliverable (pending (entry d)))) as (k1 & lk & -> & Ho1 & Es & Hl);
    [by destruct Ho; split|exact Hr|]. rewrite ret_bind.
  destruct (broadcast_ok k1 _ Ho1) as (k2 & d1 & d2 & -> & Ho2 & Hd1 & _ & Hd2 & He).
  { rewrite Es. simpl. by rewrite lookup_insert_eq. }
  rewrite Es in Hd1, Hd2. simpl in Hd1, Hd2. rewrite lookup_insert_eq in Hd1. injection Hd1 as <-.
  by exists k2, lk, d2.
Qed.

End Run.
