(* ===== verification/SpiClaims.v ===== *)
(** * What notifications guarantee

    The TEE, the interrupt and up to eight work items share the notification
    page.  Every notification the TEE writes is taken by exactly one work item,
    whatever the interleaving; a run of a work item serves the page as a
    reference does and leaves the driver well-formed whatever the page holds. *)

From stdpp Require Import base gmap list relations.
From Stdlib Require Import ZArith Lia Wf_nat.
From S2P Require Import Prelude KernelApi TeeTypes Buffers Mailbox MailboxClaims SessReg.
From S2P Require Import SmcQueue SmcPending SmcPendingThm SmcSend SmcSendClaims SessLookup SessOk.
From S2P Require Import SessInv CallTypes GpParams GpCall TloggerSys AgentClaims DriverClaims.
From S2P Require Import Spi SpiThm.

(** ** The TEE, the interrupt and the work items *)

(** [nst_irq]: the TEE has raised the interrupt or is about to;
    [nst_running]: work items inside [tc_notify_fn]; [nst_sent] and
    [nst_taken] record the notifications written and taken. *)
Record nstate := NState {
  nst_spi : spi_state;
  nst_irq : bool;
  nst_running : nat;
  nst_sent : list notify_data_entry;
  nst_taken : list notify_data_entry
}.

(** The TEE fills a free entry, with a notification of any type, and raises the
    interrupt. *)
Inductive fill : nstate → nstate → Prop :=
| fill_entry x q r sent taken d st i old e :
    notify_heap x !! g_notify_data x = Some d →
    entry d !! i = Some old → filled old = false →
    filled e = true →
    fill (NState x q r sent taken)
      (NState (spi_with_page x (NotifyData (<[i := e]> (entry d)) st)) true r (sent ++ [e]) taken).

Inductive drain : nstate → nstate → Prop :=
| drain_irq x r sent taken :
    drain (NState x true r sent taken) (NState (tc_secure_notify x) false r sent taken)
| drain_start x q r sent taken l i :
    tc_notify_works x = Some l → l !! i = Some true →
    drain (NState x q r sent taken) (NState (spi_with_works x (<[i := false]> l)) q (S r) sent taken)
| drain_take x q r sent taken x' e :
    get_notify_data_entry x = Ret (x', Some e) →
    drain (NState x q (S r) sent taken) (NState x' q (S r) sent (taken ++ [e]))
| drain_finish x q r sent taken x' :
    get_notify_data_entry x = Ret (x', None) →
    drain (NState x q (S r) sent taken) (NState x' q r sent taken).

Definition notify_step (y z : nstate) : Prop := fill y z ∨ drain y z.

(** After [tz_spi_init]: an empty page and no interrupt yet. *)
Definition notify_start (y : nstate) : Prop :=
  ∃ x d, y = NState x false 0 [] [] ∧ g_notify_data x ≠ 0 ∧
    notify_heap x !! g_notify_data x = Some d ∧ pending (entry d) = [] ∧ tc_notify_works x = None.

Definition nreach (y : nstate) : Prop := ∃ y0, notify_start y0 ∧ rtc notify_step y0 y.

(** ** The invariant *)

Fixpoint trues (l : list bool) : nat :=
  match l with [] => 0 | b :: l => (if b then 1 else 0) + trues l end.

Definition queued (x : spi_state) : nat :=
  match tc_notify_works x with Some l => trues l | None => 0%nat end.

Record notify_inv (y : nstate) (d : notify_data_struct) : Prop := {
  ni_page : g_notify_data (nst_spi y) ≠ 0;
  ni_heap : notify_heap (nst_spi y) !! g_notify_data (nst_spi y) = Some d;
  ni_works : ∀ l, tc_notify_works (nst_spi y) = Some l → l ≠ [];
  ni_sent : nst_sent y ≡ₚ nst_taken y ++ pending (entry d);
  ni_served : deliverable (pending (entry d)) ≠ [] →
    nst_irq y = true ∨ (0 < queued (nst_spi y))%nat ∨ (0 < nst_running y)%nat
}.

Lemma pending_fill l i old e :
  l !! i = Some old → filled old = false → filled e = true →
  pending (<[i := e]> l) ≡ₚ e :: pending l.
Proof.
  revert i. induction l as [|x l IH]; intros [|i] Hi Ho He; try done; simpl in Hi.
  - injection Hi as ->. cbn [insert list_insert]. by rewrite !pending_cons, Ho, He.
  - cbn [insert list_insert]. rewrite !pending_cons. destruct (filled x).
    + rewrite (IH i) by done. apply Permutation_swap.
    + by apply IH.
Qed.

Lemma queue_work_queued l : l ≠ [] →
  queue_work_loop l ≠ [] ∧ (0 < trues (queue_work_loop l) ≤ S (trues l))%nat.
Proof.
  induction l as [|[|] l IH]; [done| |]; intros _; simpl; (split; [done|]); [|lia].
  destruct (decide (l = [])) as [->|Hl]; [simpl; lia|]. destruct (IH Hl). lia.
Qed.

Lemma irq_queued x :
  (∀ l, tc_notify_works x = Some l → l ≠ []) →
  (∀ l, tc_notify_works (tc_secure_notify x) = Some l → l ≠ []) ∧
  (0 < queued (tc_secure_notify x) ≤ S (queued x))%nat.
Proof.
  intros Hw. unfold tc_secure_notify, queued. cbn [spi_with_works tc_notify_works].
  destruct (tc_notify_works x) as [l|].
  - destruct (queue_work_queued l) as [? ?]; [by apply Hw|].
    split; [by intros ? [= <-]|lia].
  - split; [by intros ? [= <-]|]. simpl. lia.
Qed.

Lemma start_queued l i :
  l !! i = Some true → <[i := false]> l ≠ [] ∧ S (trues (<[i := false]> l)) = trues l.
Proof.
  revert i. induction l as [|b l IH]; intros [|i] Hi; try done; simpl in Hi.
  - by injection Hi as ->.
  - destruct (IH i Hi) as [_ E]. split; [done|].
    change (<[S i := false]> (b :: l)) with (b :: <[i := false]> l). cbn [trues]. lia.
Qed.

(** Taking an entry: the first one, unless there is none or it is unknown. *)
Lemma get_cases x d :
  g_notify_data x ≠ 0 → notify_heap x !! g_notify_data x = Some d →
  (get_notify_data_entry x = Ret (x, None) ∧ deliverable (pending (entry d)) = []) ∨
  ∃ d' e, get_notify_data_entry x = Ret (spi_with_page x d', Some e) ∧
    pending (entry d) = e :: pending (entry d').
Proof.
  intros Hg Hd. unfold get_notify_data_entry.
  rewrite (proj2 (Z.eqb_neq _ _) Hg), (proj2 (at_index_Some _ _ _) Hd), ret_bind.
  destruct (take_entry_cases d) as [[-> Hn]|(d' & e & -> & Hp & _)].
  - by left.
  - right. by exists d', e.
Qed.

Lemma drain_inv y z d : notify_inv y d → drain y z → ∃ d', notify_inv z d'.
Proof.
  intros HI Hs. destruct Hs as [x r sent taken|x q r sent taken l i Hl Hi
    |x q r sent taken x' e Hg|x q r sent taken x' Hg]; destruct HI; simpl in *.
  - destruct (irq_queued x ni_works0) as [? ?]. exists d. split; try done. intros _. right; left.
    simpl. lia.
  - exists d. split; try done.
    + simpl. intros ? [= <-]. by apply (start_queued l i).
    + intros _. right; right. simpl. lia.
  - destruct (get_cases x d) as [[E _]|(d' & e' & E & Hp)]; [done..|congruence|].
    rewrite E in Hg. injection Hg as <- <-. exists d'. rewrite Hp in *.
    split; simpl; try done.
    + by rewrite lookup_insert_eq.
    + rewrite ni_sent0, <- app_assoc. done.
    + intros _. right; right. lia.
  - destruct (get_cases x d) as [[E Hp]|(d' & e' & E & _)]; [done..| |congruence].
    rewrite E in Hg. injection Hg as <-. exists d. by split; simpl; rewrite ?Hp in *.
Qed.

Lemma fill_inv y z d : notify_inv y d → fill y z → ∃ d', notify_inv z d'.
Proof.
  intros HI Hs. destruct Hs as [x q r sent taken d0 st i old e Hd Hi Ho He].
  destruct HI; simpl in *. rewrite Hd in ni_heap0. injection ni_heap0 as ->.
  pose proof (pending_fill _ _ _ _ Hi Ho He) as Hp.
  exists (NotifyData (<[i := e]> (entry d)) st). split; simpl; try done.
  - by rewrite lookup_insert_eq.
  - cbn [entry]. rewrite Hp, ni_sent0. rewrite <- app_assoc. f_equiv.
    by rewrite Permutation_app_comm.
  - intros _. by left.
Qed.

Lemma notify_start_inv y : notify_start y → ∃ d, notify_inv y d.
Proof.
  intros (x & d & -> & Hg & Hd & Hp & Hw). exists d. split; simpl; try done.
  - by rewrite Hw.
  - by rewrite Hp.
  - by rewrite Hp.
Qed.

Lemma nreach_inv y : nreach y → ∃ d, notify_inv y d.
Proof.
  intros (y0 & Hst & Hr). apply notify_start_inv in Hst as [d Hd]. revert d Hd.
  induction Hr as [y|y z w [Hs|Hs] _ IH]; intros d Hd; [eauto|..].
  - destruct (fill_inv _ _ _ Hd Hs) as [d' ?]. eauto.
  - destruct (drain_inv _ _ _ Hd Hs) as [d' ?]. eauto.
Qed.

(** ** Draining ends *)

Definition page_load (x : spi_state) : nat :=
  match notify_heap x !! g_notify_data x with
  | Some d => length (pending (entry d)) | None => 0%nat
  end.

Definition work_left (y : nstate) : nat :=
  page_load (nst_spi y) + (if nst_irq y then 3 else 0) + 2 * queued (nst_spi y) + nst_running y.

Lemma drain_decreases y z d : notify_inv y d → drain y z → (work_left z < work_left y)%nat.
Proof.
  intros HI Hs. destruct Hs as [x r sent taken|x q r sent taken l i Hl Hi
    |x q r sent taken x' e Hg|x q r sent taken x' Hg]; destruct HI; simpl in *;
    unfold work_left; cbn [nst_spi nst_irq nst_running].
  - destruct (irq_queued x ni_works0) as [_ ?].
    assert (page_load (tc_secure_notify x) = page_load x) as -> by done. lia.
  - destruct (start_queued l i Hi) as [_ ?]. unfold queued. rewrite Hl.
    cbn [spi_with_works tc_notify_works].
    assert (page_load (spi_with_works x (<[i:=false]> l)) = page_load x) as -> by done. lia.
  - destruct (get_cases x d) as [[E _]|(d' & e' & E & Hp)]; [done..|congruence|].
    rewrite E in Hg. injection Hg as <- <-. unfold page_load. rewrite ni_heap0.
    cbn [spi_with_page notify_heap g_notify_data]. rewrite lookup_insert_eq, Hp. simpl.
    assert (queued (spi_with_page x d') = queued x) as -> by done. lia.
  - destruct (get_cases x d) as [[E Hp]|(d' & e' & E & _)]; [done..| |congruence].
    rewrite E in Hg. injection Hg as <-. lia.
Qed.

Lemma drain_ends y d : notify_inv y d → Acc (λ a b, drain b a) y.
Proof.
  remember (work_left y) as n eqn:En. revert y d En. induction n as [n IH] using lt_wf_ind.
  intros y d -> HI. constructor. intros z Hz. destruct (drain_inv _ _ _ HI Hz) as [d' HI'].
  eapply IH; [by eapply drain_decreases|done..].
Qed.

Lemma trues_pos l : (0 < trues l)%nat → ∃ i, l !! i = Some true.
Proof.
  induction l as [|[|] l IH]; simpl; [lia|by exists 0%nat|].
  intros H. destruct IH as [i ?]; [lia|]. by exists (S i).
Qed.

(** A state in which nothing can be done has nothing to do. *)
Lemma drained_quiet y d :
  notify_inv y d → (∀ z, ¬ drain y z) →
  nst_irq y = false ∧ queued (nst_spi y) = 0%nat ∧ nst_running y = 0%nat ∧
  deliverable (pending (entry d)) = [].
Proof.
  intros HI Hn. destruct y as [x q r sent taken]. destruct HI; simpl in *.
  assert (q = false) as ->.
  { destruct q; [|done]. destruct (Hn _ (drain_irq x r sent taken)). }
  assert (queued x = 0%nat) as Hq.
  { unfold queued. destruct (tc_notify_works x) as [l|] eqn:Hl; [|done].
    destruct (decide (0 < trues l)%nat) as [Hp|]; [|lia]. apply trues_pos in Hp as [i Hi].
    destruct (Hn _ (drain_start x false r sent taken l i Hl Hi)). }
  assert (r = 0%nat) as ->.
  { destruct r as [|r]; [done|].
    destruct (get_cases x d) as [[E _]|(d' & e & E & _)]; [done..| |].
    - destruct (Hn _ (drain_finish x false r sent taken x E)).
    - destruct (Hn _ (drain_take x false r sent taken _ e E)). }
  split_and!; try done. destruct (decide (deliverable (pending (entry d)) = [])) as [|Hne]; [done|].
  destruct (ni_served0 Hne) as [?|[?|?]]; [done|lia..].
Qed.

Lemma drain_sent y z : drain y z → nst_sent z = nst_sent y.
Proof. by destruct 1. Qed.

(** C23. Notifications are neither lost nor duplicated, whatever types the TEE
    writes.  From any state the TEE, the interrupt handler and the work items
    can reach together, the driver's own steps come to an end if the TEE writes
    nothing more, and then every notification ever written has either been
    taken, exactly once, or is still on the page behind (or at) an entry of an
    unknown type, which is never taken.  In particular all have been taken if
    all are of known types. *)
Theorem notifications_delivered y :
  nreach y →
  Acc (λ a b, drain b a) y ∧
  ∀ z, rtc drain y z → (∀ z', ¬ drain z z') →
    nst_running z = 0%nat ∧
    ∃ d, notify_heap (nst_spi z) !! g_notify_data (nst_spi z) = Some d ∧
      nst_sent y ≡ₚ nst_taken z ++ pending (entry d) ∧
      (pending (entry d) = [] ∨ ∃ e l, pending (entry d) = e :: l ∧ known e = false) ∧
      (Forall (λ e, known e = true) (nst_sent y) → nst_taken z ≡ₚ nst_sent y).
Proof.
  intros Hr. destruct (nreach_inv y Hr) as [d HI]. split; [by eapply drain_ends|].
  intros z Hz Hn.
  assert (nst_sent z = nst_sent y ∧ ∃ d', notify_inv z d') as [Es [d' HI']].
  { clear Hr Hn. revert d HI. induction Hz as [y|y z w Hs _ IH]; intros d HI; [eauto|].
    destruct (drain_inv _ _ _ HI Hs) as [d1 HI1]. rewrite <- (drain_sent _ _ Hs). eauto. }
  destruct (drained_quiet z d' HI' Hn) as (_ & _ & Hr0 & Hp). split; [done|].
  pose proof (ni_sent _ _ HI') as Hs. rewrite Es in Hs.
  exists d'. split; [apply (ni_heap _ _ HI')|]. split; [done|]. split.
  - destruct (pending (entry d')) as [|e l]; [by left|right]. exists e, l. split; [done|].
    simpl in Hp. by destruct (known e).
  - rewrite Hs. intros [_ Hk]%Forall_app. rewrite known_deliverable in Hp by done.
    by rewrite Hp, app_nil_r.
Qed.

(** ** One run of a work item *)

(** C24. A run of the notification work item, whatever the TEE has written into the
    page: it returns, no handler faults, and its effect is that of the
    reference: the entries before the first one of an unknown type are handled
    once each, in the order of the page, and the missed notifications are
    broadcast.  The registry's counters and the pending entries stay
    well-formed; references are left over only by timers of a class other than
    [TIMER_GENERIC], at most one each. *)
Theorem notify_run_serves {W : Type} {SW : SmcWorld W} {ST : ShadowThreads} {NT : NotifyTee W} {smcs : nat} {PW : PatientWorld W smcs}
    fuel (k : notify_sys W) H d :
  (∀ w x, tee_notify w x = x) → g_notify_data (ns_spi k) ≠ 0 →
  notify_heap (ns_spi k) !! g_notify_data (ns_spi k) = Some d →
  (length (deliverable (pending (entry d))) < fuel)%nat →
  notify_ok k H → room (ns_reg k) H (leaky (deliverable (pending (entry d)))) →
  ∃ k' lk d', tc_notify_fn fuel smcs k = Ret (Some k') ∧ run_reference smcs k d = Ret (Some k') ∧
    notify_ok k' (leak lk H) ∧ (length lk ≤ leaky (deliverable (pending (entry d))))%nat ∧
    notify_heap (ns_spi k') !! g_notify_data (ns_spi k) = Some d' ∧
    deliverable (pending (entry d')) = [].
Proof.
  intros Ht Hg Hd Hf Ho Hr.
  destruct (run_reference_ok k H d Ho Hr) as (k' & lk & d' & E & Ho' & Hl & Hd' & He).
  exists k', lk, d'. rewrite (tc_notify_fn_reference smcs fuel k d Ht Hg Hd Hf), He.
  split_and!; try done. apply served_nothing_left.
Qed.

(** ** Timers that keep their reference *)

(** A timer of a class other than [TIMER_GENERIC] whose session exists takes a
    reference on the session and never gives it back: after the handler, which
    holds nothing, the counters no longer count their users. *)
Theorem rtc_timer_leaks_session x R e R1 q :
  reg_inv R no_refs → small R no_refs →
  timer_class (property (context_timer (context e))) ≠ TIMER_GENERIC →
  find_notify_sess R (context_timer (context e)) = Ret (R1, q) → q ≠ 0 →
  ∃ R' calls, tc_notify_timer_fn x R e = Ret (R', calls) ∧
    reg_inv R' (add_sess q no_refs) ∧ ¬ reg_inv R' no_refs.
Proof.
  intros HI Hs Hc Hf Hq.
  destruct (find_notify_cases R no_refs (context_timer (context e)) HI Hs)
    as [E|(q' & s & _ & Hqs & _ & E & Hu & HI')]; rewrite Hf in E; [congruence|].
  injection E as -> ->. unfold tc_notify_timer_fn. rewrite Hf, ret_bind, (proj2 (Z.eqb_neq _ _) Hc).
  eexists _, _. split; [done|]. split; [done|]. intros HI0.
  destruct (inv_all _ _ HI q') as [Hn|(p & v & Hv & Hin)]; [by eauto|by apply elem_of_nil in Hn|].
  destruct (inv_listed _ _ HI p v q' Hv Hin) as (_ & s1 & Hs1 & Hu1 & _).
  destruct (inv_listed _ _ HI0 p v q' Hv Hin) as (_ & s2 & Hs2 & Hu2 & _).
  simpl in Hs2. rewrite lookup_insert_eq in Hs2. injection Hs2 as <-. rewrite Hqs in Hs1.
  injection Hs1 as <-. simpl in Hu1, Hu2. lia.
Qed.

(** An entry of an unknown type stays filled and hides every entry behind it:
    a run then handles nothing. *)
Lemma unknown_entry_blocks {W : Type} {SW : SmcWorld W} {ST : ShadowThreads} {NT : NotifyTee W} smcs fuel (k : notify_sys W) d e l :
  (∀ w x, tee_notify w x = x) → g_notify_data (ns_spi k) ≠ 0 →
  notify_heap (ns_spi k) !! g_notify_data (ns_spi k) = Some d →
  pending (entry d) = e :: l → known e = false →
  tc_notify_fn (S fuel) smcs k = spi_broadcast_notifications smcs k.
Proof.
  intros Ht Hg Hd Hp Hk.
  assert (deliverable (pending (entry d)) = []) as E by (rewrite Hp; simpl; by rewrite Hk).
  rewrite (tc_notify_fn_reference smcs (S fuel) k d Ht Hg Hd); [|rewrite E; simpl; lia].
  unfold run_reference. rewrite E, (served_none d E). cbn [handle_all]. rewrite ret_bind.
  rewrite (spi_page_same _ _ Hd). by destruct k.
Qed.

(** ** Callbacks *)

(** One callback per uuid, as many as are counted. *)
Record callbacks_ok (g : tc_ns_callback_list) : Prop := {
  cbo_count : callback_count g = Z.of_nat (length (callback_list g));
  cbo_nodup : NoDup (cb_uuid <$> callback_list g);
  cbo_bound : callback_count g ≤ MAX_CALLBACK_COUNT + 1
}.

Lemma set_callback_some u f l l' :
  set_callback u f l = Some l' →
  cb_uuid <$> l' = cb_uuid <$> l ∧ u ∈ cb_uuid <$> l ∧
  ∀ cb, cb ∈ l' → cb_uuid cb = u → NoDup (cb_uuid <$> l) → cb = Callback u f.
Proof.
  revert l'. induction l as [|c l IH]; intros l'; cbn [set_callback]; [done|].
  case_bool_decide as Hu.
  - intros [= <-]. rewrite !fmap_cons, Hu. split; [done|]. split; [left|].
    intros cb [->|Hcb]%elem_of_cons Hc Hn; [done|]. apply NoDup_cons in Hn as [Hn _].
    destruct Hn. rewrite <- Hc. by apply list_elem_of_fmap_2.
  - destruct (set_callback u f l) as [l1|]; [|done]. intros [= <-].
    destruct (IH l1 eq_refl) as (E & Hin & Hcb). rewrite !fmap_cons, E.
    split; [done|]. split; [by right|].
    intros cb [->|Hc]%elem_of_cons He Hn; [done|]. apply NoDup_cons in Hn as [_ Hn]. eauto.
Qed.

Lemma set_callback_none u f l : set_callback u f l = None → u ∉ cb_uuid <$> l.
Proof.
  induction l as [|c l IH]; cbn [set_callback]; [intros _; apply not_elem_of_nil|].
  case_bool_decide; [done|]. destruct (set_callback u f l); [done|]. intros _.
  rewrite fmap_cons. apply not_elem_of_cons. split; [congruence|]. by apply IH.
Qed.

(** The callback that runs for a uuid is the one on the list. *)
Lemma walk_loop_one t l f :
  NoDup (cb_uuid <$> l) → timer_class (property t) = TIMER_RTC →
  Callback (nt_uuid t) f ∈ l → walk_loop t l = [(f, property t)].
Proof.
  intros Hn Hc.
  assert (∀ l, nt_uuid t ∉ cb_uuid <$> l → walk_loop t l = []) as H0.
  { intros k. induction k as [|c k IH]; [done|]. rewrite fmap_cons.
    intros [Hu Hk]%not_elem_of_cons. cbn [walk_loop]. rewrite bool_decide_false by congruence.
    by apply IH. }
  induction l as [|c l IH]; intros Hin; [by apply elem_of_nil in Hin|].
  rewrite fmap_cons in Hn. apply NoDup_cons in Hn as [Hcn Hn]. cbn [walk_loop].
  apply elem_of_cons in Hin as [<-|Hin].
  - rewrite bool_decide_true by done. rewrite Hc. cbn [negb Z.eqb TIMER_RTC]. by rewrite H0.
  - rewrite bool_decide_false; [by apply IH|]. intros E. destruct Hcn. rewrite E.
    by apply (list_elem_of_fmap_2 cb_uuid _ _ Hin).
Qed.

(** Registration of a callback keeps one callback per uuid, refuses arguments
    that are NULL and a full list without changing anything, and when it
    succeeds a later RTC timer of that uuid runs exactly the registered
    function, once. *)
Theorem callback_registered kz s u func s' ret :
  callbacks_ok (g_ta_callback_func_list s) →
  tc_ns_register_service_call_back_func kz s u func = (s', ret) →
  callbacks_ok (g_ta_callback_func_list s') ∧
  (ret ≠ 0 → s' = s) ∧
  (ret = 0 → ∀ t, u = Some (nt_uuid t) → timer_class (property t) = TIMER_RTC →
     walk_callback_list s' t = [(func, property t)]).
Proof.
  intros Hok. unfold tc_ns_register_service_call_back_func.
  destruct u as [u|]; [|by intros [= <- <-]]. destruct (func =? 0); [by intros [= <- <-]|].
  destruct Hok as [Hc Hn Hb]. destruct (Z.ltb_spec MAX_CALLBACK_COUNT
    (callback_count (g_ta_callback_func_list s))) as [_|Hm]; [by intros [= <- <-]|].
  destruct (set_callback _ _ _) as [l|] eqn:E.
  - intros [= <- <-]. destruct (set_callback_some _ _ _ _ E) as (Em & Hin & Hcb).
    split; [|split; [done|]].
    + split; simpl; [|by rewrite Em|done]. rewrite Hc.
      by rewrite <- (length_fmap cb_uuid l), Em, length_fmap.
    + intros _ t [= ->] Ht. unfold walk_callback_list. simpl.
      apply walk_loop_one; [by rewrite Em|done|]. rewrite <- Em in Hin.
      apply list_elem_of_fmap in Hin as (cb & Hu & Hin).
      by rewrite (Hcb cb Hin (eq_sym Hu) Hn) in Hin.
  - destruct (zero_or_null_ptr kz); [by intros [= <- <-]|]. intros [= <- <-].
    apply set_callback_none in E. unfold MAX_CALLBACK_COUNT in *.
    split; [|split; [done|]].
    + split; simpl; unfold MAX_CALLBACK_COUNT; rewrite ?u32_small by lia.
      * rewrite length_app. simpl. lia.
      * rewrite fmap_app. apply NoDup_app. split_and!; [done| |apply NoDup_singleton].
        intros v Hv ->%list_elem_of_singleton. done.
      * lia.
    + intros _ t [= ->] Ht. unfold walk_callback_list. simpl. apply walk_loop_one; [|done|].
      * rewrite fmap_app. apply NoDup_app. split_and!; [done| |apply NoDup_singleton].
        intros v Hv ->%list_elem_of_singleton. done.
      * apply elem_of_app. right. by left.
Qed.

(** ** Set-up and removal *)

Section Setup.
Context {Env St : Type} {BA : BlockAllocator St} {BAL : BlockAllocatorLaws St BA}.
Context {SMC : SmcChannel Env} {P : PageMap}.

Lemma send_notify_cmd_balanced (e : Env) (s : St) m page id L :
  ba_owns s L →
  ∃ e' s' m' ret, send_notify_cmd e s m page id = Ret (e', s', m', ret) ∧ ba_owns s' L.
Proof.
  intros Ho. unfold send_notify_cmd.
  destruct (ba_alloc_ok s L m SZ_4K MB_FLAG_ZERO Ho) as (s1 & m1 & a & -> & Ha); [done|].
  rewrite ret_bind. destruct Ha as [(-> & Ho1 & ->)|(Hp & Hn & _ & Ho1 & _)].
  { by eexists _, _, _, _. }
  rewrite (proj2 (Z.eqb_neq a 0)) by lia. destruct (tc_ns_smc e m1 _ _) as [[[[e1 m2] o] c] r].
  destruct (ba_free_ok s1 _ a Ho1) as (s2 & -> & Ho2); [set_solver|]. rewrite ret_bind.
  eexists _, _, _, _. split; [done|]. by replace L with (({[a]} ∪ L) ∖ {[a]}) by set_solver.
Qed.

(** Without a page nothing is sent and only the work queue goes away. *)
Lemma tz_spi_exit_no_page (e : Env) (s : St) m x :
  g_notify_data x = 0 →
  tz_spi_exit e s m x = Ret (e, s, m, if g_tz_spi_wq x then flush_and_destroy x else x).
Proof. intros E. unfold tz_spi_exit. rewrite E. done. Qed.

(** The static variables before the first initialisation and after a removal. *)
Definition spi_off (x : spi_state) : Prop := g_notify_data x = 0 ∧ g_tz_spi_wq x = false.

(** Initialisation of the notifications ends on every path with every mailbox
    block given back.  With status 0 the page is allocated, zeroed and
    registered, and a later [tz_spi_exit] frees exactly its frames and turns
    everything off; with any other status everything is off again. *)
Theorem spi_init_exit (e : Env) (s : St) m x class_dev np wq irq pg L :
  ba_owns s L → spi_off x → notify_heap x !! pg = None →
  frames_at pg NOTIFY_PAGES ## notify_frames x →
  ∃ e1 s1 m1 x1 ret,
    tz_spi_init e s m x class_dev np wq irq pg = Ret (e1, s1, m1, x1, ret) ∧ ba_owns s1 L ∧
    (ret ≠ 0 → spi_off x1) ∧
    (ret = 0 → g_notify_data x1 = pg ∧ pg ≠ 0 ∧ notify_heap x1 !! pg = Some zero_notify_data ∧
       callback_list (g_ta_callback_func_list x1) = [] ∧
       ∃ e2 s2 m2 x2, tz_spi_exit e1 s1 m1 x1 = Ret (e2, s2, m2, x2) ∧ ba_owns s2 L ∧
         spi_off x2 ∧ notify_heap x2 = notify_heap x ∧ notify_frames x2 = notify_frames x).
Proof.
  intros Ho [Hg Hq] Hh Hf. unfold tz_spi_init.
  destruct class_dev; cbn [negb]; [|by eexists _, _, _, _, _].
  destruct wq; cbn [negb]; [|by eexists _, _, _, _, _].
  unfold config_spi_context. destruct np; cbn [negb].
  2:{ cbn. rewrite tz_spi_exit_no_page by done. by eexists _, _, _, _, _. }
  destruct (Z.ltb_spec irq 0).
  { cbn. unfold nonzero. rewrite (proj2 (Z.eqb_neq irq 0)) by lia. cbn [negb].
    rewrite tz_spi_exit_no_page by done. eexists _, _, _, _, _. split; [done|]. split; [done|].
    split; [done|lia]. }
  cbn [spi_with_wq spi_with_callbacks g_notify_data]. rewrite Hg. cbn [Z.eqb negb nonzero].
  destruct (Z.eqb_spec pg 0) as [->|Hpg].
  { rewrite tz_spi_exit_no_page by done. by eexists _, _, _, _, _. }
  set (x0 := spi_alloc_page _ pg).
  destruct (send_notify_cmd_balanced e s m pg GLOBAL_CMD_ID_REGISTER_NOTIFY_MEMORY L Ho)
    as (e1 & s1 & m1 & ret & -> & Ho1). rewrite ret_bind.
  destruct (nonzero ret).
  { rewrite tz_spi_exit_no_page by done. by eexists _, _, _, _, _. }
  eexists _, _, _, _, _. split; [done|]. split; [done|]. split; [done|]. intros _.
  split; [done|]. split; [done|]. split; [by apply lookup_insert_eq|]. split; [done|].
  unfold tz_spi_exit. cbn [x0 spi_alloc_page g_notify_data]. rewrite (proj2 (Z.eqb_neq pg 0)) by done.
  destruct (send_notify_cmd_balanced e1 s1 m1 pg GLOBAL_CMD_ID_UNREGISTER_NOTIFY_MEMORY L Ho1)
    as (e2 & s2 & m2 & r2 & -> & Ho2). rewrite !ret_bind.
  eexists _, _, _, _. split; [done|]. split; [done|]. split; [done|]. split.
  - simpl. by rewrite delete_insert_id.
  - simpl. set_solver.
Qed.

(** When the TEE refuses the page, [tz_spi_init] frees one of its sixteen
    frames and forgets the others. *)
Lemma spi_init_failure_leaks_frames (e e1 : Env) (s s1 : St) m m1 x irq pg ret :
  spi_off x → 0 ≤ irq → pg ≠ 0 →
  send_notify_cmd e s m pg GLOBAL_CMD_ID_REGISTER_NOTIFY_MEMORY = Ret (e1, s1, m1, ret) → ret ≠ 0 →
  ∃ x1, tz_spi_init e s m x true true true irq pg = Ret (e1, s1, m1, x1, - EFAULT) ∧ spi_off x1 ∧
    notify_frames x1 = (notify_frames x ∪ frames_at pg NOTIFY_PAGES) ∖ {[ pg ]}.
Proof.
  intros [Hg Hq] Hirq Hpg Hs Hr. unfold tz_spi_init, config_spi_context. cbn [negb].
  rewrite (proj2 (Z.ltb_ge irq 0)) by lia.
  cbn [spi_with_wq spi_with_callbacks g_notify_data]. rewrite Hg. cbn [Z.eqb negb nonzero].
  rewrite (proj2 (Z.eqb_neq pg 0)) by done. rewrite Hs, ret_bind.
  unfold nonzero. rewrite (proj2 (Z.eqb_neq ret 0)) by done. cbn [negb].
  rewrite tz_spi_exit_no_page by done. eexists. split; [done|]. split; [done|].
  simpl. f_equal. unfold frames_at. simpl. rewrite Z.mul_0_r, Z.add_0_r. set_solver.
Qed.

End Setup.

(** ** Witnesses *)

(** A wake-up of thread 42, an RTC timer and a generic timer for the session of
    [open_registry]. *)
Definition demo_wakeup : notify_data_entry :=
  NotifyEntry NOTIFY_DATA_ENTRY_WAKEUP true (le_bytes 4 42 ++ replicate 44 0).

Definition demo_timer (class : Z) : notify_data_entry :=
  NotifyEntry NOTIFY_DATA_ENTRY_TIMER true
    (le_bytes 4 1 ++ demo_uuid ++ le_bytes 4 5 ++ le_bytes 4 0 ++ le_bytes 4 0
     ++ le_bytes 4 class ++ replicate 12 0).

Definition demo_notify_page : notify_data_struct :=
  NotifyData [demo_timer TIMER_GENERIC; zero_entry; demo_wakeup; demo_timer TIMER_RTC]
    (NotifyStats 0 0 0 0 8).

Definition demo_spi (d : notify_data_struct) : spi_state :=
  SpiState 0x9000 {[ 0x9000 := d ]} (frames_at 0x9000 NOTIFY_PAGES) (CallbackList 0 []) None true.

Definition empty_notify_page : notify_data_struct :=
  NotifyData [zero_entry; zero_entry] (NotifyStats 0 0 0 0 0).

Definition demo_sent : nstate :=
  NState (demo_spi (NotifyData [zero_entry; demo_wakeup] (NotifyStats 0 0 1 0 0))) true 0
    [demo_wakeup] [].

Lemma demo_sent_reach : nreach demo_sent.
Proof.
  exists (NState (demo_spi empty_notify_page) false 0 [] []). split.
  - by eexists _, empty_notify_page.
  - apply rtc_once. left.
    apply (fill_entry (demo_spi empty_notify_page) false 0 [] [] empty_notify_page
             (NotifyStats 0 0 1 0 0) 1 zero_entry demo_wakeup); done.
Qed.

(** The interrupt is served, a work item takes the entry and finds no other. *)
Definition demo_quiet : nstate :=
  NState
    (SpiState 0x9000
       {[ 0x9000 := NotifyData [zero_entry; clear_filled demo_wakeup] (NotifyStats 0 0 1 1 0) ]}
       (frames_at 0x9000 NOTIFY_PAGES) (CallbackList 0 []) (Some (replicate 8 false)) true)
    false 0 [demo_wakeup] [demo_wakeup].

Lemma notifications_delivered_witness :
  Acc (λ a b, drain b a) demo_sent ∧ nst_taken demo_quiet ≡ₚ nst_sent demo_sent.
Proof.
  destruct (notifications_delivered demo_sent demo_sent_reach) as [Ha Hd].
  split; [exact Ha|]. destruct (Hd demo_quiet) as (_ & d & _ & _ & _ & Hk).
  3:{ apply Hk. by repeat constructor. }
  - eapply rtc_l; [apply drain_irq|].
    eapply rtc_l; [by apply (drain_start _ _ _ _ _ (true :: replicate 7 false) 0)|].
    eapply rtc_l; [by eapply drain_take|].
    eapply rtc_l; [by eapply drain_finish|]. apply rtc_refl.
  - intros z Hz. inversion Hz; subst; simpl in *; simplify_eq.
    change (replicate 8 false !! i = Some true) in H6. by apply lookup_replicate in H6 as [? _].
Defined.

Definition demo_notify_sys : notify_sys unit :=
  NotifySys tt (demo_spi demo_notify_page) open_registry demo_sys (ShadowState [] 0) [].

Lemma demo_pend_good : pend_good (PendState ∅ []).
Proof.
  exists [], []. split; [|simpl; lia]. apply (preach_ok _ [] []). apply pr_init.
Qed.

#[local] Instance crash_world_patient : PatientWorld unit (SW := crash_world) 1.
Proof.
  refine {| patience _ := 0%nat |}; [lia|..].
  - by intros w p s w' s' out [= <- <- <-].
  - by intros w p s w' s' out [= <- <- <-].
Defined.

#[local] Instance quiet_tee : NotifyTee unit := {| tee_notify _ x := x |}.
#[local] Instance no_shadow : ShadowThreads :=
  {| kthread_queue_work _ := true; target_arg _ := 0; kthread_create _ := 0 |}.

Lemma notify_run_serves_witness :
  ∃ k' lk, tc_notify_fn (SW := crash_world) 4 1 demo_notify_sys
           = Ret (Some k') ∧
    notify_ok k' (leak lk no_refs) ∧ (length lk ≤ 1)%nat.
Proof.
  destruct (notify_run_serves (SW := crash_world) 4 demo_notify_sys
    no_refs demo_notify_page) as (k' & lk & d' & E & _ & Ho & Hl & _).
  - reflexivity.
  - discriminate.
  - reflexivity.
  - vm_compute. lia.
  - split; [exact open_registry_inv|exact demo_pend_good].
  - vm_compute. reflexivity.
  - exists k', lk. split; [exact E|]. split; [exact Ho|exact Hl].
Defined.

Lemma rtc_timer_leaks_session_witness :
  ∃ R' calls, tc_notify_timer_fn (demo_spi demo_notify_page) open_registry (demo_timer TIMER_RTC)
              = Ret (R', calls) ∧
    reg_inv R' (add_sess 3000 no_refs) ∧ ¬ reg_inv R' no_refs.
Proof.
  eapply (rtc_timer_leaks_session _ open_registry).
  - exact open_registry_inv.
  - vm_compute. reflexivity.
  - discriminate.
  - reflexivity.
  - discriminate.
Defined.

Lemma callback_registered_witness :
  callback_list (g_ta_callback_func_list
    (tc_ns_register_service_call_back_func 0x5000 (demo_spi demo_notify_page)
       (Some demo_uuid) 0x777).1) = [Callback demo_uuid 0x777] ∧
  walk_callback_list
    (tc_ns_register_service_call_back_func 0x5000 (demo_spi demo_notify_page)
       (Some demo_uuid) 0x777).1 (context_timer (context (demo_timer TIMER_RTC)))
  = [(0x777, TimerProperty 0 0 1 0)].
Proof.
  destruct (callback_registered 0x5000 (demo_spi demo_notify_page) (Some demo_uuid) 0x777
    (tc_ns_register_service_call_back_func 0x5000 (demo_spi demo_notify_page)
       (Some demo_uuid) 0x777).1 0) as (_ & _ & H).
  - split; [reflexivity|constructor|vm_compute; discriminate].
  - reflexivity.
  - split; [reflexivity|]. apply H; reflexivity.
Defined.

Definition spi_boot : spi_state := SpiState 0 ∅ ∅ (CallbackList 0 []) None false.

Lemma spi_init_exit_witness :
  ∃ e1 s1 m1 x1 ret,
    tz_spi_init (BA := demo_blocks) (SMC := yes_tee) (P := linear_map) 0%nat demo_pool ∅ spi_boot
      true true true 0 0x9000 = Ret (e1, s1, m1, x1, ret) ∧
    (ret ≠ 0 → spi_off x1).
Proof.
  destruct (spi_init_exit (BA := demo_blocks) (SMC := yes_tee) (P := linear_map) 0%nat demo_pool ∅
    spi_boot true true true 0 0x9000 ∅) as (e1 & s1 & m1 & x1 & ret & E & _ & Hoff & _).
  - exists 5, ∅. split; [exact demo_pool_ok|].
    intros a. split; [set_solver|]. intros (h & _ & [k Hk]). by rewrite lookup_empty in Hk.
  - split; reflexivity.
  - reflexivity.
  - set_solver.
  - exists e1, s1, m1, x1, ret. split; [exact E|exact Hoff].
Defined.
