(* ===== verification/CmdMonitor.v ===== *)
(** * The command monitor (core/cmdmonitor.c)

    Every command a thread sends to the TEE has an item on a list while it
    runs.  A periodic work item removes the items of commands that have
    returned and reports the ones that run too long; only the commands of
    reported threads may be aborted when their process is killed.

    An item is a kernel allocation, 0 is NULL and using a freed one is [Fault].
    The mutex keeps the operations on the list apart; [cmd_monitor_logend] uses
    its item without the mutex and is therefore given access by access
    ([logend_access]), and the tick, which holds the mutex but meets these
    accesses, item by item ([tick_item]).  [now] is the time an operation
    reads. *)

From stdpp Require Import base gmap list.
From Stdlib Require Import ZArith Lia.
From S2P Require Import Prelude KernelApi TeeTypes Buffers Mailbox SessReg CallTypes Login.

(** ** Data (core/cmdmonitor.h) *)

Definition CMD_MAX_EXECUTE_TIME : Z := 25.
Definition S_TO_MS : Z := 1000.
Definition S_TO_US : Z := 1000000.
Definition MAX_AGENT_CALL_COUNT : Z := 250.
Definition TASK_COMM_LEN : Z := 16.
Definition TYPE_CRASH_TA : Z := 1.
Definition TYPE_CRASH_TEE : Z := 2.

Record time_spec := TimeSpec { tv_sec : Z; tv_nsec : Z }.

Record cmd_monitor := CmdMonitor {
  sendtime : time_spec;
  cm_count : Z;
  returned : bool;
  is_reported : bool;
  cm_pid : Z;
  cm_tid : Z;
  pname : list Z;
  tname : list Z;
  lastcmdid : Z;
  timetotal : Z;
  agent_call_count : Z
}.

(** The static variables of the file, and of the statistics thread it wakes
    ([g_siq_th_run]); [tick_queued] and [archive_queued] tell whether the two
    delayed work items are queued. *)
Record mon_state := MonState {
  mon_heap : gmap Z cmd_monitor;
  g_cmd_monitor_list : list Z;
  g_cmd_monitor_list_size : Z;
  g_cmd_need_archivelog : Z;
  g_tee_detect_ta_crash : Z;
  tick_queued : bool;
  archive_queued : bool;
  g_cmd_monitor_wq : bool;
  g_siq_th_run : Z
}.

Definition mon_with_items (s : mon_state) (h : gmap Z cmd_monitor) (l : list Z) (n : Z) : mon_state :=
  MonState h l n (g_cmd_need_archivelog s) (g_tee_detect_ta_crash s) (tick_queued s)
    (archive_queued s) (g_cmd_monitor_wq s) (g_siq_th_run s).

Definition mon_set (s : mon_state) (p : Z) (m : cmd_monitor) : mon_state :=
  mon_with_items s (<[p := m]> (mon_heap s)) (g_cmd_monitor_list s) (g_cmd_monitor_list_size s).

(** ** Work items *)

(** [schedule_cmd_monitor_work] on the two work items; both queues accept an
    item, and an item that is queued stays where it is. *)
Definition schedule_tick (s : mon_state) : mon_state :=
  MonState (mon_heap s) (g_cmd_monitor_list s) (g_cmd_monitor_list_size s)
    (g_cmd_need_archivelog s) (g_tee_detect_ta_crash s) true (archive_queued s)
    (g_cmd_monitor_wq s) (g_siq_th_run s).

Definition schedule_archive (s : mon_state) : mon_state :=
  MonState (mon_heap s) (g_cmd_monitor_list s) (g_cmd_monitor_list_size s)
    (g_cmd_need_archivelog s) (g_tee_detect_ta_crash s) (tick_queued s) true
    (g_cmd_monitor_wq s) (g_siq_th_run s).

Definition tzdebug_archivelog (s : mon_state) : mon_state := schedule_archive s.

Definition cmd_monitor_ta_crash (s : mon_state) (type : Z) : mon_state :=
  tzdebug_archivelog
    (MonState (mon_heap s) (g_cmd_monitor_list s) (g_cmd_monitor_list_size s)
       (g_cmd_need_archivelog s) (if type =? TYPE_CRASH_TEE then TYPE_CRASH_TEE else TYPE_CRASH_TA)
       (tick_queued s) (archive_queued s) (g_cmd_monitor_wq s) (g_siq_th_run s)).

(** [wakeup_tc_siq] (core/smc_smp.c), after [g_cmd_need_archivelog = 1]. *)
Definition wakeup_tc_siq (s : mon_state) : mon_state :=
  MonState (mon_heap s) (g_cmd_monitor_list s) (g_cmd_monitor_list_size s)
    (g_cmd_need_archivelog s) (g_tee_detect_ta_crash s) (tick_queued s) (archive_queued s)
    (g_cmd_monitor_wq s) 1.

Definition set_need_archivelog (s : mon_state) (x : Z) : mon_state :=
  MonState (mon_heap s) (g_cmd_monitor_list s) (g_cmd_monitor_list_size s) x
    (g_tee_detect_ta_crash s) (tick_queued s) (archive_queued s) (g_cmd_monitor_wq s)
    (g_siq_th_run s).

Definition do_cmd_need_archivelog (s : mon_state) : mon_state :=
  if g_cmd_need_archivelog s =? 1 then schedule_archive (set_need_archivelog s 0) else s.

(** The archive itself is [tlogger_store_msg] of [TloggerSys], whose status is
    only logged; [report_log_system_panic] is empty in the configuration of the
    Makefile. *)
Definition cmd_monitor_archivefn (s : mon_state) : mon_state :=
  MonState (mon_heap s) (g_cmd_monitor_list s) (g_cmd_monitor_list_size s)
    (g_cmd_need_archivelog s) 0 (tick_queued s) false (g_cmd_monitor_wq s) (g_siq_th_run s).

(** [wq] tells whether the work queue could be allocated. *)
Definition init_cmd_monitor (s : mon_state) (wq : bool) : mon_state :=
  MonState (mon_heap s) (g_cmd_monitor_list s) (g_cmd_monitor_list_size s)
    (g_cmd_need_archivelog s) (g_tee_detect_ta_crash s) false false wq (g_siq_th_run s).

(** ** Names of threads *)

(** [task_comm pid] is the name of the task, [None] when there is none. *)
Class TaskNames := { task_comm : Z → option (list Z) }.

Section Monitor.
Context {TN : TaskNames} {SS : SecureStr}.

(** The status and the contents of [comm]. *)
Definition get_pid_name (pid : Z) (comm : list Z) (size : Z) : Z * list Z :=
  if size <=? TASK_COMM_LEN - 1 then (-1, comm)
  else
    match task_comm pid with
    | None => (-1, comm)
    | Some name => str_ncopy comm size name 0 (zlen name)
    end.

(** [pname[0] = '\0'] on failure. *)
Definition name_or_empty (pid : Z) : list Z :=
  let '(ret, comm) := get_pid_name pid (replicate 16 0) TASK_COMM_LEN in
  if nonzero ret then splice comm 0 [0] else comm.

(** The table is empty. *)
Definition g_cmd_monitor_white_table : list (list Z) := [].

Definition is_thread_in_white_table (name : list Z) : bool :=
  existsb (λ w, bool_decide (name = w)) g_cmd_monitor_white_table.

(** ** Operations *)

Fixpoint reported_loop (s : mon_state) (tid : Z) (l : list Z) : outcome bool :=
  match l with
  | [] => Ret false
  | p :: l =>
      m ← at_index (mon_heap s) p;
      if u32 (cm_tid m) =? tid
      then Ret (is_reported m || (MAX_AGENT_CALL_COUNT <? agent_call_count m))
      else reported_loop s tid l
  end.

Definition is_thread_reported (s : mon_state) (tid : Z) : outcome bool :=
  reported_loop s tid (g_cmd_monitor_list s).

(** The item of a thread, 0 if it has none. *)
Fixpoint find_item (s : mon_state) (pid tid : Z) (l : list Z) : outcome Z :=
  match l with
  | [] => Ret 0
  | p :: l =>
      m ← at_index (mon_heap s) p;
      if (cm_pid m =? pid) && (cm_tid m =? tid) then Ret p else find_item s pid tid l
  end.

(** [pid] and [tid] are [current->tgid] and [current->pid]. *)
Definition cmd_monitor_reset_context (s : mon_state) (now : time_spec) (pid tid : Z)
    : outcome mon_state :=
  p ← find_item s pid tid (g_cmd_monitor_list s);
  if p =? 0 then Ret s
  else
    m ← at_index (mon_heap s) p;
    let n := s32 (agent_call_count m + 1) in
    Ret (mon_set s p
      (CmdMonitor now (cm_count m) (returned m) (is_reported m) (cm_pid m) (cm_tid m) (pname m)
         (tname m) (lastcmdid m) (timetotal m) (if n <? 0 then agent_call_count m else n))).

(** Milliseconds and microseconds between two times; C's division truncates. *)
Definition timedif_ms (now sent : time_spec) : Z :=
  S_TO_MS * (tv_sec now - tv_sec sent) + Z.quot (tv_nsec now - tv_nsec sent) S_TO_US.

Definition timedif_us (now sent : time_spec) : Z :=
  S_TO_US * (tv_sec now - tv_sec sent) + Z.quot (tv_nsec now - tv_nsec sent) S_TO_MS.

Definition show_timeout_cmd_info (s : mon_state) (now : time_spec) (p : Z) : outcome mon_state :=
  m ← at_index (mon_heap s) p;
  if (CMD_MAX_EXECUTE_TIME * S_TO_MS <? timedif_ms now (sendtime m)) && negb (is_reported m) then
    let s := mon_set s p
      (CmdMonitor (sendtime m) (cm_count m) (returned m) true (cm_pid m) (cm_tid m) (pname m)
         (tname m) (lastcmdid m) (timetotal m) (agent_call_count m)) in
    if negb (is_thread_in_white_table (tname m))
    then Ret (wakeup_tc_siq (set_need_archivelog s 1))
    else Ret s
  else Ret s.

(** One round of the loop of [cmd_monitor_tick]. *)
Definition tick_item (s : mon_state) (now : time_spec) (p : Z) : outcome mon_state :=
  m ← at_index (mon_heap s) p;
  if returned m then
    q ← unlink p (g_cmd_monitor_list s);
    Ret (mon_with_items s (delete p (mon_heap s)) q (s32 (g_cmd_monitor_list_size s - 1)))
  else show_timeout_cmd_info s now p.

Fixpoint tick_loop (s : mon_state) (now : time_spec) (l : list Z) : outcome mon_state :=
  match l with
  | [] => Ret s
  | p :: l => s ← tick_item s now p; tick_loop s now l
  end.

(** If there are commands on the list, there has to be a tick. *)
Definition tick_again (s : mon_state) : mon_state :=
  if 0 <? g_cmd_monitor_list_size s then schedule_tick s else s.

Definition cmd_monitor_tick (s : mon_state) (now : time_spec) : outcome mon_state :=
  s ← tick_loop s now (g_cmd_monitor_list s);
  Ret (tick_again s).

(** A work item is off the queue when it runs. *)
Definition tick_dequeued (s : mon_state) : mon_state :=
  MonState (mon_heap s) (g_cmd_monitor_list s) (g_cmd_monitor_list_size s)
    (g_cmd_need_archivelog s) (g_tee_detect_ta_crash s) false (archive_queued s)
    (g_cmd_monitor_wq s) (g_siq_th_run s).

Definition cmd_monitor_tickfn (s : mon_state) (now : time_spec) : outcome mon_state :=
  cmd_monitor_tick (tick_dequeued s) now.

(** [kz] is the address [kzalloc] returns. *)
Definition init_monitor_locked (s : mon_state) (now : time_spec) (kz pid tid : Z)
    : mon_state * Z :=
  if zero_or_null_ptr kz then (s, 0)
  else
    (mon_with_items s
       (<[kz := CmdMonitor now 1 false false pid tid (name_or_empty pid) (name_or_empty tid)
                  0 0 0]> (mon_heap s))
       (g_cmd_monitor_list s ++ [kz]) (s32 (g_cmd_monitor_list_size s + 1)), kz).

(** [lastcmdid = cmd->cmd_id] *)
Definition set_lastcmd (m : cmd_monitor) (id : Z) : cmd_monitor :=
  CmdMonitor (sendtime m) (cm_count m) (returned m) (is_reported m) (cm_pid m) (cm_tid m)
    (pname m) (tname m) id (timetotal m) (agent_call_count m).

(** [CONFIG_BIG_SESSION] is set: there is no limit to the list. *)
Definition cmd_monitor_log (s : mon_state) (now : time_spec) (kz pid tid : Z)
    (cmd : tc_ns_smc_cmd) : outcome (mon_state * Z) :=
  p ← find_item s pid tid (g_cmd_monitor_list s);
  if negb (p =? 0) then
    m ← at_index (mon_heap s) p;
    Ret (mon_set s p
      (CmdMonitor now (s32 (cm_count m + 1)) false false (cm_pid m) (cm_tid m) (pname m)
         (tname m) (cmd_id cmd) (timetotal m) 0), p)
  else
    let '(s, p) := init_monitor_locked s now kz pid tid in
    if p =? 0 then Ret (s, 0)
    else
      m ← at_index (mon_heap s) p;
      let s := mon_set s p (set_lastcmd m (cmd_id cmd)) in
      Ret (if g_cmd_monitor_list_size s =? 1 then schedule_tick s else s, p).

(** Where a thread is in [cmd_monitor_logend]: before the call, before each
    access to its item, with what it holds in registers. *)
Inductive logend_at :=
| LeCall
| LeSec (now : time_spec)
| LeNsec (now : time_spec) (sec : Z)
| LeTotal (timedif : Z)
| LeAdd (timedif total : Z)
| LeMark.

(** [item->timetotal = x] and [item->returned = true] *)
Definition set_timetotal (m : cmd_monitor) (x : Z) : cmd_monitor :=
  CmdMonitor (sendtime m) (cm_count m) (returned m) (is_reported m) (cm_pid m) (cm_tid m)
    (pname m) (tname m) (lastcmdid m) x (agent_call_count m).

Definition set_returned (m : cmd_monitor) : cmd_monitor :=
  CmdMonitor (sendtime m) (cm_count m) true (is_reported m) (cm_pid m) (cm_tid m)
    (pname m) (tname m) (lastcmdid m) (timetotal m) (agent_call_count m).

(** The next access, and where it leaves the thread ([None]: the function has
    returned). *)
Definition logend_access (s : mon_state) (now : time_spec) (item : Z) (at_ : logend_at)
    : outcome (mon_state * option logend_at) :=
  match at_ with
  | LeCall => Ret (s, if item =? 0 then None else Some (LeSec now))
  | LeSec now =>
      m ← at_index (mon_heap s) item;
      Ret (s, Some (LeNsec now (tv_sec (sendtime m))))
  | LeNsec now sec =>
      m ← at_index (mon_heap s) item;
      Ret (s, Some (LeTotal (timedif_us now (TimeSpec sec (tv_nsec (sendtime m))))))
  | LeTotal timedif =>
      m ← at_index (mon_heap s) item;
      Ret (s, Some (LeAdd timedif (timetotal m)))
  | LeAdd timedif total =>
      m ← at_index (mon_heap s) item;
      Ret (mon_set s item (set_timetotal m (total + timedif)), Some LeMark)
  | LeMark =>
      m ← at_index (mon_heap s) item;
      Ret (mon_set s item (set_returned m), None)
  end.

(** The accesses in a row; there are at most six. *)
Fixpoint logend_run (n : nat) (s : mon_state) (now : time_spec) (item : Z) (at_ : logend_at)
    : outcome mon_state :=
  match n with
  | 0%nat => Ret s
  | S n =>
      r ← logend_access s now item at_;
      match r with
      | (s, Some next) => logend_run n s now item next
      | (s, None) => Ret s
      end
  end.

Definition cmd_monitor_logend (s : mon_state) (now : time_spec) (item : Z) : outcome mon_state :=
  logend_run 6 s now item LeCall.

End Monitor.
