(* ===== verification/CmdMonitorThm.v ===== *)
(** * The command monitor: interleavings of threads and ticks

    Threads that send commands, agents that reset the clock of a command and
    the periodic work item interleave freely.  A thread that has sent its
    command uses its item without the mutex, so each of its accesses is a step
    ([logend_access]); the tick holds the mutex while it walks the list, and
    each item it visits is a step ([tick_item]).

    A state is the monitor, the threads with a command (process id and thread
    id; the item [cmd_monitor_log] gave them and where they are in
    [cmd_monitor_logend]) and the items a tick under way still has to visit. *)

From stdpp Require Import base gmap list relations.
From Stdlib Require Import ZArith Lia.
From S2P Require Import Prelude KernelApi TeeTypes Buffers Mailbox SessReg CallTypes Login.
From S2P Require Import SessInv CmdMonitor.

Section Steps.
Context {TN : TaskNames} {SS : SecureStr}.

Abbreviation mstate := (mon_state * gmap (Z * Z) (Z * logend_at) * option (list Z))%type.

Inductive mon_step : mstate → mstate → Prop :=
| mon_log s running now kz pid tid cmd s' item :
    (* the thread is in no command, and the allocator returns memory not in use *)
    running !! (pid, tid) = None →
    (zero_or_null_ptr kz = false → mon_heap s !! kz = None) →
    Z.of_nat (length (g_cmd_monitor_list s)) < 2 ^ 31 - 1 →
    cmd_monitor_log s now kz pid tid cmd = Ret (s', item) →
    mon_step (s, running, None) (s', <[(pid, tid) := (item, LeCall)]> running, None)
| mon_logend s running tk now th item at_ s' next :
    running !! th = Some (item, at_) → logend_access s now item at_ = Ret (s', next) →
    mon_step (s, running, tk)
      (s', match next with
           | Some at' => <[th := (item, at')]> running
           | None => delete th running
           end, tk)
| mon_agent s running now pid tid s' :
    cmd_monitor_reset_context s now pid tid = Ret s' →
    mon_step (s, running, None) (s', running, None)
| mon_tick_start s running :
    tick_queued s = true →
    mon_step (s, running, None) (tick_dequeued s, running, Some (g_cmd_monitor_list s))
| mon_tick_item s running now p l s' :
    tick_item s now p = Ret s' →
    mon_step (s, running, Some (p :: l)) (s', running, Some l)
| mon_tick_end s running :
    mon_step (s, running, Some []) (tick_again s, running, None)
| mon_archive s running tk :
    archive_queued s = true → mon_step (s, running, tk) (cmd_monitor_archivefn s, running, tk)
| mon_other s running tk f :
    f ∈ [tzdebug_archivelog; do_cmd_need_archivelog; wakeup_tc_siq;
         (λ s, cmd_monitor_ta_crash s TYPE_CRASH_TA); (λ s, cmd_monitor_ta_crash s TYPE_CRASH_TEE)] →
    mon_step (s, running, tk) (f s, running, tk).

Definition mon_start : mstate := (MonState ∅ [] 0 0 0 false false true 0, ∅, None).

Definition mreach (x : mstate) : Prop := rtc mon_step mon_start x.

(** ** The invariant *)

Definition thread_of (m : cmd_monitor) : Z * Z := (cm_pid m, cm_tid m).

Record mon_inv (s : mon_state) (running : gmap (Z * Z) Z) : Prop := {
  mi_nodup : NoDup (g_cmd_monitor_list s);
  mi_null : 0 ∉ g_cmd_monitor_list s;
  mi_heap p : is_Some (mon_heap s !! p) ↔ p ∈ g_cmd_monitor_list s;
  mi_size : g_cmd_monitor_list_size s = Z.of_nat (length (g_cmd_monitor_list s));
  mi_small : Z.of_nat (length (g_cmd_monitor_list s)) < 2 ^ 31;
  mi_thread p q m m' :
    mon_heap s !! p = Some m → mon_heap s !! q = Some m' → thread_of m = thread_of m' → p = q;
  mi_running th item :
    running !! th = Some item → item ≠ 0 →
    ∃ m, mon_heap s !! item = Some m ∧ thread_of m = th ∧ returned m = false;
  mi_unreturned p m :
    mon_heap s !! p = Some m → returned m = false → running !! thread_of m = Some p
}.

(** The items of the threads. *)
Definition items (running : gmap (Z * Z) (Z * logend_at)) : gmap (Z * Z) Z := fst <$> running.

(** A list that is not empty has a tick queued or under way, and a tick under
    way still has to visit the rest of the list. *)
Definition tick_inv_at (s : mon_state) (tk : option (list Z)) : Prop :=
  match tk with
  | None => g_cmd_monitor_list s ≠ [] → tick_queued s = true
  | Some l => ∃ l1, g_cmd_monitor_list s = l1 ++ l
  end.

Lemma find_item_cases s running pid tid :
  mon_inv s running →
  (find_item s pid tid (g_cmd_monitor_list s) = Ret 0 ∧
     ∀ p m, mon_heap s !! p = Some m → thread_of m ≠ (pid, tid)) ∨
  ∃ p m, find_item s pid tid (g_cmd_monitor_list s) = Ret p ∧ p ≠ 0 ∧
    p ∈ g_cmd_monitor_list s ∧ mon_heap s !! p = Some m ∧ thread_of m = (pid, tid).
Proof.
  intros HI.
  assert (∀ l, (∀ p, p ∈ l → p ∈ g_cmd_monitor_list s) →
    (find_item s pid tid l = Ret 0 ∧
      ∀ p m, p ∈ l → mon_heap s !! p = Some m → thread_of m ≠ (pid, tid)) ∨
    ∃ p m, find_item s pid tid l = Ret p ∧ p ≠ 0 ∧ p ∈ l ∧
      mon_heap s !! p = Some m ∧ thread_of m = (pid, tid)) as Hl.
  { induction l as [|p l IH]; intros Hin.
    { left. split; [done|]. by intros p m ?%elem_of_nil. }
    assert (p ∈ g_cmd_monitor_list s) as Hp by (apply Hin; left).
    destruct (proj2 (mi_heap _ _ HI p) Hp) as [m Hm]. cbn [find_item].
    rewrite (proj2 (at_index_Some _ _ _) Hm), ret_bind.
    destruct (decide (thread_of m = (pid, tid))) as [E|E].
    - right. exists p, m. pose proof E as Ht. injection Ht as -> ->.
      rewrite !Z.eqb_refl. split; [done|].
      split; [intros ->; by apply (mi_null _ _ HI)|]. split; [left|done].
    - assert ((cm_pid m =? pid) && (cm_tid m =? tid) = false) as ->.
      { destruct (Z.eqb_spec (cm_pid m) pid), (Z.eqb_spec (cm_tid m) tid); try done.
        destruct E. unfold thread_of. congruence. }
      destruct IH as [[-> Hn]|(q & m' & -> & ? & ? & ? & ?)]; [by intros; apply Hin; right| |].
      + left. split; [done|]. intros q m' [->|Hq]%elem_of_cons Hm'; [by simplify_eq|by eapply Hn].
      + right. exists q, m'. split_and!; try done. by right. }
  destruct (Hl (g_cmd_monitor_list s)) as [[E Hn]|H]; [done| |by right].
  left. split; [done|]. intros p m Hm. eapply Hn; [|done]. apply (mi_heap _ _ HI). eauto.
Qed.

(** An item changes, but not its thread. *)
Lemma mon_set_inv s running running' p m m' :
  mon_inv s running → mon_heap s !! p = Some m → thread_of m' = thread_of m →
  (∀ th, th ≠ thread_of m → running' !! th = running !! th) →
  (∀ q, running' !! thread_of m = Some q → q ≠ 0 → q = p ∧ returned m' = false) →
  (returned m' = false → running' !! thread_of m = Some p) →
  mon_inv (mon_set s p m') running'.
Proof.
  intros HI Hm Ht Ho Hr Hr'. destruct HI as [H1 H2 H3 H4 H5 H6 H7 H8]. split; simpl; try done.
  - intros q. rewrite lookup_insert_is_Some'. rewrite <- H3.
    split; [intros [<-|?]; [by eauto|done]|by right].
  - assert (∀ q n, <[p := m']> (mon_heap s) !! q = Some n →
      ∃ n0, mon_heap s !! q = Some n0 ∧ thread_of n0 = thread_of n) as Hq.
    { intros q n. destruct (decide (p = q)) as [<-|].
      - rewrite lookup_insert_eq. intros [= <-]. by exists m.
      - rewrite lookup_insert_ne by done. eauto. }
    intros q r n n' (n0 & Hn0 & <-)%Hq (n1 & Hn1 & <-)%Hq. by apply H6.
  - intros th item Hth Hi. destruct (decide (th = thread_of m)) as [->|Hne].
    + destruct (Hr item Hth Hi) as [-> ?]. exists m'. by rewrite lookup_insert_eq.
    + rewrite Ho in Hth by done. destruct (H7 th item Hth Hi) as (n & Hn & Hnt & ?).
      exists n. rewrite lookup_insert_ne; [done|]. intros <-. rewrite Hm in Hn. injection Hn as <-. done.
  - intros q n. destruct (decide (p = q)) as [<-|Hne].
    + rewrite lookup_insert_eq. intros [= <-] E. rewrite Ht. by apply Hr'.
    + rewrite lookup_insert_ne by done. intros Hn E. rewrite Ho; [by apply H8|].
      intros Heq. destruct Hne. by eapply H6.
Qed.

(** A step that leaves the items alone. *)
Lemma mon_same_inv s s' running :
  mon_inv s running → mon_heap s' = mon_heap s → g_cmd_monitor_list s' = g_cmd_monitor_list s →
  g_cmd_monitor_list_size s' = g_cmd_monitor_list_size s → mon_inv s' running.
Proof.
  intros [H1 H2 H3 H4 H5 H6 H7 H8] E1 E2 E3. split; rewrite ?E1, ?E2, ?E3; done.
Qed.

(** ** The operations keep the invariant *)

Lemma unreturned_thread s running p m :
  mon_inv s running → mon_heap s !! p = Some m → running !! thread_of m = None → returned m = true.
Proof.
  intros HI Hm Hr. destruct (returned m) eqn:E; [done|].
  rewrite (mi_unreturned _ _ HI p m Hm E) in Hr. done.
Qed.

(** A new item at the end of the list. *)
Lemma mon_add_inv s running kz m pid tid :
  mon_inv s running → kz ≠ 0 → mon_heap s !! kz = None → thread_of m = (pid, tid) →
  (∀ p n, mon_heap s !! p = Some n → thread_of n ≠ (pid, tid)) → returned m = false →
  Z.of_nat (length (g_cmd_monitor_list s)) < 2 ^ 31 - 1 →
  mon_inv (mon_with_items s (<[kz := m]> (mon_heap s)) (g_cmd_monitor_list s ++ [kz])
             (s32 (g_cmd_monitor_list_size s + 1))) (<[(pid, tid) := kz]> running).
Proof.
  intros [H1 H2 H3 H4 H5 H6 H7 H8] Hkz Hfresh Ht Hnone Hr Hlen.
  assert (kz ∉ g_cmd_monitor_list s) as Hnin by (rewrite <- H3, Hfresh; by intros []).
  split; simpl; try done.
  - apply NoDup_app. split_and!; [done| |apply NoDup_singleton]. by intros x Hx ->%list_elem_of_singleton.
  - rewrite elem_of_app, list_elem_of_singleton. intros [?|?]; [done|congruence].
  - intros p. rewrite lookup_insert_is_Some', elem_of_app, list_elem_of_singleton, H3.
    split; [intros [?|?]; [by right|by left]|intros [?|?]; [by right|by left]].
  - rewrite length_app, H4. simpl. unfold s32. rewrite Z.mod_small by lia.
    destruct (Z.ltb_spec (Z.of_nat (length (g_cmd_monitor_list s)) + 1) (2 ^ 31)); lia.
  - rewrite length_app. simpl. lia.
  - intros p q n n'. destruct (decide (kz = p)) as [<-|], (decide (kz = q)) as [<-|];
      rewrite ?lookup_insert_eq, ?lookup_insert_ne by done; try done.
    + intros [= <-] Hn E. destruct (Hnone q n' Hn). congruence.
    + intros Hn [= <-] E. destruct (Hnone p n Hn). congruence.
    + intros Hn Hn' E. by eapply H6.
  - intros th item. destruct (decide ((pid, tid) = th)) as [<-|Hne].
    + rewrite lookup_insert_eq. intros [= <-] _. exists m. by rewrite lookup_insert_eq.
    + rewrite lookup_insert_ne by done. intros Hth Hi. destruct (H7 th item Hth Hi) as (n & Hn & ? & ?).
      exists n. rewrite lookup_insert_ne; [done|]. intros <-. by rewrite Hfresh in Hn.
  - intros p n. destruct (decide (kz = p)) as [<-|Hne].
    + rewrite lookup_insert_eq. intros [= <-] _. by rewrite Ht, lookup_insert_eq.
    + rewrite lookup_insert_ne by done. intros Hn E. rewrite lookup_insert_ne; [by apply H8|].
      intros Heq. by destruct (Hnone p n Hn).
Qed.

Lemma log_inv s running now kz pid tid cmd :
  mon_inv s running → running !! (pid, tid) = None →
  (zero_or_null_ptr kz = false → mon_heap s !! kz = None) →
  Z.of_nat (length (g_cmd_monitor_list s)) < 2 ^ 31 - 1 →
  ∃ s' item, cmd_monitor_log s now kz pid tid cmd = Ret (s', item) ∧
    mon_inv s' (<[(pid, tid) := item]> running) ∧
    (tick_inv_at s None → tick_inv_at s' None).
Proof.
  intros HI Hr Hf Hlen. unfold cmd_monitor_log.
  destruct (find_item_cases s running pid tid HI) as [[-> Hn]|(p & m & -> & Hp & Hin & Hm & Ht)];
    rewrite ret_bind.
  2:{ rewrite (proj2 (Z.eqb_neq p 0)) by done. cbn [negb].
      rewrite (proj2 (at_index_Some _ _ _) Hm), ret_bind. eexists _, p. split; [done|]. split; [|done].
      eapply mon_set_inv; [done|done|done|..]; rewrite Ht.
      - intros th Hth. by rewrite lookup_insert_ne.
      - rewrite lookup_insert_eq. by intros q [= <-].
      - by rewrite lookup_insert_eq. }
  rewrite Z.eqb_refl. cbn [negb]. unfold init_monitor_locked.
  destruct (zero_or_null_ptr kz) eqn:Hz.
  { rewrite Z.eqb_refl. eexists _, 0. split; [done|]. split; [|done]. destruct HI as [H1 H2 H3 H4 H5 H6 H7 H8].
    split; try done.
    - intros th item Hth Hi. apply H7; [|done]. rewrite lookup_insert_ne in Hth; [done|].
      intros <-. rewrite lookup_insert_eq in Hth. congruence.
    - intros p m Hm E. rewrite lookup_insert_ne; [by apply H8|]. intros Heq. by destruct (Hn p m Hm). }
  assert (kz ≠ 0) as Hkz by (intros ->; done).
  rewrite (proj2 (Z.eqb_neq kz 0)) by done. unfold at_index. cbn [mon_with_items mon_heap].
  rewrite lookup_insert_eq, ret_bind. eexists _, kz. split; [done|].
  set (m2 := set_lastcmd _ _).
  pose proof (mon_add_inv s running kz m2 pid tid HI Hkz (Hf eq_refl) eq_refl Hn eq_refl Hlen) as HA.
  split.
  - eapply mon_same_inv; [exact HA|..]; [|by destruct (_ =? 1)..].
    destruct (_ =? 1); simpl; by rewrite insert_insert_eq.
  - intros HQ _. cbn [mon_set mon_with_items g_cmd_monitor_list_size tick_queued].
    destruct (_ =? 1) eqn:E1; [done|]. cbn [mon_set mon_with_items tick_queued].
    apply HQ. intros E. rewrite (mi_size _ _ HI), E in E1. done.
Qed.

(** A thread that leaves [cmd_monitor_logend] with no item. *)
Lemma mon_leave_inv s running th :
  mon_inv s running → running !! th = Some 0 → mon_inv s (delete th running).
Proof.
  intros HI Hr. destruct HI as [H1 H2 H3 H4 H5 H6 H7 H8]. split; try done.
  - intros t i Ht. apply H7. by apply lookup_delete_Some in Ht as [_ ?].
  - intros p m Hm E. pose proof (H8 p m Hm E) as Hp. rewrite lookup_delete_ne; [done|].
    intros ->. rewrite Hr in Hp. injection Hp as <-. apply H2, H3. eauto.
Qed.

(** A step of a running thread on its own item that is not the last. *)
Lemma mon_own_inv s running th item m m' :
  mon_inv s running → running !! th = Some item → item ≠ 0 → mon_heap s !! item = Some m →
  thread_of m' = thread_of m → returned m' = returned m → mon_inv (mon_set s item m') running.
Proof.
  intros HI Hr Hi Hm Ht Hret. destruct (mi_running _ _ HI th item Hr Hi) as (n & Hn & <- & Hf).
  rewrite Hm in Hn. injection Hn as <-. eapply mon_set_inv; [done|done|done|done| |].
  - intros q Hq _. rewrite Hr in Hq. injection Hq as <-. by rewrite Hret.
  - done.
Qed.

(** An access past the test for NULL is made with an item. *)
Definition past_null (item : Z) (at_ : logend_at) : Prop := at_ = LeCall ∨ item ≠ 0.

Lemma logend_access_inv s running now th item at_ :
  mon_inv s (items running) → running !! th = Some (item, at_) → past_null item at_ →
  ∃ s' next, logend_access s now item at_ = Ret (s', next) ∧
    g_cmd_monitor_list s' = g_cmd_monitor_list s ∧ tick_queued s' = tick_queued s ∧
    match next with
    | Some at' => mon_inv s' (items running) ∧ item ≠ 0
    | None => mon_inv s' (delete th (items running))
    end.
Proof.
  intros HI Hr Hp. assert (items running !! th = Some item) as Hr'
    by (unfold items; by rewrite lookup_fmap, Hr).
  destruct (decide (item = 0)) as [->|Hi].
  { destruct Hp as [->|?]; [|done]. eexists _, None. split; [reflexivity|].
    split_and!; [done..|by apply mon_leave_inv]. }
  destruct (mi_running _ _ HI th item Hr' Hi) as (m & Hm & Ht & Hf).
  destruct at_; cbn [logend_access]; rewrite ?(proj2 (at_index_Some _ _ _) Hm), ?ret_bind;
    eexists _, _; (split; [reflexivity|]); split_and!; try done.
  - rewrite (proj2 (Z.eqb_neq item 0)) by done. done.
  - by eapply mon_own_inv.
  - eapply mon_set_inv; [done|done|done|..]; rewrite Ht.
    + intros t ?. by rewrite lookup_delete_ne.
    + by rewrite lookup_delete_eq.
    + done.
Qed.

Lemma reset_inv s running now pid tid :
  mon_inv s running →
  ∃ s', cmd_monitor_reset_context s now pid tid = Ret s' ∧ mon_inv s' running ∧
    g_cmd_monitor_list s' = g_cmd_monitor_list s ∧ tick_queued s' = tick_queued s.
Proof.
  intros HI. unfold cmd_monitor_reset_context.
  destruct (find_item_cases s running pid tid HI) as [[-> _]|(p & m & -> & Hp & _ & Hm & Ht)];
    rewrite ret_bind; [by exists s|].
  rewrite (proj2 (Z.eqb_neq p 0)) by done. rewrite (proj2 (at_index_Some _ _ _) Hm), ret_bind.
  eexists. split; [done|]. split; [|done]. eapply mon_set_inv; [done|done|done|done| |].
  - intros q Hq Hq0. destruct (mi_running _ _ HI _ q Hq Hq0) as (n & Hn & Hnt & Hnr).
    assert (q = p) as -> by by eapply (mi_thread _ _ HI). rewrite Hm in Hn. by injection Hn as <-.
  - simpl. by apply (mi_unreturned _ _ HI).
Qed.

(** ** The tick *)

(** A command that still runs, after a tick: reported when its time is up. *)
Definition after_tick (now : time_spec) (m : cmd_monitor) : cmd_monitor :=
  CmdMonitor (sendtime m) (cm_count m) (returned m)
    (is_reported m || (CMD_MAX_EXECUTE_TIME * S_TO_MS <? timedif_ms now (sendtime m)))
    (cm_pid m) (cm_tid m) (pname m) (tname m) (lastcmdid m) (timetotal m) (agent_call_count m).

Lemma show_timeout_ok s now p m :
  mon_heap s !! p = Some m →
  ∃ s', show_timeout_cmd_info s now p = Ret s' ∧
    mon_heap s' = <[p := after_tick now m]> (mon_heap s) ∧
    g_cmd_monitor_list s' = g_cmd_monitor_list s ∧
    g_cmd_monitor_list_size s' = g_cmd_monitor_list_size s ∧ tick_queued s' = tick_queued s.
Proof.
  intros Hm. unfold show_timeout_cmd_info. rewrite (proj2 (at_index_Some _ _ _) Hm), ret_bind.
  assert (after_tick now m = m ∨ (CMD_MAX_EXECUTE_TIME * S_TO_MS <? timedif_ms now (sendtime m))
            && negb (is_reported m) = true) as Hc.
  { unfold after_tick. destruct m as [t c r b]; simpl. destruct (_ <? _), b; simpl; auto. }
  destruct (_ && negb _) eqn:E.
  - eexists. split; [done|]. simpl. split_and!; try done. f_equal. unfold after_tick.
    apply andb_true_iff in E as [-> E]. by rewrite orb_true_r.
  - destruct Hc as [Hc|Hc]; [|done]. exists s. rewrite Hc, insert_id by done. done.
Qed.

(** What a tick leaves of an item. *)
Definition ticked (now : time_spec) (o : option cmd_monitor) : option cmd_monitor :=
  match o with
  | Some m => if returned m then None else Some (after_tick now m)
  | None => None
  end.

(** The items a tick leaves on the list. *)
Definition still (s : mon_state) (p : Z) : bool :=
  match mon_heap s !! p with Some m => negb (returned m) | None => false end.

Definition kept (s : mon_state) (l : list Z) : list Z := filter (λ p, still s p = true) l.

Lemma unlink_head l1 p l : NoDup (l1 ++ p :: l) → unlink p (l1 ++ p :: l) = Ret (l1 ++ l).
Proof.
  intros Hn. unfold unlink. rewrite decide_True by (apply elem_of_app; right; left).
  apply NoDup_app in Hn as (Hn1 & Hd & [Hp Hn]%NoDup_cons).
  rewrite filter_app, filter_cons_False by (intros H; by apply H).
  rewrite !filter_ne_id; [done|done|]. intros Hx. apply (Hd p Hx). left.
Qed.

Lemma kept_ext s s' l : (∀ p, p ∈ l → mon_heap s' !! p = mon_heap s !! p) → kept s' l = kept s l.
Proof.
  induction l as [|p l IH]; intros H; [done|]. unfold kept. rewrite !filter_cons.
  fold (kept s' l) (kept s l). rewrite IH by (intros; apply H; by right).
  assert (still s' p = still s p) as -> by (unfold still; rewrite (H p) by left; done). done.
Qed.

Lemma tick_loop_ok now l l1 s :
  g_cmd_monitor_list s = l1 ++ l → NoDup (l1 ++ l) →
  (∀ p, p ∈ l → is_Some (mon_heap s !! p)) →
  g_cmd_monitor_list_size s = Z.of_nat (length (l1 ++ l)) → Z.of_nat (length (l1 ++ l)) < 2 ^ 31 →
  ∃ s', tick_loop s now l = Ret s' ∧ tick_queued s' = tick_queued s ∧
    g_cmd_monitor_list s' = l1 ++ kept s l ∧
    g_cmd_monitor_list_size s' = Z.of_nat (length (l1 ++ kept s l)) ∧
    ∀ p, mon_heap s' !! p = if decide (p ∈ l) then ticked now (mon_heap s !! p) else mon_heap s !! p.
Proof.
  revert l1 s. induction l as [|p l IH]; intros l1 s El Hn Hh Es Hlen.
  { exists s. by rewrite El. }
  destruct (Hh p) as [m Hm]; [left|]. cbn [tick_loop]. unfold kept. rewrite filter_cons.
  assert (still s p = negb (returned m)) as Hst by (unfold still; by rewrite Hm).
  unfold tick_item. rewrite (proj2 (at_index_Some _ _ _) Hm), ret_bind.
  pose proof Hn as (_ & Hd & [Hp Hn2]%NoDup_cons)%NoDup_app.
  assert (∀ q, q ∈ l → q ≠ p) as Hne by (intros q Hq ->; done).
  destruct (returned m) eqn:E.
  - rewrite decide_False by (rewrite Hst; done). rewrite El, (unlink_head l1 p l Hn), !ret_bind.
    set (s1 := mon_with_items _ _ _ _).
    assert (∀ q, q ∈ l → mon_heap s1 !! q = mon_heap s !! q) as Hq1.
    { intros q Hq. simpl. apply lookup_delete_ne. by apply not_eq_sym, Hne. }
    rewrite length_app in Es, Hlen. simpl in Es, Hlen.
    destruct (IH l1 s1) as (s' & -> & Eq & El' & Es' & Hh'); [done|..].
    + apply NoDup_app in Hn as (? & ? & _). apply NoDup_app. split_and!; [done| |done].
      intros x Hx ?. eapply Hd; [done|]. by right.
    + intros q Hq. rewrite Hq1 by done. apply Hh. by right.
    + simpl. rewrite Es, length_app. unfold s32. rewrite Z.mod_small by lia.
      destruct (Z.ltb_spec (Z.of_nat (length l1 + S (length l)) - 1) (2 ^ 31)); lia.
    + rewrite length_app. lia.
    + exists s'. rewrite (kept_ext s s1 l Hq1) in El', Es'. unfold kept in El', Es'.
      split_and!; try done. intros q. rewrite Hh'. simpl. destruct (decide (p = q)) as [<-|Hpq].
      * rewrite lookup_delete_eq, (decide_True (P := p ∈ p :: l)) by left.
        rewrite Hm. simpl. rewrite E. by case_decide.
      * rewrite lookup_delete_ne by done.
        destruct (decide (q ∈ l)), (decide (q ∈ p :: l)) as [Hq|Hq]; try done; set_solver.
  - rewrite decide_True by (rewrite Hst; done).
    destruct (show_timeout_ok s now p m Hm) as (s1 & -> & Hh1 & El1 & Es1 & Eq1). rewrite ret_bind.
    assert (∀ q, q ∈ l → mon_heap s1 !! q = mon_heap s !! q) as Hq1.
    { intros q Hq. rewrite Hh1. apply lookup_insert_ne. by apply not_eq_sym, Hne. }
    destruct (IH (l1 ++ [p]) s1) as (s' & -> & Eq & El' & Es' & Hh').
    + by rewrite El1, El, <- app_assoc.
    + by rewrite <- app_assoc.
    + intros q Hq. rewrite Hq1 by done. apply Hh. by right.
    + by rewrite Es1, Es, <- app_assoc.
    + by rewrite <- app_assoc.
    + exists s'. rewrite <- app_assoc in El', Es'.
      rewrite (kept_ext s s1 l Hq1) in El', Es'. unfold kept in El', Es'.
      split_and!; try done; [congruence|]. intros q. rewrite Hh', Hh1.
      destruct (decide (p = q)) as [<-|Hpq].
      * rewrite lookup_insert_eq, (decide_True (P := p ∈ p :: l)) by left.
        rewrite Hm. simpl. rewrite E. by rewrite decide_False.
      * rewrite lookup_insert_ne by done.
        destruct (decide (q ∈ l)), (decide (q ∈ p :: l)) as [Hq|Hq]; try done; set_solver.
Qed.

Lemma tick_inv s running now :
  mon_inv s running →
  ∃ s', cmd_monitor_tickfn s now = Ret s' ∧ mon_inv s' running ∧
    g_cmd_monitor_list s' = kept s (g_cmd_monitor_list s) ∧
    (∀ p, mon_heap s' !! p = ticked now (mon_heap s !! p)) ∧
    (tick_queued s' = true ↔ g_cmd_monitor_list s' ≠ []).
Proof.
  intros HI. destruct HI as [H1 H2 H3 H4 H5 H6 H7 H8]. unfold cmd_monitor_tickfn, cmd_monitor_tick.
  set (s0 := tick_dequeued s).
  destruct (tick_loop_ok now (g_cmd_monitor_list s) [] s0) as (s1 & E & Eq & El & Es & Hh); try done.
  { intros p Hp. by apply H3. }
  cbn [app] in *. change (kept s0 (g_cmd_monitor_list s)) with (kept s (g_cmd_monitor_list s)) in *.
  change (g_cmd_monitor_list s0) with (g_cmd_monitor_list s). rewrite E, ret_bind.
  set (s2 := tick_again s1).
  assert (mon_heap s2 = mon_heap s1 ∧ g_cmd_monitor_list s2 = g_cmd_monitor_list s1 ∧
    g_cmd_monitor_list_size s2 = g_cmd_monitor_list_size s1) as (E1 & E2 & E3)
    by (unfold s2, tick_again; by destruct (_ <? _)).
  assert (∀ p, mon_heap s1 !! p = ticked now (mon_heap s !! p)) as Ht.
  { intros p. rewrite Hh. case_decide as Hp; [done|]. simpl.
    destruct (mon_heap s !! p) as [m|] eqn:Hm; [|done]. destruct Hp. apply H3. eauto. }
  assert (tick_queued s2 = true ↔ g_cmd_monitor_list s2 ≠ []) as Hq.
  { rewrite E2, El. unfold s2, tick_again. rewrite Es. destruct (kept s (g_cmd_monitor_list s)) as [|q l]; simpl.
    - rewrite Eq. simpl. split; done.
    - split; done. }
  assert (∀ p m', mon_heap s1 !! p = Some m' →
    ∃ m, mon_heap s !! p = Some m ∧ returned m = false ∧ m' = after_tick now m) as Hb.
  { intros p m'. rewrite Ht. destruct (mon_heap s !! p) as [m|]; simpl; [|done].
    destruct (returned m) eqn:Er; [done|]. intros [= <-]. by exists m. }
  exists s2. split; [done|]. split; [|rewrite E1, ?E2; split_and!; try done; by rewrite <- E2].
  split; rewrite ?E1, ?E2, ?E3, ?El; try done.
  - by apply NoDup_filter.
  - intros [_ ?]%list_elem_of_filter. done.
  - intros p. unfold kept. rewrite list_elem_of_filter, <- H3, Ht. unfold still.
    destruct (mon_heap s !! p) as [m|]; simpl.
    + destruct (returned m); simpl; split; by intros [].
    + split; [by intros []|by intros [? []]].
  - pose proof (length_filter (λ p, still s p = true) (g_cmd_monitor_list s)) as Hf. unfold kept. lia.
  - intros p q m m' (n & Hn & _ & ->)%Hb (n' & Hn' & _ & ->)%Hb Heq. by eapply H6.
  - intros th item Hr Hi. destruct (H7 th item Hr Hi) as (m & Hm & Hth & Hret).
    exists (after_tick now m). rewrite Ht, Hm. simpl. by rewrite Hret.
  - intros p m' (m & Hm & Hr & ->)%Hb _. by apply (H8 p m).
Qed.

(** The tick frees the item of a command that has returned. *)
Lemma mon_del_inv s running p m l1 l :
  mon_inv s running → g_cmd_monitor_list s = l1 ++ p :: l → mon_heap s !! p = Some m →
  returned m = true →
  mon_inv (mon_with_items s (delete p (mon_heap s)) (l1 ++ l) (s32 (g_cmd_monitor_list_size s - 1)))
    running.
Proof.
  intros [H1 H2 H3 H4 H5 H6 H7 H8] El Hm Hret. rewrite El in H1, H2, H4, H5.
  assert ((p ∉ l1 ++ l) ∧ NoDup (l1 ++ l)) as [Hp Hn].
  { rewrite <- Permutation_middle in H1. by apply NoDup_cons in H1. }
  split; simpl; try done.
  - set_solver.
  - intros q. destruct (decide (p = q)) as [<-|Hpq].
    + rewrite lookup_delete_eq. split; [by intros []|done].
    + rewrite lookup_delete_ne, H3, El by done. set_solver.
  - rewrite H4, !length_app in *. simpl in *. unfold s32. rewrite Z.mod_small by lia.
    destruct (Z.ltb_spec (Z.of_nat (length l1 + S (length l)) - 1) (2 ^ 31)); lia.
  - rewrite !length_app in *. simpl in *. lia.
  - intros q r n n' [_ ?]%lookup_delete_Some [_ ?]%lookup_delete_Some. by apply H6.
  - intros th item Hth Hi. destruct (H7 th item Hth Hi) as (n & Hn' & ? & ?). exists n.
    rewrite lookup_delete_ne by (intros ->; simplify_eq; congruence). done.
  - intros q n [_ ?]%lookup_delete_Some. by apply H8.
Qed.

Lemma tick_item_inv s running now p l1 l :
  mon_inv s running → g_cmd_monitor_list s = l1 ++ p :: l →
  ∃ s', tick_item s now p = Ret s' ∧ mon_inv s' running ∧ tick_inv_at s' (Some l).
Proof.
  intros HI El. destruct (proj2 (mi_heap _ _ HI p)) as [m Hm]; [rewrite El; set_solver|].
  unfold tick_item. rewrite (proj2 (at_index_Some _ _ _) Hm), ret_bind.
  destruct (returned m) eqn:E.
  - pose proof (mi_nodup _ _ HI) as Hn. rewrite El in Hn. rewrite El, (unlink_head l1 p l Hn), ret_bind.
    eexists. split; [done|]. split; [by eapply mon_del_inv|]. by exists l1.
  - destruct (show_timeout_ok s now p m Hm) as (s1 & E1 & Hh & El1 & Es1 & _).
    exists s1. split; [done|]. split.
    + eapply (mon_same_inv (mon_set s p (after_tick now m))); [|done..].
      eapply mon_own_inv; try done; [by eapply mi_unreturned|].
      intros ->. by destruct (mi_null _ _ HI (proj1 (mi_heap _ _ HI 0) (ex_intro _ m Hm))).
    + exists (l1 ++ [p]). by rewrite El1, El, <- app_assoc.
Qed.

Definition minv (x : mstate) : Prop :=
  mon_inv x.1.1 (items x.1.2) ∧ tick_inv_at x.1.1 x.2 ∧
  map_Forall (λ _ r, past_null r.1 r.2) x.1.2.

Lemma tick_at_same s s' tk :
  g_cmd_monitor_list s' = g_cmd_monitor_list s → tick_queued s' = tick_queued s →
  tick_inv_at s tk → tick_inv_at s' tk.
Proof. unfold tick_inv_at. by intros -> ->. Qed.

Lemma mon_step_inv x y : mon_step x y → minv x → minv y.
Proof.
  intros Hst (HI & HQ & HP). destruct Hst as [s0 r now kz pid tid cmd s1 item Hr Hf Hl E
    |s0 r tk now th item a s1 next Hr E|s0 r now pid tid s1 E|s0 r Hq|s0 r now p l s1 E|s0 r|s0 r tk Hq
    |s0 r tk f Hin]; unfold minv; cbn [fst snd] in *.
  - destruct (log_inv s0 (items r) now kz pid tid cmd HI) as (s' & i & E' & HI' & HQ'); [|done..|].
    { unfold items. by rewrite lookup_fmap, Hr. }
    rewrite E in E'. injection E' as <- <-. split_and!; [|by apply HQ'|].
    + unfold items. by rewrite fmap_insert.
    + apply map_Forall_insert_2; [by left|done].
  - destruct (logend_access_inv s0 r now th item a HI Hr) as (s' & n & E' & El & Et & H);
      [by apply (HP th (item, a))|]. rewrite E in E'. injection E' as <- <-.
    split; [|split; [by eapply tick_at_same|]].
    + destruct next as [a'|]; unfold items in *; [|by rewrite fmap_delete].
      rewrite fmap_insert, insert_id; [by destruct H|]. by rewrite lookup_fmap, Hr.
    + destruct next as [a'|].
      * apply map_Forall_insert_2; [right; by destruct H|done].
      * by apply map_Forall_delete.
  - destruct (reset_inv s0 (items r) now pid tid HI) as (s' & E' & HI' & ? & ?).
    rewrite E in E'. injection E' as <-. split_and!; [done|by eapply tick_at_same|done].
  - split_and!; [by eapply mon_same_inv|by exists []|done].
  - destruct HQ as [l1 El]. destruct (tick_item_inv s0 (items r) now p l1 l HI El) as (s' & E' & ? & ?).
    rewrite E in E'. injection E' as <-. done.
  - split_and!; [|simpl|done].
    + eapply mon_same_inv; [exact HI|..]; unfold tick_again; by destruct (_ <? _).
    + unfold tick_again. rewrite (mi_size _ _ HI). 
      by destruct (g_cmd_monitor_list s0) eqn:El; simpl; [rewrite El|].
  - split_and!; [by eapply mon_same_inv|by eapply tick_at_same|done].
  - rewrite !elem_of_cons, elem_of_nil in Hin.
    destruct Hin as [->|[->|[->|[->|[->|[]]]]]];
      (split_and!; [eapply mon_same_inv; [exact HI|..]|eapply tick_at_same; [| |exact HQ]|done]); try done;
      unfold do_cmd_need_archivelog; by destruct (_ =? 1).
Qed.

Lemma mreach_inv x : mreach x → minv x.
Proof.
  apply (rtc_ind_r minv mon_start).
  - split_and!; [|by intros []|apply map_Forall_empty]. unfold items. simpl. rewrite fmap_empty.
    split; simpl; try done; [constructor|apply not_elem_of_nil|].
    intros p. rewrite lookup_empty. split; [by intros []|by intros ?%elem_of_nil].
  - intros y z _ Hst. by apply mon_step_inv.
Qed.

(** The accesses in a row: the time since the command was sent is added to the
    total and the item is marked as returned. *)
Lemma logend_alone s now item m :
  item ≠ 0 → mon_heap s !! item = Some m →
  cmd_monitor_logend s now item =
    Ret (mon_set s item (set_returned (set_timetotal m (timetotal m + timedif_us now (sendtime m))))).
Proof.
  intros Hi Hm. unfold cmd_monitor_logend.
  repeat (cbn [logend_run logend_access];
          rewrite ?(proj2 (Z.eqb_neq item 0) Hi), ?(proj2 (at_index_Some _ _ _) Hm), ?ret_bind).
  set (m1 := set_timetotal m _).
  rewrite (proj2 (at_index_Some (mon_heap (mon_set s item m1)) item m1)) by apply lookup_insert_eq.
  rewrite !ret_bind. unfold mon_set, mon_with_items. simpl. rewrite insert_insert_eq.
  unfold m1. by destruct (sendtime m).
Qed.

(** The items a tick keeps are those of the running threads. *)
Lemma kept_running s running p :
  mon_inv s running →
  p ∈ kept s (g_cmd_monitor_list s) ↔ p ≠ 0 ∧ ∃ th, running !! th = Some p.
Proof.
  intros HI. unfold kept, still. rewrite list_elem_of_filter. split.
  - intros [Hs Hp]. split; [intros ->; by apply (mi_null _ _ HI)|].
    destruct (mon_heap s !! p) as [m|] eqn:Hm; [|done]. exists (thread_of m).
    apply (mi_unreturned _ _ HI p m Hm). by destruct (returned m).
  - intros [Hp [th Hth]]. destruct (mi_running _ _ HI th p Hth Hp) as (m & Hm & _ & Hret).
    rewrite Hm, Hret. split; [done|]. apply (mi_heap _ _ HI). eauto.
Qed.

(** Starting a command never uses a freed item. *)
Lemma log_ok s running now kz pid tid cmd :
  mon_inv s running → ∃ r, cmd_monitor_log s now kz pid tid cmd = Ret r.
Proof.
  intros HI. unfold cmd_monitor_log.
  destruct (find_item_cases s running pid tid HI) as [[-> Hn]|(p & m & -> & Hp & Hin & Hm & Ht)];
    rewrite ret_bind.
  - rewrite Z.eqb_refl. cbn [negb]. unfold init_monitor_locked.
    destruct (zero_or_null_ptr kz) eqn:Hz; [rewrite Z.eqb_refl; by eexists|].
    rewrite (proj2 (Z.eqb_neq kz 0)) by (intros ->; done). unfold at_index. cbn [mon_with_items mon_heap].
    rewrite lookup_insert_eq, ret_bind. by eexists.
  - rewrite (proj2 (Z.eqb_neq p 0)) by done. cbn [negb].
    rewrite (proj2 (at_index_Some _ _ _) Hm), ret_bind. by eexists.
Qed.

(** C27. The monitor is safe and complete under every interleaving of threads
    that start and finish commands, agents and ticks, where a thread that
    finishes makes its accesses to its item one by one and without the mutex,
    and a tick visits one item at a time: no such access, no visit and no
    operation under the mutex uses an item that has been freed, the counter is
    the length of the list, and a non-empty list always has a tick queued or
    under way.  A tick that nobody interrupts leaves exactly the items of the
    threads that have not marked theirs as returned.  (A thread sends one
    command at a time, the allocator returns memory that is not in use, and the
    list stays shorter than [2^31 - 1] items.) *)
Theorem monitor_safe s running tk :
  mreach (s, running, tk) →
  g_cmd_monitor_list_size s = Z.of_nat (length (g_cmd_monitor_list s)) ∧
  (g_cmd_monitor_list s ≠ [] → tick_queued s = true ∨ tk ≠ None) ∧
  (∀ th item at_ now, running !! th = Some (item, at_) →
     ∃ r, logend_access s now item at_ = Ret r) ∧
  (∀ p l now, tk = Some (p :: l) → ∃ s', tick_item s now p = Ret s') ∧
  (∀ pid tid now, ∃ s', cmd_monitor_reset_context s now pid tid = Ret s') ∧
  (∀ pid tid now kz cmd, ∃ r, cmd_monitor_log s now kz pid tid cmd = Ret r) ∧
  (∀ now, ∃ s', cmd_monitor_tickfn s now = Ret s' ∧
     ∀ p, p ∈ g_cmd_monitor_list s' ↔ p ≠ 0 ∧ ∃ th at_, running !! th = Some (p, at_)).
Proof.
  intros Hr. destruct (mreach_inv _ Hr) as (HI & HQ & HP). simpl in *. split_and!.
  - apply HI.
  - destruct tk; [by right|]. left. by apply HQ.
  - intros th item at_ now Hth. destruct (logend_access_inv s running now th item at_ HI Hth)
      as (s' & n & E & _); [by apply (HP th (item, at_))|eauto].
  - intros p l now ->. destruct HQ as [l1 El]. destruct (tick_item_inv s _ now p l1 l HI El)
      as (s' & E & _). eauto.
  - intros pid tid now. destruct (reset_inv s _ now pid tid HI) as (s' & E & _). eauto.
  - intros. by eapply log_ok.
  - intros now. destruct (tick_inv s _ now HI) as (s' & E & _ & El & _). exists s'.
    split; [done|]. intros p. rewrite El, (kept_running s (items running) p HI). unfold items.
    split; (intros [Hp H]; split; [done|]).
    + destruct H as [th H]. rewrite lookup_fmap in H.
      destruct (running !! th) as [[q a]|] eqn:Hth; [|done]. injection H as ->. eauto.
    + destruct H as (th & a & Hth). exists th. by rewrite lookup_fmap, Hth.
Qed.

Lemma reported_found s running tid item m :
  mon_inv s running → mon_heap s !! item = Some m → u32 (cm_tid m) = tid →
  (∀ p n, mon_heap s !! p = Some n → u32 (cm_tid n) = tid → p = item) →
  is_thread_reported s tid = Ret (is_reported m || (MAX_AGENT_CALL_COUNT <? agent_call_count m)).
Proof.
  intros HI Hm Ht Hu. unfold is_thread_reported.
  assert (item ∈ g_cmd_monitor_list s) as Hin by (apply (mi_heap _ _ HI); eauto).
  assert (∀ p, p ∈ g_cmd_monitor_list s → is_Some (mon_heap s !! p)) as Hh by apply (mi_heap _ _ HI).
  induction (g_cmd_monitor_list s) as [|p l IH]; [by apply elem_of_nil in Hin|].
  destruct (Hh p) as [n Hn]; [left|]. cbn [reported_loop].
  rewrite (proj2 (at_index_Some _ _ _) Hn), ret_bind.
  destruct (Z.eqb_spec (u32 (cm_tid n)) tid) as [E|E].
  - rewrite (Hu p n Hn E) in Hn. rewrite Hm in Hn. by injection Hn as <-.
  - apply elem_of_cons in Hin as [->|Hin]; [by simplify_eq|].
    apply IH; [done|]. intros q Hq. apply Hh. by right.
Qed.

(** When a thread counts as reported: after a tick, a thread whose command runs
    is reported exactly when it was reported before, when more than 25 seconds
    have passed since it sent the command or its agent last answered, or when
    the agent has been called more than 250 times.  (No other item may carry
    the same thread id.) *)
Theorem monitor_reports s running pid tid item at_ m now :
  mreach (s, running, None) → running !! (pid, tid) = Some (item, at_) → mon_heap s !! item = Some m → item ≠ 0 →
  (∀ p n, mon_heap s !! p = Some n → u32 (cm_tid n) = u32 tid → p = item) →
  ∃ s', cmd_monitor_tickfn s now = Ret s' ∧
    is_thread_reported s' (u32 tid) = Ret
      (is_reported m || (CMD_MAX_EXECUTE_TIME * S_TO_MS <? timedif_ms now (sendtime m))
       || (MAX_AGENT_CALL_COUNT <? agent_call_count m)).
Proof.
  intros Hr Hth Hm Hi Hu. destruct (mreach_inv _ Hr) as (HI & _). simpl in HI.
  assert (items running !! (pid, tid) = Some item) as Hth'
    by (unfold items; by rewrite lookup_fmap, Hth).
  destruct (mi_running _ _ HI _ _ Hth' Hi) as (m0 & Hm0 & Ht & Hret). rewrite Hm in Hm0.
  injection Hm0 as <-. destruct (tick_inv s _ now HI) as (s' & E & HI' & _ & Hh & _).
  exists s'. split; [done|]. injection Ht as Hpid Htid.
  rewrite (reported_found s' (items running) (u32 tid) item (after_tick now m) HI').
  - done.
  - rewrite Hh, Hm. simpl. by rewrite Hret.
  - simpl. by rewrite Htid.
  - intros p n. rewrite Hh. destruct (mon_heap s !! p) as [n0|] eqn:Hn; simpl; [|done].
    destruct (returned n0); [done|]. intros [= <-] Ht. by apply (Hu p n0).
Qed.

End Steps.

(** ** Witnesses *)

Definition demo_names : TaskNames := {| task_comm _ := Some [99; 97] |}.

Abbreviation demo_state := (mon_state * gmap (Z * Z) (Z * logend_at) * option (list Z))%type.

Definition demo_started : demo_state :=
  match cmd_monitor_log (TN := demo_names) (SS := bounds_str) mon_start.1.1 (TimeSpec 100 0) 4096 7 8
          zero_smc_cmd with
  | Ret (s, item) => (s, <[(7, 8) := (item, LeCall)]> ∅, None)
  | Fault => mon_start
  end.

Lemma demo_started_reach : mreach (TN := demo_names) (SS := bounds_str) demo_started.
Proof.
  apply rtc_once. apply (mon_log _ _ (TimeSpec 100 0) 4096 7 8 zero_smc_cmd); try done.
  all: vm_compute; reflexivity.
Qed.

(** The thread is about to read its item when the tick has the list to visit. *)
Definition demo_ending : demo_state :=
  (tick_dequeued demo_started.1.1, {[(7, 8) := (4096, LeSec (TimeSpec 101 0))]}, Some [4096]).

Lemma demo_ending_reach : mreach (TN := demo_names) (SS := bounds_str) demo_ending.
Proof.
  eapply rtc_r; [eapply rtc_r; [exact demo_started_reach|]|].
  - apply (mon_logend _ _ _ (TimeSpec 101 0) (7, 8) 4096 LeCall); vm_compute; reflexivity.
  - apply (mon_tick_start demo_started.1.1). vm_compute. reflexivity.
Qed.

Lemma monitor_safe_witness :
  (∃ r, logend_access demo_ending.1.1 (TimeSpec 101 0) 4096 (LeSec (TimeSpec 101 0)) = Ret r) ∧
  ∃ s', tick_item demo_ending.1.1 (TimeSpec 101 0) 4096 = Ret s'.
Proof.
  destruct (monitor_safe (TN := demo_names) (SS := bounds_str) demo_ending.1.1 demo_ending.1.2
    demo_ending.2) as (_ & _ & H & H' & _).
  - exact demo_ending_reach.
  - split; [apply (H (7, 8)); vm_compute; reflexivity|]. by apply (H' 4096 []).
Defined.

Lemma monitor_reports_witness :
  ∃ s', cmd_monitor_tickfn demo_started.1.1 (TimeSpec 126 0) = Ret s' ∧
    is_thread_reported s' 8 = Ret true.
Proof.
  apply (monitor_reports (TN := demo_names) (SS := bounds_str) demo_started.1.1 demo_started.1.2 7 8 4096 LeCall
    (CmdMonitor (TimeSpec 100 0) 1 false false 7 8 ([99; 97] ++ replicate 14 0)
       ([99; 97] ++ replicate 14 0) 0 0 0)).
  - exact demo_started_reach.
  - reflexivity.
  - vm_compute. reflexivity.
  - discriminate.
  - intros p n Hp _. assert (mon_heap demo_started.1.1 =
      {[4096 := CmdMonitor (TimeSpec 100 0) 1 false false 7 8 ([99; 97] ++ replicate 14 0)
       ([99; 97] ++ replicate 14 0) 0 0 0]}) as E by (vm_compute; reflexivity).
    rewrite E in Hp. by apply lookup_singleton_Some in Hp as [-> _].
Defined.
