(* ===== verification/Teek.v ===== *)
(** * The client API for kernel code (core/teek_client_api.c,
    core/teek_app_load.c)

    A client inside the kernel opens a context, sessions in it, and invokes
    commands.  Its structures ([struct teec_context], [teec_session],
    [teec_operation], [teec_sharedmemory]) are the client's own memory: they
    are read and written at their offsets in byte memory, on a 64-bit kernel.
    An image file the API reads lives in a [vmalloc] block; [vm] is the set of
    blocks that are allocated, and freeing another address is [Fault]. *)

From stdpp Require Import base gmap list.
From Stdlib Require Import ZArith Lia.
From S2P Require Import Prelude KernelApi TeeTypes Buffers Mailbox MailboxClaims SessReg.
From S2P Require Import CallTypes Auth AuthCall GpParams GpCall Agent AgentReg TeecdAuth.
From S2P Require Import SessLoad SessMgr Login ShareMem Driver.

(** ** Structures *)

Definition mem_word (m : mem) (a n : Z) : Z := le_value (load_bytes m a (Z.to_nat n)).

(** [struct teec_context] *)
Definition tctx_dev (m : mem) (context : Z) : Z := mem_word m context 8.
Definition tctx_ta_path (m : mem) (context : Z) : Z := mem_word m (context + 8) 8.

(** [struct teec_session] *)
Definition tses_session_id (m : mem) (session : Z) : Z := mem_word m session 4.
Definition tses_service_id (m : mem) (session : Z) : list Z := load_bytes m (session + 4) 16.
Definition tses_context (m : mem) (session : Z) : Z := mem_word m (session + 24) 8.
Definition tses_token (session : Z) : Z := session + 32.

Definition set_teec_session (m : mem) (session sid : Z) (service_id : list Z) (context : Z) : mem :=
  store_bytes m session (le_bytes 4 sid ++ service_id ++ le_bytes 4 0 ++ le_bytes 8 context).

(** [struct teec_operation] and its parameters, a union of 24 bytes *)
Definition toper_started (m : mem) (operation : Z) : Z := mem_word m operation 4.
Definition toper_paramtypes (m : mem) (operation : Z) : Z := mem_word m (operation + 4) 4.
Definition toper_cancel_flag (m : mem) (operation : Z) : Z := mem_word m (operation + 112) 1.
Definition param_addr (operation i : Z) : Z := operation + 8 + 24 * i.

Definition tmpref_buffer (m : mem) (p : Z) : Z := mem_word m p 8.
Definition tmpref_size (m : mem) (p : Z) : Z := mem_word m (p + 8) 8.
Definition memref_parent (m : mem) (p : Z) : Z := mem_word m p 8.
Definition ref_size (m : mem) (p : Z) : Z := mem_word m (p + 8) 8.
Definition memref_offset (m : mem) (p : Z) : Z := mem_word m (p + 16) 8.
Definition ion_share_fd (m : mem) (p : Z) : Z := s32 (mem_word m p 4).

(** [struct teec_sharedmemory] *)
Definition parent_buffer (m : mem) (s : Z) : Z := mem_word m s 8.
Definition parent_size (m : mem) (s : Z) : Z := mem_word m (s + 8) 8.
Definition parent_flags (m : mem) (s : Z) : Z := mem_word m (s + 16) 4.
Definition parent_is_allocated (m : mem) (s : Z) : bool := nonzero (mem_word m (s + 24) 1).

Definition TEEC_MEM_INPUT : Z := 0x1.
Definition TEEC_MEM_OUTPUT : Z := 0x2.
Definition TEEC_MEM_INOUT : Z := 0x3.
Definition TEEC_ERROR_NOT_IMPLEMENTED : Z := 0xFFFF0009.
Definition TEEC_ERROR_NOT_SUPPORTED : Z := 0xFFFF000A.
Definition MAX_IMAGE_LEN : Z := 0x800000.
Definition RETRY_TIMES : nat := 5.

(** ** Encoding an operation *)

(** The parameter of the context and its type. *)
Definition encode_for_part_mem (m : mem) (oper idex ty : Z) : tc_ns_client_param * Z :=
  let diff := TEEC_MEMREF_PARTIAL_INPUT - TEEC_MEMREF_TEMP_INPUT in
  let p := param_addr oper idex in
  let parent := memref_parent m p in
  let '(offset, size_addr) :=
    if ty =? TEEC_MEMREF_WHOLE then (0, parent + 8) else (memref_offset m p, p + 8) in
  let '(buffer, offset) :=
    if parent_is_allocated m parent then (parent_buffer m parent, offset)
    else (u64 (parent_buffer m parent + memref_offset m p), 0) in
  let ty :=
    if ty =? TEEC_MEMREF_WHOLE then
      let flags := parent_flags m parent in
      if flags =? TEEC_MEM_INPUT then TEEC_MEMREF_PARTIAL_INPUT
      else if flags =? TEEC_MEM_OUTPUT then TEEC_MEMREF_PARTIAL_OUTPUT
      else TEEC_MEMREF_PARTIAL_INOUT
    else ty in
  let ty := if parent_is_allocated m parent then ty else u32 (ty - diff) in
  (ClientParam buffer offset size_addr, ty).

(** One parameter; [None] for a type that is not known. *)
Definition encode_param_at (m : mem) (oper idex ty : Z) : option (tc_ns_client_param * Z) :=
  let p := param_addr oper idex in
  if is_tmp_mem ty then Some (ClientParam (tmpref_buffer m p) 0 (p + 8), ty)
  else if is_ref_mem ty then Some (encode_for_part_mem m oper idex ty)
  else if is_val_param ty then Some (ClientParam p (p + 4) 0, ty)
  else if is_ion_param ty then Some (ClientParam p (p + 8) 0, ty)
  else if ty =? TEEC_NONE then Some (ClientParam 0 0 0, ty)
  else None.

Fixpoint encode_loop (m : mem) (oper : Z) (l : list Z) : option (list (tc_ns_client_param * Z)) :=
  match l with
  | [] => Some []
  | idex :: l =>
      match encode_param_at m oper idex (teec_param_type_get (toper_paramtypes m oper) idex) with
      | None => None
      | Some x =>
          match encode_loop m oper l with None => None | Some xs => Some (x :: xs) end
      end
  end.

Definition ctx_with_encoded (c : tc_ns_client_context) (l : list (tc_ns_client_param * Z)) :=
  ctx_with_types (ctx_with_params c (l.*1))
    (u32 (teec_param_types (nth 0 (l.*2) 0) (nth 1 (l.*2) 0) (nth 2 (l.*2) 0) (nth 3 (l.*2) 0))).

Definition proc_teek_encode (m : mem) (c : tc_ns_client_context) (oper : Z)
    : tc_ns_client_context * Z :=
  match encode_loop m oper [0; 1; 2; 3] with
  | None => (c, TEEC_ERROR_BAD_PARAMETERS)
  | Some l => (ctx_with_encoded c l, TEEC_SUCCESS)
  end.

(** [memset_s] and [memcpy_s] with these constant sizes succeed. *)
Definition teek_init_context (service_id : list Z) (sid cmd_id method mdata : Z)
    : tc_ns_client_context :=
  ClientContext service_id sid cmd_id 0 TEEC_ORIGIN_COMMS method mdata
    (replicate 4 (ClientParam 0 0 0)) 0 0 0 0 0 0 0.

Definition ctx_with_started (c : tc_ns_client_context) (x : Z) :=
  ClientContext (ctx_uuid c) (ctx_session_id c) (ctx_cmd_id c) (returns_code c) (returns_origin c)
    (ctx_login_method c) (ctx_login_mdata c) (ctx_params c) (ctx_param_types c) x
    (ctx_teec_token c) (ctx_token_len c) (calling_pid c) (file_size c) (file_buffer c).

Definition ctx_with_token (c : tc_ns_client_context) (token len : Z) :=
  ClientContext (ctx_uuid c) (ctx_session_id c) (ctx_cmd_id c) (returns_code c) (returns_origin c)
    (ctx_login_method c) (ctx_login_mdata c) (ctx_params c) (ctx_param_types c) (ctx_started c)
    token len (calling_pid c) (file_size c) (file_buffer c).

Definition ctx_with_file (c : tc_ns_client_context) (buf size : Z) :=
  ClientContext (ctx_uuid c) (ctx_session_id c) (ctx_cmd_id c) (returns_code c) (returns_origin c)
    (ctx_login_method c) (ctx_login_mdata c) (ctx_params c) (ctx_param_types c) (ctx_started c)
    (ctx_teec_token c) (ctx_token_len c) (calling_pid c) size buf.

(** ** Checking an operation *)

Definition teek_check_tmp_mem (m : mem) (p : Z) : Z :=
  if (tmpref_buffer m p =? 0) || (tmpref_size m p =? 0) then TEEC_ERROR_BAD_PARAMETERS
  else TEEC_SUCCESS.

Definition is_partical_mem (ty : Z) : bool :=
  (ty =? TEEC_MEMREF_PARTIAL_INPUT) || (ty =? TEEC_MEMREF_PARTIAL_OUTPUT)
  || (ty =? TEEC_MEMREF_PARTIAL_INOUT).

(** Sums of [size_t] wrap. *)
Definition is_offset_invalid (m : mem) (p : Z) : bool :=
  let offset := memref_offset m p in
  let size := ref_size m p in
  let sum := u64 (offset + size) in
  (parent_size m (memref_parent m p) <? sum) || (sum <? offset) || (sum <? size).

Definition teek_check_ref_mem (m : mem) (p ty : Z) : Z :=
  let parent := memref_parent m p in
  if (parent =? 0) || (parent_buffer m parent =? 0) then TEEC_ERROR_BAD_PARAMETERS
  else
    let has f := nonzero (Z.land (parent_flags m parent) f) in
    let allowed :=
      if ty =? TEEC_MEMREF_PARTIAL_INPUT then has TEEC_MEM_INPUT
      else if ty =? TEEC_MEMREF_PARTIAL_OUTPUT then has TEEC_MEM_OUTPUT
      else if ty =? TEEC_MEMREF_PARTIAL_INOUT then has TEEC_MEM_INPUT && has TEEC_MEM_OUTPUT
      else ty =? TEEC_MEMREF_WHOLE in
    if negb allowed then TEEC_ERROR_BAD_PARAMETERS
    else if is_partical_mem ty && is_offset_invalid m p then TEEC_ERROR_BAD_PARAMETERS
    else TEEC_SUCCESS.

Definition check_param_at (m : mem) (oper idex ty : Z) : Z :=
  let p := param_addr oper idex in
  if is_tmp_mem ty then teek_check_tmp_mem m p
  else if is_ref_mem ty then teek_check_ref_mem m p ty
  else if is_val_param ty then TEEC_SUCCESS
  else if is_ion_param ty then
    if ion_share_fd m p <? 0 then TEEC_ERROR_BAD_PARAMETERS else TEEC_SUCCESS
  else if ty =? TEEC_NONE then TEEC_SUCCESS
  else TEEC_ERROR_BAD_PARAMETERS.

Fixpoint check_params_loop (m : mem) (oper : Z) (l : list Z) : Z :=
  match l with
  | [] => TEEC_SUCCESS
  | idex :: l =>
      let ret := check_param_at m oper idex (teec_param_type_get (toper_paramtypes m oper) idex) in
      if negb (ret =? TEEC_SUCCESS) then ret else check_params_loop m oper l
  end.

Definition teek_check_operation (m : mem) (oper : Z) : Z :=
  if oper =? 0 then TEEC_SUCCESS
  else if toper_started m oper =? 0 then TEEC_ERROR_NOT_IMPLEMENTED
  else check_params_loop m oper [0; 1; 2; 3].

Definition teek_is_agent_alive (A : agent_control) (id : Z) := is_agent_alive A id.

(** ** Image files (core/teek_app_load.c)

    [app_file path] is the file [filp_open] finds, its contents as long as its
    inode says; [vfs_read] gives the bytes it stores and its result;
    [vmalloc n] is the address of a block, 0 when there is none. *)
Class AppFiles := {
  app_file : mem → Z → option (list Z);
  vfs_read : list Z → Z → list Z * Z;
  vmalloc : Z → Z
}.

Section Teek.
Context {Env St : Type} {BA : BlockAllocator St} {SMC : SmcChannel Env}.
Context {P : PageMap} {SC : SecureC} {SB : SecureBuf} {CM : ClientMem} {UA : UserAccess}.
Context {KR : KernelRandom} {KC : KernelCipher} {KA : KernelAlloc} {CU : Current}.
Context {VV : VirtValid} {CR : Caller} {DL : DevLayout} {SS : SecureStr}.
Context {HS : Shash} {TK : Task} {UM : UserMap} {TS : TaskState} {AF : AppFiles}.
Context (fuel : nat) (g_root : session_crypto_info).

Abbreviation state := (call_state Env St).
Abbreviation drv := (driver Env St).

(** Memory, the [vmalloc] blocks, the buffer and the status. *)
Definition teek_open_app_file (m : mem) (vm : gset Z) (file : list Z) (total_img_len : Z)
    : mem * gset Z * Z * Z :=
  if (total_img_len =? 0) || (MAX_IMAGE_LEN <? total_img_len)
  then (m, vm, 0, TEEC_ERROR_BAD_PARAMETERS)
  else
    let buf := vmalloc total_img_len in
    if buf =? 0 then (m, vm, 0, TEEC_ERROR_GENERIC)
    else
      let '(bytes, r) := vfs_read file total_img_len in
      let m := store_bytes m buf bytes in
      if negb (u32 r =? total_img_len)
      then (m, ({[ buf ]} ∪ vm) ∖ {[ buf ]}, 0, TEEC_ERROR_GENERIC)
      else (m, {[ buf ]} ∪ vm, buf, TEEC_SUCCESS).

(** The length of the file as well. *)
Definition teek_read_app (m : mem) (vm : gset Z) (path : Z) : mem * gset Z * Z * Z * Z :=
  match app_file m path with
  | None => (m, vm, 0, 0, TEEC_ERROR_BAD_PARAMETERS)
  | Some file =>
      let len := u32 (zlen file) in
      let '(m, vm, buf, ret) := teek_open_app_file m vm file len in
      (m, vm, buf, len, ret)
  end.

Definition teek_free_app (vm : gset Z) (load_app_flag : bool) (buf : Z) : outcome (gset Z) :=
  if load_app_flag && nonzero buf then
    if decide (buf ∈ vm) then Ret (vm ∖ {[ buf ]}) else Fault
  else Ret vm.

(** [current_mm] tells whether the caller has an address space of its own. *)
Definition teek_get_app (m : mem) (vm : gset Z) (ta_path : Z) : mem * gset Z * Z * Z * Z :=
  if (ta_path =? 0) || current_mm then (m, vm, 0, 0, TEEC_SUCCESS)
  else teek_read_app m vm ta_path.

(** ** Contexts *)

Definition set_mem (D : drv) (m : mem) : drv := with_call D (with_mem (dr_call D) m).
Definition dmem (D : drv) : mem := cs_mem (dr_call D).

(** [kz] is the address [kzalloc] returns. *)
Definition teek_initialize_context (D : drv) (kz context : Z) : drv * Z :=
  if context =? 0 then (D, TEEC_ERROR_BAD_PARAMETERS)
  else
    let m := store_bytes (dmem D) context (le_bytes 8 0 ++ le_bytes 8 0) in
    let '(R, ret, dev) := tc_ns_client_open kz (cs_reg (dr_call D)) TEE_REQ_FROM_KERNEL_MODE in
    if nonzero ret then (with_call D (with_reg (with_mem (dr_call D) m) R), TEEC_ERROR_GENERIC)
    else (with_call D (with_reg (with_mem (dr_call D) (store_bytes m context (le_bytes 8 dev))) R),
          TEEC_SUCCESS).

Definition teek_finalize_context (D : drv) (g : kernel_gives) (context : Z)
    : outcome (option drv) :=
  if (context =? 0) || (tctx_dev (dmem D) context =? 0) then Ret (Some D)
  else
    res ← tc_ns_client_close fuel D g (tctx_dev (dmem D) context);
    match res with
    | None => Ret None
    | Some (D, _) => Ret (Some (set_mem D (store_bytes (dmem D) context (le_bytes 8 0))))
    end.

(** ** Opening a session *)

Definition is_oper_param_valid (m : mem) (oper : Z) : bool :=
  let ty i := teec_param_type_get (toper_paramtypes m oper) i in
  let p i := param_addr oper i in
  (ty 3 =? TEEC_MEMREF_TEMP_INPUT) && (ty 2 =? TEEC_MEMREF_TEMP_INPUT)
  && negb ((tmpref_buffer m (p 3) =? 0) || (tmpref_buffer m (p 2) =? 0)
           || (tmpref_size m (p 3) =? 0) || (tmpref_size m (p 2) =? 0)).

Definition df_with_pkg (d : tc_ns_dev_file) (len : Z) (name : list Z) : tc_ns_dev_file :=
  DevFile (df_id d) (service_ref d) (services d) (kernel_api d) (login_setup d) len name
    (pub_key_len d) (pub_key d) (load_app_flag d) (shared_mem_list d).

(** [pub_key_len = 0; login_setup = 1] *)
Definition df_logged_in (d : tc_ns_dev_file) : tc_ns_dev_file :=
  DevFile (df_id d) (service_ref d) (services d) (kernel_api d) true (pkg_name_len d)
    (pkg_name d) 0 (pub_key d) (load_app_flag d) (shared_mem_list d).

(** The length is stored before it is checked. *)
Definition check_open_sess_params (R : registry) (m : mem) (context oper : Z)
    : outcome (registry * Z) :=
  if negb (is_oper_param_valid m oper) then Ret (R, TEEC_ERROR_BAD_PARAMETERS)
  else
    let dev := tctx_dev m context in
    if dev =? 0 then Ret (R, TEEC_ERROR_BAD_PARAMETERS)
    else
      d ← at_index (g_devs R) dev;
      let size := tmpref_size m (param_addr oper 3) in
      let d := df_with_pkg d (u32 size) (pkg_name d) in
      if MAX_PACKAGE_NAME_LEN - 1 <? size
      then Ret (upd_dev R dev d, TEEC_ERROR_BAD_PARAMETERS)
      else
        let '(r, name) := buf_set (pkg_name d) 0 MAX_PACKAGE_NAME_LEN 0 MAX_PACKAGE_NAME_LEN in
        let d := df_with_pkg d (pkg_name_len d) name in
        if nonzero r then Ret (upd_dev R dev d, TEEC_ERROR_BAD_PARAMETERS)
        else
          let '(r, name) := buf_copy (pkg_name d) 0 MAX_PACKAGE_NAME_LEN
            (load_bytes m (tmpref_buffer m (param_addr oper 3)) (Z.to_nat size)) 0 size in
          let d := df_with_pkg d (pkg_name_len d) name in
          if nonzero r then Ret (upd_dev R dev d, TEEC_ERROR_BAD_PARAMETERS)
          else
            Ret (upd_dev R dev (df_logged_in d),
                 if negb (teek_check_operation m oper =? TEEC_SUCCESS)
                 then TEEC_ERROR_BAD_PARAMETERS else TEEC_SUCCESS).

(** The TEEC code of a negative status of the driver. *)
Definition teec_of_errno (ret : Z) : Z :=
  if ret =? - EFAULT then TEEC_ERROR_ACCESS_DENIED
  else if ret =? - ENOMEM then TEEC_ERROR_OUT_OF_MEMORY
  else if ret =? - EINVAL then TEEC_ERROR_BAD_PARAMETERS
  else TEEC_ERROR_GENERIC.

(** The state, the context, the TEEC code and the origin. *)
Definition open_session_and_switch_ret (k : state) (g : kernel_gives) (session context : Z)
    (destination : list Z) (c : tc_ns_client_context) (origin : Z)
    : outcome (option (state * tc_ns_client_context * Z * Z)) :=
  res ← tc_ns_open_session fuel g_root k (tctx_dev (cs_mem k) context) c (kz_service g)
          (kz_session g);
  match res with
  | None => Ret None
  | Some (k, c, ret) =>
      if negb (nonzero ret) then
        Ret (Some (with_mem k (set_teec_session (cs_mem k) session (ctx_session_id c) destination
                                 context), c, TEEC_SUCCESS, origin))
      else if ret <? 0 then
        Ret (Some (k, c, if ret =? - ERESTARTSYS then TEEC_CLIENT_INTR else teec_of_errno ret,
                   TEEC_ORIGIN_COMMS))
      else Ret (Some (k, c, u32 (returns_code c), returns_origin c))
  end.

(** [*return_origin = origin] *)
Definition set_origin (m : mem) (return_origin origin : Z) : mem :=
  if return_origin =? 0 then m else store_bytes m return_origin (le_bytes 4 origin).

(** The label [set_ori]: [file] is [cli_context.file_buffer]. *)
Definition open_set_ori (k : state) (vm : gset Z) (return_origin origin teec_ret : Z)
    (load_app_flag : bool) (file : Z) : outcome (option (state * gset Z * Z)) :=
  let k := if negb (teec_ret =? TEEC_SUCCESS)
           then with_mem k (set_origin (cs_mem k) return_origin origin) else k in
  vm ← teek_free_app vm load_app_flag file;
  Ret (Some (k, vm, teec_ret)).

(** [destination] is the uuid the argument points to, [None] for NULL.  The
    context of an early exit is not initialised; it is not read then. *)
Definition proc_teek_open_session (k : state) (vm : gset Z) (g : kernel_gives)
    (context session : Z) (destination : option (list Z)) (connection_method oper return_origin : Z)
    : outcome (option (state * gset Z * Z)) :=
  let origin := TEEC_ORIGIN_API in
  let k := with_mem k (set_origin (cs_mem k) return_origin origin) in
  match destination with
  | None => open_set_ori k vm return_origin origin TEEC_ERROR_BAD_PARAMETERS false 0
  | Some dest =>
      if (context =? 0) || (oper =? 0) || (session =? 0)
         || negb (connection_method =? TEEC_LOGIN_IDENTIFY)
      then open_set_ori k vm return_origin origin TEEC_ERROR_BAD_PARAMETERS false 0
      else
        '(R, ret) ← check_open_sess_params (cs_reg k) (cs_mem k) context oper;
        let k := with_reg k R in
        if negb (ret =? TEEC_SUCCESS) then open_set_ori k vm return_origin origin ret false 0
        else
          let c := teek_init_context dest 0 GLOBAL_CMD_ID_OPEN_SESSION TEEC_LOGIN_IDENTIFY 0 in
          let c := ctx_with_started c (toper_cancel_flag (cs_mem k) oper) in
          let '(c, ret) := proc_teek_encode (cs_mem k) c oper in
          if negb (ret =? TEEC_SUCCESS) then open_set_ori k vm return_origin origin ret false 0
          else
            let '(m, vm, buf, len, ret) :=
              teek_get_app (cs_mem k) vm (tctx_ta_path (cs_mem k) context) in
            let k := with_mem k m in
            if negb (ret =? TEEC_SUCCESS) then open_set_ori k vm return_origin origin ret false 0
            else
              let c := ctx_with_token (ctx_with_file c buf len) (tses_token session) TOKEN_SAVE_LEN in
              res ← open_session_and_switch_ret k g session context dest c origin;
              match res with
              | None => Ret None
              | Some (k, c, ret, origin) =>
                  open_set_ori k vm return_origin origin ret true (file_buffer c)
              end
  end.

Fixpoint open_retry (n : nat) (k : state) (vm : gset Z) (gs : nat → registry → kernel_gives)
    (context session : Z) (destination : option (list Z)) (connection_method oper return_origin : Z)
    (last : Z) : outcome (option (state * gset Z * Z)) :=
  match n with
  | O => Ret (Some (k, vm, last))
  | S n =>
      res ← proc_teek_open_session k vm (gs n (cs_reg k)) context session destination connection_method oper
              return_origin;
      match res with
      | None => Ret None
      | Some (k, vm, ret) =>
          if negb (ret =? TEEC_CLIENT_INTR) then Ret (Some (k, vm, ret))
          else open_retry n k vm gs context session destination connection_method oper
                 return_origin ret
      end
  end.

(** [gs n R] is what the kernel gives to the attempt before [n] more ones when
    the registry is [R]. *)
Definition teek_open_session (k : state) (vm : gset Z) (gs : nat → registry → kernel_gives)
    (context session : Z) (destination : option (list Z)) (connection_method oper return_origin : Z)
    : outcome (option (state * gset Z * Z)) :=
  open_retry RETRY_TIMES k vm gs context session destination connection_method oper return_origin 0.

(** ** Closing a session *)

Definition is_close_sess_param_valid (m : mem) (session : Z) : bool :=
  negb ((session =? 0) || (tses_context m session =? 0)
        || (tctx_dev m (tses_context m session) =? 0)).

(** After a successful close the session's members are cleared: id, uuid,
    [ops_cnt], context and token are contiguous. *)
Definition clear_teec_session (m : mem) (session : Z) : mem :=
  store_bytes m session (replicate 56 0).

Definition teek_close_session (k : state) (session : Z) : outcome (option state) :=
  let m := cs_mem k in
  if negb (is_close_sess_param_valid m session) then Ret (Some k)
  else
    let c := ctx_with_token (teek_init_context (tses_service_id m session) (tses_session_id m session)
               GLOBAL_CMD_ID_CLOSE_SESSION 0 0) (tses_token session) TOKEN_SAVE_LEN in
    res ← tc_ns_close_session fuel k (tctx_dev m (tses_context m session)) c;
    match res with
    | None => Ret None
    | Some (k, ret) =>
        if negb (nonzero ret) then Ret (Some (with_mem k (clear_teec_session (cs_mem k) session)))
        else Ret (Some k)
    end.

(** ** Invoking a command *)

Definition proc_invoke_cmd (k : state) (session : Z) (c : tc_ns_client_context) (origin : Z)
    : outcome (option (state * Z * Z)) :=
  res ← tc_ns_send_cmd fuel k (tctx_dev (cs_mem k) (tses_context (cs_mem k) session)) c;
  match res with
  | None => Ret None
  | Some (k, c, ret) =>
      if negb (nonzero ret) then Ret (Some (k, TEEC_SUCCESS, origin))
      else if ret <? 0 then Ret (Some (k, teec_of_errno ret, TEEC_ORIGIN_COMMS))
      else Ret (Some (k, u32 (returns_code c), returns_origin c))
  end.

Definition invoke_set_ori (k : state) (return_origin origin teec_ret : Z) : state * Z :=
  (if nonzero teec_ret then with_mem k (set_origin (cs_mem k) return_origin origin) else k, teec_ret).

Definition teek_invoke_command (k : state) (session cmd_id oper return_origin : Z)
    : outcome (option (state * Z)) :=
  let m := cs_mem k in
  let origin := TEEC_ORIGIN_API in
  if (session =? 0) || (tses_context m session =? 0)
  then Ret (Some (invoke_set_ori k return_origin origin TEEC_ERROR_BAD_PARAMETERS))
  else
    let ret := teek_check_operation m oper in
    if nonzero ret then Ret (Some (invoke_set_ori k return_origin origin ret))
    else
      let c := teek_init_context (tses_service_id m session) (tses_session_id m session) cmd_id 0 0 in
      let '(c, ret) :=
        if oper =? 0 then (c, TEEC_SUCCESS)
        else proc_teek_encode m (ctx_with_started c (toper_cancel_flag m oper)) oper in
      if nonzero ret then Ret (Some (invoke_set_ori k return_origin origin ret))
      else
        res ← proc_invoke_cmd k session (ctx_with_token c (tses_token session) TOKEN_SAVE_LEN) origin;
        match res with
        | None => Ret None
        | Some (k, ret, origin) => Ret (Some (invoke_set_ori k return_origin origin ret))
        end.

Definition teek_send_secfile (k : state) (session buf size : Z) : outcome (state * Z) :=
  let m := cs_mem k in
  if (buf =? 0) || (size =? 0) || (session =? 0) || (tses_context m session =? 0)
     || (tctx_dev m (tses_context m session) =? 0)
  then Ret (k, TEEC_ERROR_BAD_PARAMETERS)
  else
    '(e, s, m, ret) ← tc_ns_load_image_with_lock (cs_env k) (cs_pool k) m (cs_reg k)
                        (tctx_dev m (tses_context m session)) buf size LOAD_TA;
    Ret (CallState e s m (cs_reg k) (cs_op k) (cs_tzmp_uid k), u32 ret).

Definition teek_register_shared_memory : Z := TEEC_ERROR_NOT_SUPPORTED.

(** ** The exported names *)

Definition TEEK_IsAgentAlive := teek_is_agent_alive.
Definition TEEK_InitializeContext := teek_initialize_context.
Definition TEEK_FinalizeContext := teek_finalize_context.
Definition TEEK_OpenSession := teek_open_session.
Definition TEEK_CloseSession := teek_close_session.
Definition TEEK_InvokeCommand := teek_invoke_command.
Definition TEEK_SendSecfile := teek_send_secfile.

End Teek.
