(* ===== verification/TeekThm.v ===== *)
(** * The client API for kernel code: lemmas

    A checked operation is encoded within the client's buffers; opening,
    using and closing a session through the API keeps the registry's counters
    and frees every image buffer. *)

From stdpp Require Import base gmap list.
From Stdlib Require Import ZArith Lia.
From S2P Require Import Prelude KernelApi TeeTypes Buffers Mailbox MailboxClaims SessReg.
From S2P Require Import SessLookup SessOk CallTypes Auth AuthCall AuthOk GpParams GpCall GpHeld.
From S2P Require Import GpAlloc GpCallThm GpClaims Tlogger TloggerSys Agent AgentReg AgentThm.
From S2P Require Import TeecdAuth SessLoad SessMgr SessInv SessInvOps SessInvFind.
From S2P Require Import SessMgrThm SessUse Login ShareMem ShareMemClaims Driver DevClose DriverThm.
From S2P Require Import DriverSteps Teek.

(** ** Words of memory *)

Lemma mem_word_range m a n : 0 ≤ n → Forall is_byte (load_bytes m a (Z.to_nat n)) →
  0 ≤ mem_word m a n < 256 ^ n.
Proof.
  intros Hn Hb. unfold mem_word. apply le_value_range in Hb. rewrite load_bytes_length in Hb.
  by rewrite Z2Nat.id in Hb.
Qed.

(** Memory holds bytes. *)
Definition bytes_mem (m : mem) : Prop := ∀ a n, Forall is_byte (load_bytes m a n).

Lemma bytes_word m a n : bytes_mem m → 0 ≤ n → 0 ≤ mem_word m a n < 256 ^ n.
Proof. intros Hm Hn. by apply mem_word_range. Qed.

(** ** Offsets *)

(** The check on [size_t] sums is exact. *)
Lemma offset_invalid_spec m p : bytes_mem m →
  is_offset_invalid m p = false ↔
  memref_offset m p + ref_size m p ≤ parent_size m (memref_parent m p).
Proof.
  intros Hm. unfold is_offset_invalid.
  pose proof (bytes_word m (p + 16) 8 Hm) as Ho. pose proof (bytes_word m (p + 8) 8 Hm) as Hs.
  pose proof (bytes_word m (memref_parent m p + 8) 8 Hm) as Hp.
  unfold memref_offset, ref_size, parent_size in *.
  set (o := mem_word m (p + 16) 8) in *. set (s := mem_word m (p + 8) 8) in *.
  set (ps := mem_word m (memref_parent m p + 8) 8) in *.
  assert (256 ^ 8 = 2 ^ 64) as E by done. rewrite E in *.
  destruct (decide (o + s < 2 ^ 64)).
  - rewrite u64_small by lia. rewrite !orb_false_iff, !Z.ltb_ge. lia.
  - assert (u64 (o + s) = o + s - 2 ^ 64) as ->.
    { unfold u64. symmetry. apply Z.mod_unique_pos with (q := 1); lia. }
    rewrite !orb_false_iff, !Z.ltb_ge. lia.
Qed.

(** ** A checked operation can be encoded *)

Lemma check_param_encodes m oper idex ty :
  check_param_at m oper idex ty = TEEC_SUCCESS → is_Some (encode_param_at m oper idex ty).
Proof.
  unfold check_param_at, encode_param_at. destruct (is_tmp_mem ty); [eauto|].
  destruct (is_ref_mem ty); [eauto|]. destruct (is_val_param ty); [eauto|].
  destruct (is_ion_param ty); [eauto|]. destruct (ty =? TEEC_NONE); [eauto|done].
Qed.

Lemma check_loop_spec m oper l :
  check_params_loop m oper l = TEEC_SUCCESS ↔
  Forall (λ i, check_param_at m oper i (teec_param_type_get (toper_paramtypes m oper) i)
               = TEEC_SUCCESS) l.
Proof.
  induction l as [|i l IH]; cbn [check_params_loop]; [by split|]. rewrite Forall_cons, <- IH.
  destruct (Z.eqb_spec (check_param_at m oper i
    (teec_param_type_get (toper_paramtypes m oper) i)) TEEC_SUCCESS) as [E|E]; cbn [negb]; [tauto|].
  split; [done|by intros [? _]].
Qed.

Lemma encode_loop_ok m oper l :
  Forall (λ i, is_Some (encode_param_at m oper i
            (teec_param_type_get (toper_paramtypes m oper) i))) l →
  ∃ xs, encode_loop m oper l = Some xs ∧
    Forall2 (λ i x, encode_param_at m oper i
       (teec_param_type_get (toper_paramtypes m oper) i) = Some x) l xs.
Proof.
  induction 1 as [|i l [x Hx] _ (xs & IH & HF)]; [by exists []|].
  exists (x :: xs). cbn [encode_loop]. rewrite Hx, IH. split; [done|]. by constructor.
Qed.

(** ** A reference parameter *)

(** What the driver is told of a reference into a registered buffer: it starts
    [offset] bytes into the buffer, and its size is the size the client gave.
    A buffer the driver did not allocate is passed as a temporary one. *)
Record part_encoded (m : mem) (p ty : Z) (x : tc_ns_client_param * Z) : Prop := {
  pe_start : u64 (cp_buffer x.1 + cp_offset x.1)
    = u64 (parent_buffer m (memref_parent m p) + memref_offset m p);
  pe_size : mem_word m (cp_size_addr x.1) 8 = ref_size m p;
  pe_allocated : parent_is_allocated m (memref_parent m p) = true → x.2 = ty;
  pe_temporary : parent_is_allocated m (memref_parent m p) = false →
    x.2 = ty - 8 ∧ is_tmp_mem x.2 = true ∧ cp_offset x.1 = 0
}.

Lemma u64_idem x : u64 (u64 x) = u64 x.
Proof. unfold u64. by rewrite Z.mod_mod. Qed.

Lemma encode_part_ok m oper idex ty :
  is_ref_mem ty = true →
  part_encoded m (param_addr oper idex) ty (encode_for_part_mem m oper idex ty).
Proof.
  intros Hty. assert (ty ∈ [13; 14; 15]) as Hin.
  { unfold is_ref_mem in Hty. rewrite !orb_true_iff, !Z.eqb_eq in Hty.
    destruct Hty as [[->| ->]| ->]; rewrite !elem_of_cons; auto. }
  assert ((ty =? TEEC_MEMREF_WHOLE) = false) as Hw.
  { rewrite !elem_of_cons, elem_of_nil in Hin. by destruct Hin as [->|[->|[->|[]]]]. }
  unfold encode_for_part_mem. rewrite Hw.
  destruct (parent_is_allocated _ _) eqn:Ha; split; simpl; try congruence; try done.
  - rewrite Z.add_0_r. apply u64_idem.
  - intros _. rewrite !elem_of_cons, elem_of_nil in Hin. by destruct Hin as [->|[->|[->|[]]]].
Qed.

(** ** The image buffer of a context

    No operation on a session changes which image a context names. *)

Section Opening.
Context {Env St : Type} {BA : BlockAllocator St} {BAL : BlockAllocatorLaws St BA}.
Context {SMC : SmcChannel Env} {TB : TeeBehaviour Env SMC}.
Context {P : PageMap} {SC : SecureC} {SB : SecureBuf} {CM : ClientMem} {UA : UserAccess}.
Context {KR : KernelRandom} {KC : KernelCipher} {KA : KernelAlloc} {CU : Current}.
Context {VV : VirtValid} {VL : VirtValidLaws St BA VV} {CR : Caller} {DL : DevLayout}.
Context {AF : AppFiles}.
Context (fuel : nat) (g_root : session_crypto_info).
Context (Hfuel : ∀ e m o c, (tee_rank (tc_ns_smc e m o c).1.1.1.1 < fuel)%nat).

Abbreviation state := (call_state Env St).

(** Peels a bind, a conditional or a pair off a computation that returned. *)
Ltac peel H :=
  repeat first
    [ progress cbn beta iota zeta in H
    | match type of H with
      | Ret _ = Ret _ => injection H as ?; subst
      | Fault = Ret _ => discriminate H
      | Some _ = Some _ => injection H as ?; subst
      | None = Some _ => discriminate H
      | (if ?b then _ else _) = _ => destruct b eqn:?
      | mbind _ _ = Ret _ => apply bind_Ret in H as (? & ? & H)
      | (let '(_, _) := ?x in _) = _ => destruct x eqn:?
      | match ?x with _ => _ end = _ => destruct x eqn:?
      end ].

Lemma free_src_file call (k k' : state) x r tee_ret ret :
  free_src call k tee_ret r = Ret (Some (k', x, ret)) → file_buffer x = file_buffer (call_context call).
Proof.
  intros H. unfold free_src in H. apply bind_Ret in H as ([k1 x1] & H1 & H).
  injection H as _ <- _. unfold release_tc_call_resource in H1.
  apply bind_Ret in H1 as (k2 & _ & H1). apply bind_Ret in H1 as (s & _ & H1).
  by injection H1 as _ <-.
Qed.

Lemma client_call_file call (k k' : state) x ret :
  tc_client_call fuel call k = Ret (Some (k', x, ret)) → file_buffer x = file_buffer (call_context call).
Proof.
  intros H. unfold tc_client_call, finish_call in H. peel H; try done;
    try (by apply free_src_file in H).
Qed.

Lemma load_ta_file e (s : St) m R d c e' s' m' c' ret :
  load_ta_image (Env := Env) e s m R d c = Ret (e', s', m', c', ret) → file_buffer c' = file_buffer c.
Proof.
  intros H. unfold load_ta_image in H. apply bind_Ret in H as (x & _ & H).
  apply bind_Ret in H as ([[[e1 s1] m1] r1] & _ & H). peel H; done.
Qed.

Lemma secure_params_file e (s : St) m R g d c q e' s' m' R' c' ret :
  get_session_secure_params (Env := Env) e s m R g d c q = Ret (e', s', m', R', c', ret) →
  file_buffer c' = file_buffer c.
Proof. intros H. unfold get_session_secure_params in H. peel H; done. Qed.

Lemma proc_open_file (k k' : state) d c p q flags c' ret :
  proc_open_session fuel g_root k d c p q flags = Ret (Some (k', c', ret)) →
  file_buffer c' = file_buffer c.
Proof.
  intros H. unfold proc_open_session in H.
  apply bind_Ret in H as ([[[[e1 s1] m1] c1] r1] & H1 & H). apply load_ta_file in H1.
  destruct (nonzero r1); [injection H as _ <- _; done|].
  apply bind_Ret in H as ([[[[[e2 s2] m2] R2] c2] r2] & H2 & H). apply secure_params_file in H2.
  unfold open_failed in H. peel H; try congruence.
  all: match goal with E : tc_client_call _ _ _ = _ |- _ => apply client_call_file in E; simpl in E end.
  all: congruence.
Qed.

Lemma check_login_file R m d c flags R' m' c' flags' ret :
  check_login_method R m d c flags = Ret (R', m', c', flags', ret) → file_buffer c' = file_buffer c.
Proof.
  intros H. unfold check_login_method in H. destruct (d =? 0); [by injection H as <- <- <- <- <-|].
  destruct (negb _); [by injection H as <- <- <- <- <-|]. apply bind_Ret in H as (x & _ & H).
  destruct (_ && _); [by injection H as <- <- <- <- <-|].
  apply bind_Ret in H as ([[[R1 m1] c1] r1] & H1 & H).
  assert (file_buffer c1 = file_buffer c) as E.
  { unfold set_login_information in H1. peel H1; done. }
  peel H; congruence.
Qed.

Lemma open_session_file (k k' : state) d c kz kq c' ret :
  tc_ns_open_session fuel g_root k d c kz kq = Ret (Some (k', c', ret)) → file_buffer c' = file_buffer c.
Proof.
  intros H. unfold tc_ns_open_session in H. destruct (d =? 0); [by injection H as _ <- _|].
  apply bind_Ret in H as ([[[[R1 m1] c1] f1] r1] & H1 & H). apply check_login_file in H1.
  destruct (nonzero r1); [by injection H as _ <- _|]. apply bind_Ret in H as ([R2 p] & _ & H).
  destruct (p =? 0); [by injection H as _ <- _|].
  destruct (zero_or_null_ptr kq); [apply bind_Ret in H as (R3 & _ & H); by injection H as _ <- _|].
  apply bind_Ret in H as ([[[k3 c3] r3]|] & H3 & H); [|done]. apply proc_open_file in H3. simpl in H3.
  destruct (negb (nonzero r3)); [injection H as _ <- _; simpl; congruence|].
  apply bind_Ret in H as (k4 & _ & H). injection H as _ <- _. simpl. congruence.
Qed.

(** ** The login data of the device file *)

(** Storing the package name changes no counter and no session. *)
Lemma check_open_params_inv R H m context oper :
  reg_inv R H → (tctx_dev m context ≠ 0 → is_Some (g_devs R !! tctx_dev m context)) →
  ∃ R' ret, check_open_sess_params R m context oper = Ret (R', ret) ∧
    reg_inv R' H ∧ slot_frame R R' ∧ g_services R' = g_services R ∧
    (ret = TEEC_SUCCESS → tctx_dev m context ≠ 0 ∧ teek_check_operation m oper = TEEC_SUCCESS).
Proof.
  intros HI Hd. unfold check_open_sess_params.
  destruct (negb (is_oper_param_valid m oper)); [by eexists _, _|].
  destruct (Z.eqb_spec (tctx_dev m context) 0) as [E|Hne]; [by eexists _, _|].
  destruct (Hd Hne) as [d Hx]. rewrite (proj2 (at_index_Some _ _ _) Hx), ret_bind.
  assert (∀ y ret, services y = services d → service_ref y = service_ref d →
    shared_mem_list y = shared_mem_list d →
    (ret = TEEC_SUCCESS → teek_check_operation m oper = TEEC_SUCCESS) →
    ∃ R' ret', Ret (upd_dev R (tctx_dev m context) y, ret) = Ret (R', ret') ∧
    reg_inv R' H ∧ slot_frame R R' ∧ g_services R' = g_services R ∧
    (ret' = TEEC_SUCCESS → tctx_dev m context ≠ 0 ∧ teek_check_operation m oper = TEEC_SUCCESS))
    as Hret.
  { intros y ret E1 E2 E3 Hr. eexists _, _. split; [done|].
    split; [by eapply inv_dev_data|]. split; [by eapply upd_dev_frame|]. split; [done|].
    intros ?. by split; [|apply Hr]. }
  destruct (_ <? _); [by apply Hret|].
  destruct (buf_set _ _ _ _ _) as [r1 n1]. destruct (nonzero r1); [by apply Hret|].
  destruct (buf_copy _ _ _ _ _ _) as [r2 n2]. destruct (nonzero r2); [by apply Hret|].
  apply Hret; try done.
  destruct (Z.eqb_spec (teek_check_operation m oper) TEEC_SUCCESS); [done|by intros [=]].
Qed.

Lemma encode_keeps m c oper c' ret :
  proc_teek_encode m c oper = (c', ret) → ctx_uuid c' = ctx_uuid c.
Proof. unfold proc_teek_encode. destruct (encode_loop _ _ _); by intros [= <- _]. Qed.

(** ** Image files *)

(** Two ranges of memory have no byte in common. *)
Definition apart (a n b l : Z) : Prop := a + n ≤ b ∨ b + l ≤ a.

(** [vmalloc] returns a block that is not allocated and not part of the
    client's context; [vfs_read] stores at most what was asked for. *)
Record app_memory (vm : gset Z) (context : Z) : Prop := {
  am_fresh n : vmalloc n ≠ 0 → vmalloc n ∉ vm;
  am_apart n : vmalloc n ≠ 0 → apart context 8 (vmalloc n) n;
  am_read file n : 0 ≤ n → zlen (vfs_read file n).1 ≤ n
}.

(** The image is in a block of its own, allocated on success only. *)
Record app_got (m : mem) (vm : gset Z) (context : Z) (m' : mem) (vm' : gset Z) (buf len ret : Z)
    : Prop := {
  ag_context : tctx_dev m' context = tctx_dev m context;
  ag_len : 0 ≤ len < 2 ^ 32;
  ag_failed : ret ≠ TEEC_SUCCESS → vm' = vm;
  ag_none : buf = 0 → vm' = vm;
  ag_block : buf ≠ 0 → buf ∈ vm' ∧ vm' ∖ {[ buf ]} = vm
}.

Lemma store_apart m context a l n :
  zlen l ≤ n → apart context 8 a n → tctx_dev (store_bytes m a l) context = tctx_dev m context.
Proof.
  unfold apart, zlen, tctx_dev, mem_word. intros Hl Ha.
  rewrite load_store_bytes_outside; [done|]. change (Z.of_nat (Z.to_nat 8)) with 8. lia.
Qed.

Lemma open_app_file_got m vm context file len m' vm' buf ret :
  app_memory vm context → 0 ≤ len < 2 ^ 32 →
  teek_open_app_file m vm file len = (m', vm', buf, ret) → app_got m vm context m' vm' buf len ret.
Proof.
  intros [Hf Ha Hr] Hlen. unfold teek_open_app_file.
  destruct (_ || _); [by intros [= <- <- <- <-]|].
  destruct (Z.eqb_spec (vmalloc len) 0) as [E|Hne]; [by intros [= <- <- <- <-]|].
  specialize (Hr file len (proj1 Hlen)). destruct (vfs_read file len) as [l r]. simpl in Hr.
  pose proof (Hf len Hne) as Hfl. pose proof (store_apart m context _ l len Hr (Ha len Hne)) as Hst.
  destruct (negb _); intros [= <- <- <- <-]; split; try done.
  - intros _. set_solver.
  - intros _. set_solver.
  - intros _. split; set_solver.
Qed.

Lemma get_app_got m vm context path m' vm' buf len ret :
  app_memory vm context → teek_get_app m vm path = (m', vm', buf, len, ret) →
  app_got m vm context m' vm' buf len ret.
Proof.
  intros Ha. unfold teek_get_app, teek_read_app.
  destruct (_ || _); [by intros [= <- <- <- <- <-]|].
  destruct (app_file m path) as [file|]; [|by intros [= <- <- <- <- <-]].
  destruct (teek_open_app_file _ _ _ _) as [[[m1 vm1] buf1] r1] eqn:E. intros [= <- <- <- <- <-].
  eapply open_app_file_got; [done| |done]. unfold u32. apply Z.mod_pos_bound. lia.
Qed.

(** ** Opening a session *)

(** What an attempt to open a session leaves.  Either the session is in the
    registry and the client's structure names it, or it does not exist. *)
Record kernel_opened (k k' : state) (L : gset Z) (context session dev q : Z)
    (destination : option (list Z)) (ret : Z) : Prop := {
  ko_restored : restored k k' no_refs L;
  ko_keys : same_keys q (cs_reg k) (cs_reg k');
  ko_session : (∃ dest sid, destination = Some dest ∧ ret = TEEC_SUCCESS ∧
      session_open (cs_reg k') dev q dest sid ∧
      load_bytes (cs_mem k') session 32 = le_bytes 4 sid ++ dest ++ le_bytes 4 0 ++ le_bytes 8 context)
    ∨ g_sessions (cs_reg k') !! q = None
}.

(** A client's request: the context's device file is live if it is set, the
    origin is reported outside of the context, and the uuid has 16 bytes. *)
Record open_request (k : state) (vm : gset Z) (g : kernel_gives) (context return_origin : Z)
    (destination : option (list Z)) : Prop := {
  or_dev : tctx_dev (cs_mem k) context ≠ 0 →
    is_Some (g_devs (cs_reg k) !! tctx_dev (cs_mem k) context);
  or_origin : apart context 8 return_origin 4;
  or_fresh : fresh (cs_reg k) g;
  or_app : app_memory vm context;
  or_uuid dest : destination = Some dest → length dest = 16%nat
}.

Lemma set_origin_dev m context return_origin origin :
  apart context 8 return_origin 4 → tctx_dev (set_origin m return_origin origin) context = tctx_dev m context.
Proof.
  intros Ha. unfold set_origin. destruct (_ =? 0); [done|]. apply store_apart with (n := 4); [|done].
  unfold zlen. by rewrite le_bytes_length.
Qed.

Lemma free_app_block m vm context m' vm' buf len ret :
  app_got m vm context m' vm' buf len ret → teek_free_app vm' true buf = Ret vm.
Proof.
  intros HG. unfold teek_free_app. simpl. destruct (nonzero buf) eqn:E.
  - apply nonzero_true in E. destruct (ag_block _ _ _ _ _ _ _ _ HG E) as [Hin <-].
    by rewrite decide_True.
  - apply nonzero_false in E. by rewrite (ag_none _ _ _ _ _ _ _ _ HG E).
Qed.

Lemma load_stored m a l n : n = length l → load_bytes (store_bytes m a l) a n = l.
Proof. intros ->. apply load_store_bytes. Qed.

(** The driver's call, and the record of its result in the client's session. *)
Lemma open_switch_inv (k : state) g L context session dest c origin :
  reg_inv (cs_reg k) no_refs → shares_ok (cs_reg k) → few_devs (cs_reg k) →
  is_Some (g_devs (cs_reg k) !! tctx_dev (cs_mem k) context) → fresh (cs_reg k) g →
  ba_owns (cs_pool k) L → 0 ≤ file_size c < 2 ^ 32 → ctx_uuid c = dest → length dest = 16%nat →
  ∃ k' c' ret origin', open_session_and_switch_ret fuel g_root k g session context dest c origin
      = Ret (Some (k', c', ret, origin')) ∧ file_buffer c' = file_buffer c ∧
    kernel_opened k k' L context session (tctx_dev (cs_mem k) context) (kz_session g) (Some dest) ret.
Proof.
  intros HI Hsh Hf Hd [Hf1 Hf2] Ho Hfs Eu Hl. unfold open_session_and_switch_ret.
  destruct (open_session_inv fuel Hfuel g_root k no_refs L (tctx_dev (cs_mem k) context) c
    (kz_service g) (kz_session g)) as (k' & x & ret & E & Ho' & HI' & Hsh' & Eg & Ed & Hk & Hok & Hno);
    try done.
  { unfold few_devs, small in *. simpl. lia. }
  pose proof (open_session_file _ _ _ _ _ _ _ _ E) as Ef. rewrite E, ret_bind.
  assert (restored k k' no_refs L) as Hr by by split.
  destruct (nonzero ret) eqn:En; cbn [negb].
  - apply nonzero_true in En. specialize (Hno En).
    destruct (ret <? 0); eexists _, _, _, _; (split; [done|]); (split; [done|]); split; eauto.
  - apply nonzero_false in En. eexists _, _, _, _. split; [done|]. split; [done|]. split.
    + by apply restored_mem.
    + done.
    + left. exists dest, (ctx_session_id x). split_and!; try done.
      * rewrite <- Eu. by apply Hok.
      * cbn [cs_mem with_mem]. unfold set_teec_session.
        apply load_stored. rewrite !length_app, !le_bytes_length, Hl. done.
Qed.

(** A context that the driver's call finds as the request left it. *)
Lemma opened_before (k k1 k' : state) L context session dev q dest ret :
  slot_frame (cs_reg k) (cs_reg k1) → kernel_opened k1 k' L context session dev q dest ret →
  kernel_opened k k' L context session dev q dest ret.
Proof.
  intros Hf [[H1 H2 H3 H4 H5] H6 H7]. split; [split; try done|..]; try done.
  - by rewrite H4, (fr_shared _ _ Hf).
  - by rewrite H5, (fr_devs _ _ Hf).
  - intros q' Hne. by rewrite H6, (fr_sessions _ _ Hf).
Qed.

Lemma not_opened (k k' : state) L context session dev q dest ret :
  ba_owns (cs_pool k') L → reg_inv (cs_reg k') no_refs → shares_ok (cs_reg k) →
  slot_frame (cs_reg k) (cs_reg k') → g_sessions (cs_reg k) !! q = None →
  kernel_opened k k' L context session dev q dest ret.
Proof.
  intros Ho HI Hsh Hf Hq. split.
  - by apply frame_restored.
  - intros q' _. by rewrite (fr_sessions _ _ Hf).
  - right. by rewrite (fr_sessions _ _ Hf).
Qed.

(** The end of an attempt: every image buffer has been freed. *)
Lemma open_set_ori_inv (k k1 : state) vm vm1 L context session dev q dest ret return_origin origin flag file :
  teek_free_app vm1 flag file = Ret vm → kernel_opened k k1 L context session dev q dest ret →
  ∃ k', open_set_ori k1 vm1 return_origin origin ret flag file = Ret (Some (k', vm, ret)) ∧
    kernel_opened k k' L context session dev q dest ret.
Proof.
  intros Hv Hk. unfold open_set_ori. rewrite Hv, ret_bind. eexists. split; [done|].
  destruct (Z.eqb_spec ret TEEC_SUCCESS) as [E|Hne]; cbn [negb]; [done|].
  destruct Hk as [H1 H2 [(d & sid & _ & Hr & _)|H3]]; [done|].
  split; [by apply restored_mem|done|by right].
Qed.

Lemma fresh_frame R R' g :
  slot_frame R R' → g_services R' = g_services R → fresh R g → fresh R' g.
Proof. intros Hf E [H1 H2]. split; [by rewrite E|by rewrite (fr_sessions _ _ Hf)]. Qed.

(** An attempt always returns, holds no image buffer, and opens the session or
    leaves none. *)
Lemma proc_teek_open_inv (k : state) vm g L context session destination method oper return_origin :
  reg_inv (cs_reg k) no_refs → shares_ok (cs_reg k) → few_devs (cs_reg k) →
  ba_owns (cs_pool k) L → open_request k vm g context return_origin destination →
  ∃ k' ret, proc_teek_open_session fuel g_root k vm g context session destination method oper
      return_origin = Ret (Some (k', vm, ret)) ∧
    kernel_opened k k' L context session (tctx_dev (cs_mem k) context) (kz_session g) destination ret.
Proof.
  intros HI Hsh Hf Ho [Hd Ha Hfr Happ Hu]. unfold proc_teek_open_session.
  pose proof (set_origin_dev (cs_mem k) context return_origin TEEC_ORIGIN_API Ha) as Em.
  set (m1 := set_origin (cs_mem k) return_origin TEEC_ORIGIN_API) in *.
  assert (∀ (k1 : state) vm1 ret file flag, cs_pool k1 = cs_pool k → reg_inv (cs_reg k1) no_refs →
    slot_frame (cs_reg k) (cs_reg k1) → teek_free_app vm1 flag file = Ret vm →
    ∃ k' ret', open_set_ori k1 vm1 return_origin TEEC_ORIGIN_API ret flag file
      = Ret (Some (k', vm, ret')) ∧ kernel_opened k k' L context session
        (tctx_dev (cs_mem k) context) (kz_session g) destination ret') as Hret.
  { intros k1 vm1 ret file flag Ep HI1 Hf1 Hfree.
    destruct (open_set_ori_inv k k1 vm vm1 L context session (tctx_dev (cs_mem k) context)
      (kz_session g) destination ret return_origin TEEC_ORIGIN_API flag file Hfree) as (k' & E & Hk);
      [|by exists k', ret].
    apply not_opened; try done; [by rewrite Ep|apply Hfr]. }
  destruct destination as [dest|]; [|by apply Hret].
  destruct (_ || _); [by apply Hret|]. cbn [cs_reg cs_mem with_mem].
  destruct (check_open_params_inv (cs_reg k) no_refs m1 context oper HI) as
    (R1 & r1 & -> & HI1 & Hf1 & Es1 & Hr1); [by rewrite Em|]. rewrite ret_bind.
  destruct (Z.eqb_spec r1 TEEC_SUCCESS) as [->|_]; cbn [negb]; [|by apply Hret].
  destruct (Hr1 eq_refl) as [Hdev _]. cbn [cs_reg cs_mem with_mem with_reg].
  destruct (proc_teek_encode _ _ _) as [c r2] eqn:Ec. apply encode_keeps in Ec. simpl in Ec.
  destruct (Z.eqb_spec r2 TEEC_SUCCESS) as [->|_]; cbn [negb]; [|by apply Hret].
  destruct (teek_get_app _ _ _) as [[[[m2 vm2] buf] len] r3] eqn:Eg.
  apply (get_app_got _ _ _ _ _ _ _ _ _ Happ) in Eg.
  destruct (Z.eqb_spec r3 TEEC_SUCCESS) as [->|Hr3]; cbn [negb].
  2: { apply Hret; try done. by rewrite (ag_failed _ _ _ _ _ _ _ _ Eg Hr3). }
  set (k2 := with_mem _ m2). assert (tctx_dev (cs_mem k2) context = tctx_dev (cs_mem k) context) as E2.
  { simpl. by rewrite (ag_context _ _ _ _ _ _ _ _ Eg). }
  set (c2 := ctx_with_token _ _ _).
  destruct (open_switch_inv k2 g L context session dest c2 TEEC_ORIGIN_API)
    as (k3 & c3 & r & o & -> & Efile & Hk3); try done.
  { by eapply shares_frame. }
  { unfold few_devs in *. simpl. by rewrite (fr_devs _ _ Hf1). }
  { rewrite E2. eapply slot_frame_live; [done|]. apply Hd. by rewrite <- Em. }
  { by eapply fresh_frame. }
  { apply (ag_len _ _ _ _ _ _ _ _ Eg). }
  { by apply Hu. }
  rewrite ret_bind, Efile. rewrite E2 in Hk3.
  destruct (open_set_ori_inv k k3 vm vm2 L context session (tctx_dev (cs_mem k) context)
    (kz_session g) (Some dest) r return_origin o true buf) as (k' & E & Hk).
  - by eapply free_app_block.
  - by apply (opened_before k k2).
  - by exists k', r.
Qed.

(** ** Closing and invoking *)

Definition session_request (k : state) (session : Z) : Prop :=
  tses_context (cs_mem k) session ≠ 0 →
  tctx_dev (cs_mem k) (tses_context (cs_mem k) session) ≠ 0 →
  is_Some (g_devs (cs_reg k) !! tctx_dev (cs_mem k) (tses_context (cs_mem k) session)).

Lemma restored_same (k : state) L :
  reg_inv (cs_reg k) no_refs → shares_ok (cs_reg k) → ba_owns (cs_pool k) L → restored k k no_refs L.
Proof. by split. Qed.

(** Closing removes the session the structure names and clears the structure,
    or changes no session. *)
Lemma teek_close_inv (k : state) L session :
  reg_inv (cs_reg k) no_refs → shares_ok (cs_reg k) → few_devs (cs_reg k) →
  ba_owns (cs_pool k) L → session_request k session →
  ∃ k', teek_close_session fuel k session = Ret (Some k') ∧ restored k k' no_refs L ∧
    (all_keys (cs_reg k) (cs_reg k') ∨
     ∃ q, session_open (cs_reg k) (tctx_dev (cs_mem k) (tses_context (cs_mem k) session)) q
            (tses_service_id (cs_mem k) session) (tses_session_id (cs_mem k) session) ∧
       same_keys q (cs_reg k) (cs_reg k') ∧ g_sessions (cs_reg k') !! q = None ∧
       load_bytes (cs_mem k') session 56 = replicate 56 0).
Proof.
  intros HI Hsh Hf Ho Hq. unfold teek_close_session.
  destruct (is_close_sess_param_valid _ _) eqn:Ev; cbn [negb].
  2: { exists k. split; [done|]. split; [by apply restored_same|by left]. }
  unfold is_close_sess_param_valid in Ev.
  rewrite negb_true_iff, !orb_false_iff, !Z.eqb_neq in Ev. destruct Ev as [[_ Hc] Hd].
  set (c := ctx_with_token _ _ _).
  destruct (close_session_inv fuel Hfuel k no_refs L (tctx_dev (cs_mem k) (tses_context (cs_mem k) session)) c)
    as (k1 & ret & -> & Hr & Hno & Hyes); try done.
  { by apply few_small. }
  { by apply Hq. }
  rewrite ret_bind. destruct (nonzero ret) eqn:En; cbn [negb].
  - apply nonzero_true in En. eexists. split; [done|]. split; [done|]. left. by apply Hno.
  - apply nonzero_false in En. destruct (Hyes En) as (q & Hq1 & Hq2 & Hq3). eexists. split; [done|].
    split; [by apply restored_mem|]. right. exists q. split_and!; try done.
    cbn [cs_mem with_mem]. unfold clear_teec_session. by apply load_stored.
Qed.

(** Invoking a command returns and keeps every session. *)
Lemma teek_invoke_inv (k : state) L session cmd_id oper return_origin :
  reg_inv (cs_reg k) no_refs → shares_ok (cs_reg k) → few_devs (cs_reg k) →
  ba_owns (cs_pool k) L → session_request k session →
  ∃ k' ret, teek_invoke_command fuel k session cmd_id oper return_origin = Ret (Some (k', ret)) ∧
    restored k k' no_refs L ∧ all_keys (cs_reg k) (cs_reg k').
Proof.
  intros HI Hsh Hf Ho Hq. unfold teek_invoke_command.
  assert (∀ (k1 : state) o r, restored k k1 no_refs L → all_keys (cs_reg k) (cs_reg k1) →
    ∃ k' ret, Ret (Some (invoke_set_ori k1 return_origin o r)) = Ret (Some (k', ret)) ∧
      restored k k' no_refs L ∧ all_keys (cs_reg k) (cs_reg k')) as Hret.
  { intros k1 o r Hr Hk. unfold invoke_set_ori. destruct (nonzero r); eexists _, _; (split; [done|]);
      (split; [|done]); [by apply restored_mem|done]. }
  pose proof (restored_same k L HI Hsh Ho) as Hr0.
  destruct (_ || _) eqn:Ev; [by apply Hret|]. rewrite orb_false_iff, !Z.eqb_neq in Ev.
  destruct (nonzero (teek_check_operation _ _)); [by apply Hret|].
  destruct (if oper =? 0 then _ else _) as [c r1]. destruct (nonzero r1); [by apply Hret|].
  unfold proc_invoke_cmd.
  destruct (decide (tctx_dev (cs_mem k) (tses_context (cs_mem k) session) = 0)) as [E0|Hd].
  { rewrite E0. by apply Hret. }
  destruct (send_cmd_inv fuel Hfuel k no_refs L (tctx_dev (cs_mem k) (tses_context (cs_mem k) session))
    (ctx_with_token c (tses_token session) TOKEN_SAVE_LEN)) as (k1 & x & ret & -> & Hr & Hk); try done.
  { by apply few_small. }
  { apply Hq; [apply Ev|done]. }
  rewrite ret_bind. destruct (negb (nonzero ret)); [rewrite ret_bind; by apply Hret|].
  destruct (ret <? 0); rewrite ret_bind; by apply Hret.
Qed.

End Opening.
