(* ===== verification/TeekClaims.v ===== *)
(** * What the client API for kernel code guarantees *)

From stdpp Require Import base gmap list.
From Stdlib Require Import ZArith Lia.
From S2P Require Import Prelude KernelApi TeeTypes Buffers Mailbox MailboxClaims SessReg.
From S2P Require Import SessLookup SessOk CallTypes Auth AuthCall AuthOk GpParams GpCall GpHeld.
From S2P Require Import GpAlloc GpCallThm GpClaims Tlogger TloggerSys Agent AgentReg AgentThm AgentClaims.
From S2P Require Import TeecdAuth TeecdClaims SessLoad SessMgr SessInv SessInvOps SessInvFind.
From S2P Require Import SessMgrThm SessUse Login ShareMem ShareMemClaims Driver DevClose DriverThm.
From S2P Require Import AuthCipher DriverSteps DriverClaims Teek TeekThm.

(** ** Encoding *)

(** The parameter types of the client API, by what the parameter holds. *)
Definition temporary_types : list Z :=
  [TEEC_MEMREF_TEMP_INPUT; TEEC_MEMREF_TEMP_OUTPUT; TEEC_MEMREF_TEMP_INOUT].
Definition reference_types : list Z :=
  [TEEC_MEMREF_PARTIAL_INPUT; TEEC_MEMREF_PARTIAL_OUTPUT; TEEC_MEMREF_PARTIAL_INOUT].
Definition value_types : list Z := [TEEC_VALUE_INPUT; TEEC_VALUE_OUTPUT; TEEC_VALUE_INOUT].
Definition ion_types : list Z := [TEEC_ION_INPUT; TEEC_ION_SGLIST_INPUT].

(** What the driver is told of the parameter at [p] of type [ty]. *)
Record param_encoded (m : mem) (p ty : Z) (x : tc_ns_client_param * Z) : Prop := {
  en_temporary : ty ∈ temporary_types →
    x = (ClientParam (tmpref_buffer m p) 0 (p + 8), ty) ∧ tmpref_buffer m p ≠ 0 ∧ tmpref_size m p ≠ 0;
  en_reference : ty ∈ reference_types →
    part_encoded m p ty x ∧ parent_buffer m (memref_parent m p) ≠ 0 ∧
    memref_offset m p + ref_size m p ≤ parent_size m (memref_parent m p);
  en_value : ty ∈ value_types → x = (ClientParam p (p + 4) 0, ty);
  en_ion : ty ∈ ion_types → x = (ClientParam p (p + 4) 0, ty);
  en_types : ty ∈ TEEC_NONE :: temporary_types ++ reference_types ++ value_types ++ ion_types
}.

Lemma tmp_cases ty : is_tmp_mem ty = true → ty = 5 ∨ ty = 6 ∨ ty = 7.
Proof. unfold is_tmp_mem. rewrite !orb_true_iff, !Z.eqb_eq. tauto. Qed.

Lemma ref_cases ty : is_ref_mem ty = true → ty = 13 ∨ ty = 14 ∨ ty = 15.
Proof. unfold is_ref_mem. rewrite !orb_true_iff, !Z.eqb_eq. tauto. Qed.

Lemma type_get_range x i : 0 ≤ teec_param_type_get x i < 16.
Proof. unfold teec_param_type_get. change 0x0F with (Z.ones 4). rewrite Z.land_ones by lia. by apply Z.mod_pos_bound. Qed.

Lemma type_get_u32 x i : 0 ≤ i < 4 → teec_param_type_get (u32 x) i = teec_param_type_get x i.
Proof.
  intros Hi. unfold teec_param_type_get, u32. change 0x0F with (Z.ones 4).
  rewrite Z.shiftl_mul_pow2 by lia. apply Z.bits_inj'. intros n Hn.
  rewrite !Z.land_spec. destruct (decide (n < 4)).
  - rewrite !Z.shiftr_spec by lia. rewrite Z.mod_pow2_bits_low by lia. done.
  - rewrite Z.ones_spec_high by lia. by rewrite !andb_false_r.
Qed.

Lemma type_in ty l : existsb (Z.eqb ty) l = true ↔ ty ∈ l.
Proof.
  rewrite existsb_exists, list_elem_of_In. split.
  - by intros (x & Hx & ->%Z.eqb_eq).
  - intros H. exists ty. split; [done|]. apply Z.eqb_refl.
Qed.

Lemma checked_param_encoded m oper idex ty x :
  bytes_mem m → check_param_at m oper idex ty = TEEC_SUCCESS →
  encode_param_at m oper idex ty = Some x → param_encoded m (param_addr oper idex) ty x.
Proof.
  intros Hm Hc He. unfold check_param_at, encode_param_at in *.
  destruct (is_tmp_mem ty) eqn:Et.
  - injection He as <-. unfold teek_check_tmp_mem in Hc. destruct (_ || _) eqn:E; [done|].
    rewrite orb_false_iff, !Z.eqb_neq in E. destruct E.
    destruct (tmp_cases ty Et) as [->|[->| ->]]; (split; [by intros _|..]; by rewrite <- type_in).
  - destruct (is_ref_mem ty) eqn:Er.
    + injection He as <-. pose proof (encode_part_ok m oper idex ty Er) as Hp.
      unfold teek_check_ref_mem in Hc. destruct (_ || _) eqn:E; [done|].
      rewrite orb_false_iff, !Z.eqb_neq in E. destruct E. destruct (negb _); [done|].
      assert (is_partical_mem ty = true) as Epm by done. rewrite Epm in Hc.
      destruct (is_offset_invalid _ _) eqn:Eo; [done|].
      apply offset_invalid_spec in Eo; [|done].
      destruct (ref_cases ty Er) as [->|[->| ->]]; (split; [|by intros _|..]; by rewrite <- type_in).
    + destruct (is_val_param ty) eqn:Ev.
      * injection He as <-. unfold is_val_param in Ev. rewrite !orb_true_iff, !Z.eqb_eq in Ev.
        destruct Ev as [[[[->| ->]| ->]| ->]| ->]; split; by rewrite <- type_in.
      * destruct (is_ion_param ty) eqn:Ei.
        { exfalso. unfold is_ion_param, is_val_param in *. rewrite !orb_false_iff in Ev.
          destruct Ev as [[_ E1] E2]. by rewrite E1, E2 in Ei. }
        destruct (Z.eqb_spec ty TEEC_NONE) as [->|]; [|done].
        split; by rewrite <- type_in.
Qed.

Lemma encoded_type_range m oper idex ty x :
  0 ≤ ty < 16 → encode_param_at m oper idex ty = Some x → 0 ≤ x.2 < 16.
Proof.
  intros Hty. unfold encode_param_at. destruct (is_tmp_mem ty); [by intros [= <-]|].
  destruct (is_ref_mem ty) eqn:Er.
  - intros [= <-]. pose proof (encode_part_ok m oper idex ty Er) as Hp.
    destruct (parent_is_allocated m (memref_parent m (param_addr oper idex))) eqn:Ea.
    + by rewrite (pe_allocated _ _ _ _ Hp Ea).
    + destruct (pe_temporary _ _ _ _ Hp Ea) as [_ [Ht _]]. destruct (tmp_cases _ Ht) as [->|[->| ->]]; lia.
  - by destruct (is_val_param ty), (is_ion_param ty), (ty =? TEEC_NONE); intros [= <-].
Qed.

(** C26. An operation that passes [teek_check_operation] is encoded, and every
    parameter of it has one of the types of the client API.  What the driver is
    told of a parameter other than an ION buffer is what the client described:
    a temporary buffer with its size word; a value by the addresses of its two
    words; a reference as [offset] bytes into its parent, with the client's
    size, all of it inside the parent whatever the [size_t] sums do, and as a
    temporary buffer of the same direction if the driver did not allocate the
    parent.  An ION buffer is encoded as if it were a value, which is not what
    the client described: the driver looks for its size at offset 4 instead
    of 8. *)
Theorem teek_encode_in_bounds m c oper :
  bytes_mem m → oper ≠ 0 → teek_check_operation m oper = TEEC_SUCCESS →
  ∃ c', proc_teek_encode m c oper = (c', TEEC_SUCCESS) ∧
    ∀ i, 0 ≤ i < 4 → ∃ x, ctx_params c' !! Z.to_nat i = Some x ∧
      param_encoded m (param_addr oper i) (teec_param_type_get (toper_paramtypes m oper) i)
        (x, teec_param_type_get (ctx_param_types c') i).
Proof.
  intros Hm Ho. unfold teek_check_operation. rewrite (proj2 (Z.eqb_neq oper 0)) by done.
  destruct (toper_started m oper =? 0); [done|]. rewrite check_loop_spec. intros Hc.
  destruct (encode_loop_ok m oper [0; 1; 2; 3]) as (xs & E & HF).
  { eapply Forall_impl; [exact Hc|]. intros i. apply check_param_encodes. }
  unfold proc_teek_encode. rewrite E. eexists. split; [done|]. intros i Hi.
  destruct xs as [|x0 [|x1 [|x2 [|x3 [|]]]]]; try by (exfalso; apply Forall2_length in HF).
  assert (i ∈ [0; 1; 2; 3]) as [n Hn]%list_elem_of_lookup by (rewrite !elem_of_cons; lia).
  assert (n = Z.to_nat i) as ->.
  { do 4 (destruct n as [|n]; [injection Hn as <-; done|]). done. }
  destruct (Forall2_lookup_l _ _ _ _ _ HF Hn) as (x & Hx & Ex).
  assert (∀ j y, [x0; x1; x2; x3] !! j = Some y → 0 ≤ y.2 < 16) as Hr.
  { intros j y Hj. destruct (Forall2_lookup_r _ _ _ _ _ HF Hj) as (a & _ & Ea).
    eapply encoded_type_range; [apply type_get_range|exact Ea]. }
  exists x.1. cbn [ctx_with_encoded ctx_params ctx_with_types ctx_with_params ctx_param_types].
  rewrite list_lookup_fmap, Hx. split; [done|]. rewrite type_get_u32 by done. simpl nth.
  pose proof (teec_param_type_get_pack x0.2 x1.2 x2.2 x3.2 i) as Hp.
  assert ([x0.2; x1.2; x2.2; x3.2] !! Z.to_nat i = Some x.2) as Hx2.
  { change [x0.2; x1.2; x2.2; x3.2] with (snd <$> [x0; x1; x2; x3]). by rewrite list_lookup_fmap, Hx. }
  rewrite Hx2 in Hp. specialize (Hp (Hr 0%nat _ eq_refl) (Hr 1%nat _ eq_refl)
    (Hr 2%nat _ eq_refl) (Hr 3%nat _ eq_refl) Hi). injection Hp as <-.
  rewrite <- surjective_pairing. apply checked_param_encoded; [done| |done].
  by apply (proj1 (Forall_lookup _ _) Hc _ _ Hn).
Qed.

(** ** Sessions *)

Section Claims.
Context {Env St : Type} {BA : BlockAllocator St} {BAL : BlockAllocatorLaws St BA}.
Context {SMC : SmcChannel Env} {TB : TeeBehaviour Env SMC}.
Context {P : PageMap} {SC : SecureC} {SB : SecureBuf} {CM : ClientMem} {UA : UserAccess}.
Context {KR : KernelRandom} {KC : KernelCipher} {KA : KernelAlloc} {CU : Current}.
Context {VV : VirtValid} {VL : VirtValidLaws St BA VV} {CR : Caller} {DL : DevLayout}.
Context {AF : AppFiles}.
Context (fuel : nat) (g_root : session_crypto_info).

Abbreviation state := (call_state Env St).

(** C25. Opening a session for a kernel client is all or nothing.  Whatever
    fails (the parameters, the login data, the encoding, the image file, the
    driver, the TEE), the attempt returns, every image buffer it allocated is
    freed, the counters of the registry stay exact and all other sessions keep
    their id, owner and count.  Either the new session is open in the registry
    and the client's structure holds its id, the uuid and the context, or no
    session was left behind.  A status other than [TEEC_CLIENT_INTR] is the
    result of [teek_open_session] without another attempt. *)
Theorem teek_open_all_or_nothing (k : state) vm gs L context session destination method oper
    return_origin :
  tee_bounded fuel → reg_inv (cs_reg k) no_refs → shares_ok (cs_reg k) → few_devs (cs_reg k) →
  ba_owns (cs_pool k) L →
  open_request k vm (gs 4%nat (cs_reg k)) context return_origin destination →
  ∃ k' ret, proc_teek_open_session fuel g_root k vm (gs 4%nat (cs_reg k)) context session
      destination method oper return_origin = Ret (Some (k', vm, ret)) ∧
    kernel_opened k k' L context session (tctx_dev (cs_mem k) context)
      (kz_session (gs 4%nat (cs_reg k))) destination ret ∧
    (ret ≠ TEEC_CLIENT_INTR → teek_open_session fuel g_root k vm gs context session destination
       method oper return_origin = Ret (Some (k', vm, ret))).
Proof.
  intros Hf HI Hsh Hfew Ho Hreq.
  destruct (proc_teek_open_inv fuel g_root Hf k vm (gs 4%nat (cs_reg k)) L context session destination
    method oper return_origin) as (k' & ret & E & Hk); try done.
  exists k', ret. split; [done|]. split; [done|]. intros Hr.
  unfold teek_open_session, RETRY_TIMES. cbn [open_retry]. rewrite E, ret_bind.
  by rewrite (proj2 (Z.eqb_neq _ _) Hr).
Qed.

(** C30. Closing a session of a kernel client returns whatever the TEE answers:
    either exactly the session the structure names is gone and the structure is
    cleared, or no session changed; a command leaves every session as it was.
    Both keep the registry's counters exact and the mailbox as it was. *)
Theorem teek_close_and_invoke (k : state) L session cmd_id oper return_origin :
  tee_bounded fuel → reg_inv (cs_reg k) no_refs → shares_ok (cs_reg k) → few_devs (cs_reg k) →
  ba_owns (cs_pool k) L → session_request k session →
  (∃ k', teek_close_session fuel k session = Ret (Some k') ∧ restored k k' no_refs L ∧
    (all_keys (cs_reg k) (cs_reg k') ∨
     ∃ q, session_open (cs_reg k) (tctx_dev (cs_mem k) (tses_context (cs_mem k) session)) q
            (tses_service_id (cs_mem k) session) (tses_session_id (cs_mem k) session) ∧
       same_keys q (cs_reg k) (cs_reg k') ∧ g_sessions (cs_reg k') !! q = None ∧
       load_bytes (cs_mem k') session 56 = replicate 56 0)) ∧
  (∃ k' ret, teek_invoke_command fuel k session cmd_id oper return_origin = Ret (Some (k', ret)) ∧
    restored k k' no_refs L ∧ all_keys (cs_reg k) (cs_reg k')).
Proof.
  intros Hf HI Hsh Hfew Ho Hq. split; [by apply teek_close_inv|by apply teek_invoke_inv].
Qed.

End Claims.

(** ** Parameters the API cannot pass *)

(** A reference to a whole shared buffer is refused before the code that is
    written for it is reached. *)
Lemma whole_reference_refused m oper idex :
  check_param_at m oper idex TEEC_MEMREF_WHOLE = TEEC_ERROR_BAD_PARAMETERS ∧
  encode_param_at m oper idex TEEC_MEMREF_WHOLE = None.
Proof. done. Qed.

(** An ION parameter is taken for a value: its descriptor is not checked, and
    the driver is told the word at offset 4, where the structure has padding,
    instead of the size at offset 8. *)
Lemma ion_parameter_misread m oper idex ty :
  is_ion_param ty = true →
  check_param_at m oper idex ty = TEEC_SUCCESS ∧
  encode_param_at m oper idex ty
    = Some (ClientParam (param_addr oper idex) (param_addr oper idex + 4) 0, ty).
Proof.
  unfold is_ion_param. rewrite orb_true_iff, !Z.eqb_eq. by intros [->| ->].
Qed.

(** ** A client with one operation *)

Lemma bytes_of_map (m : mem) : map_Forall (λ _ b, is_byte b) m → bytes_mem m.
Proof.
  intros Hm a n. revert a. induction n as [|n IH]; intros a; [constructor|].
  cbn [load_bytes]. constructor; [|done]. unfold load_byte.
  destruct (m !! a) as [b|] eqn:E; [exact (Hm a b E)|]. unfold is_byte. simpl. lia.
Qed.

Lemma store_map_bytes (m : mem) a l :
  map_Forall (λ _ b, is_byte b) m → Forall is_byte l → map_Forall (λ _ b, is_byte b) (store_bytes m a l).
Proof.
  revert m a. induction l as [|b l IH]; intros m a Hm Hl; [done|].
  apply Forall_cons in Hl as [Hb Hl]. apply IH; [|done]. by apply map_Forall_insert_2.
Qed.

(** An operation at 4096: a value, a reference to 8 bytes at offset 4 of a
    buffer of 16 bytes, the uuid of the caller and its name as temporary
    buffers; the shared buffer's structure is at 5120, the context at 6144. *)
Definition client_bytes : list Z :=
  le_bytes 4 1 ++ le_bytes 4 (teec_param_types 1 13 5 5)
  ++ le_bytes 8 7 ++ replicate 16 0
  ++ le_bytes 8 5120 ++ le_bytes 8 8 ++ le_bytes 8 4
  ++ le_bytes 8 7168 ++ le_bytes 8 4 ++ replicate 8 0
  ++ le_bytes 8 7424 ++ le_bytes 8 3 ++ replicate 8 0.

Definition client_memory : mem :=
  store_bytes (store_bytes (store_bytes ∅ 4096 client_bytes)
    5120 (le_bytes 8 8192 ++ le_bytes 8 16 ++ le_bytes 8 3 ++ [0]))
    6144 (le_bytes 8 1000 ++ le_bytes 8 0).

Lemma client_memory_bytes : bytes_mem client_memory.
Proof.
  apply bytes_of_map. unfold client_memory.
  repeat apply store_map_bytes; [apply map_Forall_empty|..];
    repeat apply Forall_app_2; try apply le_bytes_are_bytes;
    try (apply Forall_replicate; unfold is_byte; lia).
  apply Forall_singleton. unfold is_byte. lia.
Qed.

Lemma teek_encode_in_bounds_witness :
  ∃ c', proc_teek_encode client_memory demo_open_context 4096 = (c', TEEC_SUCCESS) ∧
    memref_offset client_memory (param_addr 4096 1) + ref_size client_memory (param_addr 4096 1)
      ≤ parent_size client_memory (memref_parent client_memory (param_addr 4096 1)) ∧
    ctx_params c' !! 1%nat = Some (ClientParam 8196 0 4136) ∧
    teec_param_type_get (ctx_param_types c') 1 = TEEC_MEMREF_TEMP_INPUT.
Proof.
  destruct (teek_encode_in_bounds client_memory demo_open_context 4096) as (c' & E & H);
    [exact client_memory_bytes|done|vm_compute; reflexivity|].
  exists c'. split; [exact E|].
  destruct (H 1 ltac:(lia)) as (x & _ & Hx).
  assert (teec_param_type_get (toper_paramtypes client_memory 4096) 1 ∈ reference_types) as Ht
    by (apply type_in; vm_compute; reflexivity).
  split; [exact (proj2 (proj2 (en_reference _ _ _ _ Hx Ht)))|].
  assert (c' = (proc_teek_encode client_memory demo_open_context 4096).1) as -> by (by rewrite E).
  split; vm_compute; reflexivity.
Defined.

Section Demo.
#[local] Existing Instance linear_map.
#[local] Existing Instance boundscheck.
#[local] Existing Instance bounds_buf.
#[local] Existing Instance flat_client.
#[local] Existing Instance patient_tee.
#[local] Existing Instance demo_random.
#[local] Existing Instance xor_cipher.
#[local] Existing Instance demo_alloc_ok_all.
#[local] Existing Instance demo_current.
#[local] Existing Instance linear_valid.
#[local] Existing Instance root_caller.
#[local] Existing Instance demo_access_ok.
#[local] Existing Instance demo_layout.

(** Every file holds one block; [vmalloc] always returns the same address. *)
#[local] Instance demo_files : AppFiles :=
  {| app_file _ _ := Some [1; 2; 3]; vfs_read file n := (take (Z.to_nat n) file, zlen file);
     vmalloc n := 65536 |}.

(** A device file that kernel code opened. *)
Definition kernel_dev : tc_ns_dev_file :=
  DevFile 1 (service_ref open_dev) (services open_dev) TEE_REQ_FROM_KERNEL_MODE true 0
    (replicate 255 0) 0 [] 0 [].

Definition client_registry : registry := upd_dev open_registry 1000 kernel_dev.

Lemma client_registry_inv : reg_inv client_registry no_refs.
Proof. by apply (inv_dev_data _ _ 1000 open_dev); [apply open_registry_inv|..]. Qed.

Lemma client_registry_shares : shares_ok client_registry.
Proof.
  eapply shares_frame; [|exact open_registry_shares]. by apply (upd_dev_frame _ 1000 open_dev).
Qed.

Definition client_state : call_state nat mailbox :=
  CallState 0%nat demo_pool client_memory client_registry demo_op INVALID_TZMP_UID.

Lemma client_request :
  open_request client_state ∅ (demo_gives true) 6144 8000 (Some demo_uuid).
Proof.
  split.
  - intros _. eexists. vm_compute. reflexivity.
  - left. lia.
  - split; [intros _|]; reflexivity.
  - split; simpl.
    + intros _ _. set_solver.
    + intros n _. unfold apart. left. lia.
    + intros file n. unfold zlen. rewrite length_take. lia.
  - by intros dest [= <-].
Qed.

Lemma teek_open_all_or_nothing_witness :
  ∃ k' ret, proc_teek_open_session 2 demo_root client_state ∅ (demo_gives true) 6144 6400
      (Some demo_uuid) TEEC_LOGIN_IDENTIFY 4096 8000 = Ret (Some (k', ∅, ret)) ∧
    restored client_state k' no_refs ∅.
Proof.
  destruct (teek_open_all_or_nothing 2 demo_root client_state ∅ (λ _ _, demo_gives true) ∅ 6144 6400
    (Some demo_uuid) TEEC_LOGIN_IDENTIFY 4096 8000) as (k' & ret & E & Hk & _);
    [exact (λ _ _ _ _, le_n 2)|exact client_registry_inv|exact client_registry_shares|reflexivity
    |exact demo_pool_owns|exact client_request|].
  exists k', ret. split; [exact E|exact (ko_restored _ _ _ _ _ _ _ _ _ Hk)].
Defined.

(** The client's structure names the session the registry holds. *)
Definition using_state : call_state nat mailbox :=
  with_mem client_state (set_teec_session client_memory 6400 5 demo_uuid 6144).

Lemma teek_close_and_invoke_witness :
  ∃ k' q, teek_close_session 2 using_state 6400 = Ret (Some k') ∧
    session_open client_registry 1000 q demo_uuid 5 ∧ g_sessions (cs_reg k') !! q = None ∧
    load_bytes (cs_mem k') 6400 56 = replicate 56 0.
Proof.
  destruct (teek_close_and_invoke 2 using_state ∅ 6400 9 4096 8000) as [(k' & E & _ & H) _];
    [exact (λ _ _ _ _, le_n 2)|exact client_registry_inv|exact client_registry_shares|reflexivity
    |exact demo_pool_owns|intros _ _; eexists; vm_compute; reflexivity|].
  destruct H as [H|(q & Hq & _ & Hq' & Hc)].
  - exfalso.
    assert (match teek_close_session 2 using_state 6400 with
            | Ret (Some k) => match g_sessions (cs_reg k) !! 3000 with None => true | _ => false end
            | _ => false end = true) as H0 by (vm_compute; reflexivity).
    rewrite E in H0. specialize (H 3000). destruct (g_sessions (cs_reg k') !! 3000); [done|].
    vm_compute in H. done.
  - exists k', q. split; [exact E|]. split; [|split; [exact Hq'|exact Hc]].
    vm_compute in Hq |- *. exact Hq.
Defined.

End Demo.
