(* ===== verification/Pm.v ===== *)
(** * Suspend to disk (core/tz_pm.c)

    Before the machine is hibernated the TEE's memory is encrypted, one buffer
    of 1 MiB after the other, and copied into kernel memory that becomes part
    of the image on disk; after the restore it is copied back and decrypted.

    [s4_maps] and [s4_blocks] are the areas [vmap] and [vmalloc] have handed
    out; releasing another address is [Fault], NULL is ignored. *)

From stdpp Require Import base gmap list.
From Stdlib Require Import ZArith Lia.
From S2P Require Import Prelude KernelApi Buffers.

Definition TSP_S4_SUSPEND : Z := 0xB200000C.
Definition TSP_S4_RESUME : Z := 0xB200000D.
Definition TSP_S4_ENCRYPT_AND_COPY : Z := 0xB2000010.
Definition TSP_S4_DECRYPT_AND_COPY : Z := 0xB2000011.

Definition S4_ADDR_4G : Z := 0xffffffff.
Definition RESERVED_SECOS_PHYMEM_BASE : Z := 0x22800000.
Definition RESERVED_SECOS_PHYMEM_SIZE : Z := 0x3000000.
Definition RESERVED_SECOS_S4_BASE : Z := 0x27760000.
Definition RESERVED_SECOS_S4_SIZE : Z := 0x100000.

(** The static variables, and the areas that are allocated. *)
Record s4_state := S4State {
  g_s4_kernel_mem_addr : Z;
  g_s4_buffer_vaddr : Z;
  g_s4_buffer_paddr : Z;
  g_s4_buffer_size : Z;
  s4_maps : gset Z;
  s4_blocks : gset Z
}.

(** [vmap pages] and [vmalloc_area n] are the addresses of new areas, 0 when
    there is none; [page_array_ok] tells whether [kzalloc] gives the array of
    page pointers, [phys_to_page a] is the page frame of a physical address. *)
Class VmArea := {
  vmap : list Z → Z;
  vmalloc_area : Z → Z;
  page_array_ok : bool;
  phys_to_page : Z → Z
}.

(** The two secure monitor calls.  [s4_power] suspends or resumes the drivers
    of the TEE; [s4_crypto] gets the operation, the address and the contents of
    the shared buffer, the address in the TEE's memory and an index, and gives
    the new contents. *)
Class S4Tee (Env : Type) := {
  s4_power : Env → Z → Env * Z;
  s4_crypto : Env → Z → Z → Z → Z → Z → list Z → Env * list Z * Z
}.

Section Pm.
Context {Env : Type} {S4 : S4Tee Env} {VA : VmArea} {SC : SecureC}.

(** The address and the areas that are mapped. *)
Definition tc_vmap (st : s4_state) (paddr size : Z) : s4_state * Z :=
  let offset := paddr mod PAGE_SIZE in
  let paddr := paddr - offset in
  let pages_count := u32 ((size + offset + PAGE_SIZE - 1) / PAGE_SIZE) in
  if negb page_array_ok then (st, 0)
  else
    let vaddr := vmap ((λ i, phys_to_page (paddr + PAGE_SIZE * i)) <$> seqZ 0 pages_count) in
    if vaddr =? 0 then (st, 0)
    else
      (S4State (g_s4_kernel_mem_addr st) (g_s4_buffer_vaddr st) (g_s4_buffer_paddr st)
         (g_s4_buffer_size st) ({[ vaddr ]} ∪ s4_maps st) (s4_blocks st),
       offset + vaddr).

Definition set_s4_buffer (st : s4_state) (vaddr paddr size : Z) : s4_state :=
  S4State (g_s4_kernel_mem_addr st) vaddr paddr size (s4_maps st) (s4_blocks st).

Definition vunmap (st : s4_state) (addr : Z) : outcome s4_state :=
  if addr =? 0 then Ret st
  else if decide (addr ∈ s4_maps st)
  then Ret (S4State (g_s4_kernel_mem_addr st) (g_s4_buffer_vaddr st) (g_s4_buffer_paddr st)
              (g_s4_buffer_size st) (s4_maps st ∖ {[ addr ]}) (s4_blocks st))
  else Fault.

Definition vfree (st : s4_state) (addr : Z) : outcome s4_state :=
  if addr =? 0 then Ret st
  else if decide (addr ∈ s4_blocks st)
  then Ret (S4State (g_s4_kernel_mem_addr st) (g_s4_buffer_vaddr st) (g_s4_buffer_paddr st)
              (g_s4_buffer_size st) (s4_maps st) (s4_blocks st ∖ {[ addr ]}))
  else Fault.

(** The state, [*kernel_mem_addr] and the status. *)
Definition tc_s4_alloc_crypto_buffer (st : s4_state) : outcome (s4_state * Z * Z) :=
  if S4_ADDR_4G <? RESERVED_SECOS_S4_BASE then Ret (st, 0, - EFAULT)
  else
    let '(st, vaddr) := tc_vmap st RESERVED_SECOS_S4_BASE RESERVED_SECOS_S4_SIZE in
    if vaddr =? 0
    then Ret (set_s4_buffer st 0 (g_s4_buffer_paddr st) (g_s4_buffer_size st), 0, - EFAULT)
    else
      let st := set_s4_buffer st vaddr RESERVED_SECOS_S4_BASE RESERVED_SECOS_S4_SIZE in
      let block := vmalloc_area RESERVED_SECOS_PHYMEM_SIZE in
      if block =? 0 then
        st ← vunmap st (g_s4_buffer_vaddr st);
        Ret (set_s4_buffer st 0 0 0, 0, - ENOMEM)
      else
        Ret (S4State (g_s4_kernel_mem_addr st) (g_s4_buffer_vaddr st) (g_s4_buffer_paddr st)
               (g_s4_buffer_size st) (s4_maps st) ({[ block ]} ∪ s4_blocks st), block, 0).

Definition tc_s4_suspend_or_resume (e : Env) (power_op : Z) : Env * Z := s4_power e power_op.

(** The kernel sees the buffer at physical address [middle_mem_addr] at the
    address of its mapping, [vaddr]. *)
Definition tc_s4_crypto_and_copy (e : Env) (m : mem) (vaddr crypt_op middle_mem_addr secos_mem
    size index : Z) : Env * mem * Z :=
  let '(e, l, ret) :=
    s4_crypto e crypt_op middle_mem_addr secos_mem size index (load_bytes m vaddr (Z.to_nat size)) in
  (e, store_bytes m vaddr l, ret).

(** One buffer: before the call, and after it. *)
Definition copy_for_decrypt (st : s4_state) (m : mem) (kernel_mem_addr copied_size crypt_op : Z)
    : Z * mem :=
  if crypt_op =? TSP_S4_DECRYPT_AND_COPY
  then memcpy_s (g_s4_buffer_vaddr st) (g_s4_buffer_size st) (kernel_mem_addr + copied_size)
         (g_s4_buffer_size st) m
  else (EOK, m).

Definition copy_for_encrypt (st : s4_state) (m : mem) (kernel_mem_addr copied_size crypt_op : Z)
    : Z * mem :=
  if crypt_op =? TSP_S4_ENCRYPT_AND_COPY
  then memcpy_s (kernel_mem_addr + copied_size) (g_s4_buffer_size st) (g_s4_buffer_vaddr st)
         (g_s4_buffer_size st) m
  else (EOK, m).

(** [None] when the fuel runs out. *)
Fixpoint transfer_loop (fuel : nat) (e : Env) (m : mem) (st : s4_state)
    (kernel_mem_addr crypt_op copied_size index : Z) : option (Env * mem * Z) :=
  match fuel with
  | O => None
  | S fuel =>
      if RESERVED_SECOS_PHYMEM_SIZE <=? copied_size then Some (e, m, 0)
      else
        let '(r, m) := copy_for_decrypt st m kernel_mem_addr copied_size crypt_op in
        if negb (r =? EOK) then Some (e, m, - EFAULT)
        else
          let '(e, m, ret) :=
            tc_s4_crypto_and_copy e m (g_s4_buffer_vaddr st) crypt_op (g_s4_buffer_paddr st)
              (RESERVED_SECOS_PHYMEM_BASE + copied_size) (g_s4_buffer_size st) index in
          if nonzero ret then Some (e, m, - EFAULT)
          else
            let '(r, m) := copy_for_encrypt st m kernel_mem_addr copied_size crypt_op in
            if negb (r =? EOK) then Some (e, m, - EFAULT)
            else transfer_loop fuel e m st kernel_mem_addr crypt_op
                   (u32 (copied_size + g_s4_buffer_size st)) (u32 (index + 1))
  end.

(** 48 buffers make up the TEE's memory. *)
Definition transfer_fuel : nat := 49.

Definition tc_s4_transfer_data (e : Env) (m : mem) (st : s4_state) (kernel_mem_addr crypt_op : Z)
    : option (Env * mem * Z) :=
  transfer_loop transfer_fuel e m st kernel_mem_addr crypt_op 0 0.

(** The label [free_resource]. *)
Definition s4_free_resource (st : s4_state) (kernel_mem_addr : Z) : outcome s4_state :=
  st ← vunmap st (g_s4_buffer_vaddr st);
  st ← vfree st kernel_mem_addr;
  Ret (S4State 0 0 0 0 (s4_maps st) (s4_blocks st)).

Definition set_s4_kernel_mem (st : s4_state) (addr : Z) : s4_state :=
  S4State addr (g_s4_buffer_vaddr st) (g_s4_buffer_paddr st) (g_s4_buffer_size st) (s4_maps st)
    (s4_blocks st).

Abbreviation result := (outcome (option (Env * mem * s4_state * Z))).

(** From the notification of the TEE on, with the buffers in place. *)
Definition s4_transfer (e : Env) (m : mem) (st : s4_state) (kernel_mem_addr power_op crypt_op : Z)
    : result :=
  let failed e m ret :=
    st ← s4_free_resource st kernel_mem_addr; Ret (Some (e, m, st, ret)) in
  let '(e, ret) :=
    if power_op =? TSP_S4_SUSPEND then tc_s4_suspend_or_resume e power_op else (e, 0) in
  if nonzero ret then failed e m (- EFAULT)
  else
    match tc_s4_transfer_data e m st kernel_mem_addr crypt_op with
    | None => Ret None
    | Some (e, m, ret) =>
        if nonzero ret then failed e m ret
        else if power_op =? TSP_S4_RESUME then
          let '(e, ret) := tc_s4_suspend_or_resume e power_op in
          failed e m (if nonzero ret then - EFAULT else 0)
        else Ret (Some (e, m, st, 0))
    end.

Definition tc_s4_pm_ops (e : Env) (m : mem) (st : s4_state) (power_op crypt_op : Z) : result :=
  if power_op =? TSP_S4_SUSPEND then
    '(st, kernel_mem_addr, ret) ← tc_s4_alloc_crypto_buffer st;
    if nonzero ret then Ret (Some (e, m, st, ret))
    else s4_transfer e m (set_s4_kernel_mem st kernel_mem_addr) kernel_mem_addr power_op crypt_op
  else s4_transfer e m st (g_s4_kernel_mem_addr st) power_op crypt_op.

Definition tc_s4_pm_suspend (e : Env) (m : mem) (st : s4_state) : result :=
  tc_s4_pm_ops e m st TSP_S4_SUSPEND TSP_S4_ENCRYPT_AND_COPY.

Definition tc_s4_pm_resume (e : Env) (m : mem) (st : s4_state) : result :=
  tc_s4_pm_ops e m st TSP_S4_RESUME TSP_S4_DECRYPT_AND_COPY.

End Pm.
