(* ===== verification/PmClaims.v ===== *)
(** * Suspend to disk: what survives

    What the TEE's memory held before the suspend is there after the resume,
    and whatever happens the buffers are released. *)

From stdpp Require Import base gmap list.
From Stdlib Require Import ZArith Lia.
From S2P Require Import Prelude KernelApi Buffers Pm.

(** ** The TEE

    Encryption and copy puts the encrypted memory into the shared buffer,
    decryption and copy puts it back; both work per buffer, under an index that
    has to be the same. *)
Class S4TeeLaws (Env : Type) (S4 : S4Tee Env) := {
  secure : Env → mem;
  s4_enc : Z → list Z → list Z;
  s4_dec : Z → list Z → list Z;
  s4_dec_enc i l : s4_dec i (s4_enc i l) = l;
  s4_enc_length i l : length (s4_enc i l) = length l;
  s4_power_works e op : ∃ e', s4_power e op = (e', 0) ∧ secure e' = secure e;
  s4_encrypts e pa a n i buf :
    ∃ e', s4_crypto e TSP_S4_ENCRYPT_AND_COPY pa a n i buf
        = (e', s4_enc i (load_bytes (secure e) a (Z.to_nat n)), 0) ∧ secure e' = secure e;
  s4_decrypts e pa a n i buf :
    ∃ e' l, s4_crypto e TSP_S4_DECRYPT_AND_COPY pa a n i buf = (e', l, 0) ∧
      length l = Z.to_nat n ∧ secure e' = store_bytes (secure e) a (s4_dec i buf)
}.

Lemma load_bytes_at m a n i :
  (i < n)%nat → load_bytes m a n !! i = Some (load_byte m (a + Z.of_nat i)).
Proof.
  revert a i. induction n as [|n IH]; intros a i Hi; [lia|]. destruct i as [|i]; cbn [load_bytes].
  - simpl. by rewrite Z.add_0_r.
  - simpl. rewrite IH by lia. do 2 f_equal. lia.
Qed.

Lemma load_bytes_byte m m' a n x :
  load_bytes m a n = load_bytes m' a n → a ≤ x < a + Z.of_nat n → load_byte m x = load_byte m' x.
Proof.
  intros E Hx. apply (f_equal (λ l, l !! Z.to_nat (x - a))) in E. simpl in E.
  rewrite !load_bytes_at in E by lia. injection E as E.
  by replace (a + Z.of_nat (Z.to_nat (x - a))) with x in E by lia.
Qed.

Section Transfer.
Context {Env : Type} {S4 : S4Tee Env} {SL : S4TeeLaws Env S4} {VA : VmArea}.
Context {SC : SecureC} {SCL : SecureCLaws SC}.

(** The buffers: [sz] bytes at [V] shared with the TEE, 48 times that at [K]. *)
Context (st : s4_state) (K sz : Z).
Abbreviation V := (g_s4_buffer_vaddr st).
Context (Hsz : g_s4_buffer_size st = sz) (Htot : RESERVED_SECOS_PHYMEM_SIZE = 48 * sz).
Context (Hmax : 0 < sz ≤ SECUREC_MEM_MAX_LEN) (HV : V ≠ 0) (HK : 0 < K).
Context (Hap : V + sz ≤ K ∨ K + 48 * sz ≤ V).

Abbreviation BASE := RESERVED_SECOS_PHYMEM_BASE.
Definition chunk (s : mem) (j : Z) : list Z := load_bytes s (BASE + j * sz) (Z.to_nat sz).

(** The first [k] buffers of the image hold the memory [s], encrypted. *)
Definition imaged (s m : mem) (k : Z) : Prop :=
  ∀ j, 0 ≤ j < k → load_bytes m (K + j * sz) (Z.to_nat sz) = s4_enc j (chunk s j).

Lemma chunk_length s j : length (chunk s j) = Z.to_nat sz.
Proof. apply load_bytes_length. Qed.

Lemma chunk_store s l j k :
  0 ≤ j → 0 ≤ k → length l = Z.to_nat sz →
  chunk (store_bytes s (BASE + k * sz) l) j = if decide (j = k) then l else chunk s j.
Proof.
  intros Hj Hk Hl. unfold chunk. destruct (decide (j = k)) as [->|Hne].
  - rewrite <- Hl. apply load_store_bytes.
  - apply load_store_bytes_outside. rewrite Hl. nia.
Qed.

Lemma copied_small k : 0 ≤ k < 48 → u32 (k * sz + sz) = (k + 1) * sz ∧ u32 (k + 1) = k + 1.
Proof.
  intros Hk. assert (RESERVED_SECOS_PHYMEM_SIZE < 2 ^ 32) by done. split; rewrite u32_small; nia.
Qed.

Lemma not_done k : 0 ≤ k < 48 → (RESERVED_SECOS_PHYMEM_SIZE <=? k * sz) = false.
Proof. intros Hk. apply Z.leb_gt. nia. Qed.

Lemma encrypt_step e m k :
  0 ≤ k < 48 → imaged (secure e) m k →
  ∃ e' m', secure e' = secure e ∧ imaged (secure e) m' (k + 1) ∧
    ∀ n, transfer_loop (S n) e m st K TSP_S4_ENCRYPT_AND_COPY (k * sz) k
      = transfer_loop n e' m' st K TSP_S4_ENCRYPT_AND_COPY ((k + 1) * sz) (k + 1).
Proof.
  intros Hk Him. destruct (copied_small k Hk) as [E1 E2].
  set (c := chunk (secure e) k). assert (length (s4_enc k c) = Z.to_nat sz) as Hl.
  { rewrite s4_enc_length. apply chunk_length. }
  destruct (s4_encrypts e (g_s4_buffer_paddr st) (BASE + k * sz) sz k
    (load_bytes m V (Z.to_nat sz))) as (e' & Ec & Es).
  fold (chunk (secure e) k) in Ec. fold c in Ec.
  set (m1 := store_bytes m V (s4_enc k c)).
  assert (load_bytes m1 V (Z.to_nat sz) = s4_enc k c) as Em1.
  { unfold m1. rewrite <- Hl. apply load_store_bytes. }
  exists e', (store_bytes m1 (K + k * sz) (s4_enc k c)). split; [done|]. split.
  - intros j Hj. destruct (decide (j = k)) as [->|Hne].
    + rewrite <- Hl. apply load_store_bytes.
    + rewrite load_store_bytes_outside by (rewrite Hl; nia). unfold m1.
      rewrite load_store_bytes_outside by (rewrite Hl; nia). apply Him. lia.
  - intros n. cbn [transfer_loop]. rewrite not_done by done.
    unfold copy_for_decrypt, copy_for_encrypt, tc_s4_crypto_and_copy. rewrite Hsz.
    change (TSP_S4_ENCRYPT_AND_COPY =? TSP_S4_DECRYPT_AND_COPY) with false.
    change (TSP_S4_ENCRYPT_AND_COPY =? TSP_S4_ENCRYPT_AND_COPY) with true. cbv iota.
    change (negb (EOK =? EOK)) with false. cbv iota. rewrite Ec. cbn [nonzero].
    change (nonzero 0) with false. cbv iota. fold m1.
    rewrite memcpy_s_ok by nia. rewrite Em1.
    change (negb (EOK =? EOK)) with false. cbv iota. by rewrite E1, E2.
Qed.

Lemma encrypt_loop n e m k :
  0 ≤ k → k + Z.of_nat n = 48 → imaged (secure e) m k →
  ∃ e' m', transfer_loop (S n) e m st K TSP_S4_ENCRYPT_AND_COPY (k * sz) k = Some (e', m', 0) ∧
    secure e' = secure e ∧ imaged (secure e) m' 48.
Proof.
  revert e m k. induction n as [|n IH]; intros e m k Hk Hn Him.
  - exists e, m. replace k with 48 in * by lia. cbn [transfer_loop].
    rewrite (proj2 (Z.leb_le _ _)) by lia. done.
  - destruct (encrypt_step e m k) as (e1 & m1 & Es & Him1 & Hstep); [lia|done|].
    rewrite Hstep. destruct (IH e1 m1 (k + 1)) as (e' & m' & E & Es' & Him'); [lia|lia|by rewrite Es|].
    exists e', m'. rewrite Es in *. split; [done|]. split; [congruence|done].
Qed.

(** The first [k] buffers of the TEE's memory are what they were in [s], and
    nothing else has changed since [s2]. *)
Record restored_to (s s2 : mem) (k : Z) (now : mem) : Prop := {
  rt_chunks j : 0 ≤ j < k → chunk now j = chunk s j;
  rt_frame x : ¬ BASE ≤ x < BASE + 48 * sz → now !! x = s2 !! x
}.

Lemma decrypt_step s s2 e m k :
  0 ≤ k < 48 → imaged s m 48 → restored_to s s2 k (secure e) →
  ∃ e' m', imaged s m' 48 ∧ restored_to s s2 (k + 1) (secure e') ∧
    ∀ n, transfer_loop (S n) e m st K TSP_S4_DECRYPT_AND_COPY (k * sz) k
      = transfer_loop n e' m' st K TSP_S4_DECRYPT_AND_COPY ((k + 1) * sz) (k + 1).
Proof.
  intros Hk Him [Hc Hf]. destruct (copied_small k Hk) as [E1 E2].
  assert (length (s4_enc k (chunk s k)) = Z.to_nat sz) as Hl.
  { rewrite s4_enc_length. apply chunk_length. }
  set (m1 := store_bytes m V (s4_enc k (chunk s k))).
  assert (load_bytes m1 V (Z.to_nat sz) = s4_enc k (chunk s k)) as Em1.
  { unfold m1. rewrite <- Hl. apply load_store_bytes. }
  destruct (s4_decrypts e (g_s4_buffer_paddr st) (BASE + k * sz) sz k
    (load_bytes m1 V (Z.to_nat sz))) as (e' & l & Ec & Hll & Es).
  rewrite Em1, s4_dec_enc in Es. exists e', (store_bytes m1 V l). split; [|split].
  - intros j Hj. unfold m1. rewrite !load_store_bytes_outside by (rewrite ?Hl, ?Hll; nia). by apply Him.
  - rewrite Es. split.
    + intros j Hj. rewrite chunk_store by (lia || apply chunk_length).
      destruct (decide (j = k)) as [->|Hne]; [done|]. apply Hc. lia.
    + intros x Hx. rewrite store_bytes_lookup_outside; [by apply Hf|]. rewrite chunk_length. nia.
  - intros n. cbn [transfer_loop]. rewrite not_done by done.
    unfold copy_for_decrypt, copy_for_encrypt, tc_s4_crypto_and_copy. rewrite Hsz.
    change (TSP_S4_DECRYPT_AND_COPY =? TSP_S4_DECRYPT_AND_COPY) with true.
    change (TSP_S4_DECRYPT_AND_COPY =? TSP_S4_ENCRYPT_AND_COPY) with false. cbv iota.
    rewrite memcpy_s_ok by nia. rewrite (Him k) by lia. fold m1.
    change (negb (EOK =? EOK)) with false. cbv iota. rewrite Ec. change (nonzero 0) with false.
    cbv iota. by rewrite E1, E2.
Qed.

Lemma decrypt_loop s s2 n e m k :
  0 ≤ k → k + Z.of_nat n = 48 → imaged s m 48 → restored_to s s2 k (secure e) →
  ∃ e' m', transfer_loop (S n) e m st K TSP_S4_DECRYPT_AND_COPY (k * sz) k = Some (e', m', 0) ∧
    restored_to s s2 48 (secure e').
Proof.
  revert e m k. induction n as [|n IH]; intros e m k Hk Hn Him Hr.
  - exists e, m. replace k with 48 in * by lia. cbn [transfer_loop].
    rewrite (proj2 (Z.leb_le _ _)) by lia. done.
  - destruct (decrypt_step s s2 e m k) as (e1 & m1 & Him1 & Hr1 & Hstep); [lia|done|done|].
    rewrite Hstep. apply IH; [lia|lia|done|done].
Qed.

Lemma restored_bytes s s2 now x :
  restored_to s s2 48 now → BASE ≤ x < BASE + 48 * sz → load_byte now x = load_byte s x.
Proof using Hmax.
  clear HV HK Hap Hsz Htot. intros Hr Hx. pose proof (Z.div_mod (x - BASE) sz ltac:(lia)) as Hd.
  pose proof (Z.mod_pos_bound (x - BASE) sz ltac:(lia)) as Hm.
  assert (0 ≤ (x - BASE) / sz < 48) as Hj.
  { split; [apply Z.div_pos; lia|apply Z.div_lt_upper_bound; lia]. }
  eapply load_bytes_byte; [apply (rt_chunks _ _ _ _ Hr _ Hj)|].
  rewrite Z2Nat.id by lia. lia.
Qed.

End Transfer.

(** * Suspend to disk: guarantees *)

Section Areas.
Context {VA : VmArea}.

(** The addresses [vmap] and [vmalloc] return to a suspend. *)
Definition s4_window : Z :=
  vmap ((λ i, phys_to_page (RESERVED_SECOS_S4_BASE + PAGE_SIZE * i)) <$> seqZ 0 256).

Definition s4_block : Z := vmalloc_area RESERVED_SECOS_PHYMEM_SIZE.

(** New areas are not in use. *)
Record areas_fresh (st : s4_state) : Prop := {
  af_window : s4_window ∉ s4_maps st;
  af_block : s4_block ∉ s4_blocks st
}.

(** The state of a suspended machine. *)
Definition s4_suspended (st : s4_state) : s4_state :=
  S4State s4_block s4_window RESERVED_SECOS_S4_BASE RESERVED_SECOS_S4_SIZE
    ({[ s4_window ]} ∪ s4_maps st) ({[ s4_block ]} ∪ s4_blocks st).

Lemma vmap_window st :
  tc_vmap st RESERVED_SECOS_S4_BASE RESERVED_SECOS_S4_SIZE
  = if negb page_array_ok then (st, 0)
    else if s4_window =? 0 then (st, 0)
    else (S4State (g_s4_kernel_mem_addr st) (g_s4_buffer_vaddr st) (g_s4_buffer_paddr st)
            (g_s4_buffer_size st) ({[ s4_window ]} ∪ s4_maps st) (s4_blocks st), s4_window).
Proof. done. Qed.

(** Allocation gives both areas or none. *)
Lemma alloc_buffer_spec st :
  areas_fresh st →
  ∃ st' block ret, tc_s4_alloc_crypto_buffer st = Ret (st', block, ret) ∧
    (ret = 0 → set_s4_kernel_mem st' block = s4_suspended st ∧ block = s4_block ∧
       s4_window ≠ 0 ∧ s4_block ≠ 0) ∧
    (ret ≠ 0 → s4_maps st' = s4_maps st ∧ s4_blocks st' = s4_blocks st).
Proof.
  intros [Hw Hb]. unfold tc_s4_alloc_crypto_buffer.
  change (S4_ADDR_4G <? RESERVED_SECOS_S4_BASE) with false. cbv iota. rewrite vmap_window.
  destruct (negb page_array_ok); [by eexists _, _, _|].
  destruct (Z.eqb_spec s4_window 0) as [E|Hne]; [by eexists _, _, _|].
  rewrite (proj2 (Z.eqb_neq _ _) Hne). fold s4_block.
  destruct (Z.eqb_spec s4_block 0) as [E|Hnb].
  - cbn [set_s4_buffer g_s4_buffer_vaddr]. unfold vunmap. rewrite (proj2 (Z.eqb_neq _ _) Hne).
    cbn [s4_maps]. rewrite decide_True by set_solver. eexists _, _, _. split; [done|].
    split; [done|]. intros _. cbn [set_s4_buffer s4_maps s4_blocks]. split; [set_solver|done].
  - eexists _, _, _. split; [done|]. by split.
Qed.

Lemma free_suspended st :
  areas_fresh st → s4_window ≠ 0 → s4_block ≠ 0 →
  s4_free_resource (s4_suspended st) s4_block = Ret (S4State 0 0 0 0 (s4_maps st) (s4_blocks st)).
Proof.
  intros [Hw Hb] H1 H2. unfold s4_free_resource, vunmap, vfree. cbn [g_s4_buffer_vaddr s4_suspended].
  rewrite (proj2 (Z.eqb_neq _ _) H1), (proj2 (Z.eqb_neq _ _) H2). cbn [s4_maps s4_blocks].
  rewrite decide_True by set_solver. rewrite ret_bind. cbn [s4_maps s4_blocks].
  rewrite decide_True by set_solver. rewrite ret_bind. cbn [s4_maps s4_blocks].
  do 2 f_equal; set_solver.
Qed.

End Areas.

(** ** Buffers are released *)

Section Release.
Context {Env : Type} {S4 : S4Tee Env} {VA : VmArea} {SC : SecureC}.

(** Whatever the TEE answers, 48 buffers are the end. *)
Lemma transfer_total n (e : Env) m st K op k :
  g_s4_buffer_size st = RESERVED_SECOS_S4_SIZE → 0 ≤ k → k + Z.of_nat n = 48 →
  ∃ e' m' ret, transfer_loop (S n) e m st K op (k * RESERVED_SECOS_S4_SIZE) k = Some (e', m', ret).
Proof.
  intros Hs. revert e m k. induction n as [|n IH]; intros e m k Hk Hn.
  - exists e, m, 0. replace k with 48 by lia. done.
  - remember (S n) as N eqn:EN. cbn [transfer_loop]. destruct (_ <=? _); [by eexists _, _, _|].
    destruct (copy_for_decrypt _ _ _ _ _) as [r m1]. destruct (negb _); [by eexists _, _, _|].
    destruct (tc_s4_crypto_and_copy _ _ _ _ _ _ _ _) as [[e2 m2] r2].
    destruct (nonzero r2); [by eexists _, _, _|].
    destruct (copy_for_encrypt _ _ _ _ _) as [r3 m3]. destruct (negb _); [by eexists _, _, _|].
    rewrite Hs. assert (RESERVED_SECOS_S4_SIZE * 48 < 2 ^ 32) by done.
    assert (0 < RESERVED_SECOS_S4_SIZE) by done.
    rewrite (u32_small (k * _ + _)), (u32_small (k + 1)) by nia.
    replace (k * RESERVED_SECOS_S4_SIZE + RESERVED_SECOS_S4_SIZE)
      with ((k + 1) * RESERVED_SECOS_S4_SIZE) by lia.
    apply IH; lia.
Qed.

Lemma transfer_data_total (e : Env) m st K op :
  g_s4_buffer_size st = RESERVED_SECOS_S4_SIZE →
  ∃ e' m' ret, tc_s4_transfer_data e m st K op = Some (e', m', ret).
Proof. intros Hs. by apply (transfer_total 48 e m st K op 0). Qed.

Lemma s4_buffers_held (e : Env) m st :
  areas_fresh st →
  ∃ e1 m1 st1 ret, tc_s4_pm_suspend e m st = Ret (Some (e1, m1, st1, ret)) ∧
    (ret ≠ 0 → s4_maps st1 = s4_maps st ∧ s4_blocks st1 = s4_blocks st) ∧
    (ret = 0 → st1 = s4_suspended st ∧
       ∀ (e2 : Env) m2, ∃ e3 m3 ret2, tc_s4_pm_resume e2 m2 st1
           = Ret (Some (e3, m3, S4State 0 0 0 0 (s4_maps st) (s4_blocks st), ret2))).
Proof.
  intros Hfr. unfold tc_s4_pm_suspend, tc_s4_pm_ops. rewrite Z.eqb_refl.
  destruct (alloc_buffer_spec st Hfr) as (st' & block & ret & -> & Hok & Hno). rewrite ret_bind.
  destruct (nonzero ret) eqn:En.
  { apply nonzero_true in En. eexists _, _, _, _. split; [done|]. split; [by intros _; apply Hno|done]. }
  apply nonzero_false in En. destruct (Hok En) as (-> & -> & Hw & Hb). unfold s4_transfer.
  rewrite Z.eqb_refl. destruct (tc_s4_suspend_or_resume e TSP_S4_SUSPEND) as [e1 r1].
  rewrite !(free_suspended st Hfr Hw Hb), !ret_bind.
  destruct (nonzero r1); [by eexists _, _, _, _|].
  destruct (transfer_data_total e1 m (s4_suspended st) s4_block TSP_S4_ENCRYPT_AND_COPY)
    as (e2 & m2 & r2 & ->); [done|].
  destruct (nonzero r2) eqn:E2.
  { apply nonzero_true in E2. by eexists _, _, _, _. }
  eexists _, _, _, _. split; [done|]. split; [done|]. intros _. split; [done|]. intros e3 m3.
  unfold tc_s4_pm_resume, tc_s4_pm_ops, s4_transfer.
  change (TSP_S4_RESUME =? TSP_S4_SUSPEND) with false. cbv iota. change (nonzero 0) with false. cbv iota.
  change (g_s4_kernel_mem_addr (s4_suspended st)) with s4_block.
  destruct (transfer_data_total e3 m3 (s4_suspended st) s4_block TSP_S4_DECRYPT_AND_COPY)
    as (e4 & m4 & r4 & ->); [done|].
  rewrite Z.eqb_refl, !(free_suspended st Hfr Hw Hb), !ret_bind.
  destruct (nonzero r4); [by eexists _, _, _|].
  destruct (tc_s4_suspend_or_resume e4 TSP_S4_RESUME) as [e5 r5]. rewrite ret_bind. by eexists _, _, _.
Qed.

(** A suspend that fails, for want of memory or because the TEE refuses at
    any point, leaves no mapping and no memory behind; one that succeeds holds
    exactly the window and the image; a resume releases both whatever the TEE
    answers.  All of them return. *)
Theorem s4_buffers_released (e : Env) m st :
  areas_fresh st →
  ∃ e1 m1 st1 ret, tc_s4_pm_suspend e m st = Ret (Some (e1, m1, st1, ret)) ∧
    (ret ≠ 0 → s4_maps st1 = s4_maps st ∧ s4_blocks st1 = s4_blocks st) ∧
    (ret = 0 → st1 = s4_suspended st ∧
       ∀ (e2 : Env) m2, ∃ e3 m3 ret2, tc_s4_pm_resume e2 m2 st1
           = Ret (Some (e3, m3, S4State 0 0 0 0 (s4_maps st) (s4_blocks st), ret2))).
Proof. apply s4_buffers_held. Qed.

End Release.

(** A second suspend without a resume forgets the first image: nothing points
    to it and it is never freed. *)
Lemma second_suspend_forgets {Env : Type} {S4 : S4Tee Env} {VA : VmArea} {SC : SecureC}
    (e : Env) m st e1 m1 st1 :
  areas_fresh st → tc_s4_pm_suspend e m st = Ret (Some (e1, m1, st1, 0)) →
  g_s4_kernel_mem_addr st ≠ 0 → g_s4_kernel_mem_addr st ∈ s4_blocks st →
  g_s4_kernel_mem_addr st1 ≠ g_s4_kernel_mem_addr st ∧
  ∀ (e2 : Env) m2, ∃ e3 m3 st3 ret, tc_s4_pm_resume e2 m2 st1 = Ret (Some (e3, m3, st3, ret)) ∧
    g_s4_kernel_mem_addr st3 = 0 ∧ g_s4_kernel_mem_addr st ∈ s4_blocks st3.
Proof.
  intros Hfr E H0 Hin. destruct (s4_buffers_held e m st Hfr) as (e1' & m1' & st1' & ret & E' & _ & Hok).
  rewrite E in E'. injection E' as <- <- <- <-. destruct (Hok eq_refl) as [-> Hres]. split.
  - intros Eq. apply (af_block _ Hfr). change (s4_block ∈ s4_blocks st).
    simpl in Eq. by rewrite Eq.
  - intros e2 m2. destruct (Hres e2 m2) as (e3 & m3 & r & Er). eexists _, _, _, _. split; [exact Er|].
    done.
Qed.

(** ** The TEE's memory *)

Section RoundTrip.
Context {Env : Type} {S4 : S4Tee Env} {SL : S4TeeLaws Env S4} {VA : VmArea}.
Context {SC : SecureC} {SCL : SecureCLaws SC}.

Abbreviation BASE := RESERVED_SECOS_PHYMEM_BASE.
Abbreviation SIZE := RESERVED_SECOS_PHYMEM_SIZE.

(** The kernel can give both areas, and they do not overlap. *)
Record areas_given : Prop := {
  ag_pages : page_array_ok = true;
  ag_window : s4_window ≠ 0;
  ag_image : 0 < s4_block;
  ag_apart : s4_window + RESERVED_SECOS_S4_SIZE ≤ s4_block ∨ s4_block + SIZE ≤ s4_window
}.

Lemma alloc_given st : areas_given →
  ∃ st', tc_s4_alloc_crypto_buffer st = Ret (st', s4_block, 0) ∧
    set_s4_kernel_mem st' s4_block = s4_suspended st.
Proof.
  intros [Hp Hw Hb _]. unfold tc_s4_alloc_crypto_buffer.
  change (S4_ADDR_4G <? RESERVED_SECOS_S4_BASE) with false. cbv iota.
  rewrite vmap_window, Hp. cbn [negb]. rewrite !(proj2 (Z.eqb_neq _ _) Hw). fold s4_block.
  rewrite (proj2 (Z.eqb_neq s4_block 0)) by lia. eexists. split; [done|]. done.
Qed.

Abbreviation sz := RESERVED_SECOS_S4_SIZE.

Lemma total_size : SIZE = 48 * sz.
Proof. done. Qed.

Lemma size_ok : 0 < sz ≤ SECUREC_MEM_MAX_LEN.
Proof. done. Qed.

(** A suspend leaves the encrypted memory in the image. *)
Lemma suspend_images (e : Env) m st :
  areas_given →
  ∃ e1 m1, tc_s4_pm_suspend e m st = Ret (Some (e1, m1, s4_suspended st, 0)) ∧
    imaged s4_block sz (secure e) m1 48.
Proof.
  intros Hgv. destruct (alloc_given st Hgv) as (st' & E & Est). destruct Hgv as [_ Hw Hb Hap].
  rewrite total_size in Hap. unfold tc_s4_pm_suspend, tc_s4_pm_ops. rewrite Z.eqb_refl, E, ret_bind.
  change (nonzero 0) with false. cbv iota. rewrite Est. unfold s4_transfer. rewrite Z.eqb_refl.
  unfold tc_s4_suspend_or_resume. destruct (s4_power_works e TSP_S4_SUSPEND) as (e1 & -> & Es1).
  change (nonzero 0) with false. cbv iota.
  destruct (encrypt_loop (s4_suspended st) s4_block sz eq_refl total_size size_ok Hw Hb Hap 48 e1 m 0)
    as (e2 & m2 & E2 & _ & Him); [lia|done|intros j Hj; lia|].
  change (transfer_loop 49 e1 m (s4_suspended st) s4_block TSP_S4_ENCRYPT_AND_COPY (0 * sz) 0)
    with (tc_s4_transfer_data e1 m (s4_suspended st) s4_block TSP_S4_ENCRYPT_AND_COPY) in E2.
  rewrite E2, Es1 in *. change (nonzero 0) with false. cbv iota.
  change (TSP_S4_SUSPEND =? TSP_S4_RESUME) with false. cbv iota. by exists e2, m2.
Qed.

(** A resume decrypts an image. *)
Lemma resume_restores (e : Env) s m st :
  areas_fresh st → areas_given → imaged s4_block sz s m 48 →
  ∃ e' m', tc_s4_pm_resume e m (s4_suspended st)
      = Ret (Some (e', m', S4State 0 0 0 0 (s4_maps st) (s4_blocks st), 0)) ∧
    restored_to sz s (secure e) 48 (secure e').
Proof.
  intros Hfr [_ Hw Hb Hap] Him. rewrite total_size in Hap.
  unfold tc_s4_pm_resume, tc_s4_pm_ops, s4_transfer.
  change (TSP_S4_RESUME =? TSP_S4_SUSPEND) with false. cbv iota. change (nonzero 0) with false. cbv iota.
  change (g_s4_kernel_mem_addr (s4_suspended st)) with s4_block.
  destruct (decrypt_loop (s4_suspended st) s4_block sz eq_refl total_size size_ok Hw Hb Hap s (secure e)
    48 e m 0) as (e4 & m4 & E4 & Hr); [lia|done|done|by split; [intros; lia|]|].
  change (transfer_loop 49 e m (s4_suspended st) s4_block TSP_S4_DECRYPT_AND_COPY (0 * sz) 0)
    with (tc_s4_transfer_data e m (s4_suspended st) s4_block TSP_S4_DECRYPT_AND_COPY) in E4.
  rewrite E4. change (nonzero 0) with false. cbv iota. rewrite Z.eqb_refl.
  unfold tc_s4_suspend_or_resume. destruct (s4_power_works e4 TSP_S4_RESUME) as (e5 & -> & Es5).
  change (nonzero 0) with false. cbv iota.
  rewrite (free_suspended st Hfr Hw ltac:(lia)), ret_bind. exists e5, m4. by rewrite Es5.
Qed.

(** C29. Hibernation restores the TEE's memory.  When the suspend has returned,
    every byte of the TEE's memory is, after the resume, what it was before,
    whatever the memory held when the machine came back, provided the image in
    kernel memory was restored; memory outside of the TEE's range is left
    alone, and every buffer is released. *)
Theorem s4_memory_restored (e : Env) m st :
  areas_fresh st → areas_given →
  ∃ e1 m1, tc_s4_pm_suspend e m st = Ret (Some (e1, m1, s4_suspended st, 0)) ∧
    ∀ (e2 : Env) m2, (∀ x, s4_block ≤ x < s4_block + SIZE → m2 !! x = m1 !! x) →
    ∃ e3 m3, tc_s4_pm_resume e2 m2 (s4_suspended st)
        = Ret (Some (e3, m3, S4State 0 0 0 0 (s4_maps st) (s4_blocks st), 0)) ∧
      (∀ x, BASE ≤ x < BASE + SIZE → load_byte (secure e3) x = load_byte (secure e) x) ∧
      (∀ x, ¬ BASE ≤ x < BASE + SIZE → secure e3 !! x = secure e2 !! x).
Proof.
  intros Hfr Hgv. destruct (suspend_images e m st Hgv) as (e1 & m1 & E1 & Him). exists e1, m1.
  split; [exact E1|]. intros e2 m2 Hm.
  destruct (resume_restores e2 (secure e) m2 st Hfr Hgv) as (e3 & m3 & E3 & Hr).
  { intros j Hj. rewrite <- (Him j Hj). apply load_bytes_ext. intros x Hx. apply Hm.
    rewrite total_size. pose proof size_ok. nia. }
  exists e3, m3. rewrite total_size. split; [exact E3|].
  split; [intros x; by eapply restored_bytes; [apply size_ok|]|apply (rt_frame _ _ _ _ _ Hr)].
Qed.

End RoundTrip.

(** ** A TEE that shifts every byte by the index of its buffer *)

Definition shift_tee : S4Tee mem := {|
  s4_power e op := (e, 0);
  s4_crypto e op pa a n i buf :=
    if op =? TSP_S4_ENCRYPT_AND_COPY
    then (e, (λ b, b + i) <$> load_bytes e a (Z.to_nat n), 0)
    else (store_bytes e a ((λ b, b - i) <$> buf), replicate (Z.to_nat n) 0, 0)
|}.

Lemma shift_back i (l : list Z) : (λ b, b - i) <$> ((λ b, b + i) <$> l) = l.
Proof.
  rewrite <- list_fmap_compose. rewrite <- (list_fmap_id l) at 2. apply list_fmap_ext.
  intros j b _. simpl. lia.
Qed.

#[export] Instance shift_tee_laws : S4TeeLaws mem shift_tee.
Proof.
  refine {| secure e := e; s4_enc i l := (λ b, b + i) <$> l; s4_dec i l := (λ b, b - i) <$> l |}.
  - intros i l. apply shift_back.
  - intros i l. apply length_fmap.
  - intros e op. by exists e.
  - intros e pa a n i buf. by exists e.
  - intros e pa a n i buf. eexists _, _. split; [reflexivity|]. split; [apply length_replicate|done].
Defined.

Definition demo_areas : VmArea := {|
  vmap pages := 0x8000000; vmalloc_area n := 0x10000000; page_array_ok := true;
  phys_to_page a := a / PAGE_SIZE
|}.

Definition s4_idle : s4_state := S4State 0 0 0 0 ∅ ∅.

Lemma idle_fresh : areas_fresh (VA := demo_areas) s4_idle.
Proof. split; set_solver. Qed.

Lemma demo_given : areas_given (VA := demo_areas).
Proof. split; [done|done|done|]. left. vm_compute. discriminate. Qed.

Lemma s4_buffers_released_witness :
  ∃ e1 m1 st1 ret, tc_s4_pm_suspend (S4 := shift_tee) (VA := demo_areas) (SC := boundscheck) ∅ ∅ s4_idle
      = Ret (Some (e1, m1, st1, ret)) ∧ (ret ≠ 0 → s4_blocks st1 = ∅).
Proof.
  destruct (s4_buffers_released (S4 := shift_tee) (VA := demo_areas) (SC := boundscheck) ∅ ∅ s4_idle)
    as (e1 & m1 & st1 & ret & E & Hno & _); [exact idle_fresh|].
  exists e1, m1, st1, ret. split; [exact E|]. intros Hr. exact (proj2 (Hno Hr)).
Defined.

(** A byte of the TEE's memory survives, although the memory is lost. *)
Lemma s4_memory_restored_witness :
  ∃ e1 m1 e3 m3 st3,
    tc_s4_pm_suspend (S4 := shift_tee) (VA := demo_areas) (SC := boundscheck)
      (<[0x22800007 := 42]> ∅) ∅ s4_idle
      = Ret (Some (e1, m1, s4_suspended (VA := demo_areas) s4_idle, 0)) ∧
    tc_s4_pm_resume (S4 := shift_tee) (VA := demo_areas) (SC := boundscheck) ∅ m1
      (s4_suspended (VA := demo_areas) s4_idle) = Ret (Some (e3, m3, st3, 0)) ∧
    load_byte e3 0x22800007 = 42.
Proof.
  destruct (s4_memory_restored (S4 := shift_tee) (VA := demo_areas) (SC := boundscheck)
    (<[0x22800007 := 42]> ∅) ∅ s4_idle) as (e1 & m1 & E1 & H); [exact idle_fresh|exact demo_given|].
  destruct (H ∅ m1) as (e3 & m3 & E3 & Hb & _); [intros x _; reflexivity|].
  exists e1, m1, e3, m3, (S4State 0 0 0 0 ∅ ∅). split; [exact E1|]. split; [exact E3|].
  change e3 with (secure (S4TeeLaws := shift_tee_laws) e3). rewrite Hb.
  - reflexivity.
  - split; [discriminate|reflexivity].
Defined.
