(* ===== verification/SmcInit.v ===== *)
(** * Initialisation of the SMC channel (core/smc_smp.c, core/tee_compat_check.c)

    The command queue is allocated and its address given to the TEE, which
    writes the root key of the session encryption and its version into it; then
    the helper threads are started.

    [cmd_frames] are the page frames of the queue that are allocated,
    [kthreads] the kernel threads that exist; pointers are 64-bit addresses,
    the last page of which encodes errors.  The binding of threads to CPUs is
    not part of the state. *)

From stdpp Require Import base gmap list.
From Stdlib Require Import ZArith Lia.
From S2P Require Import Prelude KernelApi TeeTypes Buffers Mailbox MailboxClaims SessReg.
From S2P Require Import SmcQueue SmcPending SmcSend CallTypes Auth AuthCall Tlogger TloggerSys TeecdAuth.
From S2P Require Import Login Spi CmdMonitor.

Definition TC_NS_CMD_TYPE_SECURE_CONFIG : Z := 0xf.
Definition TEEOS_COMPAT_LEVEL_MAJOR : Z := 0.
Definition TEEOS_COMPAT_LEVEL_MINOR : Z := 1.
Definition VER_CHECK_MAGIC_NUM : Z := 0x5A5A5A5A.
Definition COMPAT_LEVEL_BUF_LEN : Z := 12.

(** [g_cmd_data->in] follows three bitmaps of 1000 bits, the lock and
    [last_in]. *)
Definition CMD_IN_OFFSET : Z := 3 * 128 + 4 + 4.

(** [__get_free_pages(..., 6)] *)
Definition CMD_PAGES : Z := 64.

Record smc_globals := SmcGlobals {
  g_cmd_data : Z;
  g_cmd_phys : Z;
  cmd_frames : gset Z;
  cmd_in : list Z;
  g_session_root_key : option session_crypto_info;
  g_siq_thread : Z;
  g_ipi_helper_thread : Z;
  g_smc_svc_thread : Z;
  kthreads : gset Z;
  sg_monitor : mon_state
}.

Definition set_cmd_data (g : smc_globals) (p phys : Z) (frames : gset Z) : smc_globals :=
  SmcGlobals p phys frames (cmd_in g) (g_session_root_key g) (g_siq_thread g)
    (g_ipi_helper_thread g) (g_smc_svc_thread g) (kthreads g) (sg_monitor g).

Definition set_cmd_in (g : smc_globals) (l : list Z) : smc_globals :=
  SmcGlobals (g_cmd_data g) (g_cmd_phys g) (cmd_frames g) l (g_session_root_key g)
    (g_siq_thread g) (g_ipi_helper_thread g) (g_smc_svc_thread g) (kthreads g) (sg_monitor g).

Definition set_root_key (g : smc_globals) (key : option session_crypto_info) : smc_globals :=
  SmcGlobals (g_cmd_data g) (g_cmd_phys g) (cmd_frames g) (cmd_in g) key (g_siq_thread g)
    (g_ipi_helper_thread g) (g_smc_svc_thread g) (kthreads g) (sg_monitor g).

Definition set_threads (g : smc_globals) (siq ipi svc : Z) (threads : gset Z) : smc_globals :=
  SmcGlobals (g_cmd_data g) (g_cmd_phys g) (cmd_frames g) (cmd_in g) (g_session_root_key g)
    siq ipi svc threads (sg_monitor g).

Definition set_monitor (g : smc_globals) (s : mon_state) : smc_globals :=
  SmcGlobals (g_cmd_data g) (g_cmd_phys g) (cmd_frames g) (cmd_in g) (g_session_root_key g)
    (g_siq_thread g) (g_ipi_helper_thread g) (g_smc_svc_thread g) (kthreads g) s.

(** [kthread_create] returned [p]. *)
Definition thread_created_at (threads : gset Z) (p : Z) : gset Z :=
  if is_err_or_null p then threads else {[ p ]} ∪ threads.

(** [kthread_stop] of a thread that does not exist is a fault. *)
Definition kthread_stop (threads : gset Z) (p : Z) : outcome (gset Z) :=
  if decide (p ∈ threads) then Ret (threads ∖ {[ p ]}) else Fault.

(** [free_page] of the first page of the queue. *)
Definition free_cmd_page (g : smc_globals) : gset Z := cmd_frames g ∖ {[ g_cmd_data g ]}.

(** ** Compatibility (core/tee_compat_check.c) *)

(** [buffer] is the words at the pointer, [None] for NULL; another minor number
    is only logged. *)
Definition check_teeos_compat_level (buffer : option (list Z)) (size : Z) : Z :=
  match buffer with
  | None => - EINVAL
  | Some l =>
      let word i := le_value (sub_buf l (4 * i) 4) in
      if negb (size =? COMPAT_LEVEL_BUF_LEN) then - EINVAL
      else if negb (word 0 =? VER_CHECK_MAGIC_NUM) then - EPERM
      else if negb (word 1 =? TEEOS_COMPAT_LEVEL_MAJOR) then - EPERM
      else 0
  end.

(** ** The calls into the TEE

    [smc_regs] are the registers of one [smc #0]; the TEE sees and writes
    [g_cmd_data->in] and returns [x0]. *)
Class RawSmc (Env : Type) := {
  smc_regs : Env → list Z → Z → Z → Z → Env * list Z * Z
}.

Section Init.
Context {Env St : Type} {RS : RawSmc Env} {P : PageMap} {SB : SecureBuf} {KA : KernelAlloc}.

(** [None] when the fuel runs out. *)
Fixpoint send_smc_cmd (fuel : nat) (e : Env) (l : list Z) (cmd cmd_addr cmd_type : Z) (wait : bool)
    : option (Env * list Z * Z) :=
  match fuel with
  | O => None
  | S fuel =>
      let '(e, l, ret) := smc_regs e l cmd cmd_addr cmd_type in
      if (ret =? TSP_REQUEST) && wait then send_smc_cmd fuel e l cmd cmd_addr cmd_type wait
      else Some (e, l, ret)
  end.

Definition raw_smc_send (fuel : nat) (e : Env) (l : list Z) (cmd cmd_addr cmd_type : Z) (wait : bool) :=
  send_smc_cmd fuel e l cmd cmd_addr cmd_type wait.

Definition smc_work_no_wait (fuel : nat) (e : Env) (g : smc_globals) (type : Z)
    : option (Env * smc_globals) :=
  match raw_smc_send fuel e (cmd_in g) TSP_REQUEST (g_cmd_phys g) type true with
  | None => None
  | Some (e, l, _) => Some (e, set_cmd_in g l)
  end.

(** The work item runs on CPU 0 and is waited for. *)
Definition smc_set_cmd_buffer (fuel : nat) (e : Env) (g : smc_globals) :=
  smc_work_no_wait fuel e g TC_NS_CMD_TYPE_SECURE_CONFIG.

(** [pg] is the address [__get_free_pages] returns, [l] the zeroed [in]. *)
Definition alloc_cmd_buffer (g : smc_globals) (pg : Z) : smc_globals * Z :=
  if pg =? 0 then (set_cmd_data g 0 (g_cmd_phys g) (cmd_frames g), - ENOMEM)
  else
    (set_cmd_in (set_cmd_data g pg (virt_to_phys pg) (cmd_frames g ∪ frames_at pg CMD_PAGES))
       (replicate (length (cmd_in g)) 0), 0).

Definition parse_params_from_tee (g : smc_globals) : smc_globals * Z :=
  let '(key, ret) :=
    get_session_root_key (g_session_root_key g) (g_cmd_data g + CMD_IN_OFFSET) (cmd_in g)
      ROOT_KEY_BUF_LEN in
  let g := set_root_key g key in
  if nonzero ret then (g, ret)
  else
    let failed g ret := (set_root_key g (free_root_key (g_session_root_key g)), ret) in
    let ret := check_teeos_compat_level (Some (drop (Z.to_nat ROOT_KEY_BUF_LEN) (cmd_in g)))
                 COMPAT_LEVEL_BUF_LEN in
    if nonzero ret then failed g ret
    else
      let '(r, l) := buf_set (cmd_in g) 0 (zlen (cmd_in g)) 0 (zlen (cmd_in g)) in
      let g := set_cmd_in g l in
      if nonzero r then failed g (- EFAULT) else (g, 0).

(** ** Threads *)

(** [ipi] is what [kthread_create] returns, [wq] whether the monitor's work
    queue could be allocated. *)
Definition init_smc_related_rsrc (g : smc_globals) (ipi : Z) (wq : bool) : smc_globals * Z :=
  let g := set_threads g (g_siq_thread g) ipi (g_smc_svc_thread g) (thread_created_at (kthreads g) ipi) in
  if is_err_or_null ipi then (g, ptr_err ipi)
  else (set_monitor g (init_cmd_monitor (sg_monitor g) wq), 0).

(** The label [free_mem]. *)
Definition context_free_mem (g : smc_globals) : smc_globals :=
  let g := set_cmd_data g 0 (g_cmd_phys g) (free_cmd_page g) in
  set_root_key g (free_root_key (g_session_root_key g)).

(** [class_dev] is valid or not; [siq] and [ipi] are what [kthread_create]
    returns. *)
Definition smc_context_init (fuel : nat) (e : Env) (g : smc_globals) (class_dev : bool)
    (pg siq ipi : Z) (wq : bool) : outcome (option (Env * smc_globals * Z)) :=
  if negb class_dev then Ret (Some (e, g, - ENOMEM))
  else
    let '(g, ret) := alloc_cmd_buffer g pg in
    if nonzero ret then Ret (Some (e, g, ret))
    else
      match smc_set_cmd_buffer fuel e g with
      | None => Ret None
      | Some (e, g) =>
          let '(g, ret) := parse_params_from_tee g in
          if nonzero ret then Ret (Some (e, context_free_mem g, ret))
          else
            let g := set_threads g siq (g_ipi_helper_thread g) (g_smc_svc_thread g)
                       (thread_created_at (kthreads g) siq) in
            if is_err_or_null siq then Ret (Some (e, context_free_mem g, ptr_err siq))
            else
              let '(g, ret) := init_smc_related_rsrc g ipi wq in
              if nonzero ret then
                threads ← kthread_stop (kthreads g) (g_siq_thread g);
                let g := set_threads g 0 (g_ipi_helper_thread g) (g_smc_svc_thread g) threads in
                Ret (Some (e, context_free_mem g, ret))
              else Ret (Some (e, g, 0))
      end.

Definition init_smc_svc_thread (g : smc_globals) (svc : Z) : smc_globals * Z :=
  let g := set_threads g (g_siq_thread g) (g_ipi_helper_thread g) svc
             (thread_created_at (kthreads g) svc) in
  (g, if is_err_or_null svc then ptr_err svc else 0).

Definition teeos_log_exception_archive : Z := 0.

(** The first page of the queue, the service thread and the key. *)
Definition smc_free_data (g : smc_globals) : outcome smc_globals :=
  let g := set_cmd_data g (g_cmd_data g) (g_cmd_phys g) (free_cmd_page g) in
  g ←
    (if is_err_or_null (g_smc_svc_thread g) then Ret g
     else
       threads ← kthread_stop (kthreads g) (g_smc_svc_thread g);
       Ret (set_threads g (g_siq_thread g) (g_ipi_helper_thread g) 0 threads));
  Ret (set_root_key g (free_root_key (g_session_root_key g))).

(** ** The statistics thread *)

(** [CONFIG_TEE_LOG_DUMP_PATH] is not set. *)
Definition siq_dump (fuel : nat) (e : Env) (g : smc_globals) (t : tlogger) (mode : Z)
    : outcome (option (Env * smc_globals)) :=
  match raw_smc_send fuel e (cmd_in g) TSP_REE_SIQ mode 0 false with
  | None => Ret None
  | Some (e, l, _) =>
      _ ← tz_log_write t;
      Ret (Some (e, set_monitor (set_cmd_in g l) (do_cmd_need_archivelog (sg_monitor g))))
  end.

(** One round of the loop of [siq_thread_fn]: [interrupted] is the status of
    the wait, which ends when [g_siq_th_run] is set; true when the thread
    ends. *)
Definition siq_thread_fn (fuel : nat) (e : Env) (g : smc_globals) (t : tlogger) (interrupted : bool)
    : outcome (option (Env * smc_globals * bool)) :=
  if interrupted then Ret (Some (e, g, true))
  else if g_siq_th_run (sg_monitor g) =? 0 then Ret (Some (e, g, false))
  else
    let s := sg_monitor g in
    let g := set_monitor g (MonState (mon_heap s) (g_cmd_monitor_list s) (g_cmd_monitor_list_size s)
               (g_cmd_need_archivelog s) (g_tee_detect_ta_crash s) (tick_queued s)
               (archive_queued s) (g_cmd_monitor_wq s) 0) in
    res ← siq_dump fuel e g t 1;
    match res with None => Ret None | Some (e, g) => Ret (Some (e, g, false)) end.

End Init.

(** ** The service thread *)

Definition GLOBAL_CMD_ID_SET_SERVE_CMD : Z := 0x1b.

Definition serve_cmd : tc_ns_smc_cmd :=
  SmcCmd (replicate 16 0) CMD_TYPE_GLOBAL GLOBAL_CMD_ID_SET_SERVE_CMD 0 0 0 0 0
    0 0 0 0 0 0 0 0 0 0 0 0 0 0 0 false.

Section Service.
Context {W : Type} {SW : SmcWorld W} {KT : KernelTime} {F : PhysMap}.

(** The thread is told to stop after [length kzs] rounds; the elements are the
    addresses of the pending entries. *)
Fixpoint smc_svc_thread_fn (fuel : nat) (kzs : list Z) (w : W) (s : smc_sys)
    : outcome (option (W * smc_sys)) :=
  match kzs with
  | [] => Ret (Some (w, s))
  | kz :: kzs =>
      res ← smp_smc_send_func fuel kz w s serve_cmd false;
      match res with
      | None => Ret None
      | Some (w, s, _, _) => smc_svc_thread_fn fuel kzs w s
      end
  end.

End Service.
