(* ===== verification/SmcInitThm.v ===== *)
(** * Initialisation of the SMC channel: lemmas *)

From stdpp Require Import base gmap list.
From Stdlib Require Import ZArith Lia.
From S2P Require Import Prelude KernelApi TeeTypes Buffers Mailbox MailboxClaims SessReg.
From S2P Require Import SmcQueue SmcPending SmcSend CallTypes Auth AuthCall Tlogger TloggerSys TeecdAuth TeecdClaims.
From S2P Require Import Login Spi CmdMonitor SmcInit.

(** The TEE asks for the call to be repeated a bounded number of times. *)
Class RawSmcLaws (Env : Type) (RS : RawSmc Env) := {
  raw_rank : Env → nat;
  smc_regs_length e l cmd a t e' l' ret :
    smc_regs e l cmd a t = (e', l', ret) → length l' = length l;
  smc_regs_rank e l cmd a t e' l' :
    smc_regs e l cmd a t = (e', l', TSP_REQUEST) → (raw_rank e' < raw_rank e)%nat
}.

Lemma err_status_nonzero p : is_err_or_null p = true → p ≠ 0 → p < 2 ^ 64 → ptr_err p ≠ 0.
Proof.
  unfold is_err_or_null. rewrite orb_true_iff, Z.eqb_eq, Z.leb_le. intros [H|H] Hp Hr; [done|].
  by apply ptr_err_nonzero.
Qed.

Section Init.
Context {Env : Type} {RS : RawSmc Env} {RL : RawSmcLaws Env RS} {P : PageMap}.
Context {SB : SecureBuf} {SBL : SecureBufLaws SB} {KA : KernelAlloc}.

Lemma send_smc_returns fuel (e : Env) l cmd a t wait :
  (raw_rank e < fuel)%nat →
  ∃ e' l' ret, send_smc_cmd fuel e l cmd a t wait = Some (e', l', ret) ∧ length l' = length l.
Proof.
  revert e l. induction fuel as [|fuel IH]; intros e l Hr; [lia|]. cbn [send_smc_cmd].
  destruct (smc_regs e l cmd a t) as [[e1 l1] r1] eqn:E. pose proof (smc_regs_length _ _ _ _ _ _ _ _ E) as Hl.
  destruct ((r1 =? TSP_REQUEST) && wait) eqn:Ew; [|by eexists _, _, _].
  apply andb_true_iff in Ew as [->%Z.eqb_eq _]. pose proof (smc_regs_rank _ _ _ _ _ _ _ E).
  destruct (IH e1 l1) as (e' & l' & ret & -> & Hl'); [lia|]. eexists _, _, _. split; [done|congruence].
Qed.

(** ** What the TEE wrote *)

(** The key record, after one word. *)
Definition root_key_in (l : list Z) : session_crypto_info :=
  CryptoInfo (sub_buf l 4 32) (sub_buf l 36 16).

(** The version of the TEE, after the key. *)
Definition compat_in (l : list Z) : Prop :=
  le_value (sub_buf (drop 100 l) 0 4) = VER_CHECK_MAGIC_NUM ∧
  le_value (sub_buf (drop 100 l) 4 4) = TEEOS_COMPAT_LEVEL_MAJOR.

Lemma sub_buf_sub l a n b k :
  0 ≤ a → 0 ≤ b → 0 ≤ k → b + k ≤ n → sub_buf (sub_buf l a n) b k = sub_buf l (a + b) k.
Proof.
  intros. unfold sub_buf. rewrite skipn_firstn_comm, take_take, drop_drop. f_equal; [|f_equal]; lia.
Qed.

Lemma splice_all l s : length s = length l → splice l 0 s = s.
Proof.
  intros E. unfold splice. simpl. rewrite E, drop_all. by rewrite app_nil_r.
Qed.

Lemma root_key_read g_root buffer l key ret :
  112 ≤ zlen l → get_session_root_key g_root buffer l ROOT_KEY_BUF_LEN = (key, ret) →
  (ret = 0 → key = Some (root_key_in l)) ∧ (ret ≠ 0 → key = None ∨ key = g_root).
Proof.
  intros Hl. unfold get_session_root_key.
  destruct (_ || _); [intros [= <- <-]; by split; [|auto]|]. rewrite Z.eqb_refl. cbn [negb].
  destruct (negb _); [intros [= <- <-]; by split; [|auto]|].
  rewrite buf_copy_ok by (unfold SECUREC_MEM_MAX_LEN; lia). change (nonzero EOK) with false. cbv iota.
  intros [= <- <-]. split; [|done]. intros _.
  assert (length (sub_buf l 4 48) = 48%nat) as E48 by (rewrite sub_buf_length by lia; done).
  rewrite splice_all by done. unfold root_key_in. by rewrite !sub_buf_sub by lia.
Qed.

Lemma compat_level_spec l :
  check_teeos_compat_level (Some l) COMPAT_LEVEL_BUF_LEN = 0 ↔
  le_value (sub_buf l 0 4) = VER_CHECK_MAGIC_NUM ∧ le_value (sub_buf l 4 4) = TEEOS_COMPAT_LEVEL_MAJOR.
Proof.
  unfold check_teeos_compat_level. rewrite Z.eqb_refl. cbn [negb].
  change (4 * 0) with 0. change (4 * 1) with 4.
  destruct (Z.eqb_spec (le_value (sub_buf l 0 4)) VER_CHECK_MAGIC_NUM); cbn [negb]; [|split; [done|tauto]].
  destruct (Z.eqb_spec (le_value (sub_buf l 4 4)) TEEOS_COMPAT_LEVEL_MAJOR); cbn [negb]; [done|].
  split; [done|tauto].
Qed.

(** Everything but the key and the buffer. *)
Definition same_rest (g g' : smc_globals) : Prop :=
  g_cmd_data g' = g_cmd_data g ∧ cmd_frames g' = cmd_frames g ∧ kthreads g' = kthreads g ∧
  g_smc_svc_thread g' = g_smc_svc_thread g ∧ length (cmd_in g') = length (cmd_in g).

Lemma parse_params_spec g g' ret :
  112 ≤ zlen (cmd_in g) ≤ SECUREC_MEM_MAX_LEN → g_session_root_key g = None →
  parse_params_from_tee g = (g', ret) →
  same_rest g g' ∧
  (ret = 0 → g_session_root_key g' = Some (root_key_in (cmd_in g)) ∧ compat_in (cmd_in g) ∧
     cmd_in g' = replicate (length (cmd_in g)) 0) ∧
  (ret ≠ 0 → g_session_root_key g' = None).
Proof.
  intros Hl Hk. unfold parse_params_from_tee. rewrite Hk.
  destruct (get_session_root_key None _ _ _) as [key r] eqn:Ek.
  apply root_key_read in Ek as [Hok Hno]; [|lia].
  destruct (nonzero r) eqn:Er.
  { apply nonzero_true in Er. intros [= <- <-]. split; [done|]. split; [done|].
    intros _. simpl. by destruct (Hno Er). }
  apply nonzero_false in Er. cbn [cmd_in set_root_key]. change (Z.to_nat ROOT_KEY_BUF_LEN) with 100%nat.
  destruct (nonzero (check_teeos_compat_level _ _)) eqn:Ec.
  { intros [= <- <-]. apply nonzero_true in Ec. by split. }
  apply nonzero_false, compat_level_spec in Ec.
  rewrite buf_set_ok by lia. change (nonzero EOK) with false. cbv iota. intros [= <- <-].
  assert (length (replicate (Z.to_nat (zlen (cmd_in g))) (u8 0)) = length (cmd_in g)) as El.
  { rewrite length_replicate. unfold zlen. lia. }
  rewrite splice_all by done. unfold zlen in El |- *. rewrite Nat2Z.id in *. split.
  - split_and!; try done; simpl; lia.
  - split; [|done]. intros _. split_and!; try done. by apply Hok.
Qed.

(** ** The context *)

(** A pointer [kthread_create] may return: a new thread or an error. *)
Definition thread_ptr (threads : gset Z) (p : Z) : Prop := 0 < p < 2 ^ 64 ∧ p ∉ threads.

(** The channel before its initialisation. *)
Record smc_off (g : smc_globals) : Prop := {
  so_key : g_session_root_key g = None;
  so_svc : g_smc_svc_thread g = 0;
  so_in : 112 ≤ zlen (cmd_in g) ≤ SECUREC_MEM_MAX_LEN
}.

(** The channel is up: the TEE's key is stored and no longer in the queue, the
    TEE's version was accepted, and the helper threads exist. *)
Record smc_up (g g' : smc_globals) (pg siq ipi : Z) : Prop := {
  su_queue : g_cmd_data g' = pg ∧ pg ≠ 0 ∧ cmd_frames g' = cmd_frames g ∪ frames_at pg CMD_PAGES;
  su_key : ∃ l, length l = length (cmd_in g) ∧ compat_in l ∧
    g_session_root_key g' = Some (root_key_in l);
  su_in : cmd_in g' = replicate (length (cmd_in g)) 0;
  su_threads : kthreads g' = {[ ipi ]} ∪ ({[ siq ]} ∪ kthreads g);
  su_svc : g_smc_svc_thread g' = 0
}.

(** Nothing is left but pages of the queue. *)
Record smc_down (g g' : smc_globals) : Prop := {
  sd_key : g_session_root_key g' = None;
  sd_threads : kthreads g' = kthreads g;
  sd_svc : g_smc_svc_thread g' = 0
}.

Lemma context_init_spec fuel (e : Env) g class_dev pg siq ipi wq :
  (raw_rank e < fuel)%nat → smc_off g → thread_ptr (kthreads g) siq →
  thread_ptr ({[ siq ]} ∪ kthreads g) ipi →
  ∃ e' g' ret, smc_context_init fuel e g class_dev pg siq ipi wq = Ret (Some (e', g', ret)) ∧
    (ret = 0 → smc_up g g' pg siq ipi) ∧ (ret ≠ 0 → smc_down g g').
Proof.
  intros Hr [Hk Hv Hl] [Hs1 Hs2] [Hi1 Hi2]. unfold smc_context_init.
  destruct class_dev; cbn [negb]; [|by eexists _, _, _].
  unfold alloc_cmd_buffer. destruct (Z.eqb_spec pg 0) as [->|Hpg]; [by eexists _, _, _|].
  change (nonzero 0) with false. cbv iota. unfold smc_set_cmd_buffer, smc_work_no_wait, raw_smc_send.
  set (g1 := set_cmd_in _ _).
  destruct (send_smc_returns fuel e (cmd_in g1) TSP_REQUEST (g_cmd_phys g1)
    TC_NS_CMD_TYPE_SECURE_CONFIG true Hr) as (e' & l & r0 & -> & Hll).
  assert (length l = length (cmd_in g)) as El by (rewrite Hll; simpl; by rewrite length_replicate).
  destruct (parse_params_from_tee (set_cmd_in g1 l)) as [g2 r2] eqn:Ep.
  apply parse_params_spec in Ep as ((E1 & E2 & E3 & E4 & E5) & Hok & Hno);
    [|simpl; unfold zlen in *; by rewrite El|done]. subst g1. simpl in E1, E2, E3, E4, E5, Hok.
  destruct (nonzero r2) eqn:Er2.
  { eexists _, _, _. split; [done|]. apply nonzero_true in Er2. split; [done|]. intros _.
    split; simpl; done || congruence. }
  apply nonzero_false in Er2. destruct (Hok Er2) as (Hkey & Hc & Hin).
  unfold thread_created_at. rewrite E3. destruct (is_err_or_null siq) eqn:Esiq.
  { eexists _, _, _. split; [done|]. split; [|intros _; split; simpl; done || congruence].
    intros H0. destruct (err_status_nonzero siq Esiq); lia. }
  unfold init_smc_related_rsrc, thread_created_at. destruct (is_err_or_null ipi) eqn:Eipi.
  { destruct (nonzero (ptr_err ipi)) eqn:En.
    2:{ apply nonzero_false in En. by destruct (err_status_nonzero ipi Eipi); [lia|lia|]. }
    cbn [kthreads g_siq_thread set_threads]. unfold kthread_stop. rewrite decide_True by set_solver.
    rewrite ret_bind. eexists _, _, _. split; [done|]. apply nonzero_true in En. split; [done|].
    intros _. split; simpl; [done|set_solver|congruence]. }
  change (nonzero 0) with false. cbv iota. eexists _, _, _. split; [done|]. split; [|done].
  intros _. split; simpl; try congruence.
  - split_and!; congruence.
  - by exists l.
Qed.

End Init.
