(* ===== verification/Boot.v ===== *)
(** * Loading and unloading the module (core/tc_client_driver.c)

    [tc_init] creates the character device, sets up the SMC channel, the
    mailbox, the notifications, the agents and the log, in this order, and
    [tc_exit] takes them down.  The state of the driver is composed of the
    states of its components; [boot_gives] is what the kernel answers to the
    allocations and registrations of one initialisation. *)

From stdpp Require Import base gmap list.
From Stdlib Require Import ZArith Lia.
From S2P Require Import Prelude KernelApi TeeTypes Buffers Mailbox MailboxClaims SessReg.
From S2P Require Import CallTypes Auth AuthCall GpParams Tlogger TloggerSys Agent AgentReg TeecdAuth.
From S2P Require Import Login Driver Spi CmdMonitor SmcInit.

(** What is registered with the kernel. *)
Record chardev := Chardev {
  platform_registered : bool;
  g_dev_node : bool;
  region_allocated : bool;
  g_driver_class : bool;
  class_device : bool;
  cdev_added : bool
}.

Definition no_chardev : chardev := Chardev false false false false false false.

Record boot_gives := BootGives {
  bg_platform : Z;
  bg_node : bool;
  bg_region : Z;
  bg_class : Z;
  bg_device : Z;
  bg_cdev : Z;
  bg_cmd_pages : Z;
  bg_siq : Z;
  bg_ipi : Z;
  bg_monitor_wq : bool;
  bg_zone : Z;
  bg_pool : Z;
  bg_mb_cmd : Z;
  bg_mb_op : Z;
  bg_spi_wq : bool;
  bg_irq : Z;
  bg_notify_pages : Z;
  bg_log_pages : Z;
  bg_log : Z;
  bg_log_name : Z;
  bg_log_misc : Z * Z;
  bg_svc : Z
}.

(** ** The character device *)

Definition create_cdev (c : chardev) (g : boot_gives) : chardev * Z :=
  if bg_cdev g <? 0 then (c, - ENOENT)
  else
    (Chardev (platform_registered c) (g_dev_node c) (region_allocated c) (g_driver_class c)
       (class_device c) true, 0).

(** [CONFIG_ACPI] is not set: the device node is needed. *)
Definition load_hw_info (c : chardev) (g : boot_gives) : chardev * Z :=
  if nonzero (bg_platform g) then (c, - EFAULT)
  else
    (Chardev true (bg_node g) (region_allocated c) (g_driver_class c) (class_device c) (cdev_added c),
     if negb (bg_node g) then - ENODEV else 0).

Definition set_class (c : chardev) (region class device : bool) : chardev :=
  Chardev (platform_registered c) (g_dev_node c) region class device (cdev_added c).

(** [INIT_LIST_HEAD] of the device files and of the services. *)
Definition init_lists (R : registry) : registry :=
  Registry (g_sessions R) (g_services R) (g_devs R) (g_shared R) [] [] (g_device_file_cnt R).

(** The third component is [*class_dev], which is set when [device_create] has
    returned. *)
Definition tc_ns_client_init (c : chardev) (R : registry) (g : boot_gives)
    : chardev * registry * Z * Z :=
  let '(c, ret) := load_hw_info c g in
  if nonzero ret then (c, R, 0, ret)
  else if nonzero (bg_region g) then (c, R, 0, - EFAULT)
  else
    let c := set_class c true false false in
    if is_err_or_null (bg_class g) then (set_class c false false false, R, 0, - ENOMEM)
    else
      let c := set_class c true true false in
      let class_dev := bg_device g in
      if is_err_or_null class_dev then (set_class c false false false, R, class_dev, - ENOMEM)
      else
        let c := set_class c true true true in
        let '(c, r) := create_cdev c g in
        if nonzero r then (set_class c false false false, R, class_dev, ret)
        else (c, init_lists R, class_dev, ret).

(** ** The module *)

Section Boot.
Context {Env W : Type} {SMC : SmcChannel Env} {RS : RawSmc Env} {P : PageMap} {SC : SecureC}.
Context {SB : SecureBuf} {KA : KernelAlloc}.
Context (def_tee_agent_run def_tee_agent_stop :
           kernel_agent_data → W → outcome (W * kernel_agent_data * Z)).
Context (fuel : nat).

#[local] Existing Instance mailbox_allocator.

Record module := Module_ {
  mo_driver : driver Env mailbox;
  mo_chardev : chardev;
  mo_smc : smc_globals;
  mo_spi : spi_state;
  mo_log : tlogger;
  mo_world : W;
  g_tee_agent_list : list (tee_agent_kernel_ops W)
}.

Definition mo_env (M : module) : Env := cs_env (dr_call (mo_driver M)).
Definition mo_pool (M : module) : mailbox := cs_pool (dr_call (mo_driver M)).
Definition mo_mem (M : module) : mem := cs_mem (dr_call (mo_driver M)).
Definition mo_reg (M : module) : registry := cs_reg (dr_call (mo_driver M)).

Definition set_call (M : module) (e : Env) (s : mailbox) (m : mem) (R : registry) : module :=
  let k := dr_call (mo_driver M) in
  Module_ (with_call (mo_driver M) (CallState e s m R (cs_op k) (cs_tzmp_uid k)))
    (mo_chardev M) (mo_smc M) (mo_spi M) (mo_log M) (mo_world M) (g_tee_agent_list M).

Definition set_chardev (M : module) (c : chardev) : module :=
  Module_ (mo_driver M) c (mo_smc M) (mo_spi M) (mo_log M) (mo_world M) (g_tee_agent_list M).

Definition set_smc (M : module) (g : smc_globals) : module :=
  Module_ (mo_driver M) (mo_chardev M) g (mo_spi M) (mo_log M) (mo_world M) (g_tee_agent_list M).

Definition set_spi (M : module) (x : spi_state) : module :=
  Module_ (mo_driver M) (mo_chardev M) (mo_smc M) x (mo_log M) (mo_world M) (g_tee_agent_list M).

Definition set_log (M : module) (t : tlogger) : module :=
  Module_ (mo_driver M) (mo_chardev M) (mo_smc M) (mo_spi M) t (mo_world M) (g_tee_agent_list M).

Definition set_agents (M : module) (A : agent_control) (w : W) (l : list (tee_agent_kernel_ops W))
    : module :=
  Module_ (with_agents (mo_driver M) A) (mo_chardev M) (mo_smc M) (mo_spi M) (mo_log M) w l.

(** [mailbox_mempool_init] with its call into the TEE, which is made when
    everything has been allocated. *)
Definition boot_mailbox (M : module) (g : boot_gives) : outcome (module * Z) :=
  let smc cmd op := tc_ns_smc (mo_env M) (mo_mem M) op cmd in
  let asked := negb (zero_or_null_ptr (bg_zone g) || (bg_pool g =? 0)
                     || zero_or_null_ptr (bg_mb_cmd g) || zero_or_null_ptr (bg_mb_op g)) in
  let '(e, m, _, _, _) :=
    smc (register_cmd (bg_mb_op g)) (register_operation (page_address (bg_pool g)) MAILBOX_POOL_SIZE) in
  '(s, ret) ← mailbox_mempool_init (bg_zone g) (bg_pool g)
    (λ pool, mailbox_register (bg_mb_cmd g) (bg_mb_op g) (λ cmd op, (smc cmd op).2) pool
               MAILBOX_POOL_SIZE);
  Ret (if asked then set_call M e s m (mo_reg M) else set_call M (mo_env M) s (mo_mem M) (mo_reg M),
       ret).

Definition boot_spi (M : module) (g : boot_gives) (class_dev : Z) : outcome (module * Z) :=
  '(e, s, m, x, ret) ← tz_spi_init (mo_env M) (mo_pool M) (mo_mem M) (mo_spi M)
    (negb (class_dev =? 0)) (g_dev_node (mo_chardev M)) (bg_spi_wq g) (bg_irq g) (bg_notify_pages g);
  Ret (set_spi (set_call M e s m (mo_reg M)) x, ret).

Definition tc_teeos_init (M : module) (g : boot_gives) (class_dev : Z)
    : outcome (option (module * Z)) :=
  res ← smc_context_init fuel (mo_env M) (mo_smc M) (negb (is_err_or_null class_dev))
          (bg_cmd_pages g) (bg_siq g) (bg_ipi g) (bg_monitor_wq g);
  match res with
  | None => Ret None
  | Some (e, sg, ret) =>
      let M := set_smc (set_call M e (mo_pool M) (mo_mem M) (mo_reg M)) sg in
      if nonzero ret then Ret (Some (M, ret))
      else
        '(M, ret) ← boot_mailbox M g;
        if nonzero ret then
          sg ← smc_free_data (mo_smc M); Ret (Some (set_smc M sg, ret))
        else
          '(M, ret) ← boot_spi M g class_dev;
          if nonzero ret then
            s ← mailbox_mempool_destroy (mo_pool M);
            let M := set_call M (mo_env M) s (mo_mem M) (mo_reg M) in
            sg ← smc_free_data (mo_smc M); Ret (Some (set_smc M sg, ret))
          else Ret (Some (M, 0))
  end.

(** Failures are only logged. *)
Definition tc_re_init (M : module) (g : boot_gives) : outcome module :=
  '(w, A, l) ← agent_init def_tee_agent_run (mo_world M) (dr_agents (mo_driver M)) (g_tee_agent_list M);
  let M := set_agents M A w l in
  '(e, s, m, t, _) ← init_tlogger_service (mo_env M) (mo_pool M) (mo_mem M) (mo_log M)
    (bg_log_pages g) (bg_log g) (bg_log_name g) (bg_log_misc g);
  let M := set_log (set_call M e s m (mo_reg M)) t in
  Ret (set_smc M (init_smc_svc_thread (mo_smc M) (bg_svc g)).1).

(** [device_destroy], [class_destroy] and [unregister_chrdev_region];
    [g_driver_class] keeps pointing to a class that has been destroyed, so
    destroying it once more uses freed memory. *)
Definition destroy_class (c : chardev) : outcome chardev :=
  if g_driver_class c then Ret (set_class c false false false) else Fault.

Definition tc_init (M : module) (g : boot_gives) : outcome (option (module * Z)) :=
  let '(c, R, class_dev, ret) := tc_ns_client_init (mo_chardev M) (mo_reg M) g in
  let M := set_chardev (set_call M (mo_env M) (mo_pool M) (mo_mem M) R) c in
  if nonzero ret then Ret (Some (M, ret))
  else
    res ← tc_teeos_init M g class_dev;
    match res with
    | None => Ret None
    | Some (M, ret) =>
        if nonzero ret then
          c ← destroy_class (mo_chardev M); Ret (Some (set_chardev M c, ret))
        else M ← tc_re_init M g; Ret (Some (M, 0))
    end.

Definition tc_exit (M : module) : outcome module :=
  '(e, s, m, x) ← tz_spi_exit (mo_env M) (mo_pool M) (mo_mem M) (mo_spi M);
  let M := set_spi (set_call M e s m (mo_reg M)) x in
  c ← destroy_class (mo_chardev M);
  let M := set_chardev M c in
  sg ← smc_free_data (mo_smc M);
  let M := set_smc M sg in
  '(w, l) ← agent_exit def_tee_agent_stop (mo_world M) (g_tee_agent_list M);
  let M := set_agents M (dr_agents (mo_driver M)) w l in
  t ← exit_tlogger_service (mo_log M);
  let M := set_log M t in
  s ← mailbox_mempool_destroy (mo_pool M);
  let M := set_call M (mo_env M) s (mo_mem M) (mo_reg M) in
  let D := mo_driver M in
  Ret (Module_ (Driver (dr_call D) (dr_agents D) (tee_exit_shash_handle (dr_teecd D)) (g_teecd_task D))
         (mo_chardev M) (mo_smc M) (mo_spi M) (mo_log M) (mo_world M) (g_tee_agent_list M)).

End Boot.
