(* ===== verification/BootClaims.v ===== *)
(** * Loading and unloading the module: guarantees *)

From stdpp Require Import base gmap list.
From Stdlib Require Import ZArith Lia.
From S2P Require Import Prelude KernelApi TeeTypes Buffers Mailbox MailboxThm MailboxClaims SessReg.
From S2P Require Import CallTypes Auth AuthCall GpParams Tlogger TloggerSys Agent AgentReg TeecdAuth.
From S2P Require Import AuthCipher GpClaims Login Driver Spi SpiClaims CmdMonitor SmcInit SmcInitThm Boot.

(** ** The log *)

(** Every log on the list exists once, and the ring of the log is mapped. *)
Record log_ok (t : tlogger) : Prop := {
  lo_nodup : NoDup (m_log_list t);
  lo_live p : p ∈ m_log_list t → is_Some (log_heap t !! p);
  lo_ring : g_log_buffer t ≠ 0 → is_Some (log_mem t !! g_log_buffer t)
}.

Section Log.
Context {Env St : Type} {BA : BlockAllocator St} {BAL : BlockAllocatorLaws St BA}.
Context {SMC : SmcChannel Env} {P : PageMap}.

Lemma log_mem_registered (e : Env) (s : St) m a len cached L :
  ba_owns s L →
  ∃ e' s' m' ret, register_mem_to_teeos e s m a len cached = Ret (e', s', m', ret) ∧ ba_owns s' L.
Proof.
  intros Ho. unfold register_mem_to_teeos.
  destruct (ba_alloc_ok s L m SZ_4K MB_FLAG_ZERO Ho) as (s1 & m1 & b & E & Ha); [done|].
  rewrite ?E, ?ret_bind. destruct Ha as [(-> & Ho1 & ->)|(Hp & Hn & _ & Ho1 & _)].
  { by eexists _, _, _, _. }
  rewrite (proj2 (Z.eqb_neq b 0)) by lia. destruct (tc_ns_smc e m1 _ _) as [[[[e1 m2] o] c] r].
  destruct (ba_free_ok s1 _ b Ho1) as (s2 & -> & Ho2); [set_solver|]. rewrite ret_bind.
  eexists _, _, _, _. split; [done|]. by replace L with (({[b]} ∪ L) ∖ {[b]}) by set_solver.
Qed.

Lemma register_log_mem_ok (e : Env) (s : St) m t pg L :
  ba_owns s L → g_log_buffer t = 0 →
  ∃ e1 s1 m1 t1 r a len, register_log_mem e s m t pg = Ret (e1, s1, m1, t1, r, a, len) ∧
    ba_owns s1 L ∧ m_log_list t1 = m_log_list t ∧ log_heap t1 = log_heap t ∧
    g_log_buffer t1 = 0 ∧ (a ≠ 0 → is_Some (log_mem t1 !! a)).
Proof.
  intros Ho Hgb. unfold register_log_mem, tee_pages_register_core. destruct (is_err_or_null pg).
  { by eexists _, _, _, _, _, _, _. }
  change (nonzero 0) with false. cbv iota.
  destruct (log_mem_registered e s m (virt_to_phys pg) PAGES_LOG_MEM_LEN true L Ho)
    as (e1 & s1 & m1 & r1 & -> & Ho1). rewrite ret_bind.
  destruct (nonzero r1); eexists _, _, _, _, _, _, _; (split; [done|]); split_and!; try done.
  intros _. simpl. by rewrite lookup_insert_eq.
Qed.

(** The device of the log: the ring stays mapped, and with a [misc] device the
    log is on the list. *)
Lemma register_device_ok t a kz name misc t' ret :
  NoDup (m_log_list t) → (∀ p, p ∈ m_log_list t → is_Some (log_heap t !! p)) →
  kz ∉ m_log_list t → register_device t a kz name misc = (t', ret) →
  log_mem t' = log_mem t ∧ g_log_buffer t' = g_log_buffer t ∧
  (misc.1 = 0 → NoDup (m_log_list t') ∧ ∀ p, p ∈ m_log_list t' → is_Some (log_heap t' !! p)).
Proof.
  intros H1 H2 Hkz. unfold register_device. destruct (kz =? 0); [by intros [= <- <-]|].
  destruct (name =? 0); [by intros [= <- <-]|]. destruct misc as [mret minor]. simpl.
  destruct (nonzero mret) eqn:Em.
  { apply nonzero_true in Em. by intros [= <- <-]. }
  intros [= <- <-]. split; [done|]. split; [done|]. intros _. simpl. split.
  - apply NoDup_app. split; [done|]. split; [|apply NoDup_singleton].
    by intros x Hx ->%list_elem_of_singleton.
  - intros p Hp. destruct (decide (p = kz)) as [->|Hn]; [by rewrite lookup_insert_eq|].
    rewrite lookup_insert_ne by done. apply H2. apply elem_of_app in Hp as [|Hp]; [done|].
    by apply list_elem_of_singleton in Hp.
Qed.

(** Setting up the log always returns and gives every mailbox block back; when
    the device can be registered the log can be taken down again. *)
Lemma tlogger_init_ok (e : Env) (s : St) m t pg kz name misc L :
  ba_owns s L → log_ok t → kz ∉ m_log_list t → g_log_buffer t = 0 →
  ∃ e' s' m' t' ret, init_tlogger_service e s m t pg kz name misc = Ret (e', s', m', t', ret) ∧
    ba_owns s' L ∧ (misc.1 = 0 → log_ok t').
Proof.
  intros Ho [H1 H2 H3] Hkz Hgb. unfold init_tlogger_service, register_tloger, register_mem_cfg.
  destruct (register_log_mem_ok e s m t pg L Ho Hgb)
    as (e1 & s1 & m1 & t1 & r & a & len & -> & Ho1 & El & Eh & Eb & Ha).
  rewrite !ret_bind. change (nonzero register_log_exception) with false. cbv iota.
  set (t2 := set_log_buffer t1 (g_log_buffer t1) (if len =? 0 then g_log_mem_len t1 else len)).
  destruct (nonzero (check_log_mem a _)) eqn:Ec.
  { eexists _, _, _, _, _. split; [done|]. split; [done|]. intros _.
    split; simpl; rewrite ?El, ?Eh; try done. }
  unfold map_log_mem. destruct (Z.eqb_spec a 0) as [->|Hne].
  { unfold check_log_mem in Ec. by destruct (_ <? _). }
  destruct (Ha Hne) as [b Hb]. change (log_mem (set_log_buffer t2 a (g_log_mem_len t2))) with (log_mem t1).
  rewrite (proj2 (at_index_Some _ _ _) Hb), ret_bind. set (b' := LogBuffer _ _).
  destruct (register_device _ a kz name misc) as [t4 r4] eqn:Ed.
  apply register_device_ok in Ed as (Em4 & Eb4 & Hl4); [|simpl; by rewrite ?El, ?Eh..].
  simpl in Em4, Eb4. assert (log_mem t4 !! a = Some b') as Ha4 by (rewrite Em4; apply lookup_insert_eq).
  destruct (nonzero r4).
  - unfold unmap_log_mem. rewrite (proj2 (at_index_Some _ _ _) Ha4), !ret_bind.
    eexists _, _, _, _, _. split; [done|]. split; [done|]. intros Hm. destruct (Hl4 Hm). by split.
  - eexists _, _, _, _, _. split; [done|]. split; [done|]. intros Hm. destruct (Hl4 Hm). split; try done.
    intros _. by rewrite Eb4, Ha4.
Qed.

Lemma unregister_loop_ok t l :
  NoDup l → (∀ p, p ∈ l → is_Some (log_heap t !! p)) → 
  ∃ t', unregister_loop t l = Ret t' ∧ log_mem t' = log_mem t ∧ g_log_buffer t' = g_log_buffer t.
Proof.
  revert t. induction l as [|p l IH]; intros t Hn Hl; [by exists t|]. cbn [unregister_loop].
  apply NoDup_cons in Hn as [Hp Hn]. destruct (Hl p) as [x Hx]; [left|].
  rewrite (proj2 (at_index_Some _ _ _) Hx), ret_bind.
  destruct (IH (set_logs t (delete p (log_heap t)) l (g_log t))) as (t' & -> & E1 & E2); [done| |by exists t'].
  intros q Hq. simpl. rewrite lookup_delete_ne by (by intros ->). apply Hl. by right.
Qed.

Lemma tlogger_exit_ok t : log_ok t → ∃ t', exit_tlogger_service t = Ret t'.
Proof.
  intros [H1 H2 H3]. unfold exit_tlogger_service, unregister_tlogger, unregister_mem_cfg, unmap_log_mem.
  destruct (unregister_loop_ok t (m_log_list t) H1 H2) as (t1 & -> & Em & Eb). rewrite ret_bind, Em, Eb.
  destruct (nonzero (g_log_buffer t)) eqn:E; [|by eexists].
  apply nonzero_true in E. destruct (H3 E) as [b Hb].
  rewrite (proj2 (at_index_Some _ _ _) Hb), !ret_bind. by eexists.
Qed.

End Log.

(** ** The module *)

Section Module.
Context {Env W : Type} {SMC : SmcChannel Env} {RS : RawSmc Env} {RL : RawSmcLaws Env RS}.
Context {P : PageMap} {PL : PageMapLaws P} {SC : SecureC} {SCL : SecureCLaws SC}.
Context {SB : SecureBuf} {SBL : SecureBufLaws SB} {KA : KernelAlloc}.
Context (def_tee_agent_run def_tee_agent_stop :
           kernel_agent_data → W → outcome (W * kernel_agent_data * Z)).
Context (fuel : nat).

Abbreviation module := (@module Env W).

(** The components a step of the initialisation leaves alone. *)
Record same_outside (M M' : module) : Prop := {
  sa_chardev : mo_chardev M' = mo_chardev M;
  sa_log : mo_log M' = mo_log M;
  sa_reg : mo_reg M' = mo_reg M
}.

Lemma boot_mailbox_ok (M : module) g :
  0 ≤ bg_pool g →
  ∃ M' ret, boot_mailbox M g = Ret (M', ret) ∧ same_outside M M' ∧
    mo_smc M' = mo_smc M ∧ mo_spi M' = mo_spi M ∧
    (ret = 0 → ba_owns (mo_pool M') ∅) ∧ (ret ≠ 0 → g_m_zone (mo_pool M') = None).
Proof.
  intros Hb. unfold boot_mailbox. destruct (tc_ns_smc _ _ _ _) as [[[[e m] o] c] r].
  set (reg := λ pool, mailbox_register _ _ _ pool _).
  assert (∃ s ret, mailbox_mempool_init (bg_zone g) (bg_pool g) reg = Ret (s, ret) ∧
    (ret ≠ 0 → g_m_zone s = None)) as (s & ret & E & Hno).
  { unfold mailbox_mempool_init. change (get_order MAILBOX_POOL_SIZE) with 10.
    destruct (zero_or_null_ptr _); [by eexists _, _|]. destruct (_ =? 0); [by eexists _, _|].
    destruct (nonzero _); [by eexists _, _|].
    destruct (init_zone_ok (bg_pool g)) as (z & -> & _). by eexists _, _. }
  rewrite E, ret_bind. eexists _, _. split; [done|].
  assert (ret = 0 → ba_owns s ∅) as Hown.
  { intros ->. exists (bg_pool g), ∅. split; [by eapply mailbox_init_ok|].
    intros a. split; [set_solver|]. intros (h & _ & [k Hk]). by rewrite lookup_empty in Hk. }
  by destruct (negb _).
Qed.

Lemma owns_zone (s : mailbox) L : ba_owns s L → ∃ s', mailbox_mempool_destroy s = Ret s' ∧ g_m_zone s' = None.
Proof.
  intros (base & U & (z & Hz & _) & _). unfold mailbox_mempool_destroy. rewrite Hz. by eexists.
Qed.

(** What the kernel gives is new. *)
Record kernel_answers (M : module) (g : boot_gives) : Prop := {
  ka_siq : thread_ptr (kthreads (mo_smc M)) (bg_siq g);
  ka_ipi : thread_ptr ({[ bg_siq g ]} ∪ kthreads (mo_smc M)) (bg_ipi g);
  ka_svc : thread_ptr ({[ bg_ipi g ]} ∪ ({[ bg_siq g ]} ∪ kthreads (mo_smc M))) (bg_svc g);
  ka_pool : 0 ≤ bg_pool g;
  ka_notify : notify_heap (mo_spi M) !! bg_notify_pages g = None;
  ka_frames : frames_at (bg_notify_pages g) NOTIFY_PAGES ## notify_frames (mo_spi M)
}.

(** The services of the TEE are up. *)
Record teeos_up (M M' : module) (g : boot_gives) : Prop := {
  tu_smc : smc_up (mo_smc M) (mo_smc M') (bg_cmd_pages g) (bg_siq g) (bg_ipi g);
  tu_mailbox : ba_owns (mo_pool M') ∅;
  tu_notify : g_notify_data (mo_spi M') = bg_notify_pages g;
  tu_page : notify_heap (mo_spi M') !! bg_notify_pages g = Some zero_notify_data
}.

Record teeos_down (M' : module) : Prop := {
  td_mailbox : g_m_zone (mo_pool M') = None;
  td_spi : spi_off (mo_spi M');
  td_key : g_session_root_key (mo_smc M') = None;
  td_svc : is_err_or_null (g_smc_svc_thread (mo_smc M')) = true
}.

Lemma free_data_ok (g : smc_globals) :
  (is_err_or_null (g_smc_svc_thread g) = false → g_smc_svc_thread g ∈ kthreads g) →
  ∃ g', smc_free_data g = Ret g' ∧ g_session_root_key g' = None ∧
    is_err_or_null (g_smc_svc_thread g') = true ∧
    cmd_frames g' = cmd_frames g ∖ {[ g_cmd_data g ]} ∧
    kthreads g ∖ {[ g_smc_svc_thread g ]} ⊆ kthreads g'.
Proof.
  intros Hv. unfold smc_free_data. cbn [g_smc_svc_thread set_cmd_data kthreads].
  destruct (is_err_or_null (g_smc_svc_thread g)) eqn:Ev.
  - rewrite ret_bind. eexists. split; [done|]. simpl. split_and!; try done. set_solver.
  - unfold kthread_stop. rewrite decide_True by (by apply Hv). rewrite !ret_bind. eexists.
    split; [done|]. done.
Qed.

Lemma spi_exit_ok (e : Env) (s : mailbox) m x L :
  ba_owns s L →
  ∃ e' s' m' x', tz_spi_exit e s m x = Ret (e', s', m', x') ∧ ba_owns s' L ∧ spi_off x'.
Proof.
  intros Ho. unfold tz_spi_exit.
  assert (∀ x1 : spi_state, g_notify_data x1 = 0 →
    spi_off (if g_tz_spi_wq x1 then flush_and_destroy x1 else x1)) as Hoff.
  { intros x1 E. by destruct (g_tz_spi_wq x1) eqn:Ew. }
  destruct (Z.eqb_spec (g_notify_data x) 0) as [E|Hne].
  - rewrite ret_bind. eexists _, _, _, _. split; [done|]. split; [done|]. by apply Hoff.
  - destruct (send_notify_cmd_balanced e s m (g_notify_data x) GLOBAL_CMD_ID_UNREGISTER_NOTIFY_MEMORY L Ho)
      as (e' & s' & m' & r & -> & Ho'). rewrite !ret_bind. eexists _, _, _, _. split; [done|].
    split; [done|]. by apply Hoff.
Qed.

Lemma boot_spi_ok (M : module) g class_dev :
  ba_owns (mo_pool M) ∅ → spi_off (mo_spi M) →
  notify_heap (mo_spi M) !! bg_notify_pages g = None →
  frames_at (bg_notify_pages g) NOTIFY_PAGES ## notify_frames (mo_spi M) →
  ∃ M' ret, boot_spi M g class_dev = Ret (M', ret) ∧ same_outside M M' ∧ mo_smc M' = mo_smc M ∧
    ba_owns (mo_pool M') ∅ ∧ (ret ≠ 0 → spi_off (mo_spi M')) ∧
    (ret = 0 → g_notify_data (mo_spi M') = bg_notify_pages g ∧
       notify_heap (mo_spi M') !! bg_notify_pages g = Some zero_notify_data).
Proof.
  intros Ho Hx Hh Hf. unfold boot_spi.
  destruct (spi_init_exit (mo_env M) (mo_pool M) (mo_mem M) (mo_spi M) (negb (class_dev =? 0))
    (g_dev_node (mo_chardev M)) (bg_spi_wq g) (bg_irq g) (bg_notify_pages g) ∅ Ho Hx Hh Hf)
    as (e & s & m & x & ret & -> & Ho1 & Hno & Hok). rewrite ret_bind. eexists _, _. split; [done|].
  split; [done|]. split; [done|]. split; [done|]. split; [done|]. intros Hr.
  destruct (Hok Hr) as (? & _ & ? & _). done.
Qed.

Lemma teeos_init_ok (M : module) g class_dev :
  (raw_rank (mo_env M) < fuel)%nat → smc_off (mo_smc M) → spi_off (mo_spi M) →
  g_m_zone (mo_pool M) = None → kernel_answers M g →
  ∃ M' ret, tc_teeos_init fuel M g class_dev = Ret (Some (M', ret)) ∧ same_outside M M' ∧
    (ret = 0 → teeos_up M M' g) ∧ (ret ≠ 0 → teeos_down M').
Proof.
  intros Hr Hs Hx Hz HK. unfold tc_teeos_init.
  destruct (context_init_spec fuel (mo_env M) (mo_smc M) (negb (is_err_or_null class_dev)) (bg_cmd_pages g)
    (bg_siq g) (bg_ipi g) (bg_monitor_wq g) Hr Hs (ka_siq _ _ HK) (ka_ipi _ _ HK))
    as (e & sg & ret & -> & Hup & Hdown). rewrite ret_bind.
  destruct (nonzero ret) eqn:En.
  { apply nonzero_true in En. destruct (Hdown En) as [Hk _ Hv]. eexists _, _. split; [done|].
    split; [done|]. split; [done|]. intros _. split; try done. simpl. by rewrite Hv. }
  apply nonzero_false in En. specialize (Hup En). set (M1 := set_smc _ sg).
  destruct (boot_mailbox_ok M1 g (ka_pool _ _ HK)) as (M2 & r2 & -> & [A1 A2 A3] & Es2 & Ex2 & Hok2 & Hno2).
  rewrite ret_bind. destruct (free_data_ok sg) as (sg2 & Efree & Hk2 & Hv2 & _).
  { rewrite (su_svc _ _ _ _ _ Hup). done. }
  destruct (nonzero r2) eqn:En2.
  { apply nonzero_true in En2. rewrite Es2. change (mo_smc M1) with sg. rewrite Efree, ret_bind.
    eexists _, _. split; [done|]. split; [by split|]. split; [done|]. intros _.
    split; simpl; [by apply Hno2|by rewrite Ex2|done|done]. }
  apply nonzero_false in En2. specialize (Hok2 En2).
  destruct (boot_spi_ok M2 g class_dev) as (M3 & r3 & -> & [B1 B2 B3] & Es3 & Ho3 & Hno3 & Hok3).
  { done. }
  { by rewrite Ex2. }
  { rewrite Ex2. apply (ka_notify _ _ HK). }
  { rewrite Ex2. apply (ka_frames _ _ HK). }
  rewrite ret_bind.
  assert (same_outside M M3) as HS by (split; etrans; eauto).
  destruct (nonzero r3) eqn:En3.
  - apply nonzero_true in En3. destruct (owns_zone _ _ Ho3) as (s4 & -> & Hz4). rewrite ret_bind.
    change (mo_smc (set_call M3 _ _ _ _)) with (mo_smc M3). rewrite Es3, Es2.
    change (mo_smc M1) with sg. rewrite Efree, ret_bind. eexists _, _. split; [done|].
    split; [by destruct HS; split|]. split; [done|]. intros _. split; simpl; [done|by apply Hno3|done|done].
  - apply nonzero_false in En3. destruct (Hok3 En3) as [? ?]. eexists _, _. split; [done|].
    split; [done|]. split; [|done]. intros _. split; try done. by rewrite Es3, Es2.
Qed.

(** ** Loading *)

(** The module before it is loaded. *)
Record module_off (M : module) : Prop := {
  mf_chardev : mo_chardev M = no_chardev;
  mf_smc : smc_off (mo_smc M);
  mf_spi : spi_off (mo_spi M);
  mf_pool : g_m_zone (mo_pool M) = None;
  mf_log : log_ok (mo_log M) ∧ g_log_buffer (mo_log M) = 0
}.

(** The device node of the driver is gone and its services are down. *)
Record module_down (M' : module) : Prop := {
  md_region : region_allocated (mo_chardev M') = false;
  md_class : g_driver_class (mo_chardev M') = false;
  md_device : class_device (mo_chardev M') = false;
  md_teeos : teeos_down M'
}.

(** The device node can be opened, no file and no service exists, the mailbox
    is empty, the notification page is registered, the session key of the TEE
    is known and its copy in the queue erased, and the threads run. *)
Record module_up (M M' : module) (g : boot_gives) : Prop := {
  mu_chardev : mo_chardev M' = Chardev true true true true true true;
  mu_lists : dev_file_list (mo_reg M') = [] ∧ g_service_list (mo_reg M') = [];
  mu_mailbox : ba_owns (mo_pool M') ∅;
  mu_notify : g_notify_data (mo_spi M') = bg_notify_pages g ∧
    notify_heap (mo_spi M') !! bg_notify_pages g = Some zero_notify_data;
  mu_key : ∃ l, length l = length (cmd_in (mo_smc M)) ∧ compat_in l ∧
    g_session_root_key (mo_smc M') = Some (root_key_in l);
  mu_erased : cmd_in (mo_smc M') = replicate (length (cmd_in (mo_smc M))) 0;
  mu_threads : {[ bg_ipi g; bg_siq g ]} ⊆ kthreads (mo_smc M');
  mu_svc : g_smc_svc_thread (mo_smc M') = bg_svc g ∧
    (is_err_or_null (bg_svc g) = false → bg_svc g ∈ kthreads (mo_smc M'));
  mu_frames : cmd_frames (mo_smc M') = cmd_frames (mo_smc M) ∪ frames_at (bg_cmd_pages g) CMD_PAGES ∧
    g_cmd_data (mo_smc M') = bg_cmd_pages g;
  mu_log : (bg_log_misc g).1 = 0 → log_ok (mo_log M')
}.

(** [cdev_add], the last step of [tc_ns_client_init], is the one that fails. *)
Definition cdev_lost (g : boot_gives) : Prop :=
  bg_platform g = 0 ∧ bg_node g = true ∧ bg_region g = 0 ∧
  is_err_or_null (bg_class g) = false ∧ is_err_or_null (bg_device g) = false ∧ bg_cdev g < 0.

(** The character device: with a status the class is gone; without one, and
    with a [cdev], everything is registered. *)
Lemma client_init_ok R g c R' class_dev ret :
  tc_ns_client_init no_chardev R g = (c, R', class_dev, ret) →
  (ret ≠ 0 → region_allocated c = false ∧ g_driver_class c = false ∧ class_device c = false) ∧
  (ret = 0 → ¬ cdev_lost g → c = Chardev true true true true true true ∧ R' = init_lists R ∧
     is_err_or_null class_dev = false).
Proof.
  unfold tc_ns_client_init, load_hw_info.
  destruct (nonzero (bg_platform g)) eqn:Ep; [by intros [= <- <- <- <-]|].
  destruct (bg_node g) eqn:En; cbn [negb]; [|by intros [= <- <- <- <-]].
  change (nonzero 0) with false. cbv iota.
  destruct (nonzero (bg_region g)) eqn:Er; [by intros [= <- <- <- <-]|].
  destruct (is_err_or_null (bg_class g)) eqn:Ec; [by intros [= <- <- <- <-]|].
  destruct (is_err_or_null (bg_device g)) eqn:Ed; [by intros [= <- <- <- <-]|].
  apply nonzero_false in Ep, Er. unfold create_cdev.
  destruct (Z.ltb_spec (bg_cdev g) 0); intros [= <- <- <- <-]; (split; [done|]); [|done].
  intros _ []. by split_and!.
Qed.

Lemma re_init_ok (M0 M : module) g :
  teeos_up M0 M g → log_ok (mo_log M) → bg_log g ∉ m_log_list (mo_log M) → g_log_buffer (mo_log M) = 0 →
  ∃ M', tc_re_init def_tee_agent_run M g = Ret M' ∧ mo_chardev M' = mo_chardev M ∧ mo_reg M' = mo_reg M ∧
    mo_spi M' = mo_spi M ∧ mo_smc M' = (init_smc_svc_thread (mo_smc M) (bg_svc g)).1 ∧
    ba_owns (mo_pool M') ∅ ∧ ((bg_log_misc g).1 = 0 → log_ok (mo_log M')) ∧ g_tee_agent_list M' = [].
Proof.
  intros HU Hl Hk Hb. unfold tc_re_init, agent_init, tee_agent_kernel_init. cbn [kernel_init_loop].
  rewrite !ret_bind. set (M1 := set_agents _ _ _ _).
  destruct (tlogger_init_ok (mo_env M1) (mo_pool M1) (mo_mem M1) (mo_log M1) (bg_log_pages g) (bg_log g)
    (bg_log_name g) (bg_log_misc g) ∅) as (e & s & m & t & ret & -> & Ho & Hlog); try done.
  { apply (tu_mailbox _ _ _ HU). }
  rewrite ret_bind. eexists. split; [done|]. by split_and!.
Qed.

Lemma tc_init_ok (M : module) g :
  (raw_rank (mo_env M) < fuel)%nat → module_off M → kernel_answers M g →
  bg_log g ∉ m_log_list (mo_log M) → ¬ cdev_lost g →
  ∃ M' ret, tc_init def_tee_agent_run fuel M g = Ret (Some (M', ret)) ∧
    (ret ≠ 0 → module_down M') ∧ (ret = 0 → module_up M M' g ∧ g_tee_agent_list M' = []).
Proof.
  intros Hr [Hc Hs Hx Hz [Hl Hb]] HK Hlg Hcd. unfold tc_init. rewrite Hc.
  destruct (tc_ns_client_init no_chardev (mo_reg M) g) as [[[c R] dev] r] eqn:E.
  apply client_init_ok in E as [Hno Hok]. set (M1 := set_chardev _ c).
  destruct (nonzero r) eqn:En.
  { apply nonzero_true in En. destruct (Hno En) as (? & ? & ?). eexists _, _. split; [done|].
    split; [|done]. intros _. split; try done. destruct Hs as [? Hv _]. split; try done. simpl. by rewrite Hv. }
  apply nonzero_false in En. destruct (Hok En Hcd) as (-> & -> & _).
  destruct (teeos_init_ok M1 g dev) as (M2 & r2 & -> & [S1 S2 S3] & Hup & Hdown); try done.
  { destruct HK. by split. }
  rewrite ret_bind. destruct (nonzero r2) eqn:En2.
  { apply nonzero_true in En2. destruct (Hdown En2). unfold destroy_class. rewrite S1. simpl.
    eexists _, _. split; [done|]. split; [|done]. intros _. by split. }
  apply nonzero_false in En2. specialize (Hup En2).
  destruct (re_init_ok M1 M2 g) as (M3 & -> & C1 & C2 & C3 & C4 & C5 & C6 & C7); rewrite ?S2; try done.
  rewrite ret_bind. eexists _, _. split; [done|]. split; [done|]. intros _. split; [|done].
  destruct Hup as [[Q1 Q2 Q3 Q4 Q5] Q6 Q7 Q8].
  split; rewrite ?C1, ?C2, ?C3, ?C4, ?S1, ?S3; try done; simpl.
  - rewrite Q4. unfold thread_created_at. clear. destruct (is_err_or_null _); set_solver.
  - split; [done|]. intros Ev. unfold thread_created_at. rewrite Ev. clear. set_solver.
  - by destruct Q1 as (? & ? & ?).
Qed.

(** ** Unloading *)

Lemma tc_exit_ok (M M' : module) g :
  module_up M M' g → kernel_answers M g → log_ok (mo_log M') → g_tee_agent_list M' = [] →
  ∃ M2, tc_exit def_tee_agent_stop M' = Ret M2 ∧ module_down M2 ∧
    platform_registered (mo_chardev M2) = true ∧ cdev_added (mo_chardev M2) = true ∧
    cmd_frames (mo_smc M2) = cmd_frames (mo_smc M') ∖ {[ bg_cmd_pages g ]} ∧
    {[ bg_ipi g; bg_siq g ]} ⊆ kthreads (mo_smc M2).
Proof.
  intros [Hc _ Ho _ _ _ Ht [Hv Hvt] [_ Hp] _] HK Hlog Hag. unfold tc_exit.
  destruct (spi_exit_ok (mo_env M') (mo_pool M') (mo_mem M') (mo_spi M') ∅ Ho)
    as (e & s & m & x & -> & Ho1 & Hx1). rewrite ret_bind.
  unfold destroy_class. cbn [mo_smc mo_chardev set_chardev set_spi set_call]. rewrite Hc.
  cbn [g_driver_class]. rewrite ret_bind. cbn [mo_smc set_chardev set_spi set_call].
  destruct (free_data_ok (mo_smc M')) as (sg & -> & G1 & G2 & G3 & G4); [by rewrite Hv|].
  rewrite Hp in G3. rewrite Hv in G4. destruct (ka_svc _ _ HK) as [_ Hn].
  assert ({[ bg_ipi g; bg_siq g ]} ⊆ kthreads sg) as G5 by (clear -Ht Hn G4; set_solver).
  rewrite ret_bind. cbn [mo_world set_smc g_tee_agent_list set_chardev set_spi set_call]. rewrite Hag.
  unfold agent_exit. cbn [tee_agent_kernel_exit]. rewrite ret_bind.
  cbn [mo_log set_agents set_smc set_chardev set_spi set_call].
  destruct (tlogger_exit_ok (mo_log M') Hlog) as (t & ->). rewrite ret_bind.
  destruct (owns_zone s ∅ Ho1) as (s2 & E2 & Hz2).
  match goal with |- context [mailbox_mempool_destroy ?x] => change x with s end. rewrite E2, ret_bind. eexists. split; [done|].
  split; [split; try done; split; try done|]. done.
Qed.

(** A [cdev_add] that fails is reported as success, after the device node, the
    class and the device numbers have been given back. *)
Lemma cdev_failure_hidden (R : registry) g :
  cdev_lost g →
  tc_ns_client_init no_chardev R g
  = (Chardev true true false false false false, R, bg_device g, 0).
Proof.
  intros (H1 & H2 & H3 & H4 & H5 & H6). unfold tc_ns_client_init, load_hw_info, create_cdev.
  by rewrite H1, H2, H3, H4, H5, (proj2 (Z.ltb_lt _ _) H6).
Qed.

(** The class cannot be destroyed twice: neither loading, when a later step
    fails, nor unloading survives. *)
Lemma exit_without_class (M : module) :
  g_driver_class (mo_chardev M) = false → tc_exit def_tee_agent_stop M = Fault.
Proof.
  intros Hc. unfold tc_exit. destruct (tz_spi_exit _ _ _ _) as [[[[e s] m] x]|]; [|done].
  rewrite ret_bind. unfold destroy_class. cbn [mo_chardev set_spi set_call]. by rewrite Hc.
Qed.

Lemma load_without_cdev (M : module) g :
  (raw_rank (mo_env M) < fuel)%nat → module_off M → kernel_answers M g →
  bg_log g ∉ m_log_list (mo_log M) → cdev_lost g →
  tc_init def_tee_agent_run fuel M g = Fault ∨
  ∃ M', tc_init def_tee_agent_run fuel M g = Ret (Some (M', 0)) ∧
    mo_chardev M' = Chardev true true false false false false.
Proof.
  intros Hr [Hc Hs Hx Hz [Hl Hb]] HK Hlg Hcd. unfold tc_init. rewrite Hc, (cdev_failure_hidden _ g Hcd).
  change (nonzero 0) with false. cbv iota. set (M1 := set_chardev _ _).
  destruct (teeos_init_ok M1 g (bg_device g)) as (M2 & r2 & -> & [S1 S2 S3] & Hup & _); try done.
  { destruct HK. by split. }
  rewrite ret_bind. destruct (nonzero r2) eqn:En2.
  { left. unfold destroy_class. by rewrite S1. }
  right. apply nonzero_false in En2. specialize (Hup En2).
  destruct (re_init_ok M1 M2 g) as (M3 & -> & C1 & _); rewrite ?S2; try done.
  rewrite ret_bind. eexists. split; [done|]. by rewrite C1, S1.
Qed.

(** C28. Loading the module, and unloading it.  Unless [cdev_add] is the step
    of [tc_ns_client_init] that fails, loading is all or nothing: when a step
    fails (device, queue, key or version of the TEE, threads, mailbox,
    notifications), the class, the device node and the device numbers are
    gone, and the mailbox, the notifications and the session key with them;
    otherwise everything is up, the key of the TEE has been taken from the
    queue and erased there, and unloading the module, when its log device could
    be registered, returns and takes all of this down.  When [cdev_add] fails,
    the code does not notice: loading either uses the class it has destroyed, or
    returns 0 with the class, the device node and the device numbers gone, and
    unloading then uses the destroyed class.  (The module starts unloaded, the
    kernel returns memory and threads that are not in use, and the TEE answers
    its raw calls within the fuel.) *)
Theorem module_load_unload (M : module) g :
  (raw_rank (mo_env M) < fuel)%nat → module_off M → kernel_answers M g →
  bg_log g ∉ m_log_list (mo_log M) →
  (¬ cdev_lost g →
   ∃ M' ret, tc_init def_tee_agent_run fuel M g = Ret (Some (M', ret)) ∧
     (ret ≠ 0 → module_down M') ∧
     (ret = 0 → module_up M M' g ∧
        ((bg_log_misc g).1 = 0 → ∃ M2, tc_exit def_tee_agent_stop M' = Ret M2 ∧ module_down M2))) ∧
  (cdev_lost g →
   tc_init def_tee_agent_run fuel M g = Fault ∨
   ∃ M', tc_init def_tee_agent_run fuel M g = Ret (Some (M', 0)) ∧
     mo_chardev M' = Chardev true true false false false false ∧
     tc_exit def_tee_agent_stop M' = Fault).
Proof.
  intros Hr Hoff HK Hlg. split; intros Hcd.
  - destruct (tc_init_ok M g Hr Hoff HK Hlg Hcd) as (M' & ret & E & Hno & Hok).
    exists M', ret. split; [done|]. split; [done|]. intros H0. destruct (Hok H0) as [Hup Hag].
    split; [done|]. intros Hm. destruct (tc_exit_ok M M' g) as (M2 & E2 & Hd & _); try done.
    { by apply (mu_log _ _ _ Hup). }
    by exists M2.
  - destruct (load_without_cdev M g Hr Hoff HK Hlg Hcd) as [E|(M' & E & Ec)]; [by left|right].
    exists M'. split_and!; [done..|]. apply exit_without_class. by rewrite Ec.
Qed.

(** Unloading leaves registrations and memory behind: the platform driver
    and the character device stay registered, all pages of the command queue
    but the first stay allocated, and the statistics thread and the IPI helper
    keep running in a module that is gone. *)
Theorem module_unload_leaks (M : module) g :
  (raw_rank (mo_env M) < fuel)%nat → module_off M → kernel_answers M g →
  bg_log g ∉ m_log_list (mo_log M) → ¬ cdev_lost g → (bg_log_misc g).1 = 0 →
  ∃ M' ret, tc_init def_tee_agent_run fuel M g = Ret (Some (M', ret)) ∧
    (ret = 0 → ∃ M2, tc_exit def_tee_agent_stop M' = Ret M2 ∧
      platform_registered (mo_chardev M2) = true ∧ cdev_added (mo_chardev M2) = true ∧
      frames_at (bg_cmd_pages g) CMD_PAGES ∖ {[ bg_cmd_pages g ]} ⊆ cmd_frames (mo_smc M2) ∧
      {[ bg_ipi g; bg_siq g ]} ⊆ kthreads (mo_smc M2)).
Proof.
  intros Hr Hoff HK Hlg Hcd Hm. destruct (tc_init_ok M g Hr Hoff HK Hlg Hcd) as (M' & ret & E & _ & Hok).
  exists M', ret. split; [done|]. intros H0. destruct (Hok H0) as [Hup Hag].
  destruct (tc_exit_ok M M' g) as (M2 & E2 & _ & ? & ? & Ef & ?); try done.
  { by apply (mu_log _ _ _ Hup). }
  exists M2. split_and!; try done. rewrite Ef, (proj1 (mu_frames _ _ _ Hup)). clear. set_solver.
Qed.

End Module.

(** ** A machine on which the module can be loaded *)

(** A TEE that accepts every command, and writes a key and its version. *)
Definition ready_tee : SmcChannel unit := {|
  smc_sees e _ := e;
  tc_ns_smc e m o c := (e, m, o, c, TEEC_SUCCESS);
  tc_ns_smc_with_no_nr e m o c := (e, m, o, c, TEEC_SUCCESS)
|}.

Definition config_words : list Z :=
  replicate 4 0 ++ replicate 32 7 ++ replicate 64 0
  ++ le_bytes 4 VER_CHECK_MAGIC_NUM ++ le_bytes 4 TEEOS_COMPAT_LEVEL_MAJOR ++ le_bytes 4 1.

Definition ready_smc : RawSmc unit :=
  {| smc_regs e l cmd a t := (e, if decide (length l = 112%nat) then config_words else l, 0) |}.

#[export] Instance ready_smc_laws : RawSmcLaws unit ready_smc.
Proof.
  refine {| raw_rank _ := O |}; simpl.
  - intros e l cmd a t e' l' ret [= <- <- <-]. by destruct (decide _) as [->|].
  - intros e l cmd a t e' l'. done.
Defined.

Definition fresh_driver : driver unit mailbox :=
  Driver (CallState tt (Mailbox None 0) ∅ (Registry ∅ ∅ ∅ ∅ [] [] 1) demo_op INVALID_TZMP_UID)
    (AgentControl ∅ []) teecd_init 0.

Definition fresh_module : module (Env := unit) (W := unit) :=
  Module_ fresh_driver no_chardev
    (SmcGlobals 0 0 ∅ (replicate 112 0) None 0 0 0 ∅ (MonState ∅ [] 0 0 0 false false false 0))
    spi_boot (Tlogger ∅ ∅ ∅ [] 0 0 0 0 0 0) tt [].

(** Everything is available but the pages of the log. *)
Definition ready_kernel : boot_gives :=
  BootGives 0 true 0 0x1000 0x2000 0 0x400000 0x3000 0x4000 true 0x5000 5 0x6000 0x7000 true 0
    0x800000 0 0x8000 0x9000 (0, 10) 0xa000.

Definition no_agent (d : kernel_agent_data) (w : unit) : outcome (unit * kernel_agent_data * Z) :=
  Ret (w, d, 0).

Lemma fresh_module_off : module_off fresh_module.
Proof.
  split; [done| |done|done|].
  - split; [done|done|]. split; vm_compute; discriminate.
  - split; [|done]. split; simpl; [constructor|by intros p ?%elem_of_nil|done].
Qed.

Lemma ready_kernel_answers : kernel_answers fresh_module ready_kernel.
Proof.
  split; simpl; [..|done|done|].
  - split; [lia|set_solver].
  - split; [lia|set_solver].
  - split; [lia|set_solver].
  - apply disjoint_empty_r.
Qed.

Abbreviation demo_init :=
  (tc_init (Env := unit) (W := unit) (SMC := ready_tee) (RS := ready_smc) (P := linear_map)
     (SC := boundscheck) (SB := bounds_buf) (KA := demo_alloc_ok_all) no_agent 1).
Abbreviation demo_exit :=
  (tc_exit (Env := unit) (W := unit) (SMC := ready_tee) (P := linear_map)
     (SC := boundscheck) no_agent).

Lemma ready_cdev : ¬ cdev_lost ready_kernel.
Proof. intros (_ & _ & _ & _ & _ & H). vm_compute in H. discriminate. Qed.

Lemma demo_init_succeeds :
  match demo_init fresh_module ready_kernel with Ret (Some (_, r)) => r =? 0 | _ => false end = true.
Proof. vm_compute. reflexivity. Qed.

Lemma module_load_unload_witness :
  ∃ M' M2, demo_init fresh_module ready_kernel = Ret (Some (M', 0)) ∧
    demo_exit M' = Ret M2 ∧ g_m_zone (mo_pool M2) = None.
Proof.
  destruct (module_load_unload (SMC := ready_tee) (RS := ready_smc) (P := linear_map)
    (SC := boundscheck) (SB := bounds_buf) (KA := demo_alloc_ok_all) no_agent no_agent 1
    fresh_module ready_kernel) as [H _];
    [exact (le_n 1)|exact fresh_module_off|exact ready_kernel_answers|apply not_elem_of_nil|].
  destruct H as (M' & ret & E & _ & Hok); [exact ready_cdev|].
  pose proof demo_init_succeeds as Hr. rewrite E in Hr. apply Z.eqb_eq in Hr. destruct (Hok Hr) as [_ Hex].
  destruct Hex as (M2 & E2 & Hd); [reflexivity|]. exists M', M2. rewrite <- Hr at 1.
  split; [exact E|]. split; [exact E2|]. exact (td_mailbox _ (md_teeos _ Hd)).
Defined.

Lemma module_unload_leaks_witness :
  ∃ M' M2, demo_init fresh_module ready_kernel = Ret (Some (M', 0)) ∧ demo_exit M' = Ret M2 ∧
    cdev_added (mo_chardev M2) = true ∧ 0x3000 ∈ kthreads (mo_smc M2).
Proof.
  destruct (module_unload_leaks (SMC := ready_tee) (RS := ready_smc) (P := linear_map)
    (SC := boundscheck) (SB := bounds_buf) (KA := demo_alloc_ok_all) no_agent no_agent 1
    fresh_module ready_kernel) as (M' & ret & E & Hok);
    [exact (le_n 1)|exact fresh_module_off|exact ready_kernel_answers|apply not_elem_of_nil|exact ready_cdev
    |reflexivity|].
  pose proof demo_init_succeeds as Hr. rewrite E in Hr. apply Z.eqb_eq in Hr.
  destruct (Hok Hr) as (M2 & E2 & _ & Hc & _ & Ht). exists M', M2. rewrite <- Hr at 1.
  split; [exact E|]. split; [exact E2|]. split; [exact Hc|]. apply Ht. simpl. set_solver.
Defined.
