(* ===== verification/EndToEnd.v ===== *)
(** * The whole stack: requests, calls, the mailbox and the command queue

    The driver's requests and [tc_client_call] are proved against the
    interfaces of the allocator and of the SMC layer.  Here both are the
    driver's own: the mailbox pool and the command queue of [SmcChan].
    [queue_behaves] discharges what the calls rely on; [slots_now] follows the
    queue's slots through a call; [requests_good] carries what every command
    leaves true of the SMC layer through all requests; the theorems compose the
    layers. *)

From stdpp Require Import base gmap list relations.
From Stdlib Require Import ZArith Lia.
From S2P Require Import Prelude KernelApi TeeTypes Buffers Mailbox MailboxClaims SessReg.
From S2P Require Import SessLookup SessOk CallTypes Auth AuthCall AuthOk GpParams GpCall GpHeld.
From S2P Require Import GpAlloc GpCallThm GpClaims Tlogger TloggerSys Agent AgentReg AgentThm AgentClaims.
From S2P Require Import SmcQueue SmcSteps SmcPending SmcPendingThm SmcSend SmcSendClaims SmcChan.
From S2P Require Import TeecdAuth TeecdClaims SessLoad SessMgr SessInv SessInvOps SessInvFind.
From S2P Require Import SessMgrThm SessUse Login ShareMem ShareMemClaims Driver DevClose DriverThm.
From S2P Require Import AuthCipher DriverSteps DriverClaims.

(** ** The queue keeps what its callers rely on *)

Section Serve.
Context {T : Type} {TC : TeeCore T} {TL : TeeCoreLaws T TC}.

Lemma serve_keeps n t m o c t' m' o' a :
  tee_serve n t m o c = Some (t', m', o', a) →
  op_sharemem o' = op_sharemem o ∧ op_mb_buffer o' = op_mb_buffer o.
Proof.
  revert t m o c. induction n as [|n IH]; intros t m o c; simpl;
    destruct (tee_run t m o c) as [[[t1 m1] o1] b] eqn:Er;
    destruct (core_keeps _ _ _ _ _ _ _ _ Er) as [<- <-];
    (destruct (_ =? TEEC_PENDING2); [destruct (_ =? CMD_TYPE_TA); [done|]|]); try done.
  1,3: by intros [= _ _ <- _].
  apply IH.
Qed.

(** The answer is in the slot of the command and is a final one. *)
Lemma serve_answer n t m o c t' m' o' a :
  tee_serve n t m o c = Some (t', m', o', a) →
  event_nr a = event_nr c ∧ 0 ≤ ret_val a < 2 ^ 32 ∧ ret_val a ≠ TEEC_PENDING2.
Proof.
  revert t m o c. induction n as [|n IH]; intros t m o c; simpl;
    destruct (tee_run t m o c) as [[[t1 m1] o1] b] eqn:Er;
    destruct (core_answer _ _ _ _ _ _ _ _ Er) as [<- ?];
    (destruct (Z.eqb_spec (ret_val b) TEEC_PENDING2);
     [destruct (_ =? CMD_TYPE_TA); [done|]|]); try done.
  1,3: by intros [= _ _ _ <-].
  apply IH.
Qed.

End Serve.

Section Stack.
Context {T : Type} {TC : TeeCore T} {TL : TeeCoreLaws T TC} {KT : KernelTime} {F : PhysMap}.
Context (pid pe_addr : Z) (Hpe : 16 < pe_addr).

Abbreviation chan := (queue_channel (TC := TC) (TL := TL) (KT := KT) (F := F) pid pe_addr).
Abbreviation env := (ready (T := T) pe_addr).

(** A call that reaches the queue, and one that names no slot. *)
Lemma ready_call_cases (reuse : bool) (e : env) m o c e' m' o' c' z :
  ready_call pid pe_addr reuse e m o c = (e', m', o', c', z) →
  (reuse = true ∧ ¬ valid_slot (event_nr c) ∧ (e', m', o', c', z) = (e, m, o, c, TEEC_ERROR_GENERIC)) ∨
  ((reuse = true → valid_slot (event_nr c)) ∧
   let r := channel_spec pid core_fuel reuse (rd_tee pe_addr e) (rd_queue pe_addr e)
              (rd_reg pe_addr e) m o c in
   outcome_of pid r (rd_tee pe_addr e) m o c = (rd_tee pe_addr e', m', o', c', z) ∧
   slots_after (rd_queue pe_addr e) (rd_queue pe_addr e') c reuse r).
Proof.
  intros E. destruct (decide (reuse = true ∧ ¬ valid_slot (event_nr c))) as [[-> Hn]|Hv].
  - left. unfold ready_call in E. rewrite bool_decide_false in E by done. done.
  - assert (reuse = true → valid_slot (event_nr c)) as Hev.
    { intros ->. destruct (decide (0 ≤ event_nr c < MAX_SMC_CMD)); [done|]. by destruct Hv. }
    right. split; [done|].
    destruct (ready_call_spec pid pe_addr reuse e m o c Hpe Hev)
      as (e1 & m1 & o1 & c1 & z1 & _ & E1 & Ho & Hs & _).
    rewrite E1 in E. by injection E as -> -> -> -> ->.
Qed.

Lemma channel_spec_served n reuse t q R m o c i t' m' o' a :
  channel_spec (T := T) pid n reuse t q R m o c = Some (i, t', m', o', a) →
  ∃ m1 c1, tee_serve n t m1 o c1 = Some (t', m', o', a).
Proof.
  unfold channel_spec. destruct (chosen _ _ _ _) as [[j c1]|]; [|done]. simpl.
  destruct (prepared _ _ _) as [[c2 m2]|]; [|done]. simpl.
  destruct (tee_serve _ _ _ _ _) as [[[[t1 m1] o1] a1]|] eqn:Es; [|done].
  intros [= <- <- <- <- <-]. by eexists _, _.
Qed.

Lemma ready_call_keeps (reuse : bool) (e : env) m o c e' m' o' c' z :
  ready_call pid pe_addr reuse e m o c = (e', m', o', c', z) →
  op_sharemem o' = op_sharemem o ∧ op_mb_buffer o' = op_mb_buffer o.
Proof.
  intros [(_ & _ & [= _ _ -> _ _])|(_ & Ho & _)]%ready_call_cases; [done|].
  destruct (channel_spec _ _ _ _ _ _ _ _ _) as [[[[[i t1] m1] o1] a]|] eqn:Es;
    injection Ho as _ _ <- _ _; [|done].
  destruct (channel_spec_served _ _ _ _ _ _ _ _ _ _ _ _ _ Es) as (? & ? & H).
  by apply serve_keeps in H.
Qed.

Lemma ready_call_rank (reuse : bool) (e : env) m o c e' m' o' c' z :
  ready_call pid pe_addr reuse e m o c = (e', m', o', c', z) → u32 z = TEEC_PENDING →
  (core_rank (rd_tee pe_addr e') < core_rank (rd_tee pe_addr e))%nat.
Proof.
  intros [(_ & _ & [= _ _ _ _ ->])|(_ & Ho & _)]%ready_call_cases; [done|].
  destruct (channel_spec _ _ _ _ _ _ _ _ _) as [[[[[i t1] m1] o1] a]|] eqn:Es;
    injection Ho as <- _ _ _ <-; [|done].
  destruct (channel_spec_served _ _ _ _ _ _ _ _ _ _ _ _ _ Es) as (? & ? & H).
  by eapply core_rank_dec.
Qed.

Definition queue_behaves : TeeBehaviour env chan.
Proof.
  refine {| tee_rank e := core_rank (rd_tee pe_addr e) |}.
  - intros *. apply ready_call_keeps.
  - intros *. apply ready_call_keeps.
  - intros e R. simpl. by destruct (decide _).
  - intros *. apply ready_call_rank.
Defined.

End Stack.

(** ** Only sending a command reaches the SMC layer *)

(** What holds of the value, if there is one. *)
Definition post {A} (Φ : A → Prop) (x : outcome A) : Prop := ∀ a, x = Ret a → Φ a.

Lemma post_ret {A} (Φ : A → Prop) a : Φ a → post Φ (Ret a).
Proof. by intros H ? [= <-]. Qed.

Lemma post_bind {A B} (Ψ : A → Prop) (Φ : B → Prop) x (f : A → outcome B) :
  post Ψ x → (∀ a, Ψ a → post Φ (f a)) → post Φ (x ≫= f).
Proof. intros Hx Hf b (a & Ha & Hb)%bind_Ret. eapply Hf; eauto. Qed.

Lemma post_any {A} (x : outcome A) : post (λ _, True) x.
Proof. done. Qed.

Create HintDb env.

Section CallEnv.
Context {Env St : Type} {BA : BlockAllocator St} {SMC : SmcChannel Env}.
Context {P : PageMap} {SC : SecureC} {SB : SecureBuf} {CM : ClientMem}.
Context {KR : KernelRandom} {KC : KernelCipher} {KA : KernelAlloc} {CU : Current}.
Context {VV : VirtValid}.

Abbreviation state := (call_state Env St).

(** The SMC layer is as in [k]. *)
Definition same_env (k k' : state) : Prop := cs_env k' = cs_env k.
Definition env_step {A} (k : state) (p : state * A) : Prop := same_env k p.1.

(** Walks through a function that only sets other fields of the state. *)
Ltac env_walk :=
  repeat (cbv zeta beta;
    lazymatch goal with
    | |- post _ (Ret _) => apply post_ret
    | |- post _ (if ?b then _ else _) => destruct b
    | |- post _ (match ?x with (_, _) => _ end) => destruct x
    | |- post _ (match ?x with Some _ => _ | None => _ end) => destruct x
    | |- post _ (?x ≫= _) =>
        eapply post_bind; [first [solve [eauto with env]|apply post_any]|intros ? ?]
    | |- post _ _ => solve [eauto with env]
    end);
  unfold env_step, same_env in *; simpl in *; try congruence.

Lemma free_temp_env k a : post (same_env k) (free_temp k a).
Proof. unfold free_temp. env_walk. Qed.
#[local] Hint Resolve free_temp_env : env.

Lemma free_param_env call k i : post (same_env k) (free_param call k i).
Proof. unfold free_param. env_walk. Qed.
#[local] Hint Resolve free_param_env : env.

Lemma free_params_env call k l : post (same_env k) (free_params call k l).
Proof.
  revert k. induction l as [|i l IH]; intros k; simpl; env_walk.
  intros k' E. specialize (IH _ _ E). unfold same_env in *. congruence.
Qed.
#[local] Hint Resolve free_params_env : env.

Lemma free_operation_env call k : post (same_env k) (free_operation call k).
Proof. apply free_params_env. Qed.
#[local] Hint Resolve free_operation_env : env.

Lemma alloc_tmp_env call k kp ty i : post (env_step k) (alloc_for_tmp_mem call k kp ty i).
Proof. unfold alloc_for_tmp_mem. env_walk. Qed.

Lemma ref_mem_loop_env k p i n l : post (env_step k) (ref_mem_loop k p i n l).
Proof. induction l as [|q l IH]; simpl; env_walk. Qed.
#[local] Hint Resolve ref_mem_loop_env : env.

Lemma alloc_ref_env call k kp ty i : post (env_step k) (alloc_for_ref_mem call k kp ty i).
Proof. unfold alloc_for_ref_mem. env_walk. Qed.

Lemma transfer_value_env call k kp ty i : post (env_step k) (transfer_client_value call k kp ty i).
Proof. unfold transfer_client_value. env_walk. Qed.

Lemma alloc_param_env call k kp i : post (env_step k) (alloc_param call k kp i).
Proof.
  unfold alloc_param. env_walk; [apply alloc_tmp_env|apply alloc_ref_env|apply transfer_value_env|..];
    by apply post_ret.
Qed.
#[local] Hint Resolve alloc_param_env : env.

Lemma alloc_params_env call k kp l : post (env_step k) (alloc_params call k kp l).
Proof.
  revert k kp. induction l as [|i l IH]; intros k kp; simpl; env_walk.
  all: intros p E; specialize (IH _ _ _ E); unfold env_step, same_env in *; congruence.
Qed.
#[local] Hint Resolve alloc_params_env : env.

Lemma alloc_operation_env call k : post (env_step k) (alloc_operation call k).
Proof. unfold alloc_operation. env_walk. Qed.

Lemma update_param_env call k api b i : post (env_step k) (update_param call k api b i).
Proof.
  unfold update_param, update_tmp_mem, update_tmp_mem_seen, update_for_ref_mem, update_for_value. env_walk.
  all: by repeat case_match.
Qed.
#[local] Hint Resolve update_param_env : env.

Lemma update_params_env call k api b l : post (env_step k) (update_params call k api b l).
Proof.
  revert k. induction l as [|i l IH]; intros k; simpl; env_walk.
  all: intros p E; specialize (IH _ _ E); unfold env_step, same_env in *; congruence.
Qed.
#[local] Hint Resolve update_params_env : env.

Lemma update_client_env call k b : post (env_step k) (update_client_operation call k b).
Proof. unfold update_client_operation. env_walk. Qed.
#[local] Hint Resolve update_client_env : env.

Lemma alloc_call_env k : post (env_step k) (alloc_for_client_call k).
Proof. unfold alloc_for_client_call. env_walk. Qed.

Lemma init_cmd_env call k : post (env_step k) (init_smc_cmd call k).
Proof. unfold init_smc_cmd. env_walk. Qed.
#[local] Hint Resolve init_cmd_env : env.

Lemma check_login_env call k : post (env_step k) (check_login_for_encrypt call k).
Proof. unfold check_login_for_encrypt. env_walk. Qed.
#[local] Hint Resolve check_login_env : env.

Lemma config_env call k : post (env_step k) (config_smc_cmd_context call k).
Proof. unfold config_smc_cmd_context. env_walk. Qed.

Lemma post_proc_env call k tr : post (env_step k) (post_proc_smc_return call k tr).
Proof. unfold post_proc_smc_return. env_walk. Qed.

Lemma release_env call k tr :
  post (λ p, same_env k p.1 ∧ returns_code p.2 = tr) (release_tc_call_resource call k tr).
Proof.
  unfold release_tc_call_resource. eapply (post_bind (same_env k)).
  - destruct (op_inited _); [apply free_operation_env|by apply post_ret].
  - intros k' Hk. eapply post_bind; [apply post_any|]. intros s _. by apply post_ret.
Qed.

(** The context reports the TEE's last status. *)
Lemma free_src_env call k tr r :
  post (λ p, ∃ k' x, p = Some (k', x, r) ∧ same_env k k' ∧ returns_code x = tr)
    (free_src call k tr r).
Proof.
  unfold free_src. eapply post_bind; [apply release_env|].
  intros [k' x] [Hk Hx]. apply post_ret. exists k', x. split_and!; [done| |done].
  unfold same_env in *. simpl in Hk. rewrite Hk. by destruct (r <? 0).
Qed.

End CallEnv.

(** ** A channel that answers every command *)

Definition is_pending (tee_ret : Z) : bool := u32 tee_ret =? TEEC_PENDING.

Create HintDb chan.

Section Answered.
Context {Env St : Type} {BA : BlockAllocator St} {SMC : SmcChannel Env}.
Context {P : PageMap} {SC : SecureC} {SB : SecureBuf} {CM : ClientMem} {UA : UserAccess}.
Context {KR : KernelRandom} {KC : KernelCipher} {KA : KernelAlloc} {CU : Current}.
Context {VV : VirtValid} {CR : Agent.Caller} {DL : DevLayout}.
Context {SS : SecureStr} {HS : Shash} {TK : Task} {UM : UserMap} {TS : TaskState}.
Context (allowed : list ca_info) (fuel : nat) (g_root : session_crypto_info).

Abbreviation state := (call_state Env St).

(** What every command leaves true of the SMC layer; none is left pending. *)
Context (Φ : Env → Prop) (Φ_sees : ∀ e R, Φ e → Φ (smc_sees e R)).
Context (Φ_smc : ∀ e m o c e' m' o' c' r,
  Φ e → tc_ns_smc e m o c = (e', m', o', c', r) → Φ e' ∧ is_pending r = false).

Definition good (k : state) : Prop := Φ (cs_env k).
Definition good_pair {A} (p : state * A) : Prop := good p.1.
Definition good_call {A B} (o : option (state * A * B)) : Prop :=
  match o with Some (k, _, _) => good k | None => True end.
Definition good_res {A} (o : option (state * A)) : Prop :=
  match o with Some (k, _) => good k | None => True end.
Definition good_opt (o : option state) : Prop :=
  match o with Some k => good k | None => True end.

Ltac chan_walk :=
  repeat (cbv zeta beta;
    lazymatch goal with
    | |- post _ (Ret _) => apply post_ret
    | |- post _ (if ?b then _ else _) => destruct b
    | |- post _ (match tc_ns_smc _ _ _ _ with _ => _ end) =>
        let Es := fresh "Es" in
        destruct (tc_ns_smc _ _ _ _) as [[[[? ?] ?] ?] ?] eqn:Es;
        apply Φ_smc in Es as [? ?]; [|assumption]
    | |- post _ (match ?x with _ => _ end) => destruct x
    | |- post _ (?x ≫= _) =>
        eapply post_bind; [first [solve [eauto with chan]|apply post_any]|intros ? ?]
    | |- post _ _ => solve [eauto with chan]
    end; simpl in *);
  unfold good_pair, good in *; simpl in *; auto.

#[local] Hint Extern 1 (good _) => (unfold good_pair, good in *; simpl in *; assumption) : chan.

Lemma same_good {A} k (x : outcome (state * A)) :
  good k → post (env_step k) x → post good_pair x.
Proof. intros Hk Hx a Ha. unfold good_pair, good. by rewrite (Hx a Ha). Qed.

Lemma config_good call k : good k → post good_pair (config_smc_cmd_context call k).
Proof. intros Hk. eapply same_good; [done|apply config_env]. Qed.
#[local] Hint Resolve config_good : chan.

Lemma alloc_operation_good call k : good k → post good_pair (alloc_operation call k).
Proof. intros Hk. eapply same_good; [done|apply alloc_operation_env]. Qed.
#[local] Hint Resolve alloc_operation_good : chan.

Lemma alloc_call_good k : good k → post good_pair (alloc_for_client_call k).
Proof. intros Hk. eapply same_good; [done|apply alloc_call_env]. Qed.
#[local] Hint Resolve alloc_call_good : chan.

Lemma post_proc_good call k tr : good k → post good_pair (post_proc_smc_return call k tr).
Proof. intros Hk. eapply same_good; [done|apply post_proc_env]. Qed.
#[local] Hint Resolve post_proc_good : chan.

Lemma free_src_good call k tr r : good k → post good_call (free_src call k tr r).
Proof.
  intros Hk o (k' & x & -> & He & _)%free_src_env. simpl. unfold good. by rewrite He.
Qed.
#[local] Hint Resolve free_src_good : chan.

Lemma token_good call k : good k → post good_pair (run_post_process_token call k).
Proof. intros Hk. unfold run_post_process_token. chan_walk. Qed.
#[local] Hint Resolve token_good : chan.

(** The loop for pending commands is not entered. *)
Lemma finish_call_good call k tr :
  good k → is_pending tr = false → post good_call (finish_call fuel call k tr).
Proof.
  intros Hk Hp. unfold finish_call, handle_ta_pending.
  change (u32 tr =? TEEC_PENDING) with (is_pending tr). rewrite Hp. chan_walk.
Qed.
#[local] Hint Resolve finish_call_good : chan.

Lemma client_call_good call k : good k → post good_call (tc_client_call fuel call k).
Proof.
  intros Hk. unfold tc_client_call. destruct (negb _); [by apply post_ret|].
  eapply post_bind; [by apply alloc_call_good|]. intros [k1 r1] H1.
  destruct (nonzero r1); [by apply post_ret|]. eapply (post_bind good_pair).
  { destruct (nonzero _); [apply alloc_operation_good|apply post_ret]; done. }
  intros [k2 r2] H2. destruct (nonzero r2); [by apply free_src_good|].
  eapply post_bind; [by apply config_good|]. intros [k3 r3] H3.
  destruct (nonzero r3); [by apply free_src_good|]. destruct (send tc_ns_smc k3) as [k4 tr] eqn:E.
  unfold send in E. destruct (tc_ns_smc _ _ _ _) as [[[[e m] o] c] r] eqn:Es. injection E as <- <-.
  destruct (Φ_smc _ _ _ _ _ _ _ _ _ (Φ_sees _ _ H3) Es). by apply finish_call_good.
Qed.
#[local] Hint Resolve client_call_good : chan.

(** ** Loading a TA and the secure parameters *)

Lemma need_load_good e (s : St) m id u n :
  Φ e → post (λ p, Φ p.1.1.1) (tc_ns_need_load_image e s m id u n).
Proof.
  intros He. unfold tc_ns_need_load_image. chan_walk.
Qed.
#[local] Hint Resolve need_load_good : chan.

Lemma frame_loop_good n e m p op cmd dev i times loaded tr ty :
  Φ e → Φ (load_frame_loop n e m p op cmd dev i times loaded tr ty).1.1.1.
Proof.
  revert e m op cmd i loaded. induction n as [|n IH]; intros e m op cmd i loaded He; [done|].
  cbn [load_frame_loop]. destruct (_ <? _); [done|].
  destruct (load_image_copy_file _ _ _ _) as [m1 r1]. destruct (nonzero r1); [done|].
  destruct (pack_load_frame_cmd _ _ _ _) as [op1 cmd1].
  destruct (tc_ns_smc _ _ _ _) as [[[[e' m'] o'] c'] r] eqn:Es.
  destruct (Φ_smc _ _ _ _ _ _ _ _ _ He Es). destruct (nonzero r); [done|by apply IH].
Qed.

Lemma load_image_good e (s : St) m R dev fb n tr ty :
  Φ e → post (λ p, Φ p.1.1.1.1) (tc_ns_load_image e s m R dev fb n tr ty).
Proof.
  intros He. unfold tc_ns_load_image. destruct (_ || _); [by apply post_ret|].
  destruct (negb _); [by apply post_ret|]. eapply post_bind; [apply post_any|]. intros d _.
  eapply post_bind; [apply post_any|]. intros [[[s1 m1] p] r] _.
  destruct (nonzero r); [by apply post_ret|].
  match goal with |- context [if ?b then (e, m1, tr, ?z) else ?y] =>
    assert (Φ (if b then (e, m1, tr, z) else y).1.1.1) as Hl
      by (destruct b; [done|by apply frame_loop_good]);
    destruct (if b then (e, m1, tr, z) else y) as [[[e2 m2] t2] r2] end.
  chan_walk.
Qed.
#[local] Hint Resolve load_image_good : chan.

Lemma load_ta_good e (s : St) m R dev c :
  Φ e → post (λ p, Φ p.1.1.1.1) (load_ta_image e s m R dev c).
Proof. intros He. unfold load_ta_image. chan_walk. Qed.
#[local] Hint Resolve load_ta_good : chan.

Lemma send_params_good e m c dev info ree :
  Φ e → Φ (send_smc_cmd_for_secure_params e m c dev info ree).1.1.1.
Proof.
  intros He. unfold send_smc_cmd_for_secure_params. destruct (buf_copy _ _ _ _ _ _) as [r u].
  destruct (nonzero r); [done|].
  destruct (tc_ns_smc _ _ _ _) as [[[[e' m'] o'] c'] r'] eqn:Es.
  destruct (Φ_smc _ _ _ _ _ _ _ _ _ He Es). by destruct (nonzero r'); [destruct (negb _)|].
Qed.

Lemma secure_params_good e (s : St) m R g dev c q :
  Φ e → post (λ p, Φ p.1.1.1.1.1) (get_session_secure_params e s m R g dev c q).
Proof.
  intros He. unfold get_session_secure_params. destruct (_ || _); [by apply post_ret|].
  eapply post_bind; [apply post_any|]. intros d _. eapply post_bind; [apply post_any|]. intros ses _.
  destruct (init_for_alloc_secure_params _) as [[r info] [n1 n2]].
  destruct (nonzero r); [by apply post_ret|]. eapply post_bind; [apply post_any|].
  intros [[[s1 m1] ree] r1] _. destruct (nonzero r1); [by apply post_ret|].
  pose proof (send_params_good e m1 c (df_id d) info ree He) as Hs.
  destruct (send_smc_cmd_for_secure_params _ _ _ _ _ _) as [[[e2 m2] o2] r2]. chan_walk.
Qed.
#[local] Hint Resolve secure_params_good : chan.

(** ** Sessions *)

Lemma open_failed_good k c q r : good k → post good_call (open_failed k c q r).
Proof. intros Hk. unfold open_failed. chan_walk. Qed.
#[local] Hint Resolve open_failed_good : chan.

Lemma proc_open_good k dev c p q fl : good k → post good_call (proc_open_session fuel g_root k dev c p q fl).
Proof.
  intros Hk. unfold proc_open_session. eapply post_bind; [by apply load_ta_good|].
  intros [[[[e s] m] c1] r] H1. destruct (nonzero r); [by apply post_ret|].
  eapply post_bind; [by apply secure_params_good|]. intros [[[[[e2 s2] m2] R2] c2] r2] H2.
  simpl in H1, H2. chan_walk.
Qed.
#[local] Hint Resolve proc_open_good : chan.

Lemma undo_open_good k dev p q : good k → post good (undo_open k dev p q).
Proof. intros Hk. unfold undo_open. chan_walk. Qed.
#[local] Hint Resolve undo_open_good : chan.

Lemma open_session_good k dev c kp kq :
  good k → post good_call (tc_ns_open_session fuel g_root k dev c kp kq).
Proof. intros Hk. unfold tc_ns_open_session. chan_walk. Qed.
#[local] Hint Resolve open_session_good : chan.

Lemma close_session_good k dev q u n sid : good k → post good_res (close_session fuel k dev q u n sid).
Proof. intros Hk. unfold close_session. chan_walk. Qed.
#[local] Hint Resolve close_session_good : chan.

Lemma close_found_good k dev p q : good k → post good_opt (close_found fuel k dev p q).
Proof. intros Hk. unfold close_found. chan_walk. Qed.
#[local] Hint Resolve close_found_good : chan.

Lemma close_list_good n k dev p : good k → post good_opt (close_list_loop n fuel k dev p).
Proof.
  revert k. induction n as [|n IH]; intros k Hk; cbn [close_list_loop]; chan_walk.
Qed.
#[local] Hint Resolve close_list_good : chan.

Lemma close_service_good k dev p : good k → post good_opt (close_session_in_service_list fuel k dev p).
Proof. intros Hk. unfold close_session_in_service_list. chan_walk. Qed.
#[local] Hint Resolve close_service_good : chan.

Lemma close_slots_good k dev l : good k → post good_opt (close_slots_loop fuel k dev l).
Proof. revert k. induction l as [|p l IH]; intros k Hk; cbn [close_slots_loop]; chan_walk. Qed.
#[local] Hint Resolve close_slots_good : chan.

Lemma close_kthread_good k dev b :
  good k → post good_opt (close_unclosed_session_in_kthread fuel k dev b).
Proof. intros Hk. unfold close_unclosed_session_in_kthread, close_session_thread_fn. chan_walk. Qed.
#[local] Hint Resolve close_kthread_good : chan.

Lemma close_request_good k dev c : good k → post good_res (tc_ns_close_session fuel k dev c).
Proof. intros Hk. unfold tc_ns_close_session. chan_walk. Qed.
#[local] Hint Resolve close_request_good : chan.

Lemma send_request_good k dev c : good k → post good_call (tc_ns_send_cmd fuel k dev c).
Proof. intros Hk. unfold tc_ns_send_cmd. chan_walk. Qed.
#[local] Hint Resolve send_request_good : chan.

Lemma ioctl_send_good k dev c a : good k → post good_res (ioctl_session_send_cmd fuel k dev c a).
Proof. intros Hk. unfold ioctl_session_send_cmd. chan_walk. Qed.
#[local] Hint Resolve ioctl_send_good : chan.

Lemma session_ioctl_good k dev cmd arg kp kq :
  good k → post good_res (tc_client_session_ioctl fuel g_root k dev cmd arg kp kq).
Proof. intros Hk. unfold tc_client_session_ioctl. chan_walk. Qed.

(** ** Requests *)

Abbreviation drv := (driver Env St).

Lemma free_dev_good (D : drv) dev : good (dr_call D) → post (λ D', good (dr_call D')) (free_dev D dev).
Proof. intros HD. unfold free_dev. chan_walk. Qed.
#[local] Hint Resolve free_dev_good : chan.

Lemma client_close_good (D : drv) g dev :
  good (dr_call D) →
  post (λ o, match o with Some (D', _) => good (dr_call D') | None => True end)
    (tc_ns_client_close fuel D g dev).
Proof.
  intros HD. unfold tc_ns_client_close. destruct (dev =? 0); [by apply post_ret|].
  eapply post_bind; [by apply close_kthread_good|]. intros [k|] Hk; [|by apply post_ret].
  eapply post_bind; [apply post_any|]. intros A _.
  eapply post_bind; [by apply free_dev_good|]. intros D' HD'. by apply post_ret.
Qed.

Lemma request_good (D D' : drv) :
  request allowed fuel g_root D D' → good (dr_call D) → good (dr_call D').
Proof.
  intros Hr HD. destruct Hr as [D g kz D' ret dev _ E _|D g dev cmd arg D' ret _ _ Hc E|D g dev D' ret _ _ E].
  - unfold tc_client_open in E. apply bind_Ret in E as ([t r] & _ & E).
    destruct (nonzero r); [by injection E as <- _ _|].
    destruct (tc_ns_client_open _ _ _) as [[R r2] d2]. by injection E as <- _ _.
  - unfold tc_client_ioctl in E. destruct (is_session_ioctl cmd) eqn:Ec.
    + apply bind_Ret in E as ([[k r]|] & Ek & E); [|done]. injection E as <- _.
      by apply session_ioctl_good in Ek.
    + destruct Hc as [| ->]; [done|].
      change (TC_NS_CLIENT_IOCTL_LOGIN =? TC_NS_CLIENT_IOCTL_LOAD_APP_REQ) with false in E.
      change (TC_NS_CLIENT_IOCTL_LOGIN =? TC_NS_CLIENT_IOCTL_CANCEL_CMD_REQ) with false in E.
      rewrite Z.eqb_refl in E. cbv iota zeta in E.
      apply bind_Ret in E as ([[t R] r] & _ & E). by injection E as <- _.
  - unfold tc_client_close in E. destruct (_ && _); [|by apply client_close_good in E].
    apply bind_Ret in E as ([|] & _ & E).
    + apply bind_Ret in E as (A & _ & (D2 & E2 & E)%bind_Ret). injection E as <- _.
      by apply (free_dev_good (with_agents D A) dev HD) in E2.
    + apply bind_Ret in E as ([R r] & _ & E). by injection E as <- _.
Qed.

Lemma requests_good (D D' : drv) :
  rtc (request allowed fuel g_root) D D' → good (dr_call D) → good (dr_call D').
Proof. induction 1 as [|D1 D2 D3 Hr _ IH]; [done|]. intros HD. by apply IH, (request_good D1). Qed.

End Answered.

(** ** The slots of a call *)

(** The same slots are in use. *)
Definition same_slots (q q' : tc_ns_smc_queue) : Prop :=
  ∀ j, valid_slot j → in_set q' j = in_set q j.

(** One more slot is in use: [i], which holds a command of that number. *)
Definition slot_held (q q' : tc_ns_smc_queue) (i : Z) : Prop :=
  valid_slot i ∧ in_set q i = false ∧ in_set q' i = true ∧ event_nr (out_cmd q' i) = i ∧
  ∀ j, valid_slot j → j ≠ i → in_set q' j = in_set q j.

Section Slots.
Context {T : Type} {TC : TeeCore T} {TL : TeeCoreLaws T TC} {KT : KernelTime} {F : PhysMap}.
Context (pid pe_addr : Z) (Hpe : 16 < pe_addr).

Abbreviation env := (ready (T := T) pe_addr).
Abbreviation slots_of e := (rd_queue pe_addr e).

(** The slots after a command was answered [tee_ret], from [q] on. *)
Definition slots_now (q : tc_ns_smc_queue) (e : env) (c : tc_ns_smc_cmd) (tee_ret : Z) : Prop :=
  if is_pending tee_ret then slot_held q (slots_of e) (event_nr c) else same_slots q (slots_of e).

Lemma prepared_event_nr R m c c' m' :
  prepared R m c = Some (c', m') → event_nr c' = event_nr c.
Proof.
  unfold prepared. destruct (update_timestamp R m c) as [[[? ?] r]|]; [|done].
  destruct (update_chksum R c) as [[[R' c1] z]|] eqn:E; [|done].
  destruct (nonzero r); [done|]. intros [= <- _]. revert E.
  unfold update_chksum. destruct (_ =? CMD_TYPE_TA); [|by intros [= _ <- _]].
  rewrite bind_Ret. intros ([R1 p] & _ & H). destruct (p =? 0); [by injection H as _ <- _|].
  apply bind_Ret in H as (x & _ & H). apply bind_Ret in H as (R2 & _ & H).
  injection H as _ <- _. unfold scrambling_operation. by destruct (_ || _).
Qed.

(** The answer carries the number of the slot the command was sent in. *)
Lemma channel_spec_slot n reuse t q R m o c i t' m' o' a :
  channel_spec (T := T) pid n reuse t q R m o c = Some (i, t', m', o', a) →
  ∃ c1, chosen pid q c reuse = Some (i, c1) ∧ event_nr a = event_nr c1 ∧
    0 ≤ ret_val a < 2 ^ 32 ∧ ret_val a ≠ TEEC_PENDING2.
Proof.
  unfold channel_spec. destruct (chosen _ _ _ _) as [[j c1]|]; [|done]. simpl.
  destruct (prepared _ _ _) as [[c2 m2]|] eqn:Ep; [|done]. simpl.
  destruct (tee_serve _ _ _ _ _) as [[[[t1 m1] o1] a1]|] eqn:Es; [|done].
  intros [= <- <- <- <- <-]. exists c1. split; [done|].
  rewrite <- (prepared_event_nr _ _ _ _ _ Ep). by eapply serve_answer.
Qed.

Lemma pending_final a :
  0 ≤ ret_val a < 2 ^ 32 → ret_val a ≠ TEEC_PENDING2 → pending a = is_pending (ret_val a).
Proof.
  intros Hr H2. unfold pending, is_pending. rewrite u32_small by done.
  by rewrite (proj2 (Z.eqb_neq _ _) H2).
Qed.

(** Slot [i] is free in [q], whatever it is now; the answer [a] settles it. *)
Lemma slots_settled q0 q (e : env) i a :
  valid_slot i → in_set q0 i = false → event_nr a = i →
  0 ≤ ret_val a < 2 ^ 32 → ret_val a ≠ TEEC_PENDING2 →
  in_set (slots_of e) i = pending a → out_cmd (slots_of e) i = a →
  (∀ j, valid_slot j → j ≠ i → view (slots_of e) j = view q j) →
  (∀ j, valid_slot j → j ≠ i → in_set q j = in_set q0 j) →
  slots_now q0 e a (ret_val a).
Proof.
  intros Hi H0 Hev Hr H2 Hin Ho Hv Hq. rewrite (pending_final a Hr H2) in Hin.
  assert (∀ j, valid_slot j → j ≠ i → in_set (slots_of e) j = in_set q0 j) as Hj.
  { intros j Hj Hne. destruct (view_same_bits _ _ _ (Hv j Hj Hne)) as (-> & _). auto. }
  unfold slots_now. destruct (is_pending _).
  - rewrite Hev. split_and!; try done. by rewrite Ho.
  - intros j Hjv. destruct (decide (j = i)) as [->|Hne]; [by rewrite Hin|auto].
Qed.

Lemma new_call_slots (e : env) m o c e' m' o' c' z :
  ready_call pid pe_addr false e m o c = (e', m', o', c', z) → slots_now (slots_of e) e' c' z.
Proof.
  intros [(? & _)|(_ & Ho & _ & Hs)]%ready_call_cases; [done| |done].
  destruct (channel_spec _ _ _ _ _ _ _ _ _) as [[[[[i t1] m1] o1] a]|] eqn:Es;
    injection Ho as _ _ _ <- <-.
  - destruct (channel_spec_slot _ _ _ _ _ _ _ _ _ _ _ _ _ Es) as (c1 & Hc & Hev & Hr & H2).
    unfold chosen in Hc. destruct (find_free_entry _ _ _) as [k|] eqn:Ef; [|done].
    injection Hc as -> <-. apply find_free_entry_Some in Ef as (Hi & Hf & _).
    destruct Hs as (Hin & Hout & Hv).
    apply (slots_settled _ (slots_of e) e' i); try done; unfold valid_slot; lia.
  - intros j Hj. apply Hs; auto.
Qed.

Lemma again_call_slots q0 (e : env) m o c e' m' o' c' z :
  slot_held q0 (slots_of e) (event_nr c) →
  ready_call pid pe_addr true e m o c = (e', m', o', c', z) → slots_now q0 e' c' z.
Proof.
  intros (Hi & H0 & H1 & Hnr & Hj) [(_ & ? & _)|(_ & Ho & _ & Hs)]%ready_call_cases; [done| |done].
  destruct (channel_spec _ _ _ _ _ _ _ _ _) as [[[[[i t1] m1] o1] a]|] eqn:Es;
    injection Ho as _ _ _ <- <-.
  - destruct (channel_spec_slot _ _ _ _ _ _ _ _ _ _ _ _ _ Es) as (c1 & Hc & Hev & Hr & H2).
    unfold chosen in Hc. destruct (_ && _); [|done]. injection Hc as <- <-.
    destruct Hs as (Hin & Hout & Hv).
    by apply (slots_settled _ (slots_of e) e' (event_nr c)); try done; congruence.
  - destruct Hs as [Hf Hs]. intros j Hjv. destruct (decide (j = event_nr c)) as [->|Hne].
    + rewrite H0. by apply Hf.
    + rewrite Hs by auto. by apply Hj.
Qed.

(** ** Through [tc_client_call] *)

Context {St : Type} {BA : BlockAllocator St} {P : PageMap} {SC : SecureC} {SB : SecureBuf}.
Context {CM : ClientMem} {KR : KernelRandom} {KC : KernelCipher} {KA : KernelAlloc}.
Context {CU : Current} {VV : VirtValid}.

Abbreviation chan := (queue_channel (TC := TC) (TL := TL) (KT := KT) (F := F) pid pe_addr).
Abbreviation state := (call_state env St).
Abbreviation cmd_of k := (op_smc_cmd (cs_op k)).

Lemma sees_slots (e : env) R : slots_of (smc_sees (SmcChannel := chan) e R) = slots_of e.
Proof. simpl. by destruct (decide _). Qed.

Lemma send_new_slots (k k' : state) z :
  send (SMC := chan) (tc_ns_smc (SmcChannel := chan)) k = (k', z) →
  slots_now (slots_of (cs_env k)) (cs_env k') (cmd_of k') z.
Proof.
  unfold send. rewrite <- (sees_slots (cs_env k) (cs_reg k)).
  destruct (tc_ns_smc _ _ _ _) as [[[[e m] o] c] r] eqn:E. intros [= <- <-].
  by apply new_call_slots in E.
Qed.

Lemma send_again_slots q0 (k k' : state) z :
  slot_held q0 (slots_of (cs_env k)) (event_nr (cmd_of k)) →
  send (SMC := chan) (tc_ns_smc_with_no_nr (SmcChannel := chan)) k = (k', z) →
  slots_now q0 (cs_env k') (cmd_of k') z.
Proof.
  unfold send. rewrite <- (sees_slots (cs_env k) (cs_reg k)). intros Hh.
  destruct (tc_ns_smc_with_no_nr _ _ _ _) as [[[[e m] o] c] r] eqn:E. intros [= <- <-].
  by apply (again_call_slots _ _ _ _ _ _ _ _ _ _ Hh) in E.
Qed.

Lemma post_process_same call (k k' : state) r :
  run_post_process_token call k = Ret (k', r) → cs_env k' = cs_env k ∧ cs_op k' = cs_op k.
Proof.
  unfold run_post_process_token. intros ([[m R] z] & _ & E)%bind_Ret. by injection E as <- _.
Qed.

Lemma pending_loop_slots q0 fuel call (k : state) tr k' tr' r :
  slots_now q0 (cs_env k) (cmd_of k) tr → is_pending tr = true →
  pending_loop (SMC := chan) fuel call k tr = Ret (Some (k', tr', r)) →
  slots_now q0 (cs_env k') (cmd_of k') tr' ∧ (is_pending tr' = true → r ≠ 0).
Proof.
  revert k tr. induction fuel as [|fuel IH]; intros k tr Hn Hp; cbn [pending_loop]; [done|].
  intros (R & _ & E)%bind_Ret. apply bind_Ret in E as ([[m R1] z] & _ & E).
  destruct (nonzero z) eqn:Ez; [injection E as <- <- <-; by apply nonzero_true in Ez|].
  unfold slots_now in Hn. rewrite Hp in Hn.
  destruct (send _ _) as [k1 tr1] eqn:Es. apply (send_again_slots q0) in Es; [|done].
  apply bind_Ret in E as ([k2 r2] & E2 & E).
  destruct (post_process_same _ _ _ _ E2) as [He Hc]. rewrite <- He, <- Hc in Es.
  destruct (nonzero r2) eqn:Er; [injection E as <- <- <-; by apply nonzero_true in Er|].
  change (u32 tr1 =? TEEC_PENDING) with (is_pending tr1) in E.
  destruct (is_pending tr1) eqn:E1; [by apply IH in E|].
  injection E as <- <- <-. by rewrite E1.
Qed.

(** The slots after a call that reports [x] and returns [r]. *)
Definition slots_end (q : tc_ns_smc_queue) (k' : state) (x : tc_ns_client_context) (r : Z)
    : Prop :=
  if is_pending (returns_code x)
  then r ≠ 0 ∧ ∃ i, slot_held q (slots_of (cs_env k')) i
  else same_slots q (slots_of (cs_env k')).

Lemma free_src_slots q call (k : state) tr r k' x r' :
  slots_now q (cs_env k) (cmd_of k) tr → (is_pending tr = true → r ≠ 0) →
  free_src call k tr r = Ret (Some (k', x, r')) → slots_end q k' x r'.
Proof.
  intros Hn Hr (k1 & x1 & [= <- <- <-] & He & Hx)%free_src_env. unfold slots_end, same_env in *.
  rewrite He, Hx. unfold slots_now in Hn. destruct (is_pending tr); [|done]. split; eauto.
Qed.

Lemma finish_call_slots q fuel call (k : state) tr k' x r :
  slots_now q (cs_env k) (cmd_of k) tr →
  finish_call (SMC := chan) fuel call k tr = Ret (Some (k', x, r)) → slots_end q k' x r.
Proof.
  unfold finish_call. intros Hn ([k1 r1] & E1 & E)%bind_Ret.
  destruct (post_process_same _ _ _ _ E1) as [He Hc]. rewrite <- He, <- Hc in Hn.
  destruct (nonzero r1) eqn:Er1; [by eapply free_src_slots; [|by apply nonzero_true in Er1|done]|].
  apply bind_Ret in E as ([[[k2 tr2] r2]|] & E2 & E); [|done].
  assert (slots_now q (cs_env k2) (cmd_of k2) tr2 ∧ (is_pending tr2 = true → r2 ≠ 0)) as [Hn2 Hr2].
  { unfold handle_ta_pending in E2. change (u32 tr =? TEEC_PENDING) with (is_pending tr) in E2.
    destruct (is_pending tr) eqn:Ep; [exact (pending_loop_slots _ _ _ _ _ _ _ _ Hn Ep E2)|].
    injection E2 as <- <- _. by rewrite Ep. }
  destruct (nonzero r2) eqn:Er2; [by eapply free_src_slots|].
  apply bind_Ret in E as ([k3 r3] & E3%post_proc_env & E). unfold env_step, same_env in E3.
  apply nonzero_false in Er2. assert (is_pending tr2 = false) as Ep.
  { destruct (is_pending tr2); [|done]. by destruct Hr2. }
  eapply free_src_slots; [|by rewrite Ep|done]. unfold slots_now in *. rewrite Ep in *.
  simpl in E3. by rewrite E3.
Qed.

(** Without a slot taken, and with the context as it was if nothing was sent. *)
Definition slots_result (call : tc_call_params) (q : tc_ns_smc_queue) (k' : state)
    (x : tc_ns_client_context) (r : Z) : Prop :=
  (x = call_context call ∧ r ≠ 0 ∧ same_slots q (slots_of (cs_env k'))) ∨ slots_end q k' x r.

Lemma nothing_sent_slots q call (k : state) r k' x r' :
  q = slots_of (cs_env k) → free_src call k 0 r = Ret (Some (k', x, r')) → slots_end q k' x r'.
Proof. intros ->. by apply free_src_slots. Qed.

Lemma client_call_slots fuel call (k : state) k' x r :
  tc_client_call (SMC := chan) fuel call k = Ret (Some (k', x, r)) →
  slots_result call (slots_of (cs_env k)) k' x r.
Proof.
  unfold tc_client_call. destruct (negb _); [intros [= <- <- <-]; left; by split_and!|].
  intros ([k1 r1] & E1%alloc_call_env & E)%bind_Ret. unfold env_step, same_env in E1. simpl in E1.
  rewrite <- E1. destruct (nonzero r1); [injection E as <- <- <-; left; by split_and!|]. right.
  apply bind_Ret in E as ([k3 r3] & E3 & E). assert (cs_env k3 = cs_env k1) as Hk3.
  { destruct (nonzero _); [by apply alloc_operation_env in E3|by injection E3 as <- _]. }
  rewrite <- Hk3. destruct (nonzero r3); [exact (nothing_sent_slots _ _ k3 _ _ _ _ eq_refl E)|].
  apply bind_Ret in E as ([k4 r4] & E4%config_env & E). unfold env_step, same_env in E4. simpl in E4.
  rewrite <- E4. destruct (nonzero r4); [exact (nothing_sent_slots _ _ k4 _ _ _ _ eq_refl E)|].
  destruct (send _ k4) as [k5 tr] eqn:E5. apply send_new_slots in E5.
  by apply (finish_call_slots _ _ _ _ _ _ _ _ E5) in E.
Qed.

End Slots.

(** ** The composed stack *)

Section Composed.
Context {T : Type} {TC : TeeCore T} {TL : TeeCoreLaws T TC} {KT : KernelTime} {F : PhysMap}.
Context {P : PageMap} {PL : PageMapLaws P} {SC : SecureC} {SL : SecureCLaws SC}.
Context {SB : SecureBuf} {CM : ClientMem} {UA : UserAccess}.
Context {KR : KernelRandom} {KC : KernelCipher} {KA : KernelAlloc} {CU : Current}.
Context {VV : VirtValid} {VL : VirtValidLaws mailbox mailbox_allocator VV} {CR : Agent.Caller} {DL : DevLayout}.
Context {SS : SecureStr} {HS : Shash} {TK : Task} {UM : UserMap} {TS : TaskState}.
Context (allowed : list ca_info) (fuel : nat) (g_root : session_crypto_info) (pid pe_addr : Z).

Abbreviation chan := (queue_channel (TC := TC) (TL := TL) (KT := KT) (F := F) pid pe_addr).
Abbreviation env := (ready (T := T) pe_addr).
Abbreviation regd D := (cs_reg (dr_call D)).
Abbreviation slots_of k := (rd_queue pe_addr (cs_env k)).

(** No command is left pending [fuel] times. *)
Definition core_bounded : Prop := ∀ t : T, (core_rank t < fuel)%nat.

Lemma core_tee_bounded (Hpe : 16 < pe_addr) :
  core_bounded → tee_bounded (SMC := chan) (TB := queue_behaves pid pe_addr Hpe) fuel.
Proof. intros H e m o c. apply H. Qed.

(** The TEE never leaves a command pending. *)
Definition core_final : Prop :=
  ∀ (t : T) m o c t' m' o' a, tee_run t m o c = (t', m', o', a) → ret_val a ≠ TEEC_PENDING.

Lemma serve_final n (t : T) m o c t' m' o' a :
  core_final → tee_serve n t m o c = Some (t', m', o', a) → ret_val a ≠ TEEC_PENDING.
Proof.
  intros Hc. revert t m o c. induction n as [|n IH]; intros t m o c; simpl;
    destruct (tee_run t m o c) as [[[t1 m1] o1] b] eqn:Er; pose proof (Hc _ _ _ _ _ _ _ _ Er);
    (destruct (_ =? TEEC_PENDING2); [destruct (_ =? CMD_TYPE_TA); [done|]|]); try done.
  1,3: by intros [= _ _ _ <-].
  apply IH.
Qed.

(** Every command gives its slot back. *)
Lemma final_slots q (e : env) m o c e' m' o' c' z :
  16 < pe_addr → core_final → same_slots q (rd_queue pe_addr e) →
  tc_ns_smc (SmcChannel := chan) e m o c = (e', m', o', c', z) →
  same_slots q (rd_queue pe_addr e') ∧ is_pending z = false.
Proof.
  intros Hpe Hc Hq E. assert (is_pending z = false) as Hz.
  { destruct (ready_call_cases pid pe_addr Hpe _ _ _ _ _ _ _ _ _ _ E) as [(? & _)|(_ & Ho & _)]; [done|].
    destruct (channel_spec _ _ _ _ _ _ _ _ _) as [[[[[i t1] m1] o1] a]|] eqn:Es;
      injection Ho as _ _ _ _ <-; [|done].
    destruct (channel_spec_slot pid _ _ _ _ _ _ _ _ _ _ _ _ _ Es) as (_ & _ & _ & Hr & _).
    destruct (channel_spec_served pid _ _ _ _ _ _ _ _ _ _ _ _ _ Es) as (? & ? & Hs).
    unfold is_pending. rewrite u32_small by done. apply Z.eqb_neq. by apply serve_final in Hs. }
  split; [|done]. apply (new_call_slots pid pe_addr Hpe) in E. unfold slots_now in E. rewrite Hz in E.
  intros j Hj. by rewrite E, Hq.
Qed.

(** C1. A client call over the driver's own mailbox and command queue.  One
    caller uses the queue at a time; every SMC to the TEE exits normally; the
    TEE leaves the driver's pointers in the operation and the slot numbers
    alone, asks for agents boundedly often, and answers [TEEC_PENDING] to the
    same command fewer than [fuel] times.  Under these assumptions, whatever
    else the client passes and the TEE and its agents answer, and whichever
    allocations and copies fail, [tc_client_call] on the mailbox pool and with
    its commands sent through [proc_tc_ns_smc] returns; the pool has handed out
    the blocks it had before and the shared buffers have their old counts.
    Either the slots of the queue in use are those in use before, or the call
    has broken off with an error while the TEE had left its command pending,
    and holds exactly one slot more. *)
Theorem stack_call_balanced call (k : call_state env mailbox) L :
  16 < pe_addr → core_bounded → call_pre (cs_reg k) call → pool_owns (cs_pool k) L →
  ∃ k' x r, tc_client_call (SMC := chan) fuel call k = Ret (Some (k', x, r)) ∧
    pool_owns (cs_pool k') L ∧ g_shared (cs_reg k') = g_shared (cs_reg k) ∧
    reg_like (cs_reg k) (cs_reg k') ∧
    ((same_slots (slots_of k) (slots_of k') ∧
        (is_pending (returns_code x) = true → x = call_context call ∧ r ≠ 0)) ∨
     (r ≠ 0 ∧ is_pending (returns_code x) = true ∧
        ∃ i, slot_held (slots_of k) (slots_of k') i)).
Proof.
  intros Hpe Hf Hpre Ho.
  destruct (client_call_balanced (SMC := chan) (TB := queue_behaves pid pe_addr Hpe) (cs_reg k) L
    fuel call k Hpre ltac:(reflexivity) eq_refl Ho (core_tee_bounded Hpe Hf))
    as (k' & x & r & E & Ho' & Hr & Hs).
  exists k', x, r. split_and!; [done..|].
  apply (client_call_slots pid pe_addr Hpe) in E as [(-> & ? & ?)|E]; [by left|].
  unfold slots_end in E. destruct (is_pending _); [right; naive_solver|by left].
Qed.

(** C2. The driver over its own mailbox and command queue, used by one caller at
    a time, with SMCs that exit normally and a TEE that leaves the driver's
    pointers and slot numbers alone, asks for agents boundedly often and
    answers [TEEC_PENDING] to the same command fewer than [fuel] times.  Take
    any sequence of opening the device, opening, using and closing sessions,
    logging in and closing the device, in which a device file with open
    sessions is closed neither by the exiting daemon nor when the closing
    thread cannot be created.  After it every counter of the registry is exact,
    the mailbox owns the blocks it owned, the queue is ready for the next
    command, and the next session request, or such a close, returns without a
    fault.  If the TEE never leaves a command pending, the slots of the queue
    in use are those in use at the start. *)
Theorem stack_requests_safe L (D D' : driver env mailbox) :
  16 < pe_addr → core_bounded → driver_ok L D →
  rtc (request (SMC := chan) allowed fuel g_root) D D' →
  driver_ok L D' ∧ ready_ok pe_addr (rd_sys pe_addr (cs_env (dr_call D'))) ∧
  (core_final → same_slots (slots_of (dr_call D)) (slots_of (dr_call D'))) ∧
  (∀ g dev cmd arg, is_Some (g_devs (regd D') !! dev) → fresh (regd D') g →
     is_session_ioctl cmd = true →
     ∃ D'' r, tc_client_ioctl (SMC := chan) allowed fuel g_root D' g dev cmd arg
       = Ret (Some (D'', r))) ∧
  (∀ g dev, is_Some (g_devs (regd D') !! dev) → closable D' g dev →
     ∃ D'', tc_client_close (SMC := chan) fuel D' g dev = Ret (Some (D'', 0))).
Proof.
  intros Hpe Hf Hok Hs. pose proof (core_tee_bounded Hpe Hf) as Hb.
  pose proof (requests_ok (TB := queue_behaves pid pe_addr Hpe) _ _ _ L D D' Hb Hok Hs) as Hok'.
  split; [done|]. split; [apply rd_ok|]. split; [|split; intros *].
  - intros Hc. apply (requests_good (SMC := chan) allowed fuel g_root
      (λ e, same_slots (slots_of (dr_call D)) (rd_queue pe_addr e))) with (D := D); [| |done|done].
    + intros e R He. by rewrite sees_slots.
    + intros *. by apply final_slots.
  - by apply (next_ioctl (TB := queue_behaves pid pe_addr Hpe) _ _ _ L).
  - by apply (next_close (TB := queue_behaves pid pe_addr Hpe) _ L).
Qed.

End Composed.

(** ** A client with one session over the stack *)

(** A TEE that leaves a command pending once, if it is in state [true]. *)
Definition wait_core : TeeCore bool := {|
  tee_run t m o c := (false, m, o, with_ret_val c (if t : bool then TEEC_PENDING else TEEC_SUCCESS));
  agent_work t _ _ := t
|}.

Definition wait_core_laws : TeeCoreLaws bool wait_core.
Proof.
  refine {| core_fuel := 0%nat; core_rank (t : bool) := if t then 1%nat else 0%nat |}.
  - by intros t m o c t' m' o' a [= <- <- <- <-].
  - by intros [] m o c t' m' o' a [= <- <- <- <-].
  - intros [] m o c; by eexists.
  - intros [] m o c t' m' o' a [= <- <- <- <-]; simpl; done || lia.
Defined.

Definition slot_session : tc_ns_session :=
  Session 5 1000 zero_secure_info (Token (Some (replicate 42 0)) 42) [] 0 1.

Definition slot_registry : registry :=
  Registry {[ 3000 := slot_session ]}
    {[ 2000 := Service demo_uuid [3000] 1 ]} {[ 1000 := open_dev ]} ∅ [2000] [1000] 2.

(** A command of session 5; the client says that its token area has [n] bytes. *)
Definition slot_call (n : Z) : tc_call_params :=
  CallParams 1000
    (ClientContext demo_uuid 5 7 0 0 0 0 (replicate 4 (ClientParam 0 0 0)) 0 0 0x300 n 0 0 0)
    3000 0.

Definition wait_ready : ready (T := bool) 100 := Ready 100 true demo_sys demo_ready_ok.

Definition slot_state : call_state (ready (T := bool) 100) mailbox :=
  CallState wait_ready demo_pool ∅ slot_registry demo_op INVALID_TZMP_UID.

Abbreviation wait_channel :=
  (queue_channel (TC := wait_core) (TL := wait_core_laws) (KT := hz100) (F := linear_phys) 42 100).

Abbreviation slot_run n :=
  (tc_client_call (BA := mailbox_allocator (P := linear_map) (SC := boundscheck))
     (SMC := wait_channel) (P := linear_map) (SC := boundscheck) (SB := bounds_buf)
     (CM := flat_client) (KR := demo_random) (KC := xor_cipher) (KA := demo_alloc_ok_all)
     (CU := demo_current) (VV := linear_valid) 2 (slot_call n) slot_state).

(** Status and reported status of a run, and whether slot 0 is in use after it. *)
Definition slot_result (n : Z) : option (Z * Z * bool) :=
  match slot_run n with
  | Ret (Some (k, x, r)) => Some (r, returns_code x, in_set (rd_queue 100 (cs_env k)) 0)
  | _ => None
  end.

Lemma slot_pre n : call_pre slot_registry (slot_call n).
Proof.
  split.
  - intros _. apply (bool_decide_unpack _). vm_compute. exact I.
  - split; [by eexists|]. right. by eexists.
  - intros p x Hx. cbn [g_shared slot_registry] in Hx. by rewrite lookup_empty in Hx.
  - intros d q Hd Hq. cbn [g_devs slot_registry] in Hd.
    apply lookup_singleton_Some in Hd as [_ <-]. by apply elem_of_nil in Hq.
  - intros i _. by eexists.
Qed.

Lemma wait_bounded : core_bounded (TL := wait_core_laws) 2.
Proof. intros []; simpl; lia. Qed.

Lemma stack_call_balanced_witness :
  ∃ k' x, slot_run TOKEN_SAVE_LEN = Ret (Some (k', x, 0)) ∧
    pool_owns (P := linear_map) (cs_pool k') ∅ ∧
    same_slots (rd_queue 100 wait_ready) (rd_queue 100 (cs_env k')).
Proof.
  destruct (stack_call_balanced (T := bool) (TC := wait_core) (TL := wait_core_laws) (KT := hz100)
    (F := linear_phys) (P := linear_map) (SC := boundscheck) (SB := bounds_buf) (CM := flat_client)
    (KR := demo_random) (KC := xor_cipher) (KA := demo_alloc_ok_all) (CU := demo_current)
    (VV := linear_valid) 2 42 100 (slot_call TOKEN_SAVE_LEN) slot_state ∅ ltac:(lia) wait_bounded
    (slot_pre _) demo_pool_owns) as (k' & x & r & E & Ho & _ & _ & Hs).
  assert (match slot_run TOKEN_SAVE_LEN with Ret (Some (_, _, r)) => r =? 0 | _ => false end = true)
    as Hr by (vm_compute; reflexivity).
  rewrite E in Hr. apply Z.eqb_eq in Hr.
  destruct Hs as [[Hs _]|[Hn _]]; [|exfalso; exact (Hn Hr)].
  exists k', x. rewrite <- Hr. split; [exact E|]. split; [exact Ho|exact Hs].
Defined.

(** A short token area costs a slot of the queue.  The client chooses
    the length it reports for its token; it is checked only after the TEE has
    answered.  If the answer is pending the call ends with [EFAULT] and the
    slot stays in use, while the same call with the right length gives it
    back. *)
Theorem short_token_keeps_slot :
  in_set (rd_queue 100 (cs_env slot_state)) 0 = false ∧
  slot_result 0 = Some (- EFAULT, TEEC_PENDING, true) ∧
  slot_result TOKEN_SAVE_LEN = Some (0, TEEC_SUCCESS, false).
Proof. vm_compute. by split_and!. Qed.

(** A TEE that answers every command at once. *)
Definition prompt_core : TeeCore unit := {|
  tee_run t m o c := (t, m, o, with_ret_val c TEEC_SUCCESS);
  agent_work t _ _ := t
|}.

Definition prompt_core_laws : TeeCoreLaws unit prompt_core.
Proof.
  refine {| core_fuel := 0%nat; core_rank _ := 0%nat |}.
  - by intros t m o c t' m' o' a [= <- <- <- <-].
  - by intros t m o c t' m' o' a [= <- <- <- <-].
  - intros t m o c; by eexists.
  - by intros t m o c t' m' o' a [= <- <- <- <-].
Defined.

Lemma prompt_final : core_final (TC := prompt_core).
Proof. by intros t m o c t' m' o' a [= _ _ _ <-]. Qed.

Lemma prompt_bounded : core_bounded (TL := prompt_core_laws) 1.
Proof. intros []. simpl. lia. Qed.

Definition prompt_ready : ready (T := unit) 100 := Ready 100 tt demo_sys demo_ready_ok.

Abbreviation prompt_channel :=
  (queue_channel (TC := prompt_core) (TL := prompt_core_laws) (KT := hz100) (F := linear_phys) 42 100).

(** The device file of [open_driver], over the stack. *)
Definition stack_driver : driver (ready (T := unit) 100) mailbox :=
  Driver (CallState prompt_ready demo_pool ∅ open_registry demo_op INVALID_TZMP_UID)
    (AgentControl ∅ []) teecd_init 0.

Lemma stack_driver_ok :
  driver_ok (BA := mailbox_allocator (P := linear_map) (SC := boundscheck)) ∅ stack_driver.
Proof.
  split; [exact open_registry_inv|exact open_registry_shares|done|exact no_agents_ok|exact demo_pool_owns].
Qed.

Section Demo.
#[local] Existing Instance linear_map.
#[local] Existing Instance boundscheck.
#[local] Existing Instance bounds_buf.
#[local] Existing Instance bounds_str.
#[local] Existing Instance flat_client.
#[local] Existing Instance demo_random.
#[local] Existing Instance xor_cipher.
#[local] Existing Instance demo_alloc_ok_all.
#[local] Existing Instance demo_current.
#[local] Existing Instance linear_valid.
#[local] Existing Instance root_caller.
#[local] Existing Instance copy_hash.
#[local] Existing Instance working_map.
#[local] Existing Instance demo_access_ok.
#[local] Existing Instance demo_layout.
#[local] Existing Instance demo_process.
#[local] Existing Instance demo_task_state.
#[local] Existing Instance prompt_core.
#[local] Existing Instance prompt_core_laws.
#[local] Existing Instance hz100.
#[local] Existing Instance linear_phys.

(** The client closes the device. *)
Lemma stack_requests_safe_witness :
  ∃ D' : driver (ready (T := unit) 100) mailbox, D' ≠ stack_driver ∧ driver_ok ∅ D' ∧
    same_slots (rd_queue 100 prompt_ready) (rd_queue 100 (cs_env (dr_call D'))).
Proof.
  assert (16 < 100) as Hpe by lia.
  destruct (client_close_inv (SMC := prompt_channel) (TB := queue_behaves 42 100 Hpe) 1
    (core_tee_bounded 1 42 100 Hpe prompt_bounded) ∅ stack_driver (demo_gives true) 1000 stack_driver_ok
    (ex_intro _ open_dev eq_refl) eq_refl) as (D' & E & _ & Hd & _).
  exists D'. split.
  - intros ->. assert (g_devs open_registry !! 1000 = None) as Hn
      by (change (g_devs open_registry) with (g_devs (cs_reg (dr_call stack_driver)));
          rewrite Hd; reflexivity).
    discriminate Hn.
  - destruct (stack_requests_safe [] 1 demo_root 42 100 ∅ stack_driver D' Hpe prompt_bounded
      stack_driver_ok) as (Hok & _ & Hs & _); [|split; [exact Hok|exact (Hs prompt_final)]].
    apply rtc_once. apply (rq_close [] 1 demo_root stack_driver (demo_gives true) 1000 D' 0);
      [eexists; reflexivity|left; split; reflexivity|exact E].
Defined.

End Demo.
